(* ===== verification/_CoqProject ===== *)
-Q . S2P
Prelude.v
Crc16.v
MakeraFrame.v
FrameWire.v
FrameResync.v
ClientTable.v
ControlToken.v
Publish.v
Hello.v
IdentityCheck.v
HelloHandling.v
Ring.v
RingBuffer.v
Md5.v
Sines.v
Rfc1321.v
JobStartWait.v
TransferBusy.v
ConsoleRx.v
JobBuffer.v
JobStream.v
Binary32.v
BlockQueue.v
StepperMotor.v
Conveyor.v
StepTicker.v
Motion.v
Planner.v
Arith.v
Robot.v
RobotAxis.v
RobotMoves.v
RobotConfig.v
RobotGeometry.v
RobotLimits.v
RobotArcs.v
SoftEndstops.v
CString.v
Files.v
OCode.v
Gcode.v
ConfigCache.v
ConfigFile.v
Configurator.v
GcodeDispatch.v
Programs.v
