(* ===== verification/Prelude.v ===== *)
(** * Carvera community firmware: verification library

    A model of the firmware's core, translated from the C++ under [src/src], with
    the theorems that make it correct. The machine is driven by several
    controllers at once, over WiFi and USB, through a framed protocol; the code
    modelled here decides what bytes are frames, who is connected, who is
    identified, who is in control, what they are told, and when a job starts;
    then which of the job's lines are run, in which order, and how the blocks
    of motion they become are stepped by the timer interrupt.

    ** How the parts fit

    Bytes from a link go through the frame decoder ([MakeraFrame.cpp]) and the
    resynchroniser around it ([FrameResync.cpp]). A frame's type ([PublicData.h])
    says what it is: a hello, which the link's handler answers
    ([WifiProvider.cpp], [SerialConsole.cpp]) with the help of the identity
    check; a command, which the control token gates ([ControlToken.cpp]); a
    realtime byte ([MakeraControl.cpp]); a presence reply, a ready message, and
    so on. Who is connected is the shared client table ([ClientTable.cpp]). What
    goes out is built by [Publish.cpp], [Hello.cpp] and [TransferBusy.cpp] and
    carries the same CRC ([CRC16.h]). A started job is held while other
    controllers load it ([JobStartWait.cpp]), hashed with [md5.cpp].

    On the text side, the receive interrupts put what a link sends into rings
    ([SerialConsole.cpp], [WifiProvider.cpp], [RingBuffer.h]) from which the main
    loop takes whole lines. A job is played from a file, its O-codes steering
    which lines come next ([Player.cpp], [OCodeHandler.cpp]), or streamed line
    by line by a controller into a buffer ([PlayerLineSources.cpp]). A line,
    from a console or a job, is cut into commands ([GcodeDispatch.cpp]), each read
    as a G-code with its words and expressions ([Gcode.cpp]) and handed to the
    modules. What the modules are to use is set in files ([Config.cpp],
    [ConfigCache.cpp], [ConfigSources]), shown and changed by commands
    ([Configurator.cpp]). The robot keeps the machine's coordinates and makes
    moves of the G-codes, lines and arcs cut into milestones ([Robot.cpp]). The planner
    puts blocks of motion on the conveyor's ring ([BlockQueue.cpp],
    [Conveyor.cpp]); the step interrupt runs them ([StepTicker.cpp]) on the
    motors ([StepperMotor.cpp]); the idle loop cleans them up.

    ** The files

    - [Prelude]: machine integers as [Z] with explicit wraps ([u8] .. [u64],
      [s32]), big-endian fields and their round trips, record update
      ([r <| f := v |>]), reachability ([star]), the tactics.
    - [Crc16]: [crc16::ccitt] and its table; proved to be the polynomial
      remainder, and to detect every burst of up to 16 bits.
    - [MakeraFrame]: [makera::FrameDecoder], one [Definition] per member, a byte
      at a time. [FrameWire]: what it does on a wire. Every frame sent is
      delivered, only checksummed frames are, a lost byte costs one frame,
      damage is detected, all buffer accesses are in bounds.
    - [FrameResync]: [FrameResync] and [take_frames]; refines the decoder on clean
      input and reports header errors on the documented schedule.
    - [ClientTable]: [ClientTable] and [Client]; the table's invariant over every
      operation, the old-client rule's order, the send loop and its bounded wait
      (the WiFi driver is a parameter, with what the loop relies on as named
      hypotheses, [driver_ok]).
    - [ControlToken]: the gate. Mutual exclusion, agreement of [peek] with [gate],
      reconciliation with the table, what may run as an automatic command.
    - [Publish]: [publish_due], the event builders and console lines. Builders
      never write past their capacity; a console line cut into frames is put
      together again by its reader.
    - [Hello]: packet types, realtime bytes, hello and client-list messages;
      parsing accepts exactly the hellos and reads them back.
    - [IdentityCheck]: [multiclient::IdentityCheck] and its decision. A history of
      a check is a list of timed events; nobody is removed or refused without
      cause, and a silent entry gives way.
    - [HelloHandling]: the handlers of both links over the shared state, as one
      transition system with the rest of the firmware as its environment: no two
      clients are ever identified under one id, and identifying brings no
      control.
    - [Md5]: the streaming digest computes what the code's own block transform makes
      of the whole padded message. [Rfc1321]: the standard, written apart from the
      code (its constants are whole parts of real sines), and that the transform and
      so the digest are the standard's. [Sines]: the sines of 1 to 64, enclosed by
      integers to more places than the constants have.
    - [JobStartWait]: the held start's decision, its hash, what is kept of the
      frames sent meanwhile.
    - [TransferBusy]: busy replies, notices, the reply limiter and the small gates.
    - [Ring]: arithmetic of positions going round a ring, shared by the rings.
      [RingBuffer]: the power-of-two ring of characters; a push into a full one
      empties it.
    - [ConsoleRx]: each byte of the receive interrupts in text and framed mode,
      on both links, and the lines the main loop takes out: whole lines come out
      as they went in, framed bytes in order, and of a large WiFi text read
      exactly a tail is kept.
    - [JobBuffer]: the ring of streamed lines refines a queue of lines.
      [JobStream]: the player's streamed state machine and packets: lines are run
      in the order of their numbers, none twice; a turn of the main loop ends.
    - [BlockQueue]: blocks and the ring's three indices; its regions (free, to be
      cleaned, to be run). [StepperMotor]: pins, steps, milestones. [Conveyor]:
      each operation on the queue. [StepTicker]: the step interrupt; a block
      takes exactly its steps on every motor, and ends. [Motion]: all of them
      with the interrupt between any two accesses of the main loop: blocks are
      run once, in order, never while they are prepared or cleaned, and a halt
      empties the queue.
    - [Binary32]: [float] and [double] arithmetic exactly, on the bits of the
      standard's formats, with what the processor's conversions do out of range.
      [Planner]: junction speeds, the two passes over the ring and the ramps, in
      that arithmetic: whatever is planned, queued, run, halted or aborted, no
      block of those in the queue is to be entered faster than the one before can
      leave it, nor faster than either of the two is to run, and every
      speed is a number.
    - [Arith]: the arithmetic the robot computes with, an interface with two
      instances: [binary32], single precision on its bits, and [real], the real
      numbers (theorems there rest on the axioms of the Standard Library's reals).
      [Robot]: the robot's state, the nine coordinate systems, offsets, modes and
      positions; the motors ([Axis]) and the rest of the firmware ([Machine]) are
      interfaces; a monad of commands. [RobotAxis]: the stepper motors as axes, and a
      machine at rest for examples. [RobotMoves]: G and M codes, targets, lines,
      arcs, milestones; every command keeps the state well formed. [RobotConfig]: the
      settings and the start, after which the state is well formed.
      [RobotGeometry]: in the reals, machine and work coordinates there and back, a
      move's target is what its words mean, a position told is the one read.
      [RobotLimits]: rate and acceleration are within what each axis can do; a line is
      the straight way in equal pieces. [RobotArcs]: the angle turned brings an arc
      from its beginning to its end; the places its loop sends the machine to, one
      after the other, and how far from the circle each is.
      [SoftEndstops]: a homed machine inside its soft endstops stays inside.
    - [CString]: the C and C++ text functions the parsers use, on lists of
      characters: numbers, blanks, searches, pieces, with their bounds.
    - [Files]: a text file as [stdio] reads it, a line at a time, and its lines.
    - [OCode]: the O-code handler and the player's loop. A structured program
      (inductive type [prog], meaning [exec]) run line by line through the
      handler's stack, seeks and skips dispatches exactly what it means; the
      handler's state stays well typed; a turn of the player ends.
    - [Gcode]: a command's letters and numbers, the variables, and the evaluator of
      expressions, a recursive descent over the text. The expressions are an
      inductive type, [expr], with their [value]; what is written as one is
      evaluated to its value or, where it has none, halts the machine. A variable
      that is set keeps its value; a command is taken apart into what it is.
    - [GcodeDispatch]: the handler of a console line. Any line is dispatched; its
      commands reach the modules once and in order, or the file being uploaded;
      what a halted machine lets through; every line of commands is answered.
    - [Programs]: these three put together. A job, as a tree of assignments, lines of
      commands, conditionals and loops, is run from its file as it is written: the
      modules are handed the G-codes its meaning says, and the variables end with
      the values it says, as long as they take each of them without a halt or an error.

    - [ConfigCache]: keys and their checksums, which agree however they are computed;
      values; the cache in its chunks, which is a map. [ConfigFile]: files of
      settings, with the files they include: what is loaded is the last setting of
      each key; one setting is read, written over or added, and removed, and no
      other is touched. [Configurator]: the commands that do so: what is set is
      what is shown.

    ** Conventions

    A definition that models code carries the lines it models and keeps the
    source's name where Rocq allows it (a trailing underscore or a prefix tells
    apart what C++ tells apart by scope). A class is a [Record] of its members; a
    member function takes the object and returns the new one with its result. A
    buffer is the list of its bytes, a pointer that may be null an [option], or
    the empty list where the code treats null and empty alike. Counters of
    microseconds are 32-bit and wrap; theorems about elapsed time speak of true
    times and say how often the code must look.

    Loops that are not structural take fuel. Each bound is stated where it is
    chosen and proved enough: the decoder retries a byte at most once per byte
    held ([FrameWire.decode_byte_total]), the check's loops end in two turns
    ([HelloHandling.drives_return]), the send loop in the driver's patience
    ([ClientTable.send_loop_total]), and the scans of a buffer in its length
    ([TransferBusy.needs_busy_reply_fuel], [Md5.MD5.chunks_spec]). A flush walks
    round the ring of blocks at most once ([Conveyor.flush_ring_spec]); the waits
    of a halt end when the step interrupt and the idle loop go on
    ([Motion.on_halt_empties_queue]); the planner's passes in the ring's length
    ([Planner.recalculate_ok]); a search through a file, and a turn of the
    player, in the characters left ([OCode.play_turn_returns]); the evaluator in
    four times the text's length and four ([Gcode.fuel_for], [Gcode.parse_fine]);
    the dispatcher in the line's ([GcodeDispatch.line_dispatched]); a streamed turn in
    the lines queued ([JobStream.main_loop_turn_total]); a file of settings in its
    length ([ConfigFile.search_returns]), with its inclusions where they go in no
    circle ([ConfigFile.acyclic_ends]; the code does not end where they do). The robot's waits, in a feed hold or a dwell, take a number of
    turns of the idle loop as an argument ([hold]), since the rest of the firmware
    ends them, not the robot: what holds holds for every number. What [None] means where a
    definition returns an [option] is said at the definition.

    ** What is not modelled

    Drivers and registers (LPC17xx, mbed, the M8266 WiFi module, USB), file
    systems, and third-party code are parameters or are left out. That the
    ticks of every trapezoid satisfy [StepTicker.timing_ok], which the theorems on
    a block's steps assume, is not proved of the planner. Of the robot, the arms other than the
    cartesian one are left out (the firmware is built without them), and the extruder's
    scale, which nothing sets; a powf of a number and two is its square; what bends
    the bed's shape into a move ([compensationTransform]) is a parameter. In [OCode] expressions are the interface [OCode.Kernel], which
    [Programs.kernel_of_player] implements; in [Gcode] the C library's functions and [strtof]'s value of a numeral are the interface
    [Gcode.CLib], and what the robot and the spindle answer is a record. What the
    modules make of a G-code is a parameter of [GcodeDispatch]. Of the player, suspend
    and resume, progress reports and the compressed sources are left out.
    What the other modules make of their settings, homing and probing, the tool
    changer, the other tools and the shell are separate components that are not in the
    library: scripts over sensors and files, which use the parts modelled here and
    which no part modelled here relies on. *)
From Stdlib Require Export ZArith Lia Bool Ascii String.
From stdpp Require Export base numbers list decidable.
#[export] Set Default Goal Selector "!".

(** ** Scope of the development *)
Declare Scope carvera_scope.
Delimit Scope carvera_scope with carvera.
#[global] Open Scope carvera_scope.
#[global] Open Scope Z_scope.

(** ** Machine integers

    A [w]-bit unsigned value is a [Z]; every operation that can leave the range
    is followed by the wrap the C++ conversion performs. *)
Definition wrap (w x : Z) : Z := x mod 2 ^ w.
Abbreviation u8 := (wrap 8).
Abbreviation u16 := (wrap 16).
Abbreviation u32 := (wrap 32).
Abbreviation u64 := (wrap 64).

(** [static_cast<int32_t>] of a 32-bit unsigned value (two's complement). *)
Definition s32 (x : Z) : Z := let y := u32 x in if y <? 2 ^ 31 then y else y - 2 ^ 32.

Definition is_uint (w x : Z) : Prop := 0 <= x < 2 ^ w.
Abbreviation is_u8 := (is_uint 8).
Abbreviation is_u16 := (is_uint 16).
Abbreviation is_u32 := (is_uint 32).
Abbreviation is_u64 := (is_uint 64).
(** A buffer of [uint8_t]. *)
Abbreviation is_bytes := (Forall (is_uint 8)).

#[export] Instance is_uint_dec w x : Decision (is_uint w x).
Proof. unfold is_uint. apply _. Defined.

Create HintDb carvera.
Create Rewrite HintDb carvera.

#[global] Arguments wrap : simpl never.
#[global] Arguments Z.shiftl : simpl never.
#[global] Arguments Z.shiftr : simpl never.
#[global] Arguments Z.lor : simpl never.
#[global] Arguments Z.land : simpl never.
#[global] Arguments Z.lxor : simpl never.
#[global] Arguments s32 : simpl never.

Lemma wrap_range w x : 0 <= w -> is_uint w (wrap w x).
Proof. intros Hw. unfold is_uint, wrap. apply Z.mod_pos_bound. lia. Qed.
Lemma wrap_small w x : is_uint w x -> wrap w x = x.
Proof. intros [? ?]. unfold wrap. by apply Z.mod_small. Qed.
Lemma wrap_wrap w x : 0 <= w -> wrap w (wrap w x) = wrap w x.
Proof. intros Hw. apply wrap_small, wrap_range, Hw. Qed.
Lemma wrap_land w x : 0 <= w -> wrap w x = Z.land x (Z.ones w).
Proof. intros Hw. unfold wrap. by rewrite Z.land_ones. Qed.
Lemma wrap_0 w : wrap w 0 = 0.
Proof. apply Zmod_0_l. Qed.
#[export] Hint Resolve wrap_range : carvera.
#[export] Hint Extern 2 (Z.le _ _) => lia : carvera.

(** Decides the ranges and wraps of concrete widths by linear arithmetic. *)
Ltac ints :=
  unfold s32, wrap, is_uint in *; cbn beta zeta in *;
  repeat match goal with
  | |- context [Z.ltb ?a ?b] => destruct (Z.ltb_spec a b)
  | H : context [Z.ltb ?a ?b] |- _ => destruct (Z.ltb_spec a b)
  end; Z.div_mod_to_equations; lia.

Lemma s32_range x : - 2 ^ 31 <= s32 x < 2 ^ 31.
Proof. ints. Qed.
Lemma s32_small x : - 2 ^ 31 <= x < 2 ^ 31 -> s32 x = x.
Proof. intros. ints. Qed.
Lemma s32_sub_small a b :
  is_u32 a -> is_u32 b -> - 2 ^ 31 <= a - b < 2 ^ 31 -> s32 (u32 (a - b)) = a - b.
Proof. intros. ints. Qed.

(** Splits the byte ranges of explicit buffers. *)
Ltac split_bytes :=
  repeat match goal with
  | H : Forall _ (_ :: _) |- _ =>
      let Hb := fresh "Hb" in let Hbs := fresh "Hbs" in
      apply Forall_cons_iff in H; destruct H as [Hb Hbs]
  | H : Forall _ (_ ++ _) |- _ =>
      let Hb := fresh "Hb" in let Hbs := fresh "Hbs" in
      apply Forall_app in H; destruct H as [Hb Hbs]
  | H : Forall _ [] |- _ => clear H
  end.

(** Assembles the byte ranges of explicit buffers. *)
Ltac bytes :=
  repeat first
    [ apply Forall_nil_2
    | apply Forall_cons_2; [solve [done | by ints | auto with carvera]|]
    | apply Forall_app_2 | done ].

(** Decides a closed proposition by evaluating its decision procedure. *)
Ltac concrete := apply (bool_decide_unpack _); vm_compute; exact I.

(** Evaluates the decisions between constructors in the goal. *)
Ltac decides :=
  repeat match goal with |- context [bool_decide (?x = ?y)] =>
    let v := eval vm_compute in (bool_decide (x = y)) in
    lazymatch v with
    | true => change (bool_decide (x = y)) with true
    | false => change (bool_decide (x = y)) with false
    end end.

(** ** Bit-level facts on words *)
Lemma wrap_lxor w x y : 0 <= w -> wrap w (Z.lxor x y) = Z.lxor (wrap w x) (wrap w y).
Proof.
  intros Hw. rewrite !wrap_land by done. apply Z.bits_inj'. intros n Hn.
  rewrite !Z.lxor_spec, !Z.land_spec, Z.lxor_spec.
  by destruct (Z.testbit x n), (Z.testbit y n), (Z.testbit (Z.ones w) n).
Qed.

Lemma lxor_range w x y : 0 <= w -> is_uint w x -> is_uint w y -> is_uint w (Z.lxor x y).
Proof.
  intros Hw Hx Hy. rewrite <- (wrap_small w x), <- (wrap_small w y), <- wrap_lxor by done.
  by apply wrap_range.
Qed.
#[export] Hint Resolve lxor_range : carvera.

(** Or-ing a byte into a value shifted left by eight appends that byte. *)
Lemma lor_shiftl_8 a b : is_u8 b -> Z.lor (Z.shiftl a 8) b = a * 256 + b.
Proof.
  intros Hb. assert (Z.land (Z.shiftl a 8) b = 0) as Hd.
  { apply Z.bits_inj'. intros n Hn. rewrite Z.land_spec, Z.bits_0.
    destruct (Z.lt_ge_cases n 8).
    - by rewrite Z.shiftl_spec_low.
    - rewrite <- (wrap_small 8 b), wrap_land, Z.land_spec by (done || lia).
      rewrite (Z.ones_spec_high 8 n) by lia. by rewrite !andb_false_r. }
  rewrite <- Z.lxor_lor, <- Z.add_nocarry_lxor, Z.shiftl_mul_pow2 by (done || lia). lia.
Qed.

(** ** Big-endian fields

    [out[i] = v >> (8 * (n - 1 - i))] for [i < n], and the accumulation
    [v = (v << 8) | data[i]] in a [w]-bit variable that reads it back. *)
Fixpoint be_bytes (n : nat) (v : Z) : list Z :=
  match n with
  | O => []
  | S k => u8 (Z.shiftr v (8 * Z.of_nat k)) :: be_bytes k v
  end.

Definition be_acc (w : Z) (acc : Z) (data : list Z) : Z :=
  fold_left (fun v b => Z.lor (wrap w (Z.shiftl v 8)) b) data acc.
Abbreviation be_val w := (be_acc w 0).

Lemma length_be_bytes n v : length (be_bytes n v) = n.
Proof. induction n; simpl; auto. Qed.
Lemma be_bytes_bytes n v : is_bytes (be_bytes n v).
Proof. induction n; simpl; constructor; auto with carvera. Qed.
#[export] Hint Rewrite length_be_bytes : carvera.
#[export] Hint Resolve be_bytes_bytes : carvera.

(** While the accumulated value fits, the accumulator is plain base 256. *)
Lemma be_acc_app w acc l l' : be_acc w acc (l ++ l') = be_acc w (be_acc w acc l) l'.
Proof. apply fold_left_app. Qed.

Lemma be_acc_step w k acc b :
  0 <= k -> 8 * (k + 1) <= w -> is_uint (8 * k) acc -> is_u8 b ->
  Z.lor (wrap w (Z.shiftl acc 8)) b = acc * 256 + b /\ is_uint (8 * (k + 1)) (acc * 256 + b).
Proof.
  intros Hk Hw Ha Hb.
  assert (2 ^ (8 * (k + 1)) = 2 ^ (8 * k) * 256) as Hp.
  { replace (8 * (k + 1)) with (8 * k + 8) by lia. rewrite Z.pow_add_r by lia. lia. }
  assert (2 ^ (8 * (k + 1)) <= 2 ^ w) by (apply Z.pow_le_mono_r; lia).
  unfold is_uint in *. split; [|change (2 ^ 8) with 256 in *; nia].
  rewrite wrap_small; [by apply lor_shiftl_8|].
  unfold is_uint. rewrite Z.shiftl_mul_pow2 by lia. change (2 ^ 8) with 256 in *. nia.
Qed.

Lemma be_acc_bytes w n k acc v :
  0 <= k -> 8 * (k + Z.of_nat n) <= w -> is_uint (8 * k) acc ->
  be_acc w acc (be_bytes n v) = acc * 256 ^ Z.of_nat n + v mod 256 ^ Z.of_nat n.
Proof.
  revert k acc. induction n as [|n IH]; intros k acc Hk Hw Ha.
  - cbn. rewrite Z.mod_1_r. lia.
  - cbn [be_bytes be_acc fold_left].
    destruct (be_acc_step w k acc (u8 (Z.shiftr v (8 * Z.of_nat n)))) as [-> Hr];
      [lia|lia|done|by apply wrap_range|].
    change (fold_left _ ?l ?a) with (be_acc w a l).
    rewrite (IH (k + 1)) by (done || lia).
    rewrite Nat2Z.inj_succ, Z.pow_succ_r, Z.mul_comm by lia.
    unfold wrap. rewrite Z.shiftr_div_pow2, Z.pow_mul_r by lia.
    change (2 ^ 8) with 256. rewrite (Z.mul_comm 256 (256 ^ _)), Z.rem_mul_r by lia. lia.
Qed.

(** Reading back what was written. *)
Lemma be_val_be_bytes w n v :
  8 * Z.of_nat n <= w -> is_uint (8 * Z.of_nat n) v -> be_val w (be_bytes n v) = v.
Proof.
  intros Hw Hv. rewrite (be_acc_bytes w n 0) by (lia || (unfold is_uint; lia)).
  unfold is_uint in Hv. rewrite Z.pow_mul_r in Hv by lia. change (2 ^ 8) with 256 in Hv.
  rewrite Z.mod_small by done. lia.
Qed.
#[export] Hint Rewrite be_val_be_bytes using (done || lia) : carvera.

Lemma be_bytes_snoc n v : be_bytes (S n) v = be_bytes n (v / 256) ++ [u8 v].
Proof.
  induction n as [|n IH].
  - cbn. by rewrite Z.shiftr_0_r.
  - cbn [be_bytes app] in *. rewrite IH. cbn [app]. f_equal.
    change 256 with (2 ^ 8). rewrite !Z.shiftr_div_pow2, Z.div_div by lia.
    rewrite <- Z.pow_add_r by lia. do 3 f_equal. lia.
Qed.

Lemma be_val_range w data :
  8 * Z.of_nat (length data) <= w -> is_bytes data -> is_uint (8 * Z.of_nat (length data)) (be_val w data).
Proof.
  induction data as [|b data IH] using rev_ind; intros Hw Hb; [unfold is_uint; cbn; lia|].
  apply Forall_app in Hb as [Hb Hb1]. rewrite Forall_singleton in Hb1.
  rewrite length_app in Hw |- *. cbn [length] in *. rewrite be_acc_app.
  change (be_acc w ?a [b]) with (Z.lor (wrap w (Z.shiftl a 8)) b).
  destruct (be_acc_step w (Z.of_nat (length data)) (be_val w data) b) as [-> Hr]; [lia|lia|apply IH; [lia|done]|done|].
  by replace (Z.of_nat (length data + 1)) with (Z.of_nat (length data) + 1) by lia.
Qed.

(** Writing out what was read. *)
Lemma be_bytes_be_val w data :
  8 * Z.of_nat (length data) <= w -> is_bytes data -> be_bytes (length data) (be_val w data) = data.
Proof.
  induction data as [|b data IH] using rev_ind; intros Hw Hb; [done|].
  apply Forall_app in Hb as [Hb Hb1]. rewrite Forall_singleton in Hb1.
  rewrite length_app in Hw |- *. cbn [length] in *. rewrite be_acc_app.
  change (be_acc w ?a [b]) with (Z.lor (wrap w (Z.shiftl a 8)) b).
  destruct (be_acc_step w (Z.of_nat (length data)) (be_val w data) b) as [-> Hr];
    [lia|lia|apply be_val_range; [lia|done]|done|].
  replace (length data + 1)%nat with (S (length data)) by lia. rewrite be_bytes_snoc.
  replace ((be_val w data * 256 + b) / 256) with (be_val w data) by ints.
  rewrite IH by (done || lia). do 2 f_equal. ints.
Qed.

(** ** Text

    C strings and character buffers are lists of character codes. *)
Definition chars (s : string) : list Z :=
  map (fun c => Z.of_nat (nat_of_ascii c)) (list_ascii_of_string s).

(** [data[off .. off + len)]. *)
Definition slice {A} (off len : nat) (l : list A) : list A := take len (drop off l).

Lemma last_cons_default {A} (x : A) l d : List.last (x :: l) d = List.last l x.
Proof. revert x d. induction l as [|y l IH]; intros x d; [done|].
  change (List.last (y :: l) d = List.last (y :: l) x). by rewrite !IH. Qed.

Lemma lookup_total_at `{Inhabited A} (l k : list A) x n : n = length l -> (l ++ [x] ++ k) !!! n = x.
Proof. intros ->. apply list_lookup_total_correct. by rewrite lookup_app_r, Nat.sub_diag. Qed.

Lemma length_slice {A} off len (l : list A) :
  (off + len <= length l)%nat -> length (slice off len l) = len.
Proof. intros. unfold slice. rewrite length_take, length_drop. lia. Qed.
Lemma slice_app_exact {A} (a b c : list A) off len :
  off = length a -> len = length b -> slice off len (a ++ b ++ c) = b.
Proof. intros -> ->. unfold slice. by rewrite drop_app_length, take_app_length. Qed.
#[export] Hint Rewrite @length_slice using lia : carvera.

(** ** Record update

    [r <| f := v |>] is [r] with field [f] set to [v], for a record whose
    constructor application to its own projections is registered as [Eta]. *)
Class Eta (R : Type) := eta : R -> R.
Class Setter {R T : Type} (f : R -> T) := set_field : T -> R -> R.
Arguments set_field {R T} f {_} v r : simpl never.

Ltac solve_setter :=
  lazymatch goal with
  | |- @Setter ?R ?T ?f =>
      let i := constr:(_ : Eta R) in
      let i := eval red in i in
      unfold Setter;
      let v := fresh "v" in
      let r := fresh "r" in
      intros v r;
      let e := eval cbv beta in (i r) in
      let e := eval pattern (f r) in e in
      lazymatch e with
      | ?g _ => let t := eval cbv beta in (g v) in exact t
      end
  end.
#[export] Hint Extern 1 (Setter _) => solve_setter : typeclass_instances.

Notation "r <| f := v |>" := (set_field f v r)
  (at level 1, f at next level, v at level 200, left associativity,
   format "r  <| f  :=  v |>") : carvera_scope.

(** Reads fields through updates, one update at a time. *)
Ltac recs_step :=
  match goal with
  | |- context [?f (set_field ?g ?v ?r)] =>
      first [change (f (set_field g v r)) with v | change (f (set_field g v r)) with (f r)]
  end.
Ltac recs_step_in H :=
  match type of H with
  | context [?f (set_field ?g ?v ?r)] =>
      first [change (f (set_field g v r)) with v in H | change (f (set_field g v r)) with (f r) in H]
  end.
Ltac recs := repeat recs_step;
  repeat match goal with H : _ |- _ => progress (repeat recs_step_in H) end.

(** ** Reachability *)
Section Star.
Context {State : Type} (step : State -> State -> Prop).
Inductive star : State -> State -> Prop :=
| star_refl s : star s s
| star_step s1 s2 s3 : star s1 s2 -> step s2 s3 -> star s1 s3.

(** Rule induction for invariants: what holds initially and is kept by every
    step holds in every reachable state. *)
Lemma star_invariant (I : State -> Prop) s s' :
  (forall a b, I a -> step a b -> I b) -> star s s' -> I s -> I s'.
Proof. intros Hpres Hs Hi. induction Hs; eauto. Qed.
Lemma star_one s s' : step s s' -> star s s'.
Proof. intros. eapply star_step; [apply star_refl|done]. Qed.
Lemma star_trans s1 s2 s3 : star s1 s2 -> star s2 s3 -> star s1 s3.
Proof. intros H1 H2. induction H2; eauto using star_step. Qed.
End Star.
