(* ===== verification/Crc16.v ===== *)
(** * CRC-16/CCITT ([src/src/libs/CRC16.h])

    The table-driven checksum every framed message carries, its reference
    definition as bitwise polynomial division, and what it detects. *)
From S2P Require Import Prelude.

(** One of the eight steps of [crc16::table_entry]. *)
Definition lfsr_step (value : Z) : Z :=
  if Z.land value 0x8000 =? 0 then u16 (Z.shiftl value 1)
  else u16 (Z.lxor (Z.shiftl value 1) 0x1021).

(** [src/src/libs/CRC16.h:9-15] crc16::table_entry *)
Definition table_entry (value : Z) : Z :=
  Nat.iter 8 lfsr_step (u16 (Z.shiftl value 8)).

(** [src/src/libs/CRC16.h:17-23] crc16::make_table *)
Definition make_table : list Z := map (fun i => table_entry (Z.of_nat i)) (seq 0 256).

(** [src/src/libs/CRC16.h:25-25] crc16::table *)
Definition table : list Z := Eval vm_compute in make_table.

(** The loop body of [crc16::ccitt_update] for one byte. *)
Definition ccitt_byte (crc b : Z) : Z :=
  let index := u8 (Z.lxor (Z.shiftr crc 8) b) in
  u16 (Z.lxor (Z.shiftl crc 8) (table !!! Z.to_nat index)).

(** [src/src/libs/CRC16.h:27-33] crc16::ccitt_update *)
Definition ccitt_update (crc : Z) (data : list Z) : Z := fold_left ccitt_byte data crc.

(** [src/src/libs/CRC16.h:35-35] crc16::ccitt *)
Definition ccitt (data : list Z) : Z := ccitt_update 0 data.

(** The code's own static assertions ([CRC16.h:37-44]). *)
Example table_00 : table !!! 0x00%nat = 0x0000. Proof. reflexivity. Qed.
Example table_01 : table !!! 0x01%nat = 0x1021. Proof. reflexivity. Qed.
Example table_ff : table !!! 0xFF%nat = 0x1EF0. Proof. reflexivity. Qed.
Example ccitt_check : ccitt (chars "123456789") = 0x31C3. Proof. reflexivity. Qed.

(** ** The shift register *)
Lemma lfsr_step_testbit v :
  lfsr_step v = u16 (Z.lxor (Z.shiftl v 1) (if Z.testbit v 15 then 0x1021 else 0)).
Proof.
  unfold lfsr_step. change 0x8000 with (2 ^ 15).
  destruct (Z.testbit v 15) eqn:Hb; destruct (Z.eqb_spec (Z.land v (2 ^ 15)) 0) as [He|He].
  - apply (f_equal (fun z => Z.testbit z 15)) in He.
    rewrite Z.land_spec, Hb, Z.bits_0 in He. done.
  - done.
  - by rewrite Z.lxor_0_r.
  - contradict He. apply Z.bits_inj'. intros n Hn.
    rewrite Z.land_spec, Z.bits_0, Z.pow2_bits_eqb by lia.
    destruct (Z.eqb_spec 15 n) as [<-|]; [by rewrite Hb|by rewrite andb_false_r].
Qed.

Lemma lfsr_step_range v : is_u16 (lfsr_step v).
Proof. rewrite lfsr_step_testbit. by apply wrap_range. Qed.
#[export] Hint Resolve lfsr_step_range : carvera.

Lemma lfsr_step_lxor x y : lfsr_step (Z.lxor x y) = Z.lxor (lfsr_step x) (lfsr_step y).
Proof.
  rewrite !lfsr_step_testbit, Z.lxor_spec, Z.shiftl_lxor, <- wrap_lxor by done. f_equal.
  rewrite !Z.lxor_assoc. f_equal.
  rewrite <- (Z.lxor_assoc _ (Z.shiftl y 1)), (Z.lxor_comm _ (Z.shiftl y 1)), Z.lxor_assoc.
  f_equal. by destruct (Z.testbit x 15), (Z.testbit y 15).
Qed.

Lemma testbit_15 v : is_u16 v -> Z.testbit v 15 = (2 ^ 15 <=? v).
Proof.
  intros Hv. destruct (Z.leb_spec (2 ^ 15) v).
  - apply Z.testbit_true; [lia|]. ints.
  - apply Z.testbit_false; [lia|]. ints.
Qed.

(** Below 2^15 a step is a plain doubling; from there it folds the generator in. *)
Lemma lfsr_step_low v : 0 <= v < 2 ^ 15 -> lfsr_step v = 2 * v.
Proof.
  intros Hv. rewrite lfsr_step_testbit, testbit_15 by ints.
  destruct (Z.leb_spec (2 ^ 15) v); [lia|].
  rewrite Z.lxor_0_r, wrap_small, Z.shiftl_mul_pow2 by (rewrite ?Z.shiftl_mul_pow2 by lia; ints). lia.
Qed.
Lemma lfsr_step_high v :
  2 ^ 15 <= v < 2 ^ 16 -> lfsr_step v = Z.lxor (2 * v - 2 ^ 16) 0x1021.
Proof.
  intros Hv. rewrite lfsr_step_testbit, testbit_15 by ints.
  destruct (Z.leb_spec (2 ^ 15) v); [|lia].
  rewrite wrap_lxor by done. rewrite (wrap_small 16 0x1021) by done. f_equal.
  rewrite Z.shiftl_mul_pow2 by lia. ints.
Qed.

(** No register content is lost by a step: the generator ends in a 1. *)
Lemma lfsr_step_zero v : is_u16 v -> lfsr_step v = 0 -> v = 0.
Proof.
  intros Hv H0. destruct (Z.lt_ge_cases v (2 ^ 15)).
  - rewrite lfsr_step_low in H0 by ints. lia.
  - rewrite lfsr_step_high in H0 by ints.
    apply Z.lxor_eq in H0. exfalso. lia.
Qed.

Definition lfsr_steps (n : nat) (v : Z) : Z := Nat.iter n lfsr_step v.

Lemma lfsr_steps_lxor n x y :
  lfsr_steps n (Z.lxor x y) = Z.lxor (lfsr_steps n x) (lfsr_steps n y).
Proof.
  unfold lfsr_steps. induction n as [|n IH]; [done|]. simpl. by rewrite IH, lfsr_step_lxor.
Qed.
Lemma lfsr_steps_range n v : is_u16 v -> is_u16 (lfsr_steps n v).
Proof. destruct n; intros; [done|]. apply lfsr_step_range. Qed.
Lemma lfsr_steps_zero n v : is_u16 v -> lfsr_steps n v = 0 -> v = 0.
Proof.
  unfold lfsr_steps. revert v. induction n as [|n IH]; intros v Hv; [done|].
  rewrite Nat.iter_succ_r. intros H0. apply lfsr_step_zero; [done|].
  apply IH; [apply lfsr_step_range|done].
Qed.
Lemma lfsr_steps_0 n : lfsr_steps n 0 = 0.
Proof. unfold lfsr_steps. induction n as [|n IH]; [done|]. simpl. by rewrite IH. Qed.

(** ** Table lookup is eight register steps *)
Lemma table_ok : table = make_table.
Proof. vm_compute. reflexivity. Qed.

Lemma table_lookup i : is_u8 i -> table !!! Z.to_nat i = lfsr_steps 8 (Z.shiftl i 8).
Proof.
  intros Hi. rewrite table_ok. unfold make_table. apply list_lookup_total_correct.
  rewrite list_lookup_fmap, lookup_seq_lt by ints. apply (f_equal Some).
  unfold table_entry, lfsr_steps. rewrite Nat.add_0_l, Z2Nat.id by ints.
  f_equal. apply wrap_small. rewrite Z.shiftl_mul_pow2 by lia. ints.
Qed.

Lemma lfsr_steps_low n v :
  0 <= v -> v * 2 ^ Z.of_nat n < 2 ^ 16 -> lfsr_steps n v = v * 2 ^ Z.of_nat n.
Proof.
  unfold lfsr_steps. induction n as [|n IH]; intros Hv Hn; [simpl; lia|].
  rewrite Nat2Z.inj_succ, Z.pow_succ_r in * by lia.
  change (Nat.iter (S n) lfsr_step v) with (lfsr_step (Nat.iter n lfsr_step v)).
  rewrite IH by nia. rewrite lfsr_step_low by nia. lia.
Qed.
Lemma lfsr_steps_8_low v : is_u8 v -> lfsr_steps 8 v = Z.shiftl v 8.
Proof.
  intros Hv. rewrite Z.shiftl_mul_pow2 by lia. apply (lfsr_steps_low 8); ints.
Qed.

(** Splitting a register into its two bytes. *)
Lemma u16_split v : is_u16 v -> v = Z.lxor (Z.shiftl (Z.shiftr v 8) 8) (u8 v).
Proof.
  intros Hv. rewrite Z.lxor_lor; [rewrite lor_shiftl_8 by (by apply wrap_range)|].
  - rewrite Z.shiftr_div_pow2 by lia. ints.
  - apply Z.bits_inj'. intros n Hn. rewrite Z.land_spec, Z.bits_0.
    destruct (Z.lt_ge_cases n 8); [by rewrite Z.shiftl_spec_low|].
    rewrite wrap_land, Z.land_spec, (Z.ones_spec_high 8 n) by lia. by rewrite !andb_false_r.
Qed.

Lemma ccitt_byte_steps crc b :
  is_u16 crc -> is_u8 b -> ccitt_byte crc b = lfsr_steps 8 (Z.lxor crc (Z.shiftl b 8)).
Proof.
  intros Hc Hb. unfold ccitt_byte.
  assert (is_u8 (Z.shiftr crc 8)) as Hh by (rewrite Z.shiftr_div_pow2 by lia; ints).
  rewrite (wrap_small 8 (Z.lxor (Z.shiftr crc 8) b)) by auto with carvera.
  rewrite table_lookup by (apply lxor_range; done || lia).
  rewrite wrap_lxor by done. rewrite (wrap_small 16 (lfsr_steps _ _)).
  2: { apply lfsr_step_range. }
  rewrite (u16_split crc) at 3 by done.
  rewrite Z.lxor_assoc, (Z.lxor_comm (u8 crc)), <- Z.lxor_assoc, <- Z.shiftl_lxor.
  rewrite lfsr_steps_lxor, (lfsr_steps_8_low (u8 crc)) by (by apply wrap_range).
  rewrite Z.lxor_comm. f_equal. rewrite !Z.shiftl_mul_pow2 by lia. ints.
Qed.

Lemma ccitt_byte_range crc b : is_u16 (ccitt_byte crc b).
Proof. by apply wrap_range. Qed.
Lemma ccitt_update_range crc data : is_u16 crc -> is_u16 (ccitt_update crc data).
Proof.
  revert crc. induction data as [|b data IH]; intros crc Hc; [done|].
  apply IH, ccitt_byte_range.
Qed.
#[export] Hint Resolve ccitt_byte_range ccitt_update_range : carvera.

Lemma ccitt_update_app crc a b :
  ccitt_update crc (a ++ b) = ccitt_update (ccitt_update crc a) b.
Proof. apply fold_left_app. Qed.
#[export] Hint Rewrite ccitt_update_app : carvera.

(** ** Reference definition: division of polynomials over GF(2)

    A message is the polynomial whose coefficients are its bits, the first bit
    sent being the highest. [multiple z]: [z] is a multiple of the generator
    x^16 + x^12 + x^5 + 1. *)
Definition generator : Z := 0x11021.
Inductive multiple : Z -> Prop :=
| multiple_0 : multiple 0
| multiple_add k z : 0 <= k -> multiple z -> multiple (Z.lxor z (Z.shiftl generator k)).

(** The polynomial of a byte string. *)
Definition poly (data : list Z) : Z := fold_left (fun m b => Z.lxor (Z.shiftl m 8) b) data 0.

Lemma multiple_lxor a b : multiple a -> multiple b -> multiple (Z.lxor a b).
Proof.
  intros Ha Hb. induction Hb as [|k z Hk Hz IH]; [by rewrite Z.lxor_0_r|].
  rewrite <- Z.lxor_assoc. by constructor.
Qed.
Lemma multiple_shiftl a n : 0 <= n -> multiple a -> multiple (Z.shiftl a n).
Proof.
  intros Hn Ha. induction Ha as [|k z Hk Hz IH]; [rewrite Z.shiftl_0_l; constructor|].
  rewrite Z.shiftl_lxor, Z.shiftl_shiftl by done. constructor; [lia|done].
Qed.

(** [a] and [b] leave the same remainder. *)
Definition same_rem (a b : Z) : Prop := multiple (Z.lxor a b).
#[export] Instance same_rem_equiv : Equivalence same_rem.
Proof.
  unfold same_rem. split; red.
  - intros a. rewrite Z.lxor_nilpotent. constructor.
  - intros a b. by rewrite Z.lxor_comm.
  - intros a b c H1 H2. pose proof (multiple_lxor _ _ H1 H2) as H.
    by rewrite Z.lxor_assoc, <- (Z.lxor_assoc b b), Z.lxor_nilpotent, Z.lxor_0_l in H.
Qed.
#[export] Instance same_rem_lxor : Proper (same_rem ==> same_rem ==> same_rem) Z.lxor.
Proof.
  intros a a' Ha b b' Hb. unfold same_rem in *.
  replace (Z.lxor (Z.lxor a b) (Z.lxor a' b')) with (Z.lxor (Z.lxor a a') (Z.lxor b b')).
  - by apply multiple_lxor.
  - rewrite !Z.lxor_assoc. f_equal. rewrite <- !Z.lxor_assoc. f_equal. apply Z.lxor_comm.
Qed.
Lemma same_rem_shiftl a b n : 0 <= n -> same_rem a b -> same_rem (Z.shiftl a n) (Z.shiftl b n).
Proof. intros. unfold same_rem. rewrite <- Z.shiftl_lxor. by apply multiple_shiftl. Qed.

Lemma lfsr_step_rem v : is_u16 v -> same_rem (Z.shiftl v 1) (lfsr_step v).
Proof.
  intros Hv. destruct (Z.lt_ge_cases v (2 ^ 15)).
  - rewrite lfsr_step_low, Z.shiftl_mul_pow2, Z.mul_comm by ints. reflexivity.
  - rewrite lfsr_step_high by ints. unfold same_rem.
    assert (Z.shiftl v 1 = Z.lxor (2 ^ 16) (2 * v - 2 ^ 16)) as ->.
    { rewrite <- Z.add_nocarry_lxor, Z.shiftl_mul_pow2 by
        (rewrite ?Z.shiftl_mul_pow2 by lia; try lia;
         rewrite Z.land_comm, <- (wrap_small 16 (2 * v - 2 ^ 16)), wrap_land, <- Z.land_assoc
           by ints; apply Z.land_0_r). lia. }
    rewrite Z.lxor_assoc, <- (Z.lxor_assoc (2 * v - 2 ^ 16)), Z.lxor_nilpotent, Z.lxor_0_l.
    apply (multiple_add 0 0); [lia|constructor].
Qed.
Lemma lfsr_steps_rem n v : is_u16 v -> same_rem (Z.shiftl v (Z.of_nat n)) (lfsr_steps n v).
Proof.
  intros Hv. unfold lfsr_steps. induction n as [|n IH]; [by rewrite Z.shiftl_0_r|].
  change (Nat.iter (S n) lfsr_step v) with (lfsr_step (Nat.iter n lfsr_step v)).
  rewrite <- lfsr_step_rem by (by apply (lfsr_steps_range n)).
  rewrite Nat2Z.inj_succ, <- Z.add_1_r, <- Z.shiftl_shiftl by lia.
  apply same_rem_shiftl; [lia|done].
Qed.

Lemma ccitt_update_rem data m crc :
  is_u16 crc -> is_bytes data -> same_rem (Z.shiftl m 16) crc ->
  same_rem (Z.shiftl (fold_left (fun m b => Z.lxor (Z.shiftl m 8) b) data m) 16)
           (ccitt_update crc data).
Proof.
  intros Hc Hd. revert m crc Hc. induction Hd as [|b data Hb Hd IH]; intros m crc Hc Hm; [done|].
  apply IH; [apply ccitt_byte_range|].
  rewrite ccitt_byte_steps, <- (lfsr_steps_rem 8) by
    (done || (apply lxor_range; [lia|done|rewrite Z.shiftl_mul_pow2 by lia; ints])).
  rewrite !Z.shiftl_lxor, !Z.shiftl_shiftl by lia. apply same_rem_lxor; [|reflexivity].
  rewrite (Z.add_comm 8 16), <- Z.shiftl_shiftl by lia. by apply same_rem_shiftl.
Qed.

(** C39: The table-driven CRC is the CRC-16/CCITT remainder: for every byte
    string, the checksum is a 16-bit value congruent to the message polynomial
    times x^16 modulo x^16 + x^12 + x^5 + 1. *)
Theorem ccitt_is_remainder data :
  is_bytes data -> is_u16 (ccitt data) /\ same_rem (Z.shiftl (poly data) 16) (ccitt data).
Proof.
  intros Hd. split; [by apply ccitt_update_range|]. by apply ccitt_update_rem.
Qed.
Lemma ccitt_is_remainder_witness :
  same_rem (Z.shiftl (poly [0x01; 0x02]) 16) (ccitt [0x01; 0x02]).
Proof. apply ccitt_is_remainder. by repeat constructor. Defined.

(** ** What the checksum detects *)
Lemma ccitt_update_lxor data c c' :
  is_u16 c -> is_u16 c' -> is_bytes data ->
  Z.lxor (ccitt_update c data) (ccitt_update c' data) =
  lfsr_steps (8 * length data) (Z.lxor c c').
Proof.
  intros Hc Hc' Hd. revert c c' Hc Hc'.
  induction Hd as [|b data Hb Hd IH]; intros c c' Hc Hc'; [done|].
  cbn [ccitt_update fold_left]. fold (ccitt_update (ccitt_byte c b) data).
  fold (ccitt_update (ccitt_byte c' b) data).
  rewrite IH by apply ccitt_byte_range. rewrite !ccitt_byte_steps by done.
  rewrite <- lfsr_steps_lxor.
  replace (Z.lxor (Z.lxor c (Z.shiftl b 8)) (Z.lxor c' (Z.shiftl b 8))) with (Z.lxor c c').
  - unfold lfsr_steps. rewrite <- Nat.iter_add. f_equal. simpl. lia.
  - rewrite !Z.lxor_assoc. f_equal. rewrite (Z.lxor_comm c'), <- Z.lxor_assoc.
    by rewrite Z.lxor_nilpotent, Z.lxor_0_l.
Qed.

Lemma ccitt_two_bytes c a b :
  is_u16 c -> is_u8 a -> is_u8 b ->
  ccitt_update c [a; b] = lfsr_steps 16 (Z.lxor c (Z.lxor (Z.shiftl a 8) b)).
Proof.
  intros Hc Ha Hb. cbn [ccitt_update fold_left].
  assert (is_u16 (Z.shiftl a 8)) by (rewrite Z.shiftl_mul_pow2 by lia; ints).
  rewrite (ccitt_byte_steps c a) by done.
  rewrite ccitt_byte_steps by (done || apply lfsr_steps_range; auto with carvera).
  rewrite <- (lfsr_steps_8_low b), <- lfsr_steps_lxor by done.
  rewrite Z.lxor_assoc. unfold lfsr_steps. by rewrite <- Nat.iter_add.
Qed.

Lemma ccitt_burst c p s a b a' b' :
  is_u16 c -> is_bytes p -> is_bytes s -> is_bytes [a; b] -> is_bytes [a'; b'] ->
  (a, b) <> (a', b') ->
  ccitt_update c (p ++ [a; b] ++ s) <> ccitt_update c (p ++ [a'; b'] ++ s).
Proof.
  intros Hc Hp Hs Hab Hab' Hne Heq.
  rewrite !ccitt_update_app in Heq. set (c1 := ccitt_update c p) in Heq.
  assert (is_u16 c1) by (by apply ccitt_update_range).
  apply Z.lxor_eq_0_iff in Heq. inversion_clear Hab as [|?? Ha Hb]. inversion_clear Hab' as [|?? Ha' Hb'].
  rewrite Forall_singleton in Hb, Hb'.
  rewrite ccitt_update_lxor in Heq by (auto using ccitt_update_range).
  rewrite !ccitt_two_bytes, <- lfsr_steps_lxor in Heq by done.
  assert (forall x y, is_u8 x -> is_u8 y -> Z.lxor (Z.shiftl x 8) y = x * 256 + y) as Hcat.
  { intros x y Hx Hy. pose proof (u16_split (x * 256 + y)) as Hsp.
    rewrite Z.shiftr_div_pow2 in Hsp by lia.
    replace ((x * 256 + y) / 2 ^ 8) with x in Hsp by ints.
    replace (u8 (x * 256 + y)) with y in Hsp by ints. symmetry. apply Hsp. ints. }
  rewrite !Hcat in Heq by done.
  assert (is_u16 (a * 256 + b) /\ is_u16 (a' * 256 + b')) as [? ?] by (split; ints).
  apply lfsr_steps_zero in Heq;
    [|apply lfsr_steps_range; auto with carvera].
  apply lfsr_steps_zero in Heq; [|auto with carvera].
  apply Z.lxor_eq in Heq. apply (f_equal (Z.lxor c1)) in Heq.
  rewrite <- !Z.lxor_assoc, Z.lxor_nilpotent, !Z.lxor_0_l in Heq.
  apply Hne. f_equal; ints.
Qed.

(** Any change confined to two adjacent bytes of a message changes its
    checksum, whatever surrounds them. *)
Theorem ccitt_detects_burst p s a b a' b' :
  is_bytes p -> is_bytes s -> is_bytes [a; b] -> is_bytes [a'; b'] -> (a, b) <> (a', b') ->
  ccitt (p ++ [a; b] ++ s) <> ccitt (p ++ [a'; b'] ++ s).
Proof. intros. by apply ccitt_burst; [ints|..]. Qed.
Lemma ccitt_detects_burst_witness :
  ccitt ([0x41] ++ [0x10; 0x20] ++ [0x7e]) <> ccitt ([0x41] ++ [0x20; 0x10] ++ [0x7e]).
Proof. apply ccitt_detects_burst; try (repeat constructor; done); congruence. Defined.

(** A receiver that runs the checksum over a message and its own appended
    checksum ends at zero. *)
Theorem ccitt_residue data :
  is_bytes data -> ccitt (data ++ be_bytes 2 (ccitt data)) = 0.
Proof.
  intros Hd. unfold ccitt. rewrite ccitt_update_app. set (c := ccitt_update 0 data).
  assert (is_u16 c) as Hc by (by apply ccitt_update_range).
  cbn [be_bytes]. rewrite Z.shiftr_0_r.
  rewrite ccitt_two_bytes by (done || by apply wrap_range).
  assert (u8 (Z.shiftr c 8) = Z.shiftr c 8) as Hh.
  { rewrite Z.shiftr_div_pow2 by lia. ints. }
  change (8 * Z.of_nat 1) with 8. rewrite Hh, <- u16_split by done.
  rewrite Z.lxor_nilpotent. apply lfsr_steps_0.
Qed.
Lemma ccitt_residue_witness : ccitt ([0x00; 0x03; 0x71] ++ be_bytes 2 (ccitt [0x00; 0x03; 0x71])) = 0.
Proof. apply ccitt_residue. by repeat constructor. Defined.
