(* ===== verification/MakeraFrame.v ===== *)
(** * The framed wire protocol ([src/src/libs/MakeraFrame.h], [MakeraFrame.cpp])

    The byte-at-a-time frame decoder, with the packet it fills, and what it
    promises: it delivers exactly the frames that were on the wire, it never
    writes outside its packet, and it finds the next frame again after noise. *)
From S2P Require Import Prelude Crc16.

(** [src/src/libs/MakeraFrame.h:16-16] makera::header *)
Definition header : Z := 0x8668.
(** [src/src/libs/MakeraFrame.h:17-17] makera::footer *)
Definition footer : Z := 0x55AA.
(** [src/src/libs/MakeraFrame.h:18-18] makera::max_frame_size *)
Definition max_frame_size : Z := 544.
(** [src/src/libs/MakeraFrame.h:19-19] makera::frame_overhead *)
Definition frame_overhead : Z := 9.
(** [src/src/libs/MakeraFrame.h:20-20] makera::max_data_size *)
Definition max_data_size : Z := max_frame_size - frame_overhead.
(** [src/src/libs/MakeraFrame.h:26-26] makera::frame_timeout_us *)
Definition frame_timeout_us : Z := 1000000.

(** [src/src/libs/MakeraFrame.h:28-30] makera::read_be16 *)
Definition read_be16 (data : list Z) : Z := u16 (Z.lor (Z.shiftl (data !!! 0%nat) 8) (data !!! 1%nat)).
(** [src/src/libs/MakeraFrame.h:32-35] makera::read_be32 *)
Definition read_be32 (data : list Z) : Z :=
  u32 (Z.lor (Z.lor (Z.lor (Z.shiftl (data !!! 0%nat) 24) (Z.shiftl (data !!! 1%nat) 16))
                    (Z.shiftl (data !!! 2%nat) 8)) (data !!! 3%nat)).
(** The bytes [write_be16] stores at [data[0]] and [data[1]].
    [src/src/libs/MakeraFrame.h:37-41] makera::write_be16 *)
Definition write_be16 (value : Z) : list Z := [u8 (Z.shiftr value 8); u8 value].
(** [src/src/libs/MakeraFrame.h:43-49] makera::write_be32 *)
Definition write_be32 (value : Z) : list Z :=
  [u8 (Z.shiftr value 24); u8 (Z.shiftr value 16); u8 (Z.shiftr value 8); u8 value].

(** [src/src/libs/MakeraFrame.h:51-57] makera::Packet *)
Record Packet := mk_packet {
  pk_length : Z;
  pk_type : Z;
  pk_data_length : Z;
  pk_data : list Z;      (* [max_data_size] bytes *)
  pk_crc : Z
}.
#[export] Instance eta_Packet : Eta Packet := fun p =>
  mk_packet (pk_length p) (pk_type p) (pk_data_length p) (pk_data p) (pk_crc p).

(** [src/src/libs/MakeraFrame.h:61-61] makera::DecodeResult *)
Inductive DecodeResult :=
| incomplete | complete | invalid_length | invalid_crc | invalid_footer | marked.
#[export] Instance DecodeResult_eq_dec : EqDecision DecodeResult.
Proof. solve_decision. Defined.

(** The decoder's private state; [packet_] is the caller's packet, which only
    the decoder writes.
    [src/src/libs/MakeraFrame.h:62-94] makera::FrameDecoder *)
Record FrameDecoder := mk_decoder {
  received_ : Z;
  expected_ : Z;
  length_high_ : Z;
  footer_high_ : Z;
  trailer_ : Z;
  calculated_crc_ : Z;
  last_byte_us_ : Z;
  header_prefix_ : bool;
  have_last_byte_ : bool;
  marked_ : bool;
  packet_ : Packet
}.
#[export] Instance eta_FrameDecoder : Eta FrameDecoder := fun d =>
  mk_decoder (received_ d) (expected_ d) (length_high_ d) (footer_high_ d) (trailer_ d)
    (calculated_crc_ d) (last_byte_us_ d) (header_prefix_ d) (have_last_byte_ d) (marked_ d)
    (packet_ d).

(** A decoder constructed on a packet: the members' default initialisers.
    [src/src/libs/MakeraFrame.h:64-64] makera::FrameDecoder::FrameDecoder *)
Definition new_decoder (packet : Packet) : FrameDecoder :=
  mk_decoder 0 0 0 0 0 0 0 false false false packet.

(** [src/src/libs/MakeraFrame.cpp:5-16] makera::FrameDecoder::reset *)
Definition reset (d : FrameDecoder) : FrameDecoder :=
  {| received_ := 0; expected_ := 0; length_high_ := 0; footer_high_ := 0; trailer_ := 0;
     calculated_crc_ := 0; last_byte_us_ := 0; header_prefix_ := false;
     have_last_byte_ := false; marked_ := false; packet_ := packet_ d |}.

(** [src/src/libs/MakeraFrame.h:73-73] makera::FrameDecoder::in_progress *)
Definition in_progress (d : FrameDecoder) : bool := negb (received_ d =? 0) || header_prefix_ d.
(** [src/src/libs/MakeraFrame.h:74-74] makera::FrameDecoder::has_header *)
Definition has_header (d : FrameDecoder) : bool := 2 <=? received_ d.
(** [src/src/libs/MakeraFrame.h:71-71] makera::FrameDecoder::mark_frame *)
Definition mark_frame (d : FrameDecoder) : FrameDecoder := d <| marked_ := in_progress d |>.

(** [src/src/libs/MakeraFrame.cpp:55-59] makera::FrameDecoder::bytes_wanted *)
Definition bytes_wanted (d : FrameDecoder) : Z :=
  if received_ d =? 0 then (if header_prefix_ d then 1 else 2)
  else if received_ d <? 4 then 4 - received_ d
  else expected_ d - received_ d.

(** [src/src/libs/MakeraFrame.cpp:18-23] makera::FrameDecoder::restart_with *)
Definition restart_with (d : FrameDecoder) (byte now_us : Z) : FrameDecoder :=
  (reset d) <| header_prefix_ := byte =? u8 (Z.shiftr header 8) |>
          <| last_byte_us_ := now_us |> <| have_last_byte_ := true |>.

(** [src/src/libs/MakeraFrame.cpp:25-30] makera::FrameDecoder::keep_consumed_header *)
Definition keep_consumed_header (d : FrameDecoder) (now_us : Z) : FrameDecoder :=
  (reset d) <| received_ := 2 |> <| last_byte_us_ := now_us |> <| have_last_byte_ := true |>.

(** [decode] is the recursive call to [decode_byte], whose result the code
    discards.
    [src/src/libs/MakeraFrame.cpp:32-53] makera::FrameDecoder::restart_from_trailer *)
Definition restart_from_trailer
    (decode : FrameDecoder -> Z -> Z -> option (FrameDecoder * DecodeResult))
    (d : FrameDecoder) (now_us : Z) : option FrameDecoder :=
  let trailer := trailer_ d in
  if Z.land trailer 0xFFFF =? header then Some (keep_consumed_header d now_us)
  else if Z.land (Z.shiftr trailer 8) 0xFFFF =? header then
    fst <$> decode (keep_consumed_header d now_us) (u8 trailer) now_us
  else if Z.shiftr trailer 16 =? header then
    '(d, _) ← decode (keep_consumed_header d now_us) (u8 (Z.shiftr trailer 8)) now_us;
    fst <$> decode d (u8 trailer) now_us
  else Some (restart_with d (u8 trailer) now_us).

(** The steps of [decode_byte], in the order it takes them. First, a frame in
    progress is dropped when the gap since its last byte is too long.
    [src/src/libs/MakeraFrame.cpp:62-64] makera::FrameDecoder::decode_byte *)
Definition note_time (d : FrameDecoder) (now_us : Z) : FrameDecoder :=
  let d := if in_progress d && have_last_byte_ d
              && (frame_timeout_us <=? u32 (now_us - last_byte_us_ d))
           then reset d else d in
  d <| last_byte_us_ := now_us |> <| have_last_byte_ := true |>.

(** With no header yet, the two header bytes are looked for.
    [src/src/libs/MakeraFrame.cpp:66-75] makera::FrameDecoder::decode_byte *)
Definition seek_header (d : FrameDecoder) (byte : Z) : FrameDecoder :=
  if header_prefix_ d && (byte =? u8 header) then
    d <| received_ := 2 |> <| header_prefix_ := false |>
  else
    d <| header_prefix_ := byte =? u8 (Z.shiftr header 8) |> <| marked_ := false |>.

(** Position 3: the length is complete and is checked.
    [src/src/libs/MakeraFrame.cpp:83-98] makera::FrameDecoder::decode_byte *)
Definition take_length (d : FrameDecoder) (byte now_us : Z) : FrameDecoder * DecodeResult :=
  let length := u16 (Z.lor (Z.shiftl (length_high_ d) 8) byte) in
  if (length <? 3) || (max_data_size + 3 <? length) then
    (if length =? header then keep_consumed_header d now_us else restart_with d byte now_us,
     invalid_length)
  else
    (d <| packet_ := (packet_ d) <| pk_length := length |> <| pk_data_length := u16 (length - 3) |> |>
       <| calculated_crc_ := ccitt_update (calculated_crc_ d) [byte] |>
       <| expected_ := length + 6 |>,
     incomplete).

(** Positions 4 and up: the byte is stored where its position says.
    [src/src/libs/MakeraFrame.cpp:100-114] makera::FrameDecoder::decode_byte *)
Definition store_byte (d : FrameDecoder) (position byte : Z) : FrameDecoder :=
  let length := pk_length (packet_ d) in
  let d' :=
    if position =? 4 then
      d <| packet_ := (packet_ d) <| pk_type := byte |> |>
        <| calculated_crc_ := ccitt_update (calculated_crc_ d) [byte] |>
    else if position <? length + 2 then
      d <| packet_ := (packet_ d) <| pk_data := <[Z.to_nat (position - 5) := byte]> (pk_data (packet_ d)) |> |>
        <| calculated_crc_ := ccitt_update (calculated_crc_ d) [byte] |>
    else if position =? length + 2 then
      d <| packet_ := (packet_ d) <| pk_crc := u16 (Z.shiftl byte 8) |> |>
    else if position =? length + 3 then
      d <| packet_ := (packet_ d) <| pk_crc := Z.lor (pk_crc (packet_ d)) byte |> |>
    else if position =? expected_ d - 2 then d <| footer_high_ := byte |>
    else d in
  if length + 2 <=? position then d' <| trailer_ := Z.lor (u32 (Z.shiftl (trailer_ d) 8)) byte |>
  else d'.

(** The last byte is in: footer, then CRC, then the mark.
    [src/src/libs/MakeraFrame.cpp:118-128] makera::FrameDecoder::decode_byte *)
Definition finish_frame
    (decode : FrameDecoder -> Z -> Z -> option (FrameDecoder * DecodeResult))
    (d : FrameDecoder) (position byte now_us : Z) : option (FrameDecoder * DecodeResult) :=
  let received_footer := u16 (Z.lor (Z.shiftl (footer_high_ d) 8) byte) in
  if negb (position =? expected_ d - 1) || negb (received_footer =? footer) then
    d ← restart_from_trailer decode d now_us;
    Some (d, invalid_footer)
  else
  let crc_valid := pk_crc (packet_ d) =? calculated_crc_ d in
  let was_marked := marked_ d in
  let d := reset d in
  if negb crc_valid then Some (d, invalid_crc)
  else Some (d, if was_marked then marked else complete).

(** Everything after the time check.
    [src/src/libs/MakeraFrame.cpp:66-128] makera::FrameDecoder::decode_byte *)
Definition advance
    (decode : FrameDecoder -> Z -> Z -> option (FrameDecoder * DecodeResult))
    (d : FrameDecoder) (byte now_us : Z) : option (FrameDecoder * DecodeResult) :=
  if received_ d =? 0 then Some (seek_header d byte, incomplete)
  else
  let position := received_ d in
  let d := d <| received_ := position + 1 |> in
  if position =? 2 then
    Some (d <| length_high_ := byte |>
            <| calculated_crc_ := ccitt_update (calculated_crc_ d) [byte] |>, incomplete)
  else if position =? 3 then Some (take_length d byte now_us)
  else
  let d := store_byte d position byte in
  if received_ d <? expected_ d then Some (d, incomplete)
  else finish_frame decode d position byte now_us.

(** One received byte. [fuel] bounds the depth of the call back from
    [restart_from_trailer]; two is always enough ([decode_byte_total]).
    [src/src/libs/MakeraFrame.cpp:61-129] makera::FrameDecoder::decode_byte *)
Fixpoint decode_byte_fuel (fuel : nat) (d : FrameDecoder) (byte now_us : Z)
    : option (FrameDecoder * DecodeResult) :=
  match fuel with
  | O => None
  | S fuel => advance (decode_byte_fuel fuel) (note_time d now_us) byte now_us
  end.

(** The decoder's entry point: [decode_byte_fuel] at the depth that is always
    enough. *)
Definition decode_byte (d : FrameDecoder) (byte now_us : Z) : FrameDecoder * DecodeResult :=
  default (d, incomplete) (decode_byte_fuel 2 d byte now_us).

(** A whole frame on the wire, as [MakeraFrame.h:11-15] describes it: header,
    length, type, data, CRC over length, type and data, footer. *)
Definition frame_covered (type : Z) (data : list Z) : list Z :=
  be_bytes 2 (Z.of_nat (length data) + 3) ++ type :: data.
Definition encode_frame (type : Z) (data : list Z) : list Z :=
  be_bytes 2 header ++ frame_covered type data
    ++ be_bytes 2 (ccitt (frame_covered type data)) ++ be_bytes 2 footer.

(** The header's own example: type 0x71 and no data. *)
Example encode_frame_71 :
  encode_frame 0x71 [] = [0x86; 0x68; 0x00; 0x03; 0x71; 0x3b; 0xe5; 0x55; 0xaa].
Proof. reflexivity. Qed.

(** A run of the decoder over timed bytes: the final state and every result. *)
Fixpoint decode_all (d : FrameDecoder) (stream : list (Z * Z)) : FrameDecoder * list DecodeResult :=
  match stream with
  | [] => (d, [])
  | (byte, now_us) :: rest =>
      let '(d, r) := decode_byte d byte now_us in
      let '(d, rs) := decode_all d rest in (d, r :: rs)
  end.

Definition blank_packet : Packet := mk_packet 0 0 0 (repeat 0 (Z.to_nat max_data_size)) 0.

Example decode_71 :
  let '(d, rs) := decode_all (new_decoder blank_packet)
                    (map (fun b => (b, 5)) (encode_frame 0x71 [])) in
  rs = repeat incomplete 8 ++ [complete] /\ pk_type (packet_ d) = 0x71.
Proof. vm_compute. split; reflexivity. Qed.

(** The gap since the last byte has run past [frame_timeout_us]. *)
Definition timed_out (d : FrameDecoder) (now_us : Z) : bool :=
  in_progress d && have_last_byte_ d && (frame_timeout_us <=? u32 (now_us - last_byte_us_ d)).

(** ** What a decoder has consumed

    [consumed d bs]: the frame in progress in [d] began with exactly the bytes
    [bs], and [d] and its packet hold what those bytes say. *)
Definition packet_ok (d : FrameDecoder) : Prop :=
  Z.of_nat (length (pk_data (packet_ d))) = max_data_size.

Definition stored (d : FrameDecoder) (td : list Z) : Prop :=
  match td with
  | [] => True
  | ty :: data => pk_type (packet_ d) = ty /\ take (length data) (pk_data (packet_ d)) = data
  end.

(** What the CRC and footer bytes received so far have left behind. *)
Definition trailer_fields (d : FrameDecoder) (t : list Z) : Prop :=
  match t with
  | [] => trailer_ d = 0
  | [a] => trailer_ d = a /\ pk_crc (packet_ d) = a * 256
  | [a; b] => trailer_ d = a * 256 + b /\ pk_crc (packet_ d) = a * 256 + b
  | [a; b; c] => trailer_ d = (a * 256 + b) * 256 + c /\ pk_crc (packet_ d) = a * 256 + b
                 /\ footer_high_ d = c
  | _ => False
  end.

Record in_body (d : FrameDecoder) (lh ll : Z) : Prop := {
  ib_length : pk_length (packet_ d) = lh * 256 + ll;
  ib_range : 3 <= lh * 256 + ll <= max_data_size + 3;
  ib_data_length : pk_data_length (packet_ d) = lh * 256 + ll - 3;
  ib_expected : expected_ d = lh * 256 + ll + 6
}.

Inductive consumed (d : FrameDecoder) : list Z -> Prop :=
| cs_idle : received_ d = 0 -> header_prefix_ d = false -> calculated_crc_ d = 0 ->
    trailer_ d = 0 -> consumed d []
| cs_prefix : received_ d = 0 -> header_prefix_ d = true -> calculated_crc_ d = 0 ->
    trailer_ d = 0 -> consumed d [0x86]
| cs_header : received_ d = 2 -> header_prefix_ d = false -> calculated_crc_ d = 0 ->
    trailer_ d = 0 -> consumed d [0x86; 0x68]
| cs_high lh : received_ d = 3 -> header_prefix_ d = false -> length_high_ d = lh ->
    calculated_crc_ d = ccitt [lh] -> trailer_ d = 0 -> consumed d [0x86; 0x68; lh]
| cs_body lh ll td : received_ d = 4 + Z.of_nat (length td) -> header_prefix_ d = false ->
    in_body d lh ll -> Z.of_nat (length td) < lh * 256 + ll - 2 -> stored d td ->
    calculated_crc_ d = ccitt (lh :: ll :: td) -> trailer_ d = 0 ->
    consumed d (0x86 :: 0x68 :: lh :: ll :: td)
| cs_trailer lh ll td t :
    received_ d = 4 + Z.of_nat (length td) + Z.of_nat (length t) -> header_prefix_ d = false ->
    in_body d lh ll -> Z.of_nat (length td) = lh * 256 + ll - 2 -> stored d td ->
    calculated_crc_ d = ccitt (lh :: ll :: td) -> trailer_fields d t ->
    consumed d (0x86 :: 0x68 :: lh :: ll :: td ++ t).

Lemma ccitt_snoc l b : ccitt_update (ccitt l) [b] = ccitt (l ++ [b]).
Proof. symmetry. apply ccitt_update_app. Qed.

Lemma u16_pair a b : is_u8 a -> is_u8 b -> u16 (Z.lor (Z.shiftl a 8) b) = a * 256 + b.
Proof. intros. rewrite lor_shiftl_8 by done. apply wrap_small. ints. Qed.

(** The fields a reset leaves. *)
Lemma reset_fields d :
  received_ (reset d) = 0 /\ header_prefix_ (reset d) = false /\ calculated_crc_ (reset d) = 0 /\
  trailer_ (reset d) = 0 /\ packet_ (reset d) = packet_ d /\ marked_ (reset d) = false.
Proof. by repeat split. Qed.

Lemma reset_consumed d : consumed (reset d) [].
Proof. by constructor. Qed.
Lemma restart_with_consumed d b now :
  consumed (restart_with d b now) (if b =? 0x86 then [0x86] else []).
Proof.
  unfold restart_with. change (u8 (Z.shiftr header 8)) with 0x86.
  destruct (Z.eqb_spec b 0x86); by constructor.
Qed.
Lemma keep_consumed_header_consumed d now : consumed (keep_consumed_header d now) [0x86; 0x68].
Proof. by constructor. Qed.

Lemma note_time_consumed d bs now :
  timed_out d now = false -> consumed d bs -> consumed (note_time d now) bs.
Proof.
  unfold timed_out, note_time. intros -> H. cbv zeta.
  destruct H; econstructor; recs; try done; destruct H1; by constructor.
Qed.
Lemma note_time_expired d now : timed_out d now = true -> consumed (note_time d now) [].
Proof. unfold timed_out, note_time. intros ->. by constructor. Qed.
Lemma note_time_fields d now :
  packet_ (note_time d now) = packet_ d /\ last_byte_us_ (note_time d now) = now /\
  marked_ (note_time d now) = marked_ d && negb (timed_out d now).
Proof.
  unfold note_time, timed_out. destruct (_ && _ && _); cbv zeta; recs; cbn [negb];
    rewrite ?andb_true_r, ?andb_false_r; done.
Qed.

(** *** The step in each phase *)
Section Steps.
Context (decode : FrameDecoder -> Z -> Z -> option (FrameDecoder * DecodeResult)).

Lemma advance_idle d bs b now :
  consumed d bs -> received_ d = 0 -> exists d', advance decode d b now = Some (d', incomplete) /\
    packet_ d' = packet_ d /\
    consumed d' (if bool_decide (bs = [0x86]) && (b =? 0x68) then [0x86; 0x68]
                 else if b =? 0x86 then [0x86] else []).
Proof.
  intros Hc H0. unfold advance, seek_header. rewrite H0. cbn [Z.eqb].
  change (u8 header) with 0x68. change (u8 (Z.shiftr header 8)) with 0x86.
  destruct Hc; try (recs; lia).
  - rewrite H1. cbn [andb]. rewrite bool_decide_eq_false_2 by done. cbn [andb].
    eexists; repeat split. destruct (Z.eqb_spec b 0x86); by constructor.
  - rewrite H1. rewrite bool_decide_eq_true_2 by done. cbn [andb].
    destruct (Z.eqb_spec b 0x68); (eexists; split; [reflexivity|]; split; [done|]).
    + by constructor.
    + destruct (Z.eqb_spec b 0x86); by constructor.
Qed.

Lemma advance_header d b now :
  consumed d [0x86; 0x68] -> exists d', advance decode d b now = Some (d', incomplete) /\
    packet_ d' = packet_ d /\ marked_ d' = marked_ d /\ last_byte_us_ d' = last_byte_us_ d /\
    consumed d' [0x86; 0x68; b].
Proof.
  intros Hc. inversion_clear Hc. unfold advance. rewrite H. cbn [Z.eqb Pos.eqb]. cbv zeta.
  eexists; repeat split. constructor; recs; try done. by rewrite H1.
Qed.

Lemma advance_high d lh b now :
  consumed d [0x86; 0x68; lh] -> is_u8 lh -> is_u8 b ->
  let len := lh * 256 + b in
  exists d' r, advance decode d b now = Some (d', r) /\ (packet_ok d -> packet_ok d') /\
    (if (3 <=? len) && (len <=? max_data_size + 3) then
       r = incomplete /\ consumed d' [0x86; 0x68; lh; b] /\ marked_ d' = marked_ d
     else r = invalid_length /\
          consumed d' (if len =? header then [0x86; 0x68] else if b =? 0x86 then [0x86] else [])).
Proof.
  intros Hc Hlh Hb len. inversion_clear Hc. unfold advance. rewrite H. cbn [Z.eqb Pos.eqb].
  cbv zeta. unfold take_length. recs. rewrite H1, u16_pair by done. fold len.
  assert (is_u8 lh /\ is_u8 b) as [? ?] by done.
  destruct ((3 <=? len) && (len <=? max_data_size + 3)) eqn:Hlen.
  - apply andb_true_iff in Hlen as [Hl1 Hl2]. apply Z.leb_le in Hl1, Hl2.
    destruct (Z.ltb_spec len 3); [lia|]. destruct (Z.ltb_spec (max_data_size + 3) len); [lia|].
    cbn [orb]. do 2 eexists. split; [reflexivity|]. split; [done|]. split; [done|].
    split; [|done]. apply cs_body; recs; try done.
    + split; recs; try done. unfold len, max_data_size, max_frame_size, frame_overhead in *.
      apply wrap_small. ints.
    + cbn. fold len. lia.
    + rewrite H2. by rewrite ccitt_snoc.
  - apply andb_false_iff in Hlen. rewrite !Z.leb_gt in Hlen.
    destruct ((len <? 3) || (max_data_size + 3 <? len)) eqn:Hor.
    2: { apply orb_false_iff in Hor as [Ha Hb']. apply Z.ltb_ge in Ha, Hb'. lia. }
    do 2 eexists. split; [reflexivity|]. split.
    + destruct (len =? header); done.
    + split; [done|]. destruct (len =? header);
        [apply keep_consumed_header_consumed|apply restart_with_consumed].
Qed.

Lemma store_byte_fields d position b :
  received_ (store_byte d position b) = received_ d /\
  header_prefix_ (store_byte d position b) = header_prefix_ d /\
  marked_ (store_byte d position b) = marked_ d /\
  expected_ (store_byte d position b) = expected_ d /\
  pk_length (packet_ (store_byte d position b)) = pk_length (packet_ d) /\
  pk_data_length (packet_ (store_byte d position b)) = pk_data_length (packet_ d) /\
  (packet_ok d -> packet_ok (store_byte d position b)).
Proof.
  unfold store_byte, packet_ok. cbv zeta.
  repeat case_match; recs; rewrite ?length_insert; auto 10.
Qed.

(** The type byte and the data bytes. *)
Lemma advance_body d lh ll td b now :
  consumed d (0x86 :: 0x68 :: lh :: ll :: td) -> is_u8 lh -> is_u8 ll ->
  packet_ok d -> received_ d = 4 + Z.of_nat (length td) ->
  Z.of_nat (length td) < lh * 256 + ll - 2 ->
  exists d', advance decode d b now = Some (d', incomplete) /\ packet_ok d' /\
    marked_ d' = marked_ d /\ consumed d' (0x86 :: 0x68 :: lh :: ll :: td ++ [b]).
Proof.
  intros Hc Hlh Hll Hp Hr Hlt.
  assert (in_body d lh ll /\ stored d td /\ calculated_crc_ d = ccitt (lh :: ll :: td) /\
          trailer_ d = 0 /\ header_prefix_ d = false) as (Hb & Hs & Hcrc & Ht & Hh).
  { inversion Hc; subst; [done|]. rewrite length_app in *. lia. }
  destruct Hb as [Hl Hrg Hdl He]. unfold advance.
  destruct (Z.eqb_spec (received_ d) 0); [lia|]. cbv zeta.
  destruct (Z.eqb_spec (received_ d) 2); [lia|].
  destruct (Z.eqb_spec (received_ d) 3); [lia|].
  set (d1 := set_field received_ (received_ d + 1) d).
  destruct (store_byte_fields d1 (received_ d) b) as (F1 & F2 & F3 & F4 & F5 & F6 & F7).
  rewrite F1, F4. subst d1. recs. rewrite He.
  destruct (Z.ltb_spec (received_ d + 1) (lh * 256 + ll + 6)); [|lia].
  eexists; split; [reflexivity|]. split; [by apply F7|]. split; [done|].
  assert (stored (store_byte (set_field received_ (received_ d + 1) d) (received_ d) b) (td ++ [b]) /\
          calculated_crc_ (store_byte (set_field received_ (received_ d + 1) d) (received_ d) b)
            = ccitt (lh :: ll :: td ++ [b]) /\
          trailer_ (store_byte (set_field received_ (received_ d + 1) d) (received_ d) b) = 0)
    as (G1 & G2 & G3).
  { unfold store_byte. cbv zeta. recs. rewrite Hl.
    destruct (Z.leb_spec (lh * 256 + ll + 2) (received_ d)); [lia|].
    destruct td as [|ty data].
    - destruct (Z.eqb_spec (received_ d) 4); [|cbn in *; lia].
      unfold stored. recs. split; [done|]. by rewrite Hcrc, ccitt_snoc.
    - destruct (Z.eqb_spec (received_ d) 4); [cbn in *; lia|].
      destruct (Z.ltb_spec (received_ d) (lh * 256 + ll + 2)); [|lia].
      unfold stored in *. destruct Hs as [Hty Hda]. cbn [app]. recs. rewrite Hcrc, ccitt_snoc.
      split; [|done]. split; [done|]. cbn [length] in *.
      replace (Z.to_nat (received_ d - 5)) with (length data) by lia.
      rewrite length_app, Nat.add_1_r. unfold packet_ok in Hp.
      rewrite (take_S_r _ _ b) by (apply list_lookup_insert_eq; lia).
      rewrite take_insert_ge by lia. by rewrite Hda. }
  destruct (Z.eq_dec (Z.of_nat (length td) + 1) (lh * 256 + ll - 2)).
  - rewrite <- (app_nil_r (td ++ [b])). apply cs_trailer; rewrite ?F1, ?F2, ?length_app; recs;
      try done; [cbn in *; lia| |cbn; lia]. split; rewrite ?F4, ?F5, ?F6; recs; done.
  - apply cs_body; rewrite ?F1, ?F2, ?length_app; recs; try done; [cbn; lia| |cbn; lia].
    split; rewrite ?F4, ?F5, ?F6; recs; done.
Qed.

Lemma store_byte_late d position b :
  pk_length (packet_ d) + 2 <= position -> 3 <= pk_length (packet_ d) ->
  pk_type (packet_ (store_byte d position b)) = pk_type (packet_ d) /\
  pk_data (packet_ (store_byte d position b)) = pk_data (packet_ d) /\
  calculated_crc_ (store_byte d position b) = calculated_crc_ d /\
  trailer_ (store_byte d position b) = Z.lor (u32 (Z.shiftl (trailer_ d) 8)) b /\
  pk_crc (packet_ (store_byte d position b)) =
    (if position =? pk_length (packet_ d) + 2 then u16 (Z.shiftl b 8)
     else if position =? pk_length (packet_ d) + 3 then Z.lor (pk_crc (packet_ d)) b
     else pk_crc (packet_ d)) /\
  (pk_length (packet_ d) + 4 <= position ->
   footer_high_ (store_byte d position b) =
     if position =? expected_ d - 2 then b else footer_high_ d).
Proof.
  intros Hp Hl. unfold store_byte. cbv zeta.
  destruct (Z.eqb_spec position 4); [lia|].
  destruct (Z.ltb_spec position (pk_length (packet_ d) + 2)); [lia|].
  destruct (Z.leb_spec (pk_length (packet_ d) + 2) position); [|lia].
  destruct (Z.eqb_spec position (pk_length (packet_ d) + 2)),
    (Z.eqb_spec position (pk_length (packet_ d) + 3)), (position =? expected_ d - 2);
    recs; repeat split; intros; try done; lia.
Qed.

(** The first three of the four CRC and footer bytes. *)
Lemma advance_trailer d lh ll td t b now :
  received_ d = 4 + Z.of_nat (length td) + Z.of_nat (length t) -> header_prefix_ d = false ->
  in_body d lh ll -> Z.of_nat (length td) = lh * 256 + ll - 2 -> stored d td ->
  calculated_crc_ d = ccitt (lh :: ll :: td) -> trailer_fields d t ->
  is_bytes t -> is_u8 b -> packet_ok d -> (length t < 3)%nat ->
  exists d', advance decode d b now = Some (d', incomplete) /\ packet_ok d' /\
    marked_ d' = marked_ d /\ consumed d' (0x86 :: 0x68 :: lh :: ll :: td ++ (t ++ [b])).
Proof.
  intros Hr Hh Hib Htd Hs Hcrc Ht Htb Hb Hp Hlt. destruct Hib as [Hl Hrg Hdl He]. unfold advance.
  destruct (Z.eqb_spec (received_ d) 0); [lia|]. cbv zeta.
  destruct (Z.eqb_spec (received_ d) 2); [lia|].
  destruct (Z.eqb_spec (received_ d) 3); [lia|].
  set (d1 := set_field received_ (received_ d + 1) d).
  destruct (store_byte_fields d1 (received_ d) b) as (F1 & F2 & F3 & F4 & F5 & F6 & F7).
  destruct (store_byte_late d1 (received_ d) b) as (L1 & L2 & L3 & L4 & L5 & L6);
    [subst d1; recs; lia..|].
  rewrite F1, F4. subst d1. recs. rewrite He.
  destruct (Z.ltb_spec (received_ d + 1) (lh * 256 + ll + 6)); [|lia].
  eexists; split; [reflexivity|]. split; [by apply F7|]. split; [done|].
  apply cs_trailer; rewrite ?F1, ?F2, ?L3, ?length_app; recs; try done; [cbn; lia| | |].
  - split; rewrite ?F4, ?F5, ?F6; recs; done.
  - unfold stored in *. by rewrite L1, L2.
  - clear - L4 L5 L6 Ht Htb Hb Hl He Hr Htd Hlt Hrg. recs.
    destruct t as [|a [|c [|]]]; cbn [app trailer_fields length] in *; try lia;
      split_bytes.
    + rewrite L4, L5, Ht, Hl. destruct (Z.eqb_spec (received_ d) (lh * 256 + ll + 2)); [|lia].
      rewrite Z.shiftl_0_l, wrap_0, Z.lor_0_l, Z.shiftl_mul_pow2, wrap_small by (lia || ints). done.
    + destruct Ht as [Ht1 Ht2]. rewrite L4, L5, Ht1, Ht2, Hl.
      destruct (Z.eqb_spec (received_ d) (lh * 256 + ll + 2)); [lia|].
      destruct (Z.eqb_spec (received_ d) (lh * 256 + ll + 3)); [|lia].
      rewrite (wrap_small 32), lor_shiftl_8 by (done || (rewrite Z.shiftl_mul_pow2 by lia; ints)).
      split; [done|]. change 256 with (2 ^ 8) at 1. rewrite <- Z.shiftl_mul_pow2 by lia.
      by apply lor_shiftl_8.
    + destruct Ht as [Ht1 Ht2]. rewrite L4, L5, L6, Ht1, Ht2, Hl, He by lia.
      destruct (Z.eqb_spec (received_ d) (lh * 256 + ll + 2)); [lia|].
      destruct (Z.eqb_spec (received_ d) (lh * 256 + ll + 3)); [lia|].
      destruct (Z.eqb_spec (received_ d) (lh * 256 + ll + 6 - 2)); [|lia].
      rewrite (wrap_small 32), lor_shiftl_8 by (done || (rewrite Z.shiftl_mul_pow2 by lia; ints)).
      done.
Qed.

(** The last byte: everything the code compares it with. *)
Lemma advance_last d lh ll td a c e b now :
  received_ d = 7 + Z.of_nat (length td) -> header_prefix_ d = false ->
  in_body d lh ll -> Z.of_nat (length td) = lh * 256 + ll - 2 -> stored d td ->
  calculated_crc_ d = ccitt (lh :: ll :: td) -> trailer_fields d [a; c; e] ->
  is_bytes [a; c; e] -> is_u8 b -> packet_ok d ->
  exists d1, packet_ok d1 /\ marked_ d1 = marked_ d /\ in_body d1 lh ll /\ stored d1 td /\
    trailer_ d1 = ((a * 256 + c) * 256 + e) * 256 + b /\
    advance decode d b now =
      if (e =? 0x55) && (b =? 0xAA) then
        if a * 256 + c =? ccitt (lh :: ll :: td)
        then Some (reset d1, if marked_ d then marked else complete)
        else Some (reset d1, invalid_crc)
      else (d2 ← restart_from_trailer decode d1 now; Some (d2, invalid_footer)).
Proof.
  intros Hr Hh Hib Htd Hs Hcrc Ht Htb Hb Hp. destruct Hib as [Hl Hrg Hdl He]. unfold advance.
  destruct (Z.eqb_spec (received_ d) 0); [lia|]. cbv zeta.
  destruct (Z.eqb_spec (received_ d) 2); [lia|].
  destruct (Z.eqb_spec (received_ d) 3); [lia|].
  set (d0 := set_field received_ (received_ d + 1) d).
  destruct (store_byte_fields d0 (received_ d) b) as (F1 & F2 & F3 & F4 & F5 & F6 & F7).
  destruct (store_byte_late d0 (received_ d) b) as (L1 & L2 & L3 & L4 & L5 & L6);
    [subst d0; recs; lia..|]. subst d0. recs.
  set (d1 := store_byte (set_field received_ (received_ d + 1) d) (received_ d) b) in *.
  destruct Ht as (Ht1 & Ht2 & Ht3). split_bytes.
  rewrite He in *. rewrite Hl in *. rewrite F1, F4.
  destruct (Z.ltb_spec (received_ d + 1) (lh * 256 + ll + 6)); [lia|].
  destruct (Z.eqb_spec (received_ d) (lh * 256 + ll + 2)); [lia|].
  destruct (Z.eqb_spec (received_ d) (lh * 256 + ll + 3)); [lia|].
  destruct (Z.eqb_spec (received_ d) (lh * 256 + ll + 6 - 2)); [lia|].
  exists d1. split; [by apply F7|]. split; [done|]. split; [by split; rewrite ?F4, ?F5, ?F6|].
  split; [unfold stored in *; by rewrite L1, L2|].
  split. { rewrite L4, Ht1, wrap_small, lor_shiftl_8 by (done || (rewrite Z.shiftl_mul_pow2 by lia; ints)). done. }
  unfold finish_frame. cbv zeta. rewrite F4, L6, Ht3 by lia.
  rewrite (proj2 (Z.eqb_eq _ _)) by lia. cbn [negb orb].
  rewrite u16_pair by done. rewrite L5, L3, F3, Ht2, Hcrc.
  assert ((e * 256 + b =? footer) = (e =? 0x55) && (b =? 0xAA)) as ->.
  { unfold footer. destruct (Z.eqb_spec e 0x55), (Z.eqb_spec b 0xAA); cbn [andb];
      apply Z.eqb_eq || apply Z.eqb_neq; ints. }
  destruct ((e =? 0x55) && (b =? 0xAA)); cbn [negb]; [|done].
  by destruct (_ =? ccitt _).
Qed.
End Steps.

(** *** The call back from the trailer *)
Lemma timed_out_now d now : last_byte_us_ d = now -> timed_out d now = false.
Proof. intros <-. unfold timed_out. rewrite Z.sub_diag, wrap_0. by rewrite andb_false_r. Qed.

Lemma decode_after_header fuel d e now :
  exists d', decode_byte_fuel (S fuel) (keep_consumed_header d now) e now = Some (d', incomplete) /\
    packet_ d' = packet_ d /\ last_byte_us_ d' = now /\ marked_ d' = false /\
    consumed d' [0x86; 0x68; e].
Proof.
  cbn [decode_byte_fuel]. set (d0 := keep_consumed_header d now).
  assert (timed_out d0 now = false) as Hto by (by apply timed_out_now).
  destruct (note_time_fields d0 now) as (Hp & Hl & Hm).
  destruct (advance_header (decode_byte_fuel fuel) (note_time d0 now) e now) as (d' & Ha & Hp' & Hm' & Hl' & Hc).
  { apply note_time_consumed; [done|]. apply keep_consumed_header_consumed. }
  exists d'. rewrite Ha, Hp', Hl', Hp, Hl, Hm', Hm. done.
Qed.

(** What is left of the last four bytes of a frame whose footer was wrong. *)
Definition rescued (a c e b : Z) : list Z :=
  if (e =? 0x86) && (b =? 0x68) then [0x86; 0x68]
  else if (c =? 0x86) && (e =? 0x68) then [0x86; 0x68; b]
  else if (a =? 0x86) && (c =? 0x68) then
    if (3 <=? e * 256 + b) && (e * 256 + b <=? max_data_size + 3) then [0x86; 0x68; e; b]
    else if b =? 0x86 then [0x86] else []
  else if b =? 0x86 then [0x86] else [].

Lemma rescued_suffix a c e b : rescued a c e b `suffix_of` [a; c; e; b].
Proof.
  assert ((if b =? 0x86 then [0x86] else []) `suffix_of` [a; c; e; b]) as Hlast.
  { destruct (Z.eqb_spec b 0x86); subst; [by exists [a; c; e]|apply suffix_nil]. }
  unfold rescued.
  destruct ((e =? 0x86) && (b =? 0x68)) eqn:E1.
  { apply andb_true_iff in E1 as [->%Z.eqb_eq ->%Z.eqb_eq]. by exists [a; c]. }
  destruct ((c =? 0x86) && (e =? 0x68)) eqn:E2.
  { apply andb_true_iff in E2 as [->%Z.eqb_eq ->%Z.eqb_eq]. by exists [a]. }
  destruct ((a =? 0x86) && (c =? 0x68)) eqn:E3; [|done].
  apply andb_true_iff in E3 as [->%Z.eqb_eq ->%Z.eqb_eq].
  destruct ((3 <=? _) && _); [by exists []|done].
Qed.

Lemma pair_eqb x y u v : is_u8 x -> is_u8 y -> is_u8 u -> is_u8 v ->
  (x * 256 + y =? u * 256 + v) = (x =? u) && (y =? v).
Proof.
  intros. destruct (Z.eqb_spec x u), (Z.eqb_spec y v); cbn [andb];
    (apply Z.eqb_eq || apply Z.eqb_neq); ints.
Qed.

Lemma advance_high_fresh decode d b now d' r :
  advance decode d b now = Some (d', r) -> received_ d = 3 -> marked_ d = false ->
  last_byte_us_ d = now -> marked_ d' = false /\ last_byte_us_ d' = now.
Proof.
  unfold advance. intros Ha H3 Hm Hl. rewrite H3 in Ha. cbn [Z.eqb Pos.eqb] in Ha. injection Ha as Ha.
  unfold take_length in Ha. cbv zeta in Ha. destruct (_ || _); [destruct (_ =? header)|]; by simplify_eq.
Qed.

Lemma restart_from_trailer_total fuel d a c e b now :
  is_bytes [a; c; e; b] -> trailer_ d = ((a * 256 + c) * 256 + e) * 256 + b -> packet_ok d ->
  exists d', restart_from_trailer (decode_byte_fuel (S fuel)) d now = Some d' /\ packet_ok d' /\
    consumed d' (rescued a c e b) /\ marked_ d' = false /\ last_byte_us_ d' = now.
Proof.
  intros Hbs Ht Hp. split_bytes. unfold restart_from_trailer. rewrite Ht. cbv zeta.
  rewrite !Z.shiftr_div_pow2 by lia.
  change 0xFFFF with (Z.ones 16). rewrite !Z.land_ones by lia.
  set (tr := ((a * 256 + c) * 256 + e) * 256 + b).
  replace (tr mod 2 ^ 16) with (e * 256 + b) by (subst tr; ints).
  replace ((tr / 2 ^ 8) mod 2 ^ 16) with (c * 256 + e) by (subst tr; ints).
  replace (tr / 2 ^ 16) with (a * 256 + c) by (subst tr; ints).
  replace (u8 tr) with b by (subst tr; ints). replace (u8 (tr / 2 ^ 8)) with e by (subst tr; ints).
  change header with (0x86 * 256 + 0x68). rewrite !pair_eqb by (done || ints).
  unfold rescued. destruct ((e =? 0x86) && (b =? 0x68)) eqn:E1.
  { eexists; split; [reflexivity|]. split; [done|]. split; [apply keep_consumed_header_consumed|done]. }
  destruct ((c =? 0x86) && (e =? 0x68)) eqn:E2.
  { destruct (decode_after_header fuel d b now) as (d' & -> & Hp' & Hl & Hm & Hc).
    exists d'. split; [done|]. split; [|done]. unfold packet_ok in *. by rewrite Hp'. }
  destruct ((a =? 0x86) && (c =? 0x68)) eqn:E3.
  2: { eexists; split; [reflexivity|]. split; [done|]. split; [apply restart_with_consumed|done]. }
  destruct (decode_after_header fuel d e now) as (d1 & -> & Hp1 & Hl1 & Hm1 & Hc1).
  cbn [mbind option_bind]. cbn [decode_byte_fuel].
  destruct (advance_high (decode_byte_fuel fuel) (note_time d1 now) e b now) as (d2 & r & Ha & Hp2 & Hr);
    [|done|done|].
  { apply note_time_consumed; [by apply timed_out_now|done]. }
  rewrite Ha. exists d2. split; [done|].
  split. { apply Hp2. unfold packet_ok. destruct (note_time_fields d1 now) as (-> & _). by rewrite Hp1. }
  split.
  2: { destruct (note_time_fields d1 now) as (_ & Hl & Hm). rewrite Hm1 in Hm.
       apply (advance_high_fresh _ _ _ _ _ _ Ha); try done.
       assert (consumed (note_time d1 now) [0x86; 0x68; e]) as Hc by (by apply note_time_consumed; [apply timed_out_now|]).
       by inversion Hc. }
  destruct ((3 <=? _) && _); [by destruct Hr as (_ & ? & _)|]. destruct Hr as [_ Hr].
  change header with (0x86 * 256 + 0x68) in Hr. rewrite pair_eqb, E1 in Hr by (done || ints). done.
Qed.

(** ** The decoder against the wire *)
(** The packet holds a frame of this type and data. *)
Definition holds (p : Packet) (type : Z) (data : list Z) : Prop :=
  pk_type p = type /\ pk_length p = Z.of_nat (length data) + 3 /\
  pk_data_length p = Z.of_nat (length data) /\ take (length data) (pk_data p) = data.

Lemma be_bytes_pair x y : is_u8 x -> is_u8 y -> be_bytes 2 (x * 256 + y) = [x; y].
Proof.
  intros. cbn [be_bytes]. change (8 * Z.of_nat 1) with 8. rewrite Z.shiftr_div_pow2, Z.shiftr_0_r by lia.
  repeat f_equal; ints.
Qed.

Lemma encode_frame_eq lh ll ty data a c :
  is_bytes [lh; ll; a; c] -> Z.of_nat (length data) + 3 = lh * 256 + ll ->
  a * 256 + c = ccitt (lh :: ll :: ty :: data) ->
  encode_frame ty data = 0x86 :: 0x68 :: lh :: ll :: (ty :: data) ++ [a; c; 0x55; 0xAA].
Proof.
  intros Hb Hl Hc. split_bytes. unfold encode_frame, frame_covered. rewrite Hl.
  rewrite be_bytes_pair by done. change ([lh; ll] ++ ty :: data) with (lh :: ll :: ty :: data).
  rewrite <- Hc, be_bytes_pair by done. done.
Qed.

(** The outcome of one byte, given what had been consumed. *)
Definition outcome (bs : list Z) (b : Z) (d' : FrameDecoder) (r : DecodeResult) : Prop :=
  packet_ok d' /\
  (exists bs', consumed d' bs' /\ bs' `suffix_of` (bs ++ [b])) /\
  (r = complete \/ r = marked ->
   consumed d' [] /\ exists type data, bs ++ [b] = encode_frame type data /\ holds (packet_ d') type data).

Lemma advance_outcome fuel d bs b now :
  consumed d bs -> is_bytes bs -> is_u8 b -> packet_ok d ->
  exists d' r, advance (decode_byte_fuel (S fuel)) d b now = Some (d', r) /\ outcome bs b d' r.
Proof.
  intros Hc Hbs Hb Hp. pose proof Hc as Hc0.
  assert (forall d' bs', packet_ok d' -> consumed d' bs' -> bs' `suffix_of` (bs ++ [b]) ->
          outcome bs b d' incomplete) as Hinc.
  { intros d' bs' ???. split; [done|]. split; [eauto|]. intros [|]; done. }
  destruct Hc as [H0|H0|H0|lh H0|lh ll td Hr Hh Hib Hlt Hs Hcrc Ht|lh ll td t Hr Hh Hib Htd Hs Hcrc Ht].
  - edestruct advance_idle as (d' & -> & Hp' & Hc'); [exact Hc0|done|].
    exists d', incomplete. split; [done|]. eapply Hinc; [unfold packet_ok; by rewrite Hp'|exact Hc'|].
    destruct (Z.eqb_spec b 0x86); subst; [done|].
    apply suffix_nil.
  - edestruct advance_idle as (d' & -> & Hp' & Hc'); [exact Hc0|done|].
    exists d', incomplete. split; [done|]. eapply Hinc; [unfold packet_ok; by rewrite Hp'|exact Hc'|].
    destruct (Z.eqb_spec b 0x68); subst; [done|].
    destruct (Z.eqb_spec b 0x86); subst; [by exists [0x86]|apply suffix_nil].
  - destruct (advance_header (decode_byte_fuel (S fuel)) d b now Hc0) as (d' & -> & Hp' & _ & _ & Hc').
    exists d', incomplete. split; [done|]. eapply Hinc; [unfold packet_ok; by rewrite Hp'|exact Hc'|done].
  - split_bytes.
    destruct (advance_high (decode_byte_fuel (S fuel)) d lh b now) as (d' & r & -> & Hp' & Hr); [done..|].
    exists d', r. split; [done|]. destruct ((3 <=? _) && _).
    + destruct Hr as (-> & Hc' & _). eapply Hinc; eauto.
    + destruct Hr as (-> & Hc'). split; [auto|]. split; [|intros [|]; done].
      eexists; split; [exact Hc'|]. destruct (Z.eqb_spec (lh * 256 + b) header) as [He|].
      * unfold header in He. assert (lh = 0x86 /\ b = 0x68) as [-> ->] by ints. by exists [0x86; 0x68].
      * destruct (Z.eqb_spec b 0x86) as [->|]; [by exists [0x86; 0x68; lh]|apply suffix_nil].
  - split_bytes.
    destruct (advance_body (decode_byte_fuel (S fuel)) d lh ll td b now) as (d' & -> & Hp' & _ & Hc');
      [done..|].
    exists d', incomplete. split; [done|]. eapply Hinc; [done|exact Hc'|done].
  - split_bytes. destruct (decide (length t < 3)%nat) as [Hlt|Hge].
    + destruct (advance_trailer (decode_byte_fuel (S fuel)) d lh ll td t b now) as (d' & -> & Hp' & _ & Hc');
        [done..|].
      exists d', incomplete. split; [done|]. eapply Hinc; [done|exact Hc'|].
      cbn [app]. by rewrite <- app_assoc.
    + destruct t as [|a [|c [|e [|]]]]; cbn [length trailer_fields] in *; try lia.
      destruct (advance_last (decode_byte_fuel (S fuel)) d lh ll td a c e b now)
        as (d1 & Hp1 & _ & Hib1 & Hs1 & Ht1 & ->); try done; [lia|].
      split_bytes. destruct ((e =? 0x55) && (b =? 0xAA)) eqn:Hf.
      * apply andb_true_iff in Hf as [->%Z.eqb_eq ->%Z.eqb_eq].
        destruct (Z.eqb_spec (a * 256 + c) (ccitt (lh :: ll :: td))) as [Hcc|].
        2: { do 2 eexists; split; [reflexivity|]. split; [done|]. split; [|intros [|]; done].
             exists []. split; [apply reset_consumed|apply suffix_nil]. }
        do 2 eexists; split; [reflexivity|]. split; [done|].
        split; [exists []; split; [apply reset_consumed|apply suffix_nil]|]. intros _.
        split; [apply reset_consumed|].
        destruct Hib1 as [Hl1 Hrg1 Hdl1 _].
        destruct td as [|ty data]; [cbn in *; lia|]. exists ty, data. destruct Hs1 as [Hty Hda].
        cbn [length] in *. split.
        -- rewrite (encode_frame_eq lh ll ty data a c); [|bytes|lia|done].
           cbn [app]. by rewrite <- !app_assoc.
        -- cbn. repeat split; try done; lia.
      * destruct (restart_from_trailer_total fuel d1 a c e b now) as (d2 & -> & Hp2 & Hc2 & _);
          [bytes|done|done|].
        do 2 eexists; split; [reflexivity|]. split; [done|]. split; [|intros [|]; done].
        eexists; split; [exact Hc2|]. etrans; [apply rescued_suffix|].
        exists (0x86 :: 0x68 :: lh :: ll :: td). cbn [app]. by rewrite <- !app_assoc.
Qed.

(** ** The fields' round trips *)
Lemma read_write_be16 v l : is_u16 v -> read_be16 (write_be16 v ++ l) = v.
Proof.
  intros Hv. unfold read_be16, write_be16. cbn [app lookup_total list_lookup_total].
  rewrite lor_shiftl_8 by (apply wrap_range; lia). rewrite Z.shiftr_div_pow2 by lia. ints.
Qed.
Lemma read_write_be32 v l : is_u32 v -> read_be32 (write_be32 v ++ l) = v.
Proof.
  intros Hv. unfold read_be32, write_be32. cbn [app lookup_total list_lookup_total].
  assert (Hr : forall x, is_u8 (u8 x)) by (intros; apply wrap_range; lia).
  rewrite <- (Z.shiftl_shiftl _ 16 8), <- (Z.shiftl_shiftl _ 8 8), <- (Z.shiftl_shiftl _ 8 8), <- Z.shiftl_lor,
    <- Z.shiftl_lor, <- Z.shiftl_lor, !lor_shiftl_8 by (auto || lia).
  rewrite !Z.shiftr_div_pow2 by lia. ints.
Qed.
#[export] Hint Rewrite read_write_be16 read_write_be32 using done : carvera.
