(* ===== verification/FrameWire.v ===== *)
(** * The frame decoder against the wire

    What [FrameDecoder] (in [MakeraFrame]) promises its callers: every frame on
    a noisy wire is delivered, nothing else is, no byte is stored outside the
    packet, and damage or loss costs one frame. *)
From S2P Require Import Prelude Crc16 MakeraFrame.

(** *** Every byte has a result *)
Definition live (d : FrameDecoder) (bs : list Z) : Prop :=
  packet_ok d /\ is_bytes bs /\ consumed d bs.

(** What the decoder has in progress once the time has been looked at. *)
Definition kept (d : FrameDecoder) (bs : list Z) (now_us : Z) : list Z :=
  if timed_out d now_us then [] else bs.

Lemma note_time_live d bs now : live d bs -> live (note_time d now) (kept d bs now).
Proof.
  intros (Hp & Hb & Hc). unfold live, kept, packet_ok.
  destruct (note_time_fields d now) as (-> & _). destruct (timed_out d now) eqn:Ht.
  - split; [done|]. split; [by constructor|]. by apply note_time_expired.
  - split; [done|]. split; [done|]. by apply note_time_consumed.
Qed.

Lemma decode_byte_outcome d bs b now :
  live d bs -> is_u8 b ->
  exists d' r, decode_byte_fuel 2 d b now = Some (d', r) /\ decode_byte d b now = (d', r) /\
    outcome (kept d bs now) b d' r.
Proof.
  intros Hl Hb. apply (note_time_live _ _ now) in Hl as (Hp & Hbs & Hc).
  destruct (advance_outcome 0 _ _ b now Hc Hbs Hb Hp) as (d' & r & Ha & Ho).
  exists d', r. unfold decode_byte. cbn [decode_byte_fuel] in *. by rewrite Ha.
Qed.

Lemma outcome_live bs b d' r :
  is_bytes bs -> is_u8 b -> outcome bs b d' r -> exists bs', live d' bs' /\ bs' `suffix_of` bs ++ [b].
Proof.
  intros Hbs Hb (Hp & (bs' & Hc & Hsuf) & _). exists bs'. split; [|done]. split; [done|]. split; [|done].
  destruct Hsuf as [k Hk]. assert (is_bytes (bs ++ [b])) as Hall by bytes.
  rewrite Hk in Hall. by split_bytes.
Qed.

Lemma kept_suffix d bs now : kept d bs now `suffix_of` bs.
Proof. unfold kept. destruct (timed_out d now); [apply suffix_nil|done]. Qed.
Lemma kept_bytes d bs now : is_bytes bs -> is_bytes (kept d bs now).
Proof. intros. unfold kept. destruct (timed_out d now); [constructor|done]. Qed.

Lemma new_decoder_live p :
  Z.of_nat (length (pk_data p)) = max_data_size -> live (new_decoder p) [].
Proof. intros. split; [done|]. split; [constructor|]. by constructor. Qed.
Lemma mark_frame_live d bs : live d bs -> live (mark_frame d) bs.
Proof.
  intros (? & ? & Hc). split; [done|]. split; [done|]. unfold mark_frame.
  destruct Hc as [| | |? ? ? ? ? ?|? ? ? ? ? Hib|? ? ? ? ? ? Hib];
    [apply cs_idle|apply cs_prefix|apply cs_header|eapply cs_high|apply cs_body|apply cs_trailer];
    recs; try done; by destruct Hib; constructor.
Qed.
Lemma reset_live d bs : live d bs -> live (reset d) [].
Proof. intros (Hp & _ & _). split; [done|]. split; [constructor|]. apply reset_consumed. Qed.

(** The bytes of a stream are bytes. *)
Abbreviation is_stream := (Forall (fun bt : Z * Z => is_u8 bt.1)).

Lemma decode_all_snoc d s b t :
  decode_all d (s ++ [(b, t)]) =
    let '(d1, rs) := decode_all d s in let '(d2, r) := decode_byte d1 b t in (d2, rs ++ [r]).
Proof.
  revert d. induction s as [|[b' t'] s IH]; intros d; cbn [app decode_all].
  - by destruct (decode_byte d b t).
  - destruct (decode_byte d b' t') as [d' r]. rewrite IH. destruct (decode_all d' s).
    by destruct (decode_byte _ b t).
Qed.
Lemma decode_all_app d s s' :
  decode_all d (s ++ s') =
    let '(d1, rs) := decode_all d s in let '(d2, rs') := decode_all d1 s' in (d2, rs ++ rs').
Proof.
  revert d. induction s as [|[b' t'] s IH]; intros d; cbn [app decode_all].
  - by destruct (decode_all d s').
  - destruct (decode_byte d b' t') as [d' r]. rewrite IH. destruct (decode_all d' s).
    by destruct (decode_all _ s').
Qed.

Lemma decode_all_live p s :
  Z.of_nat (length (pk_data p)) = max_data_size -> is_stream s ->
  exists bs, live (decode_all (new_decoder p) s).1 bs /\ bs `suffix_of` map fst s.
Proof.
  intros Hp. induction s as [|[b t] s IH] using rev_ind; intros Hs.
  { exists []. split; [by apply new_decoder_live|done]. }
  apply Forall_app in Hs as [Hs Hb]. rewrite Forall_singleton in Hb.
  destruct (IH Hs) as (bs & Hl & Hsuf). rewrite decode_all_snoc.
  destruct (decode_all (new_decoder p) s) as [d rs]. cbn [fst] in *.
  destruct (decode_byte_outcome d bs b t Hl Hb) as (d' & r & _ & -> & Ho). cbn [fst].
  destruct (outcome_live _ _ _ _ (kept_bytes d bs t (proj1 (proj2 Hl))) Hb Ho) as (bs' & Hl' & Hsuf').
  exists bs'. split; [done|]. rewrite map_app. etrans; [exact Hsuf'|]. cbn [map fst].
  apply suffix_app. etrans; [apply kept_suffix|done].
Qed.

(** *** Feeding one whole frame *)
(** Each byte comes less than the timeout after the one before it. *)
Fixpoint timely (last_us : Z) (s : list (Z * Z)) : Prop :=
  match s with
  | [] => True
  | (_, t) :: s => u32 (t - last_us) < frame_timeout_us /\ timely t s
  end.
Definition timely_frame (s : list (Z * Z)) : Prop :=
  match s with [] => True | (_, t) :: s => timely t s end.

#[export] Instance timely_dec last_us s : Decision (timely last_us s).
Proof. revert last_us. induction s as [|[b t] s IH]; intros; cbn; apply _. Defined.
#[export] Instance timely_frame_dec s : Decision (timely_frame s).
Proof. destruct s as [|[b t] s]; cbn; apply _. Defined.

Lemma timely_kept d t : u32 (t - last_byte_us_ d) < frame_timeout_us -> timed_out d t = false.
Proof.
  intros. unfold timed_out. destruct (Z.leb_spec frame_timeout_us (u32 (t - last_byte_us_ d))); [lia|].
  by rewrite andb_false_r.
Qed.

Lemma advance_incomplete_fields decode d b now d' :
  advance decode d b now = Some (d', incomplete) ->
  last_byte_us_ d' = last_byte_us_ d /\
  marked_ d' = marked_ d && (negb (received_ d =? 0) || (header_prefix_ d && (b =? 0x68))).
Proof.
  unfold advance. destruct (received_ d =? 0); cbn [negb orb].
  { intros [= <-]. unfold seek_header. change (u8 header) with 0x68.
    destruct (_ && _); recs; by rewrite ?andb_true_r, ?andb_false_r. }
  cbv zeta. rewrite andb_true_r. destruct (received_ d =? 2); [by intros [= <-]|].
  destruct (received_ d =? 3).
  { unfold take_length. cbv zeta. destruct (_ || _); intros [= <-]; done. }
  set (d1 := set_field received_ (received_ d + 1) d).
  destruct (store_byte_fields d1 (received_ d) b) as (_ & _ & Hm & _).
  assert (last_byte_us_ (store_byte d1 (received_ d) b) = last_byte_us_ d) as Hl.
  { subst d1. unfold store_byte. cbv zeta. by repeat case_match. }
  destruct (_ <? _); [by intros [= <-]|].
  unfold finish_frame. cbv zeta. destruct (_ || _).
  { by destruct (restart_from_trailer _ _ _). }
  by destruct (negb _), (marked_ _).
Qed.

(** A frame, split at any byte but its last. *)
Lemma encode_frame_shape ty data :
  Z.of_nat (length data) <= max_data_size -> is_u8 ty -> is_bytes data ->
  exists lh ll a c, is_bytes [lh; ll; a; c] /\ lh * 256 + ll = Z.of_nat (length data) + 3 /\
    a * 256 + c = ccitt (lh :: ll :: ty :: data) /\
    encode_frame ty data = 0x86 :: 0x68 :: lh :: ll :: (ty :: data) ++ [a; c; 0x55; 0xAA].
Proof.
  intros Hlen Hty Hd. set (n := Z.of_nat (length data) + 3).
  assert (0 <= n < 2 ^ 16) as Hn by (unfold max_data_size, max_frame_size, frame_overhead in *; lia).
  set (k := ccitt (n / 256 :: n mod 256 :: ty :: data)).
  assert (is_u16 k) as Hk by (apply ccitt_update_range; ints).
  exists (n / 256), (n mod 256), (k / 256), (k mod 256).
  assert (is_bytes [n / 256; n mod 256; k / 256; k mod 256]) as Hb by bytes.
  assert (n / 256 * 256 + n mod 256 = n /\ k / 256 * 256 + k mod 256 = k) as [Hn' Hk'].
  { pose proof (Z.div_mod n 256). pose proof (Z.div_mod k 256). lia. }
  split; [done|]. split; [done|]. split; [done|]. by apply encode_frame_eq.
Qed.

Lemma encode_frame_bytes ty data : is_u8 ty -> is_bytes data -> is_bytes (encode_frame ty data).
Proof. intros. unfold encode_frame, frame_covered. bytes; auto with carvera. Qed.
Lemma length_encode_frame ty data :
  length (encode_frame ty data) = (length data + Z.to_nat frame_overhead)%nat.
Proof.
  unfold encode_frame, frame_covered. rewrite !length_app, !length_be_bytes.
  change (Z.to_nat frame_overhead) with 9%nat. cbn [length]. lia.
Qed.

(** Past the length, every byte but the frame's last is taken, whatever it is. *)
Lemma body_step decode d lh ll rest b now :
  consumed d (0x86 :: 0x68 :: lh :: ll :: rest) -> is_bytes (lh :: ll :: rest) -> is_u8 b ->
  packet_ok d -> Z.of_nat (length rest) + 1 < lh * 256 + ll + 2 ->
  exists d', advance decode d b now = Some (d', incomplete) /\ packet_ok d' /\
    consumed d' (0x86 :: 0x68 :: lh :: ll :: rest ++ [b]).
Proof.
  intros Hc Hbs Hb Hp Hlt. split_bytes.
  inversion Hc as [| | | |lh' ll' td Hr Hh Hib Htd Hs Hck Ht|lh' ll' td t Hr Hh Hib Htd Hs Hck Ht]; subst.
  - destruct (advance_body decode d lh ll rest b now) as (d' & ? & ? & _ & ?); eauto.
  - rewrite length_app in Hlt. split_bytes.
    destruct (advance_trailer decode d lh ll td t b now) as (d' & ? & ? & _ & ?); try done; [lia|].
    exists d'. by rewrite <- app_assoc.
Qed.

Lemma frame_step decode ty data d p b q now :
  encode_frame ty data = p ++ b :: q -> q <> [] -> Z.of_nat (length data) <= max_data_size ->
  is_u8 ty -> is_bytes data -> consumed d p -> packet_ok d ->
  exists d', advance decode d b now = Some (d', incomplete) /\ packet_ok d' /\ consumed d' (p ++ [b]).
Proof.
  intros Hf Hq Hlen Hty Hd Hc Hp.
  pose proof (encode_frame_bytes ty data Hty Hd) as Hfb. pose proof (length_encode_frame ty data) as Hfl.
  destruct (encode_frame_shape ty data) as (lh & ll & a & c & Hb4 & Hll & Hcrc & Hfs); [done..|].
  rewrite Hf in Hfb, Hfl. rewrite Hf in Hfs. clear Hf Hcrc.
  assert (received_ d = 0 -> exists d', advance decode d b now = Some (d', incomplete) /\ packet_ok d' /\
    consumed d' (if bool_decide (p = [0x86]) && (b =? 0x68) then [0x86; 0x68]
                   else if b =? 0x86 then [0x86] else [])) as Hidle.
  { intros H0. destruct (advance_idle decode d p b now Hc H0) as (d' & -> & Hp' & Hc').
    exists d'. split; [done|]. split; [unfold packet_ok; by rewrite Hp'|done]. }
  pose proof Hc as Hc0.
  destruct Hc as [H0|H0|H0|lh' H0|lh' ll' td|lh' ll' td t];
    cbn [app] in Hfs; injection Hfs; clear Hfs; intros; subst; try (by apply Hidle); split_bytes.
  - destruct (advance_header decode d lh now Hc0) as (d' & -> & Hp' & _ & _ & Hc').
    exists d'. split; [done|]. split; [unfold packet_ok; by rewrite Hp'|done].
  - destruct (advance_high decode d (length_high_ d) ll now Hc0) as (d' & r & -> & Hp' & Hr); [done..|].
    rewrite Hll in Hr. rewrite (proj2 (Z.leb_le _ _)), (proj2 (Z.leb_le _ _)) in Hr by lia.
    destruct Hr as (-> & Hc' & _). eauto.
  - apply body_step; try done; [bytes|]. clear - Hq Hfl Hll.
    destruct q; [done|]. change (Z.to_nat frame_overhead) with 9%nat in Hfl.
    rewrite length_app in Hfl. cbn [length] in Hfl. lia.
  - destruct (body_step decode d lh ll (td ++ t) b now) as (d' & ? & ? & ?); try done; [bytes| |eauto].
    clear - Hq Hfl Hll. destruct q; [done|]. change (Z.to_nat frame_overhead) with 9%nat in Hfl.
    rewrite length_app in Hfl. cbn [length] in Hfl. lia.
Qed.

Lemma frame_last decode ty data d p b now :
  encode_frame ty data = p ++ [b] -> Z.of_nat (length data) <= max_data_size ->
  is_u8 ty -> is_bytes data -> consumed d p -> packet_ok d ->
  exists d1, advance decode d b now = Some (reset d1, if marked_ d then marked else complete) /\
    packet_ok d1 /\ holds (packet_ d1) ty data.
Proof.
  intros Hf Hlen Hty Hd Hc Hp.
  pose proof (encode_frame_bytes ty data Hty Hd) as Hfb. pose proof (length_encode_frame ty data) as Hfl.
  destruct (encode_frame_shape ty data) as (lh & ll & a & c & Hb4 & Hll & Hcrc & Hfs); [done..|].
  rewrite Hf in Hfb, Hfl. rewrite Hf in Hfs.
  change (Z.to_nat frame_overhead) with 9%nat in Hfl. rewrite length_app in Hfl.
  destruct Hc as [| | | |lh' ll' td|lh' ll' td t Hr Hh Hib Htd Hs Hck Ht];
    cbn [length] in Hfl; try lia; cbn [app] in Hfs; injection Hfs; intros Hrest -> ->.
  { lia. }
  rewrite length_app in Hfl. rewrite <- app_assoc in Hrest.
  apply (app_inj_1 td (ty :: data)) in Hrest as [-> Ht4]; [|cbn [length]; lia].
  destruct t as [|a' [|c' [|e' [|]]]]; cbn [length app] in *; try lia. simplify_eq Ht4. intros -> -> -> ->.
  split_bytes. destruct (advance_last decode d lh ll (ty :: data) a c 0x55 0xAA now)
    as (d1 & Hp1 & _ & Hib1 & Hs1 & Ht1 & ->); try done; [cbn [length]; lia|bytes|].
  rewrite (proj2 (Z.eqb_eq _ _) Hcrc). exists d1. split; [by destruct (marked_ d)|]. split; [done|].
  destruct Hib1 as [Hl1 _ Hdl1 _], Hs1 as [Hty1 Hda1]. unfold holds. rewrite Hl1, Hdl1.
  repeat split; done || lia.
Qed.

(** The same, as runs of the decoder. *)
Lemma decode_byte_advance d b t r :
  timed_out d t = false ->
  advance (decode_byte_fuel 1) (note_time d t) b t = Some r -> decode_byte d b t = r.
Proof. intros _ Ha. unfold decode_byte. cbn [decode_byte_fuel] in *. by rewrite Ha. Qed.

Definition ready (d : FrameDecoder) : Prop := received_ d = 0 /\ exists bs, live d bs.

(** All bytes but the last of a frame, or of what passes for one. *)
Lemma feed_prefix ty data s d p q :
  encode_frame ty data = p ++ map fst s ++ q -> Z.of_nat (length data) <= max_data_size ->
  is_u8 ty -> is_bytes data -> q <> [] -> p <> [] -> consumed d p -> packet_ok d ->
  timely (last_byte_us_ d) s ->
  exists d', decode_all d s = (d', repeat incomplete (length s)) /\ packet_ok d' /\
    consumed d' (p ++ map fst s) /\ marked_ d' = marked_ d /\
    last_byte_us_ d' = List.last (map snd s) (last_byte_us_ d).
Proof.
  revert d p. induction s as [|[b t] s IH]; intros d p Hf Hlen Hty Hd Hq Hpne Hc Hp.
  { intros _. exists d. cbn [map]. rewrite app_nil_r. done. }
  intros [Ht Hts].
  apply timely_kept in Ht. pose proof (note_time_consumed _ _ _ Ht Hc) as Hc'.
  destruct (note_time_fields d t) as (Hpk & Hlast & Hm). rewrite Ht, andb_true_r in Hm.
  assert (packet_ok (note_time d t)) as Hp' by (unfold packet_ok; by rewrite Hpk).
  cbn [map fst app] in Hf. cbn [decode_all].
  destruct (frame_step (decode_byte_fuel 1) ty data (note_time d t) p b (map fst s ++ q) t)
    as (d1 & Ha & Hok & Hc1); try done.
  { by destruct s. }
  rewrite (decode_byte_advance _ _ _ _ Ht Ha).
  destruct (advance_incomplete_fields _ _ _ _ _ Ha) as [Hl1 Hm1].
  destruct (IH d1 (p ++ [b])) as (d' & Hrun & Hok' & Hc2 & Hm2 & Hl2); try done.
  { by rewrite <- app_assoc. }
  { by destruct p. }
  { by rewrite Hl1, Hlast. }
  rewrite Hrun. exists d'. split; [done|]. split; [done|]. rewrite <- app_assoc in Hc2.
  split; [done|]. split.
  - rewrite Hm2, Hm1, Hm.
    destruct (encode_frame_shape ty data) as (lh & ll & a & c & _ & _ & _ & Hfs); [done..|].
    rewrite Hfs in Hf. destruct Hc' as [|H0 H1|H0|? H0|? ? ? H0|? ? ? ? H0]; [done| |..];
      try (destruct (Z.eqb_spec (received_ (note_time d t)) 0); [lia|by rewrite andb_true_r]).
    injection Hf as <- _. by rewrite H1, orb_true_r, andb_true_r.
  - rewrite Hl2, Hl1, Hlast. cbn [map snd]. by rewrite last_cons_default.
Qed.

Lemma feed_last ty data b t d p :
  encode_frame ty data = p ++ [b] -> Z.of_nat (length data) <= max_data_size ->
  is_u8 ty -> is_bytes data -> consumed d p -> packet_ok d ->
  u32 (t - last_byte_us_ d) < frame_timeout_us ->
  exists d', decode_byte d b t = (d', if marked_ d then marked else complete) /\
    live d' [] /\ holds (packet_ d') ty data.
Proof.
  intros Hf Hlen Hty Hd Hc Hp Ht.
  apply timely_kept in Ht. pose proof (note_time_consumed _ _ _ Ht Hc) as Hc'.
  destruct (note_time_fields d t) as (Hpk & Hlast & Hm). rewrite Ht, andb_true_r in Hm.
  destruct (frame_last (decode_byte_fuel 1) ty data (note_time d t) p b t) as (d1 & Ha & Hok & Hh); try done.
  { unfold packet_ok. by rewrite Hpk. }
  rewrite (decode_byte_advance _ _ _ _ Ht Ha), Hm. eexists; split; [reflexivity|].
  split; [|done]. split; [done|]. split; [constructor|apply reset_consumed].
Qed.

Lemma timely_app last s s' : timely last (s ++ s') <-> timely last s /\ timely (List.last (map snd s) last) s'.
Proof.
  revert last. induction s as [|[b t] s IH]; intros last; cbn [app timely map snd].
  { cbn [List.last]. tauto. }
  rewrite IH, last_cons_default. tauto.
Qed.

Lemma feed_rest ty data s d p :
  encode_frame ty data = p ++ map fst s -> Z.of_nat (length data) <= max_data_size ->
  is_u8 ty -> is_bytes data -> s <> [] -> p <> [] -> consumed d p -> packet_ok d ->
  timely (last_byte_us_ d) s ->
  exists d', decode_all d s = (d', repeat incomplete (length s - 1) ++ [if marked_ d then marked else complete])
    /\ live d' [] /\ holds (packet_ d') ty data.
Proof.
  intros Hf Hlen Hty Hd Hs Hpne Hc Hp Ht.
  destruct (exists_last Hs) as (s' & [b t] & ->). rewrite map_app in Hf.
  apply timely_app in Ht as [Ht [Htb _]].
  destruct (feed_prefix ty data s' d p [b]) as (d1 & Hrun & Hok & Hc1 & Hm & Hl); try done.
  rewrite app_assoc in Hf.
  destruct (feed_last ty data b t d1 (p ++ map fst s')) as (d' & Hb & Hlv & Hh); try done.
  { by rewrite Hl. }
  exists d'. rewrite decode_all_snoc, Hrun, Hb, Hm, length_app, Nat.add_sub. done.
Qed.

(** *** From a decoder with no frame in progress *)
Lemma first_byte d bs t :
  live d bs -> received_ d = 0 -> exists d', decode_byte d 0x86 t = (d', incomplete) /\
    packet_ok d' /\ consumed d' [0x86] /\ marked_ d' = false /\ last_byte_us_ d' = t.
Proof.
  intros Hl H0. apply (note_time_live _ _ t) in Hl as (Hp & _ & Hc).
  destruct (note_time_fields d t) as (_ & Hlast & _).
  assert (received_ (note_time d t) = 0) as H0'.
  { unfold note_time. by destruct (_ && _). }
  destruct (advance_idle (decode_byte_fuel 1) _ _ 0x86 t Hc H0') as (d' & Ha & Hp' & Hc').
  destruct (advance_incomplete_fields _ _ _ _ _ Ha) as [Hl' Hm'].
  rewrite H0' in Hm'. cbn [negb orb Z.eqb] in Hm'. rewrite !andb_false_r in Hm'.
  change (0x86 =? 0x68) with false in Hc'. rewrite andb_false_r in Hc'. change (0x86 =? 0x86) with true in Hc'.
  exists d'. unfold decode_byte. cbn [decode_byte_fuel] in *. rewrite Ha, Hl'.
  split; [done|]. split; [unfold packet_ok; by rewrite Hp'|]. done.
Qed.

Lemma decode_frame_ready d s ty data :
  ready d -> map fst s = encode_frame ty data -> timely_frame s ->
  Z.of_nat (length data) <= max_data_size -> is_u8 ty -> is_bytes data ->
  exists d', decode_all d s = (d', repeat incomplete (length s - 1) ++ [complete]) /\
    live d' [] /\ holds (packet_ d') ty data.
Proof.
  intros [H0 [bs Hl]] Hs Ht Hlen Hty Hd.
  destruct (encode_frame_shape ty data) as (lh & ll & a & c & _ & _ & _ & Hfs); [done..|].
  destruct s as [|[b t] s]; [by rewrite Hfs in Hs|].
  rewrite Hfs in Hs. cbn [map fst] in Hs. injection Hs as -> Hs'.
  destruct (first_byte d bs t Hl H0) as (d1 & Hb & Hp1 & Hc1 & Hm1 & Hl1).
  destruct (feed_rest ty data s d1 [0x86]) as (d' & Hrun & Hlv & Hh); try done.
  { rewrite Hfs, Hs'. done. } { by destruct s. } { by rewrite Hl1. }
  exists d'. cbn [decode_all]. rewrite Hb, Hrun, Hm1. split; [|done]. f_equal.
  destruct s; [done|]. cbn [length]. by rewrite !Nat.sub_succ, !Nat.sub_0_r.
Qed.

(** Bytes with no frame header among them. *)
Fixpoint no_header (bs : list Z) : Prop :=
  match bs with
  | x :: ((y :: _) as l) => ~ (x = 0x86 /\ y = 0x68) /\ no_header l
  | _ => True
  end.
Lemma no_header_tail k bs : no_header (k ++ bs) -> no_header bs.
Proof.
  induction k as [|x k IH]; [done|]. intros H. apply IH.
  cbn [app no_header] in H. by destruct (k ++ bs); [|destruct H].
Qed.

Lemma decode_junk d bs s :
  live d bs -> received_ d = 0 -> is_stream s -> no_header (bs ++ map fst s) ->
  exists d', decode_all d s = (d', repeat incomplete (length s)) /\ ready d'.
Proof.
  revert d bs. induction s as [|[b t] s IH]; intros d bs Hl H0 Hs Hn.
  { exists d. split; [done|]. split; eauto. }
  apply Forall_cons_iff in Hs as [Hb Hs]. cbn [fst] in Hb.
  pose proof (note_time_live _ _ t Hl) as (Hp & Hk & Hc).
  assert (received_ (note_time d t) = 0) as H0'.
  { unfold note_time. by destruct (_ && _). }
  destruct (kept_suffix d bs t) as [k Hbs]. rewrite Hbs, <- app_assoc in Hn. apply no_header_tail in Hn.
  destruct (advance_idle (decode_byte_fuel 1) _ _ b t Hc H0') as (d' & Ha & Hp' & Hc').
  assert (decode_byte d b t = (d', incomplete)) as Hd.
  { unfold decode_byte. cbn [decode_byte_fuel] in *. by rewrite Ha. }
  assert (bool_decide (kept d bs t = [0x86]) && (b =? 0x68) = false) as Hno.
  { case_bool_decide as Hk'; [|done]. cbn [andb]. apply Z.eqb_neq. intros ->.
    rewrite Hk' in Hn. cbn in Hn. tauto. }
  rewrite Hno in Hc'. cbn [map fst] in Hn.
  destruct (IH d' (if b =? 0x86 then [0x86] else [])) as (d2 & Hrun & Hr).
  - split; [unfold packet_ok; by rewrite Hp'|]. split; [|done]. destruct (b =? 0x86); bytes.
  - destruct (b =? 0x86); by inversion Hc'.
  - done.
  - apply no_header_tail in Hn. destruct (Z.eqb_spec b 0x86) as [->|]; [done|].
    by apply (no_header_tail [b]).
  - exists d2. cbn [decode_all length repeat]. by rewrite Hd, Hrun.
Qed.

(** The frames a decoder hands on: what its caller reads from the packet each
    time [decode_byte] says one is complete. *)
Definition packet_contents (p : Packet) : Z * list Z :=
  (pk_type p, take (Z.to_nat (pk_data_length p)) (pk_data p)).
Fixpoint deliver (d : FrameDecoder) (s : list (Z * Z)) : list (Z * list Z) :=
  match s with
  | [] => []
  | (b, t) :: s =>
      let '(d, r) := decode_byte d b t in
      match r with complete => packet_contents (packet_ d) :: deliver d s | _ => deliver d s end
  end.

Lemma holds_contents p ty data : holds p ty data -> packet_contents p = (ty, data).
Proof.
  intros (<- & _ & Hl & Hd). unfold packet_contents. rewrite Hl, Nat2Z.id. by rewrite Hd.
Qed.

Lemma deliver_none d s d' s' :
  decode_all d s = (d', repeat incomplete (length s)) -> deliver d (s ++ s') = deliver d' s'.
Proof.
  revert d. induction s as [|[b t] s IH]; intros d; cbn [decode_all length repeat app deliver].
  { by intros [= ->]. }
  destruct (decode_byte d b t) as [d1 r]. destruct (decode_all d1 s) eqn:Hd. intros [= -> -> ->]. by apply IH.
Qed.
Lemma deliver_one d s d' s' :
  s <> [] -> decode_all d s = (d', repeat incomplete (length s - 1) ++ [complete]) ->
  deliver d (s ++ s') = packet_contents (packet_ d') :: deliver d' s'.
Proof.
  intros Hne. destruct (exists_last Hne) as (s0 & [b t] & ->).
  rewrite decode_all_snoc, length_app, Nat.add_sub.
  destruct (decode_all d s0) as [d1 rs] eqn:H1. destruct (decode_byte d1 b t) as [d2 r] eqn:H2.
  intros [= -> Hrs]. apply app_inj_tail in Hrs as [-> ->].
  rewrite <- app_assoc, (deliver_none _ _ _ _ H1). cbn [app deliver]. by rewrite H2.
Qed.

(** A wire: frames with noise between them that holds no frame header, each
    frame's bytes less than the timeout apart. *)
Inductive wire : list (Z * Z) -> list (Z * list Z) -> Prop :=
| wire_end junk : is_stream junk -> no_header (map fst junk) -> wire junk []
| wire_frame junk f s ty data frames :
    is_stream junk -> no_header (map fst junk) -> map fst f = encode_frame ty data ->
    timely_frame f -> Z.of_nat (length data) <= max_data_size -> is_u8 ty -> is_bytes data ->
    wire s frames -> wire (junk ++ f ++ s) ((ty, data) :: frames).

(** C1: Every frame on a noisy wire is delivered, once each and in order, and
    nothing else is, where the noise before, between and after the frames holds no
    frame header, and the bytes of a frame come less than the timeout apart. *)
Theorem wire_delivered p s frames :
  Z.of_nat (length (pk_data p)) = max_data_size -> wire s frames ->
  deliver (new_decoder p) s = frames.
Proof.
  intros Hp Hw. assert (live (new_decoder p) []) as Hl by by apply new_decoder_live.
  revert Hl. generalize (new_decoder p). clear p Hp.
  assert (forall d, live d [] -> received_ d = 0) as H0 by (intros d (_ & _ & Hc); by inversion Hc).
  induction Hw as [junk Hj Hn|junk f s ty data frames Hj Hn Hf Ht Hlen Hty Hd Hw IH]; intros d Hl;
    destruct (decode_junk d [] junk) as (d1 & Hrun & Hr); try done; auto.
  - rewrite <- (app_nil_r junk). by rewrite (deliver_none _ _ _ _ Hrun).
  - rewrite (deliver_none _ _ _ _ Hrun).
    destruct (decode_frame_ready d1 f ty data) as (d2 & Hrun2 & Hl2 & Hh); try done.
    rewrite (deliver_one d1 f d2) by (done || (intros ->; done)).
    rewrite (holds_contents _ _ _ Hh). f_equal. auto.
Qed.
(** A wire with two frames, of which the first has a gap inside it. *)
Lemma wire_delivered_witness :
  deliver (new_decoder blank_packet)
    (map (fun b => (b, 7)) [1; 0x86; 0x86] ++ map (fun b => (b, 9)) (encode_frame 0xA1 [0x86; 0x68; 3]) ++
     [] ++ map (fun b => (b, 2000009)) (encode_frame 0x71 []) ++ [(0x86, 5)])
  = [(0xA1, [0x86; 0x68; 3]); (0x71, [])].
Proof.
  apply wire_delivered; [done|].
  apply (wire_frame (map (fun b => (b, 7)) [1; 0x86; 0x86])).
  8: apply (wire_frame []).
  15: apply wire_end.
  all: try done.
  all: vm_compute; repeat (constructor || intuition congruence).
Defined.

(** [occurs bs frames]: the bytes contain the encodings of exactly these
    frames, in this order and without overlap (other bytes may lie between). *)
Inductive occurs : list Z -> list (Z * list Z) -> Prop :=
| occ_nil bs : occurs bs []
| occ_frame pre ty data rest frames :
    occurs rest frames -> occurs (pre ++ encode_frame ty data ++ rest) ((ty, data) :: frames).

Lemma occurs_prepend k bs frames : occurs bs frames -> occurs (k ++ bs) frames.
Proof. intros []; [constructor|]. rewrite app_assoc. by constructor. Qed.

Lemma deliver_occurs d bs s :
  live d bs -> is_stream s -> occurs (bs ++ map fst s) (deliver d s).
Proof.
  revert d bs. induction s as [|[b t] s IH]; intros d bs Hl Hs; cbn [deliver]; [constructor|].
  apply Forall_cons_iff in Hs as [Hb Hs]. cbn [fst map] in *.
  destruct (decode_byte_outcome d bs b t Hl Hb) as (d' & r & _ & -> & Ho).
  pose proof (outcome_live _ _ _ _ (kept_bytes d bs t (proj1 (proj2 Hl))) Hb Ho) as (bs' & Hl' & Hsuf).
  destruct (kept_suffix d bs t) as [k Hk]. rewrite Hk at 1. rewrite <- app_assoc. apply occurs_prepend.
  assert (forall fs, occurs (bs' ++ map fst s) fs -> occurs (kept d bs t ++ b :: map fst s) fs) as Hgo.
  { intros fs Hf. destruct Hsuf as [k' Hk']. change (b :: map fst s) with ([b] ++ map fst s).
    rewrite app_assoc, Hk', <- app_assoc. by apply occurs_prepend. }
  destruct Ho as (Hp & _ & Hcomp). destruct r; try (apply Hgo, IH; done).
  destruct (Hcomp (or_introl eq_refl)) as (Hc0 & ty & data & He & Hh).
  rewrite (holds_contents _ _ _ Hh). change (b :: map fst s) with ([b] ++ map fst s).
  rewrite app_assoc, He. apply (occ_frame []). apply (IH d' []); [|done]. split; [done|]. split; [constructor|done].
Qed.

(** C2: Whatever bytes arrive and whenever they arrive, every packet the decoder
    hands on stood on the wire as a whole, well-formed frame (its header,
    length, CRC and footer included), and the packets come in wire order from
    frames that do not overlap. *)
Theorem deliver_sound p s :
  Z.of_nat (length (pk_data p)) = max_data_size -> is_stream s ->
  occurs (map fst s) (deliver (new_decoder p) s).
Proof. intros Hp Hs. by apply (deliver_occurs _ []); [apply new_decoder_live|]. Qed.
Lemma deliver_sound_witness :
  occurs [0x86; 0x68; 0x00] (deliver (new_decoder blank_packet) [(0x86, 1); (0x68, 2); (0x00, 3)]).
Proof. apply (deliver_sound blank_packet [(0x86, 1); (0x68, 2); (0x00, 3)]); [done|concrete]. Defined.

(** The states the firmware's own calls can bring a decoder to. *)
Inductive decoder_call : FrameDecoder -> FrameDecoder -> Prop :=
| call_decode d b now r d' : is_u8 b -> decode_byte d b now = (d', r) -> decoder_call d d'
| call_mark d : decoder_call d (mark_frame d)
| call_reset d : decoder_call d (reset d).

Lemma reachable_live p d :
  Z.of_nat (length (pk_data p)) = max_data_size -> star decoder_call (new_decoder p) d ->
  exists bs, live d bs.
Proof.
  intros Hp Hs. refine (star_invariant decoder_call (fun d => exists bs, live d bs) _ _ _ Hs _).
  - intros a b [bs Hl] Hstep. destruct Hstep as [d0 b now r d' Hb Hd|d0|d0].
    + destruct (decode_byte_outcome d0 bs b now Hl Hb) as (d1 & r1 & _ & Hd1 & Ho).
      rewrite Hd in Hd1. simplify_eq.
      destruct (outcome_live _ _ _ _ (kept_bytes d0 bs now (proj1 (proj2 Hl))) Hb Ho) as (bs' & ? & _). eauto.
    + eauto using mark_frame_live.
    + eauto using reset_live.
  - exists []. by apply new_decoder_live.
Qed.

(** C37: Memory safety. In every state the decoder can reach, a byte that
    [decode_byte] stores in the packet's data lands inside the array, the data
    length never exceeds it, and the bytes a caller may still read for this
    frame are at least one and never carry it past [max_frame_size]. *)
Theorem decoder_in_bounds p d :
  Z.of_nat (length (pk_data p)) = max_data_size -> star decoder_call (new_decoder p) d ->
  Z.of_nat (length (pk_data (packet_ d))) = max_data_size /\
  (4 < received_ d < pk_length (packet_ d) + 2 ->
   0 <= received_ d - 5 < Z.of_nat (length (pk_data (packet_ d)))) /\
  (4 <= received_ d -> pk_data_length (packet_ d) <= max_data_size) /\
  1 <= bytes_wanted d /\ received_ d + bytes_wanted d <= max_frame_size.
Proof.
  intros Hp Hs. destruct (reachable_live p d Hp Hs) as (bs & Hok & Hb & Hc). unfold packet_ok in Hok.
  rewrite Hok. split; [done|]. unfold bytes_wanted, max_data_size, max_frame_size, frame_overhead in *.
  destruct Hc as [H0 H1|H0 H1|H0|? H0|lh ll td H0 ? [Hl Hr Hd He]|lh ll td t H0 ? [Hl Hr Hd He] ? ? ? Ht];
    rewrite H0.
  1-4: rewrite ?H1; cbn; lia.
  - rewrite (proj2 (Z.eqb_neq _ 0)), (proj2 (Z.ltb_ge _ 4)), He by lia.
    unfold max_data_size, max_frame_size, frame_overhead in *. lia.
  - assert (length t <= 3)%nat by (destruct t as [|? [|? [|? [|]]]]; cbn in *; (lia || done)).
    rewrite (proj2 (Z.eqb_neq _ 0)), (proj2 (Z.ltb_ge _ 4)), He by lia.
    unfold max_data_size, max_frame_size, frame_overhead in *. lia.
Qed.
Lemma decoder_in_bounds_witness :
  let d := (decode_byte (new_decoder blank_packet) 0x86 4).1 in
  1 <= bytes_wanted d /\ received_ d + bytes_wanted d <= max_frame_size.
Proof.
  intros d. eapply (decoder_in_bounds blank_packet d); [done|].
  apply star_one. apply (call_decode _ 0x86 4 incomplete); done.
Defined.

Lemma restart_from_trailer_mono dec dec' d now d' :
  (forall d b t r, dec d b t = Some r -> dec' d b t = Some r) ->
  restart_from_trailer dec d now = Some d' -> restart_from_trailer dec' d now = Some d'.
Proof.
  intros Hm. unfold restart_from_trailer. cbv zeta.
  assert (forall d b t d2, fst <$> dec d b t = Some d2 -> fst <$> dec' d b t = Some d2) as Hf.
  { intros d0 b t d2 (r & Hr & ->)%fmap_Some. by rewrite (Hm _ _ _ _ Hr). }
  destruct (_ =? header); [done|]. destruct (_ =? header); [apply Hf|].
  destruct (_ =? header); [|done]. intros ([d1 r1] & H1 & H2)%bind_Some.
  rewrite (Hm _ _ _ _ H1). cbn. by apply Hf.
Qed.
Lemma advance_mono dec dec' d b now r :
  (forall d b t r, dec d b t = Some r -> dec' d b t = Some r) ->
  advance dec d b now = Some r -> advance dec' d b now = Some r.
Proof.
  intros Hm. unfold advance, finish_frame. cbv zeta.
  destruct (_ =? 0); [done|]. destruct (_ =? 2); [done|]. destruct (_ =? 3); [done|].
  destruct (_ <? _); [done|]. destruct (_ || _); [|done].
  intros (d1 & H1 & H2)%bind_Some. by rewrite (restart_from_trailer_mono _ _ _ _ _ Hm H1).
Qed.
Lemma decode_fuel_mono f d b now r :
  decode_byte_fuel f d b now = Some r -> decode_byte_fuel (S f) d b now = Some r.
Proof.
  revert d b now r. induction f as [|f IH]; [done|]. intros d b now r. cbn [decode_byte_fuel].
  apply advance_mono, IH.
Qed.

(** [decode_byte] always returns: the call back from [restart_from_trailer]
    nests once at most, whatever the state and the byte. *)
Theorem decode_byte_total p d b now fuel :
  Z.of_nat (length (pk_data p)) = max_data_size -> star decoder_call (new_decoder p) d ->
  is_u8 b -> (2 <= fuel)%nat ->
  decode_byte_fuel fuel d b now = Some (decode_byte d b now).
Proof.
  intros Hp Hs Hb Hf. destruct (reachable_live p d Hp Hs) as (bs & Hl).
  destruct (decode_byte_outcome d bs b now Hl Hb) as (d' & r & H2 & -> & _).
  induction Hf; [done|]. by apply decode_fuel_mono.
Qed.
Lemma decode_byte_total_witness :
  decode_byte_fuel 7 (new_decoder blank_packet) 0x86 3 = Some (decode_byte (new_decoder blank_packet) 0x86 3).
Proof. apply (decode_byte_total blank_packet); [done|apply star_refl|done|lia]. Defined.

(** ** Silence, marks, damage and loss *)
(** A packet's decoder with nothing in progress, the time of its last byte apart. *)
Lemma expired_is_reset d now : timed_out d now = true -> note_time d now = note_time (reset d) now.
Proof. unfold timed_out, note_time. by intros ->. Qed.

(** A byte that comes [frame_timeout_us] or more after the last one starts
    afresh: whatever was in progress is dropped, mark included. The gap is
    measured modulo 2^32, so it is right across the clock's wrap. *)
Theorem timeout_drops fuel d b now gap :
  in_progress d = true -> have_last_byte_ d = true -> is_u32 (last_byte_us_ d) ->
  frame_timeout_us <= gap < 2 ^ 32 -> now = u32 (last_byte_us_ d + gap) ->
  decode_byte_fuel fuel d b now = decode_byte_fuel fuel (reset d) b now.
Proof.
  intros Hp Hh Hl Hg ->. destruct fuel as [|fuel]; [done|]. cbn [decode_byte_fuel].
  rewrite expired_is_reset; [done|].
  unfold timed_out. rewrite Hp, Hh. apply Z.leb_le.
  replace (u32 (u32 (last_byte_us_ d + gap) - last_byte_us_ d)) with gap; [lia|].
  unfold frame_timeout_us in Hg. clear - Hl Hg. ints.
Qed.
Lemma timeout_drops_witness :
  let d := (decode_all (new_decoder blank_packet) [(0x86, 4294967290); (0x68, 4294967295)]).1 in
  decode_byte_fuel 2 d 0x03 (u32 (4294967295 + 1000000)) =
  decode_byte_fuel 2 (reset d) 0x03 (u32 (4294967295 + 1000000)).
Proof. intros d. apply (timeout_drops 2 d 0x03 _ 1000000); try (vm_compute; done). Defined.

(** [mark_frame], called anywhere inside a frame, changes only that frame's
    result: the frame is still decoded to its last byte, its result is [marked]
    instead of [complete], and the decoder is then ready for the next frame. *)
Theorem mark_frame_marks d s1 s2 ty data d1 :
  ready d -> map fst (s1 ++ s2) = encode_frame ty data -> timely_frame (s1 ++ s2) ->
  Z.of_nat (length data) <= max_data_size -> is_u8 ty -> is_bytes data ->
  s1 <> [] -> s2 <> [] -> d1 = (decode_all d s1).1 ->
  exists d2, decode_all (mark_frame d1) s2 = (d2, repeat incomplete (length s2 - 1) ++ [marked]) /\
    ready d2 /\ holds (packet_ d2) ty data.
Proof.
  intros [H0 [bs Hl]] Hs Ht Hlen Hty Hd Hs1 Hs2 ->.
  destruct (encode_frame_shape ty data) as (lh & ll & a & c & _ & _ & _ & Hfs); [done..|].
  destruct s1 as [|[b t] s1]; [done|]. rewrite map_app in Hs. pose proof Hs as Hs0. rewrite Hfs in Hs0.
  cbn [map fst app] in Hs0. injection Hs0 as -> _. cbn [app timely_frame] in Ht. apply timely_app in Ht as [Ht1 Ht2].
  destruct (first_byte d bs t Hl H0) as (d1 & Hb & Hp1 & Hc1 & Hm1 & Hl1).
  destruct (feed_prefix ty data s1 d1 [0x86] (map fst s2)) as (d2 & Hrun & Hp2 & Hc2 & Hm2 & Hl2); try done.
  { by destruct s2. } { by rewrite Hl1. }
  cbn [decode_all]. rewrite Hb, Hrun. cbn [fst].
  assert (in_progress d2 = true) as Hip.
  { unfold in_progress. inversion Hc2 as [| ? Hpf|Hr|? Hr|? ? ? Hr|? ? ? ? Hr]; rewrite ?Hpf, ?orb_true_r; try done.
    all: apply orb_true_iff; left; apply negb_true_iff, Z.eqb_neq; lia. }
  assert (consumed (mark_frame d2) (0x86 :: map fst s1)) as Hc2'.
  { assert (is_bytes (0x86 :: map fst s1)) as Hby.
    { assert (is_bytes (encode_frame ty data)) as He by by apply encode_frame_bytes.
      rewrite <- Hs in He. by apply Forall_app in He as [? _]. }
    by apply (mark_frame_live d2 (0x86 :: map fst s1)). }
  destruct (feed_rest ty data s2 (mark_frame d2) (0x86 :: map fst s1)) as (d' & Hrun' & Hlv & Hh); try done.
  { change (last_byte_us_ (mark_frame d2)) with (last_byte_us_ d2). by rewrite Hl2, Hl1. }
  exists d'. rewrite Hrun'. unfold mark_frame. recs. rewrite Hip. split; [done|].
  split; [|done]. split; [|by eauto]. destruct Hlv as (_ & _ & Hc'). by inversion Hc'.
Qed.
Lemma mark_frame_marks_witness :
  let d := new_decoder blank_packet in
  let s1 := [(0x86, 5); (0x68, 5); (0x00, 5)] in
  let s2 := map (fun b => (b, 9)) [0x03; 0x71; 0x3b; 0xe5; 0x55; 0xaa] in
  exists d2, decode_all (mark_frame (decode_all d s1).1) s2 = (d2, repeat incomplete (length s2 - 1) ++ [marked]) /\
    ready d2 /\ holds (packet_ d2) 0x71 [].
Proof.
  intros d s1 s2. apply (mark_frame_marks d s1 s2 0x71 []); try concrete; try done.
  split; [done|]. exists []. by apply new_decoder_live.
Defined.

(** *** A frame whose last bytes are damaged *)
(** From inside the body, any bytes at all, up to but not including the byte
    that ends the frame. *)
Lemma feed_body s d lh ll rest :
  consumed d (0x86 :: 0x68 :: lh :: ll :: rest) -> is_bytes (lh :: ll :: rest) -> is_stream s ->
  packet_ok d -> timely (last_byte_us_ d) s ->
  Z.of_nat (length rest + length s) < lh * 256 + ll + 2 ->
  exists d', decode_all d s = (d', repeat incomplete (length s)) /\ packet_ok d' /\
    consumed d' (0x86 :: 0x68 :: lh :: ll :: rest ++ map fst s) /\
    last_byte_us_ d' = List.last (map snd s) (last_byte_us_ d).
Proof.
  revert d rest. induction s as [|[b t] s IH]; intros d rest Hc Hbs Hs Hp.
  { intros _ _. exists d. cbn [map]. by rewrite app_nil_r. }
  intros [Ht Hts] Hlt. apply Forall_cons_iff in Hs as [Hb Hs]. cbn [fst] in Hb.
  apply timely_kept in Ht. pose proof (note_time_consumed _ _ _ Ht Hc) as Hc'.
  destruct (note_time_fields d t) as (Hpk & Hlast & Hm).
  cbn [length] in Hlt.
  destruct (body_step (decode_byte_fuel 1) (note_time d t) lh ll rest b t) as (d1 & Ha & Hok & Hc1); try done.
  { unfold packet_ok. by rewrite Hpk. } { lia. }
  destruct (advance_incomplete_fields _ _ _ _ _ Ha) as [Hl1 _].
  destruct (IH d1 (rest ++ [b])) as (d' & Hrun & Hok' & Hc2 & Hl2); try done.
  { split_bytes. bytes. } { by rewrite Hl1, Hlast. } { rewrite length_app. cbn. lia. }
  exists d'. cbn [decode_all map fst snd length repeat]. rewrite (decode_byte_advance _ _ _ _ Ht Ha), Hrun.
  rewrite <- app_assoc in Hc2. rewrite last_cons_default, Hl2, Hl1, Hlast. done.
Qed.

(** The byte that ends the frame, when it does not end in the footer. *)
Lemma bad_footer d lh ll td a c e b t :
  consumed d (0x86 :: 0x68 :: lh :: ll :: td ++ [a; c; e]) -> is_bytes (lh :: ll :: td ++ [a; c; e]) ->
  is_u8 b -> packet_ok d -> u32 (t - last_byte_us_ d) < frame_timeout_us ->
  Z.of_nat (length td) = lh * 256 + ll - 2 -> (e, b) <> (0x55, 0xAA) ->
  exists d', decode_byte d b t = (d', invalid_footer) /\ packet_ok d' /\ consumed d' (rescued a c e b) /\
    marked_ d' = false /\ last_byte_us_ d' = t.
Proof.
  intros Hc Hbs Hb Hp Ht Hl Hne.
  apply timely_kept in Ht. pose proof (note_time_consumed _ _ _ Ht Hc) as Hc'.
  destruct (note_time_fields d t) as (Hpk & _ & _).
  inversion Hc' as [| | | |lh' ll' td' ? ? ? Hlt ? ? ? He|lh' ll' td' t' Hr Hh Hib Htd Hs Hck Htf]; subst.
  { rewrite length_app in Hlt. cbn in Hlt. lia. }
  match goal with H : td' ++ t' = _ |- _ => rename H into He end.
  apply app_inj_1 in He as [-> ->]; [|lia].
  destruct (advance_last (decode_byte_fuel 1) (note_time d t) lh ll td a c e b t)
    as (d1 & Hp1 & _ & Hib1 & Hs1 & Ht1 & Ha); try done;
    [cbn [length] in Hr; lia|split_bytes; bytes|unfold packet_ok; by rewrite Hpk|].
  assert ((e =? 0x55) && (b =? 0xAA) = false) as Hf.
  { apply andb_false_iff. rewrite !Z.eqb_neq. destruct (decide (e = 0x55)); [right|by left]. congruence. }
  rewrite Hf in Ha. destruct (restart_from_trailer_total 0 d1 a c e b t) as (d2 & Hrt & Hp2 & Hc2 & Hm2);
    [split_bytes; bytes|done|done|].
  rewrite Hrt in Ha. exists d2. split; [|done]. by apply (decode_byte_advance _ _ _ _ Ht).
Qed.

Lemma received_consumed d bs : consumed d bs -> (2 <= length bs)%nat -> received_ d = Z.of_nat (length bs).
Proof. destruct 1; cbn [length]; rewrite ?length_app; lia. Qed.

(** The length field, from a decoder with nothing in progress. *)
Lemma feed_length d s lh ll :
  ready d -> map fst s = [0x86; 0x68; lh; ll] -> timely_frame s -> is_bytes [lh; ll] ->
  3 <= lh * 256 + ll <= max_data_size + 3 ->
  exists d', decode_all d s = (d', repeat incomplete 4) /\ packet_ok d' /\
    consumed d' [0x86; 0x68; lh; ll] /\ last_byte_us_ d' = List.last (map snd s) 0.
Proof.
  intros [H0 [bs Hl]] Hs Ht Hb Hlen. set (data := repeat 0 (Z.to_nat (lh * 256 + ll - 3))).
  assert (Z.of_nat (length data) = lh * 256 + ll - 3) as Hd by (subst data; rewrite repeat_length; lia).
  assert (is_bytes data) as Hdb by (subst data; apply List.Forall_forall; intros x Hx%repeat_spec; subst; concrete).
  destruct (encode_frame_shape 0 data) as (lh' & ll' & a & c & Hb4 & Hll & _ & Hfs); [lia|concrete|done|].
  assert (lh' = lh /\ ll' = ll) as [-> ->] by (split_bytes; split; ints).
  destruct s as [|[b1 t1] s]; [done|]. cbn [map fst] in Hs. injection Hs as -> Hs. cbn [timely_frame] in Ht.
  destruct (first_byte d bs t1 Hl H0) as (d1 & Hb1 & Hp1 & Hc1 & Hm1 & Hl1).
  destruct (feed_prefix 0 data s d1 [0x86] ((0 :: data) ++ [a; c; 0x55; 0xAA]))
    as (d2 & Hrun & Hp2 & Hc2 & _ & Hl2); try done; [by rewrite Hfs, Hs|lia|by rewrite Hl1|].
  exists d2. cbn [decode_all map snd]. rewrite Hb1, Hrun, Hl2, Hl1, last_cons_default. rewrite Hs in Hc2.
  assert (length s = 3%nat) as -> by (by rewrite <- (length_map fst), Hs). done.
Qed.

(** A frame whose last four bytes are not its own: what [rescued] finds there
    is the start of the next frame, and that frame is decoded. *)
Lemma misframed d s lh ll td a c e b ty data k :
  ready d -> timely_frame s ->
  map fst s = [0x86; 0x68; lh; ll] ++ (td ++ [a; c; e]) ++ [b] ++ drop k (encode_frame ty data) ->
  is_bytes ([lh; ll] ++ td ++ [a; c; e; b]) -> 3 <= lh * 256 + ll <= max_data_size + 3 ->
  Z.of_nat (length td) = lh * 256 + ll - 2 -> (e, b) <> (0x55, 0xAA) ->
  rescued a c e b = take k (encode_frame ty data) -> (1 <= k <= 4)%nat ->
  Z.of_nat (length data) <= max_data_size -> is_u8 ty -> is_bytes data ->
  exists d', decode_all d s = (d', repeat incomplete (length td + 7) ++ [invalid_footer] ++
      repeat incomplete (length data + 8 - k) ++ [complete]) /\
    live d' [] /\ holds (packet_ d') ty data.
Proof.
  intros Hr Ht Hs Hb Hlen Htd Hne Hres Hk Hdl Hty Hd.
  apply map_eq_app in Hs as (s1 & s0 & -> & Hs1 & Hs). apply map_eq_app in Hs as (s2 & s3 & -> & Hs2 & Hs).
  destruct s3 as [|[b' t] s3]; [done|]. cbn [map fst app] in Hs. injection Hs as -> Hs3.
  apply Forall_app in Hb as [Hb2 Hb]. apply Forall_app in Hb as [Hbt Hb4].
  destruct s1 as [|[b1 t1] s1]; [done|]. pose proof Ht as Ht0. cbn [app timely_frame] in Ht.
  apply timely_app in Ht as [Ht1 Ht]. apply timely_app in Ht as [Ht2 Ht]. destruct Ht as [Ht3 Ht4].
  destruct (feed_length d ((b1, t1) :: s1) lh ll) as (d1 & Hrun1 & Hp1 & Hc1 & Hl1); try done.
  cbn [map snd] in Hl1. rewrite last_cons_default in Hl1.
  assert (length s2 = (length td + 3)%nat) as Hlen2
    by (rewrite <- (length_map fst), Hs2, length_app; done).
  destruct (feed_body s2 d1 lh ll []) as (d2 & Hrun2 & Hp2 & Hc2 & Hl2); try done.
  { rewrite <- (Forall_map fst is_u8), Hs2. split_bytes. bytes. }
  { by rewrite Hl1. } { rewrite Hlen2. cbn. lia. }
  cbn [app] in Hc2. rewrite Hs2 in Hc2.
  destruct (bad_footer d2 lh ll td a c e b t) as (d3 & Hrun3 & Hp3 & Hc3 & Hm3 & Hl3); try done.
  { split_bytes. bytes. } { by split_bytes. } { by rewrite Hl2, Hl1. }
  rewrite Hres in Hc3. pose proof (length_encode_frame ty data) as Hfl.
  change (Z.to_nat frame_overhead) with 9%nat in Hfl.
  assert (length s3 = (length data + 9 - k)%nat) as Hlen3.
  { rewrite <- (length_map fst), Hs3, length_drop. lia. }
  destruct (feed_rest ty data s3 d3 (take k (encode_frame ty data)))
    as (d4 & Hrun4 & Hl4 & Hh4); try done.
  { by rewrite Hs3, take_drop. } { intros ->. cbn in Hlen3. lia. }
  { intros Hn%(f_equal length). rewrite length_take in Hn. cbn in Hn. lia. } { by rewrite Hl3. }
  exists d4. split; [|done].
  rewrite decode_all_app, Hrun1, decode_all_app, Hrun2. cbn [decode_all]. rewrite Hrun3, Hrun4, Hm3. f_equal.
  rewrite Hlen2, Hlen3. replace (length td + 7)%nat with (4 + (length td + 3))%nat by lia.
  rewrite (repeat_app incomplete 4), <- app_assoc. do 3 f_equal. f_equal. f_equal. lia.
Qed.

(** A frame with some of its bytes lost, from the type byte on. *)
Lemma last_of_frame ty data F1 l F2 :
  encode_frame ty data = F1 ++ [l] ++ F2 -> exists z Y, F1 ++ F2 = Y ++ [z] /\ (z = 0x55 \/ z = 0xAA).
Proof.
  unfold encode_frame. change (be_bytes 2 footer) with ([0x55] ++ [0xAA]). rewrite !app_assoc.
  intros He. destruct F2 as [|x F2 _] using rev_ind.
  - rewrite app_nil_r in He. apply app_inj_tail in He as [He _]. rewrite app_nil_r. eauto.
  - rewrite !app_assoc in He. apply app_inj_tail in He as [_ <-]. rewrite app_assoc. eauto.
Qed.

Lemma split_tail {A} (n : nat) (l : list A) :
  (n <= length l)%nat -> exists l1 l2, l = l1 ++ l2 /\ length l2 = n.
Proof.
  intros. exists (take (length l - n) l), (drop (length l - n) l).
  rewrite take_drop, length_drop. split; [done|lia].
Qed.

(** C33: Losing up to four consecutive bytes of a frame, anywhere after its
    length field, costs that frame only. The bytes of the next frame that were
    taken for the end of this one are given back, and the next frame is
    delivered whole. *)
Theorem loss_costs_one_frame d s ty data F1 lost F2 ty' data' :
  ready d -> timely_frame s -> encode_frame ty data = F1 ++ lost ++ F2 ->
  (4 <= length F1)%nat -> (1 <= length lost <= 4)%nat ->
  map fst s = (F1 ++ F2) ++ encode_frame ty' data' ->
  Z.of_nat (length data) <= max_data_size -> is_u8 ty -> is_bytes data ->
  Z.of_nat (length data') <= max_data_size -> is_u8 ty' -> is_bytes data' ->
  exists d', decode_all d s = (d', repeat incomplete (length data + 8) ++ [invalid_footer] ++
      repeat incomplete (length data' + 8 - length lost) ++ [complete]) /\
    ready d' /\ holds (packet_ d') ty' data'.
Proof.
  intros Hr Ht Hf HF1 Hk Hs Hdl Hty Hd Hdl' Hty' Hd'.
  pose proof (encode_frame_bytes ty data Hty Hd) as Hfb. pose proof (length_encode_frame ty data) as Hfl.
  change (Z.to_nat frame_overhead) with 9%nat in Hfl.
  destruct (encode_frame_shape ty data) as (lh & ll & a0 & c0 & Hb4 & Hll & _ & Hfs); [done..|].
  destruct (encode_frame_shape ty' data') as (lh' & ll' & a' & c' & Hb4' & Hll' & _ & Hfs'); [done..|].
  remember (length lost) as k eqn:Hlost.
  assert (exists rest, F1 ++ F2 = [0x86; 0x68; lh; ll] ++ rest /\ is_bytes rest /\
            (length rest + k = length data + 5)%nat) as (rest & HF & Hrb & Hrl).
  { rewrite Hf in Hfs, Hfb, Hfl. rewrite !length_app in Hfl.
    destruct F1 as [|x1 [|x2 [|x3 [|x4 F1]]]]; cbn [length] in HF1; try lia.
    cbn [app] in Hfs. injection Hfs as -> -> -> -> _. exists (F1 ++ F2). split; [done|].
    cbn [app length] in *. split_bytes. split; [bytes|]. rewrite length_app. lia. }
  assert (forall td a c e b, rest ++ take k (encode_frame ty' data') = td ++ [a; c; e; b] ->
     Z.of_nat (length td) = lh * 256 + ll - 2 -> (e, b) <> (0x55, 0xAA) ->
     rescued a c e b = take k (encode_frame ty' data') ->
     exists d', decode_all d s = (d', repeat incomplete (length data + 8) ++ [invalid_footer] ++
      repeat incomplete (length data' + 8 - k) ++ [complete]) /\
    ready d' /\ holds (packet_ d') ty' data') as Hgo.
  { intros td a c e b Hrest Htd Hne Hres.
    destruct (misframed d s lh ll td a c e b ty' data' k) as (d' & Hrun & Hl & Hh); try done; try lia.
    - rewrite Hs, HF, <- (take_drop k (encode_frame ty' data')) at 1. rewrite <- !app_assoc.
      apply (f_equal (app [0x86; 0x68; lh; ll])). by rewrite (app_assoc rest), Hrest, <- !app_assoc.
    - assert (is_bytes (rest ++ take k (encode_frame ty' data'))) as Hall.
      { bytes. by apply Forall_take, encode_frame_bytes. }
      rewrite Hrest in Hall. split_bytes. bytes.
    - exists d'. rewrite Hrun. split; [do 2 f_equal; f_equal; lia|]. split; [|done].
      split; [|by exists []]. destruct Hl as (_ & _ & Hc). by inversion Hc. }
  assert (lh' = 0 \/ lh' = 1 \/ lh' = 2) as Hlh'.
  { split_bytes. unfold max_data_size, max_frame_size, frame_overhead in *. ints. }
  assert (3 <= lh' * 256 + ll' <= max_data_size + 3) as Hlen' by lia.
  destruct (split_tail (4 - k) rest) as (td & t4 & -> & Ht4); [lia|]. rewrite length_app in Hrl.
  rewrite Hfs' in Hgo.
  destruct k as [|[|[|[|[|]]]]]; try lia; destruct t4 as [|x [|y [|z [|]]]]; cbn [length] in *; try lia;
    cbn [take] in Hgo.
  - destruct lost as [|l [|]]; [done| |done]. destruct (last_of_frame _ _ _ _ _ Hf) as (z' & Y & HY & Hz).
    rewrite HF in HY. rewrite !app_assoc in HY.
    change ([x; y; z]) with ([x; y] ++ [z]) in HY. rewrite !app_assoc in HY. apply app_inj_tail in HY as [_ ->].
    apply (Hgo td x y z' 0x86); [by rewrite <- app_assoc|lia|congruence|].
    unfold rescued. destruct Hz as [-> | ->]; cbn [Z.eqb Pos.eqb andb]; rewrite andb_false_r;
      by destruct (_ && _).
  - apply (Hgo td x y 0x86 0x68); [by rewrite <- app_assoc|lia|congruence|done].
  - apply (Hgo td x 0x86 0x68 lh'); [by rewrite <- app_assoc|lia|congruence|done].
  - apply (Hgo td 0x86 0x68 lh' ll'); [by rewrite <- app_assoc|lia|intros [= ->]; lia|].
    unfold rescued. rewrite (proj2 (Z.eqb_neq lh' 0x86)) by lia. cbn [Z.eqb Pos.eqb andb].
    by rewrite !(proj2 (Z.leb_le _ _)) by lia.
Qed.
Lemma loss_costs_one_frame_witness :
  let s := map (fun b => (b, 3)) ([0x86; 0x68; 0x00; 0x04; 0x71; 0xAA] ++ encode_frame 0x86 [0x68]) in
  exists d', decode_all (new_decoder blank_packet) s =
    (d', repeat incomplete 9 ++ [invalid_footer] ++ repeat incomplete 5 ++ [complete]) /\
    ready d' /\ holds (packet_ d') 0x86 [0x68].
Proof.
  intros s.
  apply (loss_costs_one_frame (new_decoder blank_packet) s 0x71 [0x07] [0x86; 0x68; 0x00; 0x04; 0x71]
           [0x07; 0x97; 0x4f; 0x55] [0xAA] 0x86 [0x68]); try done; try concrete; try (cbn; lia).
  split; [done|]. exists []. by apply new_decoder_live.
Defined.

Lemma good_footer d lh ll td a c t :
  consumed d (0x86 :: 0x68 :: lh :: ll :: td ++ [a; c; 0x55]) ->
  is_bytes (lh :: ll :: td ++ [a; c; 0x55]) ->
  packet_ok d -> u32 (t - last_byte_us_ d) < frame_timeout_us ->
  Z.of_nat (length td) = lh * 256 + ll - 2 -> a * 256 + c <> ccitt (lh :: ll :: td) ->
  exists d', decode_byte d 0xAA t = (d', invalid_crc) /\ live d' [].
Proof.
  intros Hc Hbs Hp Ht Hl Hne.
  apply timely_kept in Ht. pose proof (note_time_consumed _ _ _ Ht Hc) as Hc'.
  destruct (note_time_fields d t) as (Hpk & _ & _).
  inversion Hc' as [| | | |lh' ll' td' ? ? ? Hlt ? ? ? He|lh' ll' td' t' Hr Hh Hib Htd Hs Hck Htf]; subst.
  { rewrite length_app in Hlt. cbn in Hlt. lia. }
  match goal with H : td' ++ t' = _ |- _ => rename H into He end.
  apply app_inj_1 in He as [-> ->]; [|lia].
  destruct (advance_last (decode_byte_fuel 1) (note_time d t) lh ll td a c 0x55 0xAA t)
    as (d1 & Hp1 & _ & Hib1 & Hs1 & Ht1 & Ha); try done;
    [cbn [length] in Hr; lia|split_bytes; bytes|unfold packet_ok; by rewrite Hpk|].
  cbn [Z.eqb Pos.eqb andb] in Ha. rewrite (proj2 (Z.eqb_neq _ _) Hne) in Ha.
  exists (reset d1). split; [by apply (decode_byte_advance _ _ _ _ Ht)|].
  split; [done|]. split; [constructor|apply reset_consumed].
Qed.

(** C32: Two adjacent bytes of a frame's type and data changed in transit, its
    length intact: the frame is never delivered, its last byte reports the bad
    CRC, and the decoder is ready for the next frame. *)
Theorem damage_is_detected d s ty data p x y q x' y' :
  ready d -> timely_frame s -> ty :: data = p ++ [x; y] ++ q ->
  map fst s = be_bytes 2 header ++ be_bytes 2 (Z.of_nat (length data) + 3) ++ (p ++ [x'; y'] ++ q)
    ++ be_bytes 2 (ccitt (frame_covered ty data)) ++ be_bytes 2 footer ->
  Z.of_nat (length data) <= max_data_size -> is_bytes (ty :: data) -> is_bytes [x'; y'] ->
  (x, y) <> (x', y') ->
  exists d', decode_all d s = (d', repeat incomplete (length data + 8) ++ [invalid_crc]) /\ ready d'.
Proof.
  intros Hr Ht Htd Hs Hlen Hb Hb' Hne. pose proof Hb as Hb0.
  apply Forall_cons_iff in Hb0 as [Hty Hd].
  destruct (encode_frame_shape ty data) as (lh & ll & a & c & Hb4 & Hll & Hcc & _); [done..|].
  assert (length (p ++ [x'; y'] ++ q) = S (length data)) as Hl'.
  { change (S (length data)) with (length (ty :: data)). by rewrite Htd, !length_app. }
  rewrite Htd in Hb. unfold frame_covered in Hs. rewrite <- Hll in Hs. split_bytes.
  rewrite (be_bytes_pair lh ll) in Hs by done. change ([lh; ll] ++ ty :: data) with (lh :: ll :: ty :: data) in Hs.
  rewrite <- Hcc, be_bytes_pair in Hs by done.
  change (be_bytes 2 header) with [0x86; 0x68] in Hs. change (be_bytes 2 footer) with [0x55; 0xAA] in Hs.
  assert (a * 256 + c <> ccitt (lh :: ll :: p ++ [x'; y'] ++ q)) as Hck.
  { rewrite Hcc, Htd. apply (ccitt_burst 0 (lh :: ll :: p) q x y x' y'); [concrete|bytes|done|bytes|bytes|done]. }
  set (td := p ++ [x'; y'] ++ q) in *. assert (is_bytes td) as Htb by (subst td; bytes).
  assert (map fst s = [0x86; 0x68; lh; ll] ++ (td ++ [a; c; 0x55]) ++ [0xAA]) as Hs'
    by (rewrite Hs, <- !app_assoc; done).
  apply map_eq_app in Hs' as (s1 & s0 & -> & Hs1 & Hs'). apply map_eq_app in Hs' as (s2 & s3 & -> & Hs2 & Hs').
  destruct s3 as [|[b' t] [|]]; [done| |done]. cbn [map fst] in Hs'. injection Hs' as ->.
  destruct s1 as [|[b1 t1] s1]; [done|]. pose proof Ht as Ht0. cbn [app timely_frame] in Ht.
  apply timely_app in Ht as [Ht1 Ht]. apply timely_app in Ht as [Ht2 [Ht3 _]].
  destruct (feed_length d ((b1, t1) :: s1) lh ll) as (d1 & Hrun1 & Hp1 & Hc1 & Hl1); try done; [bytes|lia|].
  cbn [map snd] in Hl1. rewrite last_cons_default in Hl1.
  assert (length s2 = (length td + 3)%nat) as Hlen2 by (rewrite <- (length_map fst), Hs2, length_app; done).
  destruct (feed_body s2 d1 lh ll []) as (d2 & Hrun2 & Hp2 & Hc2 & Hl2); try done; [bytes| | |cbn; lia|].
  { rewrite <- (Forall_map fst is_u8), Hs2. bytes. } { by rewrite Hl1. }
  cbn [app] in Hc2. rewrite Hs2 in Hc2.
  destruct (good_footer d2 lh ll td a c t) as (d3 & Hrun3 & Hlv); try done; [bytes|by rewrite Hl2, Hl1|lia|].
  exists d3. split.
  - rewrite decode_all_app, Hrun1, decode_all_app, Hrun2. cbn [decode_all]. rewrite Hrun3. f_equal.
    rewrite app_assoc, <- repeat_app. do 2 f_equal. lia.
  - split; [|by exists []]. destruct Hlv as (_ & _ & Hc). by inversion Hc.
Qed.
Lemma damage_is_detected_witness :
  let s := map (fun b => (b, 3)) ([0x86; 0x68; 0x00; 0x04; 0x72; 0x06] ++
     be_bytes 2 (ccitt (frame_covered 0x71 [0x07])) ++ [0x55; 0xAA]) in
  exists d', decode_all (new_decoder blank_packet) s = (d', repeat incomplete 9 ++ [invalid_crc]) /\ ready d'.
Proof.
  intros s.
  apply (damage_is_detected (new_decoder blank_packet) s 0x71 [0x07] [] 0x71 0x07 [] 0x72 0x06);
    try done; try concrete.
  split; [done|]. exists []. by apply new_decoder_live.
Defined.
