(* ===== verification/FrameResync.v ===== *)
(** * Resynchronisation ([src/src/libs/FrameResync.h], [FrameResync.cpp])

    A frame decoder with a bound on the hunt for a header, and what the bound
    leaves untouched: the packets are those of the plain decoder. *)
From S2P Require Import Prelude Crc16 MakeraFrame FrameWire.

(** [src/src/libs/FrameResync.h:30-45] makera::ResyncResult *)
Inductive ResyncResult :=
| rs_incomplete | rs_complete | rs_invalid_length | rs_invalid_crc | rs_invalid_footer
| rs_marked | rs_header_error.
#[export] Instance ResyncResult_eq_dec : EqDecision ResyncResult.
Proof. solve_decision. Defined.

(** [src/src/libs/FrameResync.h:54-54] makera::ResyncingDecoder::max_header_errors *)
Definition max_header_errors : Z := 20.

(** [src/src/libs/FrameResync.h:47-93] makera::ResyncingDecoder *)
Record ResyncingDecoder := mk_resync {
  decoder_ : FrameDecoder;
  header_errors_ : Z;
  notify_pending_ : bool;
  notified_once_ : bool
}.
#[export] Instance eta_ResyncingDecoder : Eta ResyncingDecoder := fun d =>
  mk_resync (decoder_ d) (header_errors_ d) (notify_pending_ d) (notified_once_ d).

(** [src/src/libs/FrameResync.h:49-49] makera::ResyncingDecoder::ResyncingDecoder *)
Definition new_resync (packet : Packet) : ResyncingDecoder :=
  mk_resync (new_decoder packet) 0 false false.

(** The results that pass straight through.
    [src/src/libs/FrameResync.cpp:33-41] makera::ResyncingDecoder::decode_byte *)
Definition pass_result (result : DecodeResult) : ResyncResult :=
  match result with
  | complete => rs_complete
  | invalid_length => rs_invalid_length
  | invalid_crc => rs_invalid_crc
  | invalid_footer => rs_invalid_footer
  | marked => rs_marked
  | incomplete => rs_incomplete
  end.

(** [src/src/libs/FrameResync.cpp:5-42] makera::ResyncingDecoder::decode_byte *)
Definition resync_byte (r : ResyncingDecoder) (byte now_us : Z) : ResyncingDecoder * ResyncResult :=
  let '(d, result) := decode_byte (decoder_ r) byte now_us in
  let r := r <| decoder_ := d |> in
  match result with
  | incomplete =>
      if in_progress d then (r, rs_incomplete)
      else
        let r := r <| header_errors_ := u16 (header_errors_ r + 1) |> in
        if max_header_errors <=? header_errors_ r then
          let r := r <| decoder_ := reset d |> <| header_errors_ := 0 |> in
          let r := if negb (notified_once_ r)
                   then r <| notify_pending_ := true |> <| notified_once_ := true |> else r in
          (r, rs_header_error)
        else (r, rs_incomplete)
  | _ => (r <| header_errors_ := 0 |>, pass_result result)
  end.

(** [src/src/libs/FrameResync.cpp:44-49] makera::ResyncingDecoder::reset *)
Definition resync_reset (r : ResyncingDecoder) : ResyncingDecoder :=
  mk_resync (reset (decoder_ r)) 0 false false.

(** [src/src/libs/FrameResync.h:74-74] makera::ResyncingDecoder::mark_frame *)
Definition resync_mark_frame (r : ResyncingDecoder) : ResyncingDecoder :=
  r <| decoder_ := mark_frame (decoder_ r) |>.

(** [src/src/libs/FrameResync.cpp:51-55] makera::ResyncingDecoder::consume_notify_pending *)
Definition consume_notify_pending (r : ResyncingDecoder) : ResyncingDecoder * bool :=
  (r <| notify_pending_ := false |>, notify_pending_ r).

Fixpoint resync_all (r : ResyncingDecoder) (stream : list (Z * Z)) : ResyncingDecoder * list ResyncResult :=
  match stream with
  | [] => (r, [])
  | (byte, now_us) :: rest =>
      let '(r, x) := resync_byte r byte now_us in
      let '(r, xs) := resync_all r rest in (r, x :: xs)
  end.

Section TakeFrames.
Context {Caller : Type} (take : Caller -> Packet -> Caller * bool).

(** The read's loop; the caller's callback [take] transforms a state of the
    caller's, and the whole read carries one time.
    [src/src/libs/FrameResync.h:105-110] makera::take_frames *)
Fixpoint take_frames_loop (r : ResyncingDecoder) (data : list Z) (now_us : Z) (taken : bool) (c : Caller)
    : ResyncingDecoder * bool * Caller :=
  match data with
  | [] => (r, taken, c)
  | byte :: rest =>
      let '(r, result) := resync_byte r byte now_us in
      match result with
      | rs_complete | rs_marked =>
          let '(c, t) := take c (packet_ (decoder_ r)) in
          take_frames_loop r rest now_us (taken || t) c
      | _ => take_frames_loop r rest now_us taken c
      end
  end.

(** [src/src/libs/FrameResync.h:104-113] makera::take_frames *)
Definition take_frames (r : ResyncingDecoder) (data : list Z) (now_us : Z) (c : Caller)
    : ResyncingDecoder * bool * Caller :=
  let '(r, taken, c) := take_frames_loop r data now_us false c in
  (if taken then r else resync_mark_frame r, taken, c).
End TakeFrames.

(** ** Between frames the decoder holds nothing but the time *)
Record clean (d : FrameDecoder) : Prop := {
  cl_received : 0 <= received_ d;
  cl_idle : received_ d = 0 ->
    expected_ d = 0 /\ length_high_ d = 0 /\ footer_high_ d = 0 /\ trailer_ d = 0 /\
    calculated_crc_ d = 0 /\ (header_prefix_ d = false -> marked_ d = false)
}.

Lemma reset_clean d : clean (reset d).
Proof. by split. Qed.
Lemma restart_with_clean d b now : clean (restart_with d b now).
Proof. by split. Qed.
Lemma keep_consumed_header_clean d now : clean (keep_consumed_header d now).
Proof. by split. Qed.
Lemma note_time_clean d now : clean d -> clean (note_time d now).
Proof. intros []. unfold note_time. by destruct (_ && _); split. Qed.
Lemma mark_frame_clean d : clean d -> clean (mark_frame d).
Proof.
  intros [H0 Hi]. split; [done|]. intros H. destruct (Hi H) as (? & ? & ? & ? & ? & _). repeat split; try done.
  unfold mark_frame, in_progress. recs. change (received_ d = 0) in H. by rewrite H.
Qed.
Lemma busy_clean d : 0 < received_ d -> clean d.
Proof. split; lia. Qed.

Lemma advance_clean decode d b now r :
  (forall d b t r, clean d -> decode d b t = Some r -> clean r.1) ->
  clean d -> advance decode d b now = Some r -> clean r.1.
Proof.
  intros Hdec [H0 Hi]. unfold advance. destruct (Z.eqb_spec (received_ d) 0) as [Hr|Hr].
  { intros [= <-]. unfold seek_header. destruct (Hi Hr) as (? & ? & ? & ? & ? & _).
    by destruct (_ && _); split. }
  cbv zeta. destruct (_ =? 2). { intros [= <-]. apply busy_clean. cbn [fst]. recs. lia. }
  destruct (_ =? 3).
  { intros [= <-]. unfold take_length. cbv zeta. destruct (_ || _); cbn [fst].
    - destruct (_ =? header); [apply keep_consumed_header_clean|apply restart_with_clean].
    - apply busy_clean. cbn [fst]. recs. lia. }
  set (d1 := set_field received_ (received_ d + 1) d).
  destruct (store_byte_fields d1 (received_ d) b) as (Hs & _).
  destruct (_ <? _).
  { intros [= <-]. apply busy_clean. cbn [fst]. rewrite Hs. subst d1. recs. lia. }
  unfold finish_frame. cbv zeta. destruct (_ || _).
  2: { destruct (negb _); intros [= <-]; apply reset_clean. }
  intros (d2 & Hd2 & [= <-])%bind_Some. cbn [fst]. revert Hd2. unfold restart_from_trailer. cbv zeta.
  destruct (_ =? header). { intros [= <-]. apply keep_consumed_header_clean. }
  destruct (_ =? header).
  { intros (x & Hx & ->)%fmap_Some. eapply Hdec; [|exact Hx]. apply keep_consumed_header_clean. }
  destruct (_ =? header); [|intros [= <-]; apply restart_with_clean].
  intros ([d3 r3] & H3 & (x & Hx & ->)%fmap_Some)%bind_Some. eapply Hdec; [|exact Hx].
  apply (Hdec _ _ _ _ (keep_consumed_header_clean _ _) H3).
Qed.

Lemma decode_fuel_clean fuel d b now r : clean d -> decode_byte_fuel fuel d b now = Some r -> clean r.1.
Proof.
  revert d b now r. induction fuel as [|fuel IH]; [done|]. intros d b now r Hc. cbn [decode_byte_fuel].
  apply advance_clean; [|by apply note_time_clean]. eauto.
Qed.
Lemma decode_byte_clean d b now : clean d -> clean (decode_byte d b now).1.
Proof.
  intros Hc. unfold decode_byte. destruct (decode_byte_fuel 2 d b now) eqn:He; [|done].
  by apply (decode_fuel_clean _ _ _ _ _ Hc He).
Qed.

(** A decoder with nothing in progress treats its next byte as a reset one does. *)
Lemma idle_is_reset d now : clean d -> in_progress d = false -> note_time d now = note_time (reset d) now.
Proof.
  intros [_ Hi] Hp. unfold note_time. rewrite Hp.
  apply orb_false_iff in Hp as [Hr%negb_false_iff%Z.eqb_eq Hh].
  destruct (Hi Hr) as (? & ? & ? & ? & ? & Hm). destruct d as [r e lh fh tr crc lb hp hl mk pk]. cbn in *.
  specialize (Hm Hh). by subst.
Qed.

(** ** The packets are the plain decoder's *)
Definition plain_result (r : ResyncResult) : DecodeResult :=
  match r with
  | rs_incomplete | rs_header_error => incomplete
  | rs_complete => complete
  | rs_invalid_length => invalid_length
  | rs_invalid_crc => invalid_crc
  | rs_invalid_footer => invalid_footer
  | rs_marked => marked
  end.

(** The wrapped decoder [d] against a plain one [e]: the same state, except that
    [d] may have been reset while nothing was in progress. *)
Definition same_stream (d e : FrameDecoder) : Prop :=
  clean e /\ (d = e \/ d = reset e /\ in_progress e = false).

Lemma same_stream_step d e b now :
  same_stream d e -> decode_byte_fuel 2 d b now = decode_byte_fuel 2 e b now /\ packet_ d = packet_ e.
Proof.
  intros [Hc [->|[-> Hp]]]; [done|]. split; [|done]. cbn [decode_byte_fuel].
  by rewrite (idle_is_reset e now Hc Hp).
Qed.

Lemma resync_byte_plain r b now d' x :
  decode_byte (decoder_ r) b now = (d', x) ->
  let '(r', y) := resync_byte r b now in
  plain_result y = x /\
  (decoder_ r' = d' \/ decoder_ r' = reset d' /\ in_progress d' = false) /\ packet_ (decoder_ r') = packet_ d'.
Proof.
  intros Hd. unfold resync_byte. rewrite Hd. cbv zeta. destruct x; try (repeat split; by left).
  destruct (in_progress d') eqn:Hp; [repeat split; by left|].
  destruct (_ <=? _); [|repeat split; by left].
  destruct (negb _); (split; [done|]; split; [by right|done]).
Qed.

Lemma decode_byte_default d b now r : decode_byte_fuel 2 d b now = Some r -> decode_byte d b now = r.
Proof. unfold decode_byte. by intros ->. Qed.

Lemma resync_simulates r e s :
  same_stream (decoder_ r) e -> (exists bs, live e bs) -> is_stream s ->
  map plain_result (resync_all r s).2 = (decode_all e s).2 /\
  packet_ (decoder_ (resync_all r s).1) = packet_ (decode_all e s).1.
Proof.
  revert r e. induction s as [|[b t] s IH]; intros r e Hs [bs Hl] Hst.
  { split; [done|]. by destruct (same_stream_step _ _ 0 0 Hs). }
  apply Forall_cons_iff in Hst as [Hb Hst]. cbn [fst] in Hb.
  destruct (decode_byte_outcome e bs b t Hl Hb) as (e' & x & H2 & He & Ho).
  destruct (same_stream_step _ _ b t Hs) as [Heq _]. rewrite H2 in Heq.
  apply decode_byte_default in Heq. pose proof (resync_byte_plain _ _ _ _ _ Heq) as Hr.
  cbn [resync_all decode_all]. rewrite He. destruct (resync_byte r b t) as [r' y].
  destruct Hr as (Hy & Hd & Hp). destruct Hs as [Hc _].
  destruct (outcome_live _ _ _ _ (kept_bytes e bs t (proj1 (proj2 Hl))) Hb Ho) as (bs' & Hl' & _).
  destruct (IH r' e') as [IH1 IH2]; [|by exists bs'|done|].
  { split; [|done]. pose proof (decode_byte_clean e b t Hc) as Hc'. by rewrite He in Hc'. }
  destruct (resync_all r' s), (decode_all e' s). cbn [fst snd map] in *. by rewrite Hy, IH1.
Qed.

(** C35: Refinement. Over any stream at all, a [ResyncingDecoder] gives the
    results its [FrameDecoder] would give alone, header errors standing for
    nothing received, and ends with the same packet: giving up on a header hunt
    never loses a frame and never invents one. *)
Theorem resync_refines_decoder p s :
  Z.of_nat (length (pk_data p)) = max_data_size -> is_stream s ->
  map plain_result (resync_all (new_resync p) s).2 = (decode_all (new_decoder p) s).2 /\
  packet_ (decoder_ (resync_all (new_resync p) s).1) = packet_ (decode_all (new_decoder p) s).1.
Proof.
  intros Hp. apply resync_simulates; [|exists []; by apply new_decoder_live].
  split; [by split|by left].
Qed.
Lemma resync_refines_decoder_witness :
  let s := map (fun b => (b, 5)) (repeat 0x55 19 ++ encode_frame 0x71 []) in
  map plain_result (resync_all (new_resync blank_packet) s).2 = (decode_all (new_decoder blank_packet) s).2 /\
  packet_ (decoder_ (resync_all (new_resync blank_packet) s).1) = packet_ (decode_all (new_decoder blank_packet) s).1.
Proof. intros s. apply resync_refines_decoder; [done|concrete]. Defined.

(** ** When the header error comes *)
(** Junk that cannot even start a header, from a decoder with nothing in
    progress: every twentieth byte of the run is a header error. *)
Fixpoint error_schedule (errors : Z) (n : nat) : list ResyncResult :=
  match n with
  | O => []
  | S n => if errors + 1 =? max_header_errors then rs_header_error :: error_schedule 0 n
           else rs_incomplete :: error_schedule (errors + 1) n
  end.

Definition hunting (r : ResyncingDecoder) : Prop :=
  live (decoder_ r) [] /\ 0 <= header_errors_ r < max_header_errors /\
  (notify_pending_ r = true -> notified_once_ r = true).

Lemma decode_junk_byte d b t :
  live d [] -> b <> 0x86 -> is_u8 b ->
  exists d', decode_byte d b t = (d', incomplete) /\ live d' [] /\ in_progress d' = false.
Proof.
  intros Hl Hb Hu. pose proof (note_time_live _ _ t Hl) as (Hp & _ & Hc).
  assert (kept d [] t = []) as Hk by (unfold kept; by destruct (timed_out d t)).
  rewrite Hk in Hc. assert (received_ (note_time d t) = 0) as H0 by by inversion Hc.
  destruct (advance_idle (decode_byte_fuel 1) _ _ b t Hc H0) as (d' & Ha & Hp' & Hc').
  rewrite bool_decide_eq_false_2 in Hc' by done. cbn [andb] in Hc'.
  destruct (Z.eqb_spec b 0x86); [done|].
  exists d'. split; [unfold decode_byte; cbn [decode_byte_fuel] in *; by rewrite Ha|].
  split; [split; [unfold packet_ok; by rewrite Hp'|split; [constructor|done]]|].
  unfold in_progress. inversion Hc' as [Hr Hh| | | | |]. by rewrite Hr, Hh.
Qed.

Lemma resync_junk_byte r b t :
  hunting r -> b <> 0x86 -> is_u8 b ->
  let fired := header_errors_ r + 1 =? max_header_errors in
  exists r', resync_byte r b t = (r', if fired then rs_header_error else rs_incomplete) /\ hunting r' /\
    header_errors_ r' = (if fired then 0 else header_errors_ r + 1) /\
    notified_once_ r' = notified_once_ r || fired /\
    notify_pending_ r' = notify_pending_ r || (fired && negb (notified_once_ r)).
Proof.
  intros (Hl & He & Hn) Hb Hu fired. destruct (decode_junk_byte (decoder_ r) b t Hl Hb Hu) as (d' & Hd & Hl' & Hp).
  unfold resync_byte. rewrite Hd, Hp. cbv zeta. recs. unfold max_header_errors in *.
  rewrite (wrap_small 16) by ints. subst fired.
  destruct (Z.leb_spec 20 (header_errors_ r + 1)), (Z.eqb_spec (header_errors_ r + 1) 20); try lia.
  - destruct (notified_once_ r) eqn:Ho; cbn [negb orb andb]; (eexists; split; [reflexivity|]);
      rewrite ?orb_false_r, ?orb_true_r; recs; (split; [|done]);
      (split; [by eapply reset_live|]); recs; unfold max_header_errors; (split; [lia|]); auto.
  - eexists; split; [reflexivity|]. rewrite !orb_false_r. split; [|done].
    split; [done|]. recs. unfold max_header_errors. split; [lia|auto].
Qed.

(** While nothing like a header arrives, the error comes at exactly every
    twentieth byte of the run and the decoder needs nothing from its caller to go
    on; the diagnostic falls due at the first error and never again. *)
Theorem header_error_on_schedule r s :
  hunting r -> Forall (fun bt : Z * Z => is_u8 bt.1 /\ bt.1 <> 0x86) s ->
  let fired := max_header_errors <=? header_errors_ r + Z.of_nat (length s) in
  exists r', resync_all r s = (r', error_schedule (header_errors_ r) (length s)) /\ hunting r' /\
    header_errors_ r' = (header_errors_ r + Z.of_nat (length s)) mod max_header_errors /\
    notified_once_ r' = notified_once_ r || fired /\
    notify_pending_ r' = notify_pending_ r || (fired && negb (notified_once_ r)).
Proof.
  intros Hh Hs. revert r Hh. induction Hs as [|[b t] s [Hu Hb] Hs IH]; intros r Hh fired.
  { pose proof Hh as (_ & He & _). unfold max_header_errors in *. exists r. subst fired. cbn [length Z.of_nat]. rewrite !Z.add_0_r, Z.mod_small by done.
    destruct (Z.leb_spec 20 (header_errors_ r)); [lia|]. by rewrite !orb_false_r. }
  cbn [fst] in *. destruct (resync_junk_byte r b t Hh Hb Hu) as (r1 & Hr1 & Hh1 & He1 & Ho1 & Hp1).
  destruct (IH r1 Hh1) as (r' & Hrun & Hh' & He' & Hq' & Hn').
  pose proof Hh as (_ & Her & Hnr). subst fired. unfold max_header_errors in *.
  exists r'. cbn [resync_all length error_schedule]. rewrite Hr1, Hrun, He', Hq', Hn', Ho1, Hp1, He1.
  unfold max_header_errors. split; [by destruct (_ =? 20)|]. split; [done|].
  destruct (Z.eqb_spec (header_errors_ r + 1) 20).
  - rewrite (proj2 (Z.leb_le 20 (header_errors_ r + _))) by lia.
    split; [Z.div_mod_to_equations; lia|]. 
    destruct (notified_once_ r), (notify_pending_ r); cbn [orb andb negb];
      rewrite ?andb_false_r, ?andb_true_r, ?orb_false_r; done.
  - replace (header_errors_ r + 1 + Z.of_nat (length s)) with (header_errors_ r + Z.of_nat (S (length s))) by lia.
    split; [done|]. 
    destruct (notified_once_ r), (notify_pending_ r); cbn [orb andb negb];
      rewrite ?andb_false_r, ?andb_true_r, ?orb_false_r; done.
Qed.
Lemma header_error_on_schedule_witness :
  let s := map (fun b => (b, 5)) (repeat 0x55 41) in
  exists r', resync_all (new_resync blank_packet) s = (r', error_schedule 0 41) /\ hunting r' /\
    header_errors_ r' = 1 /\ notified_once_ r' = true /\ notify_pending_ r' = true.
Proof.
  intros s. apply (header_error_on_schedule (new_resync blank_packet) s).
  - split; [by apply new_decoder_live|]. done.
  - concrete.
Defined.
