(* ===== verification/ClientTable.v ===== *)
(** * The client table ([src/src/libs/ClientTable.h], [ClientTable.cpp])

    Who is connected: at most three WiFi clients with distinct addresses and one
    USB entry, the old-client rule's order among them, and the send loop with
    its bounded wait. *)
From S2P Require Import Prelude.

(** [src/src/libs/ClientTable.h:9-9] multiclient::Link *)
Inductive Link := link_wifi | link_usb.
#[export] Instance Link_eq_dec : EqDecision Link.
Proof. solve_decision. Defined.

(** [src/src/libs/ClientTable.h:13-16] multiclient::Address *)
Record Address := mk_address { ip : Z * Z * Z * Z; port : Z }.
#[export] Instance Address_eq_dec : EqDecision Address.
Proof. solve_decision. Defined.

(** [src/src/libs/ClientTable.h:18-20] multiclient::same_address *)
Definition same_address (a b : Address) : bool :=
  let '(a0, a1, a2, a3) := ip a in
  let '(b0, b1, b2, b3) := ip b in
  (port a =? port b) && (a0 =? b0) && (a1 =? b1) && (a2 =? b2) && (a3 =? b3).

(** [src/src/libs/ClientTable.h:24-24] multiclient::max_name_length *)
Definition max_name_length : Z := 31.
(** [src/src/libs/ClientTable.h:33-33] multiclient::hello_window_us *)
Definition hello_window_us : Z := 5000000.
(** [src/src/libs/ClientTable.h:42-42] multiclient::usb_idle_timeout_us *)
Definition usb_idle_timeout_us : Z := 10000000.
(** [src/src/libs/ClientTable.h:51-53] multiclient::before *)
Definition before (a b : Z) : bool := s32 (u32 (a - b)) <? 0.

(** [name] is the whole character array, NUL and what follows it included.
    [src/src/libs/ClientTable.h:58-117] multiclient::Client *)
Record Client := mk_client {
  link : Link;
  address : Address;
  identified : bool;
  id : Z;
  name : list Z;
  name_len : Z;
  last_user_us : Z;
  last_heartbeat_us : Z;
  hello_window_started : bool;
  hello_window_start_us : Z;
  send_failed : bool;
  consecutive_send_failures : Z;
  features : Z;
  job_start_ready : Z;
  hello_held : bool;
  has_launch : bool;
  launch : Z
}.
#[export] Instance eta_Client : Eta Client := fun c =>
  mk_client (link c) (address c) (identified c) (id c) (name c) (name_len c) (last_user_us c)
    (last_heartbeat_us c) (hello_window_started c) (hello_window_start_us c) (send_failed c)
    (consecutive_send_failures c) (features c) (job_start_ready c) (hello_held c) (has_launch c) (launch c).

(** [Client{}]: the members' default initialisers.
    [src/src/libs/ClientTable.h:58-117] multiclient::Client *)
Definition no_client : Client :=
  mk_client link_wifi (mk_address (0, 0, 0, 0) 0) false 0 (repeat 0 (Z.to_nat (max_name_length + 1))) 0 0 0
    false 0 false 0 0 0 false false 0.

(** [src/src/libs/ClientTable.h:124-124] multiclient::max_consecutive_send_failures *)
Definition max_consecutive_send_failures : Z := 20.
(** [src/src/libs/ClientTable.h:169-169] multiclient::max_busy_send_wait_us *)
Definition max_busy_send_wait_us : Z := 100000.

(** [src/src/libs/ClientTable.cpp:65-69] multiclient::send_error_means_client_gone *)
Definition send_error_means_client_gone (errcode : Z) : bool :=
  (errcode =? 0x14) || (errcode =? 0x15) || (errcode =? 0x1A).
(** [src/src/libs/ClientTable.cpp:71-76] multiclient::send_error_means_module_busy *)
Definition send_error_means_module_busy (errcode : Z) : bool :=
  (errcode =? 0x10) || (errcode =? 0x11) || (errcode =? 0x12) || (errcode =? 0x1D).

(** [src/src/libs/ClientTable.cpp:78-88] multiclient::note_send_result *)
Definition note_send_result (client : Client) (sent_everything : bool) (errcode : Z) : Client :=
  if sent_everything then client <| consecutive_send_failures := 0 |>
  else if send_error_means_client_gone errcode then client <| send_failed := true |>
  else if consecutive_send_failures client <? 0xFF
       then client <| consecutive_send_failures := u8 (consecutive_send_failures client + 1) |>
       else client.

(** [src/src/libs/ClientTable.cpp:90-92] multiclient::sends_show_client_gone *)
Definition sends_show_client_gone (client : Client) : bool :=
  send_failed client || (max_consecutive_send_failures <=? consecutive_send_failures client).

(** [name] points at at least [name_len] characters.
    [src/src/libs/ClientTable.cpp:7-14] multiclient::set_identity *)
Definition set_identity (client : Client) (id_ : Z) (name_ : list Z) (name_len_ : Z) : Client :=
  let name_len_ := if max_name_length <? name_len_ then max_name_length else name_len_ in
  let client := client <| id := id_ |> <| name_len := name_len_ |> in
  let n := Z.to_nat name_len_ in
  let buf := if negb (name_len_ =? 0) then take n name_ ++ drop n (name client) else name client in
  client <| name := <[n := 0]> buf |> <| identified := true |>.

(** [src/src/libs/ClientTable.cpp:16-16] multiclient::record_heartbeat *)
Definition record_heartbeat (client : Client) (now_us : Z) : Client :=
  client <| last_heartbeat_us := now_us |>.

(** [src/src/libs/ClientTable.cpp:18-23] multiclient::client_is_old *)
Definition client_is_old (client : Client) (now_us : Z) : bool :=
  if identified client || hello_held client then false
  else if negb (hello_window_started client) then false
  else hello_window_us <=? s32 (u32 (now_us - hello_window_start_us client)).

(** [src/src/libs/ClientTable.cpp:25-27] multiclient::restart_hello_window *)
Definition restart_hello_window (client : Client) (now_us : Z) : Client :=
  if hello_window_started client then client <| hello_window_start_us := now_us |> else client.

(** [src/src/libs/ClientTable.cpp:29-33] multiclient::usb_session_expired *)
Definition usb_session_expired (hello_window_started_ : bool) (now_us last_activity_us : Z) : bool :=
  if negb hello_window_started_ then false
  else usb_idle_timeout_us <=? s32 (u32 (now_us - last_activity_us)).

(** [src/src/libs/ClientTable.h:280-280] multiclient::max_wifi_clients *)
Definition max_wifi_clients : Z := 3.

(** [src/src/libs/ClientTable.h:391-394] multiclient::ClientTable::Slot *)
Record Slot := mk_slot { in_use : bool; client : Client }.
#[export] Instance eta_Slot : Eta Slot := fun s => mk_slot (in_use s) (client s).
Definition empty_slot : Slot := mk_slot false no_client.
#[export] Instance slot_inhabited : Inhabited Slot := populate empty_slot.

(** [wifi_] has [max_wifi_clients] elements.
    [src/src/libs/ClientTable.h:287-398] multiclient::ClientTable *)
Record ClientTable := mk_table { wifi_ : list Slot; usb_ : Slot }.
#[export] Instance eta_ClientTable : Eta ClientTable := fun t => mk_table (wifi_ t) (usb_ t).

(** [src/src/libs/ClientTable.h:289-289] multiclient::ClientTable::ClientTable *)
Definition new_table : ClientTable := mk_table (repeat empty_slot (Z.to_nat max_wifi_clients)) empty_slot.

(** The common loop: the first slot, from [i] on, that [p] accepts, or -1. *)
Fixpoint find_slot (p : Z -> Slot -> bool) (i : Z) (slots : list Slot) : Z :=
  match slots with
  | [] => -1
  | s :: rest => if p i s then i else find_slot p (i + 1) rest
  end.

(** [src/src/libs/ClientTable.cpp:35-40] multiclient::ClientTable::find_wifi *)
Definition find_wifi (t : ClientTable) (a : Address) : Z :=
  find_slot (fun _ s => in_use s && same_address (address (client s)) a) 0 (wifi_ t).

(** The client [add_wifi] puts in the slot.
    [src/src/libs/ClientTable.cpp:48-59] multiclient::ClientTable::add_wifi *)
Definition fresh_wifi (a : Address) (now_us : Z) : Client :=
  no_client <| link := link_wifi |> <| address := a |> <| last_user_us := now_us |>
    <| last_heartbeat_us := now_us |> <| hello_window_started := true |> <| hello_window_start_us := now_us |>.

(** [src/src/libs/ClientTable.cpp:42-63] multiclient::ClientTable::add_wifi *)
Definition add_wifi (t : ClientTable) (a : Address) (now_us : Z) : ClientTable * Z :=
  let existing := find_wifi t a in
  if 0 <=? existing then (t, existing)
  else
    let i := find_slot (fun _ s => negb (in_use s)) 0 (wifi_ t) in
    if i =? -1 then (t, -1)
    else (t <| wifi_ := <[Z.to_nat i := mk_slot true (fresh_wifi a now_us)]> (wifi_ t) |>, i).

(** The guard [remove_wifi] and [wifi_at] share.
    [src/src/libs/ClientTable.cpp:101-101] multiclient::ClientTable::wifi_at *)
Definition valid_index (t : ClientTable) (index : Z) : bool :=
  negb ((index <? 0) || (max_wifi_clients <=? index) || negb (in_use (wifi_ t !!! Z.to_nat index))).

(** [src/src/libs/ClientTable.cpp:94-98] multiclient::ClientTable::remove_wifi *)
Definition remove_wifi (t : ClientTable) (index : Z) : ClientTable * bool :=
  if negb (valid_index t index) then (t, false)
  else (t <| wifi_ := <[Z.to_nat index := empty_slot]> (wifi_ t) |>, true).

(** [src/src/libs/ClientTable.cpp:105-108] multiclient::ClientTable::wifi_at *)
Definition wifi_at (t : ClientTable) (index : Z) : option Client :=
  if negb (valid_index t index) then None else Some (client (wifi_ t !!! Z.to_nat index)).

(** Writing through the pointer the non-const [wifi_at] returns.
    [src/src/libs/ClientTable.cpp:100-103] multiclient::ClientTable::wifi_at *)
Definition update_wifi (t : ClientTable) (index : Z) (f : Client -> Client) : ClientTable :=
  if negb (valid_index t index) then t
  else t <| wifi_ := alter (fun s => s <| client := f (client s) |>) (Z.to_nat index) (wifi_ t) |>.

(** [src/src/libs/ClientTable.cpp:110-116] multiclient::ClientTable::wifi_count *)
Definition wifi_count (t : ClientTable) : Z :=
  fold_left (fun count s => if in_use s then count + 1 else count) (wifi_ t) 0.

(** [src/src/libs/ClientTable.cpp:118-120] multiclient::ClientTable::clear_wifi *)
Definition clear_wifi (t : ClientTable) : ClientTable := t <| wifi_ := map (fun _ => empty_slot) (wifi_ t) |>.

(** [src/src/libs/ClientTable.cpp:122-133] multiclient::ClientTable::set_usb_present *)
Definition set_usb_present (t : ClientTable) (present : bool) (now_us : Z) : ClientTable :=
  if negb present then t <| usb_ := empty_slot |>
  else if in_use (usb_ t) then t
  else t <| usb_ := mk_slot true (no_client <| link := link_usb |> <| last_user_us := now_us |>
                                           <| last_heartbeat_us := now_us |>) |>.

(** [src/src/libs/ClientTable.cpp:135-137] multiclient::ClientTable::usb *)
Definition usb (t : ClientTable) : option Client := if in_use (usb_ t) then Some (client (usb_ t)) else None.
(** Writing through the pointer the non-const [usb] returns.
    [src/src/libs/ClientTable.cpp:135-135] multiclient::ClientTable::usb *)
Definition update_usb (t : ClientTable) (f : Client -> Client) : ClientTable :=
  if in_use (usb_ t) then t <| usb_ := (usb_ t) <| client := f (client (usb_ t)) |> |> else t.

(** [src/src/libs/ClientTable.cpp:139-143] multiclient::ClientTable::start_usb_hello_window *)
Definition start_usb_hello_window (t : ClientTable) (now_us : Z) : ClientTable :=
  if negb (in_use (usb_ t)) || hello_window_started (client (usb_ t)) then t
  else t <| usb_ := (usb_ t) <| client := (client (usb_ t)) <| hello_window_started := true |>
                                                            <| hello_window_start_us := now_us |> |> |>.

(** [src/src/libs/ClientTable.cpp:145-149] multiclient::ClientTable::clear_usb_identity *)
Definition clear_usb_identity (t : ClientTable) : ClientTable :=
  if negb (in_use (usb_ t)) then t
  else t <| usb_ := (usb_ t) <| client := no_client <| link := link_usb |> |> |>.

(** [src/src/libs/ClientTable.cpp:151-155] multiclient::ClientTable::present_count *)
Definition present_count (t : ClientTable) : Z :=
  let count := wifi_count t in
  if in_use (usb_ t) && hello_window_started (client (usb_ t)) then count + 1 else count.

(** [src/src/libs/ClientTable.cpp:157-163] multiclient::ClientTable::find_wifi_by_id *)
Definition find_wifi_by_id (t : ClientTable) (id_ except_index : Z) : Z :=
  find_slot (fun i s => negb ((i =? except_index) || negb (in_use s))
                        && (identified (client s) && (id (client s) =? id_))) 0 (wifi_ t).

(** [src/src/libs/ClientTable.cpp:165-167] multiclient::ClientTable::usb_has_id *)
Definition usb_has_id (t : ClientTable) (id_ : Z) : bool :=
  in_use (usb_ t) && identified (client (usb_ t)) && (id (client (usb_ t)) =? id_).

(** Some WiFi slot satisfies [p]: the loops that return true at the first. *)
Definition any_slot (p : Z -> Slot -> bool) (t : ClientTable) : bool := negb (find_slot p 0 (wifi_ t) =? -1).

(** [src/src/libs/ClientTable.cpp:169-176] multiclient::ClientTable::has_old_client *)
Definition has_old_client (t : ClientTable) (now_us except_wifi_index : Z) (exclude_usb : bool) : bool :=
  if any_slot (fun i s => negb ((i =? except_wifi_index) || negb (in_use s)) && client_is_old (client s) now_us) t
  then true
  else if exclude_usb then false
  else in_use (usb_ t) && client_is_old (client (usb_ t)) now_us.

(** [src/src/libs/ClientTable.cpp:178-183] multiclient::ClientTable::any_identified_present *)
Definition any_identified_present (t : ClientTable) : bool :=
  any_slot (fun _ s => in_use s && identified (client s)) t || in_use (usb_ t) && identified (client (usb_ t)).

(** [src/src/libs/ClientTable.cpp:190-190] multiclient::usb_slot_index *)
Definition usb_slot_index : Z := -1.
(** [src/src/libs/ClientTable.cpp:196-199] multiclient::admitted_before *)
Definition admitted_before (ts_a slot_a ts_b slot_b : Z) : bool :=
  if negb (ts_a =? ts_b) then before ts_a ts_b else slot_a <? slot_b.

(** [src/src/libs/ClientTable.cpp:203-220] multiclient::ClientTable::is_earliest_present *)
Definition is_earliest_present (t : ClientTable) (wifi_index : Z) : bool :=
  match wifi_at t wifi_index with
  | None => false
  | Some candidate =>
      if any_slot (fun i s => negb ((i =? wifi_index) || negb (in_use s))
                    && admitted_before (hello_window_start_us (client s)) i
                         (hello_window_start_us candidate) wifi_index) t
      then false
      else negb (in_use (usb_ t) && hello_window_started (client (usb_ t))
                 && admitted_before (hello_window_start_us (client (usb_ t))) usb_slot_index
                      (hello_window_start_us candidate) wifi_index)
  end.

(** [src/src/libs/ClientTable.cpp:227-230] multiclient::is_transfer_owner *)
Definition is_transfer_owner (t : ClientTable) (client_index : Z) (sender : Address) : bool :=
  match wifi_at t client_index with
  | None => false
  | Some owner => same_address (address owner) sender
  end.

(** [src/src/libs/ClientTable.cpp:232-240] multiclient::transfer_owner_connected *)
Definition transfer_owner_connected (t : ClientTable) (owner_index : Z) (connected : list Address) : bool :=
  match wifi_at t owner_index with
  | None => false
  | Some owner =>
      if sends_show_client_gone owner then false
      else existsb (fun a => same_address (address owner) a) connected
  end.

(** ** The slots *)
Lemma find_slot_spec p i l :
  0 <= i ->
  (exists k s, find_slot p i l = i + Z.of_nat k /\ l !! k = Some s /\ p (i + Z.of_nat k) s = true /\
     forall j s', (j < k)%nat -> l !! j = Some s' -> p (i + Z.of_nat j) s' = false) \/
  (find_slot p i l = -1 /\ forall j s', l !! j = Some s' -> p (i + Z.of_nat j) s' = false).
Proof.
  revert i. induction l as [|s l IH]; intros i Hi; cbn [find_slot]; [by right|].
  destruct (p i s) eqn:Hp.
  { left. exists 0%nat, s. rewrite Z.add_0_r. split; [done|]. split; [done|]. split; [done|lia]. }
  destruct (IH (i + 1)) as [(k & s' & Hf & Hk & Hpk & Hmin)|[Hf Hall]]; [lia| |].
  - left. exists (S k), s'. replace (i + Z.of_nat (S k)) with (i + 1 + Z.of_nat k) by lia.
    split; [done|]. split; [done|]. split; [done|]. intros [|j] s2 Hj Hl.
    + cbn in Hl. simplify_eq. by rewrite Z.add_0_r.
    + replace (i + Z.of_nat (S j)) with (i + 1 + Z.of_nat j) by lia. apply Hmin; [lia|done].
  - right. split; [done|]. intros [|j] s2 Hl.
    + cbn in Hl. simplify_eq. by rewrite Z.add_0_r.
    + replace (i + Z.of_nat (S j)) with (i + 1 + Z.of_nat j) by lia. by apply Hall.
Qed.

Lemma any_slot_spec p t :
  any_slot p t = true <-> exists k s, wifi_ t !! k = Some s /\ p (Z.of_nat k) s = true.
Proof.
  unfold any_slot. destruct (find_slot_spec p 0 (wifi_ t)) as [(k & s & -> & Hk & Hp & _)|[-> Hall]]; [lia| |].
  - rewrite negb_true_iff, Z.eqb_neq. split; [|lia]. intros _. by exists k, s.
  - cbn. split; [done|]. intros (k & s & Hk & Hp). specialize (Hall k s Hk). rewrite Z.add_0_l in Hall. congruence.
Qed.

Lemma same_address_spec a b : same_address a b = true <-> a = b.
Proof.
  destruct a as [[[[a0 a1] a2] a3] pa], b as [[[[b0 b1] b2] b3] pb]. unfold same_address. cbn.
  rewrite !andb_true_iff, !Z.eqb_eq. split; [intros [[[[-> ->] ->] ->] ->]; done|]. intros [=]; subst. auto.
Qed.

Definition slot_at (t : ClientTable) (i : nat) (c : Client) : Prop := wifi_ t !! i = Some (mk_slot true c).

Lemma slot_at_in_use t i s : wifi_ t !! i = Some s -> in_use s = true -> slot_at t i (client s).
Proof. destruct s as [u c]. unfold slot_at. cbn. by intros -> ->. Qed.

(** ** The table's invariant *)
Record client_ok (c : Client) : Prop := {
  co_name : length (name c) = Z.to_nat (max_name_length + 1);
  co_len : 0 <= name_len c <= max_name_length;
  co_nul : name c !! Z.to_nat (name_len c) = Some 0;
  co_failures : 0 <= consecutive_send_failures c <= 0xFF
}.

Record table_ok (t : ClientTable) : Prop := {
  to_length : length (wifi_ t) = Z.to_nat max_wifi_clients;
  to_wifi i c : slot_at t i c -> link c = link_wifi /\ hello_window_started c = true /\ client_ok c;
  to_distinct i j c c' : slot_at t i c -> slot_at t j c' -> address c = address c' -> i = j;
  to_usb : in_use (usb_ t) = true -> link (client (usb_ t)) = link_usb /\ client_ok (client (usb_ t))
}.

(** What other code does to a client through the pointers it is given. *)
Inductive client_op : (Client -> Client) -> Prop :=
| op_identify id_ name_ len : is_u8 len -> (Z.to_nat len <= length name_)%nat ->
    client_op (fun c => set_identity c id_ name_ len)
| op_heartbeat now : client_op (fun c => record_heartbeat c now)
| op_send ok err : client_op (fun c => note_send_result c ok err)
| op_restart now : client_op (fun c => restart_hello_window c now)
| op_user now : client_op (fun c => c <| last_user_us := now |>)
| op_features v : client_op (fun c => c <| features := v |>)
| op_job_start v : client_op (fun c => c <| job_start_ready := v |>)
| op_held v : client_op (fun c => c <| hello_held := v |>)
| op_launch h v : client_op (fun c => c <| has_launch := h |> <| launch := v |>).

Inductive table_step : ClientTable -> ClientTable -> Prop :=
| step_add t a now : table_step t (add_wifi t a now).1
| step_remove t i : table_step t (remove_wifi t i).1
| step_clear t : table_step t (clear_wifi t)
| step_usb t p now : table_step t (set_usb_present t p now)
| step_usb_start t now : table_step t (start_usb_hello_window t now)
| step_usb_clear t : table_step t (clear_usb_identity t)
| step_wifi_client t i f : client_op f -> table_step t (update_wifi t i f)
| step_usb_client t f : client_op f -> table_step t (update_usb t f).

Lemma no_client_ok : client_ok no_client.
Proof. by split. Qed.

Lemma set_identity_ok c id_ name_ len :
  client_ok c -> is_u8 len -> (Z.to_nat len <= length name_)%nat -> client_ok (set_identity c id_ name_ len).
Proof.
  intros [Hn Hl Hz Hf] Hu Hs. unfold set_identity. cbv zeta.
  set (n := if max_name_length <? len then max_name_length else len).
  assert (0 <= n <= max_name_length /\ n <= len) as [Hr Hle].
  { subst n. unfold max_name_length in *. unfold is_uint in Hu. destruct (Z.ltb_spec 31 len); lia. }
  clearbody n. recs.
  set (buf := if negb (n =? 0) then _ else _).
  assert (length buf = Z.to_nat (max_name_length + 1)) as Hb.
  { subst buf. destruct (negb _); [|done]. rewrite length_app, length_take, length_drop, Hn. lia. }
  split; recs; try done; [by rewrite length_insert|]. apply list_lookup_insert_eq. lia.
Qed.

Lemma client_op_keeps f c :
  client_op f -> client_ok c ->
  client_ok (f c) /\ link (f c) = link c /\ address (f c) = address c /\
  hello_window_started (f c) = hello_window_started c.
Proof.
  intros Hf Hc. split.
  - destruct Hf; try (by destruct Hc; split); [by apply set_identity_ok| |].
    + destruct Hc as [? ? ? Hk]. unfold note_send_result. destruct ok; [by split|].
      destruct (send_error_means_client_gone _); [by split|].
      destruct (Z.ltb_spec (consecutive_send_failures c) 0xFF); [|by split].
      split; recs; try done. rewrite wrap_small by ints. lia.
    + unfold restart_hello_window. destruct (hello_window_started c); by destruct Hc; split.
  - destruct Hf; try done.
    + unfold note_send_result. by repeat case_match.
    + unfold restart_hello_window. by repeat case_match.
Qed.

(** A change of the slots that keeps the addresses in use among the old ones. *)
Lemma table_ok_wifi t l :
  table_ok t -> length l = length (wifi_ t) ->
  (forall i c, l !! i = Some (mk_slot true c) ->
     link c = link_wifi /\ hello_window_started c = true /\ client_ok c /\
     exists c', slot_at t i c' /\ address c' = address c) ->
  table_ok (t <| wifi_ := l |>).
Proof.
  intros [H1 H2 H3 H4] Hl Hs. split; recs; [congruence| | |done].
  - intros i c Hi. destruct (Hs i c Hi) as (? & ? & ? & _). done.
  - intros i j c c' Hi Hj Ha. destruct (Hs i c Hi) as (_ & _ & _ & d & Hd & Had).
    destruct (Hs j c' Hj) as (_ & _ & _ & d' & Hd' & Had'). apply (H3 i j d d'); congruence.
Qed.
Lemma table_ok_usb t s :
  table_ok t -> (in_use s = true -> link (client s) = link_usb /\ client_ok (client s)) ->
  table_ok (t <| usb_ := s |>).
Proof. intros [H1 H2 H3 H4] Hs. by split. Qed.
Lemma table_ok_same t i c : table_ok t -> slot_at t i c ->
  link c = link_wifi /\ hello_window_started c = true /\ client_ok c /\
     exists c', slot_at t i c' /\ address c' = address c.
Proof. intros Ht Hs. destruct (to_wifi t Ht i c Hs) as (? & ? & ?). eauto 10. Qed.

Lemma find_wifi_none t a i c : find_wifi t a < 0 -> slot_at t i c -> address c <> a.
Proof.
  unfold find_wifi. destruct (find_slot_spec (fun _ s => in_use s && same_address (address (client s)) a) 0 (wifi_ t))
    as [(k & s & -> & _)|[-> Hall]]; [lia|lia|].
  intros _ Hi Heq. specialize (Hall i _ Hi). cbn in Hall.
  rewrite (proj2 (same_address_spec _ _) Heq) in Hall. done.
Qed.

Lemma add_wifi_keeps t a now : table_ok t -> table_ok (add_wifi t a now).1.
Proof.
  intros Ht. unfold add_wifi. destruct (Z.leb_spec 0 (find_wifi t a)); [done|].
  destruct (find_slot_spec (fun _ s => negb (in_use s)) 0 (wifi_ t)) as [(k & s & -> & Hk & Hu & _)|[-> _]];
    [lia| |done].
  rewrite !Z.add_0_l, (proj2 (Z.eqb_neq _ (-1))) by lia. cbn [fst]. rewrite Nat2Z.id.
  apply negb_true_iff in Hu. pose proof (lookup_lt_Some _ _ _ Hk) as Hlt. pose proof Ht as [H1 H2 H3 H4].
  assert (forall i c, slot_at (t <| wifi_ := <[k:=mk_slot true (fresh_wifi a now)]> (wifi_ t) |>) i c ->
            i = k /\ c = fresh_wifi a now \/ i <> k /\ slot_at t i c) as Hcases.
  { unfold slot_at. recs. intros i c. destruct (decide (k = i)) as [<-|Hne].
    - rewrite list_lookup_insert_eq by done. intros [= <-]. by left.
    - rewrite list_lookup_insert_ne by done. right. auto. }
  split; recs; [by rewrite length_insert| | |done].
  - intros i c [[-> ->]|[_ Hi]]%Hcases; [|eauto]. by repeat split.
  - intros i j c c' [[-> ->]|[Hik Hi]]%Hcases [[-> ->]|[Hjk Hj]]%Hcases Ha; [done| | |eauto].
    + exfalso. by apply (find_wifi_none t a j c').
    + exfalso. by apply (find_wifi_none t a i c).
Qed.

Lemma alter_slot t i f :
  table_ok t -> client_op f ->
  table_ok (t <| wifi_ := alter (fun s => s <| client := f (client s) |>) i (wifi_ t) |>).
Proof.
  intros Ht Hf. apply table_ok_wifi; [done|by rewrite length_alter|].
  intros j c Hj. destruct (decide (i = j)) as [<-|Hne].
  - rewrite list_lookup_alter_eq in Hj. apply fmap_Some in Hj as ([u c0] & Hj & Hs).
    unfold set_field in Hs. cbn in Hs. injection Hs as <- ->.
    destruct (to_wifi t Ht i c0 Hj) as (Hl & Hw & Hc).
    destruct (client_op_keeps f c0 Hf Hc) as (? & -> & -> & ->). eauto 10.
  - rewrite list_lookup_alter_ne in Hj by done. by apply (table_ok_same t j c).
Qed.

Lemma step_keeps t t' : table_ok t -> table_step t t' -> table_ok t'.
Proof.
  intros Ht Hstep. destruct Hstep as [t a now|t i|t|t p now|t now|t|t i f Hf|t f Hf].
  - by apply add_wifi_keeps.
  - unfold remove_wifi. destruct (negb _); [done|]. cbn [fst]. apply table_ok_wifi; [done|by rewrite length_insert|].
    intros j c Hj. destruct (decide (Z.to_nat i = j)) as [<-|Hne].
    + assert (Z.to_nat i < length (wifi_ t))%nat.
      { apply lookup_lt_Some in Hj. by rewrite length_insert in Hj. }
      by rewrite list_lookup_insert_eq in Hj.
    + rewrite list_lookup_insert_ne in Hj by done. by apply (table_ok_same t j c).
  - apply table_ok_wifi; [done|by rewrite length_map|]. intros j c Hj.
    change (map ?f ?l) with (f <$> l) in Hj. rewrite list_lookup_fmap in Hj.
    by apply fmap_Some in Hj as (? & _ & ?).
  - unfold set_usb_present. destruct p; cbn [negb]; [|by apply table_ok_usb].
    destruct (in_use (usb_ t)) eqn:Hu; [done|]. by apply table_ok_usb.
  - unfold start_usb_hello_window. destruct (negb _ || _); [done|]. apply table_ok_usb; [done|].
    intros Hu. destruct (to_usb t Ht Hu) as [? []]. recs. split; [done|]. by split.
  - unfold clear_usb_identity. destruct (negb _); [done|]. by apply table_ok_usb.
  - unfold update_wifi. destruct (negb _); [done|]. by apply alter_slot.
  - unfold update_usb. destruct (in_use (usb_ t)) eqn:Hu; [|done]. apply table_ok_usb; [done|].
    intros _. destruct (to_usb t Ht Hu) as [? Hc]. recs.
    destruct (client_op_keeps f _ Hf Hc) as (? & -> & _). done.
Qed.

Lemma new_table_ok : table_ok new_table.
Proof.
  assert (forall i c, ~ slot_at new_table i c) as Hno.
  { intros [|[|[|[|i]]]] c Hi; done. }
  split; [done| | |done]; intros; exfalso; eapply Hno; eauto.
Qed.

(** Whatever sequence of the table's operations, and of the writes other
    code makes through its pointers, has run: there are exactly three WiFi
    slots, no two clients in them share an address, every name is NUL-terminated
    inside its array, and every client's failure count is within its byte. *)
Theorem table_invariant t : star table_step new_table t -> table_ok t.
Proof.
  intros Hs. eapply star_invariant; [|exact Hs|apply new_table_ok]. eauto using step_keeps.
Qed.
Lemma table_invariant_witness : table_ok (add_wifi new_table (mk_address (10, 0, 0, 7) 2222) 5).1.
Proof. apply table_invariant, star_one. constructor. Defined.

(** ** Admission *)
Lemma in_use_count l n :
  fold_left (fun count s => if in_use s then count + 1 else count) l n
  = n + Z.of_nat (length (filter (fun s => in_use s = true) l)).
Proof.
  revert n. induction l as [|s l IH]; intros n; cbn [fold_left]; [cbn; lia|].
  rewrite IH, filter_cons. destruct (in_use s); cbn [length].
  - rewrite decide_True by done. cbn [length]. lia.
  - rewrite decide_False by done. lia.
Qed.

Lemma wifi_count_full t :
  table_ok t -> (wifi_count t = max_wifi_clients <-> forall i s, wifi_ t !! i = Some s -> in_use s = true).
Proof.
  intros Ht. unfold wifi_count. rewrite in_use_count, Z.add_0_l.
  pose proof (to_length t Ht) as Hl. unfold max_wifi_clients in *.
  change (Z.to_nat 3) with 3%nat in Hl. destruct (wifi_ t) as [|s0 [|s1 [|s2 [|]]]]; try done. clear.
  rewrite !filter_cons. split.
  - intros Hc i s Hi. destruct (in_use s0) eqn:?, (in_use s1) eqn:?, (in_use s2) eqn:?; lazy in Hc; try discriminate Hc.
    destruct i as [|[|[|i]]]; cbn in Hi; try congruence; by destruct i.
  - intros Hall. rewrite (Hall 0%nat s0), (Hall 1%nat s1), (Hall 2%nat s2) by done. done.
Qed.

(** [add_wifi] refuses a client only when three others are connected; it
    never evicts one and never makes a second entry for an address; an admitted
    client starts unidentified with its hello window running. *)
Theorem add_wifi_spec t a now :
  table_ok t ->
  let '(t', i) := add_wifi t a now in
  (i = -1 <-> wifi_count t = max_wifi_clients /\ forall k c, slot_at t k c -> address c <> a) /\
  (i = -1 -> t' = t) /\
  (i <> -1 -> exists c, wifi_at t' i = Some c /\ address c = a /\ find_wifi t' a = i /\
     (slot_at t (Z.to_nat i) c \/ c = fresh_wifi a now /\ find_wifi t a = -1)) /\
  (forall k c, slot_at t k c -> slot_at t' k c) /\ usb_ t' = usb_ t.
Proof.
  intros Ht. pose proof (to_length t Ht) as Hlen. change (Z.to_nat max_wifi_clients) with 3%nat in Hlen.
  assert (forall t' k c, (k < 3)%nat -> slot_at t' k c -> wifi_at t' (Z.of_nat k) = Some c) as Hat.
  { intros t' k c Hk Hs. unfold wifi_at, valid_index. rewrite Nat2Z.id.
    rewrite (list_lookup_total_correct _ _ _ Hs). cbn [in_use client negb]. unfold max_wifi_clients.
    rewrite (proj2 (Z.ltb_ge _ 0)), (proj2 (Z.leb_gt _ _)) by lia. done. }
  assert (forall t' k c, table_ok t' -> slot_at t' k c -> address c = a -> find_wifi t' a = Z.of_nat k) as Hfind.
  { intros t' k c Ht' Hs Ha. unfold find_wifi.
    destruct (find_slot_spec (fun _ s => in_use s && same_address (address (client s)) a) 0 (wifi_ t'))
      as [(k' & s & -> & Hk' & Hp & _)|[-> Hall]]; [lia| |].
    - apply andb_true_iff in Hp as [Hu Hp%same_address_spec].
      rewrite Z.add_0_l, (to_distinct t' Ht' k' k (client s) c); [done|by apply slot_at_in_use|done|congruence].
    - specialize (Hall k _ Hs). cbn in Hall. by rewrite (proj2 (same_address_spec _ _) Ha) in Hall. }
  pose proof (add_wifi_keeps t a now Ht) as Hok. revert Hok.
  unfold add_wifi. destruct (Z.leb_spec 0 (find_wifi t a)) as [Hex|Hex]; cbn [fst].
  - intros _. unfold find_wifi in *.
    destruct (find_slot_spec (fun _ s => in_use s && same_address (address (client s)) a) 0 (wifi_ t))
      as [(k & s & Hf & Hk & Hp & _)|[Hf _]]; [lia| |lia].
    rewrite Z.add_0_l in Hf. rewrite Hf. apply andb_true_iff in Hp as [Hu Hp%same_address_spec].
    pose proof (slot_at_in_use _ _ _ Hk Hu) as Hs. pose proof (lookup_lt_Some _ _ _ Hk) as Hlt.
    split. { split; [lia|]. intros [_ Hno]. by destruct (Hno k _ Hs). }
    split; [lia|]. split; [|done]. intros _. exists (client s).
    split; [by apply Hat; [lia|]|].
    split; [done|]. rewrite Nat2Z.id. split; [done|by left].
  - pose proof (find_slot_spec (fun _ s => in_use s && same_address (address (client s)) a) 0 (wifi_ t)) as Hfw.
    fold (find_wifi t a) in Hfw. assert (find_wifi t a = -1) as Hm1.
    { destruct Hfw as [(k & s & Hf & _)|[Hf _]]; lia. } clear Hfw.
    destruct (find_slot_spec (fun _ s => negb (in_use s)) 0 (wifi_ t)) as [(k & s & -> & Hk & Hu & _)|[-> Hall]];
      [lia| |].
    + rewrite !Z.add_0_l. rewrite (proj2 (Z.eqb_neq (Z.of_nat k) (-1))) by lia. cbn [fst].
      rewrite !Nat2Z.id. intros Hok.
      apply negb_true_iff in Hu. pose proof (lookup_lt_Some _ _ _ Hk) as Hlt.
      assert (slot_at (t <| wifi_ := <[k:=mk_slot true (fresh_wifi a now)]> (wifi_ t) |>) k (fresh_wifi a now)) as Hs.
      { unfold slot_at. recs. by rewrite list_lookup_insert_eq. }
      split. { split; [lia|]. intros [Hc _]. rewrite (proj1 (wifi_count_full t Ht) Hc k s Hk) in Hu. done. }
      split; [lia|]. split.
      * intros _. exists (fresh_wifi a now).
        split; [apply Hat; [lia|done]|]. split; [done|].
        split; [by apply (Hfind _ k (fresh_wifi a now))|by right].
      * split; [|done]. intros k' c Hc. unfold slot_at in *. recs. rewrite list_lookup_insert_ne; [done|].
        intros <-. rewrite Hc in Hk. by injection Hk as <-.
    + intros _. rewrite Z.eqb_refl. split.
      { split; [|done]. intros _. split.
        - apply wifi_count_full; [done|]. intros i s Hi. specialize (Hall i s Hi). by apply negb_false_iff in Hall.
        - intros k c Hs. apply (find_wifi_none t a k c); [lia|done]. }
      split; [done|]. split; [done|]. by split.
Qed.
Lemma add_wifi_spec_witness :
  let a := mk_address (10, 0, 0, 7) 2222 in
  let '(t', i) := add_wifi new_table a 5 in
  (i <> -1 -> exists c, wifi_at t' i = Some c /\ address c = a /\ find_wifi t' a = i /\
     (slot_at new_table (Z.to_nat i) c \/ c = fresh_wifi a 5 /\ find_wifi new_table a = -1)).
Proof. exact (proj1 (proj2 (proj2 (add_wifi_spec new_table (mk_address (10, 0, 0, 7) 2222) 5 new_table_ok)))). Defined.

(** ** The old-client rule: who came first *)
(** Client [i] (USB is [usb_slot_index]) is present and its window began at [ts]. *)
Inductive present_at (t : ClientTable) : Z -> Z -> Prop :=
| pa_wifi k c : slot_at t k c -> present_at t (Z.of_nat k) (hello_window_start_us c)
| pa_usb : in_use (usb_ t) = true -> hello_window_started (client (usb_ t)) = true ->
    present_at t usb_slot_index (hello_window_start_us (client (usb_ t))).

(** [is_earliest_present], and the same question for the USB entry. *)
Definition earliest_at (t : ClientTable) (i : Z) : Prop :=
  is_earliest_present t i = true \/
  i = usb_slot_index /\ present_at t i (hello_window_start_us (client (usb_ t))) /\
  forall k c, slot_at t k c ->
    admitted_before (hello_window_start_us c) (Z.of_nat k) (hello_window_start_us (client (usb_ t))) i = false.

Lemma wifi_at_spec t i c :
  table_ok t -> wifi_at t i = Some c <-> exists k, i = Z.of_nat k /\ slot_at t k c.
Proof.
  intros Ht. pose proof (to_length t Ht) as Hlen. change (Z.to_nat max_wifi_clients) with 3%nat in Hlen.
  unfold wifi_at, valid_index, max_wifi_clients. split.
  - destruct (Z.ltb_spec i 0), (Z.leb_spec 3 i); cbn [orb negb]; try done.
    rewrite negb_involutive. destruct (in_use _) eqn:Hu; cbn [negb]; [|done]. intros [= <-].
    exists (Z.to_nat i). split; [lia|]. apply slot_at_in_use; [|done].
    apply list_lookup_lookup_total_lt. lia.
  - intros (k & -> & Hs). pose proof (lookup_lt_Some _ _ _ Hs).
    rewrite (proj2 (Z.ltb_ge _ 0)), (proj2 (Z.leb_gt 3 _)), Nat2Z.id by lia.
    by rewrite (list_lookup_total_correct _ _ _ Hs).
Qed.

Lemma is_earliest_spec t i :
  table_ok t -> is_earliest_present t i = true <->
  0 <= i /\ exists ts, present_at t i ts /\
    forall j ts', present_at t j ts' -> j <> i -> admitted_before ts' j ts i = false.
Proof.
  intros Ht. unfold is_earliest_present. destruct (wifi_at t i) as [c|] eqn:Hat.
  2: { split; [done|]. intros (H0 & ts & Hp & _). destruct Hp as [k c Hs|]; [|done].
       rewrite (proj2 (wifi_at_spec t _ c Ht)) in Hat; [done|eauto]. }
  pose proof (proj1 (wifi_at_spec t i c Ht) Hat) as (k & -> & Hs).
  destruct (any_slot _ t) eqn:Hany.
  - apply any_slot_spec in Hany as (j & [u cj] & Hj & Hb). cbn in Hb.
    apply andb_true_iff in Hb as [Hb1 Hb2]. apply negb_true_iff, orb_false_iff in Hb1 as [Hne Hu].
    apply negb_false_iff in Hu. apply Z.eqb_neq in Hne. rewrite Hu in Hj.
    split; [done|]. intros (_ & ts & Hp & Hall). inversion Hp as [k' c' Hs' Hk|? ? Hk]; [|unfold usb_slot_index in Hk; lia].
    subst. apply Nat2Z.inj in Hk as ->. unfold slot_at in *. simplify_eq.
    by rewrite (Hall (Z.of_nat j) _ (pa_wifi t j cj Hj) Hne) in Hb2.
  - assert (forall j cj, slot_at t j cj -> Z.of_nat j <> Z.of_nat k ->
        admitted_before (hello_window_start_us cj) (Z.of_nat j) (hello_window_start_us c) (Z.of_nat k) = false) as Hw.
    { intros j cj Hj Hne. apply not_true_is_false. intros Hb. apply not_true_iff_false in Hany. apply Hany.
      apply any_slot_spec. exists j, (mk_slot true cj). split; [done|]. cbn. rewrite Hb.
      by rewrite (proj2 (Z.eqb_neq _ _) Hne). }
    rewrite negb_true_iff. split.
    + intros Hu. split; [lia|]. exists (hello_window_start_us c). split; [by constructor|].
      intros j ts' Hp Hne. destruct Hp as [j cj Hj|Hu1 Hu2]; [by apply Hw|]. by rewrite Hu1, Hu2 in Hu.
    + intros (_ & ts & Hp & Hall). destruct (in_use (usb_ t)) eqn:Hu1; [|done].
      destruct (hello_window_started (client (usb_ t))) eqn:Hu2; [|done]. cbn [andb].
      inversion Hp as [k' c' Hs' Hk|? ? Hk]; [|unfold usb_slot_index in Hk; lia].
      subst. apply Nat2Z.inj in Hk as ->. unfold slot_at in *. simplify_eq.
      apply Hall; [by constructor|unfold usb_slot_index; lia].
Qed.

(** Among timestamps less than half the counter apart, [admitted_before] is the
    order of (time since the first, slot). *)
Definition since (base ts : Z) : Z := u32 (ts - base).
Definition in_half_range (base ts : Z) : Prop := is_u32 ts /\ since base ts < 2 ^ 31.
Definition rank (base ts slot : Z) : Z := since base ts * 8 + slot + 1.

Lemma before_since base a b :
  in_half_range base a -> in_half_range base b -> before a b = (since base a <? since base b).
Proof.
  unfold in_half_range, before, since. intros [Ha Ha'] [Hb Hb'].
  assert (s32 (u32 (a - b)) = u32 (a - base) - u32 (b - base)) as ->; [ints|].
  destruct (Z.ltb_spec (u32 (a - base) - u32 (b - base)) 0), (Z.ltb_spec (u32 (a - base)) (u32 (b - base))); lia.
Qed.

Lemma admitted_rank base a i b j :
  in_half_range base a -> in_half_range base b -> -1 <= i < 7 -> -1 <= j < 7 ->
  admitted_before a i b j = (rank base a i <? rank base b j).
Proof.
  intros Ha Hb Hi Hj. unfold admitted_before, rank. destruct (Z.eqb_spec a b) as [->|Hne]; cbn [negb].
  - destruct (Z.ltb_spec i j), (Z.ltb_spec (since base b * 8 + i + 1) (since base b * 8 + j + 1)); lia.
  - rewrite (before_since base) by done. assert (since base a <> since base b) as Hs.
    { destruct Ha as [Ha _], Hb as [Hb _]. unfold since. intros Heq. apply Hne. ints. }
    destruct (Z.ltb_spec (since base a) (since base b)),
      (Z.ltb_spec (since base a * 8 + i + 1) (since base b * 8 + j + 1)); lia.
Qed.

Lemma list_least {A} (f : A -> Z) l : l <> [] -> exists x, x ∈ l /\ forall y, y ∈ l -> f x <= f y.
Proof.
  induction l as [|a l IH]; [done|]. intros _. destruct l as [|b l].
  - exists a. split; [left|]. intros y ->%list_elem_of_singleton. lia.
  - destruct IH as (x & Hx & Hmin); [done|]. destruct (Z.le_gt_cases (f a) (f x)).
    + exists a. split; [left|]. intros y [->|Hy]%elem_of_cons; [lia|]. specialize (Hmin y Hy). lia.
    + exists x. split; [by right|]. intros y [->|Hy]%elem_of_cons; [lia|by apply Hmin].
Qed.

Definition present_list (t : ClientTable) : list (Z * Z) :=
  (if in_use (usb_ t) && hello_window_started (client (usb_ t))
   then [(usb_slot_index, hello_window_start_us (client (usb_ t)))] else []) ++
  omap (fun '(k, s) => if in_use s then Some (Z.of_nat k, hello_window_start_us (client s)) else None)
       (zip (seq 0 (length (wifi_ t))) (wifi_ t)).

Lemma present_list_spec t i ts : present_at t i ts <-> (i, ts) ∈ present_list t.
Proof.
  unfold present_list. rewrite elem_of_app, list_elem_of_omap.
  assert (forall k s, (k, s) ∈ zip (seq 0 (length (wifi_ t))) (wifi_ t) <-> wifi_ t !! k = Some s) as Hz.
  { intros k s. rewrite list_elem_of_lookup. split.
    - intros [j Hj]. apply lookup_zip_Some in Hj as [Hj Hs]. apply lookup_seq in Hj as [-> _]. done.
    - intros Hs. exists k. apply lookup_zip_Some. split; [|done]. apply lookup_seq.
      apply lookup_lt_Some in Hs. lia. }
  split.
  - intros [k c Hs|Hu Hw]; [right|left; rewrite Hu, Hw; left].
    exists (k, mk_slot true c). split; [by apply Hz|done].
  - intros [Hu|([k s] & Hk & Hs)].
    + destruct (in_use (usb_ t)) eqn:?, (hello_window_started _) eqn:?; cbn [andb] in Hu;
        try (by apply not_elem_of_nil in Hu). apply list_elem_of_singleton in Hu as [= -> ->]. by constructor.
    + apply Hz in Hk. destruct (in_use s) eqn:Hu; [|done]. simplify_eq. constructor. by apply slot_at_in_use.
Qed.

(** As long as the hello windows of the clients present began less than
    half the counter apart, exactly one client is the earliest, ties and counter
    wrap included: the old-client rule spares one client, never two. *)
Theorem exactly_one_earliest t base :
  table_ok t -> (forall i ts, present_at t i ts -> in_half_range base ts) ->
  (exists i ts, present_at t i ts) ->
  exists i, earliest_at t i /\ forall j, earliest_at t j -> j = i.
Proof.
  intros Ht Hrange Hsome.
  assert (forall i ts, present_at t i ts -> -1 <= i < 7) as Hslot.
  { intros i ts [k c Hs|]; [|unfold usb_slot_index; lia]. apply lookup_lt_Some in Hs. rewrite (to_length t Ht) in Hs.
    unfold max_wifi_clients in Hs. lia. }
  assert (forall i ts ts', present_at t i ts -> present_at t i ts' -> ts = ts') as Hfun.
  { intros i ts ts' Hp. inversion Hp; subst; intros Hp'; inversion Hp'; subst; try (unfold usb_slot_index in *; lia).
    match goal with H : Z.of_nat _ = Z.of_nat _ |- _ => apply Nat2Z.inj in H as -> end.
    unfold slot_at in *. congruence. }
  (* Earliest means of least rank. *)
  assert (forall i, earliest_at t i <->
     exists ts, present_at t i ts /\ forall j ts', present_at t j ts' -> j <> i ->
       rank base ts i <= rank base ts' j) as Hiff.
  { intros i. unfold earliest_at. rewrite (is_earliest_spec t i Ht). split.
    - intros [(H0 & ts & Hp & Hall)|(-> & Hp & Hall)].
      + exists ts. split; [done|]. intros j ts' Hj Hne. specialize (Hall j ts' Hj Hne).
        rewrite (admitted_rank base) in Hall by eauto. lia.
      + eexists. split; [exact Hp|]. intros j ts' Hj Hne. inversion Hj as [k c Hs|]; subst; [|done].
        specialize (Hall k c Hs). rewrite (admitted_rank base) in Hall by eauto. lia.
    - intros (ts & Hp & Hall). assert (forall j ts', present_at t j ts' -> j <> i ->
        admitted_before ts' j ts i = false) as Hb.
      { intros j ts' Hj Hne. rewrite (admitted_rank base) by eauto. specialize (Hall j ts' Hj Hne).
        destruct (Z.ltb_spec (rank base ts' j) (rank base ts i)); lia. }
      destruct Hp as [k c Hs|Hu Hw].
      + left. split; [lia|]. exists (hello_window_start_us c). split; [by constructor|done].
      + right. split; [done|]. split; [by constructor|]. intros k c Hs. apply Hb; [by constructor|].
        unfold usb_slot_index. lia. }
  assert (present_list t <> []) as Hne.
  { destruct Hsome as (i & ts & Hp%present_list_spec). intros Hn. rewrite Hn in Hp. by apply not_elem_of_nil in Hp. }
  destruct (list_least (fun '(i, ts) => rank base ts i) _ Hne) as ([i ts] & Hi & Hmin).
  apply present_list_spec in Hi. exists i. split.
  - apply Hiff. exists ts. split; [done|]. intros j ts' Hj _. by apply (Hmin (j, ts')), present_list_spec.
  - intros j (tsj & Hj & Hall)%Hiff. destruct (decide (j = i)) as [|Hji]; [done|].
    specialize (Hall i ts Hi ltac:(done)). specialize (Hmin (j, tsj) (proj1 (present_list_spec _ _ _) Hj)).
    cbn in Hmin. pose proof (Hslot _ _ Hi). pose proof (Hslot _ _ Hj). unfold rank in *. lia.
Qed.
Lemma exactly_one_earliest_witness :
  let t := (add_wifi (add_wifi new_table (mk_address (10, 0, 0, 7) 1) 4294967290).1 (mk_address (10, 0, 0, 8) 1) 3).1 in
  exists i, earliest_at t i /\ forall j, earliest_at t j -> j = i.
Proof.
  intros t. apply (exactly_one_earliest t 4294967290).
  - apply add_wifi_keeps, add_wifi_keeps, new_table_ok.
  - intros i ts Hp%present_list_spec.
    change (present_list t) with [(0, 4294967290); (1, 3)] in Hp.
    apply elem_of_cons in Hp as [[= -> ->]|[= -> ->]%list_elem_of_singleton]; split; (concrete || done).
  - exists 0, 4294967290. apply (pa_wifi _ 0%nat (fresh_wifi (mk_address (10, 0, 0, 7) 1) 4294967290)). done.
Defined.

(** Past half the counter's range the order is a cycle and no client is the
    earliest: three clients admitted some twenty-four minutes apart. *)
Lemma earliest_cycle :
  let t := (add_wifi (add_wifi (add_wifi new_table (mk_address (10, 0, 0, 7) 1) 0).1
              (mk_address (10, 0, 0, 8) 1) 1500000000).1 (mk_address (10, 0, 0, 9) 1) 3000000000).1 in
  forall i, ~ earliest_at t i.
Proof.
  intros t i [Hi|(-> & Hp & _)].
  - unfold is_earliest_present in Hi. destruct (wifi_at t i) eqn:Hat; [|done].
    apply wifi_at_spec in Hat as (k & -> & Hs);
      [|apply add_wifi_keeps, add_wifi_keeps, add_wifi_keeps, new_table_ok].
    destruct k as [|[|[|k]]]; vm_compute in Hs; [| | |by destruct k]; injection Hs as <-; by vm_compute in Hi.
  - inversion Hp; [unfold usb_slot_index in *; lia|done].
Qed.

(** ** The send loop *)
Section SendToClient.
(** The driver and the clock are the caller's: a send returns the bytes taken
    and the error code. *)
Context {World : Type} (send_chunk : World -> Z -> Z -> World * (Z * Z))
  (now_us : World -> Z) (pause : World -> World).

(** The [while] loop; [length] and [max_chunk] as in the code, [fuel] bounds
    its turns.
    [src/src/libs/ClientTable.h:188-203] multiclient::send_to_client *)
Fixpoint send_loop (fuel : nat) (length max_chunk : Z) (may_wait : bool) (started_us : Z)
    (w : World) (client : Client) (sent_index : Z) : option (World * Client * Z) :=
  match fuel with
  | O => None
  | S fuel =>
      if sent_index <? length then
        let chunk := if max_chunk <? length - sent_index then max_chunk else length - sent_index in
        let '(w, (sent, errcode)) := send_chunk w sent_index chunk in
        let sent_index := sent_index + sent in
        if sent =? chunk then send_loop fuel length max_chunk may_wait started_us w client sent_index
        else if may_wait && send_error_means_module_busy errcode
                && (u32 (now_us w - started_us) <? max_busy_send_wait_us)
        then send_loop fuel length max_chunk may_wait started_us (pause w) client sent_index
        else Some (w, note_send_result client false errcode, sent_index)
      else Some (w, note_send_result client true 0, sent_index)
  end.

(** [src/src/libs/ClientTable.h:182-204] multiclient::send_to_client *)
Definition send_to_client (fuel : nat) (w : World) (client : Client) (length max_chunk : Z)
    : option (World * Client * Z) :=
  let may_wait := consecutive_send_failures client =? 0 in
  let started_us := now_us w in
  send_loop fuel length max_chunk may_wait started_us w client 0.

(** What the loop relies on: the clock is the low 32 bits of a time that a
    pause moves forward, no single call takes longer than a quarter of the
    counter, and a send takes a prefix of what it is given. [wire] is what
    the module has taken so far. *)
Record driver_ok (message : list Z) (clock : World -> Z) (wire : World -> list Z) : Prop := {
  dk_now w : now_us w = u32 (clock w);
  dk_pause w : clock w < clock (pause w) <= clock w + 2 ^ 30 /\ wire (pause w) = wire w;
  dk_send w off size : 0 <= off -> 0 <= size ->
    let '(w', (sent, errcode)) := send_chunk w off size in
    0 <= sent <= size /\ clock w <= clock w' <= clock w + 2 ^ 30 /\
    wire w' = wire w ++ slice (Z.to_nat off) (Z.to_nat sent) message
}.

Section Driver.
Context (message : list Z) (clock : World -> Z) (wire : World -> list Z)
  (Hdrv : driver_ok message clock wire) (max_chunk : Z) (Hmax : 0 < max_chunk)
  (may_wait : bool) (started : Z) (client : Client).
Let len := Z.of_nat (length message).

(** Turns a busy module can still cost at time [clock w]. *)
Definition patience (w : World) : Z :=
  let e := u32 (clock w - started) in
  if e <=? 2 ^ 31 then Z.max 0 (max_busy_send_wait_us - e) else max_busy_send_wait_us + 1.

Lemma patience_shrinks w w' :
  clock w <= clock w' <= clock w + 2 ^ 30 -> u32 (clock w' - started) < max_busy_send_wait_us ->
  0 <= patience (pause w') < patience w.
Proof.
  intros Hc He. destruct (dk_pause _ _ _ Hdrv w') as [Hp _]. unfold patience, max_busy_send_wait_us in *.
  revert Hc Hp He. generalize (clock w), (clock w'), (clock (pause w')). clear. intros a b c Hab Hbc He.
  destruct (Z.leb_spec (u32 (a - started)) (2 ^ 31)), (Z.leb_spec (u32 (c - started)) (2 ^ 31)); ints.
Qed.
Lemma patience_range w : 0 <= patience w <= max_busy_send_wait_us + 1.
Proof. unfold patience, max_busy_send_wait_us. destruct (_ <=? _); ints. Qed.

Lemma send_loop_total fuel w s :
  0 <= s <= len -> (len - s) * (max_busy_send_wait_us + 2) + patience w < Z.of_nat fuel ->
  exists w' n err, send_loop fuel len max_chunk may_wait (u32 started) w client s =
      Some (w', note_send_result client (n =? len) err, n) /\
    s <= n <= len /\ wire w' = wire w ++ slice (Z.to_nat s) (Z.to_nat (n - s)) message.
Proof.
  revert w s. induction fuel as [|fuel IH]; intros w s Hs Hf.
  { pose proof (patience_range w). unfold max_busy_send_wait_us in *. lia. }
  cbn [send_loop]. destruct (Z.ltb_spec s len) as [Hlt|Hge].
  2: { exists w, s, 0. assert (s = len) as -> by lia. rewrite Z.eqb_refl, Z.sub_diag. split; [done|].
       split; [lia|]. unfold slice. cbn. by rewrite app_nil_r. }
  set (chunk := if max_chunk <? len - s then max_chunk else len - s).
  assert (0 < chunk <= len - s) as Hchunk.
  { subst chunk. destruct (Z.ltb_spec max_chunk (len - s)); lia. }
  pose proof (dk_send _ _ _ Hdrv w s chunk ltac:(lia) ltac:(lia)) as Hsend.
  destruct (send_chunk w s chunk) as [w1 [sent err]]. destruct Hsend as (Hsent & Hclk & Hw1).
  assert (forall n, s + sent <= n <= len ->
    (wire w ++ slice (Z.to_nat s) (Z.to_nat sent) message) ++
      slice (Z.to_nat (s + sent)) (Z.to_nat (n - (s + sent))) message
    = wire w ++ slice (Z.to_nat s) (Z.to_nat (n - s)) message) as Hglue.
  { intros n Hn. rewrite <- app_assoc. f_equal. unfold slice.
    replace (Z.to_nat (s + sent)) with (Z.to_nat s + Z.to_nat sent)%nat by lia.
    rewrite <- drop_drop. rewrite <- (take_drop (Z.to_nat sent) (take (Z.to_nat (n - s)) _)).
    rewrite take_take, skipn_firstn_comm. repeat f_equal; lia. }
  pose proof (patience_range w) as Hpr. pose proof (patience_range w1) as Hpr1.
  unfold max_busy_send_wait_us in *.
  destruct (Z.eqb_spec sent chunk) as [->|Hne].
  - destruct (IH w1 (s + chunk)) as (w' & n & e & -> & Hn & Hw'); [lia|nia|].
    exists w', n, e. split; [done|]. split; [lia|]. rewrite Hw', Hw1. apply Hglue. lia.
  - destruct (may_wait && _ && _) eqn:Hwait.
    + apply andb_true_iff in Hwait as [_ Ht%Z.ltb_lt]. unfold max_busy_send_wait_us in Ht.
      rewrite (dk_now _ _ _ Hdrv) in Ht.
      destruct (dk_pause _ _ _ Hdrv w1) as [_ Hpw].
      destruct (patience_shrinks w w1 Hclk) as [_ Hps].
      { unfold max_busy_send_wait_us. clear - Ht. ints. }
      destruct (IH (pause w1) (s + sent)) as (w' & n & e & -> & Hn & Hw'); [lia|nia|].
      exists w', n, e. split; [done|]. split; [lia|]. rewrite Hw', Hpw, Hw1. apply Hglue. lia.
    + exists w1, (s + sent), err. rewrite (proj2 (Z.eqb_neq _ len)) by lia. split; [done|].
      split; [lia|]. by replace (s + sent - s) with sent by lia.
Qed.
End Driver.

(** [send_to_client] returns, however long the module stays busy; what
    the module has taken is then exactly the first [n] bytes of the message,
    in order, where [n] is the count returned; and the run of failures is
    cleared exactly when everything went. *)
Theorem send_to_client_delivers message clock wire max_chunk w client fuel :
  driver_ok message clock wire -> 0 < max_chunk ->
  (Z.of_nat (length message) + 1) * 100002 <= Z.of_nat fuel ->
  exists w' n err, send_to_client fuel w client (Z.of_nat (length message)) max_chunk =
      Some (w', note_send_result client (n =? Z.of_nat (length message)) err, n) /\
    0 <= n <= Z.of_nat (length message) /\ wire w' = wire w ++ take (Z.to_nat n) message.
Proof.
  intros Hd Hm Hf. unfold send_to_client. rewrite (dk_now _ _ _ Hd).
  destruct (send_loop_total message clock wire Hd max_chunk Hm (consecutive_send_failures client =? 0)
              (clock w) client fuel w 0) as (w' & n & err & -> & Hn & Hw'); [lia| |].
  { pose proof (patience_range message clock (clock w) w). unfold max_busy_send_wait_us in *. nia. }
  exists w', n, err. split; [done|]. split; [done|]. rewrite Hw', Z.sub_0_r. done.
Qed.
End SendToClient.

(** A module that takes two bytes at a time, but is busy on every other call. *)
Definition sluggish (message : list Z) (w : Z * list Z * bool) (off size : Z) : (Z * list Z * bool) * (Z * Z) :=
  let '(t, out, busy) := w in
  if busy then ((t + 10, out, false), (0, 0x12))
  else let n := Z.min 2 size in ((t + 10, out ++ slice (Z.to_nat off) (Z.to_nat n) message, true), (n, 0x12)).
Lemma send_to_client_delivers_witness :
  let message := [1; 2; 3] in
  exists w' n err, send_to_client (sluggish message) (fun w => u32 (w.1.1)) (fun w => (w.1.1 + 5, w.1.2, w.2))
      (Z.to_nat 400008) (4294967200, [], true) no_client 3 10 =
    Some (w', note_send_result no_client (n =? 3) err, n) /\
    0 <= n <= 3 /\ w'.1.2 = take (Z.to_nat n) message.
Proof.
  intros message.
  apply (send_to_client_delivers (sluggish message) _ _ message (fun w => w.1.1) (fun w => w.1.2)); [|done|].
  - split; [done|intros [[t o] b]; cbn; split; [lia|done]|]. intros [[t o] b] off size Ho Hs. unfold sluggish.
    destruct b; cbn [fst snd].
    + split; [lia|]. split; [lia|]. unfold slice. cbn. by rewrite app_nil_r.
    + split; [lia|]. split; [lia|done].
  - rewrite Z2Nat.id by lia. vm_compute. congruence.
Defined.
