(* ===== verification/ControlToken.v ===== *)
(** * The control token ([src/src/libs/ControlToken.h], [ControlToken.cpp])

    Who may command the machine: the classification of what arrives, the gate
    that refuses it or lets it through, and the one holder of control. A line is
    the list of its characters; a null pointer is the empty line, which the code
    treats alike. *)
From S2P Require Import Prelude ClientTable.

(** [src/src/libs/ControlToken.h:27-27] multiclient::Mode *)
Inductive Mode := single_user | multi_user.
(** [src/src/libs/ControlToken.h:34-38] multiclient::PassiveRights *)
Inductive PassiveRights := watch_only | watch_stop | watch_stop_upload.
(** [src/src/libs/ControlToken.h:80-80] multiclient::PassiveAction *)
Inductive PassiveAction := pa_none | pa_pause | pa_stop | pa_upload.
(** [src/src/libs/ControlToken.h:86-86] multiclient::Traffic *)
Inductive Traffic := automatic | user_caused.
(** [src/src/libs/ControlToken.h:143-143] multiclient::AutomaticCommand *)
Inductive AutomaticCommand := ac_refuse | ac_console_command | ac_file_transfer_start.
(** [src/src/libs/ControlToken.h:210-215] multiclient::RefusalReason *)
Inductive RefusalReason := rr_none | rr_not_holder | rr_motion_in_progress.
#[export] Instance Mode_eq_dec : EqDecision Mode. Proof. solve_decision. Defined.
#[export] Instance PassiveAction_eq_dec : EqDecision PassiveAction. Proof. solve_decision. Defined.
#[export] Instance Traffic_eq_dec : EqDecision Traffic. Proof. solve_decision. Defined.
#[export] Instance AutomaticCommand_eq_dec : EqDecision AutomaticCommand. Proof. solve_decision. Defined.
#[export] Instance RefusalReason_eq_dec : EqDecision RefusalReason. Proof. solve_decision. Defined.

(** The enumeration's values.
    [src/src/libs/ControlToken.h:34-38] multiclient::PassiveRights *)
Definition rights_level (r : PassiveRights) : Z :=
  match r with watch_only => 0 | watch_stop => 1 | watch_stop_upload => 2 end.

(** ** Classification *)
Definition blank (c : Z) : bool := (c =? 32) || (c =? 9).
Definition space (c : Z) : bool := blank c || (c =? 13) || (c =? 10).

(** [src/src/libs/ControlToken.cpp:13-20] multiclient::word_is *)
Definition word_is (line : list Z) (start : nat) (word : list Z) : bool :=
  let word_len := length word in
  if (length line <? start + word_len)%nat then false
  else if negb (bool_decide (slice start word_len line = word)) then false
  else if (start + word_len =? length line)%nat then true
  else space (line !!! (start + word_len)%nat).

(** The scan the two loops share, on what is left of the line. *)
Fixpoint scan (p : Z -> bool) (rest : list Z) : nat :=
  match rest with
  | [] => O
  | c :: rest => if p c then S (scan p rest) else O
  end.

(** [src/src/libs/ControlToken.cpp:26-30] multiclient::skip_spaces *)
Definition skip_spaces (line : list Z) (start : nat) : nat := start + scan blank (drop start line).

(** [src/src/libs/ControlToken.cpp:33-37] multiclient::end_of_word *)
Definition end_of_word (line : list Z) (start : nat) : nat :=
  start + scan (fun c => negb (space c)) (drop start line).

(** The text that is left of [text].
    [src/src/libs/ControlToken.cpp:41-45] multiclient::without_line_ending *)
Definition without_line_ending (text : list Z) : list Z :=
  let length1 := if (0 <? length text)%nat && (text !!! (length text - 1)%nat =? 10)
                 then (length text - 1)%nat else length text in
  let length2 := if (0 <? length1)%nat && (text !!! (length1 - 1)%nat =? 13)
                 then (length1 - 1)%nat else length1 in
  take length2 text.

(** [src/src/libs/ControlToken.cpp:50-55] multiclient::is_config_download *)
Definition is_config_download (text : list Z) : bool :=
  bool_decide (without_line_ending text = chars "download /sd/config.txt").

(** [src/src/libs/ControlToken.cpp:66-75] multiclient::decoded_path_char *)
Definition decoded_path_char (c : Z) : Z :=
  if c =? 1 then 32 (* space *) else if c =? 2 then 63 (* ? *) else if c =? 3 then 42 (* * *)
  else if c =? 4 then 33 (* ! *) else if c =? 5 then 126 (* ~ *) else c.

(** The comparison loop, over the path and the announced file together.
    [src/src/libs/ControlToken.cpp:92-97] multiclient::is_announced_file_download *)
Fixpoint same_path (path file : list Z) : bool :=
  match path, file with
  | p :: path, f :: file =>
      if blank p then false
      else if negb (decoded_path_char p =? f) then false
      else same_path path file
  | _, _ => true
  end.

(** [announced_file] is the global string, [None] while it is a null pointer.
    [src/src/libs/ControlToken.cpp:81-98] multiclient::is_announced_file_download *)
Definition is_announced_file_download (announced_file : option (list Z)) (text : list Z) : bool :=
  match announced_file with
  | None | Some [] => false
  | Some file =>
      let prefix := chars "download " in
      let text := without_line_ending text in
      if negb (length text =? length prefix + length file)%nat then false
      else if negb (bool_decide (take (length prefix) text = prefix)) then false
      else
        let path := drop (length prefix) text in
        if (path !!! 0%nat =? 34) || (path !!! 0%nat =? 39) then false
        else same_path path file
  end.

(** [src/src/libs/ControlToken.h:161-182] multiclient::MotionState *)
Record MotionState := mk_motion { run : bool; homing : bool; job_playing : bool; idle : bool }.

(** [src/src/libs/ControlToken.cpp:104-116] multiclient::passive_action_allowed *)
Definition passive_action_allowed (action : PassiveAction) (rights : PassiveRights) (motion : MotionState) : bool :=
  match action with
  | pa_pause | pa_stop => rights_level watch_stop <=? rights_level rights
  | pa_upload => (rights_level watch_stop_upload <=? rights_level rights) && idle motion
  | pa_none => false
  end.

(** The [-e] loop of [config-get-all]: it advances by a word each turn, so the
    line's length bounds it.
    [src/src/libs/ControlToken.cpp:150-150] multiclient::classify_command_line *)
Fixpoint skip_e (fuel : nat) (line : list Z) (i : nat) : nat :=
  match fuel with
  | O => i
  | S fuel =>
      if (i <? length line)%nat && word_is line i (chars "-e")
      then skip_e fuel line (skip_spaces line (end_of_word line i)) else i
  end.

(** [src/src/libs/ControlToken.cpp:120-166] multiclient::classify_command_line *)
Definition classify_command_line (line : list Z) : Traffic :=
  if (length line =? 0)%nat then user_caused
  else
  let start := skip_spaces line 0 in
  if (length line <=? start)%nat then user_caused
  else if word_is line start (chars "model") then automatic
  else if word_is line start (chars "version") then automatic
  else if word_is line start (chars "ftype") then automatic
  else if word_is line start (chars "time") then automatic
  else if word_is line start (chars "ls") then automatic
  else if word_is line start (chars "md5sum") then automatic
  else if word_is line start (chars "config-get") then automatic
  else if word_is line start (chars "config-get-all")
          && (length line <=? skip_e (length line) line (skip_spaces line (end_of_word line start)))%nat
  then automatic
  else if word_is line start (chars "get") then
    let after_get := end_of_word line start in
    let arg_start := skip_spaces line after_get in
    if word_is line arg_start (chars "wcs") then
      let after_arg := end_of_word line arg_start in
      if (length line <=? skip_spaces line after_arg)%nat then automatic else user_caused
    else user_caused
  else user_caused.

(** [src/src/libs/ControlToken.h:115-115] multiclient::classify_file_transfer_start *)
Definition classify_file_transfer_start : Traffic := user_caused.

Fixpoint drop_line_endings (rev_path : list Z) : list Z :=
  match rev_path with
  | c :: rest => if (c =? 10) || (c =? 13) then drop_line_endings rest else rev_path
  | [] => []
  end.

(** The new value of [announced_file]; [None] for [path] is the null pointer.
    [src/src/libs/ControlToken.cpp:168-181] multiclient::remember_announced_file *)
Definition remember_announced_file (announced_file : option (list Z)) (path : option (list Z)) : option (list Z) :=
  let forget := match announced_file with Some _ => Some [] | None => None end in
  match path with
  | None => forget
  | Some p => match reverse (drop_line_endings (reverse p)) with [] => forget | q => Some q end
  end.

(** [src/src/libs/ControlToken.cpp:183-204] multiclient::classify_automatic_command *)
Definition classify_automatic_command (announced_file : option (list Z)) (payload : list Z)
    (machine_idle from_usb : bool) : AutomaticCommand :=
  match payload with
  | kind :: ((_ :: _) as text) =>
      if kind =? 0 then
        if decide (classify_command_line text = automatic) then ac_console_command
        else if from_usb && word_is text (skip_spaces text 0) (chars "baud") then ac_console_command
        else ac_refuse
      else if kind =? 1 then
        if is_config_download text then ac_file_transfer_start
        else if machine_idle && is_announced_file_download announced_file text then ac_file_transfer_start
        else ac_refuse
      else ac_refuse
  | _ => ac_refuse
  end.

(** [src/src/libs/ControlToken.cpp:206-217] multiclient::classify_passive_action *)
Definition classify_passive_action (line : list Z) : PassiveAction :=
  if (length line =? 0)%nat then pa_none
  else
  let start := skip_spaces line 0 in
  if (length line <=? start)%nat then pa_none
  else if word_is line start (chars "suspend") then pa_pause
  else if word_is line start (chars "abort") then pa_stop
  else if word_is line start (chars "upload") then pa_upload
  else pa_none.

(** ** The gate *)
(** [src/src/libs/ControlToken.cpp:219-219] multiclient::blocks_transfer *)
Definition blocks_transfer (state : MotionState) : bool := homing state || (run state && negb (job_playing state)).

(** [src/src/libs/ControlToken.h:194-200] multiclient::Identity *)
Record Identity := mk_identity {
  id_identified : bool; id_id : Z; id_link : Link; id_name : list Z; id_name_len : Z
}.
Definition no_identity : Identity :=
  mk_identity false 0 link_wifi (repeat 0 (Z.to_nat (max_name_length + 1))) 0.

(** [src/src/libs/ControlToken.cpp:221-230] multiclient::identity_of *)
Definition identity_of (client : option Client) : Identity :=
  match client with
  | None => no_identity
  | Some c => if negb (identified c) then no_identity
              else mk_identity true (id c) (link c) (name c) (name_len c)
  end.

(** [src/src/libs/ControlToken.h:222-226] multiclient::GateResult *)
Record GateResult := mk_gate { refused : bool; holder_changed : bool; reason : RefusalReason }.
#[export] Instance eta_GateResult : Eta GateResult := fun r => mk_gate (refused r) (holder_changed r) (reason r).

(** [src/src/libs/ControlToken.cpp:241-290] multiclient::decide *)
Definition decide_gate (holder sender : Identity) (traffic : Traffic) (motion : MotionState)
    (mode : Mode) (action : PassiveAction) (rights : PassiveRights) : GateResult :=
  let result := mk_gate false false rr_none in
  match traffic with
  | automatic => result
  | user_caused =>
      if negb (id_identified sender) then
        if id_identified holder then mk_gate true false rr_not_holder else result
      else if id_identified holder && (id_id holder =? id_id sender) then result
      else if bool_decide (mode = multi_user) && id_identified holder then
        if passive_action_allowed action rights motion then result
        else mk_gate true false rr_not_holder
      else if blocks_transfer motion then mk_gate true false rr_motion_in_progress
      else mk_gate false true rr_none
  end.

(** The token is its holder.
    [src/src/libs/ControlToken.cpp:294-299] multiclient::ControlToken::gate *)
Definition gate (holder_ : Identity) (sender : Identity) (traffic : Traffic) (motion : MotionState)
    (mode : Mode) (action : PassiveAction) (rights : PassiveRights) : Identity * GateResult :=
  let result := decide_gate holder_ sender traffic motion mode action rights in
  (if holder_changed result then sender else holder_, result).

(** [src/src/libs/ControlToken.cpp:301-313] multiclient::ControlToken::peek *)
Definition peek (holder_ : Identity) (sender : Identity) (traffic : Traffic) (motion : MotionState)
    (mode : Mode) (action : PassiveAction) (rights : PassiveRights) : GateResult :=
  let result := decide_gate holder_ sender traffic motion mode action rights in
  result <| holder_changed := false |>.

(** [src/src/libs/ControlToken.cpp:315-315] multiclient::ControlToken::clear *)
Definition clear_token (holder_ : Identity) : Identity := no_identity.

(** [src/src/libs/ControlToken.cpp:317-321] multiclient::ControlToken::release_if_holder *)
Definition release_if_holder (holder_ : Identity) (i : Z) : Identity * bool :=
  if negb (id_identified holder_) || negb (id_id holder_ =? i) then (holder_, false) else (no_identity, true).

(** [src/src/libs/ControlToken.cpp:328-334] multiclient::reconcile_holder *)
Definition reconcile_holder (holder_ : Identity) (table : ClientTable) : Identity * bool :=
  if negb (id_identified holder_) then (holder_, false)
  else
    let i := id_id holder_ in
    if 0 <=? find_wifi_by_id table i (-1) then (holder_, false)
    else if usb_has_id table i then (holder_, false)
    else release_if_holder holder_ i.

(** ** What the gate promises *)
(** The non-holder's commands that run without control in multi-user mode. *)
Definition passive_exemption (holder_ : Identity) (motion : MotionState) (mode : Mode) (action : PassiveAction)
    (rights : PassiveRights) : Prop :=
  mode = multi_user /\ id_identified holder_ = true /\ passive_action_allowed action rights motion = true.

Definition in_control (holder_ sender : Identity) : Prop :=
  id_identified holder_ = true /\ id_identified sender = true /\ id_id holder_ = id_id sender.

Ltac gate_cases :=
  repeat (cbn [refused holder_changed reason negb andb]; match goal with
  | |- context [match ?x with automatic => _ | user_caused => _ end] => destruct x
  | |- context [if negb ?b then _ else _] => destruct b eqn:?; cbn [negb]
  | |- context [if bool_decide ?P && _ then _ else _] => destruct (bool_decide_reflect P); cbn [andb]
  | |- context [if ?b && (?x =? ?y) then _ else _] => destruct b eqn:?; cbn [andb]; [destruct (Z.eqb_spec x y)|]
  | |- context [if ?b then _ else _] => destruct b eqn:?
  end).

Lemma release_spec h i :
  release_if_holder h i = (if decide (id_identified h = true /\ id_id h = i) then (no_identity, true) else (h, false)).
Proof.
  unfold release_if_holder. destruct (id_identified h), (Z.eqb_spec (id_id h) i); cbn [negb orb];
    case_decide; intuition congruence.
Qed.

(** C3: Mutual exclusion. Whatever the mode, the rights and the machine's
    state, a user-caused message that [gate] lets through leaves its sender in
    control, unless it is one of the passive actions the rights allow beside
    another holder, or comes from an unidentified sender while nobody holds
    control; in both of those control does not move. A refused message changes
    nothing. *)
Theorem gate_grants_control h sender motion mode action rights :
  let '(h', r) := gate h sender user_caused motion mode action rights in
  (refused r = false ->
     in_control h' sender \/
     h' = h /\ (passive_exemption h motion mode action rights \/
                id_identified sender = false /\ id_identified h = false)) /\
  (refused r = true -> h' = h /\ holder_changed r = false /\ reason r <> rr_none) /\
  (if holder_changed r then h' = sender /\ ~ in_control h sender else h' = h).
Proof.
  unfold gate, decide_gate, in_control, passive_exemption. cbv zeta.
  gate_cases; cbn [refused holder_changed reason]; intuition congruence.
Qed.

(** The three ways a message is refused, and nothing else refuses one. *)
Lemma refused_iff h sender traffic motion mode action rights :
  refused (decide_gate h sender traffic motion mode action rights) = true <->
  traffic = user_caused /\ ~ in_control h sender /\
  (id_identified sender = false /\ id_identified h = true \/
   id_identified sender = true /\ mode = multi_user /\ id_identified h = true /\
     passive_action_allowed action rights motion = false \/
   id_identified sender = true /\ (mode = single_user \/ id_identified h = false) /\ blocks_transfer motion = true).
Proof.
  unfold decide_gate, in_control. cbv zeta. destruct mode; gate_cases; cbn [refused]; intuition congruence.
Qed.

(** [peek] gives at arrival exactly the answer [gate] would give against
    the same holder, with nothing to publish; it refuses just when the sender is
    not in control and either cannot name itself beside a holder, or lacks the
    passive right beside one, or would take control in the middle of a move. *)
Theorem peek_agrees_with_gate h sender traffic motion mode action rights :
  let r := (gate h sender traffic motion mode action rights).2 in
  let p := peek h sender traffic motion mode action rights in
  refused p = refused r /\ reason p = reason r /\ holder_changed p = false /\
  (refused p = true <->
   traffic = user_caused /\ ~ in_control h sender /\
   (id_identified sender = false /\ id_identified h = true \/
    id_identified sender = true /\ mode = multi_user /\ id_identified h = true /\
      passive_action_allowed action rights motion = false \/
    id_identified sender = true /\ (mode = single_user \/ id_identified h = false) /\ blocks_transfer motion = true)).
Proof. intros r p. split; [done|]. split; [done|]. split; [done|]. apply refused_iff. Qed.

(** ** The token against the client table *)
(** The machine's shared state: the client table and the token's holder. *)
Definition present_id (t : ClientTable) (i : Z) : Prop :=
  (exists k c, slot_at t k c /\ identified c = true /\ id c = i) \/
  (in_use (usb_ t) = true /\ identified (client (usb_ t)) = true /\ id (client (usb_ t)) = i).

Lemma find_by_id_spec t i :
  (0 <=? find_wifi_by_id t i (-1)) || usb_has_id t i = true <-> present_id t i.
Proof.
  unfold find_wifi_by_id, usb_has_id, present_id. rewrite orb_true_iff, !andb_true_iff, Z.eqb_eq.
  match goal with |- context [find_slot ?p 0 ?l] => destruct (find_slot_spec p 0 l) as
    [(k & s & -> & Hk & Hp & _)|[-> Hall]] end; [lia| |].
  - rewrite !andb_true_iff, negb_true_iff, orb_false_iff, negb_false_iff, Z.eqb_eq in Hp.
    rewrite Z.add_0_l. assert ((0 <=? Z.of_nat k) = true) as -> by (apply Z.leb_le; lia).
    destruct Hp as [[_ Hu] [Hi Hid]]. split; [|intuition]. intros _. left.
    exists k, (client s). split; [by apply slot_at_in_use|done].
  - cbn. split; [intuition congruence|]. intros [(k & c & Hs & Hi & Hid)|?]; [|intuition].
    specialize (Hall k _ Hs). cbn in Hall. rewrite Hi, (proj2 (Z.eqb_eq _ _) Hid) in Hall.
    rewrite (proj2 (Z.eqb_neq _ (-1))) in Hall by lia. done.
Qed.

(** [reconcile_holder] frees control exactly when its holder is no longer
    an identified client of the table, and reports exactly that; afterwards no
    absent client holds control, and one that is present never loses it. *)
Theorem reconcile_holder_spec h t :
  let '(h', freed) := reconcile_holder h t in
  (freed = true <-> id_identified h = true /\ ~ present_id t (id_id h)) /\
  (if freed then h' = no_identity else h' = h) /\
  (id_identified h' = true -> present_id t (id_id h')).
Proof.
  unfold reconcile_holder. cbv zeta. pose proof (find_by_id_spec t (id_id h)) as Hf.
  destruct (id_identified h) eqn:Hh; cbn [negb].
  2: { split; [split; [done|intros [? _]; congruence]|]. split; [done|]. congruence. }
  destruct (0 <=? find_wifi_by_id t (id_id h) (-1)); cbn [orb] in Hf.
  { assert (present_id t (id_id h)) by by apply Hf. intuition congruence. }
  destruct (usb_has_id t (id_id h)).
  { assert (present_id t (id_id h)) by by apply Hf. intuition congruence. }
  rewrite release_spec, decide_True by done. intuition congruence.
Qed.

(** ** What counts as automatic *)
Definition first_word (line : list Z) : list Z :=
  let start := skip_spaces line 0 in take (scan (fun c => negb (space c)) (drop start line)) (drop start line).

Lemma scan_drop p l : drop (scan p l) l = [] \/ exists c l', drop (scan p l) l = c :: l' /\ p c = false.
Proof.
  induction l as [|c l IH]; cbn; [by left|]. destruct (p c) eqn:Hp; cbn; [done|]. right. eauto.
Qed.
Lemma scan_take p l : Forall (fun c => p c = true) (take (scan p l) l).
Proof. induction l as [|c l IH]; cbn; [constructor|]. destruct (p c) eqn:Hp; cbn; by constructor. Qed.
Lemma scan_length p l : (scan p l <= length l)%nat.
Proof. induction l as [|c l IH]; cbn; [done|]. destruct (p c); lia. Qed.

(** A word with no space in it, before a space or the end, is what [scan] finds. *)
Lemma scan_word w rest :
  Forall (fun c => space c = false) w -> (rest = [] \/ exists c r, rest = c :: r /\ space c = true) ->
  scan (fun c => negb (space c)) (w ++ rest) = length w.
Proof.
  intros Hw Hr. induction Hw as [|c w Hc Hw IH]; cbn.
  - destruct Hr as [->|(c & r & -> & Hc)]; [done|]. cbn. by rewrite Hc.
  - rewrite Hc. cbn. by rewrite IH.
Qed.

Lemma word_is_spec line start w :
  w <> [] -> Forall (fun c => space c = false) w -> (start <= length line)%nat ->
  word_is line start w = true <->
  take (scan (fun c => negb (space c)) (drop start line)) (drop start line) = w.
Proof.
  intros Hne Hw Hs. unfold word_is. cbv zeta. set (l := drop start line).
  assert (length l = (length line - start)%nat) as Hl by (subst l; by rewrite length_drop).
  destruct (Nat.ltb_spec (length line) (start + length w)) as [Hlt|Hge].
  { split; [done|]. intros He. exfalso. apply (f_equal length) in He.
    rewrite length_take in He. pose proof (scan_length (fun c => negb (space c)) l). lia. }
  assert (slice start (length w) line = take (length w) l) as Hsl by done. rewrite Hsl.
  rewrite <- (take_drop (length w) l) in |- * at 3 4.
  case_bool_decide as Heq; cbn [negb].
  2: { split; [done|]. intros He. exfalso. apply Heq. rewrite take_drop in He. rewrite <- He at 2.
       apply (f_equal length) in He as Hlen. rewrite length_take in Hlen.
       pose proof (scan_length (fun c => negb (space c)) l).
       replace (length w) with (scan (fun c => negb (space c)) l) by lia. done. }
  rewrite Heq. assert (drop (length w) l = [] \/ exists c r, drop (length w) l = c :: r) as [Hd|(c & r & Hd)].
  { destruct (drop (length w) l); eauto. }
  - rewrite Hd, scan_word, app_nil_r by eauto. rewrite take_ge by done.
    apply (f_equal length) in Hd. rewrite length_drop in Hd. cbn in Hd.
    destruct (Nat.eqb_spec (start + length w) (length line)); [done|lia].
  - assert ((start + length w =? length line)%nat = false) as ->.
    { apply Nat.eqb_neq. apply (f_equal length) in Hd. rewrite length_drop in Hd. cbn in Hd. lia. }
    assert (line !!! (start + length w)%nat = c) as ->.
    { apply list_lookup_total_correct. subst l. rewrite drop_drop in Hd.
      rewrite <- (Nat.add_0_r (start + length w)), <- lookup_drop, Hd. done. }
    rewrite Hd. destruct (space c) eqn:Hc.
    + rewrite scan_word by eauto 10. rewrite take_app_length. done.
    + split; [done|]. intros He. exfalso. apply (f_equal length) in He.
      assert (length w < scan (fun c => negb (space c)) (w ++ c :: r))%nat as Hlt.
      { clear - Hw Hc. induction Hw as [|x w Hx Hw IH]; cbn; [rewrite Hc; cbn; lia|]. rewrite Hx. cbn. lia. }
      rewrite length_take in He. pose proof (scan_length (fun c => negb (space c)) (w ++ c :: r)). lia.
Qed.

Lemma word_is_first line w :
  w <> [] -> Forall (fun c => space c = false) w ->
  word_is line (skip_spaces line 0) w = true <-> first_word line = w.
Proof.
  intros Hne Hw. apply word_is_spec; [done|done|].
  unfold skip_spaces. rewrite drop_0. apply (scan_length blank line).
Qed.

(** The command words that may be automatic, and those that are whatever follows. *)
Definition always_automatic : list (list Z) :=
  [chars "model"; chars "version"; chars "ftype"; chars "time"; chars "ls"; chars "md5sum"; chars "config-get"].
Definition maybe_automatic : list (list Z) := always_automatic ++ [chars "config-get-all"; chars "get"].

Lemma no_empty_word : [] ∉ always_automatic.
Proof. concrete. Qed.

Lemma word_is_reflect line w :
  w <> [] -> Forall (fun c => space c = false) w ->
  word_is line (skip_spaces line 0) w = bool_decide (first_word line = w).
Proof.
  intros Hne Hw. pose proof (word_is_first line w Hne Hw). case_bool_decide.
  - tauto.
  - apply not_true_is_false. tauto.
Qed.

Lemma classify_words line :
  (first_word line ∈ always_automatic -> classify_command_line line = automatic) /\
  (classify_command_line line = automatic -> first_word line ∈ maybe_automatic).
Proof.
  assert (first_word line <> [] -> (length line =? 0)%nat = false /\
            (length line <=? skip_spaces line 0)%nat = false) as Hlen.
  { intros Hne. assert (skip_spaces line 0 < length line)%nat.
    { destruct (decide (skip_spaces line 0 < length line)%nat); [done|]. exfalso. apply Hne.
      unfold first_word. rewrite drop_ge by lia. done. }
    split; [apply Nat.eqb_neq; lia|apply Nat.leb_gt; lia]. }
  unfold classify_command_line. cbv zeta.
  rewrite !(word_is_reflect line) by (done || concrete).
  split.
  - intros Hin. destruct Hlen as [-> ->].
    { intros Hn. rewrite Hn in Hin. by apply no_empty_word. }
    unfold always_automatic in Hin. rewrite !elem_of_cons in Hin. repeat case_bool_decide; cbn [andb]; try done;
      (exfalso; destruct Hin as [|[|[|[|[|[|[|Hin]]]]]]]; [done..|by apply not_elem_of_nil in Hin]).
  - destruct (length line =? 0)%nat; [done|]. destruct (length line <=? _)%nat; [done|].
    unfold maybe_automatic, always_automatic. rewrite elem_of_app, !elem_of_cons.
    repeat case_bool_decide; cbn [andb]; first [tauto|by intros [=]].
Qed.

Lemma same_path_spec path file :
  length path = length file ->
  same_path path file = true <-> map decoded_path_char path = file /\ Forall (fun c => blank c = false) path.
Proof.
  revert file. induction path as [|p path IH]; intros [|f file]; cbn; try done.
  intros [= Hl]. destruct (blank p) eqn:Hb.
  { split; [done|]. intros [_ Hf]. apply Forall_cons_iff in Hf as [Hf _]. congruence. }
  destruct (Z.eqb_spec (decoded_path_char p) f) as [->|Hne]; cbn [negb].
  - rewrite (IH file Hl), Forall_cons_iff. intuition congruence.
  - split; [done|]. intros [[= ? _] _]. done.
Qed.

Definition quoted (path : list Z) : bool := (path !!! 0%nat =? 34) || (path !!! 0%nat =? 39).

Lemma announced_download_spec file text :
  is_announced_file_download file text = true <->
  exists path f, file = Some f /\ f <> [] /\ without_line_ending text = chars "download " ++ path /\
    map decoded_path_char path = f /\ Forall (fun c => blank c = false) path /\ quoted path = false.
Proof.
  unfold is_announced_file_download, quoted.
  destruct file as [[|c f]|]; [split; [done|intros (? & ? & [= <-] & ? & _); done]| |split; [done|intros (? & ? & ? & _); done]].
  set (t := without_line_ending text). set (pre := chars "download ").
  destruct (Nat.eqb_spec (length t) (length pre + length (c :: f))) as [Hl|Hl]; cbn [negb].
  2: { split; [done|]. intros (p & f' & [= <-] & _ & Ht & Hm & _). exfalso. apply Hl.
       by rewrite Ht, length_app, <- Hm, length_map. }
  case_bool_decide as Hp; cbn [negb].
  2: { split; [done|]. intros (p & f' & _ & _ & Ht & _). exfalso. apply Hp. by rewrite Ht, take_app_length. }
  assert (t = pre ++ drop (length pre) t) as Ht by (rewrite <- Hp at 1; by rewrite take_drop).
  assert (length (drop (length pre) t) = length (c :: f)) as Hd by (rewrite length_drop; lia).
  destruct (_ || _) eqn:Hq.
  - split; [done|]. intros (p & f' & _ & _ & Ht' & _ & _ & Hq').
    rewrite Ht', drop_app_length in Hq. congruence.
  - rewrite same_path_spec by done. split.
    + intros [Hm Hb]. exists (drop (length pre) t), (c :: f). done.
    + intros (p & f' & [= <-] & _ & Ht' & Hm & Hb & _). rewrite Ht', drop_app_length. done.
Qed.

(** What an automatic-command frame may run. A console command runs only if
    its first word is on the read-only list, or is [baud] over USB; one whose
    first word alone settles it does run. A file transfer
    starts exactly for the download of /sd/config.txt, or, while the machine is
    idle, for a path that decodes, character for character and unquoted, to the
    file the machine last announced. Nothing else runs. *)
Theorem automatic_command_runs_only_listed file payload idle_ usb_link :
  match classify_automatic_command file payload idle_ usb_link with
  | ac_refuse => True
  | ac_console_command => exists text, payload = 0 :: text /\
      (first_word text ∈ maybe_automatic \/ usb_link = true /\ first_word text = chars "baud")
  | ac_file_transfer_start => exists text, payload = 1 :: text /\
      (without_line_ending text = chars "download /sd/config.txt" \/
       idle_ = true /\ exists path f, file = Some f /\ f <> [] /\
         without_line_ending text = chars "download " ++ path /\ map decoded_path_char path = f /\
         Forall (fun c => blank c = false) path /\ quoted path = false)
  end /\
  (forall text, payload = 0 :: text -> first_word text ∈ always_automatic ->
     classify_automatic_command file payload idle_ usb_link = ac_console_command).
Proof.
  unfold classify_automatic_command. destruct payload as [|kind [|c text]]; [done| |].
  { split; [done|]. intros t [= -> <-] Hin. exfalso. by apply no_empty_word. }
  destruct (classify_words (c :: text)) as [Hyes Hno].
  destruct (Z.eqb_spec kind 0) as [->|H0].
  - split.
    + case_decide as Hc; [eauto|]. rewrite word_is_reflect by (done || concrete).
      destruct usb_link; cbn [andb]; [|done]. case_bool_decide; [|done]. eauto 10.
    + intros t [= <-] Hin. by rewrite decide_True by auto.
  - split; [|by intros t [= ? _]]. destruct (Z.eqb_spec kind 1) as [->|]; [|done].
    unfold is_config_download. case_bool_decide; [eauto|].
    destruct idle_; cbn [andb]; [|done].
    destruct (is_announced_file_download file (c :: text)) eqn:Ha; [|done].
    apply announced_download_spec in Ha. eauto 10.
Qed.
