(* ===== verification/Publish.v ===== *)
(** * Published messages ([src/src/libs/Publish.h], [Publish.cpp])

    When the machine publishes, and the exact bytes of its published console
    lines, relays and events. An output array is a list of bytes that a builder
    writes into; the builder returns it with the payload length. *)
From S2P Require Import Prelude MakeraFrame ClientTable.

(** ** When *)
(** [src/src/libs/Publish.h:19-19] multiclient::default_status_publish_hz *)
Definition default_status_publish_hz : Z := 5.
(** [src/src/libs/Publish.cpp:9-9] multiclient::min_status_publish_hz *)
Definition min_status_publish_hz : Z := 1.
(** [src/src/libs/Publish.cpp:10-10] multiclient::max_status_publish_hz *)
Definition max_status_publish_hz : Z := 50.

(** [src/src/libs/Publish.cpp:13-16] multiclient::status_publish_interval_us *)
Definition status_publish_interval_us (hz : Z) : Z :=
  let clamped := if hz <? min_status_publish_hz then min_status_publish_hz
                 else if max_status_publish_hz <? hz then max_status_publish_hz else hz in
  1000000 / clamped.

(** [src/src/libs/Publish.cpp:18-20] multiclient::publish_due *)
Definition publish_due (now last_publish interval : Z) : bool := s32 interval <=? s32 (u32 (now - last_publish)).

(** ** Writing into an array *)
(** [memcpy(out + offset, bytes, length)], or the byte stores that amount to it. *)
Definition put (out : list Z) (offset : nat) (bytes : list Z) : list Z :=
  take offset out ++ bytes ++ drop (offset + length bytes) out.

(** [src/src/libs/Publish.h:50-50] multiclient::max_console_line_text_bytes *)
Definition max_console_line_text_bytes : Z := 535 - (8 + 1 + max_name_length + 1).
(** [src/src/libs/Publish.h:54-56] multiclient::console_line_chunk_length *)
Definition console_line_chunk_length (remaining : Z) : Z :=
  if max_console_line_text_bytes <? remaining then max_console_line_text_bytes else remaining.
(** [src/src/libs/Publish.h:60-62] multiclient::console_line_has_more *)
Definition console_line_has_more (remaining chunk_length : Z) : bool := chunk_length <? remaining.

(** The pointers and their lengths are the lists [source_name] (its first
    [source_name_len] characters are read) and [text_chunk].
    [src/src/libs/Publish.cpp:22-42] multiclient::build_console_line_frame *)
Definition build_console_line_frame (source_id : Z) (source_name : list Z) (source_name_len : Z)
    (text_chunk : list Z) (more : bool) (out : list Z) (out_capacity : Z) : list Z * Z :=
  let chunk_length := Z.of_nat (length text_chunk) in
  let length_ := 8 + 1 + source_name_len + 1 + chunk_length in
  if out_capacity <? length_ then (out, 0) else
  let n := Z.to_nat source_name_len in
  let out := put out 0 (be_bytes 8 source_id) in
  let offset := 8%nat in
  let out := put out offset [source_name_len] in
  let offset := S offset in
  let '(out, offset) := if negb (source_name_len =? 0)
                        then (put out offset (take n source_name), (offset + n)%nat) else (out, offset) in
  let out := put out offset [if more then 1 else 0] in
  let offset := S offset in
  let '(out, offset) := if negb (chunk_length =? 0)
                        then (put out offset text_chunk, (offset + length text_chunk)%nat) else (out, offset) in
  (out, Z.of_nat offset).

(** [src/src/libs/Publish.h:82-82] multiclient::max_relay_payload_bytes *)
Definition max_relay_payload_bytes : Z := 535 - 8.
(** [src/src/libs/Publish.cpp:44-53] multiclient::build_relay_frame *)
Definition build_relay_frame (source_id : Z) (payload : list Z) (out : list Z) (out_capacity : Z) : list Z * Z :=
  let payload_length := Z.of_nat (length payload) in
  if max_relay_payload_bytes <? payload_length then (out, 0) else
  let length_ := 8 + payload_length in
  if out_capacity <? length_ then (out, 0) else
  let out := put out 0 (be_bytes 8 source_id) in
  let out := if negb (payload_length =? 0) then put out 8 payload else out in
  (out, length_).

(** [src/src/libs/Publish.h:95-95] multiclient::event_kind_upload_finished *)
Definition event_kind_upload_finished : Z := 1.
(** [src/src/libs/Publish.h:96-96] multiclient::event_kind_play_started *)
Definition event_kind_play_started : Z := 2.
(** [src/src/libs/Publish.h:97-97] multiclient::event_kind_job_ended *)
Definition event_kind_job_ended : Z := 3.
(** [src/src/libs/Publish.h:98-98] multiclient::event_kind_alarm_halt *)
Definition event_kind_alarm_halt : Z := 4.
(** [src/src/libs/Publish.h:99-99] multiclient::event_kind_control_changed *)
Definition event_kind_control_changed : Z := 5.
(** [src/src/libs/Publish.h:100-100] multiclient::event_kind_client_joined *)
Definition event_kind_client_joined : Z := 6.
(** [src/src/libs/Publish.h:101-101] multiclient::event_kind_client_left *)
Definition event_kind_client_left : Z := 7.
(** [src/src/libs/Publish.h:102-102] multiclient::event_kind_job_start *)
Definition event_kind_job_start : Z := 8.
(** [src/src/libs/Publish.h:105-105] multiclient::event_kind_transfer *)
Definition event_kind_transfer : Z := 9.
(** [src/src/libs/Publish.h:111-111] multiclient::event_checksum_none *)
Definition event_checksum_none : Z := 0.
(** [src/src/libs/Publish.h:112-112] multiclient::event_checksum_md5 *)
Definition event_checksum_md5 : Z := 1.
(** [src/src/libs/Publish.h:115-115] multiclient::md5_digest_bytes *)
Definition md5_digest_bytes : Z := 16.
(** [src/src/libs/Publish.h:124-124] multiclient::max_event_path_length *)
Definition max_event_path_length : Z := 250.

(** [src/src/libs/Publish.cpp:55-57] multiclient::clamp_event_path_length *)
Definition clamp_event_path_length (length_ : Z) : Z :=
  if max_event_path_length <? length_ then u8 max_event_path_length else u8 length_.

(** The loop that drops the line endings, on the length that is left.
    [src/src/libs/Publish.cpp:61-61] multiclient::event_path_length *)
Fixpoint strip_line_endings (path : list Z) (length_ : nat) : nat :=
  match length_ with
  | O => O
  | S n => if (path !!! n =? 10) || (path !!! n =? 13) then strip_line_endings path n else S n
  end.

(** [src/src/libs/Publish.cpp:59-63] multiclient::event_path_length *)
Definition event_path_length (path : option (list Z)) : Z :=
  match path with
  | None => 0
  | Some p => clamp_event_path_length (Z.of_nat (strip_line_endings p (length p)))
  end.

(** [src/src/libs/Publish.cpp:66-70] multiclient::hex_nibble *)
Definition hex_nibble (c : Z) : Z :=
  if (97 <=? c) && (c <=? 102) then u8 (c - 97 + 10)
  else if (65 <=? c) && (c <=? 70) then u8 (c - 65 + 10)
  else u8 (c - 48).

(** [src/src/libs/Publish.cpp:73-77] multiclient::decode_md5_hex *)
Definition decode_md5_hex (hex : list Z) : list Z :=
  map (fun i => u8 (Z.lor (Z.shiftl (hex_nibble (hex !!! (2 * i)%nat)) 4) (hex_nibble (hex !!! (2 * i + 1)%nat))))
      (seq 0 (Z.to_nat md5_digest_bytes)).

(** [src/src/libs/Publish.cpp:83-91] multiclient::append_kind_and_path *)
Definition append_kind_and_path (kind : Z) (path : list Z) (path_len : Z) (out : list Z) (out_capacity : Z)
    : list Z * Z :=
  let needed := 1 + 1 + path_len in
  if out_capacity <? needed then (out, 0) else
  let out := put out 0 [kind] in
  let out := put out 1 [path_len] in
  let out := if negb (path_len =? 0) then put out 2 (take (Z.to_nat path_len) path) else out in
  (out, 2 + path_len).

(** [md5_digest] is a null pointer or 16 bytes.
    [src/src/libs/Publish.cpp:96-110] multiclient::build_file_event *)
Definition build_file_event (kind : Z) (path : list Z) (path_len size : Z) (md5_digest : option (list Z))
    (out : list Z) (out_capacity : Z) : list Z * Z :=
  let '(out, offset) := append_kind_and_path kind path path_len out out_capacity in
  if offset =? 0 then (out, 0) else
  let checksum_length := match md5_digest with Some _ => md5_digest_bytes | None => 0 end in
  if out_capacity <? offset + 4 + 1 + checksum_length then (out, 0) else
  let out := put out (Z.to_nat offset) (be_bytes 4 size) in
  let offset := offset + 4 in
  let out := put out (Z.to_nat offset)
               [match md5_digest with Some _ => event_checksum_md5 | None => event_checksum_none end] in
  let offset := offset + 1 in
  match md5_digest with
  | Some digest => (put out (Z.to_nat offset) (take (Z.to_nat md5_digest_bytes) digest), offset + md5_digest_bytes)
  | None => (out, offset)
  end.

(** [src/src/libs/Publish.cpp:113-116] multiclient::build_upload_finished_event *)
Definition build_upload_finished_event := build_file_event event_kind_upload_finished.
(** [src/src/libs/Publish.cpp:118-121] multiclient::build_play_started_event *)
Definition build_play_started_event := build_file_event event_kind_play_started.

(** [src/src/libs/Publish.h:221-225] multiclient::job_start_phase_waiting *)
Inductive JobStartPhase :=
| job_start_phase_waiting | job_start_phase_starting | job_start_phase_cancelled | job_start_phase_hashing
| job_start_phase_timed_out.
(** [src/src/libs/Publish.h:229-235] multiclient::job_start_reason_waiting *)
Inductive JobStartReason :=
| job_start_reason_waiting | job_start_reason_all_ready | job_start_reason_time_limit | job_start_reason_start_now
| job_start_reason_aborted | job_start_reason_starter_left | job_start_reason_halted.
#[export] Instance JobStartPhase_eq_dec : EqDecision JobStartPhase. Proof. solve_decision. Defined.
#[export] Instance JobStartReason_eq_dec : EqDecision JobStartReason. Proof. solve_decision. Defined.

(** The constants' values.
    [src/src/libs/Publish.h:221-225] multiclient::job_start_phase_waiting *)
Definition phase_code (p : JobStartPhase) : Z :=
  match p with
  | job_start_phase_waiting => 0 | job_start_phase_starting => 1 | job_start_phase_cancelled => 2
  | job_start_phase_hashing => 3 | job_start_phase_timed_out => 4
  end.
(** [src/src/libs/Publish.h:229-235] multiclient::job_start_reason_waiting *)
Definition reason_code (r : JobStartReason) : Z :=
  match r with
  | job_start_reason_waiting => 0 | job_start_reason_all_ready => 1 | job_start_reason_time_limit => 2
  | job_start_reason_start_now => 3 | job_start_reason_aborted => 4 | job_start_reason_starter_left => 5
  | job_start_reason_halted => 6
  end.

(** [src/src/libs/Publish.h:239-239] multiclient::max_job_start_not_ready *)
Definition max_job_start_not_ready : Z := max_wifi_clients + 1.

(** [ev_not_ready_ids] is the whole list the pointer and the count describe.
    [src/src/libs/Publish.h:244-256] multiclient::JobStartEvent *)
Record JobStartEvent := mk_job_start_event {
  ev_path : list Z; ev_path_len : Z; ev_size : Z; ev_md5_digest : option (list Z); ev_start_id : Z;
  ev_phase : Z; ev_reason : Z; ev_seconds_left : Z; ev_starter_id : Z; ev_not_ready_ids : list Z
}.

(** [src/src/libs/Publish.h:260-261] multiclient::max_job_start_event_length *)
Definition max_job_start_event_length : Z :=
  1 + 1 + max_event_path_length + 4 + 1 + md5_digest_bytes + 2 + 1 + 1 + 1 + 8 + 1 + 8 * max_job_start_not_ready.

(** [src/src/libs/Publish.cpp:123-143] multiclient::build_job_start_event *)
Definition build_job_start_event (event : JobStartEvent) (out : list Z) (out_capacity : Z) : list Z * Z :=
  let '(out, offset) := build_file_event event_kind_job_start (ev_path event) (ev_path_len event) (ev_size event)
                          (ev_md5_digest event) out out_capacity in
  if offset =? 0 then (out, 0) else
  let not_ready_count := Z.of_nat (length (ev_not_ready_ids event)) in
  let count := if max_job_start_not_ready <? not_ready_count then max_job_start_not_ready else not_ready_count in
  if out_capacity <? offset + 2 + 1 + 1 + 1 + 8 + 1 + 8 * count then (out, 0) else
  let out := put out (Z.to_nat offset) (be_bytes 2 (ev_start_id event)) in
  let out := put out (Z.to_nat offset + 2) [ev_phase event; ev_reason event; ev_seconds_left event] in
  let out := put out (Z.to_nat offset + 5) (be_bytes 8 (ev_starter_id event)) in
  let out := put out (Z.to_nat offset + 13) [u8 count] in
  let out := put out (Z.to_nat offset + 14) (concat (map (be_bytes 8) (take (Z.to_nat count) (ev_not_ready_ids event)))) in
  (out, offset + 14 + 8 * count).

(** [src/src/libs/Publish.cpp:145-157] multiclient::build_job_ended_event *)
Definition build_job_ended_event (path : list Z) (path_len percent_complete played_lines elapsed_secs : Z)
    (out : list Z) (out_capacity : Z) : list Z * Z :=
  let '(out, offset) := append_kind_and_path event_kind_job_ended path path_len out out_capacity in
  if offset =? 0 then (out, 0) else
  if out_capacity <? offset + 1 + 4 + 4 then (out, 0) else
  let out := put out (Z.to_nat offset) [percent_complete] in
  let out := put out (Z.to_nat offset + 1) (be_bytes 4 played_lines) in
  let out := put out (Z.to_nat offset + 5) (be_bytes 4 elapsed_secs) in
  (out, offset + 9).

(** [src/src/libs/Publish.cpp:159-164] multiclient::build_alarm_halt_event *)
Definition build_alarm_halt_event (halt_reason : Z) (out : list Z) (out_capacity : Z) : list Z * Z :=
  if out_capacity <? 2 then (out, 0)
  else (put (put out 0 [event_kind_alarm_halt]) 1 [halt_reason], 2).

(** [src/src/libs/Publish.cpp:188-203] multiclient::build_client_event *)
Definition build_client_event (kind client_id : Z) (name_ : list Z) (name_len_ : Z) (out : list Z) (out_capacity : Z)
    : list Z * Z :=
  let needed := 1 + 8 + 1 + name_len_ in
  if out_capacity <? needed then (out, 0) else
  let out := put out 0 [kind] in
  let out := put out 1 (be_bytes 8 client_id) in
  let out := put out 9 [name_len_] in
  if negb (name_len_ =? 0) then (put out 10 (take (Z.to_nat name_len_) name_), 10 + name_len_) else (out, 10).

(** The same statements as [build_client_event], with its own kind.
    [src/src/libs/Publish.cpp:166-181] multiclient::build_control_changed_event *)
Definition build_control_changed_event := build_client_event event_kind_control_changed.
(** [src/src/libs/Publish.cpp:206-209] multiclient::build_client_joined_event *)
Definition build_client_joined_event := build_client_event event_kind_client_joined.
(** [src/src/libs/Publish.cpp:211-214] multiclient::build_client_left_event *)
Definition build_client_left_event := build_client_event event_kind_client_left.

(** ** A whole console line *)
(** The do-while loop over the line: the frames handed to the link, in order;
    [frame] is the stack array, reused for every fragment. Each turn but the
    last takes a full fragment, so the text's length bounds the turns.
    [src/src/modules/communication/SerialConsole.cpp:995-1005] SerialConsole::publish_console_line *)
Fixpoint publish_fragments (fuel : nat) (self : Client) (text frame : list Z) (offset : Z) : list (list Z) :=
  match fuel with
  | O => []
  | S fuel =>
      let length_ := Z.of_nat (length text) in
      let chunk_length := console_line_chunk_length (length_ - offset) in
      let more := console_line_has_more (length_ - offset) chunk_length in
      let '(frame, frame_length) :=
        build_console_line_frame (id self) (name self) (name_len self)
          (slice (Z.to_nat offset) (Z.to_nat chunk_length) text) more frame (Z.of_nat (length frame)) in
      if frame_length =? 0 then []
      else
        take (Z.to_nat frame_length) frame ::
        (let offset := offset + chunk_length in
         if offset <? length_ then publish_fragments fuel self text frame offset else [])
  end.

(** [src/src/modules/communication/SerialConsole.cpp:991-1006] SerialConsole::publish_console_line *)
Definition publish_console_line (usb_ : option Client) (text : list Z) : list (list Z) :=
  match usb_ with
  | None => []
  | Some self =>
      publish_fragments (S (length text)) self text
        (repeat 0 (Z.to_nat (8 + 1 + max_name_length + 1 + max_console_line_text_bytes))) 0
  end.

(** ** Timing *)
(** Between two readings of a clock that counts microseconds modulo 2^32,
    less than half the counter apart, a publish is due exactly when the interval
    has passed, wherever the counter wrapped; and the interval a rate gives is
    between 20 ms and one second. *)
Theorem publish_due_iff_elapsed last gap hz :
  0 <= gap < 2 ^ 31 ->
  let interval := status_publish_interval_us hz in
  publish_due (u32 (last + gap)) last interval = (interval <=? gap) /\ 20000 <= interval <= 1000000.
Proof.
  intros Hg interval. assert (20000 <= interval <= 1000000) as Hi.
  { subst interval. unfold status_publish_interval_us, min_status_publish_hz, max_status_publish_hz.
    destruct (Z.ltb_spec hz 1); [by vm_compute|]. destruct (Z.ltb_spec 50 hz); [by vm_compute|].
    split; [apply Z.div_le_lower_bound; lia|apply Z.div_le_upper_bound; lia]. }
  split; [|done]. unfold publish_due. rewrite (s32_small interval) by lia. f_equal. clear -Hg. ints.
Qed.
Lemma publish_due_iff_elapsed_witness :
  publish_due (u32 (4294967290 + 200000)) 4294967290 (status_publish_interval_us 5) = true /\
  20000 <= status_publish_interval_us 5 <= 1000000.
Proof. apply (publish_due_iff_elapsed 4294967290 200000 5). lia. Defined.

(** ** Arrays *)
(** [out] is [out0] with its first bytes overwritten by [front]. *)
Definition filled (out0 out front : list Z) : Prop := out = front ++ drop (length front) out0.

Lemma filled_nil out0 : filled out0 out0 [].
Proof. done. Qed.
Lemma put_filled out0 out front b offset :
  filled out0 out front -> offset = length front -> (length front + length b <= length out0)%nat ->
  filled out0 (put out offset b) (front ++ b).
Proof.
  unfold filled, put. intros -> -> Hl. rewrite take_app_length, <- app_assoc. do 2 f_equal.
  rewrite drop_app_ge by lia. rewrite drop_drop, length_app. f_equal. lia.
Qed.

(** Nothing at or past [cap] has changed, nor the array's size. *)
Definition kept_within (cap : nat) (out0 out : list Z) : Prop :=
  length out = length out0 /\ drop cap out = drop cap out0.
Lemma kept_refl cap out : kept_within cap out out.
Proof. done. Qed.
Lemma put_kept cap out0 out offset b :
  kept_within cap out0 out -> (offset + length b <= cap)%nat -> (cap <= length out0)%nat ->
  kept_within cap out0 (put out offset b).
Proof.
  intros [Hl Hd] Hb Hc. unfold put. split.
  - rewrite !length_app, length_take, length_drop. lia.
  - rewrite <- Hd. rewrite drop_app_ge by (rewrite length_take; lia). rewrite length_take.
    rewrite drop_app_ge by lia. rewrite drop_drop. f_equal. lia.
Qed.
#[export] Hint Resolve kept_refl : carvera.

Lemma length_take_min {A} n (l : list A) : length (take n l) = Nat.min n (length l).
Proof. apply length_take. Qed.

Ltac kept :=
  repeat first [apply kept_refl | apply put_kept]; rewrite ?length_be_bytes, ?length_take_min; cbn [length]; lia.

(** A builder's promise: it writes only inside the capacity it is given, and
    what it says it wrote fits there. *)
Definition stays_within (build : list Z -> Z -> list Z * Z) : Prop :=
  forall out cap, 0 <= cap <= Z.of_nat (length out) ->
    let '(out', n) := build out cap in kept_within (Z.to_nat cap) out out' /\ 0 <= n <= cap.

Lemma kind_and_path_within kind path path_len :
  is_u8 path_len -> stays_within (append_kind_and_path kind path path_len).
Proof.
  intros Hp out cap Hc. unfold append_kind_and_path. unfold is_uint in Hp.
  destruct (Z.ltb_spec cap (1 + 1 + path_len)); [split; [apply kept_refl|lia]|].
  destruct (Z.eqb_spec path_len 0); cbn [negb]; (split; [|lia]); kept.
Qed.

Lemma file_event_within kind path path_len size md5 :
  is_u8 path_len -> stays_within (build_file_event kind path path_len size md5).
Proof.
  intros Hp out cap Hc. unfold build_file_event, md5_digest_bytes.
  pose proof (kind_and_path_within kind path path_len Hp out cap Hc) as Hk.
  destruct (append_kind_and_path _ _ _ out cap) as [out1 off]. destruct Hk as [Hk Ho].
  destruct (Z.eqb_spec off 0); [split; [done|lia]|].
  destruct md5 as [digest|].
  - destruct (Z.ltb_spec cap (off + 4 + 1 + 16)); [split; [done|lia]|]. split; [|lia].
    apply put_kept; [|rewrite length_take_min; lia|lia]. do 2 (apply put_kept; [|rewrite ?length_be_bytes; cbn [length]; lia|lia]). done.
  - destruct (Z.ltb_spec cap (off + 4 + 1 + 0)); [split; [done|lia]|]. split; [|lia].
    do 2 (apply put_kept; [|rewrite ?length_be_bytes; cbn [length]; lia|lia]). done.
Qed.

Lemma length_concat_be ids : length (concat (map (be_bytes 8) ids)) = (8 * length ids)%nat.
Proof. induction ids as [|i ids IH]; [done|]. cbn [map concat]. rewrite length_app, length_be_bytes, IH. cbn. lia. Qed.

Lemma job_start_within event : is_u8 (ev_path_len event) -> stays_within (build_job_start_event event).
Proof.
  intros Hp out cap Hc. unfold build_job_start_event.
  pose proof (file_event_within event_kind_job_start (ev_path event) _ (ev_size event) (ev_md5_digest event) Hp out cap Hc) as Hk.
  destruct (build_file_event _ _ _ _ _ out cap) as [out1 off]. destruct Hk as [Hk Ho].
  destruct (Z.eqb_spec off 0); [split; [done|lia]|].
  set (nr := Z.of_nat (length (ev_not_ready_ids event))).
  set (count := if max_job_start_not_ready <? nr then max_job_start_not_ready else nr).
  assert (0 <= count <= nr) as Hcnt.
  { subst count. unfold max_job_start_not_ready, max_wifi_clients. destruct (Z.ltb_spec (3 + 1) nr); lia. }
  destruct (Z.ltb_spec cap (off + 2 + 1 + 1 + 1 + 8 + 1 + 8 * count)); [split; [done|lia]|]. split; [|lia].
  repeat (apply put_kept; [|rewrite ?length_be_bytes, ?length_concat_be, ?length_take_min; cbn [length]; lia|lia]). done.
Qed.

(** No builder writes past the capacity it is given or reports more than
    fits, whatever its fields hold. *)
Theorem builders_stay_within source_id name_ name_len_ text more payload path path_len size md5 percent lines secs
    reason_ kind event :
  is_u8 name_len_ -> is_u8 path_len -> is_u8 (ev_path_len event) ->
  stays_within (build_console_line_frame source_id name_ name_len_ text more) /\
  stays_within (build_relay_frame source_id payload) /\
  stays_within (build_upload_finished_event path path_len size md5) /\
  stays_within (build_play_started_event path path_len size md5) /\
  stays_within (build_job_start_event event) /\
  stays_within (build_job_ended_event path path_len percent lines secs) /\
  stays_within (build_alarm_halt_event reason_) /\
  stays_within (build_client_event kind source_id name_ name_len_).
Proof.
  intros Hn Hp He. split; [|split; [|split; [|split; [|split; [|split; [|split]]]]]].
  - intros out cap Hc. unfold build_console_line_frame. cbv zeta. unfold is_uint in Hn.
    destruct (Z.ltb_spec cap (8 + 1 + name_len_ + 1 + Z.of_nat (length text))); [split; [apply kept_refl|lia]|].
    destruct (Z.eqb_spec name_len_ 0), (Z.eqb_spec (Z.of_nat (length text)) 0); cbn [negb]; (split; [|lia]); kept.
  - intros out cap Hc. unfold build_relay_frame. cbv zeta.
    destruct (_ <? _); [split; [apply kept_refl|lia]|].
    destruct (Z.ltb_spec cap (8 + Z.of_nat (length payload))); [split; [apply kept_refl|lia]|].
    destruct (negb _); (split; [|lia]); kept.
  - by apply file_event_within.
  - by apply file_event_within.
  - by apply job_start_within.
  - intros out cap Hc. unfold build_job_ended_event.
    pose proof (kind_and_path_within event_kind_job_ended path path_len Hp out cap Hc) as Hk.
    destruct (append_kind_and_path _ _ _ out cap) as [out1 off]. destruct Hk as [Hk Ho].
    destruct (Z.eqb_spec off 0); [split; [done|lia]|].
    destruct (Z.ltb_spec cap (off + 1 + 4 + 4)); [split; [done|lia]|]. split; [|lia].
    repeat (apply put_kept; [|rewrite ?length_be_bytes; cbn [length]; lia|lia]). done.
  - intros out cap Hc. unfold build_alarm_halt_event.
    destruct (Z.ltb_spec cap 2); (split; [|lia]); kept.
  - intros out cap Hc. unfold build_client_event. cbv zeta. unfold is_uint in Hn.
    destruct (Z.ltb_spec cap (1 + 8 + 1 + name_len_)); [split; [apply kept_refl|lia]|].
    destruct (Z.eqb_spec name_len_ 0); cbn [negb]; (split; [|lia]); kept.
Qed.
Lemma builders_stay_within_witness :
  stays_within (build_alarm_halt_event 3).
Proof.
  refine (proj1 (proj2 (proj2 (proj2 (proj2 (proj2 (proj2
    (builders_stay_within 1 [65] 1 [66] false [] [67] 1 0 None 0 0 0 3 5
      (mk_job_start_event [] 0 0 None 0 0 0 0 0 []) _ _ _)))))))); concrete.
Defined.

(** ** Layouts *)
Definition console_layout (source_id : Z) (name_ text : list Z) (more : bool) : list Z :=
  be_bytes 8 source_id ++ [Z.of_nat (length name_)] ++ name_ ++ [if more then 1 else 0] ++ text.

Lemma take_all_len {A} n (l : list A) : (n <= length l)%nat -> length (take n l) = n.
Proof. intros. rewrite length_take. lia. Qed.

Lemma console_frame_filled source_id name_ n text more out cap :
  is_u8 n -> (Z.to_nat n <= length name_)%nat -> cap = Z.of_nat (length out) ->
  let front := console_layout source_id (take (Z.to_nat n) name_) text more in
  Z.of_nat (length front) <= cap ->
  exists out', build_console_line_frame source_id name_ n text more out cap = (out', Z.of_nat (length front)) /\
    filled out out' front.
Proof.
  intros Hn Hnl -> front Hf. unfold is_uint in Hn.
  assert (length (take (Z.to_nat n) name_) = Z.to_nat n) as Htl by by apply take_all_len.
  assert (length front = (10 + Z.to_nat n + length text)%nat) as Hlen.
  { subst front. unfold console_layout. rewrite !length_app, length_be_bytes, Htl. cbn [length]. lia. }
  rewrite Hlen in *. unfold build_console_line_frame. cbv zeta.
  destruct (Z.ltb_spec (Z.of_nat (length out)) (8 + 1 + n + 1 + Z.of_nat (length text))); [lia|].
  assert (forall b, (9 + Z.to_nat n + length b <= length out)%nat -> filled out
     (put (if negb (n =? 0) then put (put (put out 0 (be_bytes 8 source_id)) 8 [n]) 9 (take (Z.to_nat n) name_)
           else put (put out 0 (be_bytes 8 source_id)) 8 [n]) (9 + Z.to_nat n) b)
     (((be_bytes 8 source_id ++ [n]) ++ take (Z.to_nat n) name_) ++ b)) as Hput.
  { intros b Hb. apply put_filled; [|rewrite !length_app, length_be_bytes, Htl; cbn [length]; lia
      |rewrite !length_app, length_be_bytes, Htl; cbn [length]; lia].
    assert (filled out (put (put out 0 (be_bytes 8 source_id)) 8 [n]) (be_bytes 8 source_id ++ [n])) as H8.
    { apply put_filled; [|done|rewrite length_be_bytes; cbn; lia]. apply (put_filled out out []); [done|done|].
      rewrite length_be_bytes. cbn. lia. }
    destruct (Z.eqb_spec n 0) as [->|]; cbn [negb]; [by rewrite app_nil_r|].
    apply put_filled; [done|done|]. rewrite Htl, length_app, length_be_bytes. cbn [length]. lia. }
  assert (front = ((((be_bytes 8 source_id ++ [n]) ++ take (Z.to_nat n) name_) ++ [if more then 1 else 0]) ++ text)) as ->.
  { subst front. unfold console_layout. rewrite Htl, Z2Nat.id by lia. by rewrite <- !app_assoc. }
  destruct (negb (n =? 0)) eqn:Hn0, (Z.eqb_spec (Z.of_nat (length text)) 0) as [Ht|Ht]; cbn [negb];
    (eexists; split; [f_equal; try lia|]).
  all: try (apply negb_false_iff, Z.eqb_eq in Hn0; subst n).
  all: first [destruct text; [rewrite app_nil_r|done]; apply Hput; cbn [length]; lia
             |apply put_filled; [apply Hput; cbn [length]; lia| |];
              rewrite !length_app, length_be_bytes, Htl; cbn [length]; lia].
Qed.

(** What a receiver makes of a published-line payload, by the layout the header
    gives: sender, name, whether more follows, text. *)
Definition read_console_line (f : list Z) : Z * list Z * bool * list Z :=
  let n := Z.to_nat (f !!! 8%nat) in
  (be_val 64 (take 8 f), slice 9 n f, negb (f !!! (9 + n)%nat =? 0), drop (10 + n) f).

Lemma read_console_layout source_id name_ text more :
  is_u64 source_id -> Z.of_nat (length name_) < 256 ->
  read_console_line (console_layout source_id name_ text more) = (source_id, name_, more, text).
Proof.
  intros Hs Hn. unfold read_console_line, console_layout.
  set (n := Z.of_nat (length name_)).
  assert ((be_bytes 8 source_id ++ [n] ++ name_ ++ [if more then 1 else 0] ++ text) !!! 8%nat = n) as ->.
  { apply list_lookup_total_correct. rewrite lookup_app_r; rewrite length_be_bytes; [done|lia]. }
  assert (Z.to_nat n = length name_) as -> by lia.
  assert (slice 9 (length name_) (be_bytes 8 source_id ++ [n] ++ name_ ++ [if more then 1 else 0] ++ text) = name_) as ->.
  { rewrite app_assoc. apply slice_app_exact; [|done]. by rewrite length_app, length_be_bytes. }
  rewrite (take_app_length' _ _ 8) by (by rewrite length_be_bytes).
  rewrite be_val_be_bytes by (done || lia).
  set (m := if more then 1 else 0).
  assert (be_bytes 8 source_id ++ [n] ++ name_ ++ [m] ++ text =
          ((be_bytes 8 source_id ++ [n] ++ name_) ++ [m]) ++ text) as -> by by rewrite <- !app_assoc.
  assert (length (be_bytes 8 source_id ++ [n] ++ name_) = (9 + length name_)%nat) as Hl.
  { rewrite !length_app, length_be_bytes. cbn [length]. lia. }
  rewrite drop_app_length' by (rewrite length_app, Hl; cbn [length]; lia).
  assert ((((be_bytes 8 source_id ++ [n] ++ name_) ++ [m]) ++ text) !!! (9 + length name_)%nat = m) as ->.
  { apply list_lookup_total_correct. rewrite lookup_app_l by (rewrite length_app, Hl; cbn [length]; lia).
    rewrite lookup_app_r by lia. by rewrite Hl, Nat.sub_diag. }
  by destruct more.
Qed.

(** A line's fragments, as a receiver puts them together. *)
Lemma publish_fragments_spec fuel self text frame off :
  client_ok self -> is_u64 (id self) -> 0 <= off <= Z.of_nat (length text) ->
  (off < Z.of_nat (length text) \/ off = 0) ->
  (length text - Z.to_nat off < fuel)%nat ->
  length frame = Z.to_nat (8 + 1 + max_name_length + 1 + max_console_line_text_bytes) ->
  exists parts,
    map read_console_line (publish_fragments fuel self text frame off) =
      map (fun '(more, t) => (id self, take (Z.to_nat (name_len self)) (name self), more, t)) parts /\
    concat (map snd parts) = drop (Z.to_nat off) text /\
    map fst parts = repeat true (length parts - 1) ++ [false] /\
    Forall (fun f => Z.of_nat (length f) <= max_data_size) (publish_fragments fuel self text frame off).
Proof.
  intros Hc Hid. revert frame off. induction fuel as [|fuel IH]; intros frame off Hoff Hlt Hf Hfr; [lia|].
  destruct Hc as [Hnm Hnl _ _]. unfold max_name_length in *. cbn [publish_fragments].
  set (len := Z.of_nat (length text)) in *. set (chunk := console_line_chunk_length (len - off)).
  set (txt := slice (Z.to_nat off) (Z.to_nat chunk) text). set (more := console_line_has_more (len - off) chunk).
  unfold max_console_line_text_bytes, max_name_length in Hfr. change (Z.to_nat _) with 535%nat in Hfr.
  assert (chunk = Z.min 494 (len - off)) as Hchunk.
  { subst chunk. unfold console_line_chunk_length, max_console_line_text_bytes, max_name_length.
    change (535 - (8 + 1 + 31 + 1)) with 494. destruct (Z.ltb_spec 494 (len - off)); lia. }
  assert (Z.of_nat (length txt) = chunk) as Htxt.
  { subst txt. rewrite length_slice; lia. }
  change (Z.to_nat (31 + 1)) with 32%nat in Hnm.
  pose proof (take_all_len (Z.to_nat (name_len self)) (name self) ltac:(lia)) as Htn.
  assert (length (console_layout (id self) (take (Z.to_nat (name_len self)) (name self)) txt more)
          = (10 + Z.to_nat (name_len self) + length txt)%nat) as Hlay.
  { unfold console_layout. rewrite !length_app, length_be_bytes, Htn. cbn [length]. lia. }
  destruct (console_frame_filled (id self) (name self) (name_len self) txt more frame (Z.of_nat (length frame)))
    as (frame' & -> & Hfill); [ints|lia|done|rewrite Hlay; lia|].
  rewrite (proj2 (Z.eqb_neq _ 0)) by (rewrite Hlay; lia).
  rewrite Nat2Z.id, Hfill, take_app_length.
  assert (Z.of_nat (length (console_layout (id self) (take (Z.to_nat (name_len self)) (name self)) txt more)) <= max_data_size)
    as Hsize by (rewrite Hlay; unfold max_data_size, max_frame_size, frame_overhead; lia).
  assert (more = bool_decide (off + chunk < len)) as Hmore.
  { subst more. unfold console_line_has_more. case_bool_decide; [apply Z.ltb_lt|apply Z.ltb_ge]; lia. }
  destruct (Z.ltb_spec (off + chunk) len) as [Hmo|Hmo].
  - destruct (IH (console_layout (id self) (take (Z.to_nat (name_len self)) (name self)) txt more ++
                  drop (length (console_layout (id self) (take (Z.to_nat (name_len self)) (name self)) txt more)) frame)
                (off + chunk)) as (parts & Hmap & Hcat & Hfst & Hsz); [lia|lia|lia| |].
    { rewrite length_app, length_drop, Hlay. unfold max_console_line_text_bytes, max_name_length.
      change (Z.to_nat _) with 535%nat at 3. lia. }
    exists ((true, txt) :: parts). split.
    { cbn [map]. rewrite Hmap, read_console_layout by (done || lia). by rewrite Hmore, bool_decide_eq_true_2. }
    split. { cbn [map concat snd]. rewrite Hcat. subst txt. unfold slice.
      replace (Z.to_nat (off + chunk)) with (Z.to_nat off + Z.to_nat chunk)%nat by lia.
      rewrite <- drop_drop. apply take_drop. }
    split. { cbn [map fst length]. rewrite Hfst. destruct parts; [done|]. cbn [length]. by rewrite !Nat.sub_succ, !Nat.sub_0_r. }
    by constructor.
  - exists [(false, txt)]. split.
    { cbn [map]. rewrite read_console_layout by (done || lia). by rewrite Hmore, bool_decide_eq_false_2 by lia. }
    split. { cbn. rewrite app_nil_r. subst txt. unfold slice. apply take_ge. rewrite length_drop. lia. }
    split; [done|]. by repeat constructor.
Qed.

(** A console line, whatever its length, is published as fragments that fit
    one frame each, all carrying the sender's id and name; their texts in order
    make up the line exactly, and only the last says that nothing follows. An
    empty line is one empty fragment. *)
Theorem published_line_reassembles self text :
  client_ok self -> is_u64 (id self) ->
  exists parts,
    map read_console_line (publish_console_line (Some self) text) =
      map (fun '(more, t) => (id self, take (Z.to_nat (name_len self)) (name self), more, t)) parts /\
    concat (map snd parts) = text /\
    map fst parts = repeat true (length parts - 1) ++ [false] /\
    Forall (fun f => Z.of_nat (length f) <= max_data_size) (publish_console_line (Some self) text).
Proof.
  intros Hc Hid. unfold publish_console_line.
  apply (publish_fragments_spec _ self text _ 0); try done; lia.
Qed.
Lemma published_line_reassembles_witness :
  let self := set_identity no_client 77 [65; 66; 67] 3 in
  exists parts,
    map read_console_line (publish_console_line (Some self) (repeat 46 600)) =
      map (fun '(more, t) => (77, [65; 66; 67], more, t)) parts /\
    concat (map snd parts) = repeat 46 600 /\
    map fst parts = repeat true (length parts - 1) ++ [false] /\
    Forall (fun f => Z.of_nat (length f) <= max_data_size) (publish_console_line (Some self) (repeat 46 600)).
Proof.
  intros self. apply (published_line_reassembles self (repeat 46 600)).
  - apply set_identity_ok; [apply no_client_ok|concrete|done].
  - concrete.
Defined.

(** ** Events *)
Definition file_layout (kind : Z) (path : list Z) (size : Z) (md5 : option (list Z)) : list Z :=
  [kind; Z.of_nat (length path)] ++ path ++ be_bytes 4 size ++
  match md5 with Some digest => event_checksum_md5 :: digest | None => [event_checksum_none] end.

Definition job_start_layout (e : JobStartEvent) (path ids : list Z) : list Z :=
  file_layout event_kind_job_start path (ev_size e) (ev_md5_digest e) ++ be_bytes 2 (ev_start_id e) ++
  [ev_phase e; ev_reason e; ev_seconds_left e] ++ be_bytes 8 (ev_starter_id e) ++
  [Z.of_nat (length ids)] ++ concat (map (be_bytes 8) ids).

Definition digest_ok (md5 : option (list Z)) : Prop :=
  match md5 with Some digest => length digest = Z.to_nat md5_digest_bytes | None => True end.

Lemma length_file_layout kind path size md5 :
  digest_ok md5 ->
  length (file_layout kind path size md5) = (7 + length path + match md5 with Some _ => 16 | None => 0 end)%nat.
Proof.
  intros Hd. unfold file_layout. rewrite !length_app, length_be_bytes.
  destruct md5 as [digest|]; cbn [length]; [|lia]. rewrite Hd. change (Z.to_nat md5_digest_bytes) with 16%nat. lia.
Qed.

Lemma file_event_filled kind path path_len size md5 out cap :
  is_u8 path_len -> (Z.to_nat path_len <= length path)%nat -> digest_ok md5 -> cap = Z.of_nat (length out) ->
  let front := file_layout kind (take (Z.to_nat path_len) path) size md5 in
  Z.of_nat (length front) <= cap ->
  exists out', build_file_event kind path path_len size md5 out cap = (out', Z.of_nat (length front)) /\
    filled out out' front.
Proof.
  intros Hn Hnl Hd -> front Hf. pose proof (take_all_len _ _ Hnl) as Htl.
  pose proof (length_file_layout kind (take (Z.to_nat path_len) path) size md5 Hd) as Hlen.
  fold front in Hlen. rewrite Htl in Hlen. rewrite Hlen in Hf |- *.
  unfold is_uint in Hn. unfold build_file_event, append_kind_and_path, md5_digest_bytes in *. cbv zeta.
  destruct (Z.ltb_spec (Z.of_nat (length out)) (1 + 1 + path_len)); [lia|].
  assert (filled out (if negb (path_len =? 0) then put (put (put out 0 [kind]) 1 [path_len]) 2 (take (Z.to_nat path_len) path)
                      else put (put out 0 [kind]) 1 [path_len]) ([kind; path_len] ++ take (Z.to_nat path_len) path)) as Hp.
  { assert (filled out (put (put out 0 [kind]) 1 [path_len]) [kind; path_len]) as H2.
    { apply (put_filled out _ [kind] [path_len]); [|done|cbn; lia].
      apply (put_filled out out [] [kind]); [done|done|cbn; lia]. }
    destruct (Z.eqb_spec path_len 0) as [->|]; cbn [negb]; [done|]. apply put_filled; [done|done|]. rewrite Htl. cbn. lia. }
  rewrite (proj2 (Z.eqb_neq (2 + path_len) 0)) by lia.
  set (o2 := if negb (path_len =? 0) then _ else _) in *. clearbody o2.
  assert (filled out (put (put o2 (Z.to_nat (2 + path_len)) (be_bytes 4 size)) (Z.to_nat (2 + path_len + 4))
     [match md5 with Some _ => event_checksum_md5 | None => event_checksum_none end])
     ((([kind; path_len] ++ take (Z.to_nat path_len) path) ++ be_bytes 4 size) ++
      [match md5 with Some _ => event_checksum_md5 | None => event_checksum_none end])) as H7.
  { repeat (apply put_filled); try done; rewrite ?length_app, ?length_be_bytes, ?Htl; cbn [length]; lia. }
  subst front. unfold file_layout. rewrite Htl, Z2Nat.id by lia. destruct md5 as [digest|].
  - destruct (Z.ltb_spec (Z.of_nat (length out)) (2 + path_len + 4 + 1 + 16)); [lia|].
    eexists. split; [f_equal; lia|].
    cbn [digest_ok] in Hd. rewrite take_ge by (rewrite Hd; done).
    rewrite (app_assoc [_; _]), (app_assoc _ (be_bytes 4 size)).
    change (event_checksum_md5 :: digest) with ([event_checksum_md5] ++ digest). rewrite app_assoc.
    apply put_filled; [done| |]; rewrite !length_app, length_be_bytes, Htl; cbn [length]; [lia|].
    change (Z.to_nat md5_digest_bytes) with 16%nat in Hd. lia.
  - destruct (Z.ltb_spec (Z.of_nat (length out)) (2 + path_len + 4 + 1 + 0)); [lia|].
    eexists. split; [f_equal; lia|]. by rewrite (app_assoc [_; _]), (app_assoc _ (be_bytes 4 size)).
Qed.

(** What a controller makes of the payloads, by the layouts the header gives. *)
Definition read_file_event (f : list Z) : Z * list Z * Z * option (list Z) * list Z :=
  let n := Z.to_nat (f !!! 1%nat) in
  let rest := drop (2 + n) f in
  let size := be_val 32 (take 4 rest) in
  if rest !!! 4%nat =? event_checksum_md5
  then (f !!! 0%nat, slice 2 n f, size, Some (slice 5 16 rest), drop 21 rest)
  else (f !!! 0%nat, slice 2 n f, size, None, drop 5 rest).

Fixpoint read_ids (n : nat) (f : list Z) : list Z :=
  match n with O => [] | S n => be_val 64 (take 8 f) :: read_ids n (drop 8 f) end.

Definition read_job_start (f : list Z) : JobStartEvent :=
  let '(_, path, size, md5, rest) := read_file_event f in
  let n := Z.to_nat (rest !!! 13%nat) in
  mk_job_start_event path (Z.of_nat (length path)) size md5 (be_val 16 (take 2 rest)) (rest !!! 2%nat) (rest !!! 3%nat)
    (rest !!! 4%nat) (be_val 64 (slice 5 8 rest)) (read_ids n (drop 14 rest)).

Lemma read_file_layout kind path size md5 rest :
  Z.of_nat (length path) < 256 -> is_u32 size -> digest_ok md5 ->
  read_file_event (file_layout kind path size md5 ++ rest) = (kind, path, size, md5, rest).
Proof.
  intros Hp Hs Hd. unfold read_file_event, file_layout. rewrite <- !app_assoc. cbn [app].
  change ((kind :: ?l) !!! 0%nat) with kind. change ((kind :: ?n :: ?l) !!! 1%nat) with n.
  set (n := Z.of_nat (length path)). assert (Z.to_nat n = length path) as -> by lia.
  cbn [drop plus]. rewrite drop_app_length.
  assert (forall tl, slice 2 (length path) (kind :: n :: path ++ tl) = path) as Hsl.
  { intros tl. apply (take_app_length path tl). }
  rewrite Hsl. rewrite (take_app_length' (be_bytes 4 size)) by by rewrite length_be_bytes.
  rewrite be_val_be_bytes by (done || lia).
  assert (forall x tl, (be_bytes 4 size ++ x :: tl) !!! 4%nat = x) as Hx.
  { intros x tl. apply list_lookup_total_correct. by rewrite lookup_app_r by (by rewrite length_be_bytes). }
  destruct md5 as [digest|]; cbn [app]; rewrite Hx.
  - change (event_checksum_md5 =? event_checksum_md5) with true. cbv iota.
    repeat f_equal.
    + change (be_bytes 4 size ++ event_checksum_md5 :: digest ++ rest) with
        (be_bytes 4 size ++ [event_checksum_md5] ++ digest ++ rest). rewrite app_assoc.
      apply slice_app_exact; [by rewrite length_app, length_be_bytes|]. by rewrite Hd.
    + change (be_bytes 4 size ++ event_checksum_md5 :: digest ++ rest) with
        (be_bytes 4 size ++ [event_checksum_md5] ++ digest ++ rest). rewrite !app_assoc.
      apply drop_app_length'. rewrite !length_app, length_be_bytes, Hd. done.
  - change (event_checksum_none =? event_checksum_md5) with false. cbv iota. repeat f_equal.
Qed.

Lemma read_ids_spec ids : Forall is_u64 ids -> read_ids (length ids) (concat (map (be_bytes 8) ids)) = ids.
Proof.
  induction 1 as [|i ids Hi Hids IH]; [done|]. cbn [length map concat read_ids].
  rewrite take_app_length', drop_app_length' by by rewrite length_be_bytes.
  by rewrite be_val_be_bytes, IH by (done || lia).
Qed.

Record job_start_ok (e : JobStartEvent) : Prop := {
  jo_path : 0 <= ev_path_len e <= max_event_path_length /\ (Z.to_nat (ev_path_len e) <= length (ev_path e))%nat;
  jo_size : is_u32 (ev_size e);
  jo_digest : digest_ok (ev_md5_digest e);
  jo_start : is_u16 (ev_start_id e);
  jo_starter : is_u64 (ev_starter_id e);
  jo_ids : Forall is_u64 (ev_not_ready_ids e)
}.

(** A job-start event fits the buffer its callers give it, and carries
    exactly its fields: read back by the documented layout it gives the path,
    the size, the digest, the phase, the reason, the time left, the starter and
    the first four controllers that are not ready. *)
Theorem job_start_event_roundtrip e out :
  job_start_ok e -> length out = Z.to_nat max_job_start_event_length ->
  let '(out', n) := build_job_start_event e out max_job_start_event_length in
  0 < n <= max_job_start_event_length /\ n <= max_data_size /\
  read_job_start (take (Z.to_nat n) out') =
    mk_job_start_event (take (Z.to_nat (ev_path_len e)) (ev_path e)) (ev_path_len e) (ev_size e) (ev_md5_digest e)
      (ev_start_id e) (ev_phase e) (ev_reason e) (ev_seconds_left e) (ev_starter_id e)
      (take (Z.to_nat max_job_start_not_ready) (ev_not_ready_ids e)).
Proof.
  intros [[Hpl Hpn] Hs Hd Hst Hsr Hids] Hout. unfold build_job_start_event.
  change (Z.to_nat max_job_start_event_length) with 319%nat in Hout.
  change max_job_start_event_length with 319. unfold max_event_path_length in Hpl.
  set (path := take (Z.to_nat (ev_path_len e)) (ev_path e)).
  assert (length path = Z.to_nat (ev_path_len e)) as Htl by (by apply take_all_len).
  set (front := file_layout event_kind_job_start path (ev_size e) (ev_md5_digest e)).
  assert (length front = (7 + Z.to_nat (ev_path_len e) + match ev_md5_digest e with Some _ => 16 | None => 0 end)%nat) as Hfl.
  { subst front. rewrite length_file_layout by done. by rewrite Htl. }
  assert (length front <= 273)%nat as Hfb by (rewrite Hfl; destruct (ev_md5_digest e); lia).
  destruct (file_event_filled event_kind_job_start (ev_path e) (ev_path_len e) (ev_size e) (ev_md5_digest e) out 319)
    as (out1 & Hbuild & Hfill); [ints|done|done|lia|fold path front; lia|].
  fold path in Hbuild, Hfill. fold front in Hbuild, Hfill.
  rewrite Hbuild. rewrite (proj2 (Z.eqb_neq (Z.of_nat (length front)) 0)) by lia.
  set (ids := take (Z.to_nat max_job_start_not_ready) (ev_not_ready_ids e)).
  set (nr := Z.of_nat (length (ev_not_ready_ids e))).
  set (count := if max_job_start_not_ready <? nr then max_job_start_not_ready else nr).
  change max_job_start_not_ready with 4 in *. change (Z.to_nat 4) with 4%nat in ids.
  assert (count = Z.of_nat (length ids) /\ take (Z.to_nat count) (ev_not_ready_ids e) = ids) as [Hcnt Hids'].
  { subst count ids. rewrite length_take. destruct (Z.ltb_spec 4 nr).
    - split; [lia|done].
    - split; [lia|]. rewrite !take_ge by lia. done. }
  assert (length ids <= 4)%nat as Hil by (subst ids; rewrite length_take; lia).
  rewrite Hids'. destruct (Z.ltb_spec 319 (Z.of_nat (length front) + 2 + 1 + 1 + 1 + 8 + 1 + 8 * count)); [lia|].
  assert (u8 count = Z.of_nat (length ids)) as Hc8 by (rewrite wrap_small; [done|ints]).
  set (body := be_bytes 2 (ev_start_id e) ++ [ev_phase e; ev_reason e; ev_seconds_left e] ++
               be_bytes 8 (ev_starter_id e) ++ [Z.of_nat (length ids)] ++ concat (map (be_bytes 8) ids)).
  assert (length body = (14 + 8 * length ids)%nat) as Hbl.
  { subst body. rewrite !length_app, !length_be_bytes, length_concat_be. cbn [length]. lia. }
  match goal with |- context [read_job_start (take _ ?o)] =>
    assert (filled out o (front ++ body)) as Hfin end.
  { subst body. rewrite Hc8, !app_assoc, Nat2Z.id.
    repeat (apply put_filled); try done;
      rewrite ?length_app, ?length_be_bytes, ?length_concat_be, ?length_app; cbn [length]; lia. }
  split; [lia|]. split; [unfold max_data_size, max_frame_size, frame_overhead; lia|].
  rewrite Hfin. rewrite take_app_length' by (rewrite length_app, Hbl; lia).
  unfold read_job_start. subst front. rewrite read_file_layout by (done || lia).
  subst body. set (cat := concat _). rewrite Htl, Z2Nat.id by lia.
  assert (forall x y z, be_bytes 2 (ev_start_id e) ++ [x; y; z] ++ be_bytes 8 (ev_starter_id e) ++ [Z.of_nat (length ids)] ++ cat
     = (be_bytes 2 (ev_start_id e) ++ [x; y; z] ++ be_bytes 8 (ev_starter_id e)) ++ [Z.of_nat (length ids)] ++ cat) as Hre.
  { intros. by rewrite <- !app_assoc. }
  f_equal.
  - rewrite take_app_length' by (by rewrite length_be_bytes). apply be_val_be_bytes; [lia|done].
  - unfold slice. rewrite app_assoc. rewrite drop_app_length' by (by rewrite length_app, length_be_bytes).
    rewrite take_app_length' by (by rewrite length_be_bytes). apply be_val_be_bytes; [lia|done].
  - rewrite Hre.
    rewrite lookup_total_at by (rewrite !length_app, !length_be_bytes; done).
    rewrite Nat2Z.id. rewrite app_assoc. rewrite drop_app_length' by (rewrite !length_app, !length_be_bytes; done).
    subst cat. apply read_ids_spec. subst ids. by apply Forall_take.
Qed.
Lemma job_start_event_roundtrip_witness :
  let e := mk_job_start_event (chars "/sd/gcodes/a.nc") 15 70000 (Some (repeat 171 16)) 9 3 0 30 5 [1; 2; 3; 4; 5] in
  let '(out', n) := build_job_start_event e (repeat 0 319) max_job_start_event_length in
  0 < n <= max_job_start_event_length /\ n <= max_data_size /\
  read_job_start (take (Z.to_nat n) out') =
    mk_job_start_event (take (Z.to_nat (ev_path_len e)) (ev_path e)) (ev_path_len e) (ev_size e) (ev_md5_digest e)
      (ev_start_id e) (ev_phase e) (ev_reason e) (ev_seconds_left e) (ev_starter_id e)
      (take (Z.to_nat max_job_start_not_ready) (ev_not_ready_ids e)).
Proof.
  intros e. apply job_start_event_roundtrip; [|done].
  split; try concrete; done.
Defined.
