(* ===== verification/Hello.v ===== *)
(** * The identify handshake ([src/src/libs/Hello.h], [Hello.cpp])

    Hello, hello ack and client-list reply, with the packet types and the
    realtime control bytes ([PublicData.h], [MakeraControl.h]) they and their
    callers use. A payload is the list of its bytes; a null pointer is the empty
    list, which the code treats alike. *)
From S2P Require Import Prelude MakeraFrame ClientTable ControlToken Publish.

(** ** Packet types *)
(** [src/src/libs/PublicData.h:14-14] PTYPE_CTRL_SINGLE *)
Definition PTYPE_CTRL_SINGLE : Z := 0xA1.
(** [src/src/libs/PublicData.h:16-16] PTYPE_FILE_START *)
Definition PTYPE_FILE_START : Z := 0xB0.
(** [src/src/libs/PublicData.h:19-19] PTYPE_FILE_DATA *)
Definition PTYPE_FILE_DATA : Z := 0xB3.
(** [src/src/libs/PublicData.h:41-41] PTYPE_STATUS_RES *)
Definition PTYPE_STATUS_RES : Z := 0x81.
(** [src/src/libs/PublicData.h:46-46] PTYPE_NORMAL_INFO *)
Definition PTYPE_NORMAL_INFO : Z := 0x90.
(** [src/src/libs/PublicData.h:50-50] PTYPE_HELLO *)
Definition PTYPE_HELLO : Z := 0x60.
(** [src/src/libs/PublicData.h:51-51] PTYPE_HELLO_ACK *)
Definition PTYPE_HELLO_ACK : Z := 0x61.
(** [src/src/libs/PublicData.h:52-52] PTYPE_HEARTBEAT *)
Definition PTYPE_HEARTBEAT : Z := 0x62.
(** [src/src/libs/PublicData.h:53-53] PTYPE_CLIENT_LIST_REQ *)
Definition PTYPE_CLIENT_LIST_REQ : Z := 0x63.
(** [src/src/libs/PublicData.h:54-54] PTYPE_CLIENT_LIST_REPLY *)
Definition PTYPE_CLIENT_LIST_REPLY : Z := 0x64.
(** [src/src/libs/PublicData.h:59-59] PTYPE_CONTROL_RELEASE *)
Definition PTYPE_CONTROL_RELEASE : Z := 0x66.
(** [src/src/libs/PublicData.h:64-64] PTYPE_RELAY *)
Definition PTYPE_RELAY : Z := 0x67.
(** [src/src/libs/PublicData.h:70-70] PTYPE_EVENT *)
Definition PTYPE_EVENT : Z := 0x68.
(** [src/src/libs/PublicData.h:79-79] PTYPE_AUTO_COMMAND *)
Definition PTYPE_AUTO_COMMAND : Z := 0x6B.
(** [src/src/libs/PublicData.h:85-85] PTYPE_JOB_START_READY *)
Definition PTYPE_JOB_START_READY : Z := 0x6C.
(** [src/src/libs/PublicData.h:92-92] PTYPE_PRESENCE_CHECK *)
Definition PTYPE_PRESENCE_CHECK : Z := 0x6D.
(** [src/src/libs/PublicData.h:93-93] PTYPE_PRESENCE_REPLY *)
Definition PTYPE_PRESENCE_REPLY : Z := 0x6E.

(** ** Realtime control bytes *)
(** [src/src/libs/MakeraControl.h:9-9] makera::ControlAction *)
Inductive ControlAction := ca_none | ca_query | ca_diagnose | ca_halt | ca_stop | ca_keep_alive | ca_feed_hold | ca_feed_resume.
#[export] Instance ControlAction_eq_dec : EqDecision ControlAction. Proof. solve_decision. Defined.

(** [src/src/libs/MakeraControl.h:11-30] makera::decode_control *)
Definition decode_control (control : Z) : ControlAction :=
  if control =? 63 (* ? *) then ca_query
  else if control =? 42 (* * *) then ca_diagnose
  else if control =? 24 (* ^X *) then ca_halt
  else if control =? 25 (* ^Y *) then ca_stop
  else if control =? 26 (* ^Z *) then ca_keep_alive
  else if control =? 33 (* ! *) then ca_feed_hold
  else if control =? 126 (* ~ *) then ca_feed_resume
  else ca_none.

(** [src/src/libs/MakeraControl.h:32-40] makera::is_diagnostic_request *)
Definition is_diagnostic_request (data : list Z) : bool :=
  let command := chars "diagnose" in
  if (length data <? length command)%nat || negb (bool_decide (take (length command) data = command)) then false
  else forallb space (drop (length command) data).

(** The flags of the kernel that a control byte sets.
    [src/src/libs/Kernel.h:141-163] Kernel *)
Record KernelFlags := mk_flags {
  internal_stop_request : bool; stop_request : bool; stop_request_time : Z;
  keep_alive_request : bool; enable_feed_hold : bool; feed_hold : bool
}.
#[export] Instance eta_KernelFlags : Eta KernelFlags := fun k =>
  mk_flags (internal_stop_request k) (stop_request k) (stop_request_time k) (keep_alive_request k)
    (enable_feed_hold k) (feed_hold k).

(** [now_us] is the [us_ticker_read()] it takes.
    [src/src/libs/MakeraControl.cpp:8-32] makera::handle_control *)
Definition handle_control (k : KernelFlags) (control now_us : Z) : KernelFlags * ControlAction :=
  let action := decode_control control in
  (match action with
   | ca_stop =>
       if internal_stop_request k then k <| internal_stop_request := false |>
       else k <| stop_request := true |> <| stop_request_time := now_us |>
   | ca_keep_alive => k <| keep_alive_request := true |>
   | ca_feed_hold => if enable_feed_hold k then k <| feed_hold := true |> else k
   | ca_feed_resume => if enable_feed_hold k then k <| feed_hold := false |> else k
   | _ => k
   end, action).

(** ** Hello *)
(** [src/src/libs/Hello.h:15-28] multiclient::hello_result_accepted *)
Inductive HelloResult :=
| hello_result_accepted | hello_result_cap_reached | hello_result_old_controller_present
| hello_result_identity_connected | hello_result_busy.
(** The constants' values.
    [src/src/libs/Hello.h:15-28] multiclient::hello_result_accepted *)
Definition hello_result_code (r : HelloResult) : Z :=
  match r with
  | hello_result_accepted => 0 | hello_result_cap_reached => 1 | hello_result_old_controller_present => 2
  | hello_result_identity_connected => 3 | hello_result_busy => 4
  end.
(** [src/src/libs/Hello.h:32-33] multiclient::hello_mode_single_user *)
Definition hello_mode_code (m : Mode) : Z := match m with single_user => 0 | multi_user => 1 end.
(** [src/src/libs/Hello.h:35-35] multiclient::hello_ack_length *)
Definition hello_ack_length : Z := 4.
(** [src/src/libs/Hello.h:47-47] multiclient::hello_feature_job_start_wait *)
Definition hello_feature_job_start_wait : Z := 0x01.
(** [src/src/libs/Hello.h:54-54] multiclient::hello_feature_keep_waiting *)
Definition hello_feature_keep_waiting : Z := 0x02.

(** [src/src/libs/Hello.h:57-68] multiclient::Hello *)
Record Hello := mk_hello {
  he_id : Z; he_name : list Z; he_name_len : Z; he_link : Link; he_features : Z;
  he_has_launch : bool; he_launch : Z
}.
#[export] Instance eta_Hello : Eta Hello := fun h =>
  mk_hello (he_id h) (he_name h) (he_name_len h) (he_link h) (he_features h) (he_has_launch h) (he_launch h).
Definition no_hello : Hello := mk_hello 0 (repeat 0 (Z.to_nat (max_name_length + 1))) 0 link_wifi 0 false 0.

(** [src/src/libs/Hello.cpp:14-14] multiclient::hello_protocol_version *)
Definition hello_protocol_version : Z := 1.

(** [None] is [false]; [out] gives what the name array held before.
    [src/src/libs/Hello.cpp:38-64] multiclient::parse_hello *)
Definition parse_hello (payload : list Z) (out : Hello) : option Hello :=
  let length_ := Z.of_nat (length payload) in
  let minimum_length := 1 + 8 + 1 + 1 in
  if length_ <? minimum_length then None
  else if negb (payload !!! 0%nat =? hello_protocol_version) then None
  else
  let id_ := be_val 64 (slice 1 8 payload) in
  let name_len_ := payload !!! 9%nat in
  if max_name_length <? name_len_ then None else
  let full_length := minimum_length + name_len_ in
  if length_ <? full_length then None else
  let n := Z.to_nat name_len_ in
  let name_ := if negb (name_len_ =? 0) then slice 10 n payload ++ drop n (he_name out) else he_name out in
  let has_launch_ := full_length + 1 + 8 <=? length_ in
  Some {| he_id := id_;
          he_name := <[n := 0]> name_;
          he_name_len := name_len_;
          he_link := if payload !!! (10 + n)%nat =? 1 then link_usb else link_wifi;
          he_features := if full_length <? length_ then payload !!! Z.to_nat full_length else 0;
          he_has_launch := has_launch_;
          he_launch := if has_launch_ then be_val 64 (slice (Z.to_nat full_length + 1) 8 payload) else 0 |}.

(** [src/src/libs/Hello.cpp:66-72] multiclient::build_hello_ack *)
Definition build_hello_ack (out : list Z) (result mode features_ : Z) : list Z * Z :=
  (put out 0 [hello_protocol_version; result; mode; features_], hello_ack_length).

(** ** The client list *)
(** [src/src/libs/Hello.h:91-91] multiclient::client_address_length *)
Definition client_address_length : Z := 4.
(** [src/src/libs/Hello.h:96-97] multiclient::max_client_list_reply_length *)
Definition max_client_list_reply_length : Z :=
  1 + (max_wifi_clients + 1) * (8 + 1 + max_name_length + 1 + 1 + client_address_length).

(** [src/src/libs/Hello.cpp:19-34] multiclient::append_client_entry *)
Definition append_client_entry (c : Client) (has_control : bool) (out : list Z) (offset out_capacity : Z) : list Z * Z :=
  let entry_length := 8 + 1 + name_len c + 1 + 1 in
  if out_capacity <? offset + entry_length then (out, offset) else
  let o := Z.to_nat offset in
  let n := Z.to_nat (name_len c) in
  let out := put out o (be_bytes 8 (id c)) in
  let out := put out (o + 8) [name_len c] in
  let out := if negb (name_len c =? 0) then put out (o + 9) (take n (name c)) else out in
  let out := put out (o + 9 + n) [if decide (link c = link_usb) then 1 else 0] in
  let out := put out (o + 10 + n) [if has_control then 1 else 0] in
  (out, offset + 11 + name_len c).

(** The loop over the WiFi slots from [i] on; [listed] in order.
    [src/src/libs/Hello.cpp:82-90] multiclient::build_client_list_reply *)
Fixpoint list_wifi (fuel : nat) (t : ClientTable) (control : Identity) (i : Z) (out : list Z) (offset out_capacity : Z)
    (listed : list Client) : list Z * Z * list Client :=
  match fuel with
  | O => (out, offset, listed)
  | S fuel =>
      match wifi_at t i with
      | Some c =>
          if negb (identified c) then list_wifi fuel t control (i + 1) out offset out_capacity listed
          else
            let has_control := id_identified control && (id c =? id_id control) in
            let '(out, next) := append_client_entry c has_control out offset out_capacity in
            if next =? offset then (out, offset, listed)
            else list_wifi fuel t control (i + 1) out next out_capacity (listed ++ [c])
      | None => list_wifi fuel t control (i + 1) out offset out_capacity listed
      end
  end.

Definition ip_bytes (a : Address) : list Z := let '(a0, a1, a2, a3) := ip a in [a0; a1; a2; a3].

(** [src/src/libs/Hello.cpp:105-112] multiclient::build_client_list_reply *)
Fixpoint append_addresses (listed : list Client) (out : list Z) (offset : Z) : list Z * Z :=
  match listed with
  | [] => (out, offset)
  | c :: rest =>
      append_addresses rest
        (put out (Z.to_nat offset) (if decide (link c = link_usb) then [0; 0; 0; 0] else ip_bytes (address c)))
        (offset + client_address_length)
  end.

(** The USB client, after the WiFi ones.
    [src/src/libs/Hello.cpp:92-99] multiclient::build_client_list_reply *)
Definition list_usb (t : ClientTable) (control : Identity) (out : list Z) (offset out_capacity : Z) (listed : list Client)
    : list Z * Z * list Client :=
  match usb t with
  | Some u =>
      if identified u then
        let has_control := id_identified control && (id u =? id_id control) in
        let '(out, next) := append_client_entry u has_control out offset out_capacity in
        if negb (next =? offset) then (out, next, listed ++ [u]) else (out, offset, listed)
      else (out, offset, listed)
  | None => (out, offset, listed)
  end.

(** [src/src/libs/Hello.cpp:74-117] multiclient::build_client_list_reply *)
Definition build_client_list_reply (t : ClientTable) (control : Identity) (out : list Z) (out_capacity : Z)
    : list Z * Z :=
  let '(out, offset, listed) := list_wifi (Z.to_nat max_wifi_clients) t control 0 out 1 out_capacity [] in
  let '(out, offset, listed) := list_usb t control out offset out_capacity listed in
  let count := Z.of_nat (length listed) in
  let '(out, offset) :=
    if offset + client_address_length * count <=? out_capacity then append_addresses listed out offset
    else (out, offset) in
  (put out 0 [u8 count], offset).

(** ** Before identifying *)
(** [src/src/libs/Hello.cpp:119-121] multiclient::must_identify_first *)
Definition must_identify_first (t : ClientTable) (c : option Client) : bool :=
  match c with
  | None => false
  | Some c => negb (identified c) && any_identified_present t
  end.

(** [src/src/libs/Hello.cpp:123-127] multiclient::taken_before_identifying *)
Definition taken_before_identifying (type : Z) (data : list Z) : bool :=
  if type =? PTYPE_HELLO then true
  else (type =? PTYPE_CTRL_SINGLE) && (0 <? Z.of_nat (length data))
       && bool_decide (decode_control (data !!! 0%nat) = ca_query).

(** [src/src/libs/Hello.cpp:129-133] multiclient::sent_before_identifying *)
Definition sent_before_identifying (data : list Z) : bool :=
  if (Z.of_nat (length data) <? frame_overhead) || negb (read_be16 data =? header) then false
  else if data !!! 4%nat =? PTYPE_HELLO_ACK then true
  else (data !!! 4%nat =? PTYPE_STATUS_RES) && (Z.of_nat (length data) =? frame_overhead).

(** ** Hello, both ways *)
(** A hello as the header lays it out; [link_byte] and whatever follows it. *)
Definition hello_bytes (id_ : Z) (name_ : list Z) (link_byte : Z) (extra : list Z) : list Z :=
  [hello_protocol_version] ++ be_bytes 8 id_ ++ [Z.of_nat (length name_)] ++ name_ ++ [link_byte] ++ extra.

(** What [parse_hello] makes of one. *)
Definition hello_fields (id_ : Z) (name_ : list Z) (link_byte : Z) (extra : list Z) (out : Hello) : Hello := {|
  he_id := id_;
  he_name := <[length name_ := 0]> (name_ ++ drop (length name_) (he_name out));
  he_name_len := Z.of_nat (length name_);
  he_link := if link_byte =? 1 then link_usb else link_wifi;
  he_features := default 0 (head extra);
  he_has_launch := (9 <=? length extra)%nat;
  he_launch := if (9 <=? length extra)%nat then be_val 64 (slice 1 8 extra) else 0 |}.

Lemma parse_hello_bytes id_ name_ link_byte extra out :
  is_u64 id_ -> Z.of_nat (length name_) <= max_name_length ->
  parse_hello (hello_bytes id_ name_ link_byte extra) out = Some (hello_fields id_ name_ link_byte extra out).
Proof.
  intros Hid Hn. set (p := hello_bytes id_ name_ link_byte extra). set (n := length name_) in *.
  assert (length p = (11 + n + length extra)%nat) as Hl.
  { subst p. unfold hello_bytes. rewrite !length_app, length_be_bytes. cbn [length]. lia. }
  assert (p !!! 0%nat = 1) as H0 by done.
  assert (slice 1 8 p = be_bytes 8 id_) as H1.
  { apply (slice_app_exact [hello_protocol_version]); [done|by rewrite length_be_bytes]. }
  assert (p !!! 9%nat = Z.of_nat n) as H9.
  { subst p. unfold hello_bytes. rewrite app_assoc. apply lookup_total_at. by rewrite length_app, length_be_bytes. }
  assert (slice 10 n p = name_) as H10.
  { subst p. unfold hello_bytes. rewrite (app_assoc _ (be_bytes 8 id_)), (app_assoc _ [_]).
    apply slice_app_exact; [by rewrite !length_app, length_be_bytes|done]. }
  assert (p !!! (10 + n)%nat = link_byte) as Hlb.
  { subst p. unfold hello_bytes. rewrite (app_assoc _ (be_bytes 8 id_)), (app_assoc _ [_]), (app_assoc _ name_).
    apply lookup_total_at. rewrite !length_app, length_be_bytes. cbn [length]. lia. }
  assert (drop (11 + n) p = extra) as Hex.
  { subst p. unfold hello_bytes. rewrite (app_assoc _ (be_bytes 8 id_)), (app_assoc _ [_]), (app_assoc _ name_), (app_assoc _ [_]).
    apply drop_app_length'. rewrite !length_app, length_be_bytes. cbn [length]. lia. }
  unfold parse_hello. cbv zeta. rewrite H0, H1, H9, Hl. unfold max_name_length in *.
  change (negb (1 =? hello_protocol_version)) with false. cbv iota.
  destruct (Z.ltb_spec (Z.of_nat (11 + n + length extra)) (1 + 8 + 1 + 1)); [lia|].
  destruct (Z.ltb_spec 31 (Z.of_nat n)); [lia|].
  destruct (Z.ltb_spec (Z.of_nat (11 + n + length extra)) (1 + 8 + 1 + 1 + Z.of_nat n)); [lia|].
  rewrite Nat2Z.id, H10, Hlb, be_val_be_bytes by (done || lia).
  replace (Z.to_nat (1 + 8 + 1 + 1 + Z.of_nat n)) with (11 + n)%nat by lia.
  unfold hello_fields. fold n. f_equal.
  assert ((1 + 8 + 1 + 1 + Z.of_nat n + 1 + 8 <=? Z.of_nat (11 + n + length extra)) = (9 <=? length extra)%nat) as ->.
  { destruct (Nat.leb_spec 9 (length extra)); [apply Z.leb_le|apply Z.leb_gt]; lia. }
  f_equal.
  - f_equal. destruct (Z.eqb_spec (Z.of_nat n) 0); cbn [negb]; [|done].
    assert (name_ = []) as -> by (apply nil_length_inv; lia). subst n. done.
  - destruct extra as [|e extra].
    + rewrite (proj2 (Z.ltb_ge _ _)) by (cbn; lia). done.
    + rewrite (proj2 (Z.ltb_lt _ _)) by (cbn [length]; lia).
      change (default 0 (head (e :: extra))) with e. apply list_lookup_total_correct.
      rewrite <- (Nat.add_0_r (11 + n)), <- lookup_drop, Hex. done.
  - destruct (9 <=? length extra)%nat; [|done]. unfold slice. by rewrite <- drop_drop, Hex.
Qed.

Lemma parse_hello_shape payload out h :
  is_bytes payload -> parse_hello payload out = Some h ->
  exists id_ name_ link_byte extra, is_u64 id_ /\ Z.of_nat (length name_) <= max_name_length /\
    payload = hello_bytes id_ name_ link_byte extra.
Proof.
  intros Hb. unfold parse_hello. cbv zeta. unfold max_name_length.
  destruct (Z.ltb_spec (Z.of_nat (length payload)) (1 + 8 + 1 + 1)) as [|Hl]; [done|].
  destruct (Z.eqb_spec (payload !!! 0%nat) hello_protocol_version) as [H0|]; cbn [negb]; [|done].
  set (nl := payload !!! 9%nat). destruct (Z.ltb_spec 31 nl) as [|Hn]; [done|].
  destruct (Z.ltb_spec (Z.of_nat (length payload)) (1 + 8 + 1 + 1 + nl)) as [|Hf]; [done|]. intros _.
  assert (0 <= nl) as Hnl.
  { assert (is_u8 nl) as [? _]; [|done]. subst nl. apply Forall_lookup_total_1; [done|lia]. }
  set (n := Z.to_nat nl).
  exists (be_val 64 (slice 1 8 payload)), (slice 10 n payload), (payload !!! (10 + n)%nat), (drop (11 + n) payload).
  assert (length (slice 1 8 payload) = 8%nat) as H8 by (apply length_slice; lia).
  assert (length (slice 10 n payload) = n) as Hsn by (apply length_slice; lia).
  assert (is_bytes (slice 1 8 payload)) as Hs by (unfold slice; by apply Forall_take, Forall_drop).
  split. { pose proof (be_val_range 64 (slice 1 8 payload)) as Hr. rewrite H8 in Hr. apply Hr; [lia|done]. }
  rewrite Hsn. split; [lia|]. unfold hello_bytes. rewrite Hsn.
  pose proof (be_bytes_be_val 64 (slice 1 8 payload)) as Hbb. rewrite H8 in Hbb. rewrite Hbb by (done || lia).
  replace (Z.of_nat n) with nl by lia. unfold slice. rewrite <- H0. subst nl.
  assert (forall i, (i < length payload)%nat -> drop i payload = (payload !!! i) :: drop (S i) payload) as Hdrop.
  { intros i Hi. apply drop_S. by apply list_lookup_lookup_total_lt. }
  rewrite <- (drop_0 payload) at 1. rewrite (Hdrop 0%nat) by lia. cbn [app]. f_equal.
  rewrite <- (take_drop 8 (drop 1 payload)) at 1. rewrite drop_drop. f_equal. cbn [Nat.add].
  rewrite (Hdrop 9%nat) by lia. cbn [app]. f_equal.
  rewrite <- (take_drop n (drop 10 payload)) at 1. rewrite drop_drop. f_equal.
  rewrite (Hdrop (10 + n)%nat) by lia. done.
Qed.

(** [parse_hello] accepts exactly the payloads that are a version-1 hello
    whose name fits, and reads every field of one where the sender put it: id,
    name (NUL-terminated in its array), link, and the optional features byte
    and launch part, present or not, whatever follows them. *)
Theorem parse_hello_exact payload out :
  is_bytes payload ->
  match parse_hello payload out with
  | Some h => exists id_ name_ link_byte extra, is_u64 id_ /\ Z.of_nat (length name_) <= max_name_length /\
      payload = hello_bytes id_ name_ link_byte extra /\ h = hello_fields id_ name_ link_byte extra out
  | None => forall id_ name_ link_byte extra, is_u64 id_ -> Z.of_nat (length name_) <= max_name_length ->
      payload <> hello_bytes id_ name_ link_byte extra
  end.
Proof.
  intros Hb. destruct (parse_hello payload out) as [h|] eqn:Hp.
  - destruct (parse_hello_shape payload out h Hb Hp) as (i & nm & lb & ex & Hi & Hn & ->).
    exists i, nm, lb, ex. rewrite parse_hello_bytes in Hp by done. by simplify_eq.
  - intros i nm lb ex Hi Hn ->. by rewrite parse_hello_bytes in Hp.
Qed.
Lemma parse_hello_exact_witness :
  match parse_hello (hello_bytes 7 [65] 1 [3]) no_hello with
  | Some h => exists id_ name_ link_byte extra, is_u64 id_ /\ Z.of_nat (length name_) <= max_name_length /\
      hello_bytes 7 [65] 1 [3] = hello_bytes id_ name_ link_byte extra /\
      h = hello_fields id_ name_ link_byte extra no_hello
  | None => forall id_ name_ link_byte extra, is_u64 id_ -> Z.of_nat (length name_) <= max_name_length ->
      hello_bytes 7 [65] 1 [3] <> hello_bytes id_ name_ link_byte extra
  end.
Proof. apply parse_hello_exact. concrete. Defined.

(** A controller that has not identified is sent exactly the hello acks and the
    empty status frames, among all the frames there are. *)
Lemma sent_before_identifying_frames type data :
  is_u8 type -> is_bytes data -> Z.of_nat (length data) <= max_data_size ->
  sent_before_identifying (encode_frame type data) = true <->
  type = PTYPE_HELLO_ACK \/ type = PTYPE_STATUS_RES /\ data = [].
Proof.
  intros Ht Hd Hl. unfold sent_before_identifying.
  assert (length (encode_frame type data) = (length data + 9)%nat) as Hlen.
  { unfold encode_frame, frame_covered. rewrite !length_app, !length_be_bytes. cbn [length]. lia. }
  rewrite Hlen. unfold frame_overhead. destruct (Z.ltb_spec (Z.of_nat (length data + 9)) 9); [lia|].
  change (read_be16 (encode_frame type data) =? header) with (header =? header). rewrite Z.eqb_refl. cbn [negb orb].
  change (encode_frame type data !!! 4%nat) with type.
  destruct (Z.eqb_spec type PTYPE_HELLO_ACK); [tauto|].
  rewrite andb_true_iff, !Z.eqb_eq. split; [|intros [|[-> ->]]; [done|done]].
  intros [-> Hz]. right. split; [done|]. apply nil_length_inv. lia.
Qed.

(** ** The client list *)
Record Listed := mk_listed { li_id : Z; li_name : list Z; li_usb : bool; li_control : bool }.

Definition listed_of (control : Identity) (c : Client) : Listed :=
  mk_listed (id c) (take (Z.to_nat (name_len c)) (name c)) (bool_decide (link c = link_usb))
    (id_identified control && (id c =? id_id control)).
Definition entry_layout (l : Listed) : list Z :=
  be_bytes 8 (li_id l) ++ [Z.of_nat (length (li_name l))] ++ li_name l ++
  [if li_usb l then 1 else 0; if li_control l then 1 else 0].
Definition address_of (c : Client) : list Z := if decide (link c = link_usb) then [0; 0; 0; 0] else ip_bytes (address c).

(** The clients the reply names: the identified ones, WiFi then USB. *)
Definition identified_wifi (t : ClientTable) (i : Z) (k : nat) : list Client :=
  filter (fun c => identified c = true) (omap (fun j => wifi_at t (i + Z.of_nat j)) (seq 0 k)).
Definition identified_clients (t : ClientTable) : list Client :=
  identified_wifi t 0 (Z.to_nat max_wifi_clients) ++ filter (fun c => identified c = true) (option_list (usb t)).

Lemma length_entry_layout control c :
  client_ok c -> length (entry_layout (listed_of control c)) = (11 + Z.to_nat (name_len c))%nat.
Proof.
  intros [Hn Hl _ _]. unfold entry_layout, listed_of. cbn [li_id li_name].
  rewrite !length_app, length_be_bytes. rewrite take_all_len; [cbn [length]; lia|].
  rewrite Hn. unfold max_name_length in *. lia.
Qed.

Lemma append_entry_filled out0 out front c control cap :
  client_ok c -> filled out0 out front ->
  Z.of_nat (length front) + 11 + name_len c <= cap -> cap <= Z.of_nat (length out0) ->
  exists out', append_client_entry c (id_identified control && (id c =? id_id control)) out
      (Z.of_nat (length front)) cap = (out', Z.of_nat (length front) + 11 + name_len c) /\
    filled out0 out' (front ++ entry_layout (listed_of control c)).
Proof.
  intros [Hn Hl _ _] Hf Hc Ho. unfold max_name_length in *. change (Z.to_nat (31 + 1)) with 32%nat in Hn.
  unfold append_client_entry. cbv zeta. destruct (Z.ltb_spec cap (Z.of_nat (length front) + (8 + 1 + name_len c + 1 + 1))); [lia|].
  eexists. split; [f_equal; lia|]. rewrite Nat2Z.id. set (n := Z.to_nat (name_len c)).
  assert (length (take n (name c)) = n) as Htl by (apply take_all_len; lia).
  unfold entry_layout, listed_of. cbn [li_id li_name li_usb li_control]. fold n. rewrite Htl.
  replace (Z.of_nat n) with (name_len c) by lia.
  set (ctl := if _ && _ then 1 else 0).
  assert ((if decide (link c = link_usb) then 1 else 0) = if bool_decide (link c = link_usb) then 1 else 0) as ->.
  { destruct (decide (link c = link_usb)); [by rewrite bool_decide_eq_true_2|by rewrite bool_decide_eq_false_2]. }
  set (lnk := if bool_decide _ then 1 else 0). change [lnk; ctl] with ([lnk] ++ [ctl]). rewrite !app_assoc.
  assert (filled out0 (if negb (name_len c =? 0)
      then put (put (put out (length front) (be_bytes 8 (id c))) (length front + 8) [name_len c]) (length front + 9) (take n (name c))
      else put (put out (length front) (be_bytes 8 (id c))) (length front + 8) [name_len c])
      (((front ++ be_bytes 8 (id c)) ++ [name_len c]) ++ take n (name c))) as Hp.
  { assert (filled out0 (put (put out (length front) (be_bytes 8 (id c))) (length front + 8) [name_len c])
      ((front ++ be_bytes 8 (id c)) ++ [name_len c])) as H9.
    { apply put_filled; [apply put_filled; [done|done|] | | ];
        rewrite ?length_app, ?length_be_bytes; cbn [length]; lia. }
    destruct (Z.eqb_spec (name_len c) 0) as [Hz|]; cbn [negb].
    - assert (take n (name c) = []) as -> by (subst n; by rewrite Hz). by rewrite app_nil_r.
    - apply put_filled; [done| |]; rewrite ?length_app, ?length_be_bytes, ?Htl; cbn [length]; lia. }
  apply put_filled; [apply put_filled; [exact Hp| |]| |];
    rewrite !length_app, length_be_bytes, Htl; cbn [length]; lia.
Qed.

Definition entries (control : Identity) (cs : list Client) : list Z := concat (map (fun c => entry_layout (listed_of control c)) cs).

Lemma entries_app control a b : entries control (a ++ b) = entries control a ++ entries control b.
Proof. unfold entries. by rewrite map_app, concat_app. Qed.

Lemma identified_wifi_S t i k :
  identified_wifi t i (S k) =
    match wifi_at t i with
    | Some c => if identified c then c :: identified_wifi t (i + 1) k else identified_wifi t (i + 1) k
    | None => identified_wifi t (i + 1) k
    end.
Proof.
  unfold identified_wifi. cbn [seq omap list_omap]. rewrite Z.add_0_r.
  assert (omap (fun j => wifi_at t (i + Z.of_nat j)) (seq 1 k) = omap (fun j => wifi_at t (i + 1 + Z.of_nat j)) (seq 0 k)) as Hs.
  { rewrite <- seq_shift. change (map S (seq 0 k)) with (S <$> seq 0 k). induction (seq 0 k) as [|j l IH]; [done|].
    cbn. rewrite IH. by replace (i + Z.of_nat (S j)) with (i + 1 + Z.of_nat j) by lia. }
  destruct (wifi_at t i) as [c|]; rewrite Hs; [|done].
  rewrite filter_cons. destruct (identified c); [by rewrite decide_True|by rewrite decide_False].
Qed.

Lemma list_wifi_filled k t control i out0 out front cap listed :
  (forall j c, wifi_at t j = Some c -> client_ok c) -> filled out0 out front ->
  Z.of_nat (length front) + 42 * Z.of_nat k <= cap -> cap <= Z.of_nat (length out0) ->
  exists out', list_wifi k t control i out (Z.of_nat (length front)) cap listed =
      (out', Z.of_nat (length front + length (entries control (identified_wifi t i k))),
       listed ++ identified_wifi t i k) /\
    filled out0 out' (front ++ entries control (identified_wifi t i k)) /\
    (length (identified_wifi t i k) <= k)%nat /\ Forall client_ok (identified_wifi t i k).
Proof.
  intros Hok. revert i out front listed. induction k as [|k IH]; intros i out front listed Hf Hc Ho.
  { exists out. cbn. by rewrite Nat.add_0_r, !app_nil_r. }
  cbn [list_wifi]. rewrite identified_wifi_S. destruct (wifi_at t i) as [c|] eqn:Hat.
  2: { destruct (IH (i + 1) out front listed) as (out' & ? & ? & ? & ?); [done|lia|done|]. exists out'. auto. }
  destruct (identified c); cbn [negb].
  2: { destruct (IH (i + 1) out front listed) as (out' & ? & ? & ? & ?); [done|lia|done|]. exists out'. auto. }
  pose proof (Hok _ _ Hat) as Hco. pose proof (length_entry_layout control c Hco) as Hle.
  destruct (co_len _ Hco) as [Hn0 Hn1]. unfold max_name_length in Hn1.
  destruct (append_entry_filled out0 out front c control cap Hco Hf) as (out1 & -> & Hf1); [lia|done|].
  rewrite (proj2 (Z.eqb_neq _ (Z.of_nat (length front)))) by lia.
  destruct (IH (i + 1) out1 (front ++ entry_layout (listed_of control c)) (listed ++ [c])) as (out' & Hl & Hf' & Hk & Hcs);
    [done|rewrite length_app; lia|done|].
  rewrite length_app in Hl. replace (Z.of_nat (length front + length (entry_layout (listed_of control c))))
    with (Z.of_nat (length front) + 11 + name_len c) in Hl by lia.
  exists out'. rewrite Hl. cbn [entries map concat]. fold (entries control (identified_wifi t (i + 1) k)).
  rewrite <- !app_assoc. rewrite <- app_assoc in Hf'.
  split; [f_equal; f_equal; rewrite length_app; lia|]. split; [done|]. cbn [length]. split; [lia|by constructor].
Qed.

Lemma length_address_of c : length (address_of c) = 4%nat.
Proof. unfold address_of, ip_bytes. destruct (decide _); [done|]. by destruct (ip (address c)) as [[[? ?] ?] ?]. Qed.

Lemma append_addresses_filled listed out0 out front :
  filled out0 out front -> (length front + 4 * length listed <= length out0)%nat ->
  let '(out', off) := append_addresses listed out (Z.of_nat (length front)) in
  filled out0 out' (front ++ concat (map address_of listed)) /\ off = Z.of_nat (length front + 4 * length listed).
Proof.
  revert out front. induction listed as [|c listed IH]; intros out front Hf Hl.
  { cbn. rewrite app_nil_r. split; [done|lia]. }
  cbn [append_addresses map concat length] in *.
  pose proof (length_address_of c) as Ha.
  specialize (IH (put out (length front) (address_of c)) (front ++ address_of c)).
  rewrite length_app, Ha in IH. rewrite Nat2Z.id.
  replace (Z.of_nat (length front) + client_address_length) with (Z.of_nat (length front + 4)) by (unfold client_address_length; lia).
  fold (address_of c). destruct (append_addresses listed _ _) as [out' off].
  destruct IH as [IH1 IH2]; [apply put_filled; [done|done|lia]|lia|].
  rewrite <- app_assoc in IH1. split; [done|lia].
Qed.

(** A controller's reading of the reply: the entries, then one address each. *)
Fixpoint read_entries (n : nat) (f : list Z) : list Listed * list Z :=
  match n with
  | O => ([], f)
  | S n =>
      let k := Z.to_nat (f !!! 8%nat) in
      let e := mk_listed (be_val 64 (take 8 f)) (slice 9 k f) (negb (f !!! (9 + k)%nat =? 0)) (negb (f !!! (10 + k)%nat =? 0)) in
      let '(es, rest) := read_entries n (drop (11 + k) f) in (e :: es, rest)
  end.
Definition read_client_list (f : list Z) : list Listed * list Z := read_entries (Z.to_nat (f !!! 0%nat)) (drop 1 f).

Lemma read_entry l rest :
  is_u64 (li_id l) -> Z.of_nat (length (li_name l)) < 256 ->
  let f := entry_layout l ++ rest in let k := length (li_name l) in
  Z.to_nat (f !!! 8%nat) = k /\ be_val 64 (take 8 f) = li_id l /\ slice 9 k f = li_name l /\
  negb (f !!! (9 + k)%nat =? 0) = li_usb l /\ negb (f !!! (10 + k)%nat =? 0) = li_control l /\ drop (11 + k) f = rest.
Proof.
  intros Hid Hn f k. subst f. unfold entry_layout. set (u := if li_usb l then 1 else 0).
  set (c := if li_control l then 1 else 0). rewrite <- !app_assoc. change ([u; c] ++ rest) with ([u] ++ [c] ++ rest).
  set (B := be_bytes 8 (li_id l)). assert (length B = 8%nat) as HB by apply length_be_bytes.
  split; [|split; [|split; [|split; [|split]]]].
  - rewrite lookup_total_at by done. lia.
  - rewrite take_app_length' by done. apply be_val_be_bytes; [lia|done].
  - rewrite (app_assoc B). apply slice_app_exact; [by rewrite length_app, HB|done].
  - rewrite (app_assoc B). rewrite (app_assoc _ (li_name l)). rewrite lookup_total_at by (rewrite !length_app, HB; cbn [length]; lia).
    subst u. by destruct (li_usb l).
  - rewrite (app_assoc B), (app_assoc _ (li_name l)), (app_assoc _ [u]).
    rewrite lookup_total_at by (rewrite !length_app, HB; cbn [length]; lia). subst c. by destruct (li_control l).
  - rewrite (app_assoc B), (app_assoc _ (li_name l)), (app_assoc _ [u]), (app_assoc _ [c]).
    apply drop_app_length'. rewrite !length_app, HB. cbn [length]. lia.
Qed.

Lemma read_entries_spec control cs rest :
  Forall client_ok cs -> Forall (fun c => is_u64 (id c)) cs ->
  read_entries (length cs) (entries control cs ++ rest) = (map (listed_of control) cs, rest).
Proof.
  intros Hok Hid. induction Hok as [|c cs Hc Hok IH]; [done|]. apply Forall_cons_iff in Hid as [Hi Hid].
  change (entries control (c :: cs)) with (entry_layout (listed_of control c) ++ entries control cs).
  rewrite <- app_assoc. cbn [length read_entries map].
  assert (length (li_name (listed_of control c)) = Z.to_nat (name_len c)) as Hk.
  { destruct Hc as [Hn Hl _ _]. apply take_all_len. rewrite Hn. unfold max_name_length in *. lia. }
  destruct (read_entry (listed_of control c) (entries control cs ++ rest)) as (-> & -> & -> & -> & -> & ->); [done| |].
  { destruct Hc as [_ Hl _ _]. unfold max_name_length in Hl. lia. }
  rewrite IH by done. by destruct (listed_of control c).
Qed.

Definition identified_usb (t : ClientTable) : list Client := filter (fun c => identified c = true) (option_list (usb t)).

Lemma identified_usb_ok t : table_ok t -> Forall client_ok (identified_usb t) /\ (length (identified_usb t) <= 1)%nat.
Proof.
  intros Ht. unfold identified_usb, usb. destruct (in_use (usb_ t)) eqn:Hu; cbn; [|by split; [constructor|lia]].
  destruct (decide _); cbn; (split; [|lia]); repeat constructor; by apply (to_usb t Ht).
Qed.

Lemma list_usb_filled t control out0 out front listed :
  table_ok t -> filled out0 out front ->
  Z.of_nat (length front) + 42 <= 185 -> 185 <= Z.of_nat (length out0) ->
  exists out', list_usb t control out (Z.of_nat (length front)) 185 listed =
      (out', Z.of_nat (length (front ++ entries control (identified_usb t))), listed ++ identified_usb t) /\
    filled out0 out' (front ++ entries control (identified_usb t)).
Proof.
  intros Ht Hf Hc Ho. pose proof (identified_usb_ok t Ht) as [Hok _]. unfold identified_usb, list_usb in *.
  destruct (usb t) as [u|]; [|exists out; by rewrite !app_nil_r].
  change (option_list (Some u)) with [u] in *. rewrite filter_cons in *. change (filter _ []) with (@nil Client) in *.
  destruct (identified u) eqn:Hiu; [rewrite decide_True in * by done|rewrite decide_False by done; exists out; by rewrite !app_nil_r].
  apply Forall_cons_iff in Hok as [Hcu _].
  pose proof (length_entry_layout control u Hcu) as Hlu. destruct (co_len _ Hcu) as [Hu0 Hu1]. unfold max_name_length in Hu1.
  cbv zeta. destruct (append_entry_filled out0 out front u control 185 Hcu Hf) as (out2 & -> & Hf2); [lia|lia|].
  rewrite (proj2 (Z.eqb_neq _ (Z.of_nat (length front)))) by lia. cbn [negb].
  exists out2. unfold entries. cbn [map concat]. rewrite app_nil_r.
  split; [|done]. do 2 f_equal. rewrite length_app, Hlu. lia.
Qed.

Lemma length_entries control cs :
  Forall client_ok cs -> Z.of_nat (length (entries control cs)) <= 42 * Z.of_nat (length cs).
Proof.
  induction 1 as [|c cs Hc Hcs IH]; [cbn; lia|].
  change (entries control (c :: cs)) with (entry_layout (listed_of control c) ++ entries control cs).
  rewrite length_app, (length_entry_layout control c Hc). destruct Hc as [_ Hcl _ _]. unfold max_name_length in Hcl.
  cbn [length]. lia.
Qed.

Lemma length_addresses cs : length (concat (map address_of cs)) = (4 * length cs)%nat.
Proof.
  induction cs as [|c cs IH]; [done|]. cbn [map concat length]. rewrite length_app, IH, length_address_of. lia.
Qed.

(** With the room its callers give it, the client-list reply names every
    identified client once and nobody else, in table order, marks as in control
    exactly those with the holder's id, and ends with one address per entry;
    it fits one frame. *)
Theorem client_list_reply_roundtrip t control out :
  table_ok t -> Forall (fun c => is_u64 (id c)) (identified_clients t) ->
  length out = Z.to_nat max_client_list_reply_length ->
  let '(out', n) := build_client_list_reply t control out max_client_list_reply_length in
  0 < n <= max_client_list_reply_length /\ n <= max_data_size /\
  read_client_list (take (Z.to_nat n) out') =
    (map (listed_of control) (identified_clients t), concat (map address_of (identified_clients t))).
Proof.
  intros Ht Hid Hout. change (Z.to_nat max_client_list_reply_length) with 185%nat in Hout.
  change max_client_list_reply_length with 185. unfold build_client_list_reply.
  assert (forall j c, wifi_at t j = Some c -> client_ok c) as Hwok.
  { intros j c (k & -> & Hs)%wifi_at_spec; [|done]. by apply (to_wifi t Ht k c). }
  set (z := out !!! 0%nat).
  assert (filled out out [z]) as Hf0.
  { unfold filled. cbn [length app]. subst z. destruct out; [done|]. done. }
  change (Z.to_nat max_wifi_clients) with 3%nat.
  destruct (list_wifi_filled 3 t control 0 out out [z] 185 [] Hwok Hf0) as (out1 & Hl1 & Hf1 & Hk1 & Hok1); [cbn; lia|lia|].
  change (Z.of_nat (length [z])) with 1 in Hl1. rewrite Hl1. cbn [app].
  set (W := identified_wifi t 0 3) in *.
  pose proof (length_entries control W Hok1) as HW.
  pose proof (identified_usb_ok t Ht) as [HokU HlU].
  destruct (list_usb_filled t control out out1 ([z] ++ entries control W) W Ht Hf1) as (out2 & Hm & Hf2);
    [rewrite length_app; cbn [length]; lia|lia|].
  rewrite length_app in Hm at 1. rewrite Hm. rewrite <- app_assoc, <- entries_app in *.
  change (W ++ identified_usb t) with (identified_clients t) in *. set (U := identified_usb t) in *.
  assert (Forall client_ok (identified_clients t)) as Hok by (apply Forall_app_2; done).
  assert (length (identified_clients t) <= 4)%nat as Hcnt.
  { change (identified_clients t) with (W ++ U). rewrite length_app. lia. }
  pose proof (length_entries control _ Hok) as HE. set (L := identified_clients t) in *.
  rewrite length_app in *. cbn [length] in *.
  rewrite (proj2 (Z.leb_le _ _)) by (unfold client_address_length; lia).
  pose proof (append_addresses_filled L out out2 ([z] ++ entries control L) Hf2) as Ha.
  rewrite length_app in Ha. cbn [length] in Ha.
  destruct (append_addresses L out2 _) as [out3 off]. destruct Ha as [Hf3 ->]; [lia|].
  pose proof (length_addresses L) as Hal.
  split; [lia|]. split; [unfold max_data_size, max_frame_size, frame_overhead; lia|].
  assert (put out3 0 [u8 (Z.of_nat (length L))] = u8 (Z.of_nat (length L)) :: drop 1 out3) as -> by done.
  rewrite Hf3. cbn [app drop].
  rewrite Nat2Z.id. change (1 + length (entries control L) + 4 * length L)%nat with (S (length (entries control L) + 4 * length L)).
  cbn [take]. rewrite drop_0, take_app_length' by (rewrite length_app; lia).
  unfold read_client_list. cbn [drop]. change ((?x :: ?l) !!! 0%nat) with x.
  rewrite wrap_small by ints. rewrite Nat2Z.id. by apply read_entries_spec.
Qed.
Lemma client_list_reply_roundtrip_witness :
  let t := update_wifi (add_wifi new_table (mk_address (10, 0, 0, 7) 2222) 5).1 0 (fun c => set_identity c 77 [65; 66] 2) in
  let control := identity_of (wifi_at t 0) in
  let '(out', n) := build_client_list_reply t control (repeat 0 185) max_client_list_reply_length in
  0 < n <= max_client_list_reply_length /\ n <= max_data_size /\
  read_client_list (take (Z.to_nat n) out') =
    (map (listed_of control) (identified_clients t), concat (map address_of (identified_clients t))).
Proof.
  intros t control. apply client_list_reply_roundtrip; [|concrete|done].
  apply (step_keeps (add_wifi new_table (mk_address (10, 0, 0, 7) 2222) 5).1).
  - apply add_wifi_keeps, new_table_ok.
  - apply step_wifi_client. constructor; [concrete|done].
Defined.
