(* ===== verification/IdentityCheck.v ===== *)
(** * A second connection under one id ([src/src/libs/IdentityCheck.h], [IdentityCheck.cpp])

    Who else has the id a hello carries, what to do about it, and the one check
    that can be in progress: its phases, its question, and when a link is told to
    ask, remove, refuse or admit. The links that carry the steps out are in
    [HelloHandling]. Microsecond counters are the 32-bit values the code keeps. *)
From S2P Require Import Prelude ClientTable ControlToken Hello.

(** [src/src/libs/IdentityCheck.h:34-38] multiclient::Seat *)
Record Seat := mk_seat { seat_link : Link; seat_index : Z }.
#[export] Instance Seat_eq_dec : EqDecision Seat. Proof. solve_decision. Defined.
(** [src/src/libs/IdentityCheck.h:40-40] multiclient::wifi_seat *)
Definition wifi_seat (index : Z) : Seat := mk_seat link_wifi index.
(** [src/src/libs/IdentityCheck.h:41-41] multiclient::usb_seat *)
Definition usb_seat : Seat := mk_seat link_usb (-1).
(** [src/src/libs/IdentityCheck.h:42-42] multiclient::same_seat *)
Definition same_seat (a b : Seat) : bool :=
  bool_decide (seat_link a = seat_link b) && (seat_index a =? seat_index b).

(** [src/src/libs/IdentityCheck.cpp:5-11] multiclient::client_at *)
Definition client_at (t : ClientTable) (seat : Seat) : option Client :=
  match seat_link seat with link_usb => usb t | link_wifi => wifi_at t (seat_index seat) end.
(** Writing through the pointer the non-const [client_at] returns.
    [src/src/libs/IdentityCheck.h:44-46] multiclient::client_at *)
Definition update_at (t : ClientTable) (seat : Seat) (f : Client -> Client) : ClientTable :=
  match seat_link seat with link_usb => update_usb t f | link_wifi => update_wifi t (seat_index seat) f end.

(** [src/src/libs/IdentityCheck.cpp:13-16] multiclient::same_launch *)
Definition same_launch (c : Client) (h : Hello) : bool :=
  if negb (Bool.eqb (has_launch c) (he_has_launch h)) then false
  else negb (he_has_launch h) || (launch c =? he_launch h).

(** [src/src/libs/IdentityCheck.h:52-54] multiclient::presence_answer_wait_us *)
Definition presence_answer_wait_us : Z := 2000000.
(** [src/src/libs/IdentityCheck.h:56-60] multiclient::presence_max_pause_us *)
Definition presence_max_pause_us : Z := 250000.
(** [src/src/libs/IdentityCheck.h:62-63] multiclient::presence_check_length *)
Definition presence_check_length : Z := 4.

(** [src/src/libs/IdentityCheck.h:65-70] multiclient::HelloAction *)
Inductive HelloAction := ha_admit | ha_replace | ha_ask | ha_busy.
#[export] Instance HelloAction_eq_dec : EqDecision HelloAction. Proof. solve_decision. Defined.
(** [src/src/libs/IdentityCheck.h:72-75] multiclient::HelloDecision *)
Record HelloDecision := mk_decision { action : HelloAction; other : Seat }.
#[export] Instance eta_HelloDecision : Eta HelloDecision := fun d => mk_decision (action d) (other d).

(** The first decision, no check considered.
    [src/src/libs/IdentityCheck.cpp:18-30] multiclient::decide_hello *)
Definition decide_among (t : ClientTable) (self : Seat) (h : Hello) : HelloDecision :=
  let wifi := find_wifi_by_id t (he_id h) (if decide (seat_link self = link_wifi) then seat_index self else -1) in
  let judge other :=
    mk_decision (match client_at t other with
                 | Some c => if same_launch c h then ha_replace else ha_ask
                 | None => ha_ask (* never: the entry was just found *)
                 end) other in
  if 0 <=? wifi then judge (wifi_seat wifi)
  else if bool_decide (seat_link self = link_wifi) && usb_has_id t (he_id h) then judge usb_seat
  else mk_decision ha_admit (mk_seat link_wifi (-1)).

(** What it makes of the client.
    [src/src/libs/IdentityCheck.cpp:47-50] multiclient::admit_hello *)
Definition admitted (self : Client) (h : Hello) : Client :=
  (set_identity self (he_id h) (he_name h) (he_name_len h))
    <| features := he_features h |> <| has_launch := he_has_launch h |> <| launch := he_launch h |>.
(** [src/src/libs/IdentityCheck.cpp:46-52] multiclient::admit_hello *)
Definition admit_hello (self : Client) (h : Hello) (holder : Identity) : Client * Identity * bool :=
  let '(holder, freed) := release_if_holder holder (he_id h) in (admitted self h, holder, freed).

(** [src/src/libs/IdentityCheck.h:89-97] multiclient::CheckStep *)
Inductive CheckStep := cs_wait | cs_ask | cs_retire | cs_refuse | cs_admit | cs_drop.
#[export] Instance CheckStep_eq_dec : EqDecision CheckStep. Proof. solve_decision. Defined.

(** [src/src/libs/IdentityCheck.h:144-144] multiclient::IdentityCheck::Phase *)
Inductive Phase := ph_idle | ph_ask | ph_waiting | ph_retire | ph_admit | ph_refuse.
#[export] Instance Phase_eq_dec : EqDecision Phase. Proof. solve_decision. Defined.

(** [src/src/libs/IdentityCheck.h:99-157] multiclient::IdentityCheck *)
Record IdentityCheck := mk_check {
  phase_ : Phase; newcomer : Seat; old : Seat; newcomer_address_ : Address;
  number_ : Z; asked_us_ : Z; last_step_us_ : Z; hello : Hello
}.
#[export] Instance eta_IdentityCheck : Eta IdentityCheck := fun k =>
  mk_check (phase_ k) (newcomer k) (old k) (newcomer_address_ k) (number_ k) (asked_us_ k) (last_step_us_ k) (hello k).
Definition new_check : IdentityCheck :=
  mk_check ph_idle (wifi_seat (-1)) (wifi_seat (-1)) (mk_address (0, 0, 0, 0) 0) 0 0 0 no_hello.

(** [src/src/libs/IdentityCheck.h:103-103] multiclient::IdentityCheck::active *)
Definition active (k : IdentityCheck) : bool := negb (bool_decide (phase_ k = ph_idle)).
(** [src/src/libs/IdentityCheck.h:112-113] multiclient::IdentityCheck::holds *)
Definition holds (k : IdentityCheck) (seat : Seat) : bool := active k && same_seat seat (newcomer k).

(** [src/src/libs/IdentityCheck.cpp:32-44] multiclient::decide_hello *)
Definition decide_hello (t : ClientTable) (self : Seat) (h : Hello) (k : IdentityCheck) : HelloDecision :=
  if active k && (he_id (hello k) =? he_id h) then mk_decision ha_busy (mk_seat link_wifi (-1))
  else
    let decision := decide_among t self h in
    let needs_check := bool_decide (action decision = ha_ask)
                       || bool_decide (action decision = ha_replace) && bool_decide (seat_link self = link_usb) in
    if needs_check && active k then decision <| action := ha_busy |> else decision.

(** [src/src/libs/IdentityCheck.cpp:54-67] multiclient::IdentityCheck::begin *)
Definition begin (k : IdentityCheck) (t : ClientTable) (newcomer_ old_ : Seat) (h : Hello) (ask_first : bool)
    (now_us : Z) : IdentityCheck * ClientTable * bool :=
  if active k then (k, t, false)
  else match client_at t newcomer_ with
  | None => (k, t, false)
  | Some c =>
      (k <| newcomer := newcomer_ |> <| newcomer_address_ := address c |> <| old := old_ |> <| hello := h |>
         <| last_step_us_ := now_us |> <| phase_ := if ask_first then ph_ask else ph_retire |>,
       update_at t newcomer_ (fun c => c <| hello_held := true |>), true)
  end.

(** [src/src/libs/IdentityCheck.cpp:69-73] multiclient::IdentityCheck::newcomer_present *)
Definition newcomer_present (k : IdentityCheck) (t : ClientTable) : bool :=
  match client_at t (newcomer k) with
  | Some c => hello_held c && negb (identified c) && same_address (address c) (newcomer_address_ k)
  | None => false
  end.
(** [src/src/libs/IdentityCheck.cpp:75-78] multiclient::IdentityCheck::old_present *)
Definition old_present (k : IdentityCheck) (t : ClientTable) : bool :=
  match client_at t (old k) with
  | Some c => identified c && (id c =? he_id (hello k))
  | None => false
  end.

(** [src/src/libs/IdentityCheck.cpp:80-107] multiclient::IdentityCheck::next_step *)
Definition next_step (k : IdentityCheck) (t : ClientTable) (l : Link) (now_us : Z) (link_can_read : bool)
    : IdentityCheck * CheckStep :=
  if negb (active k) then (k, cs_wait)
  else if negb (newcomer_present k t) then (k, cs_drop)
  else
  let k := if negb (bool_decide (phase_ k = ph_refuse)) && negb (old_present k t) then k <| phase_ := ph_admit |> else k in
  let k := if bool_decide (l = seat_link (old k)) && negb link_can_read
              && (bool_decide (phase_ k = ph_waiting) || bool_decide (phase_ k = ph_retire))
           then k <| phase_ := ph_ask |> else k in
  let k := if bool_decide (phase_ k = ph_waiting) && (presence_max_pause_us <? u32 (now_us - last_step_us_ k))
           then k <| phase_ := ph_ask |> else k in
  let k := k <| last_step_us_ := now_us |> in
  let k := if bool_decide (phase_ k = ph_waiting) && (presence_answer_wait_us <=? u32 (now_us - asked_us_ k))
           then k <| phase_ := ph_retire |> else k in
  (k, match phase_ k with
      | ph_ask => if bool_decide (l = seat_link (old k)) && link_can_read then cs_ask else cs_wait
      | ph_retire => if bool_decide (l = seat_link (old k)) then cs_retire else cs_wait
      | ph_refuse => if bool_decide (l = seat_link (newcomer k)) then cs_refuse else cs_wait
      | ph_admit => if bool_decide (l = seat_link (newcomer k)) then cs_admit else cs_wait
      | _ => cs_wait
      end).

(** [src/src/libs/IdentityCheck.cpp:109-112] multiclient::IdentityCheck::build_question *)
Definition build_question (k : IdentityCheck) : list Z := be_bytes 4 (number_ k).
(** [src/src/libs/IdentityCheck.cpp:114-118] multiclient::IdentityCheck::asked *)
Definition asked (k : IdentityCheck) (now_us : Z) : IdentityCheck :=
  if negb (bool_decide (phase_ k = ph_ask)) then k else k <| asked_us_ := now_us |> <| phase_ := ph_waiting |>.
(** [src/src/libs/IdentityCheck.cpp:120-122] multiclient::IdentityCheck::retired *)
Definition retired (k : IdentityCheck) : IdentityCheck :=
  if bool_decide (phase_ k = ph_retire) then k <| phase_ := ph_admit |> else k.

(** [src/src/libs/IdentityCheck.cpp:124-132] multiclient::IdentityCheck::note_answer *)
Definition note_answer (k : IdentityCheck) (from : Seat) (data : list Z) : IdentityCheck * bool :=
  if negb (bool_decide (phase_ k = ph_waiting)) || negb (same_seat from (old k)) then (k, false)
  else if Z.of_nat (length data) <? presence_check_length then (k, false)
  else if negb (be_val 32 (take 4 data) =? number_ k) then (k, false)
  else (k <| phase_ := ph_refuse |>, true).

(** [src/src/libs/IdentityCheck.cpp:134-139] multiclient::IdentityCheck::end *)
Definition end_check (k : IdentityCheck) (t : ClientTable) : IdentityCheck * ClientTable :=
  if negb (active k) then (k, t)
  else (k <| phase_ := ph_idle |> <| number_ := u32 (number_ k + 1) |>,
        if newcomer_present k t then update_at t (newcomer k) (fun c => c <| hello_held := false |>) else t).

(** ** Histories of a check

    What happens to the check, newest first. Times are true ones; the code sees
    them modulo 2^32. *)
Inductive Event :=
| ev_begin (t : ClientTable) (newcomer_ old_ : Seat) (h : Hello) (ask_first : bool) (time : Z)
| ev_step (t : ClientTable) (l : Link) (time : Z) (link_can_read : bool)
| ev_asked (time : Z)
| ev_retired
| ev_answer (from : Seat) (data : list Z)
| ev_end (t : ClientTable).

Definition happen (k : IdentityCheck) (e : Event) : IdentityCheck :=
  match e with
  | ev_begin t n o h ask_first time => (begin k t n o h ask_first (u32 time)).1.1
  | ev_step t l time r => (next_step k t l (u32 time) r).1
  | ev_asked time => asked k (u32 time)
  | ev_retired => retired k
  | ev_answer from data => (note_answer k from data).1
  | ev_end t => (end_check k t).1
  end.
Definition after (tr : list Event) : IdentityCheck := foldr (fun e k => happen k e) new_check tr.

Definition starts (k : IdentityCheck) (t : ClientTable) (n : Seat) : bool :=
  negb (active k) && bool_decide (client_at t n <> None).
Definition looks (k : IdentityCheck) (t : ClientTable) : bool := active k && newcomer_present k t.

(** When the check was last started or looked at. *)
Fixpoint last_service (tr : list Event) : Z :=
  match tr with
  | ev_begin t n _ _ _ time :: tr => if starts (after tr) t n then time else last_service tr
  | ev_step t _ time _ :: tr => if looks (after tr) t then time else last_service tr
  | _ :: tr => last_service tr
  | [] => 0
  end.
Fixpoint latest (tr : list Event) : Z :=
  match tr with
  | ev_begin _ _ _ _ _ time :: _ | ev_step _ _ time _ :: _ | ev_asked time :: _ => time
  | _ :: tr => latest tr
  | [] => 0
  end.

(** Time does not run back, and the links look at the check at least once in the
    71 minutes the microsecond counter takes to wrap. *)
Fixpoint timely_check (tr : list Event) : Prop :=
  match tr with
  | ev_step _ _ time _ :: tr => latest tr <= time < last_service tr + 2 ^ 32 /\ timely_check tr
  | ev_begin _ _ _ _ _ time :: tr | ev_asked time :: tr => latest tr <= time /\ timely_check tr
  | _ :: tr => timely_check tr
  | [] => True
  end.

(** The answer the check is waiting for. *)
Definition answers (k : IdentityCheck) (from : Seat) (data : list Z) : Prop :=
  from = old k /\ (4 <= length data)%nat /\ be_val 32 (take 4 data) = number_ k.

(** In [tr] the old entry was asked at [a] and has kept silent since, with its
    link able to read and nobody away for more than a quarter of a second. *)
Inductive silent : list Event -> Z -> Prop :=
| silent_asked tr a : phase_ (after tr) = ph_ask -> silent (ev_asked a :: tr) a
| silent_again tr a b : phase_ (after tr) <> ph_ask -> silent tr a -> silent (ev_asked b :: tr) a
| silent_step tr a t l time r : silent tr a ->
    (looks (after tr) t = true ->
       time - last_service tr <= presence_max_pause_us /\ (l = seat_link (old (after tr)) -> r = true)) ->
    silent (ev_step t l time r :: tr) a
| silent_answer tr a from data : silent tr a -> ~ answers (after tr) from data -> silent (ev_answer from data :: tr) a
| silent_retired tr a : silent tr a -> silent (ev_retired :: tr) a
| silent_begin tr a t n o h ask_first time : silent tr a -> active (after tr) = true ->
    silent (ev_begin t n o h ask_first time :: tr) a.

(** Events that leave a due removal due: all but the end of the check and a look
    from the old entry's link while it cannot read. *)
Definition leaves_due (k : IdentityCheck) (e : Event) : Prop :=
  match e with
  | ev_end _ => False
  | ev_step t l _ r => looks k t = true -> l = seat_link (old k) -> r = true
  | _ => True
  end.

(** The old entry may be removed: the check was begun for a reconnect, or the
    entry has been silent for two seconds. *)
Inductive due : list Event -> Prop :=
| due_reconnect tr t n o h time : starts (after tr) t n = true -> due (ev_begin t n o h false time :: tr)
| due_silence tr a t l time r : silent (ev_step t l time r :: tr) a -> presence_answer_wait_us <= time - a ->
    due (ev_step t l time r :: tr)
| due_later tr e : due tr -> active (after tr) = true -> leaves_due (after tr) e -> due (e :: tr).

(** In this check the old entry has answered. *)
Inductive answered : list Event -> Prop :=
| answered_now tr a from data : silent tr a -> answers (after tr) from data -> answered (ev_answer from data :: tr)
| answered_later tr e : answered tr -> active (after tr) = true -> (forall t, e <> ev_end t) -> answered (e :: tr).

(** What each phase rests on. *)
Record grounded (tr : list Event) : Prop := {
  gr_service : active (after tr) = true -> last_step_us_ (after tr) = u32 (last_service tr);
  gr_order : last_service tr <= latest tr;
  gr_waiting : phase_ (after tr) = ph_waiting ->
    exists a, silent tr a /\ asked_us_ (after tr) = u32 a /\ a <= latest tr;
  gr_retire : phase_ (after tr) = ph_retire -> due tr;
  gr_refuse : phase_ (after tr) = ph_refuse -> answered tr
}.

Lemma active_spec k : active k = true <-> phase_ k <> ph_idle.
Proof. unfold active. by rewrite negb_true_iff, bool_decide_eq_false. Qed.

Lemma same_seat_spec a b : same_seat a b = true <-> a = b.
Proof.
  destruct a, b. unfold same_seat. rewrite andb_true_iff, bool_decide_eq_true, Z.eqb_eq. cbn.
  split; [intros [-> ->]; done|]. by intros [= -> ->].
Qed.

(** The phase a look leaves, from what it finds: the old entry, whether the link
    is its own, whether that can read, too long a pause, the wait over. *)
Definition phase_looked (ph : Phase) (found own reads pause over : bool) : Phase :=
  let ph := if negb (bool_decide (ph = ph_refuse)) && negb found then ph_admit else ph in
  let ph := if own && negb reads && (bool_decide (ph = ph_waiting) || bool_decide (ph = ph_retire)) then ph_ask else ph in
  let ph := if bool_decide (ph = ph_waiting) && pause then ph_ask else ph in
  if bool_decide (ph = ph_waiting) && over then ph_retire else ph.
Definition step_looked (ph : Phase) (own own_new reads : bool) : CheckStep :=
  match ph with
  | ph_ask => if own && reads then cs_ask else cs_wait
  | ph_retire => if own then cs_retire else cs_wait
  | ph_refuse => if own_new then cs_refuse else cs_wait
  | ph_admit => if own_new then cs_admit else cs_wait
  | _ => cs_wait
  end.

Lemma next_step_eq k t l n r :
  looks k t = true ->
  let ph := phase_looked (phase_ k) (old_present k t) (bool_decide (l = seat_link (old k))) r
              (presence_max_pause_us <? u32 (n - last_step_us_ k)) (presence_answer_wait_us <=? u32 (n - asked_us_ k)) in
  next_step k t l n r =
    (k <| phase_ := ph |> <| last_step_us_ := n |>,
     step_looked ph (bool_decide (l = seat_link (old k))) (bool_decide (l = seat_link (newcomer k))) r).
Proof.
  unfold looks. intros [Ha Hn]%andb_true_iff. unfold next_step. rewrite Ha, Hn. change (negb true) with false. cbv iota.
  set (op := old_present k t). clearbody op. apply active_spec in Ha. clear Hn.
  destruct k as [ph nw [lo io] na num au ls h]. cbn [phase_] in Ha. destruct ph; [done|destruct l, lo, op, r..];
    cbv -[Z.ltb Z.leb wrap Z.sub presence_max_pause_us presence_answer_wait_us]; try reflexivity;
    destruct (Z.ltb _ _); try reflexivity; destruct (Z.leb _ _); reflexivity.
Qed.

(** What a look at the check does to it, whatever phase it is in. *)
Lemma next_step_looks k t l n r :
  looks k t = true ->
  let '(k', s) := next_step k t l n r in
  newcomer k' = newcomer k /\ old k' = old k /\ newcomer_address_ k' = newcomer_address_ k /\ number_ k' = number_ k /\
  hello k' = hello k /\ asked_us_ k' = asked_us_ k /\ last_step_us_ k' = n /\
  match phase_ k' with
  | ph_idle => False
  | ph_ask => old_present k t = true /\ s = if bool_decide (l = seat_link (old k)) && r then cs_ask else cs_wait
  | ph_waiting => phase_ k = ph_waiting /\ old_present k t = true /\ s = cs_wait /\ (l = seat_link (old k) -> r = true) /\
      u32 (n - last_step_us_ k) <= presence_max_pause_us /\ u32 (n - asked_us_ k) < presence_answer_wait_us
  | ph_retire => old_present k t = true /\ (l = seat_link (old k) -> r = true) /\
      s = (if bool_decide (l = seat_link (old k)) then cs_retire else cs_wait) /\
      (phase_ k = ph_retire \/ phase_ k = ph_waiting /\
         u32 (n - last_step_us_ k) <= presence_max_pause_us /\ presence_answer_wait_us <= u32 (n - asked_us_ k))
  | ph_admit => (phase_ k = ph_admit \/ phase_ k <> ph_refuse /\ old_present k t = false) /\
      s = if bool_decide (l = seat_link (newcomer k)) then cs_admit else cs_wait
  | ph_refuse => phase_ k = ph_refuse /\ s = if bool_decide (l = seat_link (newcomer k)) then cs_refuse else cs_wait
  end.
Proof.
  intros Hlk. rewrite next_step_eq by done. cbn zeta. apply andb_true_iff in Hlk as [Ha _]. apply active_spec in Ha. recs.
  do 7 (split; [done|]).
  destruct (bool_decide_reflect (l = seat_link (old k))) as [Hl|Hl], (old_present k t), (phase_ k); try done; destruct r;
    destruct (Z.ltb_spec presence_max_pause_us (u32 (n - last_step_us_ k)));
    destruct (Z.leb_spec presence_answer_wait_us (u32 (n - asked_us_ k)));
    repeat match goal with |- context [phase_looked ?a ?b ?c ?d ?e ?f] =>
      let v := eval vm_compute in (phase_looked a b c d e f) in change (phase_looked a b c d e f) with v end; cbn; auto 8.
Qed.

Lemma next_step_ignored k t l n r : looks k t = false ->
  next_step k t l n r = (k, if active k then cs_drop else cs_wait).
Proof.
  unfold looks, next_step. destruct (active k); [|done]. cbn. by intros ->.
Qed.

Lemma begin_spec k t n o h ask_first now :
  begin k t n o h ask_first now =
    match (if starts k t n then client_at t n else None) with
    | Some c => (k <| newcomer := n |> <| newcomer_address_ := address c |> <| old := o |> <| hello := h |>
                   <| last_step_us_ := now |> <| phase_ := if ask_first then ph_ask else ph_retire |>,
                 update_at t n (fun c => c <| hello_held := true |>), true)
    | None => (k, t, false)
    end.
Proof.
  unfold begin, starts. destruct (active k); [done|]. cbn [negb andb].
  by destruct (client_at t n).
Qed.

Lemma starts_idle k t n : starts k t n = true -> active k = false.
Proof. unfold starts. by destruct (active k). Qed.

Lemma note_answer_spec k from data :
  note_answer k from data =
    (if decide (phase_ k = ph_waiting /\ answers k from data) then (k <| phase_ := ph_refuse |>, true) else (k, false)).
Proof.
  unfold note_answer, answers, presence_check_length.
  destruct (bool_decide_reflect (phase_ k = ph_waiting)) as [Hp|Hp]; cbn [negb orb].
  2: { rewrite decide_False by tauto. done. }
  destruct (same_seat from (old k)) eqn:Hs; cbn [negb].
  2: { rewrite decide_False; [done|]. intros (_ & He & _). apply same_seat_spec in He. congruence. }
  apply same_seat_spec in Hs. destruct (Z.ltb_spec (Z.of_nat (length data)) 4).
  { rewrite decide_False; [done|]. intros (_ & _ & Hl & _). lia. }
  destruct (Z.eqb_spec (be_val 32 (take 4 data)) (number_ k)); cbn [negb].
  - rewrite decide_True; [done|]. split; [done|]. split; [done|]. split; [lia|done].
  - rewrite decide_False by tauto. done.
Qed.

Lemma after_cons e tr : after (e :: tr) = happen (after tr) e.
Proof. done. Qed.

Lemma last_service_latest e tr :
  timely_check (e :: tr) -> last_service tr <= latest tr -> last_service (e :: tr) <= latest (e :: tr).
Proof.
  destruct e; cbn [timely_check last_service latest]; try done; intros; try (destruct (starts _ _ _)); try (destruct (looks _ _)); lia.
Qed.

Lemma grounded_begin tr t n o h ask_first time :
  grounded tr -> timely_check (ev_begin t n o h ask_first time :: tr) -> grounded (ev_begin t n o h ask_first time :: tr).
Proof.
  intros [G1 G2 G3 G4 G5] Ht. pose proof (last_service_latest _ _ Ht G2) as Ho. destruct Ht as [Hl Ht].
  destruct (starts (after tr) t n) eqn:Hs.
  - assert (exists c, client_at t n = Some c) as [c Hc].
    { unfold starts in Hs. apply andb_true_iff in Hs as [_ Hs]. apply bool_decide_eq_true in Hs.
      destruct (client_at t n); [eauto|done]. }
    assert (after (ev_begin t n o h ask_first time :: tr) =
      (after tr) <| newcomer := n |> <| newcomer_address_ := address c |> <| old := o |> <| hello := h |>
        <| last_step_us_ := u32 time |> <| phase_ := if ask_first then ph_ask else ph_retire |>) as Ha.
    { rewrite after_cons. cbn [happen]. by rewrite begin_spec, Hs, Hc. }
    split; rewrite ?Ha; recs; cbn [last_service]; rewrite ?Hs; try done; destruct ask_first; try done.
    intros _. by apply due_reconnect.
  - assert (after (ev_begin t n o h ask_first time :: tr) = after tr) as Ha.
    { rewrite after_cons. cbn [happen]. by rewrite begin_spec, Hs. }
    split; rewrite ?Ha; [cbn [last_service]; by rewrite Hs|done| | |].
    + intros Hw. destruct (G3 Hw) as (a & Hsi & Has & Hal). exists a. split; [|split; [done|cbn [latest]; lia]].
      apply silent_begin; [done|]. apply active_spec. congruence.
    + intros Hr. apply due_later; [auto| |done]. apply active_spec. congruence.
    + intros Hr. apply answered_later; [auto| |done]. apply active_spec. congruence.
Qed.

Lemma grounded_step tr t l time r :
  grounded tr -> timely_check (ev_step t l time r :: tr) -> grounded (ev_step t l time r :: tr).
Proof.
  intros [G1 G2 G3 G4 G5] Ht. pose proof (last_service_latest _ _ Ht G2) as Ho. destruct Ht as [Hl Ht].
  destruct (looks (after tr) t) eqn:Hlk.
  - pose proof (next_step_looks (after tr) t l (u32 time) r Hlk) as Hn.
    destruct (next_step (after tr) t l (u32 time) r) as [k' s] eqn:Hk.
    assert (after (ev_step t l time r :: tr) = k') as Ha by (rewrite after_cons; cbn [happen]; by rewrite Hk).
    destruct Hn as (_ & Hold & _ & _ & _ & Has & Hls & Hph).
    assert (active (after tr) = true) as Hact by (by apply andb_true_iff in Hlk as [? _]).
    assert (forall a, silent tr a -> (l = seat_link (old (after tr)) -> r = true) ->
      u32 (u32 time - last_step_us_ (after tr)) <= presence_max_pause_us -> silent (ev_step t l time r :: tr) a) as Hsil.
    { intros a Hsi Hr Hp. apply silent_step; [done|]. intros _. split; [|done]. rewrite (G1 Hact) in Hp.
      unfold presence_max_pause_us in *. ints. }
    split; rewrite ?Ha; [cbn [last_service]; by rewrite Hlk|done| | |]; intros Hw; rewrite Hw in Hph.
    + destruct Hph as (Hpw & _ & _ & Hr & Hp & _). destruct (G3 Hpw) as (a & Hsi & Hasu & Hal).
      exists a. split; [auto|]. split; [congruence|cbn [latest]; lia].
    + destruct Hph as (_ & Hr & _ & [Hpr|(Hpw & Hp & Hov)]).
      * apply due_later; [auto|done|]. cbn. auto.
      * destruct (G3 Hpw) as (a & Hsi & Hasu & Hal). apply (due_silence tr a); [auto|].
        rewrite Hasu in Hov. unfold presence_answer_wait_us in *. ints.
    + destruct Hph as [Hpr _]. apply answered_later; [auto|done|done].
  - assert (after (ev_step t l time r :: tr) = after tr) as Ha.
    { rewrite after_cons. cbn [happen]. by rewrite next_step_ignored. }
    split; rewrite ?Ha; [cbn [last_service]; by rewrite Hlk|done| | |].
    + intros Hw. destruct (G3 Hw) as (a & Hsi & Has & Hal). exists a. split; [|split; [done|cbn [latest]; lia]].
      apply silent_step; [done|congruence].
    + intros Hr. apply due_later; [auto| |cbn; congruence]. apply active_spec. congruence.
    + intros Hr. apply answered_later; [auto| |done]. apply active_spec. congruence.
Qed.

Lemma grounded_asked tr time :
  grounded tr -> timely_check (ev_asked time :: tr) -> grounded (ev_asked time :: tr).
Proof.
  intros [G1 G2 G3 G4 G5] Ht. pose proof (last_service_latest _ _ Ht G2) as Ho. destruct Ht as [Hl Ht].
  assert (after (ev_asked time :: tr) = if bool_decide (phase_ (after tr) = ph_ask)
    then (after tr) <| asked_us_ := u32 time |> <| phase_ := ph_waiting |> else after tr) as Ha.
  { rewrite after_cons. cbn [happen]. unfold asked. by destruct (bool_decide _). }
  destruct (bool_decide_reflect (phase_ (after tr) = ph_ask)) as [Hp|Hp].
  - split; rewrite ?Ha; recs; cbn [last_service]; try done.
    + intros _. apply G1, active_spec. congruence.
    + intros _. exists time. split; [by apply silent_asked|]. split; [done|cbn [latest]; lia].
  - split; rewrite ?Ha; cbn [last_service]; [done|done| | |].
    + intros Hw. destruct (G3 Hw) as (a & Hsi & Has & Hal). exists a. split; [by apply silent_again|].
      split; [done|cbn [latest]; lia].
    + intros Hr. apply due_later; [auto| |done]. apply active_spec. congruence.
    + intros Hr. apply answered_later; [auto| |done]. apply active_spec. congruence.
Qed.

Lemma grounded_answer tr from data : grounded tr -> grounded (ev_answer from data :: tr).
Proof.
  intros [G1 G2 G3 G4 G5].
  assert (after (ev_answer from data :: tr) = (note_answer (after tr) from data).1) as Ha by done.
  rewrite note_answer_spec in Ha.
  destruct (decide (phase_ (after tr) = ph_waiting /\ answers (after tr) from data)) as [[Hp Han]|Hno]; cbn [fst] in Ha.
  - destruct (G3 Hp) as (a & Hsi & Has & Hal).
    split; rewrite ?Ha; recs; try done.
    + intros _. apply G1, active_spec. congruence.
    + intros _. by apply (answered_now tr a).
  - split; rewrite ?Ha; try done.
    + intros Hw. destruct (G3 Hw) as (a & Hsi & Has & Hal). exists a. split; [|done]. apply silent_answer; tauto.
    + intros Hr. apply due_later; [auto| |done]. apply active_spec. congruence.
    + intros Hr. apply answered_later; [auto| |done]. apply active_spec. congruence.
Qed.

Lemma grounded_retired tr : grounded tr -> grounded (ev_retired :: tr).
Proof.
  intros [G1 G2 G3 G4 G5].
  assert (after (ev_retired :: tr) = if bool_decide (phase_ (after tr) = ph_retire)
    then (after tr) <| phase_ := ph_admit |> else after tr) as Ha by done.
  destruct (bool_decide_reflect (phase_ (after tr) = ph_retire)) as [Hp|Hp].
  - split; rewrite ?Ha; recs; try done. intros _. apply G1, active_spec. congruence.
  - split; rewrite ?Ha; try done.
    + intros Hw. destruct (G3 Hw) as (a & Hsi & Has & Hal). exists a. by split; [apply silent_retired|].
    + intros Hr. apply answered_later; [auto| |done]. apply active_spec. congruence.
Qed.

Lemma grounded_end tr t : grounded tr -> grounded (ev_end t :: tr).
Proof.
  intros [G1 G2 G3 G4 G5].
  assert (phase_ (after (ev_end t :: tr)) = ph_idle) as Ha.
  { rewrite after_cons. cbn [happen]. unfold end_check. destruct (active (after tr)) eqn:Hact; [done|]. cbn.
    unfold active in Hact. by apply negb_false_iff, bool_decide_eq_true in Hact. }
  split; rewrite ?Ha; try done. intros Hc. apply active_spec in Hc. congruence.
Qed.

Lemma check_grounded tr : timely_check tr -> grounded tr.
Proof.
  induction tr as [|e tr IH]; intros Ht; [by split|].
  assert (timely_check tr) as Ht' by (destruct e; cbn in Ht; tauto).
  destruct e; auto using grounded_begin, grounded_step, grounded_asked, grounded_answer, grounded_retired, grounded_end.
Qed.

(** C22: Nobody is removed or refused without cause. A link is told to remove
    the old entry only if the entry is its own, is still there under the id, and
    removal is due: it is the same controller come back, or it was asked and,
    with its link readable and looked after all along, kept silent for two
    seconds of true time. The newcomer is refused only if the old entry answered
    this very check. The question goes out only on the old entry's own link
    while that can read. *)
Theorem check_steps_justified tr t l time r :
  timely_check (ev_step t l time r :: tr) ->
  let k := after tr in
  match (next_step k t l (u32 time) r).2 with
  | cs_retire => l = seat_link (old k) /\ old_present k t = true /\ due (ev_step t l time r :: tr)
  | cs_refuse => l = seat_link (newcomer k) /\ newcomer_present k t = true /\ answered tr
  | cs_ask => l = seat_link (old k) /\ r = true /\ old_present k t = true
  | cs_admit => l = seat_link (newcomer k) /\ newcomer_present k t = true
  | cs_drop => active k = true /\ newcomer_present k t = false
  | cs_wait => True
  end.
Proof.
  intros Ht k. pose proof (check_grounded _ Ht) as [_ _ _ Hdue _].
  assert (grounded tr) as [_ _ _ _ Hans] by (apply check_grounded; cbn in Ht; tauto).
  destruct (looks k t) eqn:Hlk.
  - assert (newcomer_present k t = true) as Hnp by (by apply andb_true_iff in Hlk as [_ ?]).
    pose proof (next_step_looks k t l (u32 time) r Hlk) as Hn. rewrite after_cons in Hdue. cbn [happen] in Hdue. fold k in Hdue.
    destruct (next_step k t l (u32 time) r) as [k' s]. cbn [fst snd] in *.
    destruct Hn as (_ & _ & _ & _ & _ & _ & _ & Hph).
    destruct (bool_decide_reflect (l = seat_link (old k))), (bool_decide_reflect (l = seat_link (newcomer k)));
      destruct (phase_ k') eqn:Hp; cbn [andb] in *; try done; destruct r; intuition (subst s; auto).
  - rewrite next_step_ignored by done. cbn [snd]. unfold looks in Hlk. destruct (active k); [|done].
    by cbn in Hlk.
Qed.

(** A look that finds both entries, in time, on a link that can read. *)
Definition attentive (tr : list Event) (e : Event) : Prop :=
  match e with
  | ev_step t l time r => looks (after tr) t = true /\ old_present (after tr) t = true /\
      time - last_service tr <= presence_max_pause_us /\ (l = seat_link (old (after tr)) -> r = true)
  | _ => False
  end.
Fixpoint attended (tr evs : list Event) : Prop :=
  match evs with [] => True | e :: evs => attended tr evs /\ attentive (evs ++ tr) e end.

Lemma attended_phase tr a evs :
  phase_ (after tr) = ph_ask -> timely_check (evs ++ ev_asked a :: tr) -> attended (ev_asked a :: tr) evs ->
  let k := after (evs ++ ev_asked a :: tr) in
  old k = old (after tr) /\
  (phase_ k = ph_retire \/
   phase_ k = ph_waiting /\ asked_us_ k = u32 a /\ last_service (evs ++ ev_asked a :: tr) < a + presence_answer_wait_us).
Proof.
  intros Hp. induction evs as [|e evs IH]; intros Ht Ha.
  - cbn [app] in *. pose proof (check_grounded _ Ht) as [_ Ho _ _ _]. cbn in Ho.
    rewrite after_cons. cbn [happen]. unfold asked. rewrite bool_decide_true by done. cbn [negb]. cbv zeta. recs.
    split; [done|]. right. split; [done|]. split; [done|]. cbn. unfold presence_answer_wait_us. lia.
  - destruct Ha as [Ha He]. destruct e as [|t l time r| | | |]; try done. destruct He as (Hlk & Hop & Hgap & Hr).
    destruct Ht as [Htime Ht]. destruct (IH Ht Ha) as [Hold Hph]. cbn [app]. set (tr' := evs ++ ev_asked a :: tr) in *.
    pose proof (check_grounded tr' Ht) as [G1 Go _ _ _].
    assert (active (after tr') = true) as Hact by (by apply andb_true_iff in Hlk as [? _]).
    pose proof (next_step_looks (after tr') t l (u32 time) r Hlk) as Hn. cbv zeta. rewrite after_cons. cbn [happen].
    rewrite next_step_eq in * by done. cbn [fst] in *. cbv zeta in Hn. recs.
    destruct Hn as (_ & _ & _ & _ & _ & _ & _ & _). split; [done|].
    rewrite Hop. cbn [last_service]. rewrite Hlk. rewrite (G1 Hact).
    assert (bool_decide (l = seat_link (old (after tr'))) && negb r = false) as Hno.
    { destruct (bool_decide_reflect (l = seat_link (old (after tr')))) as [Hl|]; [by rewrite Hr|done]. }
    unfold phase_looked. destruct Hph as [Hph|(Hph & Hau & Hlt)]; rewrite Hph; cbn; rewrite Hno; cbn.
    + by left.
    + rewrite Hau. rewrite (proj2 (Z.ltb_ge _ _)) by (unfold presence_max_pause_us in *; ints). cbn.
      destruct (Z.leb_spec presence_answer_wait_us (u32 (u32 time - u32 a))) as [Hle|Hgt]; cbn; [by left|].
      right. split; [done|]. split; [done|].
      unfold presence_answer_wait_us, presence_max_pause_us in *. ints.
Qed.

(** A silent entry gives way. Once the old entry has been asked, if the
    links keep looking at the check at most a quarter of a second apart and no
    answer comes, then the first look from the old entry's link two seconds or
    more after the question is told to remove it. *)
Theorem silent_entry_gives_way tr a evs t l time r :
  phase_ (after tr) = ph_ask ->
  timely_check (ev_step t l time r :: evs ++ ev_asked a :: tr) ->
  attended (ev_asked a :: tr) (ev_step t l time r :: evs) ->
  l = seat_link (old (after tr)) -> presence_answer_wait_us <= time - a ->
  (next_step (after (evs ++ ev_asked a :: tr)) t l (u32 time) r).2 = cs_retire.
Proof.
  intros Hp Ht Ha Hl Hw. destruct (attended_phase tr a (ev_step t l time r :: evs) Hp Ht Ha) as [Hold Hph].
  destruct Ha as [Ha (Hlk & _ & _ & _)]. cbn [app] in Hph, Hold. rewrite after_cons in Hph, Hold. cbn [happen] in Hph, Hold.
  set (k := after (evs ++ ev_asked a :: tr)) in *.
  pose proof (next_step_looks k t l (u32 time) r Hlk) as Hn.
  cbn [last_service] in Hph. fold k in Hph. rewrite Hlk in Hph.
  destruct (next_step k t l (u32 time) r) as [k' s]. cbn [fst snd] in *.
  destruct Hn as (_ & Ho & _ & _ & _ & _ & _ & Hn).
  destruct Hph as [Hph|(_ & _ & Hlt)]; [|lia]. rewrite Hph in Hn. destruct Hn as (_ & _ & -> & _).
  rewrite bool_decide_true; [done|]. congruence.
Qed.

(** ** A check, played through *)
Module Played.
Definition launched (launch_ : Z) : Hello := no_hello <| he_id := 7 |> <| he_has_launch := true |> <| he_launch := launch_ |>.
Definition before_check : ClientTable :=
  update_usb (set_usb_present (add_wifi new_table (mk_address (10, 0, 0, 7) 2222) 5).1 true 9)
    (fun c => admitted c (launched 1)).
Definition during : ClientTable := (begin new_check before_check (wifi_seat 0) usb_seat (launched 2) true 100).1.2.
Definition look (time : Z) : Event := ev_step during link_usb time true.
Definition asked_at : list Event :=
  [look 200; ev_begin before_check (wifi_seat 0) usb_seat (launched 2) true 100].
Definition looks_since : list Event := map look [1800300; 1600300; 1400300; 1200300; 1000300; 800300; 600300; 400300; 200300].
End Played.
Import Played.

Ltac played := vm_compute; repeat split; try reflexivity; try discriminate; intros; try reflexivity; try discriminate.

Lemma check_steps_justified_witness :
  (next_step (after (ev_answer usb_seat [0; 0; 0; 0] :: ev_asked 300 :: asked_at)) during link_wifi (u32 400) true).2 = cs_refuse /\
  answered (ev_answer usb_seat [0; 0; 0; 0] :: ev_asked 300 :: asked_at).
Proof.
  assert (timely_check (ev_step during link_wifi 400 true :: ev_answer usb_seat [0; 0; 0; 0] :: ev_asked 300 :: asked_at))
    as Ht by played.
  pose proof (check_steps_justified _ _ _ _ _ Ht) as H. cbv zeta in H. split; [by vm_compute|].
  change ((next_step (after (ev_answer usb_seat [0; 0; 0; 0] :: ev_asked 300 :: asked_at)) during link_wifi (u32 400) true).2)
    with cs_refuse in H. apply H.
Defined.

Lemma silent_entry_gives_way_witness :
  (next_step (after (looks_since ++ ev_asked 300 :: asked_at)) during link_usb (u32 2000300) true).2 = cs_retire.
Proof. apply (silent_entry_gives_way asked_at 300); [by vm_compute|played|played|by vm_compute|by vm_compute]. Defined.
