(* ===== verification/HelloHandling.v ===== *)
(** * How the links answer a hello ([WifiProvider.cpp], [SerialConsole.cpp])

    The two links' hello handlers over the state they share: the client table,
    the identity check and the control token. Each carries out the steps the
    check gives it in a loop. What goes out is recorded in [sent]; whether the
    driver delivers it is not the handlers' business (a failed send only marks
    the client, [ClientTable.op_send]). The WiFi driver and its socket are
    outside the model, as is the per-connection bookkeeping of
    [forget_wifi_client]. *)
From S2P Require Import Prelude ClientTable ControlToken Publish Hello IdentityCheck.

Inductive Sent :=
| sent_ack (to : Seat) (result : HelloResult)
| sent_question (to : Seat) (payload : list Z)
| published (event : list Z)
| closed (connection : Address).

Record Links := mk_links { table : ClientTable; check : IdentityCheck; holder : Identity; sent : list Sent }.
#[export] Instance eta_Links : Eta Links := fun s => mk_links (table s) (check s) (holder s) (sent s).

Definition send (x : Sent) (s : Links) : Links := s <| sent := sent s ++ [x] |>.
(** [publish_multiclient] of what a builder wrote, if it wrote anything. *)
Definition publish (built : list Z * Z) (s : Links) : Links :=
  let '(payload, length) := built in
  if negb (length =? 0) then send (published (take (Z.to_nat length) payload)) s else s.

(** Admission, the same on both links: [seat]'s client is [self].
    [src/src/modules/utils/wifi/WifiProvider.cpp:965-982] WifiProvider::admit_wifi_hello *)
Definition admit_wifi_hello (client_index : Z) (h : Hello) (reconnect : bool) (s : Links) : Links :=
  match wifi_at (table s) client_index with
  | None => s
  | Some self =>
      let '(self, holder_, freed) := admit_hello self h (holder s) in
      let s := s <| table := update_wifi (table s) client_index (fun _ => self) |> <| holder := holder_ |> in
      let s := if freed then publish (build_control_changed_event 0 [] 0 (repeat 0 10) 10) s else s in
      let s := if negb reconnect
               then publish (build_client_joined_event (id self) (name self) (name_len self) (repeat 0 41) 41) s else s in
      send (sent_ack (wifi_seat client_index) hello_result_accepted) s
  end.
(** [src/src/modules/communication/SerialConsole.cpp:867-887] SerialConsole::admit_usb_hello *)
Definition admit_usb_hello (h : Hello) (reconnect : bool) (s : Links) : Links :=
  match usb (table s) with
  | None => s
  | Some self =>
      let '(self, holder_, freed) := admit_hello self h (holder s) in
      let s := s <| table := update_usb (table s) (fun _ => self) |> <| holder := holder_ |> in
      let s := if freed then publish (build_control_changed_event 0 [] 0 (repeat 0 10) 10) s else s in
      let s := if negb reconnect
               then publish (build_client_joined_event (id self) (name self) (name_len self) (repeat 0 41) 41) s else s in
      send (sent_ack usb_seat hello_result_accepted) s
  end.

(** [src/src/modules/utils/wifi/WifiProvider.cpp:984-994] WifiProvider::retire_wifi_client *)
Definition retire_wifi_client (client_index : Z) (s : Links) : Links :=
  match wifi_at (table s) client_index with
  | None => s
  | Some c => send (closed (address c)) (s <| table := (remove_wifi (table s) client_index).1 |>)
  end.

(** Ending the check before its outcome is carried out. *)
Definition end_it (s : Links) : Links :=
  let '(k, t) := end_check (check s) (table s) in s <| check := k |> <| table := t |>.

(** The [for (;;)] loop; [None] is a loop that did not end in [fuel] turns.
    [src/src/modules/utils/wifi/WifiProvider.cpp:996-1034] WifiProvider::drive_identity_check *)
Fixpoint drive_wifi (fuel : nat) (now_us : Z) (s : Links) : option Links :=
  match fuel with
  | O => None
  | S fuel =>
      let '(k, step) := next_step (check s) (table s) link_wifi now_us true in
      let s := s <| check := k |> in
      match step with
      | cs_ask =>
          let s := send (sent_question (wifi_seat (seat_index (old k))) (build_question k)) s in
          drive_wifi fuel now_us (s <| check := asked k now_us |>)
      | cs_retire =>
          let s := retire_wifi_client (seat_index (old k)) s in
          drive_wifi fuel now_us (s <| check := retired k |>)
      | cs_refuse => Some (end_it (send (sent_ack (wifi_seat (seat_index (newcomer k))) hello_result_identity_connected) s))
      | cs_admit => Some (admit_wifi_hello (seat_index (newcomer k)) (hello k) true (end_it s))
      | cs_drop => Some (end_it s)
      | cs_wait => Some s
      end
  end.
(** [can_read]: receive handling is on and no refused transfer is being drained.
    [src/src/modules/communication/SerialConsole.cpp:889-932] SerialConsole::drive_identity_check *)
Fixpoint drive_usb (fuel : nat) (can_read : bool) (now_us : Z) (s : Links) : option Links :=
  match fuel with
  | O => None
  | S fuel =>
      let '(k, step) := next_step (check s) (table s) link_usb now_us can_read in
      let s := s <| check := k |> in
      match step with
      | cs_ask =>
          let s := send (sent_question usb_seat (build_question k)) s in
          drive_usb fuel can_read now_us (s <| check := asked k now_us |>)
      | cs_retire =>
          let s := s <| table := clear_usb_identity (table s) |> in
          drive_usb fuel can_read now_us (s <| check := retired k |>)
      | cs_refuse => Some (end_it (send (sent_ack usb_seat hello_result_identity_connected) s))
      | cs_admit => Some (admit_usb_hello (hello k) true (end_it s))
      | cs_drop => Some (end_it s)
      | cs_wait => Some s
      end
  end.

(** Turns enough for either loop ([drives_return]). *)
Definition turns : nat := 2.
Definition run (drive : Links -> option Links) (s : Links) : Links := default s (drive s).

(** [src/src/modules/utils/wifi/WifiProvider.cpp:895-960] WifiProvider::handle_wifi_hello *)
Definition handle_wifi_hello (client_index : Z) (payload : list Z) (now_us : Z) (s : Links) : Links :=
  match wifi_at (table s) client_index with
  | None => s
  | Some self =>
  match parse_hello payload no_hello with
  | None => s
  | Some h =>
  let seat := wifi_seat client_index in
  if negb (identified self) then
    if holds (check s) seat then s
    else if has_old_client (table s) now_us client_index false then
      send (sent_ack seat hello_result_old_controller_present) s
    else
    let decision := decide_hello (table s) seat h (check s) in
    let busy s :=
      send (sent_ack seat hello_result_busy)
        (s <| table := update_wifi (table s) client_index (fun c => restart_hello_window c now_us) |>) in
    match action decision with
    | ha_busy => busy s
    | ha_replace =>
        let s := match seat_link (other decision) with
                 | link_usb => s <| table := clear_usb_identity (table s) |>
                 | link_wifi => retire_wifi_client (seat_index (other decision)) s
                 end in
        admit_wifi_hello client_index h true s
    | ha_ask =>
        let '(k, t, begun) := begin (check s) (table s) seat (other decision) h true now_us in
        let s := s <| check := k |> <| table := t |> in
        if negb begun then busy s else run (drive_wifi turns now_us) s
    | ha_admit => admit_wifi_hello client_index h false s
    end
  else
    send (sent_ack seat hello_result_accepted)
      (s <| table := update_wifi (table s) client_index
              (fun c => c <| features := he_features h |> <| has_launch := he_has_launch h |> <| launch := he_launch h |>) |>)
  end end.

(** [begin_us] and [drive_us] are its two further readings of the clock.
    [src/src/modules/communication/SerialConsole.cpp:816-865] SerialConsole::handle_hello *)
Definition handle_usb_hello (payload : list Z) (can_read : bool) (now_us begin_us drive_us : Z) (s : Links) : Links :=
  match usb (table s) with
  | None => s
  | Some self =>
  match parse_hello payload no_hello with
  | None => s
  | Some h =>
  if negb (identified self) then
    if holds (check s) usb_seat then s
    else if has_old_client (table s) now_us (-1) true then
      send (sent_ack usb_seat hello_result_old_controller_present) s
    else
    let decision := decide_hello (table s) usb_seat h (check s) in
    if decide (action decision = ha_admit) then admit_usb_hello h false s
    else
    let busy s :=
      send (sent_ack usb_seat hello_result_busy)
        (s <| table := update_usb (table s) (fun c => restart_hello_window c now_us) |>) in
    let ask_first := bool_decide (action decision = ha_ask) in
    if decide (action decision = ha_busy) then busy s
    else
      let '(k, t, begun) := begin (check s) (table s) usb_seat (other decision) h ask_first begin_us in
      let s := s <| check := k |> <| table := t |> in
      if negb begun then busy s else run (drive_usb turns can_read drive_us) s
  else
    send (sent_ack usb_seat hello_result_accepted)
      (s <| table := update_usb (table s)
              (fun c => c <| features := he_features h |> <| has_launch := he_has_launch h |> <| launch := he_launch h |>) |>)
  end end.

(** A presence reply, from either link.
    [src/src/modules/utils/wifi/WifiProvider.cpp:468-472] WifiProvider::receive_wifi_data *)
Definition handle_presence_reply (from : Seat) (payload : list Z) (s : Links) : Links :=
  s <| check := (note_answer (check s) from payload).1 |>.

(** ** Seats and the table's operations *)
Definition seat_ok (a : Seat) : Prop := seat_link a = link_usb -> seat_index a = -1.

Lemma client_at_slot t a c : table_ok t ->
  client_at t a = Some c <->
  match seat_link a with
  | link_wifi => exists k, seat_index a = Z.of_nat k /\ slot_at t k c
  | link_usb => usb_ t = mk_slot true c
  end.
Proof.
  intros Ht. unfold client_at. destruct (seat_link a); [by apply wifi_at_spec|].
  unfold usb. destruct (usb_ t) as [u d]. cbn. destruct u; split; congruence.
Qed.

(** [t'] names nobody that [t] does not, and holds nobody's hello anew. *)
Definition quieter (t t' : ClientTable) : Prop :=
  forall a c', seat_ok a -> client_at t' a = Some c' ->
    (exists c, client_at t a = Some c /\ identified c' = identified c /\ id c' = id c /\
       (hello_held c' = true -> hello_held c = true /\ address c' = address c)) \/
    (identified c' = false /\ hello_held c' = false).

#[export] Instance quieter_refl : Reflexive quieter.
Proof. intros t a c _ Hc. left. exists c. auto. Qed.
#[export] Instance quieter_trans : Transitive quieter.
Proof.
  intros t1 t2 t3 H12 H23 a c3 Ha H3. destruct (H23 a c3 Ha H3) as [(c2 & H2 & Hi & Hid & Hh)|]; [|auto].
  destruct (H12 a c2 Ha H2) as [(c1 & H1 & Hi1 & Hid1 & Hh1)|[Hi1 Hh1]].
  - left. exists c1. split; [done|]. split; [congruence|]. split; [congruence|]. intros Hc. destruct (Hh Hc) as [Hc2 ->]. auto.
  - right. split; [congruence|]. destruct (hello_held c3); [|done]. destruct Hh as [? _]; congruence.
Qed.

Lemma valid_index_slot t i : valid_index t i = true ->
  exists k c, i = Z.of_nat k /\ (k < 3)%nat /\ slot_at t k c.
Proof.
  unfold valid_index, max_wifi_clients. rewrite negb_true_iff, !orb_false_iff, negb_false_iff, Z.ltb_ge, Z.leb_gt.
  intros [[H0 H3] Hu]. exists (Z.to_nat i). rewrite list_lookup_total_alt in Hu.
  destruct (wifi_ t !! Z.to_nat i) as [[u c]|] eqn:Hs; [|done]. cbn in Hu. subst u. exists c. split; [lia|]. split; [lia|done].
Qed.

Lemma client_at_update t a f b :
  seat_ok a -> seat_ok b ->
  client_at (update_at t a f) b = if decide (a = b) then f <$> client_at t b else client_at t b.
Proof.
  destruct a as [la ia], b as [lb ib]. unfold seat_ok, client_at, update_at. cbn. intros Ha Hb.
  destruct la, lb.
  2: { rewrite decide_False by congruence. unfold update_wifi. by destruct (negb _). }
  2: { rewrite decide_False by congruence. unfold update_usb. by destruct (in_use _). }
  - unfold update_wifi. destruct (valid_index t ia) eqn:Hv; cbn [negb].
    2: { destruct (decide _) as [[= <-]|]; [|done]. unfold wifi_at. by rewrite Hv. }
    apply valid_index_slot in Hv as (k & c & -> & Hk & Hs). rewrite Nat2Z.id. unfold wifi_at, valid_index. recs.
    destruct (decide _) as [[= <-]|Hne].
    + rewrite Nat2Z.id, (list_lookup_total_correct (alter _ _ _) _ (mk_slot true (f c))), (list_lookup_total_correct _ _ _ Hs)
        by (by rewrite list_lookup_alter_eq, Hs).
      by destruct (_ || _).
    + destruct (Z.ltb_spec ib 0); [done|]. cbn [orb].
      rewrite !list_lookup_total_alt, !list_lookup_alter_ne by (intros ->; apply Hne; f_equal; lia). done.
  - rewrite Ha, Hb by done. rewrite decide_True by done. unfold usb, update_usb.
    destruct (in_use (usb_ t)) eqn:Hu; recs; [|by rewrite Hu]. by rewrite Hu.
Qed.

Lemma update_quieter t a f :
  seat_ok a ->
  (forall c, client_at t a = Some c -> identified (f c) = identified c /\ id (f c) = id c /\
     (hello_held (f c) = true -> hello_held c = true /\ address (f c) = address c)) ->
  quieter t (update_at t a f).
Proof.
  intros Ha Hf b c' Hb. rewrite client_at_update by done. destruct (decide (a = b)) as [<-|]; [|intros; left; exists c'; auto].
  intros (c & Hc & ->)%fmap_Some. left. exists c. by split; [|apply Hf].
Qed.

Definition fresh (c : Client) : Prop := identified c = false /\ hello_held c = false.

Lemma slots_quieter t t' :
  table_ok t -> table_ok t' ->
  (forall k c, slot_at t' k c -> slot_at t k c \/ fresh c) ->
  (forall c, usb_ t' = mk_slot true c -> usb_ t = mk_slot true c \/ fresh c) -> quieter t t'.
Proof.
  intros Ht Ht' Hw Hu a c' _ Hc. apply (client_at_slot t' a c' Ht') in Hc.
  assert (client_at t a = Some c' \/ fresh c') as [Hc'|]; [|left; exists c'; auto|by right].
  rewrite client_at_slot by done. destruct (seat_link a).
  - destruct Hc as (k & Hk & Hs). destruct (Hw k c' Hs); [left; eauto|by right].
  - by apply Hu.
Qed.

Lemma slot_set t k s j c : slot_at (t <| wifi_ := <[k := s]> (wifi_ t) |>) j c ->
  slot_at t j c \/ s = mk_slot true c.
Proof.
  unfold slot_at. recs. intros Hj. apply list_lookup_insert_Some in Hj as [(_ & <- & _)|[_ ?]]; auto.
Qed.

Lemma add_wifi_quieter t a now : table_ok t -> quieter t (add_wifi t a now).1.
Proof.
  intros Ht. apply slots_quieter; [done|by apply add_wifi_keeps| |]; unfold add_wifi;
    destruct (0 <=? _); auto; destruct (_ =? _); auto.
  intros k c [Hs|[= <-]]%slot_set; [auto|by right].
Qed.
Lemma remove_wifi_quieter t i : table_ok t -> quieter t (remove_wifi t i).1.
Proof.
  intros Ht. apply slots_quieter; [done|apply (step_keeps t); [done|apply step_remove]| |]; unfold remove_wifi;
    destruct (negb _); auto. intros k c [Hs|[=]]%slot_set. auto.
Qed.
Lemma clear_wifi_quieter t : table_ok t -> quieter t (clear_wifi t).
Proof.
  intros Ht. apply slots_quieter; [done|apply (step_keeps t); [done|apply step_clear]| |auto].
  intros k c. unfold slot_at, clear_wifi. recs. change (map ?f ?l) with (f <$> l). rewrite list_lookup_fmap.
  by intros (? & _ & ?)%fmap_Some.
Qed.
Lemma set_usb_quieter t p now : table_ok t -> quieter t (set_usb_present t p now).
Proof.
  intros Ht. apply slots_quieter; [done|apply (step_keeps t); [done|apply step_usb]| |]; unfold set_usb_present;
    destruct p; cbn [negb]; try (destruct (in_use (usb_ t))); auto; intros c; recs; intros [=]. by right; subst c.
Qed.
Lemma clear_usb_quieter t : table_ok t -> quieter t (clear_usb_identity t).
Proof.
  intros Ht. apply slots_quieter; [done|apply (step_keeps t); [done|apply step_usb_clear]| |]; unfold clear_usb_identity;
    destruct (negb _); auto. intros c. recs. unfold set_field. cbn. intros [= _ <-]. by right.
Qed.

(** What the rest of the firmware does to a client, identifying it and holding
    its hello aside. *)
Inductive other_op : (Client -> Client) -> Prop :=
| other_heartbeat now : other_op (fun c => record_heartbeat c now)
| other_send ok err : other_op (fun c => note_send_result c ok err)
| other_restart now : other_op (fun c => restart_hello_window c now)
| other_user now : other_op (fun c => c <| last_user_us := now |>)
| other_job_start v : other_op (fun c => c <| job_start_ready := v |>)
| other_features v h l : other_op (fun c => c <| features := v |> <| has_launch := h |> <| launch := l |>).

Lemma update_at_keeps t a f : table_ok t -> client_op f -> table_ok (update_at t a f).
Proof.
  intros Ht Hf. apply (step_keeps t); [done|]. unfold update_at.
  destruct (seat_link a); [by apply step_wifi_client|by apply step_usb_client].
Qed.

Lemma update_at_comp t a f g : update_at (update_at t a f) a g = update_at t a (fun c => g (f c)).
Proof.
  unfold update_at. destruct (seat_link a).
  - unfold update_wifi. destruct (valid_index t (seat_index a)) eqn:Hv; cbn [negb]; [|by rewrite Hv].
    apply valid_index_slot in Hv as (k & c & -> & Hk & Hs).
    assert (valid_index (t <| wifi_ := alter (fun s => s <| client := f (client s) |>) (Z.to_nat (Z.of_nat k)) (wifi_ t) |>)
      (Z.of_nat k) = true) as ->.
    { unfold valid_index, max_wifi_clients. recs. rewrite Nat2Z.id.
      rewrite (list_lookup_total_correct _ _ (mk_slot true (f c))) by (by rewrite list_lookup_alter_eq, Hs).
      rewrite (proj2 (Z.ltb_ge _ 0)), (proj2 (Z.leb_gt 3 _)) by lia. done. }
    cbn [negb]. recs. rewrite Nat2Z.id. unfold set_field. cbn. f_equal.
    clear. revert k. induction (wifi_ t) as [|s l IH]; intros [|k]; [done..|]. cbn. by rewrite <- IH.
  - unfold update_usb. destruct (in_use (usb_ t)) eqn:Hu; [|by rewrite Hu]. recs. by rewrite Hu.
Qed.

Lemma other_op_keeps t a f : table_ok t -> other_op f -> table_ok (update_at t a f).
Proof.
  intros Ht [now|ok err|now|now|v|v h l]; [apply update_at_keeps; [done|constructor]..|].
  rewrite <- (update_at_comp t a (fun c => c <| features := v |>) (fun c => c <| has_launch := h |> <| launch := l |>)).
  apply update_at_keeps; [apply update_at_keeps; [done|constructor]|constructor].
Qed.
Lemma other_op_quieter t a f : seat_ok a -> other_op f -> quieter t (update_at t a f).
Proof.
  intros Ha Hf. apply update_quieter; [done|]. intros c _. destruct Hf; try done.
  - unfold note_send_result. by destruct ok, (send_error_means_client_gone err), (consecutive_send_failures c <? 0xFF).
  - unfold restart_hello_window. by destruct (hello_window_started c).
Qed.

(** ** Deciding *)
Definition holder_of (t : ClientTable) (i : Z) (a : Seat) : Prop :=
  seat_ok a /\ exists c, client_at t a = Some c /\ identified c = true /\ id c = i.
Definition hello_ok (h : Hello) : Prop := is_u8 (he_name_len h) /\ (Z.to_nat (he_name_len h) <= length (he_name h))%nat.

Lemma parse_hello_ok payload h : is_bytes payload -> parse_hello payload no_hello = Some h -> hello_ok h.
Proof.
  intros Hb Hp. destruct (parse_hello_shape payload no_hello h Hb Hp) as (i & nm & lb & ex & Hi & Hn & ->).
  rewrite parse_hello_bytes in Hp by done. injection Hp as <-. unfold hello_ok, hello_fields, max_name_length in *. cbn [he_name_len he_name].
  split; [unfold is_uint; lia|]. rewrite Nat2Z.id, length_insert, length_app. lia.
Qed.

Lemma find_by_id_at t i e :
  table_ok t ->
  (exists k c, find_wifi_by_id t i e = Z.of_nat k /\ Z.of_nat k <> e /\ slot_at t k c /\ identified c = true /\ id c = i) \/
  (find_wifi_by_id t i e = -1 /\ forall k c, slot_at t k c -> Z.of_nat k <> e -> identified c = true -> id c <> i).
Proof.
  intros Ht. unfold find_wifi_by_id.
  match goal with |- context [find_slot ?p 0 ?l] => destruct (find_slot_spec p 0 l) as [(k & s & -> & Hk & Hp & _)|[-> Hall]] end; [lia| |].
  - rewrite !andb_true_iff, negb_true_iff, orb_false_iff, negb_false_iff, Z.eqb_eq, Z.eqb_neq in Hp.
    rewrite Z.add_0_l in *. destruct Hp as [[He Hu] [Hi Hid]]. left. exists k, (client s).
    split; [done|]. split; [done|]. split; [by apply slot_at_in_use|done].
  - right. split; [done|]. intros k c Hs He Hi Hid. specialize (Hall k _ Hs). rewrite Z.add_0_l in Hall. cbn in Hall.
    rewrite Hi, (proj2 (Z.eqb_eq _ _) Hid), (proj2 (Z.eqb_neq _ _) He) in Hall. done.
Qed.

Lemma usb_has_id_spec t i : usb_has_id t i = true <-> holder_of t i usb_seat.
Proof.
  unfold usb_has_id, holder_of, client_at, usb. cbn. rewrite !andb_true_iff, Z.eqb_eq. split.
  - intros [[Hu Hi] Hid]. split; [done|]. rewrite Hu. eauto.
  - intros [_ (c & Hc & Hi & Hid)]. destruct (in_use (usb_ t)); simplify_eq. auto.
Qed.

(** What the first decision rests on: whether somebody other than [self] already
    has the id. *)
Lemma decide_among_spec t self h :
  table_ok t -> seat_ok self -> ~ holder_of t (he_id h) self ->
  let d := decide_among t self h in
  match action d with
  | ha_admit => forall a, ~ holder_of t (he_id h) a
  | ha_replace | ha_ask => holder_of t (he_id h) (other d) /\ other d <> self /\
      (seat_link self = link_usb -> seat_link (other d) = link_wifi) /\
      (action d = ha_replace <-> exists c, client_at t (other d) = Some c /\ same_launch c h = true)
  | ha_busy => False
  end.
Proof.
  intros Ht Hself Hno. unfold decide_among.
  set (e := if decide (seat_link self = link_wifi) then seat_index self else -1).
  assert (forall o c, client_at t o = Some c -> identified c = true -> id c = he_id h -> seat_ok o -> o <> self ->
    (seat_link self = link_usb -> seat_link o = link_wifi) ->
    let d := mk_decision (match client_at t o with Some c => if same_launch c h then ha_replace else ha_ask | None => ha_ask end) o in
    match action d with
    | ha_admit => forall a, ~ holder_of t (he_id h) a
    | ha_replace | ha_ask => holder_of t (he_id h) (other d) /\ other d <> self /\
        (seat_link self = link_usb -> seat_link (other d) = link_wifi) /\
        (action d = ha_replace <-> exists c, client_at t (other d) = Some c /\ same_launch c h = true)
    | ha_busy => False
    end) as Hjudge.
  { intros o c Hc Hi Hid Ho Hne Hl. rewrite Hc. cbn zeta. assert (holder_of t (he_id h) o) by (split; eauto).
    destruct (same_launch c h) eqn:Hs; cbn [action other]; (split; [done|]); (split; [done|]); (split; [done|]).
    - split; [|done]. intros _. exists c. auto.
    - split; [done|]. intros (c' & Hc' & Hs'). congruence. }
  destruct (find_by_id_at t (he_id h) e Ht) as [(k & c & -> & Hk & Hs & Hi & Hid)|[-> Hall]].
  - rewrite (proj2 (Z.leb_le 0 _)) by lia. apply (Hjudge _ c); [|done|done|done| |].
    + apply client_at_slot; [done|]. cbn. eauto.
    + intros <-. apply Hk. subst e. by rewrite decide_True.
    + done.
  - change (0 <=? -1) with false. cbv iota.
    destruct (bool_decide_reflect (seat_link self = link_wifi)) as [Hw|Hw]; cbn [andb].
    + destruct (usb_has_id t (he_id h)) eqn:Hu.
      * apply usb_has_id_spec in Hu as [Hok (c & Hc & Hi & Hid)]. apply (Hjudge _ c); [done..| |].
        -- intros <-. done.
        -- by rewrite Hw.
      * cbn [action]. intros a [Ha (c & Hc & Hi & Hid)]. destruct (decide (a = self)) as [->|Hne].
        { apply Hno. split; eauto. }
        pose proof Hc as Hc'. apply (client_at_slot t a c Ht) in Hc'. destruct (seat_link a) eqn:Hla.
        -- destruct Hc' as (k & Hk & Hs). apply (Hall k c); [done| |done|done]. subst e. rewrite decide_True by done.
           intros Heq. apply Hne. destruct a, self. cbn in *. congruence.
        -- assert (a = usb_seat) as -> by (destruct a; cbn in *; unfold usb_seat; rewrite <- (Ha Hla); by rewrite Hla).
           rewrite (proj2 (usb_has_id_spec t _)) in Hu; [done|]. split; eauto.
    + cbn [action]. intros a [Ha (c & Hc & Hi & Hid)]. destruct (decide (a = self)) as [->|Hne].
      { apply Hno. split; eauto. }
      pose proof Hc as Hc'. apply (client_at_slot t a c Ht) in Hc'. destruct (seat_link a) eqn:Hla.
      * destruct Hc' as (k & Hk & Hs). apply (Hall k c); [done| |done|done]. subst e. rewrite decide_False by done. lia.
      * assert (seat_link self = link_usb) as Hsu by (destruct (seat_link self); done). apply Hne.
        specialize (Ha Hla). specialize (Hself Hsu). destruct a, self. cbn in *. congruence.
Qed.

Lemma decide_hello_spec t self h k :
  table_ok t -> seat_ok self -> ~ holder_of t (he_id h) self ->
  let d := decide_hello t self h k in
  (action d = ha_busy -> active k = true) /\
  (action d <> ha_busy -> active k = true -> he_id (hello k) <> he_id h) /\
  match action d with
  | ha_admit => forall a, ~ holder_of t (he_id h) a
  | ha_replace | ha_ask => holder_of t (he_id h) (other d) /\ other d <> self /\
      (seat_link self = link_usb -> seat_link (other d) = link_wifi) /\
      (action d = ha_ask \/ seat_link self = link_usb -> active k = false) /\
      (action d = ha_replace <-> exists c, client_at t (other d) = Some c /\ same_launch c h = true)
  | ha_busy => True
  end.
Proof.
  intros Ht Hs Hno. unfold decide_hello. destruct (active k) eqn:Hact; cbn [andb].
  2: { rewrite andb_false_r. pose proof (decide_among_spec t self h Ht Hs Hno) as H. cbv zeta in *.
       destruct (action (decide_among t self h)); cbn; intuition done. }
  destruct (Z.eqb_spec (he_id (hello k)) (he_id h)) as [|Hne]; [done|].
  pose proof (decide_among_spec t self h Ht Hs Hno) as H. cbv zeta in *. rewrite andb_true_r.
  destruct (decide_among t self h) as [a o]. cbn [action other] in *.
  destruct (bool_decide_reflect (seat_link self = link_usb)) as [Hu|Hu];
    destruct a; decides; unfold set_field; cbn; intuition congruence.
Qed.

(** ** The invariant of the table and the check together *)
Record consistent (t : ClientTable) (k : IdentityCheck) : Prop := {
  cs_table : table_ok t;
  cs_hello : hello_ok (hello k);
  cs_seats : seat_ok (newcomer k) /\ seat_ok (old k);
  cs_unique i a b : holder_of t i a -> holder_of t i b -> a = b;
  cs_held a c : seat_ok a -> client_at t a = Some c -> hello_held c = true ->
    active k = true /\ a = newcomer k /\ identified c = false /\ address c = newcomer_address_ k;
  cs_old a : active k = true -> holder_of t (he_id (hello k)) a -> a = old k /\ phase_ k <> ph_admit
}.

Lemma holder_quieter t t' i a : quieter t t' -> holder_of t' i a -> holder_of t i a.
Proof.
  intros Hq [Ha (c & Hc & Hi & Hid)]. split; [done|].
  destruct (Hq a c Ha Hc) as [(d & Hd & ? & ? & _)|[? _]]; [|congruence]. exists d. split; [done|]. split; congruence.
Qed.

Lemma consistent_quieter t t' k : consistent t k -> table_ok t' -> quieter t t' -> consistent t' k.
Proof.
  intros [Ct Ch Cs Cu Cd Co] Ht' Hq. split; [done|done|done| | |].
  - intros i a b Ha Hb. eapply Cu; eauto using holder_quieter.
  - intros a c Ha Hc Hh. destruct (Hq a c Ha Hc) as [(d & Hd & Hi & _ & Hd')|[_ ?]]; [|congruence].
    destruct (Hd' Hh) as [Hdh ->]. rewrite Hi. eauto.
  - intros a Hact Ha. eauto using holder_quieter.
Qed.

(** Moves of the check that keep whom it is about. *)
Lemma consistent_moved t k k' :
  consistent t k ->
  newcomer k' = newcomer k -> old k' = old k -> newcomer_address_ k' = newcomer_address_ k -> hello k' = hello k ->
  active k' = active k ->
  (phase_ k' = ph_admit -> phase_ k = ph_admit \/ forall a, ~ holder_of t (he_id (hello k)) a) ->
  consistent t k'.
Proof.
  intros [Ct Ch Cs Cu Cd Co] Hn Ho Ha Hh Hact Hp. split; rewrite ?Hn, ?Ho, ?Ha, ?Hh, ?Hact; try done.
  intros a Hk Hat. destruct (Co a Hk Hat) as [Hao Hpa]. split; [done|]. intros Hadm. destruct (Hp Hadm) as [|Hno]; [done|].
  by apply (Hno a).
Qed.

Lemma update_at_const t a f c : client_at t a = Some c -> update_at t a (fun _ => f c) = update_at t a f.
Proof.
  unfold client_at, update_at. destruct (seat_link a).
  - unfold wifi_at, update_wifi. destruct (valid_index t (seat_index a)); cbn [negb]; [|done]. intros [= <-]. f_equal.
    apply list_alter_ext; [|done]. intros s Hs.
    by rewrite (list_lookup_total_correct _ _ _ Hs).
  - unfold usb, update_usb. destruct (in_use (usb_ t)) eqn:Hu; [|done]. by intros [= <-].
Qed.

Lemma admitted_keeps t a h : table_ok t -> hello_ok h -> table_ok (update_at t a (fun c => admitted c h)).
Proof.
  intros Ht [Hn Hl]. unfold admitted.
  rewrite <- (update_at_comp t a (fun c => set_identity c (he_id h) (he_name h) (he_name_len h))
    (fun c => c <| features := he_features h |> <| has_launch := he_has_launch h |> <| launch := he_launch h |>)).
  rewrite <- (update_at_comp _ a (fun c => c <| features := he_features h |>)
    (fun c => c <| has_launch := he_has_launch h |> <| launch := he_launch h |>)).
  apply update_at_keeps; [|constructor]. apply update_at_keeps; [|constructor].
  apply update_at_keeps; [done|by constructor].
Qed.

Lemma admitted_fields c h :
  identified (admitted c h) = true /\ id (admitted c h) = he_id h /\ hello_held (admitted c h) = hello_held c.
Proof.
  unfold admitted, set_identity. destruct (max_name_length <? he_name_len h); by destruct (negb _).
Qed.

Lemma holder_admitted t a h c i b :
  seat_ok a -> client_at t a = Some c -> identified c = false ->
  holder_of (update_at t a (fun c => admitted c h)) i b <-> (a = b /\ i = he_id h) \/ (a <> b /\ holder_of t i b).
Proof.
  intros Ha Hc Hi. destruct (admitted_fields c h) as (Hai & Haid & _). unfold holder_of.
  split.
  - intros [Hb (d & Hd & Hdi & Hdid)]. rewrite client_at_update in Hd by done. destruct (decide (a = b)) as [<-|Hne].
    + left. rewrite Hc in Hd. injection Hd as <-. split; [done|congruence].
    + right. split; [done|]. split; [done|]. eauto.
  - intros [[<- ->]|[Hne [Hb (d & Hd & Hdi & Hdid)]]].
    + split; [done|]. exists (admitted c h). rewrite client_at_update by done. rewrite decide_True, Hc by done. done.
    + split; [done|]. exists d. rewrite client_at_update by done. by rewrite decide_False.
Qed.

Lemma consistent_admit t k a h c :
  consistent t k -> hello_ok h -> seat_ok a -> client_at t a = Some c ->
  identified c = false -> hello_held c = false ->
  (forall b, ~ holder_of t (he_id h) b) -> (active k = true -> he_id (hello k) <> he_id h) ->
  consistent (update_at t a (fun c => admitted c h)) k.
Proof.
  intros [Ct Ch Cs Cu Cd Co] Hh Ha Hc Hi Hheld Hno Hne. split; [by apply admitted_keeps|done|done| | |].
  - intros i x y Hx Hy. rewrite (holder_admitted t a h c) in Hx, Hy by done.
    destruct Hx as [[<- ->]|[? Hx]], Hy as [[<- Hy]|[? Hy]]; [done| | |eauto].
    + by destruct (Hno y).
    + subst i. by destruct (Hno x).
  - intros b d Hb Hd Hdh. rewrite client_at_update in Hd by done. destruct (decide (a = b)) as [<-|Hnab]; [|eauto].
    rewrite Hc in Hd. injection Hd as <-. destruct (admitted_fields c h) as (_ & _ & Hah). congruence.
  - intros b Hact Hb. rewrite (holder_admitted t a h c) in Hb by done.
    destruct Hb as [[<- Hid]|[_ Hb]]; [|eauto]. by destruct (Hne Hact).
Qed.

Lemma consistent_begin t k a o h c ask_first now :
  consistent t k -> active k = false -> hello_ok h -> seat_ok a -> client_at t a = Some c -> identified c = false ->
  holder_of t (he_id h) o ->
  consistent (begin k t a o h ask_first now).1.2 (begin k t a o h ask_first now).1.1 /\ (begin k t a o h ask_first now).2 = true.
Proof.
  intros [Ct Ch Cs Cu Cd Co] Hidle Hh Ha Hc Hi Ho. unfold begin. rewrite Hidle, Hc. cbn [fst snd]. split; [|done].
  set (k' := k <| newcomer := a |> <| newcomer_address_ := address c |> <| old := o |> <| hello := h |>
    <| last_step_us_ := now |> <| phase_ := if ask_first then ph_ask else ph_retire |>).
  set (t' := update_at t a (fun c => c <| hello_held := true |>)).
  assert (active k' = true) as Hact by by destruct ask_first.
  assert (forall b d, seat_ok b -> client_at t' b = Some d ->
    exists d', client_at t b = Some d' /\ identified d = identified d' /\ id d = id d' /\ address d = address d' /\
      (b = a /\ d' = c \/ b <> a /\ d = d')) as Hback.
  { intros b d Hb. unfold t'. rewrite client_at_update by done. destruct (decide (a = b)) as [<-|].
    - rewrite Hc. intros [= <-]. exists c. auto 7.
    - intros Hd. exists d. auto 7. }
  assert (forall i b, holder_of t' i b -> holder_of t i b) as Hhold.
  { intros i b [Hb (d & Hd & Hdi & Hdid)]. destruct (Hback b d Hb Hd) as (d' & ? & ? & ? & _).
    split; [done|]. exists d'. split; [done|]. split; congruence. }
  split; [by apply update_at_keeps; [|constructor]|done| | | |].
  - split; [done|]. apply Ho.
  - intros i x y Hx Hy. eauto.
  - intros b d Hb Hd Hdh. split; [done|]. destruct (Hback b d Hb Hd) as (d' & Hd' & Hdi & _ & Hda & [[-> ->]|[_ ->]]).
    + split; [done|]. split; [congruence|done].
    + destruct (Cd b d' Hb Hd' Hdh) as [? _]. congruence.
  - intros b _ Hb. split; [apply (Cu (he_id h)); auto|]. by destruct ask_first.
Qed.

Lemma consistent_end t k : consistent t k -> consistent (end_check k t).2 (end_check k t).1 /\ active (end_check k t).1 = false /\
  quieter t (end_check k t).2 /\ (newcomer_present k t = true -> active k = true -> exists c, client_at (end_check k t).2 (newcomer k) = Some c /\ identified c = false).
Proof.
  intros Hcs. pose proof Hcs as [Ct Ch [Csn Cso] Cu Cd Co]. unfold end_check. destruct (active k) eqn:Hact; cbn [negb fst snd].
  2: { split; [done|]. split; [done|]. by split. }
  set (t' := if newcomer_present k t then _ else t).
  assert (quieter t t') as Hq.
  { subst t'. destruct (newcomer_present k t); [|done]. apply update_quieter; [done|]. by intros c _. }
  assert (table_ok t') as Ht'.
  { subst t'. destruct (newcomer_present k t); [|done]. apply update_at_keeps; [done|constructor]. }
  split; [|split; [done|split; [done|]]].
  - destruct (consistent_quieter t t' k Hcs Ht' Hq) as [_ _ _ Cu' Cd' _]. split; try done.
    intros a c Ha Hc Hh. exfalso. destruct (Cd' a c Ha Hc Hh) as (_ & -> & Hi & Hadr).
    subst t'. unfold newcomer_present in *. destruct (client_at t (newcomer k)) as [d|] eqn:Hd.
    + destruct (hello_held d && negb (identified d) && same_address (address d) (newcomer_address_ k)) eqn:Hnp.
      * rewrite client_at_update, decide_True, Hd in Hc by done. by injection Hc as <-.
      * simplify_eq. rewrite Hh, Hi, (proj2 (same_address_spec _ _) Hadr) in Hnp. done.
    + congruence.
  - intros Hnp _. subst t'. rewrite Hnp. unfold newcomer_present in Hnp. destruct (client_at t (newcomer k)) as [d|] eqn:Hd; [|done].
    exists (d <| hello_held := false |>). rewrite client_at_update, decide_True, Hd by done. split; [done|].
    apply andb_true_iff in Hnp as [[_ Hnp]%andb_true_iff _]. by apply negb_true_iff in Hnp.
Qed.

(** ** What the handlers do to the state *)
(** From [s] to [s'] nobody is given control, and whoever is newly identified is
    without it. *)
Definition modest (s s' : Links) : Prop :=
  (holder s' = holder s \/ holder s' = no_identity) /\
  forall a i, holder_of (table s') i a -> holder_of (table s) i a \/ ~ (id_identified (holder s') = true /\ id_id (holder s') = i).

#[export] Instance modest_refl : Reflexive modest.
Proof. intros s. split; [by left|]. auto. Qed.
#[export] Instance modest_trans : Transitive modest.
Proof.
  intros s1 s2 s3 [H12 T12] [H23 T23]. split.
  { destruct H12 as [<-|H12], H23 as [H23|H23]; rewrite H23; auto. }
  intros a i Ha. destruct (T23 a i Ha) as [Ha2|]; [|by right]. destruct (T12 a i Ha2) as [|Hno]; [by left|].
  right. intros [Hi Hid]. destruct H23 as [Heq|Heq]; rewrite Heq in *; [tauto|done].
Qed.
Lemma modest_quieter s s' : holder s' = holder s -> quieter (table s) (table s') -> modest s s'.
Proof. intros Hh Hq. split; [by left|]. intros a i Ha. left. eauto using holder_quieter. Qed.

Lemma publish_keeps b s : table (publish b s) = table s /\ check (publish b s) = check s /\ holder (publish b s) = holder s.
Proof. destruct b as [p n]. unfold publish. by destruct (negb _). Qed.
Lemma publish_if_keeps (x : bool) b s :
  table (if x then publish b s else s) = table s /\ check (if x then publish b s else s) = check s /\
  holder (if x then publish b s else s) = holder s.
Proof. destruct x; [apply publish_keeps|done]. Qed.

Definition admitted_at (a : Seat) (h : Hello) (s s' : Links) : Prop :=
  table s' = update_at (table s) a (fun c => admitted c h) /\ check s' = check s /\
  holder s' = (release_if_holder (holder s) (he_id h)).1.

Lemma admit_wifi_at i h rc s c : wifi_at (table s) i = Some c ->
  admitted_at (wifi_seat i) h s (admit_wifi_hello i h rc s).
Proof.
  intros Hc. unfold admit_wifi_hello, admit_hello. rewrite Hc.
  destruct (release_if_holder (holder s) (he_id h)) as [hd fr] eqn:Hr. cbv zeta. unfold admitted_at, send. recs. rewrite Hr.
  destruct (publish_if_keeps (negb rc) (build_client_joined_event (id (admitted c h)) (name (admitted c h)) (name_len (admitted c h)) (repeat 0 41) 41)
    (if fr then publish (build_control_changed_event 0 [] 0 (repeat 0 10) 10)
       s <| table := update_wifi (table s) i (fun _ => admitted c h) |> <| holder := hd |>
     else s <| table := update_wifi (table s) i (fun _ => admitted c h) |> <| holder := hd |>)) as (-> & -> & ->).
  destruct (publish_if_keeps fr (build_control_changed_event 0 [] 0 (repeat 0 10) 10)
    (s <| table := update_wifi (table s) i (fun _ => admitted c h) |> <| holder := hd |>)) as (-> & -> & ->). recs.
  split; [|done]. apply (update_at_const _ (wifi_seat i) (fun c => admitted c h)). done.
Qed.
Lemma admit_usb_at h rc s c : usb (table s) = Some c -> admitted_at usb_seat h s (admit_usb_hello h rc s).
Proof.
  intros Hc. unfold admit_usb_hello, admit_hello. rewrite Hc.
  destruct (release_if_holder (holder s) (he_id h)) as [hd fr] eqn:Hr. cbv zeta. unfold admitted_at, send. recs. rewrite Hr.
  destruct (publish_if_keeps (negb rc) (build_client_joined_event (id (admitted c h)) (name (admitted c h)) (name_len (admitted c h)) (repeat 0 41) 41)
    (if fr then publish (build_control_changed_event 0 [] 0 (repeat 0 10) 10)
       s <| table := update_usb (table s) (fun _ => admitted c h) |> <| holder := hd |>
     else s <| table := update_usb (table s) (fun _ => admitted c h) |> <| holder := hd |>)) as (-> & -> & ->).
  destruct (publish_if_keeps fr (build_control_changed_event 0 [] 0 (repeat 0 10) 10)
    (s <| table := update_usb (table s) (fun _ => admitted c h) |> <| holder := hd |>)) as (-> & -> & ->). recs.
  split; [|done]. apply (update_at_const _ usb_seat (fun c => admitted c h)). done.
Qed.

Lemma admitted_modest a h s s' c :
  seat_ok a -> client_at (table s) a = Some c -> identified c = false -> admitted_at a h s s' -> modest s s'.
Proof.
  intros Ha Hc Hi (Ht & _ & Hh). unfold modest. rewrite Ht, Hh, release_spec. case_decide as Hd; cbn [fst].
  - split; [by right|]. intros b i Hb. right. by intros [? _].
  - split; [by left|]. intros b i Hb. rewrite (holder_admitted _ a h c) in Hb by done.
    destruct Hb as [[<- ->]|[_ Hb]]; [|by left]. by right.
Qed.

Definition good (s s' : Links) : Prop := consistent (table s') (check s') /\ modest s s'.

Lemma good_admitted a h s s' c :
  consistent (table s) (check s) -> hello_ok h -> seat_ok a -> client_at (table s) a = Some c ->
  identified c = false -> hello_held c = false ->
  (forall b, ~ holder_of (table s) (he_id h) b) -> (active (check s) = true -> he_id (hello (check s)) <> he_id h) ->
  admitted_at a h s s' -> good s s'.
Proof.
  intros Hcs Hh Ha Hc Hi Hheld Hno Hne Hadm. split; [|by eapply admitted_modest].
  destruct Hadm as (-> & -> & _). by apply (consistent_admit _ _ a h c).
Qed.

Lemma good_end s : consistent (table s) (check s) -> good s (end_it s).
Proof.
  intros Hcs. destruct (consistent_end _ _ Hcs) as (H1 & _ & H2 & _). unfold end_it.
  destruct (end_check (check s) (table s)) as [k t]. by split; [|apply modest_quieter].
Qed.

(** Ending the check and admitting the newcomer it held. *)
Lemma good_end_admit a s s' :
  consistent (table s) (check s) -> active (check s) = true -> newcomer_present (check s) (table s) = true ->
  (forall b, ~ holder_of (table s) (he_id (hello (check s))) b) ->
  a = newcomer (check s) ->
  (forall c, client_at (table (end_it s)) a = Some c -> admitted_at a (hello (check s)) (end_it s) s') -> good s s'.
Proof.
  intros Hcs Hact Hnp Hno -> Hadm. pose proof (good_end s Hcs) as [Hce Hme].
  destruct (consistent_end _ _ Hcs) as (_ & Hidle & Hq & Hnew). destruct (Hnew Hnp Hact) as (c & Hc & Hi).
  assert (table (end_it s) = (end_check (check s) (table s)).2 /\ check (end_it s) = (end_check (check s) (table s)).1) as [Et Ek].
  { unfold end_it. by destruct (end_check _ _). }
  rewrite <- Et in Hq, Hc. rewrite <- Ek in Hidle. destruct Hcs as [_ Hh [Hsn _] _ _ _].
  enough (good (end_it s) s') as [? ?] by (split; [done|by transitivity (end_it s)]).
  apply (good_admitted (newcomer (check s)) (hello (check s)) _ _ c); try done; [| | |eauto].
  - destruct (hello_held c) eqn:Hheld; [|done]. destruct (cs_held _ _ Hce _ c Hsn Hc Hheld) as [? _]. congruence.
  - intros b Hb. apply (Hno b). eauto using holder_quieter.
  - congruence.
Qed.

(** A look at the check keeps the invariant, and says to admit only a newcomer
    whose id nobody has any more. *)
Lemma looked_ok t k l now r :
  consistent t k ->
  let '(k', step) := next_step k t l now r in
  consistent t k' /\
  (step = cs_admit -> active k' = true /\ newcomer_present k' t = true /\ seat_link (newcomer k') = l /\
     forall a, ~ holder_of t (he_id (hello k')) a) /\
  (step = cs_retire -> phase_ k' = ph_retire /\ seat_link (old k') = l).
Proof.
  intros Hcs. destruct (looks k t) eqn:Hlk.
  2: { rewrite next_step_ignored by done. split; [done|]. by destruct (active k). }
  pose proof (next_step_looks k t l now r Hlk) as Hn. destruct (next_step k t l now r) as [k' step].
  destruct Hn as (En & Eo & Ea & _ & Eh & _ & _ & Hph).
  apply andb_true_iff in Hlk as [Hact Hnp].
  assert (active k' = active k) as Eact.
  { rewrite Hact. apply active_spec. intros Hi. by rewrite Hi in Hph. }
  assert (phase_ k' = ph_admit -> phase_ k = ph_admit \/ forall a, ~ holder_of t (he_id (hello k)) a) as Hadm.
  { intros Hp. rewrite Hp in Hph. destruct Hph as [[?|[Hnr Hop]] _]; [by left|right]. intros a Ha.
    destruct (cs_old _ _ Hcs a Hact Ha) as [-> _]. destruct Ha as [_ (c & Hc & Hi & Hid)].
    unfold old_present in Hop. rewrite Hc, Hi, Hid, Z.eqb_refl in Hop. done. }
  split; [by apply (consistent_moved t k)|].
  assert (newcomer_present k' t = true) as Hnp' by (unfold newcomer_present in *; by rewrite En, Ea).
  split; intros ->.
  - destruct (bool_decide_reflect (l = seat_link (newcomer k))), (bool_decide_reflect (l = seat_link (old k)));
      destruct (phase_ k') eqn:Hp; cbn [andb] in *; try done; destruct r; try (intuition discriminate);
      rewrite Eact, En, Eh; (split; [done|]); (split; [done|]); (split; [done|]);
      (destruct (Hadm eq_refl) as [Hpk|Hno]; [|done]);
      intros a Ha; by destruct (cs_old _ _ Hcs a Hact Ha) as [_ ?].
  - rewrite Eo. destruct (bool_decide_reflect (l = seat_link (newcomer k))), (bool_decide_reflect (l = seat_link (old k)));
      destruct (phase_ k') eqn:Hp; cbn [andb] in *; try done; destruct r; try (intuition discriminate); done.
Qed.

Lemma asked_ok t k now : consistent t k -> consistent t (asked k now).
Proof.
  intros Hcs. unfold asked. destruct (bool_decide_reflect (phase_ k = ph_ask)) as [Hp|]; cbn [negb]; [|done].
  apply (consistent_moved t k); try done. unfold active. recs. by rewrite Hp.
Qed.

(** Once the old entry is out of [t'], the check can go on to admit. *)
Lemma retired_ok t t' k :
  consistent t k -> phase_ k = ph_retire -> table_ok t' -> quieter t t' ->
  (forall i, ~ holder_of t' i (old k)) -> consistent t' (retired k).
Proof.
  intros Hcs Hp Ht' Hq Hgone. unfold retired. rewrite bool_decide_true by done.
  apply (consistent_moved t' k); try done; [by eapply consistent_quieter|unfold active; recs; by rewrite Hp|].
  intros _. right. intros a Ha. assert (a = old k) as ->; [|by eapply Hgone].
  eapply (cs_old _ _ Hcs); [apply active_spec; congruence|]. eauto using holder_quieter.
Qed.

Lemma client_at_removed t i : table_ok t -> client_at (remove_wifi t i).1 (wifi_seat i) = None.
Proof.
  intros Ht. destruct (client_at _ _) as [c|] eqn:Hc; [|done]. exfalso.
  assert (table_ok (remove_wifi t i).1) as Ht' by (apply (step_keeps t); [done|apply step_remove]).
  apply (client_at_slot _ _ _ Ht') in Hc. cbn in Hc. destruct Hc as (k & -> & Hs). unfold remove_wifi in Hs.
  destruct (valid_index t (Z.of_nat k)) eqn:Hv; cbn [negb fst] in Hs.
  - unfold slot_at in Hs. recs. unfold set_field in Hs. cbn in Hs. rewrite Nat2Z.id in Hs.
    apply list_lookup_insert_Some in Hs as [(_ & [=] & _)|[? _]]; congruence.
  - assert (wifi_at t (Z.of_nat k) = Some c) as Hw by (apply wifi_at_spec; eauto). unfold wifi_at in Hw. by rewrite Hv in Hw.
Qed.

Lemma retire_wifi_table i s : table (retire_wifi_client i s) = (remove_wifi (table s) i).1 /\
  check (retire_wifi_client i s) = check s /\ holder (retire_wifi_client i s) = holder s.
Proof.
  unfold retire_wifi_client, wifi_at. destruct (valid_index (table s) i) eqn:Hv; cbn [negb]; [done|].
  unfold remove_wifi. by rewrite Hv.
Qed.

Lemma retire_wifi_quieter i s : table_ok (table s) ->
  table_ok (table (retire_wifi_client i s)) /\ quieter (table s) (table (retire_wifi_client i s)) /\
  forall j, ~ holder_of (table (retire_wifi_client i s)) j (wifi_seat i).
Proof.
  intros Ht. destruct (retire_wifi_table i s) as (-> & _ & _). split; [apply (step_keeps (table s)); [done|apply step_remove]|].
  split; [by apply remove_wifi_quieter|]. intros j [_ (c & Hc & _)]. by rewrite client_at_removed in Hc.
Qed.

Lemma clear_usb_gone t i : ~ holder_of (clear_usb_identity t) i usb_seat.
Proof.
  intros [_ (c & Hc & Hi & _)]. unfold client_at, usb, clear_usb_identity in Hc. cbn in Hc.
  destruct (in_use (usb_ t)) eqn:Hu; cbn [negb] in Hc; [|by rewrite Hu in Hc].
  unfold set_field in Hc. cbn in Hc. rewrite Hu in Hc. by injection Hc as <-.
Qed.

Lemma seat_of_link a : seat_ok a -> a = match seat_link a with link_wifi => wifi_seat (seat_index a) | link_usb => usb_seat end.
Proof. destruct a as [[] i]; unfold seat_ok; cbn; [done|]. intros ->; done. Qed.

Lemma good_trans s1 s2 s3 : good s1 s2 -> good s2 s3 -> good s1 s3.
Proof. intros [_ H1] [H2 H3]. split; [done|]. by transitivity s2. Qed.
Lemma good_moved s s' :
  consistent (table s') (check s') -> quieter (table s) (table s') -> holder s' = holder s -> good s s'.
Proof. intros. by split; [|apply modest_quieter]. Qed.

Lemma drive_wifi_good fuel now s s' :
  consistent (table s) (check s) -> drive_wifi fuel now s = Some s' -> good s s'.
Proof.
  revert s. induction fuel as [|fuel IH]; intros s Hcs; [done|]. cbn [drive_wifi].
  pose proof (looked_ok (table s) (check s) link_wifi now true Hcs) as Hl.
  destruct (next_step (check s) (table s) link_wifi now true) as [k step]. destruct Hl as (Hk & Hadm & Hret).
  pose proof Hk as [Ht _ [Hsn Hso] _ _ _].
  destruct step; intros Hd.
  - injection Hd as <-. by apply good_moved.
  - apply IH in Hd; [|by apply asked_ok]. refine (good_trans _ _ _ _ Hd). apply good_moved; [by apply asked_ok|done|done].
  - destruct (Hret eq_refl) as [Hp Hlo]. pose proof (seat_of_link _ Hso) as Ho. rewrite Hlo in Ho.
    destruct (retire_wifi_quieter (seat_index (old k)) (s <| check := k |>)) as (Ht' & Hq & Hgone); [exact Ht|].
    destruct (retire_wifi_table (seat_index (old k)) (s <| check := k |>)) as (_ & _ & Hh).
    assert (consistent (table (retire_wifi_client (seat_index (old k)) (s <| check := k |>))) (retired k)) as Hr.
    { apply (retired_ok (table s)); [exact Hk|exact Hp|exact Ht'|exact Hq|]. intros i. rewrite Ho. apply Hgone. }
    apply IH in Hd; [|done]. refine (good_trans _ _ _ _ Hd). by apply good_moved.
  - injection Hd as <-. refine (good_trans _ _ _ _ (good_end _ _)); [|done]. by apply good_moved.
  - injection Hd as <-. destruct (Hadm eq_refl) as (Hact & Hnp & Hlk & Hno).
    refine (good_trans _ (s <| check := k |>) _ _ _); [by apply good_moved|].
    pose proof (seat_of_link _ Hsn) as Hn. rewrite Hlk in Hn.
    apply (good_end_admit (newcomer k)); [done..|]. intros c Hc. rewrite Hn in *. by apply (admit_wifi_at _ _ _ _ c).
  - injection Hd as <-. refine (good_trans _ _ _ _ (good_end _ _)); [|done]. by apply good_moved.
Qed.

Lemma drive_usb_good fuel r now s s' :
  consistent (table s) (check s) -> drive_usb fuel r now s = Some s' -> good s s'.
Proof.
  revert s. induction fuel as [|fuel IH]; intros s Hcs; [done|]. cbn [drive_usb].
  pose proof (looked_ok (table s) (check s) link_usb now r Hcs) as Hl.
  destruct (next_step (check s) (table s) link_usb now r) as [k step]. destruct Hl as (Hk & Hadm & Hret).
  pose proof Hk as [Ht _ [Hsn Hso] _ _ _].
  destruct step; intros Hd.
  - injection Hd as <-. by apply good_moved.
  - apply IH in Hd; [|by apply asked_ok]. refine (good_trans _ _ _ _ Hd). apply good_moved; [by apply asked_ok|done|done].
  - destruct (Hret eq_refl) as [Hp Hlo]. pose proof (seat_of_link _ Hso) as Ho. rewrite Hlo in Ho.
    assert (consistent (clear_usb_identity (table s)) (retired k)) as Hr.
    { apply (retired_ok (table s)); [done|done|apply (step_keeps (table s)); [done|apply step_usb_clear]|by apply clear_usb_quieter|].
      intros i. rewrite Ho. apply clear_usb_gone. }
    apply IH in Hd; [|done]. refine (good_trans _ _ _ _ Hd). apply good_moved; [done| |done]. by apply clear_usb_quieter.
  - injection Hd as <-. refine (good_trans _ _ _ _ (good_end _ _)); [|done]. by apply good_moved.
  - injection Hd as <-. destruct (Hadm eq_refl) as (Hact & Hnp & Hlk & Hno).
    refine (good_trans _ (s <| check := k |>) _ _ _); [by apply good_moved|].
    pose proof (seat_of_link _ Hsn) as Hn. rewrite Hlk in Hn.
    apply (good_end_admit (newcomer k)); [done..|]. intros c Hc. rewrite Hn in *. by apply (admit_usb_at _ _ _ c).
  - injection Hd as <-. refine (good_trans _ _ _ _ (good_end _ _)); [|done]. by apply good_moved.
Qed.

Lemma good_refl s : consistent (table s) (check s) -> good s s.
Proof. by split. Qed.
Lemma good_other s a f :
  consistent (table s) (check s) -> seat_ok a -> other_op f -> good s (s <| table := update_at (table s) a f |>).
Proof.
  intros Hcs Ha Hf. pose proof (other_op_quieter (table s) a f Ha Hf) as Hq.
  apply good_moved; [|exact Hq|done]. apply (consistent_quieter (table s)); [done| |exact Hq].
  apply other_op_keeps; [apply Hcs|done].
Qed.
Lemma run_good drive s :
  consistent (table s) (check s) -> (forall s', drive s = Some s' -> good s s') -> good s (run drive s).
Proof. intros Hcs Hd. unfold run. destruct (drive s) as [s'|]; cbn; [by apply Hd|by apply good_refl]. Qed.

(** A first hello's sender is held by nobody's check: the one that would hold it
    ignores the hello. *)
Lemma first_hello_free s a c :
  consistent (table s) (check s) -> seat_ok a -> client_at (table s) a = Some c -> holds (check s) a = false ->
  hello_held c = false.
Proof.
  intros Hcs Ha Hc Hh. destruct (hello_held c) eqn:Hheld; [|done].
  destruct (cs_held _ _ Hcs a c Ha Hc Hheld) as (Hact & -> & _). unfold holds in Hh.
  rewrite Hact, (proj2 (same_seat_spec _ _) eq_refl) in Hh. done.
Qed.
Lemma unidentified_no_holder t a c i : client_at t a = Some c -> identified c = false -> ~ holder_of t i a.
Proof. intros Hc Hi [_ (d & Hd & Hdi & _)]. congruence. Qed.

Lemma begin_good s a h o ask_first now c :
  consistent (table s) (check s) -> active (check s) = false -> hello_ok h -> seat_ok a ->
  client_at (table s) a = Some c -> identified c = false -> holder_of (table s) (he_id h) o ->
  let '(k, t, begun) := begin (check s) (table s) a o h ask_first now in
  begun = true /\ good s (s <| check := k |> <| table := t |>).
Proof.
  intros Hcs Hidle Hh Ha Hc Hi Ho.
  destruct (consistent_begin (table s) (check s) a o h c ask_first now Hcs Hidle Hh Ha Hc Hi Ho) as [Hb Hok].
  pose proof (begin_spec (check s) (table s) a o h ask_first now) as Hbs.
  destruct (begin (check s) (table s) a o h ask_first now) as [[k t] begun]. cbn [fst snd] in *. split; [done|].
  split; [exact Hb|]. unfold starts in Hbs. rewrite Hidle, bool_decide_true, Hc in Hbs by congruence. cbn in Hbs.
  injection Hbs as _ -> _. split; [by left|]. recs. intros b i [Hbk (d & Hd & Hdi & Hdid)]. left.
  rewrite client_at_update in Hd by done. split; [done|]. destruct (decide (a = b)) as [<-|]; [|eauto].
  rewrite Hc in Hd. injection Hd as <-. recs. exists c. auto.
Qed.

Lemma wifi_hello_good i payload now s :
  consistent (table s) (check s) -> is_bytes payload -> good s (handle_wifi_hello i payload now s).
Proof.
  intros Hcs Hb. unfold handle_wifi_hello. destruct (wifi_at (table s) i) as [self|] eqn:Hself; [|by apply good_refl].
  destruct (parse_hello payload no_hello) as [h|] eqn:Hp; [|by apply good_refl].
  pose proof (parse_hello_ok payload h Hb Hp) as Hh. assert (seat_ok (wifi_seat i)) as Hs by done.
  destruct (identified self) eqn:Hi; cbn [negb]; [by apply (good_other s (wifi_seat i)); [| |constructor]|].
  destruct (holds (check s) (wifi_seat i)) eqn:Hholds; [by apply good_refl|].
  destruct (has_old_client (table s) now i false); [by apply (good_refl s)|].
  pose proof (first_hello_free s (wifi_seat i) self Hcs Hs Hself Hholds) as Hfree.
  pose proof (decide_hello_spec (table s) (wifi_seat i) h (check s) (cs_table _ _ Hcs) Hs
    (unidentified_no_holder _ (wifi_seat i) _ _ Hself Hi)) as Hd. cbv zeta in *.
  destruct (decide_hello (table s) (wifi_seat i) h (check s)) as [a o]. cbn [action other] in *. destruct Hd as (_ & Hne & Hd).
  destruct a.
  - eapply (good_admitted (wifi_seat i) h); eauto. by eapply admit_wifi_at.
  - destruct Hd as (Ho & Hdif & _ & _ & _).
    set (s1 := match seat_link o with link_wifi => retire_wifi_client (seat_index o) s
               | link_usb => s <| table := clear_usb_identity (table s) |> end).
    assert (table_ok (table s1) /\ quieter (table s) (table s1) /\ (forall j, ~ holder_of (table s1) j o) /\
      check s1 = check s /\ holder s1 = holder s /\ client_at (table s1) (wifi_seat i) = Some self) as (Ht1 & Hq & Hgone & Hk1 & Hh1 & Hc1).
    { pose proof (seat_of_link o (proj1 Ho)) as Hol. pose proof (cs_table _ _ Hcs) as Ht. subst s1. destruct (seat_link o).
      - destruct (retire_wifi_quieter (seat_index o) s Ht) as (? & ? & Hg). destruct (retire_wifi_table (seat_index o) s) as (Et & ? & ?).
        split; [done|]. split; [done|]. split; [by rewrite Hol|]. split; [done|]. split; [done|]. rewrite Et.
        apply client_at_slot; [by rewrite <- Et|]. apply (client_at_slot _ (wifi_seat i)) in Hself; [|done].
        destruct Hself as (k & Hk & Hsl). exists k. split; [done|]. unfold remove_wifi. destruct (negb _) eqn:Hv; [done|].
        unfold slot_at in *. cbn [fst]. recs. rewrite list_lookup_insert_ne; [done|].
        intros Hk'. apply Hdif. rewrite Hol. f_equal. cbn in Hk. apply negb_false_iff, valid_index_slot in Hv as (? & ? & ? & _ & _). lia.
      - recs. split; [apply (step_keeps (table s)); [done|apply step_usb_clear]|]. split; [by apply clear_usb_quieter|].
        split; [rewrite Hol; apply clear_usb_gone|]. split; [done|]. split; [done|].
        unfold client_at in *. cbn in *. unfold clear_usb_identity. by destruct (negb _). }
    assert (consistent (table s1) (check s1)) as Hcs1 by (rewrite Hk1; by apply (consistent_quieter (table s))).
    refine (good_trans _ s1 _ _ _); [apply good_moved; [exact Hcs1|exact Hq|exact Hh1]|].
    eapply (good_admitted (wifi_seat i) h); eauto; [|rewrite Hk1; by apply Hne|by eapply admit_wifi_at].
    intros b Hbh. assert (b = o) as ->; [|by eapply Hgone].
    apply (cs_unique _ _ Hcs (he_id h)); [by eapply holder_quieter|done].
  - destruct Hd as (Ho & Hdif & _ & Hidle & _).
    pose proof (begin_good s (wifi_seat i) h o true now self Hcs (Hidle (or_introl eq_refl)) Hh Hs Hself Hi Ho) as Hbg.
    destruct (begin (check s) (table s) (wifi_seat i) o h true now) as [[k t] begun]. destruct Hbg as [-> Hg]. cbn [negb].
    refine (good_trans _ _ _ Hg _). apply run_good; [apply Hg|]. intros s' Hdr. apply drive_wifi_good in Hdr; [done|apply Hg].
  - by apply (good_other s (wifi_seat i)); [| |constructor].
Qed.

Lemma usb_hello_good payload r now begin_us drive_us s :
  consistent (table s) (check s) -> is_bytes payload -> good s (handle_usb_hello payload r now begin_us drive_us s).
Proof.
  intros Hcs Hb. unfold handle_usb_hello. destruct (usb (table s)) as [self|] eqn:Hself; [|by apply good_refl].
  destruct (parse_hello payload no_hello) as [h|] eqn:Hp; [|by apply good_refl].
  pose proof (parse_hello_ok payload h Hb Hp) as Hh. assert (seat_ok usb_seat) as Hs by done.
  destruct (identified self) eqn:Hi; cbn [negb]; [by apply (good_other s usb_seat); [| |constructor]|].
  destruct (holds (check s) usb_seat) eqn:Hholds; [by apply good_refl|].
  destruct (has_old_client (table s) now (-1) true); [by apply (good_refl s)|].
  pose proof (first_hello_free s usb_seat self Hcs Hs Hself Hholds) as Hfree.
  pose proof (decide_hello_spec (table s) usb_seat h (check s) (cs_table _ _ Hcs) Hs
    (unidentified_no_holder _ usb_seat _ _ Hself Hi)) as Hd. cbv zeta in *.
  destruct (decide_hello (table s) usb_seat h (check s)) as [a o]. cbn [action other] in *. destruct Hd as (_ & Hne & Hd).
  destruct (decide (a = ha_admit)) as [->|Hna].
  { eapply (good_admitted usb_seat h); eauto. by eapply admit_usb_at. }
  destruct (decide (a = ha_busy)) as [->|Hnb]; [by apply (good_other s usb_seat); [| |constructor]|].
  assert (holder_of (table s) (he_id h) o /\ active (check s) = false) as [Ho Hidle] by (destruct a; intuition done).
  pose proof (begin_good s usb_seat h o (bool_decide (a = ha_ask)) begin_us self Hcs Hidle Hh Hs Hself Hi Ho) as Hbg.
  destruct (begin (check s) (table s) usb_seat o h (bool_decide (a = ha_ask)) begin_us) as [[k t] begun].
  destruct Hbg as [-> Hg]. cbn [negb]. refine (good_trans _ _ _ Hg _).
  apply run_good; [apply Hg|]. intros s' Hdr. apply drive_usb_good in Hdr; [done|apply Hg].
Qed.

(** ** The two links at work

    What the handlers do, and what the rest of the firmware does around them:
    clients come and go, their bookkeeping changes, control moves. *)
Definition new_links : Links := mk_links new_table new_check no_identity [].

Inductive hello_step : Links -> Links -> Prop :=
| hs_wifi_hello s i payload now : is_bytes payload -> hello_step s (handle_wifi_hello i payload now s)
| hs_usb_hello s payload r now begin_us drive_us : is_bytes payload ->
    hello_step s (handle_usb_hello payload r now begin_us drive_us s)
| hs_drive_wifi s now : hello_step s (run (drive_wifi turns now) s)
| hs_drive_usb s r now : hello_step s (run (drive_usb turns r now) s)
| hs_reply s from payload : hello_step s (handle_presence_reply from payload s).

Inductive links_step : Links -> Links -> Prop :=
| ls_hello s s' : hello_step s s' -> links_step s s'
| ls_add s a now : links_step s (s <| table := (add_wifi (table s) a now).1 |>)
| ls_lost s i : links_step s (s <| table := (remove_wifi (table s) i).1 |>)
| ls_all_lost s : links_step s (s <| table := clear_wifi (table s) |>)
| ls_usb s present now : links_step s (s <| table := set_usb_present (table s) present now |>)
| ls_usb_window s now : links_step s (s <| table := start_usb_hello_window (table s) now |>)
| ls_usb_idle s : links_step s (s <| table := clear_usb_identity (table s) |>)
| ls_client s a f : seat_ok a -> other_op f -> links_step s (s <| table := update_at (table s) a f |>)
| ls_control s h : links_step s (s <| holder := h |>).

Lemma hello_step_good s s' : consistent (table s) (check s) -> hello_step s s' -> good s s'.
Proof.
  intros Hcs Hstep. destruct Hstep as [t i payload now Hb|t payload r now b d Hb|t now|t r now|t from payload].
  - by apply wifi_hello_good.
  - by apply usb_hello_good.
  - apply run_good; [done|]. intros. by eapply drive_wifi_good.
  - apply run_good; [done|]. intros. by eapply drive_usb_good.
  - apply good_moved; [|done|done]. unfold handle_presence_reply. recs. rewrite note_answer_spec.
    case_decide as Hw; [|done]. cbn [fst]. apply (consistent_moved _ (check t)); try done.
    unfold active. recs. destruct Hw as [-> _]. by decides.
Qed.

Lemma usb_window_quieter t now : quieter t (start_usb_hello_window t now).
Proof.
  unfold start_usb_hello_window. destruct (in_use (usb_ t)) eqn:Hu; cbn [negb orb]; [|done].
  destruct (hello_window_started (client (usb_ t))); [done|].
  pose proof (update_quieter t usb_seat (fun c => c <| hello_window_started := true |> <| hello_window_start_us := now |>)) as Hq.
  unfold update_at, update_usb in Hq. cbn in Hq. rewrite Hu in Hq. by apply Hq.
Qed.

Lemma links_consistent s : star links_step new_links s -> consistent (table s) (check s).
Proof.
  intros Hs. apply (star_invariant links_step (fun s => consistent (table s) (check s)) new_links); [|done|].
  - clear. intros s s' Hcs Hstep. pose proof (cs_table _ _ Hcs) as Ht. destruct Hstep.
    + apply (hello_step_good s s'); done.
    + apply (consistent_quieter (table s)); [done|by apply add_wifi_keeps|by apply add_wifi_quieter].
    + apply (consistent_quieter (table s)); [done|apply (step_keeps (table s)); [done|apply step_remove]|by apply remove_wifi_quieter].
    + apply (consistent_quieter (table s)); [done|apply (step_keeps (table s)); [done|apply step_clear]|by apply clear_wifi_quieter].
    + apply (consistent_quieter (table s)); [done|apply (step_keeps (table s)); [done|apply step_usb]|by apply set_usb_quieter].
    + apply (consistent_quieter (table s)); [done|apply (step_keeps (table s)); [done|apply step_usb_start]|apply usb_window_quieter].
    + apply (consistent_quieter (table s)); [done|apply (step_keeps (table s)); [done|apply step_usb_clear]|by apply clear_usb_quieter].
    + apply (consistent_quieter (table s)); [done|by apply other_op_keeps|by apply other_op_quieter].
    + done.
  - assert (forall a, client_at new_table a = None) as Hno.
    { intros a. destruct (client_at new_table a) as [c|] eqn:Hc; [|done]. apply (client_at_slot _ _ _ new_table_ok) in Hc.
      destruct (seat_link a); [|done]. by destruct Hc as ([|[|[|k]]] & _ & Hc). }
    split; [apply new_table_ok|by split; [concrete|cbn; lia]|done| | |done].
    + intros i a b [_ (c & Hc & _)]. by rewrite Hno in Hc.
    + intros a c _ Hc. by rewrite Hno in Hc.
Qed.

(** C18: Whatever hellos, replies, disconnections and idle turns come in whatever
    order, on WiFi and USB together, no two connected clients are ever
    identified under the same id; and a hello is held only for the newcomer of
    the check in progress, so a client whose check has ended is never left
    waiting, nor kept from becoming old. *)
Theorem identities_unique s :
  star links_step new_links s ->
  (forall i a b, holder_of (table s) i a -> holder_of (table s) i b -> a = b) /\
  (forall a c, seat_ok a -> client_at (table s) a = Some c -> hello_held c = true ->
     active (check s) = true /\ a = newcomer (check s) /\ identified c = false).
Proof.
  intros Hs. pose proof (links_consistent s Hs) as Hcs. split; [apply Hcs|].
  intros a c Ha Hc Hh. destruct (cs_held _ _ Hcs a c Ha Hc Hh) as (? & ? & ? & _). auto.
Qed.

(** Identifying never brings control. Whatever a hello, a presence reply or
    an idle turn of either link leads to, control stays where it was or is
    freed, and a client that this step identified does not have it. *)
Theorem identifying_brings_no_control s s' a i :
  star links_step new_links s -> hello_step s s' ->
  (holder s' = holder s \/ holder s' = no_identity) /\
  (holder_of (table s') i a -> ~ holder_of (table s) i a -> ~ (id_identified (holder s') = true /\ id_id (holder s') = i)).
Proof.
  intros Hs Hstep. destruct (hello_step_good s s' (links_consistent s Hs) Hstep) as [_ [Hh Hm]].
  split; [done|]. intros Ha Hno. by destruct (Hm a i Ha).
Qed.

Lemma step_looked_ask ph own nw r : step_looked ph own nw r = cs_ask -> ph = ph_ask /\ own = true /\ r = true.
Proof. by destruct ph, own, nw, r. Qed.
Lemma step_looked_retire ph own nw r : step_looked ph own nw r = cs_retire -> ph = ph_retire /\ own = true.
Proof. by destruct ph, own, nw, r. Qed.
Lemma phase_looked_admit found own r pause over : phase_looked ph_admit found own r pause over = ph_admit.
Proof. by destruct found, own, r, pause, over. Qed.
Lemma phase_looked_found ph found own r pause over : phase_looked ph found own r pause over = ph_ask -> found = true.
Proof. destruct found; [done|]. unfold phase_looked. by destruct ph, own, r, pause, over. Qed.

(** A second look at once: after a question there is nothing to do, after a
    removal nothing more to ask or remove. *)
Lemma second_look t k l now r :
  match (next_step k t l now r).2 with
  | cs_ask => (next_step (asked (next_step k t l now r).1 now) t l now r).2 = cs_wait
  | cs_retire => forall t', match (next_step (retired (next_step k t l now r).1) t' l now r).2 with
                            | cs_ask | cs_retire => False | _ => True end
  | _ => True
  end.
Proof.
  destruct (looks k t) eqn:Hlk; [|rewrite next_step_ignored by done; by destruct (active k)].
  rewrite !next_step_eq by done. cbn [fst snd].
  set (ph := phase_looked _ _ _ _ _ _). set (k1 := k <| phase_ := ph |> <| last_step_us_ := now |>).
  destruct (step_looked ph (bool_decide (l = seat_link (old k))) (bool_decide (l = seat_link (newcomer k))) r) eqn:Hst; try done.
  - apply step_looked_ask in Hst as (Hp & Hown & ->).
    pose proof (phase_looked_found _ _ _ _ _ _ Hp) as Hop.
    unfold asked. rewrite bool_decide_true by exact Hp. cbn [negb].
    set (k2 := k1 <| asked_us_ := now |> <| phase_ := ph_waiting |>).
    assert (looks k2 t = true) as Hlk2 by (apply andb_true_iff in Hlk as [_ Hnp]; exact Hnp).
    rewrite next_step_eq by done. cbn [snd]. change (old_present k2 t) with (old_present k t). rewrite Hop.
    change (seat_link (old k2)) with (seat_link (old k)). rewrite Hown. unfold k2, k1. recs. rewrite Z.sub_diag.
    unfold phase_looked, step_looked. by decides.
  - apply step_looked_retire in Hst as [Hp Hown]. unfold retired. rewrite bool_decide_true by exact Hp. intros t'.
    set (k2 := k1 <| phase_ := ph_admit |>).
    destruct (looks k2 t') eqn:Hlk2; [|rewrite next_step_ignored by done; by destruct (active k2)].
    rewrite next_step_eq by done. cbn [snd]. change (phase_ k2) with ph_admit.
    rewrite phase_looked_admit. cbn [step_looked]. by destruct (bool_decide (l = seat_link (newcomer k2))).
Qed.

(** Both links' loops over the check end: two turns are enough, from every
    state and at every time. *)
Theorem drives_return s can_read now fuel :
  (turns <= fuel)%nat ->
  (exists s', drive_wifi fuel now s = Some s' /\ drive_wifi turns now s = Some s') /\
  (exists s', drive_usb fuel can_read now s = Some s' /\ drive_usb turns can_read now s = Some s').
Proof.
  intros Hf. destruct fuel as [|[|fuel]]; [unfold turns in Hf; lia..|]. unfold turns.
  pose proof (fun t k l r => second_look t k l now r) as Hsecond.
  split; cbn [drive_wifi drive_usb].
  - pose proof (Hsecond (table s) (check s) link_wifi true) as H2.
    destruct (next_step (check s) (table s) link_wifi now true) as [k1 step]. cbn [fst snd] in H2.
    destruct step; try (eexists; done).
    + unfold send. recs. destruct (next_step (asked k1 now) (table s) link_wifi now true) as [k2 st2].
      cbn in H2. rewrite H2. eexists. done.
    + recs. specialize (H2 (table (retire_wifi_client (seat_index (old k1)) (s <| check := k1 |>)))).
      destruct (next_step (retired k1) _ link_wifi now true) as [k2 st2]. cbn in H2. destruct st2; try done; eexists; done.
  - pose proof (Hsecond (table s) (check s) link_usb can_read) as H2.
    destruct (next_step (check s) (table s) link_usb now can_read) as [k1 step]. cbn [fst snd] in H2.
    destruct step; try (eexists; done).
    + unfold send. recs. destruct (next_step (asked k1 now) (table s) link_usb now can_read) as [k2 st2].
      cbn in H2. rewrite H2. eexists. done.
    + recs. specialize (H2 (clear_usb_identity (table s))).
      destruct (next_step (retired k1) _ link_usb now can_read) as [k2 st2]. cbn in H2. destruct st2; try done; eexists; done.
Qed.

(** ** Two launches of one controller, on WiFi and on USB *)
Module Links_played.
Definition wifi_payload : list Z := hello_bytes 7 [65] 0 ([3] ++ be_bytes 8 1).
Definition usb_payload : list Z := hello_bytes 7 [65] 1 ([3] ++ be_bytes 8 2).
Definition joined : Links := new_links <| table := (add_wifi new_table (mk_address (10, 0, 0, 7) 2222) 5).1 |>.
Definition on_wifi : Links := handle_wifi_hello 0 wifi_payload 100 joined.
Definition with_usb : Links := on_wifi <| table := set_usb_present (table on_wifi) true 200 |>.
Definition on_usb_too : Links := handle_usb_hello usb_payload true 300 310 320 with_usb.
End Links_played.
Import Links_played.

Lemma played_reachable : star links_step new_links with_usb.
Proof.
  apply (star_step _ _ on_wifi); [|apply ls_usb]. apply (star_step _ _ joined); [|by apply ls_hello, hs_wifi_hello; concrete].
  apply star_one. exact (ls_add new_links _ _).
Qed.

Lemma identities_unique_witness :
  holder_of (table on_usb_too) 7 (wifi_seat 0) /\
  (option_map hello_held (client_at (table on_usb_too) usb_seat) = Some true) /\
  (forall i a b, holder_of (table on_usb_too) i a -> holder_of (table on_usb_too) i b -> a = b) /\
  (forall a c, seat_ok a -> client_at (table on_usb_too) a = Some c -> hello_held c = true ->
     active (check on_usb_too) = true /\ a = newcomer (check on_usb_too) /\ identified c = false).
Proof.
  split; [split; [done|]; eexists; by vm_compute|]. split; [by vm_compute|]. apply identities_unique.
  apply (star_step _ _ with_usb); [apply played_reachable|]. apply ls_hello. apply hs_usb_hello. concrete.
Defined.

Lemma identifying_brings_no_control_witness :
  (holder on_usb_too = holder with_usb \/ holder on_usb_too = no_identity) /\
  (holder_of (table on_usb_too) 7 usb_seat -> ~ holder_of (table with_usb) 7 usb_seat ->
     ~ (id_identified (holder on_usb_too) = true /\ id_id (holder on_usb_too) = 7)).
Proof.
  apply (identifying_brings_no_control with_usb on_usb_too usb_seat 7); [apply played_reachable|].
  apply hs_usb_hello. concrete.
Defined.

Lemma drives_return_witness :
  (exists s', drive_wifi 5 900 on_usb_too = Some s' /\ drive_wifi turns 900 on_usb_too = Some s') /\
  (exists s', drive_usb 5 true 900 on_usb_too = Some s' /\ drive_usb turns true 900 on_usb_too = Some s').
Proof. apply (drives_return on_usb_too true 900 5). vm_compute. repeat constructor. Defined.
