(* ===== verification/Ring.v ===== *)
(** * Cyclic slices: what every ring buffer of the firmware shares

    The firmware keeps queues in fixed arrays with wrapping indices in six places
    ([RingBuffer.h], [UartRxDma.cpp], [PlayerLineSources.cpp], [BlockQueue.cpp]
    ...). [cslice buf i xs] says that the list [xs] stands in the array [buf]
    from slot [i] on, wrapping at the end; the operations of a ring are then a
    few rewrites on it. Nothing here models code of its own. *)
From S2P Require Import Prelude.

Section Cyclic.
Context {A : Type}.
Implicit Types (buf xs ys : list A) (i j k n : nat) (x y : A).

Definition cslice buf i xs : Prop :=
  (length xs <= length buf)%nat /\
  forall k x, xs !! k = Some x -> buf !! ((i + k) mod length buf)%nat = Some x.

(** Slots less than a lap apart are different. *)
Lemma slot_mod_inj n i j k :
  (j < n)%nat -> (k < n)%nat -> ((i + j) mod n = (i + k) mod n)%nat -> j = k.
Proof.
  intros Hj Hk H. pose proof (Nat.div_mod_eq (i + j) n). pose proof (Nat.div_mod_eq (i + k) n).
  rewrite H in *.
  assert ((i + j) / n = (i + k) / n \/ (i + j) / n < (i + k) / n \/ (i + k) / n < (i + j) / n)%nat as [|[]] by lia.
  all: nia.
Qed.

Lemma cslice_nil buf i : cslice buf i [].
Proof. split; [cbn; lia|]. intros k x H. by rewrite lookup_nil in H. Qed.

Lemma cslice_length buf i xs : cslice buf i xs -> (length xs <= length buf)%nat.
Proof. by intros []. Qed.

Lemma cslice_mod buf i xs : cslice buf (i mod length buf) xs <-> cslice buf i xs.
Proof.
  unfold cslice. assert (forall k, ((i mod length buf + k) mod length buf = (i + k) mod length buf)%nat) as Hm.
  { intros k. destruct (decide (length buf = 0%nat)) as [H0|H0]; [by rewrite H0|]. by rewrite Nat.Div0.add_mod_idemp_l. }
  split; intros [Hl H]; (split; [done|]); intros k x Hk; specialize (H k x Hk); by rewrite Hm in *.
Qed.

(** The oldest element is read at the front slot. *)
Lemma cslice_front buf i x xs : cslice buf i (x :: xs) -> buf !! (i mod length buf)%nat = Some x.
Proof. intros [_ H]. specialize (H 0%nat x eq_refl). by rewrite Nat.add_0_r in H. Qed.

Lemma cslice_pop buf i x xs : cslice buf i (x :: xs) -> cslice buf (S i) xs.
Proof.
  intros [Hl H]. cbn in Hl. split; [lia|]. intros k y Hk.
  replace (S i + k)%nat with (i + S k)%nat by lia. by apply H.
Qed.

Lemma cslice_app_r buf i xs ys : cslice buf i (xs ++ ys) -> cslice buf (i + length xs) ys.
Proof.
  revert i. induction xs as [|x xs IH]; intros i H; cbn [app length] in *.
  - by rewrite Nat.add_0_r.
  - apply cslice_pop, IH in H. by replace (i + S (length xs))%nat with (S i + length xs)%nat by lia.
Qed.
Lemma cslice_app_l buf i xs ys : cslice buf i (xs ++ ys) -> cslice buf i xs.
Proof.
  intros [Hl H]. rewrite length_app in Hl. split; [lia|]. intros k x Hk. apply H. by apply lookup_app_l_Some.
Qed.

(** Writing a free slot leaves what is queued alone. *)
Lemma cslice_insert_free buf i xs k y :
  cslice buf i xs -> (length xs <= k < length buf)%nat ->
  cslice (<[((i + k) mod length buf)%nat := y]> buf) i xs.
Proof.
  intros [Hl H] Hk. split; [by rewrite length_insert|]. rewrite length_insert. intros j x Hj.
  pose proof (lookup_lt_Some _ _ _ Hj).
  rewrite list_lookup_insert_ne; [by apply H|]. intros He. apply slot_mod_inj in He; lia.
Qed.

(** Writing the first free slot appends. *)
Lemma cslice_push buf i xs x :
  cslice buf i xs -> (length xs < length buf)%nat ->
  cslice (<[((i + length xs) mod length buf)%nat := x]> buf) i (xs ++ [x]).
Proof.
  intros Hc Hl. pose proof (cslice_insert_free buf i xs (length xs) x Hc ltac:(lia)) as [_ H].
  split; rewrite length_insert in *; [rewrite length_app; cbn; lia|].
  intros k y Hk. apply lookup_snoc_Some in Hk as [[_ Hk]|[-> ->]]; [by apply H|].
  rewrite list_lookup_insert_eq; [done|]. apply Nat.mod_upper_bound. lia.
Qed.

(** The list read back from [n] slots. *)
Fixpoint cread buf i n : list A :=
  match n with
  | O => []
  | S n => match buf !! (i mod length buf)%nat with Some x => x :: cread buf (S i) n | None => [] end
  end.

Lemma cread_slice buf i xs : cslice buf i xs -> cread buf i (length xs) = xs.
Proof.
  revert i. induction xs as [|x xs IH]; intros i H; [done|]. cbn [length cread].
  rewrite (cslice_front _ _ _ _ H). f_equal. by apply IH, cslice_pop with x.
Qed.

(** ** Block writes and reads, as [memcpy] does them: up to the end of the
    array, then from its start. *)
Definition copy_in buf (at_ : nat) xs : list A := list_inserts at_ xs buf.
Definition write_wrapped buf i xs : list A :=
  let first := (length buf - i)%nat in
  copy_in (copy_in buf i (take first xs)) 0 (drop first xs).
Definition read_wrapped buf i n : list A :=
  let first := (n `min` (length buf - i))%nat in slice i first buf ++ slice 0 (n - first) buf.

Lemma length_write_wrapped buf i xs : length (write_wrapped buf i xs) = length buf.
Proof. unfold write_wrapped, copy_in. by rewrite !length_inserts. Qed.

Lemma write_wrapped_lookup buf i xs j :
  (i < length buf)%nat -> (length xs <= length buf)%nat -> (j < length buf)%nat ->
  write_wrapped buf i xs !! ((i + j) mod length buf)%nat =
  if decide (j < length xs)%nat then xs !! j else buf !! ((i + j) mod length buf)%nat.
Proof.
  intros Hi Hx Hj. unfold write_wrapped, copy_in. set (f := (length buf - i)%nat).
  assert (Hw : ((i + j) mod length buf = if decide (j < f) then i + j else j - f)%nat).
  { case_decide; unfold f in *; [apply Nat.mod_small; lia|].
    symmetry. apply (Nat.mod_unique _ _ 1); lia. }
  rewrite Hw.
  assert (Hskip : forall k, (length (drop f xs) <= k)%nat ->
    list_inserts 0 (drop f xs) (list_inserts i (take f xs) buf) !! k = list_inserts i (take f xs) buf !! k).
  { intros k Hk. rewrite list_lookup_inserts_ge; [done|lia]. }
  destruct (decide (j < f)%nat) as [Hf|Hf].
  - rewrite Hskip by (rewrite length_drop; lia).
    destruct (decide (j < length xs)%nat).
    + rewrite list_lookup_inserts by (rewrite ?length_take; unfold f in *; lia).
      rewrite lookup_take_lt by lia. f_equal; lia.
    + rewrite list_lookup_inserts_ge; [done|]. rewrite length_take. lia.
  - destruct (decide (j < length xs)%nat).
    + rewrite list_lookup_inserts by (rewrite ?length_inserts, ?length_drop; unfold f in *; lia).
      rewrite lookup_drop. f_equal; lia.
    + rewrite Hskip by (rewrite length_drop; lia).
      rewrite list_lookup_inserts_lt by (unfold f in *; lia). done.
Qed.

Lemma cslice_write buf i xs ys :
  cslice buf i xs -> (length xs + length ys <= length buf)%nat -> (0 < length buf)%nat ->
  cslice (write_wrapped buf ((i + length xs) mod length buf) ys) i (xs ++ ys).
Proof.
  intros [Hl H] Hle Hn. set (h := ((i + length xs) mod length buf)%nat).
  assert (Hh : (h < length buf)%nat) by (apply Nat.mod_upper_bound; lia).
  split; rewrite length_write_wrapped; [by rewrite length_app|]. intros k x Hk.
  pose proof (lookup_lt_Some _ _ _ Hk) as Hkl. rewrite length_app in Hkl.
  set (j := if decide (k < length xs)%nat then (length buf - length xs + k)%nat else (k - length xs)%nat).
  assert (Hj : (j < length buf)%nat) by (unfold j; case_decide; lia).
  assert (Hs : ((i + k) mod length buf = (h + j) mod length buf)%nat).
  { unfold h, j. rewrite Nat.Div0.add_mod_idemp_l. case_decide.
    - replace (i + length xs + (length buf - length xs + k))%nat with (i + k + 1 * length buf)%nat by lia.
      by rewrite Nat.Div0.mod_add.
    - f_equal. lia. }
  rewrite Hs, write_wrapped_lookup, <- Hs by lia. unfold j.
  destruct (decide (k < length xs)%nat).
  - rewrite decide_False by lia. rewrite lookup_app_l in Hk by done. by apply H.
  - rewrite decide_True by lia. by rewrite lookup_app_r in Hk by lia.
Qed.

Lemma read_wrapped_slice buf i xs ys :
  (i < length buf)%nat -> cslice buf i (xs ++ ys) -> read_wrapped buf i (length xs) = xs.
Proof.
  intros Hi Hc. apply cslice_app_l in Hc as [Hl H]. apply list_eq. intros k.
  unfold read_wrapped, slice. set (f := (length xs `min` (length buf - i))%nat).
  destruct (decide (k < length xs)%nat) as [Hk|Hk].
  - destruct (lookup_lt_is_Some_2 xs k Hk) as [x Hx]. rewrite Hx.
    specialize (H k x Hx).
    destruct (decide (k < f)%nat).
    + rewrite lookup_app_l by (rewrite length_take, length_drop; lia).
      rewrite lookup_take_lt, lookup_drop by lia. rewrite Nat.mod_small in H by lia. done.
    + rewrite lookup_app_r by (rewrite length_take, length_drop; lia).
      rewrite length_take, length_drop. replace (f `min` (length buf - i))%nat with f by lia.
      rewrite lookup_take_lt by lia. rewrite drop_0.
      replace ((i + k) mod length buf)%nat with (k - f)%nat in H; [done|].
      apply (Nat.mod_unique _ _ 1); lia.
  - rewrite (lookup_ge_None_2 xs) by lia. apply lookup_ge_None_2.
    rewrite length_app, !length_take, !length_drop. lia.
Qed.
End Cyclic.

#[export] Hint Resolve cslice_nil cslice_pop : carvera.
#[export] Hint Rewrite @length_write_wrapped : carvera.
