(* ===== verification/RingBuffer.v ===== *)
(** * The index-masked ring of bytes ([src/src/libs/RingBuffer.h])

    [RingBuffer<kind, length>] keeps [tail] and [head] in [0 .. length - 1] and
    steps them with the mask [length - 1]. What it holds is a cyclic slice of its
    array; every operation is related to the list it holds ([holds]). The class
    does not check for room: what a push into a full ring does is a theorem here,
    and who checks is for its users ([ConsoleRx]). *)
From S2P Require Import Prelude Ring.

Section RingBuffer.
Context {kind : Type} `{Inhabited kind}.

(** [src/src/libs/RingBuffer.h:30-32] RingBuffer *)
Record RingBuffer := mk_ring { rb_buffer : list kind; rb_tail : Z; rb_head : Z }.
#[export] Instance eta_ring : Eta RingBuffer := fun r => mk_ring (rb_buffer r) (rb_tail r) (rb_head r).

(** The template parameter [length]: the array's size. *)
Definition rb_length (r : RingBuffer) : Z := Z.of_nat (length (rb_buffer r)).

(** The array's contents are whatever memory held.
    [src/src/libs/RingBuffer.h:37-39] RingBuffer::RingBuffer *)
Definition new_ring (memory : list kind) : RingBuffer := mk_ring memory 0 0.
(** [src/src/libs/RingBuffer.h:41-43] RingBuffer::capacity *)
Definition capacity (r : RingBuffer) : Z := rb_length r - 1.
(** [src/src/libs/RingBuffer.h:45-51] RingBuffer::size *)
Definition size_ (r : RingBuffer) : Z :=
  rb_head r - rb_tail r + (if rb_head r <? rb_tail r then rb_length r else 0).
(** [src/src/libs/RingBuffer.h:53-57] RingBuffer::next_block_index *)
Definition next_block_index (r : RingBuffer) (index : Z) : Z :=
  let index := index + 1 in if index =? rb_length r then 0 else index.
(** [src/src/libs/RingBuffer.h:59-63] RingBuffer::prev_block_index *)
Definition prev_block_index (r : RingBuffer) (index : Z) : Z :=
  (if index =? 0 then rb_length r else index) - 1.

Definition masked (r : RingBuffer) (i : Z) : Z := Z.land (i + 1) (rb_length r - 1).
(** [src/src/libs/RingBuffer.h:65-68] RingBuffer::push_back *)
Definition push_back (r : RingBuffer) (object : kind) : RingBuffer :=
  r <| rb_buffer := <[Z.to_nat (rb_head r) := object]> (rb_buffer r) |> <| rb_head := masked r (rb_head r) |>.
(** A reference is the slot's index.
    [src/src/libs/RingBuffer.h:70-72] RingBuffer::get_head_ref *)
Definition get_head_ref (r : RingBuffer) : Z := rb_head r.
(** [src/src/libs/RingBuffer.h:74-76] RingBuffer::get_tail_ref *)
Definition get_tail_ref (r : RingBuffer) : Z := rb_tail r.

(** The loop that [get] and [get_ref] share: [k] steps from [tail] and [j]
    counts, until [index] or [head] is met. The array's length bounds the turns
    ([seek_spec]).
    [src/src/libs/RingBuffer.h:79-84] RingBuffer::get *)
Fixpoint seek (fuel : nat) (r : RingBuffer) (index j k : Z) : Z :=
  match fuel with
  | O => k
  | S fuel => if (k =? rb_head r) || (j =? index) then k else seek fuel r index (j + 1) (masked r k)
  end.
(** [src/src/libs/RingBuffer.h:78-90] RingBuffer::get *)
Definition get (r : RingBuffer) (index : Z) : kind :=
  rb_buffer r !!! Z.to_nat (seek (length (rb_buffer r)) r index 0 (rb_tail r)).
(** [src/src/libs/RingBuffer.h:93-106] RingBuffer::get_ref *)
Definition get_ref (r : RingBuffer) (index : Z) : option Z :=
  let k := seek (length (rb_buffer r)) r index 0 (rb_tail r) in
  if k =? rb_head r then None else Some k.
(** [src/src/libs/RingBuffer.h:108-111] RingBuffer::pop_front *)
Definition pop_front (r : RingBuffer) : RingBuffer * kind :=
  (r <| rb_tail := masked r (rb_tail r) |>, rb_buffer r !!! Z.to_nat (rb_tail r)).
(** [src/src/libs/RingBuffer.h:113-117] RingBuffer::delete_tail *)
Definition delete_tail (r : RingBuffer) : RingBuffer := r <| rb_tail := masked r (rb_tail r) |>.
(** Users empty a ring by moving its tail to its head.
    [src/src/modules/communication/SerialConsole.cpp:1126-1126] RingBuffer::tail *)
Definition discard (r : RingBuffer) : RingBuffer := r <| rb_tail := rb_head r |>.

(** ** What a ring holds *)

(** Every ring of the firmware has a power of two slots, which the mask needs. *)
Definition ring_ok (r : RingBuffer) : Prop :=
  (exists w, 0 <= w /\ rb_length r = 2 ^ w) /\ 0 <= rb_tail r < rb_length r /\ 0 <= rb_head r < rb_length r.

Definition holds (r : RingBuffer) (xs : list kind) : Prop :=
  ring_ok r /\ cslice (rb_buffer r) (Z.to_nat (rb_tail r)) xs /\
  Z.of_nat (length xs) <= capacity r /\ rb_head r = (rb_tail r + Z.of_nat (length xs)) mod rb_length r.

Lemma length_pos r : ring_ok r -> 0 < rb_length r.
Proof. intros [_ []]. lia. Qed.

Lemma masked_mod r i : ring_ok r -> masked r i = (i + 1) mod rb_length r.
Proof.
  intros [(w & Hw & Hl) _]. unfold masked. rewrite Hl, <- Z.land_ones by done.
  by rewrite Z.ones_equiv, Z.sub_1_r.
Qed.
Lemma next_block_index_masked r i : ring_ok r -> 0 <= i < rb_length r -> next_block_index r i = masked r i.
Proof.
  intros Hr Hi. rewrite masked_mod by done. unfold next_block_index. cbv zeta.
  destruct (Z.eqb_spec (i + 1) (rb_length r)) as [->|]; [by rewrite Z_mod_same_full|].
  by rewrite Z.mod_small by lia.
Qed.
(** [prev_block_index] undoes [next_block_index]. *)
Lemma prev_next_block_index r i :
  0 <= i < rb_length r -> prev_block_index r (next_block_index r i) = i.
Proof.
  intros Hi. unfold prev_block_index, next_block_index. cbv zeta.
  destruct (Z.eqb_spec (i + 1) (rb_length r)); [rewrite Z.eqb_refl; lia|].
  destruct (Z.eqb_spec (i + 1) 0); lia.
Qed.

Lemma masked_range r i : ring_ok r -> 0 <= masked r i < rb_length r.
Proof. intros Hr. rewrite masked_mod by done. apply Z.mod_pos_bound, length_pos, Hr. Qed.

Lemma to_nat_mod a n : 0 <= a -> 0 < n -> Z.to_nat (a mod n) = (Z.to_nat a mod Z.to_nat n)%nat.
Proof. intros. rewrite Z2Nat.inj_mod by lia. done. Qed.

Lemma holds_new memory w :
  0 <= w -> Z.of_nat (length memory) = 2 ^ w -> holds (new_ring memory) [].
Proof.
  intros Hw Hl. assert (0 < 2 ^ w) by (apply Z.pow_pos_nonneg; lia).
  unfold holds, ring_ok, capacity, rb_length, new_ring. cbn [rb_buffer rb_tail rb_head length].
  rewrite Hl. split_and!; try lia; [by exists w|apply cslice_nil|by rewrite Z.mod_small by lia].
Qed.

Lemma holds_size r xs : holds r xs -> size_ r = Z.of_nat (length xs).
Proof.
  intros (Hr & _ & Hc & Hh). pose proof (length_pos r Hr). destruct Hr as (_ & Ht & _).
  unfold size_, capacity in *. set (n := Z.of_nat (length xs)) in *.
  destruct (Z.lt_ge_cases (rb_tail r + n) (rb_length r)).
  - rewrite Z.mod_small in Hh by lia. destruct (Z.ltb_spec (rb_head r) (rb_tail r)); lia.
  - assert (rb_head r = rb_tail r + n - rb_length r) as He.
    { rewrite Hh. symmetry. apply (Z.mod_unique_pos _ _ 1); lia. }
    destruct (Z.ltb_spec (rb_head r) (rb_tail r)); lia.
Qed.

Lemma holds_empty_iff r xs : holds r xs -> (rb_tail r = rb_head r <-> xs = []).
Proof.
  intros Hr. pose proof (holds_size r xs Hr) as Hs. destruct Hr as ((_ & Ht & Hh) & _).
  unfold size_ in Hs. destruct (Z.ltb_spec (rb_head r) (rb_tail r)); split; intros He; subst; cbn in *; try lia;
    destruct xs; cbn in *; try done; lia.
Qed.

(** The test users make for room: the next head is not the tail. *)
Lemma holds_full_iff r xs :
  holds r xs -> (next_block_index r (rb_head r) = rb_tail r <-> Z.of_nat (length xs) = capacity r).
Proof.
  intros Hr. pose proof (holds_size r xs Hr) as Hs. destruct Hr as ((Hw & Ht & Hh) & _ & Hc & _).
  unfold size_, next_block_index, capacity in *. cbv zeta.
  destruct (Z.ltb_spec (rb_head r) (rb_tail r)), (Z.eqb_spec (rb_head r + 1) (rb_length r)); lia.
Qed.

Lemma ring_ok_step r (b : list kind) t h :
  ring_ok r -> length b = length (rb_buffer r) -> 0 <= t < rb_length r -> 0 <= h < rb_length r ->
  ring_ok (mk_ring b t h).
Proof. intros (Hw & _ & _) Hb Ht Hh. unfold ring_ok, rb_length in *. cbn. rewrite Hb. auto. Qed.

(** A push with room appends. *)
Lemma push_back_holds r xs x :
  holds r xs -> Z.of_nat (length xs) < capacity r -> holds (push_back r x) (xs ++ [x]).
Proof.
  intros (Hr & Hs & Hc & Hh) Hroom. pose proof (length_pos r Hr). pose proof (masked_range r (rb_head r) Hr).
  assert (Hr' := Hr). destruct Hr' as (_ & Ht & Hhr). unfold capacity in *.
  unfold holds, push_back, set_field; cbn.
  unfold capacity, rb_length in *; cbn. rewrite !length_insert, length_app; cbn [length].
  split_and!.
  - apply ring_ok_step with r; rewrite ?length_insert; done.
  - replace (Z.to_nat (rb_head r)) with ((Z.to_nat (rb_tail r) + length xs) mod length (rb_buffer r))%nat.
    + apply cslice_push; [done|lia].
    + rewrite Hh, to_nat_mod by lia. rewrite Nat2Z.id. f_equal. lia.
  - lia.
  - change (length (rb_buffer r)) with (length (rb_buffer r)) in *.
    rewrite masked_mod by done. unfold rb_length. rewrite Hh, Zplus_mod_idemp_l. f_equal. lia.
Qed.

(** A push into a full ring empties it: all it held is lost, the new element with it. *)
Lemma push_back_full r xs x :
  holds r xs -> Z.of_nat (length xs) = capacity r -> holds (push_back r x) [].
Proof.
  intros Hx Hfull. assert (Hm : masked r (rb_head r) = rb_tail r).
  { rewrite <- next_block_index_masked by apply Hx. by apply (holds_full_iff r xs). }
  destruct Hx as (Hr & _ & Hc & _). destruct Hr as (Hw & Ht & Hh) eqn:E; clear E.
  unfold holds, push_back, set_field; cbn. rewrite Hm. split_and!.
  - apply ring_ok_step with r; rewrite ?length_insert; done.
  - apply cslice_nil.
  - unfold capacity, rb_length in *; cbn. rewrite length_insert. lia.
  - unfold rb_length; cbn. rewrite length_insert, Z.add_0_r.
    change (Z.of_nat (length (rb_buffer r))) with (rb_length r). by rewrite Z.mod_small by lia.
Qed.

Lemma pop_front_holds r x xs :
  holds r (x :: xs) -> snd (pop_front r) = x /\ holds (fst (pop_front r)) xs.
Proof.
  intros (Hr & Hs & Hc & Hh). pose proof (length_pos r Hr). pose proof (masked_range r (rb_tail r) Hr).
  assert (Hr' := Hr). destruct Hr' as (_ & Ht & Hhr). unfold pop_front; cbn [fst snd]. split.
  - apply list_lookup_total_correct. rewrite <- (cslice_front _ _ _ _ Hs). f_equal.
    symmetry. apply Nat.mod_small. unfold rb_length in *. lia.
  - unfold holds, set_field; cbn. unfold capacity in *. cbn [length] in *.
    replace (rb_length (mk_ring (rb_buffer r) (masked r (rb_tail r)) (rb_head r))) with (rb_length r) by done.
    split_and!; [by apply ring_ok_step with r| |lia|].
    + apply cslice_mod, cslice_pop with x in Hs || apply cslice_pop in Hs.
      rewrite masked_mod by done. rewrite to_nat_mod by lia.
      replace (Z.to_nat (rb_length r)) with (length (rb_buffer r)) by (unfold rb_length; lia).
      apply cslice_mod. replace (Z.to_nat (rb_tail r + 1)) with (S (Z.to_nat (rb_tail r))) by lia. done.
    + rewrite Hh, masked_mod, Zplus_mod_idemp_l by done. f_equal. lia.
Qed.

(** The scan stops at the element asked for, or at the head. *)
Lemma seek_spec r xs index fuel j :
  holds r xs -> 0 <= j <= Z.of_nat (length xs) -> j <= index -> Z.of_nat (length xs) - j <= Z.of_nat fuel ->
  seek fuel r index j ((rb_tail r + j) mod rb_length r) =
  (rb_tail r + Z.min index (Z.of_nat (length xs))) mod rb_length r.
Proof.
  intros Hx. revert j. pose proof (holds_size r xs Hx) as Hsz. destruct Hx as (Hr & Hs & Hc & Hh).
  pose proof (length_pos r Hr). unfold capacity in *.
  induction fuel as [|fuel IH]; intros j Hj Hi Hf; cbn [seek].
  - do 2 f_equal. lia.
  - destruct (Z.eqb_spec ((rb_tail r + j) mod rb_length r) (rb_head r)) as [He|He].
    + assert (j = Z.of_nat (length xs)) as ->; [|cbn [orb]; do 2 f_equal; lia].
      rewrite Hh in He. destruct Hr as (_ & Ht & _).
      assert (Z.to_nat j = length xs) as Hn; [|lia].
      apply (slot_mod_inj (Z.to_nat (rb_length r)) (Z.to_nat (rb_tail r))); [lia..|].
      apply (f_equal Z.to_nat) in He. rewrite !to_nat_mod in He by lia.
      rewrite !Z2Nat.inj_add, Nat2Z.id in He by lia. done.
    + assert (j <> Z.of_nat (length xs)) by (intros ->; congruence).
      destruct (Z.eqb_spec j index) as [<-|]; cbn [orb]; [do 2 f_equal; lia|].
      rewrite masked_mod, Zplus_mod_idemp_l by done.
      replace (rb_tail r + j + 1) with (rb_tail r + (j + 1)) by lia. apply IH; lia.
Qed.

(** [get_ref] points at the element asked for, and at nothing past the end. *)
Lemma get_ref_spec r xs index :
  holds r xs -> 0 <= index ->
  match xs !! Z.to_nat index with
  | Some x => exists k, get_ref r index = Some k /\ rb_buffer r !! Z.to_nat k = Some x /\ get r index = x
  | None => get_ref r index = None
  end.
Proof.
  intros Hx Hi. pose proof (seek_spec r xs index (length (rb_buffer r)) 0 Hx) as Hk.
  destruct Hx as (Hr & Hs & Hc & Hh). pose proof (length_pos r Hr). assert (Hr' := Hr).
  destruct Hr' as (_ & Ht & _). unfold capacity, rb_length in Hc.
  rewrite Z.add_0_r, (Z.mod_small (rb_tail r)) in Hk by done. specialize (Hk ltac:(lia) ltac:(lia) ltac:(lia)).
  unfold get_ref, get. rewrite Hk. cbv zeta.
  destruct (xs !! Z.to_nat index) as [x|] eqn:Hl.
  - pose proof (lookup_lt_Some _ _ _ Hl). replace (Z.min index (Z.of_nat (length xs))) with index by lia.
    destruct Hs as [_ Hs]. specialize (Hs _ _ Hl). exists ((rb_tail r + index) mod rb_length r).
    assert (rb_buffer r !! Z.to_nat ((rb_tail r + index) mod rb_length r) = Some x) as Hb.
    { rewrite <- Hs. f_equal. rewrite to_nat_mod, Z2Nat.inj_add by lia. unfold rb_length. by rewrite Nat2Z.id. }
    destruct (Z.eqb_spec ((rb_tail r + index) mod rb_length r) (rb_head r)) as [He|_].
    + exfalso. rewrite Hh in He. apply (f_equal Z.to_nat) in He. rewrite !to_nat_mod, !Z2Nat.inj_add in He by lia.
      apply slot_mod_inj in He; unfold rb_length in *; lia.
    + split_and!; [done|done|]. by apply list_lookup_total_correct.
  - apply lookup_ge_None_1 in Hl. replace (Z.min index (Z.of_nat (length xs))) with (Z.of_nat (length xs)) by lia.
    by rewrite <- Hh, Z.eqb_refl.
Qed.

Lemma discard_holds r xs : holds r xs -> holds (discard r) [].
Proof.
  intros ((Hw & Ht & Hh) & _ & Hc & _). unfold holds, discard, set_field; cbn. split_and!.
  - by apply ring_ok_step with r.
  - apply cslice_nil.
  - unfold capacity in *. change (rb_length _) with (rb_length r). lia.
  - change (rb_length (mk_ring _ _ _)) with (rb_length r). by rewrite Z.add_0_r, Z.mod_small by lia.
Qed.
End RingBuffer.
Arguments RingBuffer : clear implicits.
Arguments mk_ring {kind}.
