(* ===== verification/Md5.v ===== *)
(** * MD5 ([src/src/libs/md5.h], [md5.cpp])

    The streaming digest the held job file is hashed with. Words are 32-bit, the
    bit counter is two of them. The stream is shown to compute what the code's own
    [transform] makes of the whole padded message; [Rfc1321] shows that this is the
    standard's digest. *)
From S2P Require Import Prelude.

Module MD5.

(** [src/src/libs/md5.cpp:41-41] S11 *)
Definition S11 : Z := 7.
(** [src/src/libs/md5.cpp:42-42] S12 *)
Definition S12 : Z := 12.
(** [src/src/libs/md5.cpp:43-43] S13 *)
Definition S13 : Z := 17.
(** [src/src/libs/md5.cpp:44-44] S14 *)
Definition S14 : Z := 22.
(** [src/src/libs/md5.cpp:45-45] S21 *)
Definition S21 : Z := 5.
(** [src/src/libs/md5.cpp:46-46] S22 *)
Definition S22 : Z := 9.
(** [src/src/libs/md5.cpp:47-47] S23 *)
Definition S23 : Z := 14.
(** [src/src/libs/md5.cpp:48-48] S24 *)
Definition S24 : Z := 20.
(** [src/src/libs/md5.cpp:49-49] S31 *)
Definition S31 : Z := 4.
(** [src/src/libs/md5.cpp:50-50] S32 *)
Definition S32 : Z := 11.
(** [src/src/libs/md5.cpp:51-51] S33 *)
Definition S33 : Z := 16.
(** [src/src/libs/md5.cpp:52-52] S34 *)
Definition S34 : Z := 23.
(** [src/src/libs/md5.cpp:53-53] S41 *)
Definition S41 : Z := 6.
(** [src/src/libs/md5.cpp:54-54] S42 *)
Definition S42 : Z := 10.
(** [src/src/libs/md5.cpp:55-55] S43 *)
Definition S43 : Z := 15.
(** [src/src/libs/md5.cpp:56-56] S44 *)
Definition S44 : Z := 21.

Definition not32 (x : Z) : Z := Z.lxor x (Z.ones 32).

(** ** The basic functions *)
(** [src/src/libs/md5.cpp:61-64] MD5::F *)
Definition F (x y z : Z) : Z := Z.lor (Z.land x y) (Z.land (not32 x) z).
(** [src/src/libs/md5.cpp:66-69] MD5::G *)
Definition G (x y z : Z) : Z := Z.lor (Z.land x z) (Z.land y (not32 z)).
(** [src/src/libs/md5.cpp:71-74] MD5::H *)
Definition H (x y z : Z) : Z := Z.lxor (Z.lxor x y) z.
(** [src/src/libs/md5.cpp:76-79] MD5::I *)
Definition I (x y z : Z) : Z := Z.lxor y (Z.lor x (not32 z)).

(** [src/src/libs/md5.cpp:81-85] MD5::rotate_left *)
Definition rotate_left (x n : Z) : Z := Z.lor (u32 (Z.shiftl x n)) (Z.shiftr x (32 - n)).

(** The value each leaves in [a].
    [src/src/libs/md5.cpp:87-92] MD5::FF *)
Definition FF (a b c d x s ac : Z) : Z := u32 (rotate_left (u32 (a + F b c d + x + ac)) s + b).
(** [src/src/libs/md5.cpp:94-97] MD5::GG *)
Definition GG (a b c d x s ac : Z) : Z := u32 (rotate_left (u32 (a + G b c d + x + ac)) s + b).
(** [src/src/libs/md5.cpp:99-102] MD5::HH *)
Definition HH (a b c d x s ac : Z) : Z := u32 (rotate_left (u32 (a + H b c d + x + ac)) s + b).
(** [src/src/libs/md5.cpp:104-107] MD5::II *)
Definition II (a b c d x s ac : Z) : Z := u32 (rotate_left (u32 (a + I b c d + x + ac)) s + b).

(** ** Bytes and words, little-endian *)
(** One turn per four bytes.
    [src/src/libs/md5.cpp:145-151] MD5::decode *)
Fixpoint decode (input : list Z) : list Z :=
  match input with
  | b0 :: b1 :: b2 :: b3 :: rest =>
      Z.lor (Z.lor (Z.lor b0 (Z.shiftl b1 8)) (Z.shiftl b2 16)) (Z.shiftl b3 24) :: decode rest
  | _ => []
  end.
(** [src/src/libs/md5.cpp:155-165] MD5::encode *)
Definition encode (input : list Z) : list Z :=
  concat (map (fun w => [Z.land w 0xff; Z.land (Z.shiftr w 8) 0xff; Z.land (Z.shiftr w 16) 0xff; Z.land (Z.shiftr w 24) 0xff]) input).

(** ** The object *)
(** [src/src/libs/md5.h:49-88] MD5 *)
Record MD5 := mk_md5 {
  finalized : bool; buffer : list Z; count0 : Z; count1 : Z; state : Z * Z * Z * Z; digest : list Z
}.
#[export] Instance eta_MD5 : Eta MD5 := fun m =>
  mk_md5 (finalized m) (buffer m) (count0 m) (count1 m) (state m) (digest m).

(** [buffer] and [digest] start with whatever the storage held.
    [src/src/libs/md5.cpp:109-141] MD5::init *)
Definition init (buffer_ digest_ : list Z) : MD5 :=
  mk_md5 false buffer_ 0 0 (0x67452301, 0xefcdab89, 0x98badcfe, 0x10325476) digest_.

(** The four words [a] to [d] that [transform] works on, and what a statement
    calls. *)
Inductive register := ra | rb | rc | rd.
Inductive basic := FF_ | GG_ | HH_ | II_.
Abbreviation registers := (Z * Z * Z * Z)%type.
Definition value_of (r : register) (v : registers) : Z :=
  let '(a, b, c, d) := v in match r with ra => a | rb => b | rc => c | rd => d end.
Definition assign (r : register) (x : Z) (v : registers) : registers :=
  let '(a, b, c, d) := v in match r with ra => (x, b, c, d) | rb => (a, x, c, d) | rc => (a, b, x, d) | rd => (a, b, c, x) end.
(** A statement: what it calls, with the register it changes and the other three,
    the word it adds, the amount it rotates by and its constant. *)
Abbreviation statement := (basic * register * register * register * register * nat * Z * Z)%type.
Definition apply_basic (f : basic) : Z -> Z -> Z -> Z -> Z -> Z -> Z -> Z :=
  match f with FF_ => FF | GG_ => GG | HH_ => HH | II_ => II end.
Definition exec (x : nat -> Z) (v : registers) (s : statement) : registers :=
  let '(f, r1, r2, r3, r4, k, n, ac) := s in
  assign r1 (apply_basic f (value_of r1 v) (value_of r2 v) (value_of r3 v) (value_of r4 v) (x k) n ac) v.
(** [src/src/libs/md5.cpp:175-245] MD5::transform *)
Definition statements : list statement := [
  (FF_, ra, rb, rc, rd, 0%nat, S11, 0xd76aa478);
  (FF_, rd, ra, rb, rc, 1%nat, S12, 0xe8c7b756);
  (FF_, rc, rd, ra, rb, 2%nat, S13, 0x242070db);
  (FF_, rb, rc, rd, ra, 3%nat, S14, 0xc1bdceee);
  (FF_, ra, rb, rc, rd, 4%nat, S11, 0xf57c0faf);
  (FF_, rd, ra, rb, rc, 5%nat, S12, 0x4787c62a);
  (FF_, rc, rd, ra, rb, 6%nat, S13, 0xa8304613);
  (FF_, rb, rc, rd, ra, 7%nat, S14, 0xfd469501);
  (FF_, ra, rb, rc, rd, 8%nat, S11, 0x698098d8);
  (FF_, rd, ra, rb, rc, 9%nat, S12, 0x8b44f7af);
  (FF_, rc, rd, ra, rb, 10%nat, S13, 0xffff5bb1);
  (FF_, rb, rc, rd, ra, 11%nat, S14, 0x895cd7be);
  (FF_, ra, rb, rc, rd, 12%nat, S11, 0x6b901122);
  (FF_, rd, ra, rb, rc, 13%nat, S12, 0xfd987193);
  (FF_, rc, rd, ra, rb, 14%nat, S13, 0xa679438e);
  (FF_, rb, rc, rd, ra, 15%nat, S14, 0x49b40821);
  (GG_, ra, rb, rc, rd, 1%nat, S21, 0xf61e2562);
  (GG_, rd, ra, rb, rc, 6%nat, S22, 0xc040b340);
  (GG_, rc, rd, ra, rb, 11%nat, S23, 0x265e5a51);
  (GG_, rb, rc, rd, ra, 0%nat, S24, 0xe9b6c7aa);
  (GG_, ra, rb, rc, rd, 5%nat, S21, 0xd62f105d);
  (GG_, rd, ra, rb, rc, 10%nat, S22, 0x2441453);
  (GG_, rc, rd, ra, rb, 15%nat, S23, 0xd8a1e681);
  (GG_, rb, rc, rd, ra, 4%nat, S24, 0xe7d3fbc8);
  (GG_, ra, rb, rc, rd, 9%nat, S21, 0x21e1cde6);
  (GG_, rd, ra, rb, rc, 14%nat, S22, 0xc33707d6);
  (GG_, rc, rd, ra, rb, 3%nat, S23, 0xf4d50d87);
  (GG_, rb, rc, rd, ra, 8%nat, S24, 0x455a14ed);
  (GG_, ra, rb, rc, rd, 13%nat, S21, 0xa9e3e905);
  (GG_, rd, ra, rb, rc, 2%nat, S22, 0xfcefa3f8);
  (GG_, rc, rd, ra, rb, 7%nat, S23, 0x676f02d9);
  (GG_, rb, rc, rd, ra, 12%nat, S24, 0x8d2a4c8a);
  (HH_, ra, rb, rc, rd, 5%nat, S31, 0xfffa3942);
  (HH_, rd, ra, rb, rc, 8%nat, S32, 0x8771f681);
  (HH_, rc, rd, ra, rb, 11%nat, S33, 0x6d9d6122);
  (HH_, rb, rc, rd, ra, 14%nat, S34, 0xfde5380c);
  (HH_, ra, rb, rc, rd, 1%nat, S31, 0xa4beea44);
  (HH_, rd, ra, rb, rc, 4%nat, S32, 0x4bdecfa9);
  (HH_, rc, rd, ra, rb, 7%nat, S33, 0xf6bb4b60);
  (HH_, rb, rc, rd, ra, 10%nat, S34, 0xbebfbc70);
  (HH_, ra, rb, rc, rd, 13%nat, S31, 0x289b7ec6);
  (HH_, rd, ra, rb, rc, 0%nat, S32, 0xeaa127fa);
  (HH_, rc, rd, ra, rb, 3%nat, S33, 0xd4ef3085);
  (HH_, rb, rc, rd, ra, 6%nat, S34, 0x4881d05);
  (HH_, ra, rb, rc, rd, 9%nat, S31, 0xd9d4d039);
  (HH_, rd, ra, rb, rc, 12%nat, S32, 0xe6db99e5);
  (HH_, rc, rd, ra, rb, 15%nat, S33, 0x1fa27cf8);
  (HH_, rb, rc, rd, ra, 2%nat, S34, 0xc4ac5665);
  (II_, ra, rb, rc, rd, 0%nat, S41, 0xf4292244);
  (II_, rd, ra, rb, rc, 7%nat, S42, 0x432aff97);
  (II_, rc, rd, ra, rb, 14%nat, S43, 0xab9423a7);
  (II_, rb, rc, rd, ra, 5%nat, S44, 0xfc93a039);
  (II_, ra, rb, rc, rd, 12%nat, S41, 0x655b59c3);
  (II_, rd, ra, rb, rc, 3%nat, S42, 0x8f0ccc92);
  (II_, rc, rd, ra, rb, 10%nat, S43, 0xffeff47d);
  (II_, rb, rc, rd, ra, 1%nat, S44, 0x85845dd1);
  (II_, ra, rb, rc, rd, 8%nat, S41, 0x6fa87e4f);
  (II_, rd, ra, rb, rc, 15%nat, S42, 0xfe2ce6e0);
  (II_, rc, rd, ra, rb, 6%nat, S43, 0xa3014314);
  (II_, rb, rc, rd, ra, 13%nat, S44, 0x4e0811a1);
  (II_, ra, rb, rc, rd, 4%nat, S41, 0xf7537e82);
  (II_, rd, ra, rb, rc, 11%nat, S42, 0xbd3af235);
  (II_, rc, rd, ra, rb, 2%nat, S43, 0x2ad7d2bb);
  (II_, rb, rc, rd, ra, 9%nat, S44, 0xeb86d391)
].
(** The new state.
    [src/src/libs/md5.cpp:170-254] MD5::transform *)
Definition transform (st : Z * Z * Z * Z) (block : list Z) : Z * Z * Z * Z :=
  let '(s0, s1, s2, s3) := st in
  let words := decode block in
  let '(a, b, c, d) := fold_left (exec (fun i => words !!! i)) statements (s0, s1, s2, s3) in
  (u32 (s0 + a), u32 (s1 + b), u32 (s2 + c), u32 (s3 + d)).

(** The loop over the whole blocks of [input] from [i] on: the state after it and
    the [i] it stops at. A turn takes 64 bytes, so [length input] turns are
    enough ([chunks_spec]).
    [src/src/libs/md5.cpp:281-283] MD5::update *)
Fixpoint chunks (fuel : nat) (st : Z * Z * Z * Z) (input : list Z) (i : Z) : (Z * Z * Z * Z) * Z :=
  match fuel with
  | O => (st, i)
  | S fuel =>
      if u32 (i + 64) <=? Z.of_nat (length input)
      then chunks fuel (transform st (slice (Z.to_nat i) 64 input)) input (u32 (i + 64))
      else (st, i)
  end.

Definition copy (buf : list Z) (at_ : nat) (bytes : list Z) : list Z :=
  take at_ buf ++ bytes ++ drop (at_ + length bytes) buf.

(** [src/src/libs/md5.cpp:258-291] MD5::update *)
Definition update (m : MD5) (input : list Z) : MD5 :=
  let length_ := Z.of_nat (length input) in
  let index := count0 m / 8 mod 64 in
  let c0 := u32 (count0 m + u32 (Z.shiftl length_ 3)) in
  let c1 := if c0 <? u32 (Z.shiftl length_ 3) then u32 (count1 m + 1) else count1 m in
  let c1 := u32 (c1 + Z.shiftr length_ 29) in
  let firstpart := 64 - index in
  let '(buf, st, index, i) :=
    if firstpart <=? length_ then
      let buf := copy (buffer m) (Z.to_nat index) (take (Z.to_nat firstpart) input) in
      let '(st, i) := chunks (length input) (transform (state m) buf) input firstpart in
      (buf, st, 0, i)
    else (buffer m, state m, index, 0) in
  m <| count0 := c0 |> <| count1 := c1 |> <| state := st |>
    <| buffer := copy buf (Z.to_nat index) (drop (Z.to_nat i) input) |>.

Definition words (st : Z * Z * Z * Z) : list Z := let '(a, b, c, d) := st in [a; b; c; d].

(** [src/src/libs/md5.cpp:303-337] MD5::finalize *)
Definition finalize (m : MD5) : MD5 :=
  let padding := 0x80 :: repeat 0 63 in
  if negb (finalized m) then
    let bits := encode [count0 m; count1 m] in
    let index := count0 m / 8 mod 64 in
    let padLen := if index <? 56 then 56 - index else 120 - index in
    let m := update m (take (Z.to_nat padLen) padding) in
    let m := update m bits in
    m <| digest := encode (words (state m)) |> <| buffer := repeat 0 64 |> <| count0 := 0 |> <| count1 := 0 |>
      <| finalized := true |>
  else m.

Definition hex_digit (d : Z) : Z := if d <? 10 then 48 + d else 87 + d.
(** [src/src/libs/md5.cpp:341-353] MD5::hexdigest *)
Definition hexdigest (m : MD5) : list Z :=
  if negb (finalized m) then [] else concat (map (fun b => [hex_digit (b / 16); hex_digit (b mod 16)]) (take 16 (digest m))).

(** The bytes copied out.
    [src/src/libs/md5.cpp:355-359] MD5::bindigest *)
Definition bindigest (m : MD5) (len : Z) : list Z := take (Z.to_nat len) (digest m).

(** ** The whole message at once

    By the code's own [transform] and [encode]: padded, then compressed block by
    block. That this is RFC 1321's digest is shown in [Rfc1321]. *)
Definition initial : Z * Z * Z * Z := (0x67452301, 0xefcdab89, 0x98badcfe, 0x10325476).
(** Compresses the first [n] 64-byte blocks of [data]. *)
Fixpoint absorb (n : nat) (st : Z * Z * Z * Z) (data : list Z) : Z * Z * Z * Z :=
  match n with O => st | S n => absorb n (transform st (take 64 data)) (drop 64 data) end.
Definition bit_count (n : nat) : list Z :=
  let bits := 8 * Z.of_nat n in encode [u32 bits; u32 (bits / 2 ^ 32)].
Definition pad_length (n : nat) : nat := if (n mod 64 <? 56)%nat then 56 - n mod 64 else 120 - n mod 64.
Definition padded (msg : list Z) : list Z :=
  msg ++ (0x80 :: repeat 0 (pad_length (length msg) - 1)) ++ bit_count (length msg).
Definition one_shot (msg : list Z) : list Z :=
  encode (words (absorb (length (padded msg) / 64) initial (padded msg))).

Lemma absorb_app n m st a b : length a = (64 * n)%nat -> absorb (n + m) st (a ++ b) = absorb m (absorb n st a) b.
Proof.
  revert st a. induction n as [|n IH]; intros st a Ha; [by destruct a|]. cbn [Nat.add absorb].
  rewrite take_app_le, drop_app_le by lia. apply IH. rewrite length_drop. lia.
Qed.
Lemma absorb_prefix n st a b : (64 * n <= length a)%nat -> absorb n st (a ++ b) = absorb n st a.
Proof.
  revert st a. induction n as [|n IH]; intros st a Ha; [done|]. cbn [absorb].
  rewrite take_app_le, drop_app_le by lia. apply IH. rewrite length_drop. lia.
Qed.

Lemma chunks_spec fuel st input i :
  (i <= length input)%nat -> (length input - i <= fuel)%nat -> Z.of_nat (length input) + 64 < 2 ^ 32 ->
  let n := ((length input - i) / 64)%nat in
  chunks fuel st input (Z.of_nat i) = (absorb n st (drop i input), Z.of_nat (i + 64 * n)).
Proof.
  revert st i. induction fuel as [|fuel IH]; intros st i Hi Hf Hl; cbn zeta.
  - replace (length input - i)%nat with 0%nat by lia. cbn. do 2 f_equal; lia.
  - cbn [chunks]. rewrite wrap_small by (unfold is_uint; lia). destruct (Z.leb_spec (Z.of_nat i + 64) (Z.of_nat (length input))).
    + replace (Z.of_nat i + 64) with (Z.of_nat (i + 64)) by lia. rewrite IH by lia. cbn zeta. rewrite Nat2Z.id.
      replace ((length input - i) / 64)%nat with (S ((length input - (i + 64)) / 64)).
      * cbn [absorb]. rewrite drop_drop. unfold slice. f_equal. lia.
      * replace (length input - i)%nat with (1 * 64 + (length input - (i + 64)))%nat by lia. rewrite Nat.div_add_l by lia. lia.
    + rewrite Nat.div_small by lia. cbn. do 2 f_equal; lia.
Qed.

(** The object after [msg] has gone in. *)
Record held (m : MD5) (msg : list Z) : Prop := {
  hd_open : finalized m = false;
  hd_buffer : length (buffer m) = 64%nat;
  hd_count0 : count0 m = u32 (8 * Z.of_nat (length msg));
  hd_count1 : count1 m = u32 (8 * Z.of_nat (length msg) / 2 ^ 32);
  hd_state : state m = absorb (length msg / 64) initial msg;
  hd_tail : take (length msg mod 64) (buffer m) = drop (64 * (length msg / 64)) msg
}.

Lemma held_init buf dig : length buf = 64%nat -> held (init buf dig) [].
Proof. by split. Qed.

Lemma index_mod n : u32 (8 * Z.of_nat n) / 8 mod 64 = Z.of_nat (n mod 64).
Proof. rewrite Nat2Z.inj_mod. change (Z.of_nat 64) with 64. ints. Qed.

Lemma count_step n l :
  let bits := u32 (Z.shiftl (Z.of_nat l) 3) in let c0 := u32 (u32 (8 * Z.of_nat n) + bits) in
  let c1 := u32 (8 * Z.of_nat n / 2 ^ 32) in
  c0 = u32 (8 * Z.of_nat (n + l)) /\
  u32 ((if c0 <? bits then u32 (c1 + 1) else c1) + Z.shiftr (Z.of_nat l) 29) = u32 (8 * Z.of_nat (n + l) / 2 ^ 32).
Proof.
  cbv zeta. rewrite Z.shiftl_mul_pow2, Z.shiftr_div_pow2 by lia. change (2 ^ 3) with 8. rewrite Nat2Z.inj_add.
  pose proof (Nat2Z.is_nonneg n). pose proof (Nat2Z.is_nonneg l). generalize dependent (Z.of_nat n). generalize dependent (Z.of_nat l).
  intros x Hx y Hy. split; [ints|].
  assert (x / 2 ^ 29 = 8 * x / 2 ^ 32) as -> by ints.
  assert (8 * (y + x) / 2 ^ 32 = 8 * y / 2 ^ 32 + 8 * x / 2 ^ 32 +
    (if u32 (u32 (8 * y) + u32 (x * 8)) <? u32 (x * 8) then 1 else 0)) as ->.
  { unfold wrap. destruct (Z.ltb_spec ((8 * y) mod 2 ^ 32 + (x * 8) mod 2 ^ 32) (2 ^ 32)).
    - rewrite Z.mod_small by (Z.div_mod_to_equations; lia). rewrite (proj2 (Z.ltb_ge _ _)) by (Z.div_mod_to_equations; lia).
      Z.div_mod_to_equations; lia.
    - rewrite <- (Z.mod_add _ (-1)), Z.mod_small by (Z.div_mod_to_equations; lia).
      rewrite (proj2 (Z.ltb_lt _ _)) by (Z.div_mod_to_equations; lia). Z.div_mod_to_equations; lia. }
  destruct (_ <? _); unfold wrap; rewrite ?Zplus_mod_idemp_l, ?Zplus_mod_idemp_r.
  - rewrite <- Z.add_assoc, Zplus_mod_idemp_l. f_equal. lia.
  - rewrite ?Zplus_mod_idemp_l. f_equal. lia.
Qed.

Lemma length_copy buf at_ bytes :
  (at_ + length bytes <= length buf)%nat -> length (copy buf at_ bytes) = length buf.
Proof. intros. unfold copy. rewrite !length_app, length_take, length_drop. lia. Qed.

Lemma take_copy buf at_ bytes :
  (at_ + length bytes <= length buf)%nat -> take (at_ + length bytes) (copy buf at_ bytes) = take at_ buf ++ bytes.
Proof.
  intros. unfold copy. rewrite app_assoc, take_app_length'; [done|]. rewrite length_app, length_take. lia.
Qed.

(** Where the message stands after [n] bytes, in blocks and bytes over. *)
Lemma blocks_over n : n = (64 * (n / 64) + n mod 64)%nat /\ (n mod 64 < 64)%nat.
Proof. split; [apply Nat.div_mod_eq|apply Nat.mod_upper_bound; lia]. Qed.

Lemma absorb_split msg input :
  absorb (length (msg ++ input) / 64) initial (msg ++ input) =
  absorb ((length msg mod 64 + length input) / 64) (absorb (length msg / 64) initial msg)
    (drop (64 * (length msg / 64)) msg ++ input).
Proof.
  pose proof (blocks_over (length msg)) as [Hn Hr]. set (q := (length msg / 64)%nat) in *. set (r := (length msg mod 64)%nat) in *.
  replace (length (msg ++ input) / 64)%nat with (q + (r + length input) / 64)%nat.
  2: { rewrite length_app, Hn. replace (64 * q + r + length input)%nat with (q * 64 + (r + length input))%nat by lia.
       by rewrite Nat.div_add_l by lia. }
  rewrite <- (take_drop (64 * q) msg) at 1. rewrite <- app_assoc, absorb_app by (rewrite length_take; lia).
  f_equal. rewrite <- (take_drop (64 * q) msg) at 2. rewrite absorb_prefix; [done|]. rewrite length_take. lia.
Qed.

(** [update] is appending to the message. *)
Lemma update_held m msg input :
  held m msg -> Z.of_nat (length input) + 64 < 2 ^ 32 -> held (update m input) (msg ++ input).
Proof.
  intros [Hop Hbuf H0 H1 Hst Htl] Hl. pose proof (blocks_over (length msg)) as [Hn Hr].
  pose proof (absorb_split msg input) as Habs. pose proof (count_step (length msg) (length input)) as Hcs. cbv zeta in Hcs.
  unfold update. cbv zeta. rewrite H0, index_mod.
  set (q := (length msg / 64)%nat) in *. set (r := (length msg mod 64)%nat) in *. set (L := length input) in *.
  set (T := drop (64 * q) msg) in *.
  assert (length T = r) as HT by (subst T; rewrite length_drop; lia).
  assert (length (msg ++ input) = (q * 64 + (r + L))%nat) as Hlen by (rewrite length_app; fold L; lia).
  assert (forall m', finalized m' = false -> length (buffer m') = 64%nat ->
    count0 m' = u32 (u32 (8 * Z.of_nat (length msg)) + u32 (Z.shiftl (Z.of_nat L) 3)) ->
    count1 m' = u32 ((if u32 (u32 (8 * Z.of_nat (length msg)) + u32 (Z.shiftl (Z.of_nat L) 3)) <? u32 (Z.shiftl (Z.of_nat L) 3)
                      then u32 (u32 (8 * Z.of_nat (length msg) / 2 ^ 32) + 1) else u32 (8 * Z.of_nat (length msg) / 2 ^ 32))
                     + Z.shiftr (Z.of_nat L) 29) ->
    state m' = absorb ((r + L) / 64) (absorb q initial msg) (T ++ input) ->
    take ((r + L) mod 64) (buffer m') = drop (64 * ((r + L) / 64)) (T ++ input) -> held m' (msg ++ input)) as Hfin.
  { intros m' E1 E2 E3 E4 E5 E6. split; [done|done| | |by rewrite Habs|].
    - rewrite E3, length_app. apply Hcs.
    - rewrite E4, length_app. apply Hcs.
    - rewrite Hlen, Nat.div_add_l, (Nat.add_comm (q * 64)), Nat.Div0.mod_add, E6 by lia.
      replace (64 * (q + (r + L) / 64))%nat with (64 * q + 64 * ((r + L) / 64))%nat by lia.
      rewrite <- drop_drop, (drop_app_le msg) by lia. done. }
  rewrite H1. destruct (Z.leb_spec (64 - Z.of_nat r) (Z.of_nat L)) as [Hge|Hlt].
  - replace (Z.to_nat (64 - Z.of_nat r)) with (64 - r)%nat by lia. rewrite Nat2Z.id.
    set (head_ := take (64 - r) input). assert (length head_ = (64 - r)%nat) as Hh by (subst head_; rewrite length_take; lia).
    assert (copy (buffer m) r head_ = T ++ head_) as Hcp.
    { unfold copy. rewrite Htl, Hh, drop_ge, app_nil_r by lia. done. }
    rewrite Hcp. replace (64 - Z.of_nat r) with (Z.of_nat (64 - r)) by lia.
    rewrite chunks_spec by (fold L; lia). cbn zeta. fold L. set (n := ((L - (64 - r)) / 64)%nat).
    assert ((r + L) / 64 = S n)%nat as Hq.
    { subst n. replace (r + L)%nat with (1 * 64 + (L - (64 - r)))%nat by lia. by rewrite Nat.div_add_l by lia. }
    assert (drop (64 * S n) (T ++ input) = drop (64 - r + 64 * n) input) as Hrest.
    { rewrite drop_app_ge by lia. f_equal. lia. }
    pose proof (blocks_over (L - (64 - r))) as [HL HLr]. fold n in HL.
    assert (length (drop (64 - r + 64 * n) input) = ((r + L) mod 64)%nat) as Hover.
    { rewrite length_drop. fold L. replace (r + L)%nat with (L - (64 - r) + 1 * 64)%nat by lia. rewrite Nat.Div0.mod_add. lia. }
    rewrite Nat2Z.id. change (Z.to_nat 0) with 0%nat. apply Hfin; recs; try done.
    + rewrite length_copy; rewrite length_app, HT, Hh; [lia|rewrite Hover; pose proof (Nat.mod_upper_bound (r + L) 64); lia].
    + rewrite Hq. cbn [absorb]. rewrite Hst. rewrite take_app_ge, drop_app_ge, HT by lia. done.
    + rewrite <- Hover at 1. rewrite Hq, Hrest. apply (take_copy (T ++ head_) 0). rewrite length_app, HT, Hh, Hover.
      pose proof (Nat.mod_upper_bound (r + L) 64). lia.
  - change (Z.to_nat 0) with 0%nat. rewrite drop_0, Nat2Z.id.
    apply Hfin; recs; try done.
    + rewrite length_copy; [done|]. fold L. lia.
    + rewrite Nat.div_small by lia. done.
    + rewrite Nat.mod_small, Nat.div_small by lia. cbn [Nat.mul]. rewrite drop_0, <- Htl. apply take_copy. fold L. lia.
Qed.

Lemma pad_length_range n : (1 <= pad_length n <= 64)%nat /\ ((n + pad_length n + 8) mod 64 = 0)%nat.
Proof.
  unfold pad_length. pose proof (blocks_over n) as [Hn Hr]. destruct (Nat.ltb_spec (n mod 64) 56); (split; [lia|]).
  - replace (n + (56 - n mod 64) + 8)%nat with ((n / 64 + 1) * 64)%nat by lia. apply Nat.Div0.mod_mul.
  - replace (n + (120 - n mod 64) + 8)%nat with ((n / 64 + 2) * 64)%nat by lia. apply Nat.Div0.mod_mul.
Qed.

(** Padding makes whole blocks. *)
Lemma padded_blocks msg : (length (padded msg) mod 64 = 0)%nat.
Proof.
  destruct (pad_length_range (length msg)) as [Hp Hm]. unfold padded. rewrite !length_app. cbn [length]. rewrite repeat_length.
  change (length (bit_count (length msg))) with 8%nat. etrans; [|exact Hm]. f_equal. lia.
Qed.

Lemma take_repeat k n : (k <= n)%nat -> take k (repeat 0 n) = repeat 0 k.
Proof. revert n. induction k as [|k IH]; intros [|n] H; [done..|lia|]. cbn. f_equal. apply IH. lia. Qed.

Lemma finalize_held m msg : held m msg ->
  finalized (finalize m) = true /\ digest (finalize m) = one_shot msg.
Proof.
  intros Hm. pose proof Hm as [Hop _ H0 H1 _ _]. unfold finalize. rewrite Hop. cbn [negb]. cbv zeta.
  assert (encode [count0 m; count1 m] = bit_count (length msg)) as -> by (by rewrite H0, H1).
  rewrite H0, index_mod.
  assert (Z.to_nat (if Z.of_nat (length msg mod 64) <? 56 then 56 - Z.of_nat (length msg mod 64)
                    else 120 - Z.of_nat (length msg mod 64)) = pad_length (length msg)) as ->.
  { unfold pad_length. destruct (Z.ltb_spec (Z.of_nat (length msg mod 64)) 56), (Nat.ltb_spec (length msg mod 64) 56); lia. }
  destruct (pad_length_range (length msg)) as [Hp _].
  assert (take (pad_length (length msg)) (0x80 :: repeat 0 63) = 0x80 :: repeat 0 (pad_length (length msg) - 1)) as ->.
  { destruct (pad_length (length msg)) as [|k] eqn:Hk; [lia|]. cbn [take]. f_equal. replace (S k - 1)%nat with k by lia.
    apply take_repeat. lia. }
  assert (held (update m (0x80 :: repeat 0 (pad_length (length msg) - 1))) (msg ++ 0x80 :: repeat 0 (pad_length (length msg) - 1))) as Hm1.
  { apply update_held; [done|]. cbn [length]. rewrite repeat_length. lia. }
  assert (held (update (update m (0x80 :: repeat 0 (pad_length (length msg) - 1))) (bit_count (length msg))) (padded msg)) as [_ _ _ _ Hst _].
  { unfold padded. rewrite app_assoc. apply update_held; [done|]. by change (length (bit_count (length msg))) with 8%nat. }
  split; [done|]. recs. unfold one_shot. by rewrite Hst.
Qed.

Lemma updates_held m msg pieces :
  held m msg -> Forall (fun p => Z.of_nat (length p) + 64 < 2 ^ 32) pieces -> held (fold_left update pieces m) (msg ++ concat pieces).
Proof.
  intros Hm Hp. revert m msg Hm. induction Hp as [|p pieces Hp Hps IH]; intros m msg Hm; cbn [fold_left concat].
  - by rewrite app_nil_r.
  - rewrite app_assoc. by apply IH, update_held.
Qed.

(** However the message is cut into pieces. *)
Lemma updates_digest buffer_ digest_ pieces :
  length buffer_ = 64%nat -> Forall (fun p => Z.of_nat (length p) + 64 < 2 ^ 32) pieces ->
  let m := finalize (fold_left update pieces (init buffer_ digest_)) in bindigest m 16 = one_shot (concat pieces) /\ finalize m = m.
Proof.
  intros Hb Hp m. pose proof (updates_held _ _ pieces (held_init buffer_ digest_ Hb) Hp) as Hm. cbn [app] in Hm.
  destruct (finalize_held _ _ Hm) as [Hfin Hdig]. fold m in Hfin, Hdig. split.
  - unfold bindigest. rewrite Hdig. unfold one_shot. by destruct (absorb _ _ _) as [[[? ?] ?] ?].
  - unfold finalize at 1. by rewrite Hfin.
Qed.

End MD5.
