(* ===== verification/Sines.v ===== *)
(** * The sines of whole numbers, to forty binary places

    RFC 1321 takes its constants from the sine of 1 to 64 radians. The sines are
    enclosed here: that of 1 by its series, the others by adding angles, in
    integers scaled by [unit_], with a bound on the error that at most doubles
    with each angle. *)
From Stdlib Require Import Reals Lra.
From S2P Require Import Prelude.
#[local] Open Scope Z_scope.

(** ** The sine and the cosine of 1 *)

(** [n!], and the sums of the two series up to their [n]th terms, over the
    factorial in the last. *)
Fixpoint factorial (n : nat) : Z := match n with O => 1 | S m => Z.of_nat n * factorial m end.
Definition sign (n : nat) : Z := if Nat.even n then 1 else -1.
Fixpoint sine_sum (n : nat) : Z :=
  match n with O => 1 | S m => sine_sum m * Z.of_nat (2 * n) * Z.of_nat (2 * n + 1) + sign n end.
Fixpoint cosine_sum (n : nat) : Z :=
  match n with O => 1 | S m => cosine_sum m * Z.of_nat (2 * n - 1) * Z.of_nat (2 * n) + sign n end.
Lemma factorial_positive n : 0 < factorial n.
Proof. induction n; cbn [factorial]; lia. Qed.
Lemma factorial_fact n : INR (fact n) = IZR (factorial n).
Proof. induction n as [|n IH]; [done|]. cbn [factorial]. by rewrite fact_simpl, mult_INR, mult_IZR, IH, INR_IZR_INZ. Qed.
Lemma sign_power n : ((-1) ^ n = IZR (sign n))%R.
Proof.
  unfold sign. induction n as [|n IH]; [done|]. cbn [pow]. rewrite IH, Nat.even_succ, <- Nat.negb_even. destruct (Nat.even n); cbv [negb]; lra.
Qed.
Lemma factorial_step2 n : factorial (n + 2) = Z.of_nat (n + 2) * Z.of_nat (n + 1) * factorial n.
Proof. replace (n + 2)%nat with (S (S n)) by lia. cbn [factorial]. replace (n + 1)%nat with (S n) by lia. ring. Qed.
Lemma sine_sum_series n : sin_approx 1 n = (IZR (sine_sum n) / IZR (factorial (2 * n + 1)))%R.
Proof.
  unfold sin_approx. induction n as [|n IH]; [cbn [sum_f_R0]; unfold sin_term; rewrite pow1, factorial_fact; cbn; lra|]. rewrite tech5, IH. unfold sin_term.
  rewrite sign_power, pow1, factorial_fact. cbn [sine_sum]. pose proof (factorial_positive (2 * n + 1)) as Hf.
  replace (2 * S n + 1)%nat with (2 * n + 1 + 2)%nat by lia. rewrite factorial_step2, !plus_IZR, !mult_IZR.
  replace (2 * S n)%nat with (2 * n + 1 + 1)%nat by lia. field. repeat split; apply not_0_IZR; lia.
Qed.
Lemma cosine_sum_series n : cos_approx 1 n = (IZR (cosine_sum n) / IZR (factorial (2 * n)))%R.
Proof.
  unfold cos_approx. induction n as [|n IH]; [cbn [sum_f_R0]; unfold cos_term; rewrite pow1, factorial_fact; cbn; lra|]. rewrite tech5, IH. unfold cos_term.
  rewrite sign_power, pow1, factorial_fact. cbn [cosine_sum]. pose proof (factorial_positive (2 * n)) as Hf.
  replace (2 * S n)%nat with (2 * n + 2)%nat by lia. rewrite factorial_step2, !plus_IZR, !mult_IZR.
  replace (2 * n + 2 - 1)%nat with (2 * n + 1)%nat by lia. field. repeat split; apply not_0_IZR; lia.
Qed.

(** ** The angles one after the other *)
Definition unit_ : Z := 2 ^ 160.
(** Rounded down, from the series up to 1/43! and 1/42!. *)
Definition sine_1 : Z := Eval vm_compute in unit_ * sine_sum 21 / factorial 43.
Definition cosine_1 : Z := Eval vm_compute in unit_ * cosine_sum 21 / factorial 42.
(** Near [unit_] times a number, to within an error. *)
Definition near (e : Z) (x : R) (n : Z) : Prop := (Rabs (IZR unit_ * x - IZR n) <= IZR e)%R.
Lemma between_abs (x e : R) : (Rabs x <= e -> - e <= x <= e)%R.
Proof. intros Hx. pose proof (Rle_abs x). pose proof (Rle_abs (- x)) as Hn. rewrite Rabs_Ropp in Hn. lra. Qed.
Lemma unit_positive : (0 < IZR unit_)%R.
Proof. by apply IZR_lt. Qed.
Lemma near_between (x lo hi : R) n : (lo <= x <= hi -> IZR n <= IZR unit_ * lo -> IZR unit_ * hi <= IZR (n + 1) -> near 1 x n)%R.
Proof. intros Hx Hl Hh. pose proof unit_positive. unfold near. rewrite plus_IZR in Hh. apply Rabs_le. nra. Qed.
Lemma below_fraction n a f : 0 < f -> n * f <= unit_ * a -> (IZR n <= IZR unit_ * (IZR a / IZR f))%R.
Proof.
  intros Hf Hn. apply IZR_lt in Hf. apply (Rmult_le_reg_r (IZR f)); [done|]. apply IZR_le in Hn. rewrite !mult_IZR in Hn.
  replace (IZR unit_ * (IZR a / IZR f) * IZR f)%R with (IZR unit_ * IZR a)%R by (field; lra). done.
Qed.
Lemma above_fraction n a f : 0 < f -> unit_ * a <= n * f -> (IZR unit_ * (IZR a / IZR f) <= IZR n)%R.
Proof.
  intros Hf Hn. apply IZR_lt in Hf. apply (Rmult_le_reg_r (IZR f)); [done|]. apply IZR_le in Hn. rewrite !mult_IZR in Hn.
  replace (IZR unit_ * (IZR a / IZR f) * IZR f)%R with (IZR unit_ * IZR a)%R by (field; lra). done.
Qed.
Lemma near_sine_1 : near 1 (sin 1) sine_1.
Proof.
  pose proof (pre_sin_bound 1 10 ltac:(lra) ltac:(lra)) as Hs. rewrite !sine_sum_series in Hs. eapply near_between; [exact Hs| |].
  - apply below_fraction; [apply factorial_positive|]. apply Z.leb_le. by vm_compute.
  - apply above_fraction; [apply factorial_positive|]. apply Z.leb_le. by vm_compute.
Qed.
Lemma near_cosine_1 : near 1 (cos 1) cosine_1.
Proof.
  pose proof (pre_cos_bound 1 10 ltac:(lra) ltac:(lra)) as Hs. rewrite !cosine_sum_series in Hs. eapply near_between; [exact Hs| |].
  - apply below_fraction; [apply factorial_positive|]. apply Z.leb_le. by vm_compute.
  - apply above_fraction; [apply factorial_positive|]. apply Z.leb_le. by vm_compute.
Qed.
(** The sine and the cosine of [k], and the bound on their errors. *)
Definition advance (p : Z * Z) : Z * Z :=
  let '(s, c) := p in ((s * cosine_1 + c * sine_1) / unit_, (c * cosine_1 - s * sine_1) / unit_).
Fixpoint turned (k : nat) : Z * Z := match k with O => (0, unit_) | S k => advance (turned k) end.
Fixpoint error (k : nat) : Z := match k with O => 0 | S k => 2 * error k + 5 end.
Lemma error_positive k : 0 <= error k.
Proof. induction k; cbn [error]; lia. Qed.
(** A product. *)
Lemma near_product e x y n m : (-1 <= x <= 1 -> -1 <= y <= 1 -> near e x n -> near 1 y m -> IZR e <= IZR unit_ ->
  Rabs (IZR unit_ * (x * y) - IZR (n * m) / IZR unit_) <= IZR e + 2)%R.
Proof.
  unfold near. intros Hx Hy Hn Hm He. pose proof unit_positive as Hu. rewrite mult_IZR. set (u := IZR unit_) in *. clearbody u.
  replace (u * (x * y) - IZR n * IZR m / u)%R with ((u * x - IZR n) * y + IZR n / u * (u * y - IZR m))%R by (field; lra).
  assert (Hq : (Rabs (IZR n / u) <= 2)%R).
  { apply Rabs_le. apply between_abs in Hn.
    split; apply (Rmult_le_reg_r u); try done; unfold Rdiv; rewrite ?Rmult_assoc, ?Rinv_l, ?Rmult_1_r by lra; nra. }
  eapply Rle_trans; [apply Rabs_triang|]. rewrite !Rabs_mult. pose proof (Rabs_pos (u * x - IZR n)). pose proof (Rabs_pos (u * y - IZR m)).
  pose proof (Rabs_pos (IZR n / u)). assert (Hy' : (Rabs y <= 1)%R) by by apply Rabs_le. pose proof (Rabs_pos y). nra.
Qed.
Lemma near_quotient (a : R) n e : (Rabs (a - IZR n / IZR unit_) <= IZR e -> Rabs (a - IZR (n / unit_)) <= IZR (e + 1))%R.
Proof.
  intros Ha. pose proof unit_positive as Hu. pose proof (Z_div_mod_eq_full n unit_) as Hd. pose proof (Z.mod_pos_bound n unit_ ltac:(done)) as Hm.
  assert (Hq : (IZR (n / unit_) <= IZR n / IZR unit_ < IZR (n / unit_) + 1)%R).
  { rewrite Hd at 2 3. rewrite plus_IZR, mult_IZR. destruct Hm as [Hm1%IZR_le Hm2%IZR_lt].
    set (q := IZR (n / unit_)). set (r := IZR (n mod unit_)) in *. set (u := IZR unit_) in *. clearbody q r u.
    replace ((u * q + r) / u)%R with (q + r / u)%R by (field; lra).
    assert (Hr : (0 <= r / u < 1)%R); [|lra]. split; [unfold Rdiv; apply Rmult_le_pos; [done|left; by apply Rinv_0_lt_compat]|].
    apply (Rmult_lt_reg_r u); [done|]. unfold Rdiv. rewrite Rmult_assoc, Rinv_l by lra. lra. }
  rewrite plus_IZR. apply between_abs in Ha. apply Rabs_le. lra.
Qed.
Lemma near_turned k : error k <= unit_ -> near (error k) (sin (INR k)) (fst (turned k)) /\ near (error k) (cos (INR k)) (snd (turned k)).
Proof.
  induction k as [|k IH]; intros He.
  - cbn [turned fst snd error INR]. unfold near. rewrite sin_0, cos_0, Rmult_0_r, Rmult_1_r, !Rminus_diag, Rabs_R0. by split; right.
  - pose proof (error_positive k) as He0. cbn [error] in He. destruct IH as [Hs Hc]; [lia|]. cbn [turned error]. destruct (turned k) as [s c]. cbn [fst snd advance] in *.
    assert (Hek : (IZR (error k) <= IZR unit_)%R) by (apply IZR_le; lia).
    pose proof (SIN_bound (INR k)) as Bs. pose proof (COS_bound (INR k)) as Bc. pose proof (SIN_bound 1) as B1. pose proof (COS_bound 1) as B2.
    pose proof (near_product _ _ _ _ _ Bs B2 Hs near_cosine_1 Hek) as P1. pose proof (near_product _ _ _ _ _ Bc B1 Hc near_sine_1 Hek) as P2.
    pose proof (near_product _ _ _ _ _ Bc B2 Hc near_cosine_1 Hek) as P3. pose proof (near_product _ _ _ _ _ Bs B1 Hs near_sine_1 Hek) as P4.
    rewrite S_INR, sin_plus, cos_plus. unfold near. replace (2 * error k + 5) with (2 * error k + 4 + 1) by lia.
    apply between_abs in P1, P2, P3, P4. rewrite <- plus_IZR in P1, P2, P3, P4. pose proof unit_positive as Hu.
    split; apply near_quotient; [rewrite plus_IZR|rewrite minus_IZR]; unfold Rdiv in *; rewrite ?plus_IZR, ?mult_IZR in *; apply Rabs_le; lra.
Qed.
(** The whole part of 2^32 times the sine's absolute value, where the error leaves
    no doubt. *)
Definition whole (e : Z) (p : Z * Z) : option Z :=
  let s := Z.abs (fst p) in let t := s / 2 ^ 128 in
  if (e <=? unit_) && (t * 2 ^ 128 <=? s - e) && (s + e <? (t + 1) * 2 ^ 128) then Some t else None.
Lemma whole_sine k t : whole (error k) (turned k) = Some t -> Int_part (IZR (2 ^ 32) * Rabs (sin (INR k))) = t.
Proof.
  unfold whole. set (s := Z.abs _). destruct (_ && _) eqn:Hc; [|done]. intros [= Ht]. rewrite Ht in Hc.
  apply andb_true_iff in Hc as [[He%Z.leb_le Hl%Z.leb_le]%andb_true_iff Hh%Z.ltb_lt].
  destruct (near_turned k He) as [Hs _]. unfold near in Hs.
  assert (Ha : (IZR (s - error k) <= IZR unit_ * Rabs (sin (INR k)) <= IZR (s + error k))%R).
  { pose proof unit_positive as Hu. unfold s. rewrite minus_IZR, plus_IZR, abs_IZR. rewrite <- (Rabs_pos_eq (IZR unit_)), <- Rabs_mult by lra.
    set (x := (IZR unit_ * sin (INR k))%R) in *. set (n := IZR (fst (turned k))) in *. clearbody x n.
    revert Hs. unfold Rabs. repeat destruct (Rcase_abs _); lra. }
  symmetry. apply Int_part_spec. set (a := Rabs (sin (INR k))) in *. clearbody a s.
  assert (Hu : (IZR unit_ = IZR (2 ^ 32) * IZR (2 ^ 128))%R) by (by rewrite <- mult_IZR). rewrite Hu in Ha.
  apply IZR_le in Hl. apply IZR_lt in Hh. rewrite mult_IZR in Hl, Hh. rewrite (plus_IZR t) in Hh.
  assert (Hq : (0 < IZR (2 ^ 128))%R) by by apply IZR_lt. set (q := IZR (2 ^ 128)) in *. set (p := IZR (2 ^ 32)) in *. clearbody p q.
  split; apply (Rmult_lt_reg_r q) || apply (Rmult_le_reg_r q); nra.
Qed.
(** Those of the angles from [k + 1] on. *)
Fixpoint wholes (n : nat) (e : Z) (p : Z * Z) : list (option Z) :=
  match n with O => [] | S n => let p := advance p in let e := 2 * e + 5 in whole e p :: wholes n e p end.
Lemma wholes_sines n k j t : wholes n (error k) (turned k) !! j = Some (Some t) -> Int_part (IZR (2 ^ 32) * Rabs (sin (INR (S (k + j))))) = t.
Proof.
  revert k j. induction n as [|n IH]; intros k j; [done|]. cbn [wholes]. destruct j as [|j].
  - intros [= Hw]. rewrite Nat.add_0_r. by apply whole_sine.
  - intros Hj. rewrite <- (IH (S k) j Hj). do 5 f_equal. lia.
Qed.
