(* ===== verification/Rfc1321.v ===== *)
(** * RFC 1321 and the digest ([src/src/libs/md5.cpp])

    The standard as it is written: padding (3.1, 3.2), the four functions, the table
    taken from the sine and the sixty-four steps (3.4), the output (3.5). Nothing
    of it is taken from the code: words are added and rotated by arithmetic, the
    constants are whole parts of real numbers, the order of the words in a round is the
    rounds' rule. [Md5]'s [transform], [update] and [finalize] are proved to
    compute it. *)
From Stdlib Require Import Reals Lra.
From S2P Require Import Prelude Sines Md5.
Import MD5.
#[local] Open Scope Z_scope.

(** ** The standard *)

Definition word (x : Z) : Z := x mod 2 ^ 32.
Definition complement (x : Z) : Z := 2 ^ 32 - 1 - x.
Definition rotl (x s : Z) : Z := (x * 2 ^ s) mod 2 ^ 32 + x / 2 ^ (32 - s).
(** The function of a round. *)
Definition mix (round : nat) (x y z : Z) : Z :=
  match round with
  | 0%nat => Z.lor (Z.land x y) (Z.land (complement x) z)
  | 1%nat => Z.lor (Z.land x z) (Z.land y (complement z))
  | 2%nat => Z.lxor (Z.lxor x y) z
  | _ => Z.lxor y (Z.lor x (complement z))
  end.
(** The table: the whole part of 4294967296 times abs(sin(i)), i in radians. *)
Definition T (i : nat) : Z := Int_part (IZR (2 ^ 32) * Rabs (sin (INR i))).
(** Which word step [j] of the sixty-four adds, and how far it rotates. *)
Definition word_of (j : nat) : nat :=
  match (j / 16)%nat with 0%nat => j | 1%nat => (5 * j + 1) mod 16 | 2%nat => (3 * j + 5) mod 16 | _ => (7 * j) mod 16 end.
Definition amount (j : nat) : Z :=
  ([[7; 12; 17; 22]; [5; 9; 14; 20]; [4; 11; 16; 23]; [6; 10; 15; 21]] !!! (j / 16)%nat) !!! (j mod 4)%nat.
(** A step: [a = b + ((a + mix(b,c,d) + X[k] + T[i]) <<< s)]; the registers then change
    places. *)
Definition step (X : nat -> Z) (r : registers) (j : nat) : registers :=
  let '(a, b, c, d) := r in
  (d, word (b + rotl (word (a + mix (j / 16) b c d + X (word_of j) + T (S j))) (amount j)), b, c).
Definition add (r s : registers) : registers :=
  let '(a, b, c, d) := r in let '(a', b', c', d') := s in (word (a + a'), word (b + b'), word (c + c'), word (d + d')).
(** Numbers from bytes and back, the low byte first. *)
Fixpoint number (bytes : list Z) : Z := match bytes with [] => 0 | b :: bs => b + 256 * number bs end.
Fixpoint bytes_of (n : nat) (x : Z) : list Z := match n with O => [] | S n => x mod 256 :: bytes_of n (x / 256) end.
Definition compress (r : registers) (block : list Z) : registers :=
  add r (fold_left (step (fun k => number (take 4 (drop (4 * k) block)))) (seq 0 64) r).
Fixpoint compress_all (n : nat) (r : registers) (data : list Z) : registers :=
  match n with O => r | S n => compress_all n (compress r (take 64 data)) (drop 64 data) end.
(** A one bit, zero bits to 64 less than a multiple of 512, the length in bits. *)
Definition pad (msg : list Z) : list Z :=
  let n := Z.of_nat (length msg) in
  msg ++ [128] ++ repeat 0 (Z.to_nat ((55 - n) mod 64)) ++ bytes_of 8 ((8 * n) mod 2 ^ 64).
Definition md5 (msg : list Z) : list Z :=
  let '(a, b, c, d) := compress_all (length (pad msg) / 64) (0x67452301, 0xefcdab89, 0x98badcfe, 0x10325476) (pad msg) in
  concat (map (bytes_of 4) [a; b; c; d]).

(** ** The table *)

(** Which of the four registers, after [j] steps, is the standard's first, second,
    third and fourth. *)
Definition places (j : nat) : register * register * register * register :=
  match (j mod 4)%nat with 0%nat => (ra, rb, rc, rd) | 1%nat => (rd, ra, rb, rc) | 2%nat => (rc, rd, ra, rb) | _ => (rb, rc, rd, ra) end.
Definition basic_of (round : nat) : basic := match round with 0%nat => FF_ | 1%nat => GG_ | 2%nat => HH_ | _ => II_ end.
(** The code's constants are the sine's whole parts. *)
Lemma constants_computed : wholes 64 0 (0, unit_) = map (fun s => Some s.2) statements.
Proof. vm_compute. reflexivity. Qed.
Lemma order_computed :
  map (fun j => let '(r1, r2, r3, r4) := places j in (basic_of (j / 16), r1, r2, r3, r4, word_of j, amount j)) (seq 0 64) = map fst statements.
Proof. vm_compute. reflexivity. Qed.
Lemma lookup_map {A B} (f : A -> B) l j : map f l !! j = f <$> (l !! j).
Proof. exact (list_lookup_fmap f l j). Qed.
Lemma statement_is j s : statements !! j = Some s ->
  s = let '(r1, r2, r3, r4) := places j in (basic_of (j / 16), r1, r2, r3, r4, word_of j, amount j, T (S j)).
Proof.
  intros Hs. pose proof (f_equal (lookup j) constants_computed) as Hc. pose proof (f_equal (lookup j) order_computed) as Ho.
  assert (Hj : (j < 64)%nat) by (apply lookup_lt_Some in Hs; exact Hs).
  rewrite lookup_map in Hc. rewrite !lookup_map, lookup_seq_lt in Ho by done.
  rewrite Hs in Hc. rewrite Hs in Ho.
  apply (wholes_sines 64 0 j) in Hc. destruct s as [s t]. cbn in Hc, Ho. injection Ho as <-. rewrite <- Hc. by destruct (places j) as [[[? ?] ?] ?].
Qed.

(** ** Words *)
Lemma not32_complement x : is_u32 x -> not32 x = complement x.
Proof.
  intros Hx. unfold not32, complement. replace (2 ^ 32 - 1) with (Z.ones 32) by done.
  assert (Hd : Z.ldiff x (Z.ones 32) = 0).
  { rewrite Z.ldiff_ones_r by done. rewrite Z.shiftr_div_pow2, Z.div_small by (done || exact Hx). done. }
  rewrite Z.sub_nocarry_ldiff by done. apply Z.bits_inj'. intros n Hn.
  rewrite Z.lxor_spec, Z.ldiff_spec. apply (f_equal (fun y => Z.testbit y n)) in Hd. rewrite Z.ldiff_spec, Z.bits_0 in Hd.
  destruct (Z.testbit x n), (Z.testbit (Z.ones 32) n); done.
Qed.
(** Bits put side by side are added. *)
Lemma side_by_side a b k : 0 <= k -> 0 <= a < 2 ^ k -> 0 <= b -> Z.lor a (Z.shiftl b k) = a + b * 2 ^ k.
Proof.
  intros Hk Ha Hb. assert (Hd : Z.land a (Z.shiftl b k) = 0).
  { apply Z.bits_inj'. intros n Hn. rewrite Z.land_spec, Z.bits_0. destruct (Z.lt_ge_cases n k) as [Hlt|Hge].
    - by rewrite Z.shiftl_spec_low, andb_false_r by done.
    - by rewrite <- (Z.mod_small a (2 ^ k)), Z.mod_pow2_bits_high by lia. }
  rewrite <- Z.shiftl_mul_pow2, Z.add_nocarry_lxor by done. symmetry. by apply Z.lxor_lor.
Qed.
Lemma rotate_left_rotl x s : is_u32 x -> 0 < s < 32 -> rotate_left x s = rotl x s.
Proof.
  intros Hx Hs. unfold rotate_left, rotl, u32. unfold wrap. rewrite Z.shiftl_mul_pow2, Z.shiftr_div_pow2 by lia.
  assert (Hm : (x * 2 ^ s) mod 2 ^ 32 = Z.shiftl (x mod 2 ^ (32 - s)) s).
  { rewrite Z.shiftl_mul_pow2, <- Z.mul_mod_distr_r by lia. rewrite <- Z.pow_add_r by lia. do 2 f_equal. lia. }
  pose proof (Z.pow_pos_nonneg 2 (32 - s) ltac:(lia) ltac:(lia)) as Hp. pose proof (Z.mod_pos_bound x (2 ^ (32 - s)) Hp) as Hb.
  rewrite Hm, Z.lor_comm, side_by_side; [rewrite Z.shiftl_mul_pow2 by lia; ring|lia| |lia].
  split; [apply Z.div_pos; [apply Hx|done]|]. apply Z.div_lt_upper_bound; [done|]. rewrite <- Z.pow_add_r by lia. replace (32 - s + s) with 32 by lia. apply Hx.
Qed.

(** ** [transform] *)

Definition are_words (r : registers) : Prop := let '(a, b, c, d) := r in is_u32 a /\ is_u32 b /\ is_u32 c /\ is_u32 d.
Lemma amount_range j : 0 < amount j < 32.
Proof.
  unfold amount. pose proof (Nat.mod_upper_bound j 4 ltac:(lia)) as Hm. generalize dependent (j mod 4)%nat. intros i Hi.
  destruct (j / 16)%nat as [|[|[|[|r]]]]; [..|by destruct i as [|[|[|[|]]]]; try lia];
    destruct i as [|[|[|[|]]]]; cbn; lia.
Qed.
(** The registers, with the standard's first one first. *)
Definition in_places (j : nat) (v : registers) : registers :=
  let '(r1, r2, r3, r4) := places j in (value_of r1 v, value_of r2 v, value_of r3 v, value_of r4 v).
Lemma places_mod j : ((j mod 4)%nat = 0%nat \/ (j mod 4)%nat = 1%nat \/ (j mod 4)%nat = 2%nat \/ (j mod 4)%nat = 3%nat)%nat.
Proof. pose proof (Nat.mod_upper_bound j 4). lia. Qed.
Lemma next_place j : (S j mod 4)%nat = (S (j mod 4) mod 4)%nat.
Proof. replace (S j) with (j + 1)%nat by lia. replace (S (j mod 4)) with (j mod 4 + 1)%nat by lia. by rewrite Nat.Div0.add_mod_idemp_l. Qed.
(** A step by numbers, and the registers after it. *)
Lemma step_words x r j : are_words r -> are_words (step x r j).
Proof. destruct r as [[[a b] c] d]. intros (Ha & Hb & Hc & Hd). unfold step. split; [done|]. split; [|done]. by apply (wrap_range 32). Qed.
Lemma basic_step r a b c d x n t : is_u32 b -> is_u32 c -> is_u32 d -> 0 < n < 32 ->
  apply_basic (basic_of r) a b c d x n t = word (b + rotl (word (a + mix r b c d + x + t)) n).
Proof.
  intros Hb Hc Hd Hn. assert (Hr : forall y, rotate_left (u32 y) n = rotl (word y) n) by (intros y; apply rotate_left_rotl; [by apply wrap_range|done]).
  destruct r as [|[|[|r]]]; cbn [apply_basic basic_of mix]; unfold FF, GG, HH, II, F, G, H, I;
    rewrite ?not32_complement, Hr, (Z.add_comm (rotl _ _)) by done; done.
Qed.
(** A statement of the code's is the standard's step. *)
Lemma exec_step x v j s : statements !! j = Some s -> are_words (in_places j v) -> in_places (S j) (exec x v s) = step x (in_places j v) j.
Proof.
  intros Hs%statement_is. subst s. unfold in_places, places. rewrite next_place. pose proof (amount_range j) as Hn. destruct v as [[[a b] c] d].
  destruct (places_mod j) as [E|[E|[E|E]]]; rewrite E; intros (H1 & H2 & H3 & H4); cbn [exec assign value_of step Nat.modulo Nat.divmod Nat.sub fst snd] in *;
    rewrite basic_step by done; done.
Qed.
Lemma fold_exec x n v j : are_words (in_places j v) -> (j + n <= 64)%nat ->
  in_places (j + n) (fold_left (exec x) (take n (drop j statements)) v) = fold_left (step x) (seq j n) (in_places j v).
Proof.
  revert v j. induction n as [|n IH]; intros v j Hr Hj; [by rewrite Nat.add_0_r|].
  destruct (lookup_lt_is_Some_2 statements j) as [s Hs]; [change (length statements) with 64%nat; lia|].
  rewrite (drop_S _ _ _ Hs). cbn [take fold_left seq]. rewrite <- (exec_step x v j s Hs Hr), <- IH.
  - f_equal. lia.
  - rewrite (exec_step x v j s Hs Hr). by apply step_words.
  - lia.
Qed.
Lemma fold_words x l r : are_words r -> are_words (fold_left (step x) l r).
Proof. revert r. induction l as [|j l IH]; intros r Hr; [done|]. cbn [fold_left]. apply IH. by apply step_words. Qed.

Lemma add_words r v : are_words (add r v).
Proof. destruct r as [[[a b] c] d], v as [[[a' b'] c'] d']. unfold add, are_words. split_and!; by apply (wrap_range 32). Qed.

(** Words from bytes. *)
Lemma decode_numbers n bytes k : is_bytes bytes -> length bytes = (4 * n)%nat -> (k < n)%nat ->
  decode bytes !!! k = number (take 4 (drop (4 * k) bytes)).
Proof.
  revert bytes k. induction n as [|n IH]; intros bytes k Hb Hl Hk; [lia|].
  destruct bytes as [|b0 [|b1 [|b2 [|b3 bytes]]]]; try (cbn in Hl; lia).
  apply Forall_cons_1 in Hb as [H0 [H1 [H2 [H3 Hb]%Forall_cons_1]%Forall_cons_1]%Forall_cons_1].
  destruct k as [|k].
  - cbn [decode take drop Nat.mul number]. change ((?x :: ?l) !!! 0%nat) with x. unfold is_uint in *. change (2 ^ 8) with 256 in *.
    rewrite (side_by_side b0 b1 8) by lia. change (2 ^ 8) with 256.
    rewrite (side_by_side _ b2 16) by (try change (2 ^ 16) with 65536; lia). change (2 ^ 16) with 65536.
    rewrite (side_by_side _ b3 24) by (try change (2 ^ 24) with 16777216; lia). change (2 ^ 24) with 16777216. 
    change (take 4 _) with [b0; b1; b2; b3]. cbn [number]. ring.
  - cbn [decode]. change ((?x :: ?l) !!! S k) with (l !!! k). rewrite IH by (done || (cbn in Hl; lia)).
    replace (4 * S k)%nat with (S (S (S (S (4 * k))))) by lia. done.
Qed.
Lemma fold_ext x y l r : (forall j, In j l -> x (word_of j) = y (word_of j)) -> fold_left (step x) l r = fold_left (step y) l r.
Proof.
  revert r. induction l as [|j l IH]; intros [[[a b] c] d] Hxy; [done|]. cbn [fold_left step]. rewrite (Hxy j) by by left. apply IH. intros i Hi. apply Hxy. by right.
Qed.
Lemma word_of_range j : (j < 64)%nat -> (word_of j < 16)%nat.
Proof.
  intros Hj. unfold word_of. destruct (j / 16)%nat as [|[|[|r]]] eqn:E; try (apply Nat.mod_upper_bound; lia).
  apply Nat.div_small_iff in E; lia.
Qed.
(** What [transform] makes of a block is the standard's. *)
Lemma transform_compress r block : are_words r -> is_bytes block -> length block = 64%nat -> transform r block = compress r block /\ are_words (compress r block).
Proof.
  destruct r as [[[a b] c] d]. intros Hr Hb Hl. unfold compress. pose proof (fold_words (fun k => number (take 4 (drop (4 * k) block))) (seq 0 64) (a, b, c, d) Hr) as Hw.
  unfold transform. cbv zeta. pose proof (fold_exec (fun i => decode block !!! i) 64 (a, b, c, d) 0 Hr ltac:(lia)) as He.
  change (take 64 (drop 0 statements)) with statements in He. change (in_places 0 (a, b, c, d)) with (a, b, c, d) in He.
  change (in_places (0 + 64)) with (in_places 0) in He.
  rewrite (fold_ext _ (fun k => number (take 4 (drop (4 * k) block)))) in He.
  2:{ intros j Hj%in_seq. apply (decode_numbers 16); [done|done|]. apply word_of_range. lia. }
  rewrite <- He. generalize (fold_left (exec (fun i => decode block !!! i)) statements (a, b, c, d)). intros [[[a' b'] c'] d'].
  split; [reflexivity|apply add_words].
Qed.
Lemma absorb_compress n r data : are_words r -> is_bytes data -> length data = (64 * n)%nat -> absorb n r data = compress_all n r data.
Proof.
  revert r data. induction n as [|n IH]; intros r data Hr Hb Hl; [done|]. cbn [absorb compress_all].
  destruct (transform_compress r (take 64 data)) as [E Hw]; [done|by apply Forall_take|rewrite length_take; lia|]. rewrite E.
  apply IH; [done|by apply Forall_drop|rewrite length_drop; lia].
Qed.

(** ** Padding and output *)
Lemma encode_bytes ws : encode ws = concat (map (bytes_of 4) ws).
Proof.
  unfold encode. f_equal. apply map_ext. intros w. cbn [bytes_of].
  assert (Hb : forall x, Z.land x 255 = x mod 256) by (intros x; apply (Z.land_ones x 8); done).
  rewrite !Hb, !Z.shiftr_div_pow2, !Z.div_div by done. done.
Qed.
Lemma bytes_of_app m n x : 0 <= x -> bytes_of (m + n) x = bytes_of m (x mod 256 ^ Z.of_nat m) ++ bytes_of n (x / 256 ^ Z.of_nat m).
Proof.
  revert x. induction m as [|m IH]; intros x Hx; [by rewrite Z.div_1_r|]. cbn [Nat.add bytes_of app].
  pose proof (Z.pow_pos_nonneg 256 (Z.of_nat m) ltac:(lia) ltac:(lia)) as Hp.
  rewrite IH by (apply Z.div_pos; lia). rewrite Nat2Z.inj_succ, Z.pow_succ_r by lia. f_equal; [|f_equal].
  - rewrite Z.rem_mul_r by lia. rewrite (Z.mul_comm 256), Z.mod_add, Z.mod_mod by lia. done.
  - rewrite Z.rem_mul_r by lia. rewrite (Z.mul_comm 256), Z.div_add, (Z.div_small (x mod 256)) by (try apply Z.mod_pos_bound; lia). done.
  - by rewrite Z.div_div by lia.
Qed.
Lemma bit_count_bytes n : bit_count n = bytes_of 8 ((8 * Z.of_nat n) mod 2 ^ 64).
Proof.
  unfold bit_count. rewrite encode_bytes. cbn [map concat]. rewrite app_nil_r. set (x := 8 * Z.of_nat n).
  rewrite (bytes_of_app 4 4) by (apply Z.mod_pos_bound; done). change (256 ^ Z.of_nat 4) with (2 ^ 32). unfold wrap. f_equal; f_equal.
  - replace (2 ^ 64) with (2 ^ 32 * 2 ^ 32) by done. rewrite Z.rem_mul_r, (Z.mul_comm (2 ^ 32)), Z.mod_add, Z.mod_mod by done. done.
  - replace (2 ^ 64) with (2 ^ 32 * 2 ^ 32) by done. rewrite Z.rem_mul_r, (Z.mul_comm (2 ^ 32)), Z.div_add by done.
    rewrite (Z.div_small (x mod _)) by (by apply Z.mod_pos_bound). done.
Qed.
Lemma pad_padded msg : pad msg = padded msg.
Proof.
  unfold pad, padded. rewrite bit_count_bytes. cbn [app]. do 4 f_equal. unfold pad_length. set (n := length msg).
  pose proof (blocks_over n) as [Hn Hr]. set (q := (n / 64)%nat) in *. set (r := (n mod 64)%nat) in *. clearbody q r n.
  replace (55 - Z.of_nat n) with (55 - Z.of_nat r + (- Z.of_nat q) * 64) by lia. rewrite Z.mod_add by done.
  destruct (Nat.ltb_spec r 56).
  - rewrite Z.mod_small by lia. lia.
  - rewrite <- (Z.mod_add _ 1), Z.mod_small by lia. lia.
Qed.
Lemma bytes_of_range n x : is_bytes (bytes_of n x).
Proof. revert x. induction n as [|n IH]; intros x; constructor; [by apply Z.mod_pos_bound|apply IH]. Qed.
Lemma pad_is_bytes msg : is_bytes msg -> is_bytes (pad msg).
Proof.
  intros Hm. unfold pad. apply Forall_app. split; [done|]. apply Forall_app. split; [by repeat constructor|]. apply Forall_app. split; [|apply bytes_of_range].
  apply List.Forall_forall. intros x Hx%repeat_spec. by subst.
Qed.
Lemma one_shot_md5 msg : is_bytes msg -> one_shot msg = md5 msg.
Proof.
  intros Hm. unfold one_shot, md5. rewrite <- pad_padded. rewrite absorb_compress.
  - destruct (compress_all _ _ _) as [[[a b] c] d]. apply encode_bytes.
  - by repeat split.
  - by apply pad_is_bytes.
  - rewrite pad_padded. pose proof (blocks_over (length (padded msg))) as [Hl _]. rewrite padded_blocks in Hl. lia.
Qed.

(** C36: The streaming digest is RFC 1321's. However the message is cut into
    pieces, empty ones included, and whatever the object's storage held before,
    what [finalize] leaves and [bindigest] copies out is the standard's digest of
    the whole message: padded to whole blocks, which the sixty-four steps
    compress in order, each with the function of its round, the word its round's
    rule names, its rotation and the whole part of 2^32 times the absolute value of the sine
    of its number; and finalizing again changes nothing. *)
Theorem md5_refines_rfc1321 buffer_ digest_ pieces :
  length buffer_ = 64%nat -> Forall is_bytes pieces -> Forall (fun p => Z.of_nat (length p) + 64 < 2 ^ 32) pieces ->
  let m := finalize (fold_left update pieces (init buffer_ digest_)) in
  bindigest m 16 = md5 (concat pieces) /\ finalize m = m /\ (length (pad (concat pieces)) mod 64 = 0)%nat.
Proof.
  intros Hb Hbytes Hp m. destruct (updates_digest buffer_ digest_ pieces Hb Hp) as [Hd Hf]. fold m in Hd, Hf.
  split; [rewrite Hd; apply one_shot_md5, Forall_concat, Hbytes|]. split; [exact Hf|]. rewrite pad_padded. apply padded_blocks.
Qed.
Lemma md5_refines_rfc1321_witness :
  let m := finalize (fold_left update [chars "message "; []; chars "digest"] (init (repeat 0 64) (repeat 0 16))) in
  bindigest m 16 = md5 (chars "message digest") /\ hexdigest m = chars "f96b697d7cb7938d525a2f31aaf161d0".
Proof.
  cbv zeta. destruct (md5_refines_rfc1321 (repeat 0 64) (repeat 0 16) [chars "message "; []; chars "digest"]) as [Hd _].
  - done.
  - apply (bool_decide_unpack _). by vm_compute.
  - repeat constructor.
  - split; [exact Hd|]. by vm_compute.
Defined.
(** The standard's own examples (appendix A.5). *)
Example md5_abc : hexdigest (finalize (update (init (repeat 7 64) []) (chars "abc"))) = chars "900150983cd24fb0d6963f7d28e17f72".
Proof. vm_compute. reflexivity. Qed.
Example md5_empty : hexdigest (finalize (init (repeat 7 64) [])) = chars "d41d8cd98f00b204e9800998ecf8427e".
Proof. vm_compute. reflexivity. Qed.
