(* ===== verification/JobStartWait.v ===== *)
(** * Holding a job's start ([src/src/libs/JobStartWait.h], [JobStartWait.cpp])

    The wait for the other controllers before a started job runs: its state, its
    decision, the hash of the held file, and what is kept of the frames that
    arrive meanwhile. [read] is the caller's file reader: it gives the bytes it
    read, none at the end of the file, or [None] if the read failed. *)
From S2P Require Import Prelude ClientTable ControlToken Hello Md5.

(** [src/src/libs/PublicData.h:15-15] PTYPE_CTRL_MULTI *)
Definition PTYPE_CTRL_MULTI : Z := 0xA2.

(** [src/src/libs/JobStartWait.h:33-33] multiclient::job_start_pending_reply *)
Definition job_start_pending_reply : list Z :=
  chars "error:Refused -- a job is about to start" ++ [13; 10].
(** [src/src/libs/JobStartWait.h:35-36] multiclient::default_start_wait_s *)
Definition default_start_wait_s : Z := 30.
(** [src/src/libs/JobStartWait.h:38-41] multiclient::hash_chunk_bytes *)
Definition hash_chunk_bytes : Z := 256.
(** [src/src/libs/JobStartWait.h:42-42] multiclient::hash_slice_us *)
Definition hash_slice_us : Z := 5000.

(** [src/src/libs/JobStartWait.h:49-58] multiclient::StartCheck *)
Inductive StartCheck :=
| sc_keep_waiting | sc_all_ready | sc_time_limit | sc_timed_out | sc_time_limit_in_transfer | sc_starter_left | sc_cancelled.
#[export] Instance StartCheck_eq_dec : EqDecision StartCheck. Proof. solve_decision. Defined.
(** [src/src/libs/JobStartWait.h:60-67] multiclient::TransferFrame *)
Inductive TransferFrame := tf_other | tf_ready | tf_cancel | tf_keep_waiting.
#[export] Instance TransferFrame_eq_dec : EqDecision TransferFrame. Proof. solve_decision. Defined.

(** [src/src/libs/JobStartWait.cpp:13-13] multiclient::microseconds_per_second *)
Definition microseconds_per_second : Z := 1000000.
(** [src/src/libs/JobStartWait.cpp:15-20] multiclient::settle_ticks_after_transfer *)
Definition settle_ticks_after_transfer : Z := 2.

(** [src/src/libs/JobStartWait.h:69-204] multiclient::JobStartWait *)
Record JobStartWait := mk_wait {
  limit_s_ : Z; pending_ : bool; hashing_ : bool; hash_complete_ : bool; start_id_ : Z; timed_out_ : bool;
  keep_waiting_requested_ : bool; starter_id_ : Z; started_us_ : Z; hashed_size_ : Z; md5_ : MD5.MD5;
  settle_ticks_ : Z; cancel_requested_ : bool; limit_ran_out_in_transfer_ : bool
}.
#[export] Instance eta_JobStartWait : Eta JobStartWait := fun w =>
  mk_wait (limit_s_ w) (pending_ w) (hashing_ w) (hash_complete_ w) (start_id_ w) (timed_out_ w)
    (keep_waiting_requested_ w) (starter_id_ w) (started_us_ w) (hashed_size_ w) (md5_ w) (settle_ticks_ w)
    (cancel_requested_ w) (limit_ran_out_in_transfer_ w).
Definition new_md5 : MD5.MD5 := MD5.init (repeat 0 64) (repeat 0 16).
Definition new_wait : JobStartWait :=
  mk_wait 0 false false false 0 false false 0 0 0 new_md5 0 false false.

(** [src/src/libs/JobStartWait.cpp:46-50] multiclient::JobStartWait::configure *)
Definition configure (w : JobStartWait) (limit_s : Z) : JobStartWait :=
  let limit_s := if limit_s <? 0 then 0 else limit_s in
  let limit_s := if 255 <? limit_s then 255 else limit_s in
  w <| limit_s_ := u8 limit_s |>.
(** [src/src/libs/JobStartWait.h:76-76] multiclient::JobStartWait::enabled *)
Definition enabled (w : JobStartWait) : bool := negb (limit_s_ w =? 0).
(** [src/src/libs/JobStartWait.cpp:52-54] multiclient::JobStartWait::hello_ack_features *)
Definition hello_ack_features (w : JobStartWait) : Z :=
  if enabled w then Z.lor hello_feature_job_start_wait hello_feature_keep_waiting else 0.
(** [src/src/libs/JobStartWait.h:94-95] multiclient::JobStartWait::hashing *)
Definition hashing (w : JobStartWait) : bool := pending_ w && hashing_ w.
(** [src/src/libs/JobStartWait.h:144-145] multiclient::JobStartWait::settling *)
Definition settling (w : JobStartWait) : bool := pending_ w && negb (settle_ticks_ w =? 0).

(** [src/src/libs/JobStartWait.cpp:32-34] multiclient::connected *)
Definition connected (t : ClientTable) (i : Z) : bool := (0 <=? find_wifi_by_id t i (-1)) || usb_has_id t i.
(** [src/src/libs/JobStartWait.cpp:36-42] multiclient::features_of *)
Definition features_of (t : ClientTable) (i : Z) : Z :=
  let client := wifi_at t (find_wifi_by_id t i (-1)) in
  let client := match client with None => if usb_has_id t i then usb t else None | Some _ => client end in
  match client with Some c => features c | None => 0 end.

Definition takes_part (c : Client) : bool :=
  identified c && negb (Z.land (features c) hello_feature_job_start_wait =? 0).
(** The clients in table order: the WiFi slots, then USB. *)
Definition clients_in_order (t : ClientTable) : list (option Client) :=
  map (fun k => wifi_at t (Z.of_nat k)) (seq 0 (Z.to_nat max_wifi_clients)) ++ [usb t].

(** The loop over the WiFi slots, then the USB entry.
    [src/src/libs/JobStartWait.cpp:56-67] multiclient::JobStartWait::needs_wait *)
Definition needs_wait (w : JobStartWait) (t : ClientTable) (starter : Identity) : bool :=
  if negb (enabled w) || negb (id_identified starter) then false
  else existsb (fun c => match c with Some c => takes_part c && negb (id c =? id_id starter) | None => false end)
         (clients_in_order t).

(** [src/src/libs/JobStartWait.cpp:69-84] multiclient::JobStartWait::begin *)
Definition begin (w : JobStartWait) (starter : Identity) : JobStartWait :=
  let id_ := u16 (start_id_ w + 1) in
  mk_wait (limit_s_ w) true true false (if id_ =? 0 then 1 else id_) false false (id_id starter) 0 0 new_md5 0 false false.
(** [src/src/libs/JobStartWait.h:91-91] multiclient::JobStartWait::end *)
Definition end_wait (w : JobStartWait) : JobStartWait := w <| pending_ := false |>.

(** [got] is what [read] returns, when it is called.
    [src/src/libs/JobStartWait.cpp:86-101] multiclient::JobStartWait::hash_step *)
Definition hash_step (w : JobStartWait) (got : option (list Z)) (length_ now_us : Z) : JobStartWait * bool :=
  if negb (hashing w) || (length_ =? 0) then (w, false)
  else match got with
  | Some ((_ :: _) as bytes) =>
      (w <| md5_ := MD5.update (md5_ w) bytes |>
         <| hashed_size_ := u32 (hashed_size_ w + u32 (Z.of_nat (length bytes))) |>, false)
  | _ =>
      let w := match got with
               | Some _ => w <| md5_ := MD5.finalize (md5_ w) |> <| hash_complete_ := true |>
               | None => w
               end in
      (w <| hashing_ := false |> <| started_us_ := now_us |>, true)
  end.
(** [src/src/libs/JobStartWait.cpp:103-107] multiclient::JobStartWait::copy_checksum *)
Definition copy_checksum (w : JobStartWait) : option (list Z) :=
  if negb (hash_complete_ w) then None else Some (MD5.bindigest (md5_ w) 16).

(** [src/src/libs/JobStartWait.cpp:109-112] multiclient::JobStartWait::awaited *)
Definition awaited (w : JobStartWait) (client : option Client) : bool :=
  match client with
  | Some c => takes_part c && negb (id c =? starter_id_ w) && negb (job_start_ready c =? start_id_ w)
  | None => false
  end.

(** [src/src/libs/JobStartWait.cpp:156-164] multiclient::JobStartWait::seconds_left *)
Definition seconds_left (w : JobStartWait) (now_us : Z) : Z :=
  if hashing w then limit_s_ w
  else
    let elapsed_us := u32 (now_us - started_us_ w) in
    let limit_us := u32 (limit_s_ w * microseconds_per_second) in
    if limit_us <=? elapsed_us then 0
    else u8 (u32 (u32 (limit_us - elapsed_us + microseconds_per_second) - 1) / microseconds_per_second).

(** The slots' awaited ids while there is room, in order.
    [src/src/libs/JobStartWait.cpp:166-174] multiclient::JobStartWait::not_ready *)
Definition not_ready (w : JobStartWait) (t : ClientTable) (capacity : nat) : list Z :=
  take capacity (omap (fun c => if awaited w c then id <$> c else None) (clients_in_order t)).

(** [src/src/libs/JobStartWait.cpp:114-126] multiclient::JobStartWait::check *)
Definition check (w : JobStartWait) (t : ClientTable) (now_us : Z) : StartCheck :=
  if cancel_requested_ w then sc_cancelled
  else if negb (connected t (starter_id_ w)) then sc_starter_left
  else if settling w then sc_keep_waiting
  else if Z.of_nat (length (not_ready w t (Z.to_nat (max_wifi_clients + 1)))) =? 0 then sc_all_ready
  else if timed_out_ w then sc_keep_waiting
  else if negb (hashing w) && (seconds_left w now_us =? 0) then
    if negb (Z.land (features_of t (starter_id_ w)) hello_feature_keep_waiting =? 0) then sc_timed_out
    else if limit_ran_out_in_transfer_ w then sc_time_limit_in_transfer else sc_time_limit
  else sc_keep_waiting.

(** [src/src/libs/JobStartWait.cpp:128-134] multiclient::JobStartWait::keep_waiting *)
Definition keep_waiting (w : JobStartWait) (sender_id now_us : Z) : JobStartWait * bool :=
  if negb (pending_ w) || negb (sender_id =? starter_id_ w) then (w, false)
  else
    let w := if negb (hashing w) then w <| started_us_ := now_us |> else w in
    (w <| timed_out_ := false |> <| limit_ran_out_in_transfer_ := false |>, true).
(** [src/src/libs/JobStartWait.cpp:136-140] multiclient::JobStartWait::request_keep_waiting *)
Definition request_keep_waiting (w : JobStartWait) (sender_id : Z) : JobStartWait * bool :=
  if negb (pending_ w) || negb (sender_id =? starter_id_ w) then (w, false)
  else (w <| keep_waiting_requested_ := true |>, true).
(** [src/src/libs/JobStartWait.h:147-151] multiclient::JobStartWait::request_cancel *)
Definition request_cancel (w : JobStartWait) : JobStartWait :=
  if pending_ w then w <| cancel_requested_ := true |> else w.
(** [src/src/libs/JobStartWait.h:153-157] multiclient::JobStartWait::mark_timed_out *)
Definition mark_timed_out (w : JobStartWait) : JobStartWait :=
  if pending_ w then w <| timed_out_ := true |> else w.
(** [src/src/libs/JobStartWait.h:158-159] multiclient::JobStartWait::timed_out *)
Definition timed_out (w : JobStartWait) : bool := pending_ w && timed_out_ w.

(** [src/src/libs/JobStartWait.cpp:142-150] multiclient::JobStartWait::transfer_ended *)
Definition transfer_ended (w : JobStartWait) (now_us : Z) : JobStartWait :=
  if negb (pending_ w) then w
  else
    let w := w <| settle_ticks_ := settle_ticks_after_transfer |> in
    let w := if keep_waiting_requested_ w
             then (keep_waiting (w <| keep_waiting_requested_ := false |>) (starter_id_ w) now_us).1 else w in
    if negb (hashing w) && (seconds_left w now_us =? 0) then w <| limit_ran_out_in_transfer_ := true |> else w.
(** [src/src/libs/JobStartWait.cpp:152-154] multiclient::JobStartWait::second_tick *)
Definition second_tick (w : JobStartWait) : JobStartWait :=
  if negb (settle_ticks_ w =? 0) then w <| settle_ticks_ := u8 (settle_ticks_ w - 1) |> else w.

(** The client as the message leaves it.
    [src/src/libs/JobStartWait.cpp:176-182] multiclient::JobStartWait::mark_ready *)
Definition mark_ready (w : JobStartWait) (c : Client) (payload : list Z) : Client * bool :=
  if negb (pending_ w) || negb (identified c) || (Z.of_nat (length payload) <? 2) then (c, false)
  else
    let start_id := u16 (Z.lor (Z.shiftl (payload !!! 0%nat) 8) (payload !!! 1%nat)) in
    if negb (start_id =? start_id_ w) then (c, false) else (c <| job_start_ready := start_id |>, true).

(** ** Lines and frames while a start is held *)
(** [word_at] is at most the line's length.
    [src/src/libs/JobStartWait.cpp:22-30] multiclient::first_word_is *)
Definition first_word_is (line : list Z) (word_at : nat) (word : list Z) : bool :=
  if (length line - word_at <? length word)%nat || negb (bool_decide (slice word_at (length word) line = word)) then false
  else if (length line - word_at =? length word)%nat then true
  else let next := line !!! (word_at + length word)%nat in space next.

(** [src/src/libs/JobStartWait.cpp:189-202] multiclient::refused_while_start_pending *)
Definition refused_while_start_pending (line : list Z) : bool :=
  let at_ := skip_spaces line 0 in
  if (at_ =? length line)%nat then false
  else
    let first := line !!! at_ in
    if (65 <=? first) && (first <=? 90) then true
    else if first =? 36 then
      (at_ + 1 <? length line)%nat && ((line !!! (at_ + 1)%nat =? 72) || (line !!! (at_ + 1)%nat =? 74))
    else existsb (first_word_is line at_) [chars "play"; chars "buffer"; chars "goto"; chars "suspend"; chars "resume"].

(** [src/src/libs/JobStartWait.cpp:204-213] multiclient::held_start_frame *)
Definition held_start_frame (type : Z) (data : list Z) : TransferFrame :=
  if type =? PTYPE_JOB_START_READY then tf_ready
  else if negb (type =? PTYPE_CTRL_MULTI) then tf_other
  else
    let at_ := skip_spaces data 0 in
    if first_word_is data at_ (chars "abort") then tf_cancel
    else if first_word_is data at_ (chars "keep-waiting") then tf_keep_waiting
    else tf_other.

(** [src/src/libs/JobStartWait.cpp:215-219] multiclient::dropped_when_marked *)
Definition dropped_when_marked (type : Z) (data : list Z) : bool :=
  if (type =? PTYPE_FILE_START) || (type =? PTYPE_AUTO_COMMAND) then true
  else if negb (type =? PTYPE_CTRL_MULTI) || is_diagnostic_request data then false
  else bool_decide (held_start_frame type data = tf_other).

(** ** When a held start ends *)
Definition everyone_ready (w : JobStartWait) (t : ClientTable) : Prop :=
  forall c, Some c ∈ clients_in_order t -> takes_part c = true -> id c <> starter_id_ w -> job_start_ready c = start_id_ w.
Definition limit_over (w : JobStartWait) (now_us : Z) : Prop :=
  hashing w = false /\ limit_s_ w * 1000000 <= u32 (now_us - started_us_ w).
Definition starter_chooses (w : JobStartWait) (t : ClientTable) : Prop :=
  Z.land (features_of t (starter_id_ w)) hello_feature_keep_waiting <> 0.

Lemma not_ready_none w t :
  (Z.of_nat (length (not_ready w t (Z.to_nat (max_wifi_clients + 1)))) =? 0) = true <-> everyone_ready w t.
Proof.
  unfold not_ready. change (Z.to_nat (max_wifi_clients + 1)) with 4%nat.
  set (f := fun c => if awaited w c then id <$> c else None).
  rewrite Z.eqb_eq. assert (Z.of_nat (length (take 4 (omap f (clients_in_order t)))) = 0 <-> omap f (clients_in_order t) = []) as ->.
  { rewrite length_take. split; [|intros ->; done]. intros H0. apply nil_length_inv. lia. }
  unfold everyone_ready. split.
  - intros Hn c Hc Ht Hid. destruct (decide (job_start_ready c = start_id_ w)) as [|Hne]; [done|]. exfalso.
    assert (id c ∈ omap f (clients_in_order t)) as He.
    { apply list_elem_of_omap. exists (Some c). split; [done|]. unfold f, awaited. rewrite Ht.
      rewrite (proj2 (Z.eqb_neq _ _) Hid), (proj2 (Z.eqb_neq _ _) Hne). done. }
    rewrite Hn in He. by apply not_elem_of_nil in He.
  - intros Hall. destruct (omap f (clients_in_order t)) as [|x l] eqn:Ho; [done|]. exfalso.
    assert (x ∈ omap f (clients_in_order t)) as Hx by (rewrite Ho; apply elem_of_cons; by left).
    apply list_elem_of_omap in Hx as (c & Hc & Hf). subst f. cbn in Hf. destruct c as [c|]; [|done].
    destruct (awaited w (Some c)) eqn:Ha; [|done]. unfold awaited in Ha.
    rewrite !andb_true_iff, !negb_true_iff, !Z.eqb_neq in Ha. destruct Ha as [[Ht Hid] Hr]. by apply Hr, Hall.
Qed.

Lemma seconds_left_value w now :
  is_u8 (limit_s_ w) -> hashing w = false ->
  let e := u32 (now - started_us_ w) in let s := seconds_left w now in
  0 <= s <= limit_s_ w /\ (s = 0 <-> limit_s_ w * 1000000 <= e) /\
  (0 < s -> (s - 1) * 1000000 < limit_s_ w * 1000000 - e <= s * 1000000).
Proof.
  intros Hl Hh e s. subst s. unfold seconds_left. rewrite Hh. unfold microseconds_per_second. cbv zeta. fold e.
  assert (is_u32 e) as He by (by apply wrap_range). unfold is_uint in Hl, He.
  rewrite (wrap_small 32 (limit_s_ w * 1000000)) by (unfold is_uint; lia).
  destruct (Z.leb_spec (limit_s_ w * 1000000) e); [lia|].
  rewrite (wrap_small 32 (_ + _)) by (unfold is_uint; lia). rewrite (wrap_small 32) by (unfold is_uint; lia).
  rewrite wrap_small by (unfold is_uint; Z.div_mod_to_equations; lia). Z.div_mod_to_equations; lia.
Qed.

(** C29: What a held start does next, in every state. It runs before time only
    when every participating controller but the starter has said it is ready for
    this very start; otherwise only when the limit is over, which never happens
    while the file is being hashed, and not if the starter is the one to choose.
    A cancel and the starter's leaving come before everything, and nothing else
    is decided while the links catch up after a transfer. *)
Theorem check_decides w t now :
  is_u8 (limit_s_ w) ->
  let calm := cancel_requested_ w = false /\ present_id t (starter_id_ w) /\ settling w = false in
  match check w t now with
  | sc_cancelled => cancel_requested_ w = true
  | sc_starter_left => cancel_requested_ w = false /\ ~ present_id t (starter_id_ w)
  | sc_all_ready => calm /\ everyone_ready w t
  | sc_timed_out => calm /\ ~ everyone_ready w t /\ timed_out_ w = false /\ limit_over w now /\ starter_chooses w t
  | sc_time_limit => calm /\ ~ everyone_ready w t /\ timed_out_ w = false /\ limit_over w now /\
      ~ starter_chooses w t /\ limit_ran_out_in_transfer_ w = false
  | sc_time_limit_in_transfer => calm /\ ~ everyone_ready w t /\ timed_out_ w = false /\ limit_over w now /\
      ~ starter_chooses w t /\ limit_ran_out_in_transfer_ w = true
  | sc_keep_waiting => cancel_requested_ w = false /\ present_id t (starter_id_ w) /\
      (settling w = true \/ ~ everyone_ready w t /\ (timed_out_ w = true \/ ~ limit_over w now))
  end.
Proof.
  intros Hl. cbv zeta. unfold check, connected. destruct (cancel_requested_ w); [done|].
  pose proof (find_by_id_spec t (starter_id_ w)) as Hp. destruct ((0 <=? _) || _); cbn [negb].
  2: { split; [done|]. rewrite <- Hp. done. }
  assert (present_id t (starter_id_ w)) as Hpr by by apply Hp.
  destruct (settling w); [by auto 10|].
  pose proof (not_ready_none w t) as Hn. destruct (_ =? 0); [by repeat split; try apply Hn|].
  assert (~ everyone_ready w t) as Hne by (intros He; apply Hn in He; done).
  destruct (timed_out_ w); [by auto 10|].
  assert (negb (hashing w) && (seconds_left w now =? 0) = true <-> limit_over w now) as Hlim.
  { unfold limit_over. destruct (hashing w) eqn:Hh; [cbn; intuition done|]. cbn [negb andb]. rewrite Z.eqb_eq.
    destruct (seconds_left_value w now Hl Hh) as (_ & -> & _). tauto. }
  destruct (negb (hashing w) && _).
  2: { split; [done|]. split; [done|]. right. split; [done|]. right. intros Hx. apply Hlim in Hx. done. }
  assert (limit_over w now) by by apply Hlim. unfold starter_chooses.
  destruct (Z.eqb_spec (Z.land (features_of t (starter_id_ w)) hello_feature_keep_waiting) 0); cbn [negb]; [|auto 10].
  destruct (limit_ran_out_in_transfer_ w); auto 10.
Qed.

(** A new start is a start nobody is ready for: its id is not the last one's, nor
    the 0 a new client carries. *)
Lemma begin_new_id w starter : is_u16 (start_id_ w) ->
  let i := start_id_ (begin w starter) in 1 <= i < 2 ^ 16 /\ (start_id_ w <> 0 -> i <> start_id_ w).
Proof.
  intros Hw. unfold begin. cbn [start_id_]. destruct (Z.eqb_spec (u16 (start_id_ w + 1)) 0); ints.
Qed.

(** ** The held file's hash *)
Fixpoint hash_all (w : JobStartWait) (reads : list (list Z * Z)) : JobStartWait :=
  match reads with
  | [] => w
  | (bytes, now) :: reads => hash_all (hash_step w (Some bytes) hash_chunk_bytes now).1 reads
  end.

Record hashed (w : JobStartWait) (file : list Z) : Prop := {
  hs_on : hashing w = true;
  hs_md5 : MD5.held (md5_ w) file;
  hs_incomplete : hash_complete_ w = false;
  hs_size : hashed_size_ w = u32 (Z.of_nat (length file))
}.

Lemma hash_all_spec w file reads :
  hashed w file ->
  Forall (fun r => r.1 <> [] /\ (length r.1 <= Z.to_nat hash_chunk_bytes)%nat) reads ->
  hashed (hash_all w reads) (file ++ concat (map fst reads)).
Proof.
  intros Hw Hr. revert w file Hw. induction Hr as [|[bytes now] reads [Hne Hl] Hr IH]; intros w file Hw.
  { cbn. by rewrite app_nil_r. }
  cbn [hash_all map concat fst] in *. rewrite app_assoc. apply IH. clear IH Hr.
  change (Z.to_nat hash_chunk_bytes) with 256%nat in Hl. destruct Hw as [Hon Hmd Hin Hsz].
  unfold hash_step. rewrite Hon. destruct bytes as [|b bytes]; [done|]. change (negb true || (hash_chunk_bytes =? 0)) with false.
  cbv iota. cbn [fst]. split; unfold hashing in *; recs; [done| |done|].
  - apply MD5.update_held; [done|]. lia.
  - rewrite Hsz, length_app. ints.
Qed.

(** A held start is announced with the file it will run. However the file is
    read, piece by piece, once the end is reached the wait's checksum is the MD5
    of the file's bytes, the size is the file's, and the limit starts then; a
    failed read leaves no checksum, and until then the limit cannot end the
    wait. *)
Theorem held_file_checksum w starter reads now end_ t :
  Forall (fun r => r.1 <> [] /\ (length r.1 <= Z.to_nat hash_chunk_bytes)%nat) reads ->
  let file := concat (map fst reads) in
  let during := hash_all (begin w starter) reads in
  let '(after, done_) := hash_step during end_ hash_chunk_bytes now in
  copy_checksum during = None /\ ~ limit_over during now /\ check during t now <> sc_time_limit /\
  match end_ with
  | Some [] => done_ = true /\ copy_checksum after = Some (MD5.one_shot file) /\ started_us_ after = now /\ hashing after = false /\
      hashed_size_ after = u32 (Z.of_nat (length file))
  | Some _ => done_ = false
  | None => done_ = true /\ copy_checksum after = None /\ started_us_ after = now /\ hashing after = false
  end.
Proof.
  intros Hr file during.
  assert (hashed during file) as [Hon Hmd Hin Hsz].
  { apply (hash_all_spec _ []); [|done]. by split. }
  destruct (hash_step during end_ hash_chunk_bytes now) as [after done_] eqn:Hs.
  split; [unfold copy_checksum; by rewrite Hin|]. split; [unfold limit_over; rewrite Hon; by intros [? _]|].
  split. { unfold check. rewrite Hon. cbn [negb andb].
    repeat match goal with |- context [if ?b then _ else _] => destruct b end; done. }
  unfold hash_step in Hs. rewrite Hon in Hs. change (negb true || (hash_chunk_bytes =? 0)) with false in Hs. cbv iota in Hs.
  destruct end_ as [[|b bytes]|]; injection Hs as <- <-; [| done |].
  - destruct (MD5.finalize_held _ _ Hmd) as [_ Hd]. split; [done|]. split; [|split; [done|split; [unfold hashing; recs; apply andb_false_r|done]]].
    unfold copy_checksum. recs. cbn [negb]. f_equal. unfold MD5.bindigest. rewrite Hd. unfold MD5.one_shot.
    by destruct (MD5.absorb _ _ _) as [[[? ?] ?] ?].
  - split; [done|]. split; [unfold copy_checksum; recs; by rewrite Hin|]. split; [done|]. unfold hashing. recs. apply andb_false_r.
Qed.
Lemma held_file_checksum_witness :
  let reads := [(chars "G0 X1", 5); (chars "M2", 9)] in
  let during := hash_all (begin (configure new_wait 30) no_identity) reads in
  let '(after, done_) := hash_step during (Some []) hash_chunk_bytes 12 in
  copy_checksum during = None /\ ~ limit_over during 12 /\ check during new_table 12 <> sc_time_limit /\
  done_ = true /\ copy_checksum after = Some (MD5.one_shot (chars "G0 X1M2")) /\ started_us_ after = 12 /\
  hashing after = false /\ hashed_size_ after = u32 7.
Proof.
  apply (held_file_checksum (configure new_wait 30) no_identity [(chars "G0 X1", 5); (chars "M2", 9)] 12 (Some []) new_table).
  repeat constructor; cbn; (done || lia).
Defined.
Lemma check_decides_witness :
  let w := (hash_step (begin (configure new_wait 30) (mk_identity true 7 link_wifi [] 0)) None hash_chunk_bytes 0).1 in
  check w new_table 31000000 = sc_starter_left /\ ~ present_id new_table 7.
Proof.
  intros w. pose proof (check_decides w new_table 31000000) as H.
  assert (is_u8 (limit_s_ w)) as Hl by by vm_compute. specialize (H Hl). cbv zeta in H.
  change (check w new_table 31000000) with sc_starter_left in H. split; [by vm_compute|]. apply H.
Defined.

(** ** What is kept of the frames sent meanwhile *)
Lemma first_word_is_word line at_ w : (at_ <= length line)%nat -> first_word_is line at_ w = word_is line at_ w.
Proof.
  intros Ha. unfold first_word_is, word_is. cbv zeta.
  destruct (Nat.ltb_spec (length line - at_) (length w)), (Nat.ltb_spec (length line) (at_ + length w)); try lia; [done|].
  cbn [orb]. destruct (negb _); [done|].
  destruct (Nat.eqb_spec (length line - at_) (length w)), (Nat.eqb_spec (at_ + length w) (length line)); (done || lia).
Qed.
Lemma skip_spaces_le line : (skip_spaces line 0 <= length line)%nat.
Proof. unfold skip_spaces. rewrite drop_0. apply scan_length. Qed.
Lemma first_word_reflect line w :
  w <> [] -> Forall (fun c => space c = false) w ->
  first_word_is line (skip_spaces line 0) w = bool_decide (first_word line = w).
Proof. intros. rewrite first_word_is_word by apply skip_spaces_le. by apply word_is_reflect. Qed.

(** Of the frames marked during a transfer exactly the ones the busy reply
    answers are dropped: transfer starts, automatic commands, and command lines
    other than diagnose, abort and keep-waiting. A halt, a stop, a ready message
    or an abort is never lost to a transfer, whatever its payload. *)
Theorem marked_frames_dropped type data :
  dropped_when_marked type data = true <->
  type = PTYPE_FILE_START \/ type = PTYPE_AUTO_COMMAND \/
  (type = PTYPE_CTRL_MULTI /\ is_diagnostic_request data = false /\
   first_word data <> chars "abort" /\ first_word data <> chars "keep-waiting").
Proof.
  unfold dropped_when_marked, held_start_frame.
  destruct (Z.eqb_spec type PTYPE_FILE_START); cbn [orb]; [tauto|].
  destruct (Z.eqb_spec type PTYPE_AUTO_COMMAND); [tauto|].
  destruct (Z.eqb_spec type PTYPE_CTRL_MULTI) as [->|]; cbn [negb orb]; [|intuition done].
  change (PTYPE_CTRL_MULTI =? PTYPE_JOB_START_READY) with false. cbv iota.
  rewrite !first_word_reflect by concrete.
  destruct (is_diagnostic_request data); [intuition done|].
  destruct (bool_decide_reflect (first_word data = chars "abort")); decides; [intuition done|].
  destruct (bool_decide_reflect (first_word data = chars "keep-waiting")); decides; intuition done.
Qed.
