(* ===== verification/TransferBusy.v ===== *)
(** * While a transfer runs ([src/src/libs/TransferBusy.h], [TransferBusy.cpp])

    What other clients are told during a file transfer: the busy reply and the
    transfer notice as frames, which discarded reads need a reply, how often one
    client gets it, and when a notice is due. The small gates on file commands,
    settings writes and quiet links are here too. *)
From S2P Require Import Prelude Crc16 MakeraFrame FrameWire ClientTable ControlToken Publish Hello JobStartWait.

(** [src/src/libs/TransferBusy.h:11-15] multiclient::busy_reply_text *)
Definition busy_reply_text : list Z :=
  chars "error:Busy -- a file transfer is in progress, retry when it finishes" ++ [13; 10].
(** [src/src/libs/TransferBusy.h:16-16] multiclient::busy_reply_frame_size *)
Definition busy_reply_frame_size : Z := Z.of_nat (length busy_reply_text) + frame_overhead.
(** [src/src/libs/TransferBusy.h:18-21] multiclient::busy_reply_gap_us *)
Definition busy_reply_gap_us : Z := 250000.
(** [src/src/libs/TransferBusy.h:68-75] multiclient::transfer_download *)
Definition transfer_download : Z := 0.
(** [src/src/libs/TransferBusy.h:76-76] multiclient::transfer_upload *)
Definition transfer_upload : Z := 1.
(** [src/src/libs/TransferBusy.h:77-77] multiclient::transfer_notice_interval_us *)
Definition transfer_notice_interval_us : Z := 1000000.
(** [src/src/libs/TransferBusy.h:78-78] multiclient::transfer_notice_frame_size *)
Definition transfer_notice_frame_size : Z := 2 + frame_overhead.

(** The buffer as left, and the length returned.
    [src/src/libs/TransferBusy.cpp:12-23] multiclient::build_busy_reply_frame *)
Definition build_busy_reply_frame (out : list Z) (capacity : Z) : list Z * Z :=
  if capacity <? busy_reply_frame_size then (out, 0) else
  let text_length := length busy_reply_text in
  let length_ := Z.of_nat text_length + 3 in
  let out := put out 0 (be_bytes 2 header) in
  let out := put out 2 (be_bytes 2 length_) in
  let out := put out 4 [PTYPE_NORMAL_INFO] in
  let out := put out 5 busy_reply_text in
  let out := put out (5 + text_length) (be_bytes 2 (ccitt (slice 2 (Z.to_nat length_) out))) in
  let out := put out (7 + text_length) (be_bytes 2 footer) in
  (out, busy_reply_frame_size).

(** [src/src/libs/TransferBusy.cpp:25-36] multiclient::build_transfer_notice_frame *)
Definition build_transfer_notice_frame (direction : Z) (out : list Z) (capacity : Z) : list Z * Z :=
  if capacity <? transfer_notice_frame_size then (out, 0) else
  let length_ := 2 + 3 in
  let out := put out 0 (be_bytes 2 header) in
  let out := put out 2 (be_bytes 2 length_) in
  let out := put out 4 [PTYPE_EVENT; event_kind_transfer; direction] in
  let out := put out 7 (be_bytes 2 (ccitt (slice 2 (Z.to_nat length_) out))) in
  let out := put out 9 (be_bytes 2 footer) in
  (out, transfer_notice_frame_size).

(** The loop from [i] on; every turn advances, so the length bounds the turns
    ([needs_busy_reply_fuel]).
    [src/src/libs/TransferBusy.cpp:38-67] multiclient::needs_busy_reply *)
Fixpoint needs_from (fuel : nat) (data : list Z) (i : nat) : bool :=
  match fuel with
  | O => false
  | S fuel =>
      if negb (i + 1 <? length data)%nat then false
      else if negb (read_be16 (drop i data) =? header) then needs_from fuel data (i + 1)
      else if (length data <=? i + 4)%nat then true
      else
        let frame_length := read_be16 (drop (i + 2) data) in
        let type := data !!! (i + 4)%nat in
        let next := needs_from fuel data (i + 6 + Z.to_nat frame_length) in
        if type =? PTYPE_CTRL_SINGLE then
          if (length data <=? i + 5)%nat then true
          else match decode_control (data !!! (i + 5)%nat) with
               | ca_query | ca_keep_alive | ca_diagnose => next
               | _ => true
               end
        else if type =? PTYPE_CTRL_MULTI then
          if (frame_length <? 3) || (Z.of_nat (length data) <? Z.of_nat i + 5 + (frame_length - 3)) then true
          else if negb (is_diagnostic_request (slice (i + 5) (Z.to_nat (frame_length - 3)) data)) then true
          else next
        else if negb (type =? PTYPE_HEARTBEAT) && negb (type =? PTYPE_RELAY) && negb (type =? PTYPE_PRESENCE_REPLY)
                && negb (type =? PTYPE_JOB_START_READY) then true
        else next
  end.
Definition needs_busy_reply (data : list Z) : bool := needs_from (length data) data 0.

(** [src/src/libs/TransferBusy.h:53-57] multiclient::BusyReplyLimiter::Entry *)
Record Entry := mk_entry { en_address : Address; replied_to_frame : bool; last_frame_reply_us : Z }.
#[export] Instance eta_Entry : Eta Entry := fun e => mk_entry (en_address e) (replied_to_frame e) (last_frame_reply_us e).
(** [src/src/libs/TransferBusy.h:59-62] multiclient::BusyReplyLimiter::capacity *)
Definition limiter_capacity : nat := Z.to_nat (max_wifi_clients + 1).
(** The first [count_] of [entries_]; what is past them is never read.
    [src/src/libs/TransferBusy.h:34-66] multiclient::BusyReplyLimiter *)
Record BusyReplyLimiter := mk_limiter { entries_ : list Entry; oldest_ : nat }.
#[export] Instance eta_BusyReplyLimiter : Eta BusyReplyLimiter := fun l => mk_limiter (entries_ l) (oldest_ l).
(** [src/src/libs/TransferBusy.h:47-50] multiclient::BusyReplyLimiter::clear *)
Definition clear_limiter (l : BusyReplyLimiter) : BusyReplyLimiter := mk_limiter [] 0.

(** The loop over the entries: what it returns, if the sender has one.
    [src/src/libs/TransferBusy.cpp:72-82] multiclient::BusyReplyLimiter::should_reply *)
Fixpoint reply_known (entries : list Entry) (sender : Address) (needs_reply : bool) (now_us : Z)
    : option (list Entry * bool) :=
  match entries with
  | [] => None
  | entry :: rest =>
      if negb (same_address (en_address entry) sender) then
        match reply_known rest sender needs_reply now_us with
        | Some (rest, r) => Some (entry :: rest, r)
        | None => None
        end
      else if negb needs_reply then Some (entry :: rest, false)
      else if replied_to_frame entry && (s32 (u32 (now_us - last_frame_reply_us entry)) <? s32 busy_reply_gap_us)
      then Some (entry :: rest, false)
      else Some (entry <| replied_to_frame := true |> <| last_frame_reply_us := now_us |> :: rest, true)
  end.
(** [src/src/libs/TransferBusy.cpp:69-96] multiclient::BusyReplyLimiter::should_reply *)
Definition should_reply (l : BusyReplyLimiter) (sender : Address) (needs_reply sent_transfer_notices : bool) (now_us : Z)
    : BusyReplyLimiter * bool :=
  if sent_transfer_notices && negb needs_reply then (l, false)
  else match reply_known (entries_ l) sender needs_reply now_us with
  | Some (entries, r) => (l <| entries_ := entries |>, r)
  | None =>
      let entry := mk_entry sender needs_reply now_us in
      if (length (entries_ l) <? limiter_capacity)%nat then (l <| entries_ := entries_ l ++ [entry] |>, true)
      else (mk_limiter (<[oldest_ l := entry]> (entries_ l)) ((oldest_ l + 1) mod limiter_capacity), true)
  end.

(** [src/src/libs/TransferBusy.h:84-104] multiclient::TransferNotice *)
Record TransferNotice := mk_notice { direction_ : Z; last_us_ : Z }.
(** [src/src/libs/TransferBusy.h:89-92] multiclient::TransferNotice::begin *)
Definition begin_notice (n : TransferNotice) (direction now_us : Z) : TransferNotice :=
  mk_notice direction (u32 (now_us - transfer_notice_interval_us)).
(** [src/src/libs/TransferBusy.h:93-98] multiclient::TransferNotice::due *)
Definition notice_due (n : TransferNotice) (now_us : Z) : TransferNotice * bool :=
  if u32 (now_us - last_us_ n) <? transfer_notice_interval_us then (n, false)
  else (mk_notice (direction_ n) now_us, true).

(** ** The gates *)
(** [src/src/libs/FileCommandGate.h:17-17] file_command_gate::job_playing_reply *)
Definition job_playing_reply : list Z := chars "error:Refused -- a job is playing" ++ [13; 10].
(** [src/src/libs/FileCommandGate.h:19-25] file_command_gate::FileCommand *)
Inductive FileCommand := fc_download | fc_upload | fc_md5sum | fc_cat | fc_md5check.
#[export] Instance FileCommand_eq_dec : EqDecision FileCommand. Proof. solve_decision. Defined.
(** [src/src/libs/FileCommandGate.h:27-36] file_command_gate::MachineState *)
Record FileMachineState := mk_file_state { fm_job_playing : bool; fm_motion_queue_idle : bool; fm_job_start_pending : bool }.
(** [src/src/libs/FileCommandGate.h:38-50] file_command_gate::Decision *)
Inductive FileDecision := d_run | d_refuse_job_playing | d_refuse_machine_busy | d_refuse_job_start_pending.
#[export] Instance FileDecision_eq_dec : EqDecision FileDecision. Proof. solve_decision. Defined.
(** [src/src/libs/FileCommandGate.cpp:5-12] file_command_gate::decide *)
Definition decide_file_command (command : FileCommand) (state : FileMachineState) : FileDecision :=
  if fm_job_playing state then d_refuse_job_playing
  else if bool_decide (command = fc_upload) && fm_job_start_pending state then d_refuse_job_start_pending
  else
    let transfer := bool_decide (command = fc_download) || bool_decide (command = fc_upload) in
    if transfer && negb (fm_motion_queue_idle state) then d_refuse_machine_busy else d_run.

(** [src/src/libs/ConfigWriteGate.h:11-27] config_write_gate::MachineState *)
Record ConfigMachineState := mk_config_state { cm_idle : bool; cm_alarm : bool; cm_sleeping : bool; cm_playing : bool }.
(** [src/src/libs/ConfigWriteGate.cpp:5-7] config_write_gate::refuses_write *)
Definition refuses_write (state : ConfigMachineState) : bool :=
  cm_playing state || negb (cm_idle state || cm_alarm state || cm_sleeping state).

(** [src/src/libs/UsbActivity.h:9-11] multiclient::temporary_baud_timeout_us *)
Definition temporary_baud_timeout_us : Z := 15000000.
(** [src/src/libs/UsbActivity.h:13-44] multiclient::UsbActivity *)
Record UsbActivity := mk_activity { last_activity_us : Z; rx_detached : bool }.
(** [src/src/libs/UsbActivity.h:29-32] multiclient::UsbActivity::set_rx_enabled *)
Definition set_rx_enabled (a : UsbActivity) (enabled : bool) (now_us : Z) : UsbActivity :=
  mk_activity (if enabled then now_us else last_activity_us a) (negb enabled).
(** [src/src/libs/UsbActivity.h:34-36] multiclient::UsbActivity::session_expired *)
Definition session_expired (a : UsbActivity) (hello_window_started_ : bool) (now_us : Z) : bool :=
  negb (rx_detached a) && usb_session_expired hello_window_started_ now_us (last_activity_us a).
(** [src/src/libs/UsbActivity.h:38-43] multiclient::UsbActivity::temporary_baud_expired *)
Definition temporary_baud_expired (a : UsbActivity) (now_us : Z) : bool :=
  negb (rx_detached a) && (s32 temporary_baud_timeout_us <=? s32 (u32 (now_us - last_activity_us a))).

(** [src/src/libs/DownloadRetry.h:14-21] download_retry::repeats_data_packet *)
Definition repeats_data_packet (last_sent : Z) : bool := last_sent =? PTYPE_FILE_DATA.
(** [src/src/libs/TransferTimeout.h:15-15] transfer_timeout::download_stall_us *)
Definition download_stall_us : Z := 10000000.
(** [src/src/libs/TransferTimeout.h:17-22] transfer_timeout::download_stalled *)
Definition download_stalled (last_request_us now_us : Z) : bool := download_stall_us <? u32 (now_us - last_request_us).

(** ** The frames *)
(** What [out] holds once its first bytes are a whole frame. *)
Lemma put_frame out type data :
  (length data + 9 <= length out)%nat ->
  let n := length data in
  let out1 := put (put (put out 0 (be_bytes 2 header)) 2 (be_bytes 2 (Z.of_nat n + 3))) 4 (type :: data) in
  put (put out1 (5 + n) (be_bytes 2 (ccitt (slice 2 (n + 3) out1)))) (7 + n) (be_bytes 2 footer)
  = encode_frame type data ++ drop (n + 9) out.
Proof.
  intros Hl n out1.
  assert (filled out out1 (be_bytes 2 header ++ be_bytes 2 (Z.of_nat n + 3) ++ type :: data)) as Hf.
  { assert (filled out (put out 0 (be_bytes 2 header)) (be_bytes 2 header)) as F1.
    { apply (put_filled out out []); [done|done|]. rewrite length_be_bytes. cbn [length]. lia. }
    assert (filled out (put (put out 0 (be_bytes 2 header)) 2 (be_bytes 2 (Z.of_nat n + 3)))
      (be_bytes 2 header ++ be_bytes 2 (Z.of_nat n + 3))) as F2.
    { apply put_filled; [done|done|]. rewrite !length_be_bytes. lia. }
    rewrite app_assoc. apply put_filled; [done|done|]. rewrite length_app, !length_be_bytes. cbn [length]. lia. }
  assert (slice 2 (n + 3) out1 = frame_covered type data) as ->.
  { rewrite Hf. rewrite <- app_assoc. apply slice_app_exact; [done|].
    unfold frame_covered. rewrite length_app, length_be_bytes. cbn [length]. lia. }
  set (c := ccitt _).
  assert (filled out (put (put out1 (5 + n) (be_bytes 2 c)) (7 + n) (be_bytes 2 footer))
    (((be_bytes 2 header ++ be_bytes 2 (Z.of_nat n + 3) ++ type :: data) ++ be_bytes 2 c) ++ be_bytes 2 footer)) as Hf2.
  { apply put_filled; [apply put_filled; [done|..]|..]; rewrite ?length_app, ?length_be_bytes; cbn [length]; lia. }
  unfold filled in Hf2. rewrite Hf2. f_equal.
  - unfold encode_frame. subst c. unfold frame_covered. fold n. by rewrite <- !app_assoc.
  - f_equal. rewrite !length_app, !length_be_bytes. cbn [length]. lia.
Qed.

Lemma length_put out o b : (o + length b <= length out)%nat -> length (put out o b) = length out.
Proof. intros. unfold put. rewrite !length_app, length_take, length_drop. lia. Qed.
Lemma put_cons out o x b : (o + 1 + length b <= length out)%nat -> put (put out o [x]) (o + 1) b = put out o (x :: b).
Proof.
  intros Hl. unfold put. rewrite (app_assoc (take o out) [x]), take_app_length' by (rewrite length_app, length_take; cbn; lia).
  rewrite (drop_app_ge (take o out ++ [x])) by (rewrite length_app, length_take; cbn; lia). rewrite drop_drop, <- app_assoc.
  cbn [app]. do 4 f_equal. rewrite length_app, length_take. cbn [length]. lia.
Qed.

Lemma busy_reply_is_frame out capacity :
  busy_reply_frame_size <= capacity -> capacity <= Z.of_nat (length out) ->
  build_busy_reply_frame out capacity =
    (encode_frame PTYPE_NORMAL_INFO busy_reply_text ++ drop (Z.to_nat busy_reply_frame_size) out, busy_reply_frame_size).
Proof.
  intros Hc Ho. unfold build_busy_reply_frame. rewrite (proj2 (Z.ltb_ge _ _)) by done. cbv zeta.
  unfold busy_reply_frame_size, frame_overhead in *. generalize dependent busy_reply_text. intros text Hc.
  replace (Z.to_nat (Z.of_nat (length text) + 3)) with (length text + 3)%nat by lia.
  replace (Z.to_nat (Z.of_nat (length text) + 9)) with (length text + 9)%nat by lia.
  pose proof (put_frame out PTYPE_NORMAL_INFO text ltac:(lia)) as Hp. cbv zeta in Hp. f_equal. rewrite <- Hp.
  rewrite <- (put_cons _ 4 PTYPE_NORMAL_INFO text); [done|].
  rewrite !length_put; rewrite ?length_put; rewrite ?length_be_bytes; lia.
Qed.

Lemma notice_is_frame direction out capacity :
  transfer_notice_frame_size <= capacity -> capacity <= Z.of_nat (length out) ->
  build_transfer_notice_frame direction out capacity =
    (encode_frame PTYPE_EVENT [event_kind_transfer; direction] ++ drop (Z.to_nat transfer_notice_frame_size) out,
     transfer_notice_frame_size).
Proof.
  intros Hc Ho. unfold build_transfer_notice_frame. rewrite (proj2 (Z.ltb_ge _ _)) by done. cbv zeta. f_equal.
  apply (put_frame out PTYPE_EVENT [event_kind_transfer; direction]). change transfer_notice_frame_size with 11 in Hc. cbn. lia.
Qed.

(** ** What needs a reply *)
(** A frame a controller sends on its own, or that is never answered. *)
Definition quiet_frame (type : Z) (data : list Z) : bool :=
  if type =? PTYPE_CTRL_SINGLE then
    match decode_control (data !!! 0%nat) with ca_query | ca_keep_alive | ca_diagnose => true | _ => false end
  else if type =? PTYPE_CTRL_MULTI then is_diagnostic_request data
  else (type =? PTYPE_HEARTBEAT) || (type =? PTYPE_RELAY) || (type =? PTYPE_PRESENCE_REPLY) || (type =? PTYPE_JOB_START_READY).
Definition sendable (f : Z * list Z) : Prop :=
  is_u8 f.1 /\ is_bytes f.2 /\ Z.of_nat (length f.2) <= max_data_size /\ (f.1 = PTYPE_CTRL_SINGLE -> f.2 <> []).

Lemma needs_shift fuel pre d i : needs_from fuel (pre ++ d) (length pre + i) = needs_from fuel d i.
Proof.
  revert i. induction fuel as [|fuel IH]; intros i; [done|]. cbn [needs_from].
  assert (forall j, (pre ++ d) !!! (length pre + i + j)%nat = d !!! (i + j)%nat) as Hl.
  { intros j. rewrite lookup_total_app_r by lia. f_equal. lia. }
  assert (forall j, drop (length pre + i + j) (pre ++ d) = drop (i + j) d) as Hd.
  { intros j. rewrite drop_app_ge by lia. f_equal. lia. }
  pose proof (Hd 0%nat) as Hd0. rewrite !Nat.add_0_r in Hd0. rewrite Hd0, (Hd 2%nat), !Hl.
  unfold slice. rewrite (Hd 5%nat). rewrite length_app.
  assert (forall j, (length pre + i + j <? length pre + length d)%nat = (i + j <? length d)%nat) as Hlt.
  { intros j. apply eq_true_iff_eq. rewrite !Nat.ltb_lt. lia. }
  assert (forall j, (length pre + length d <=? length pre + i + j)%nat = (length d <=? i + j)%nat) as Hle.
  { intros j. apply eq_true_iff_eq. rewrite !Nat.leb_le. lia. }
  rewrite Hlt, !Hle.
  assert (forall x, (Z.of_nat (length pre + length d) <? Z.of_nat (length pre + i) + 5 + x) =
    (Z.of_nat (length d) <? Z.of_nat i + 5 + x)) as Hz.
  { intros x. apply eq_true_iff_eq. rewrite !Z.ltb_lt. lia. }
  rewrite Hz. replace (length pre + i + 1)%nat with (length pre + (i + 1))%nat by lia.
  replace (length pre + i + 6 + Z.to_nat (read_be16 (drop (i + 2) d)))%nat
    with (length pre + (i + 6 + Z.to_nat (read_be16 (drop (i + 2) d))))%nat by lia.
  by rewrite !IH.
Qed.

Lemma needs_enough f1 f2 d i :
  (length d - i <= f1)%nat -> (length d - i <= f2)%nat -> needs_from f1 d i = needs_from f2 d i.
Proof.
  revert f2 i. induction f1 as [|f1 IH]; intros f2 i H1 H2.
  - destruct f2; [done|]. cbn [needs_from]. destruct (Nat.ltb_spec (i + 1) (length d)); [lia|done].
  - destruct f2 as [|f2]; cbn [needs_from].
    + destruct (Nat.ltb_spec (i + 1) (length d)); [lia|done].
    + destruct (Nat.ltb_spec (i + 1) (length d)); cbn [negb]; [|done].
      rewrite (IH f2 (i + 1)%nat) by lia. rewrite (IH f2 (i + 6 + _)%nat) by lia. done.
Qed.

(** The length bounds the turns: more of them change nothing. *)
Lemma needs_busy_reply_fuel fuel data : (length data <= fuel)%nat -> needs_from fuel data 0 = needs_busy_reply data.
Proof. intros. apply needs_enough; lia. Qed.


Lemma read_be16_pair x y l : is_u8 x -> is_u8 y -> read_be16 (x :: y :: l) = x * 256 + y.
Proof.
  intros Hx Hy. unfold read_be16. change ((x :: y :: l) !!! 0%nat) with x. change ((x :: y :: l) !!! 1%nat) with y.
  rewrite lor_shiftl_8 by done. apply wrap_small. ints.
Qed.

Lemma needs_frame type data rest :
  sendable (type, data) ->
  needs_busy_reply (encode_frame type data ++ rest) = negb (quiet_frame type data) || needs_busy_reply rest.
Proof.
  intros (Hty & Hd & Hlen & Hsingle). cbn [fst snd] in *.
  destruct (encode_frame_shape type data Hlen Hty Hd) as (lh & ll & a & c & Hb & Hn & _ & He).
  pose proof (length_encode_frame type data) as Hfl. change (Z.to_nat frame_overhead) with 9%nat in Hfl.
  set (f := encode_frame type data) in *. set (d := f ++ rest).
  assert (length d = (length data + 9 + length rest)%nat) as Hdl by (subst d; rewrite length_app; lia).
  assert (forall fuel, (length rest <= fuel)%nat -> needs_from fuel d (6 + (length data + 3)) = needs_busy_reply rest) as Hrest.
  { intros fuel Hf. replace (6 + (length data + 3))%nat with (length f + 0)%nat by lia. unfold d. rewrite needs_shift.
    by apply needs_busy_reply_fuel. }
  unfold needs_busy_reply at 1. fold d. rewrite (needs_enough (length d) (S (length d)) d 0) by lia.
  cbn [needs_from]. split_bytes.
  assert (d = 0x86 :: 0x68 :: lh :: ll :: type :: data ++ [a; c; 0x55; 0xAA] ++ rest) as Hde.
  { subst d. rewrite He. cbn [app]. by rewrite <- app_assoc. }
  rewrite (proj2 (Nat.ltb_lt _ _)) by lia. cbn [negb]. rewrite drop_0.
  assert (read_be16 d = header) as -> by by rewrite Hde. rewrite Z.eqb_refl. cbn [negb].
  rewrite (proj2 (Nat.leb_gt _ _)) by lia.
  assert (read_be16 (drop (0 + 2) d) = Z.of_nat (length data) + 3) as -> by (rewrite Hde, <- Hn; by apply read_be16_pair).
  assert (d !!! (0 + 4)%nat = type) as -> by by rewrite Hde.
  replace (0 + 6 + Z.to_nat (Z.of_nat (length data) + 3))%nat with (6 + (length data + 3))%nat by lia.
  rewrite Hrest by lia. unfold quiet_frame.
  destruct (Z.eqb_spec type PTYPE_CTRL_SINGLE) as [Hs|Hs].
  - rewrite (proj2 (Nat.leb_gt _ _)) by lia.
    assert (d !!! (0 + 5)%nat = data !!! 0%nat) as ->.
    { rewrite Hde. destruct data; [by destruct Hsingle|done]. }
    by destruct (decode_control _).
  - destruct (type =? PTYPE_CTRL_MULTI).
    + rewrite (proj2 (Z.ltb_ge _ 3)), (proj2 (Z.ltb_ge _ _)) by lia. cbn [orb].
      assert (slice (0 + 5) (Z.to_nat (Z.of_nat (length data) + 3 - 3)) d = data) as ->.
      { rewrite Hde. apply (slice_app_exact [_; _; _; _; _]); [done|lia]. }
      by destruct (is_diagnostic_request data).
    + by destruct (type =? PTYPE_HEARTBEAT), (type =? PTYPE_RELAY), (type =? PTYPE_PRESENCE_REPLY), (type =? PTYPE_JOB_START_READY).
Qed.

(** On a read made of whole frames, whatever bytes their payloads and
    checksums hold, and whatever follows them, the answer is exactly whether one
    of them is a frame to answer, or what follows needs a reply: a payload or a
    checksum that looks like a header never counts. *)
Theorem busy_reply_needed frames rest :
  Forall sendable frames ->
  needs_busy_reply (concat (map (fun f => encode_frame f.1 f.2) frames) ++ rest) =
    existsb (fun f => negb (quiet_frame f.1 f.2)) frames || needs_busy_reply rest.
Proof.
  induction 1 as [|[type data] frames Hf Hfs IH]; [done|]. cbn [map concat existsb fst snd].
  rewrite <- app_assoc, needs_frame by done. by rewrite IH, orb_assoc.
Qed.
Lemma busy_reply_needed_witness :
  needs_busy_reply (concat (map (fun f => encode_frame f.1 f.2) [(PTYPE_HEARTBEAT, [0x86; 0x68; 0; 9; 0xB0]); (PTYPE_CTRL_SINGLE, [63])]) ++ [0x86]) = false.
Proof.
  rewrite (busy_reply_needed [(PTYPE_HEARTBEAT, [0x86; 0x68; 0; 9; 0xB0]); (PTYPE_CTRL_SINGLE, [63])] [0x86]); [by vm_compute|].
  repeat constructor; try (vm_compute; (done || (intros; discriminate))); concrete.
Defined.

(** ** How often one sender is answered *)
(** What the limiter remembers of [a]: whether a frame of its was answered, and
    when last. *)
Definition remembered (l : BusyReplyLimiter) (a : Address) : option (bool * Z) :=
  match list_find (fun e => en_address e = a) (entries_ l) with
  | Some (_, e) => Some (replied_to_frame e, last_frame_reply_us e)
  | None => None
  end.

Lemma reply_known_spec entries sender needs now :
  match list_find (fun e => en_address e = sender) entries with
  | None => reply_known entries sender needs now = None
  | Some (i, e) =>
      let quiet := negb needs || replied_to_frame e && (s32 (u32 (now - last_frame_reply_us e)) <? busy_reply_gap_us) in
      reply_known entries sender needs now =
        Some (if quiet then entries else <[i := mk_entry sender true now]> entries, negb quiet)
  end.
Proof.
  induction entries as [|e entries IH]; [done|]. cbn [list_find reply_known].
  destruct (decide (en_address e = sender)) as [He|He].
  - rewrite (proj2 (same_address_spec _ _) He). cbn [negb]. change (s32 busy_reply_gap_us) with busy_reply_gap_us.
    destruct needs; cbn [negb orb]; [|done]. destruct (replied_to_frame e && _); cbn [negb]; [done|].
    unfold set_field. cbn. by rewrite He.
  - destruct (same_address (en_address e) sender) eqn:Hs; [by apply same_address_spec in Hs|]. cbn [negb].
    destruct (list_find _ entries) as [[i d]|]; cbn; rewrite IH; [|done]. cbv zeta.
    by destruct (negb needs || _).
Qed.

(** One read: what is answered and what is remembered afterwards. While the
    limiter has room, nobody is forgotten. *)
Lemma should_reply_spec l sender needs notices now :
  let '(l', answered) := should_reply l sender needs notices now in
  answered = (match remembered l sender with
              | None => negb (notices && negb needs)
              | Some (replied, last) => needs && negb (replied && (s32 (u32 (now - last)) <? busy_reply_gap_us))
              end) /\
  (answered = true -> remembered l' sender = Some (needs, now) \/ (limiter_capacity <= length (entries_ l))%nat) /\
  (answered = false -> l' = l).
Proof.
  unfold should_reply, remembered. pose proof (reply_known_spec (entries_ l) sender needs now) as Hk.
  destruct (list_find _ (entries_ l)) as [[i e]|] eqn:Hf.
  - cbv zeta in Hk. destruct needs; cbn [negb andb orb] in *; rewrite ?andb_false_r, ?andb_true_r.
    + rewrite Hk. destruct (replied_to_frame e && _); cbn [negb]; [destruct l; done|]. split; [done|]. split; [|done].
      intros _. left. recs. apply list_find_Some in Hf as (Hi & He & Hfirst).
      assert (list_find (fun e => en_address e = sender) (<[i:=mk_entry sender true now]> (entries_ l)) = Some (i, mk_entry sender true now)) as ->; [|done].
      apply list_find_Some. split; [by rewrite list_lookup_insert_eq by (by eapply lookup_lt_Some)|]. split; [done|].
      intros j y Hj Hlt. rewrite list_lookup_insert_ne in Hj by lia. eauto.
    + destruct notices; [done|]. rewrite Hk. by destruct l.
  - rewrite Hk. destruct (notices && negb needs); [done|]. cbn [negb].
    destruct (Nat.ltb_spec (length (entries_ l)) limiter_capacity); (split; [done|]); (split; [|done]); intros _; [left|by right].
    recs. assert (list_find (fun e => en_address e = sender) (entries_ l ++ [mk_entry sender needs now]) = Some (length (entries_ l), mk_entry sender needs now)) as ->; [|done].
    apply list_find_Some. split; [by rewrite lookup_app_r, Nat.sub_diag|]. split; [done|].
    intros j y Hj Hlt. rewrite lookup_app_l in Hj by done. apply list_find_None in Hf. rewrite Forall_lookup in Hf. eauto.
Qed.
