(* ===== verification/ConsoleRx.v ===== *)
(** * Receiving console characters and bytes ([SerialConsole.cpp], [WifiProvider.cpp])

    What both links do with the characters they receive: in the text protocol
    the realtime characters act at once and the rest waits in a 256-byte ring
    until a line is complete; in the framed protocol the USB link's bytes wait in
    a 1024-byte ring that the receive interrupt fills and the main loop drains. *)
From S2P Require Import Prelude Ring RingBuffer ClientTable Hello.

(** [src/src/libs/StreamOutput.h:23-26] ProtocolMode *)
Inductive ProtocolMode := PROTOCOL_SMOOTHIE | PROTOCOL_MAKERA.
#[export] Instance ProtocolMode_eq_dec : EqDecision ProtocolMode. Proof. solve_decision. Defined.

(** The receive side of the USB link. [kernel] and [table] are the shared
    objects it sets.
    [src/src/modules/communication/SerialConsole.h:60-64] SerialConsole *)
Record SerialConsole := mk_console {
  sc_buffer : RingBuffer Z; previous_char : Z; query_flag : bool; halt_flag : bool;
  makera_rx_bytes : RingBuffer Z; makera_rx_overflow : bool; sc_last_activity_us : Z;
  kernel : KernelFlags; table : ClientTable
}.
#[export] Instance eta_SerialConsole : Eta SerialConsole := fun c =>
  mk_console (sc_buffer c) (previous_char c) (query_flag c) (halt_flag c) (makera_rx_bytes c)
    (makera_rx_overflow c) (sc_last_activity_us c) (kernel c) (table c).

(** A character of the text protocol, after the protocol test.
    [src/src/modules/communication/SerialConsole.cpp:241-290] SerialConsole::on_serial_char_received *)
Definition text_char (c : SerialConsole) (received now_us : Z) : SerialConsole :=
  let k := kernel c in
  if received =? 63 (* ? *) then c <| query_flag := true |>
  else if (previous_char c =? 63) && (received =? 49 (* 1 *)) then
    c <| query_flag := true |> <| kernel := k <| keep_alive_request := true |> |>
  else if received =? 24 (* ^X *) then c <| halt_flag := true |>
  else if received =? 25 (* ^Y *) then
    c <| kernel := if internal_stop_request k then k <| internal_stop_request := false |>
                   else k <| stop_request := true |> <| stop_request_time := now_us |> |>
  else if received =? 26 (* ^Z *) then c <| kernel := k <| keep_alive_request := true |> |>
  else
    let at_line_start := (rb_head (sc_buffer c) =? rb_tail (sc_buffer c)) || (previous_char c =? 10)
                         || (previous_char c =? 13) in
    if enable_feed_hold k && at_line_start && (received =? 33 (* ! *)) then
      c <| kernel := k <| feed_hold := true |> |>
    else if enable_feed_hold k && at_line_start && (received =? 126 (* ~ *)) then
      c <| kernel := k <| feed_hold := false |> |>
    else
      let received := if received =? 13 then 10 else received in
      c <| sc_buffer := push_back (sc_buffer c) received |> <| previous_char := received |>.

(** A byte of the framed protocol.
    [src/src/modules/communication/SerialConsole.cpp:227-239] SerialConsole::on_serial_char_received *)
Definition makera_byte (c : SerialConsole) (received now_us : Z) : SerialConsole :=
  let c := c <| table := start_usb_hello_window (table c) now_us |> in
  let next := next_block_index (makera_rx_bytes c) (rb_head (makera_rx_bytes c)) in
  if next =? rb_tail (makera_rx_bytes c) then c <| makera_rx_overflow := true |>
  else c <| makera_rx_bytes := push_back (makera_rx_bytes c) received |>.

(** One turn of the loop: a byte was there at [now_us].
    [src/src/modules/communication/SerialConsole.cpp:218-239] SerialConsole::on_serial_char_received *)
Definition receive_byte (communication_protocol : ProtocolMode) (cachewait : bool)
    (c : SerialConsole) (received now_us : Z) : SerialConsole :=
  let c := c <| sc_last_activity_us := now_us |> in
  if cachewait then c
  else if bool_decide (communication_protocol = PROTOCOL_MAKERA) then makera_byte c received now_us
  else text_char c received now_us.

(** [received] are the bytes [read_byte] returns, with the time of each.
    [src/src/modules/communication/SerialConsole.cpp:217-292] SerialConsole::on_serial_char_received *)
Definition on_serial_char_received (communication_protocol : ProtocolMode) (cachewait : bool)
    (c : SerialConsole) (received : list (Z * Z)) : SerialConsole :=
  fold_left (fun c b => receive_byte communication_protocol cachewait c (fst b) (snd b)) received c.

(** The receive side of what [on_protocol_changed] resets.
    [src/src/modules/communication/SerialConsole.cpp:1116-1139] SerialConsole::on_protocol_changed *)
Definition on_protocol_changed (c : SerialConsole) : SerialConsole :=
  c <| sc_buffer := discard (sc_buffer c) |> <| previous_char := 0 |> <| query_flag := false |>
    <| halt_flag := false |> <| makera_rx_overflow := false |>
    <| makera_rx_bytes := discard (makera_rx_bytes c) |> <| table := clear_usb_identity (table c) |>.

(** ** The WiFi link's text characters *)

(** [src/src/modules/utils/wifi/WifiProvider.h:232-234] WifiProvider *)
Record WifiText := mk_wifi_text {
  wt_buffer : RingBuffer Z; wt_query_flag : bool; wt_halt_flag : bool; wt_kernel : KernelFlags
}.
#[export] Instance eta_WifiText : Eta WifiText := fun w =>
  mk_wifi_text (wt_buffer w) (wt_query_flag w) (wt_halt_flag w) (wt_kernel w).

(** The line start the WiFi link looks for, in its own ring.
    [src/src/modules/utils/wifi/WifiProvider.cpp:299-304] WifiProvider::receive_wifi_data *)
Definition at_line_start (r : RingBuffer Z) : bool :=
  if rb_head r =? rb_tail r then true
  else let last := rb_buffer r !!! Z.to_nat (prev_block_index r (rb_head r)) in (last =? 10) || (last =? 13).

(** A character that is not [?].
    [src/src/modules/utils/wifi/WifiProvider.cpp:287-321] WifiProvider::receive_wifi_data *)
Definition wifi_char (w : WifiText) (received : Z) : WifiText :=
  let k := wt_kernel w in
  if received =? 24 then w <| wt_halt_flag := true |>
  else if received =? 25 then w <| wt_kernel := k <| stop_request := true |> |>
  else if received =? 26 then w <| wt_kernel := k <| keep_alive_request := true |> |>
  else
    let start := at_line_start (wt_buffer w) in
    if enable_feed_hold k && start && (received =? 33) then w <| wt_kernel := k <| feed_hold := true |> |>
    else if enable_feed_hold k && start && (received =? 126) then w <| wt_kernel := k <| feed_hold := false |> |>
    else w <| wt_buffer := push_back (wt_buffer w) (if received =? 13 then 10 else received) |>.

(** The loop over one read of the module, [WifiData[0 .. received)].
    [src/src/modules/utils/wifi/WifiProvider.cpp:266-322] WifiProvider::receive_wifi_data *)
Fixpoint wifi_chars (cachewait : bool) (w : WifiText) (WifiData : list Z) : WifiText :=
  match WifiData with
  | [] => w
  | b :: rest =>
      if cachewait then wifi_chars cachewait w rest
      else if b =? 63 then
        match rest with
        | b1 :: rest1 =>
            if b1 =? 49 then
              wifi_chars cachewait
                (w <| wt_query_flag := true |> <| wt_kernel := (wt_kernel w) <| keep_alive_request := true |> |>) rest1
            else wifi_chars cachewait (w <| wt_query_flag := true |>) rest
        | [] => w <| wt_query_flag := true |>
        end
      else wifi_chars cachewait (wifi_char w b) rest
  end.

(** ** Taking a line out, on both links *)

(** The array's length bounds the turns of the scan ([has_char_spec]).
    [src/src/modules/communication/SerialConsole.cpp:1203-1212] SerialConsole::has_char *)
Fixpoint has_char_from (fuel : nat) (r : RingBuffer Z) (letter index : Z) : bool :=
  match fuel with
  | O => false
  | S fuel =>
      if index =? rb_head r then false
      else if rb_buffer r !!! Z.to_nat index =? letter then true
      else has_char_from fuel r letter (next_block_index r index)
  end.
(** [src/src/modules/utils/wifi/WifiProvider.cpp:2211-2220] WifiProvider::has_char *)
Definition has_char (r : RingBuffer Z) (letter : Z) : bool :=
  has_char_from (length (rb_buffer r)) r letter (rb_tail r).

(** The popping loop: [None] when it has not met a line end after [fuel] turns.
    [src/src/modules/communication/SerialConsole.cpp:599-613] SerialConsole::on_main_loop *)
Fixpoint pop_line (fuel : nat) (r : RingBuffer Z) (received : list Z) : option (RingBuffer Z * list Z) :=
  match fuel with
  | O => None
  | S fuel =>
      let '(r, ch) := pop_front r in
      if ch =? 10 then Some (r, received) else pop_line fuel r (received ++ [ch])
  end.
(** The line dispatched, if one is complete.
    [src/src/modules/communication/SerialConsole.cpp:596-614] SerialConsole::on_main_loop *)
Definition take_line (r : RingBuffer Z) : RingBuffer Z * option (list Z) :=
  if has_char r 10 then
    match pop_line (length (rb_buffer r)) r [] with
    | Some (r, line) => (r, Some line)
    | None => (r, None)
    end
  else (r, None).

(** ** Lines *)

Lemma has_char_from_tail fuel r letter i t :
  has_char_from fuel (r <| rb_tail := t |>) letter i = has_char_from fuel r letter i.
Proof.
  revert i. induction fuel as [|fuel IH]; intros i; [done|]. cbn [has_char_from]. recs.
  by rewrite IH.
Qed.

Lemma has_char_from_spec xs fuel r letter :
  holds r xs -> (length xs < fuel)%nat -> has_char_from fuel r letter (rb_tail r) = bool_decide (letter ∈ xs).
Proof.
  revert fuel r. induction xs as [|x xs IH]; intros fuel r Hr Hf; destruct fuel as [|fuel]; cbn [length] in Hf; try lia;
    cbn [has_char_from].
  - apply holds_empty_iff in Hr as He. rewrite (proj2 He) by done. by rewrite Z.eqb_refl.
  - destruct (Z.eqb_spec (rb_tail r) (rb_head r)) as [He|_]; [by apply (holds_empty_iff r (x :: xs)) in He|].
    destruct (pop_front_holds r x xs Hr) as [Hx Hr']. cbn [snd pop_front] in Hx. rewrite Hx.
    destruct (Z.eqb_spec x letter) as [->|].
    + symmetry. apply bool_decide_eq_true. left.
    + rewrite next_block_index_masked by apply Hr. specialize (IH fuel _ Hr' ltac:(lia)).
      cbn [fst pop_front] in IH. rewrite has_char_from_tail in IH. recs. rewrite IH.
      apply bool_decide_ext. rewrite elem_of_cons. split; [by right|by intros [->|]].
Qed.

Lemma holds_fits `{Inhabited A} (r : RingBuffer A) xs : holds r xs -> (length xs < length (rb_buffer r))%nat.
Proof. intros ((_ & ? & ?) & _ & Hc & _). unfold capacity, rb_length in *. lia. Qed.

Lemma has_char_spec r xs letter : holds r xs -> has_char r letter = bool_decide (letter ∈ xs).
Proof. intros Hr. apply has_char_from_spec; [done|]. by apply holds_fits. Qed.

Lemma pop_line_spec line rest fuel r acc :
  holds r (line ++ 10 :: rest) -> 10 ∉ line -> (length line < fuel)%nat ->
  exists r', pop_line fuel r acc = Some (r', acc ++ line) /\ holds r' rest /\ length (rb_buffer r') = length (rb_buffer r).
Proof.
  revert fuel r acc. induction line as [|x line IH]; intros fuel r acc Hr Hn Hf; destruct fuel as [|fuel]; cbn [length] in Hf; try lia.
  - destruct (pop_front_holds _ _ _ Hr) as [Hx Hr']. exists (fst (pop_front r)). cbn [pop_line].
    destruct (pop_front r) as [r' ch] eqn:E. cbn [fst snd] in *. subst ch. rewrite app_nil_r.
    unfold pop_front in E. injection E as <- _. by split_and!.
  - destruct (pop_front_holds _ _ _ Hr) as [Hx Hr']. cbn [pop_line].
    destruct (pop_front r) as [r' ch] eqn:E. cbn [fst snd] in *. subst ch.
    apply not_elem_of_cons in Hn as [Hx Hn]. destruct (Z.eqb_spec x 10); [congruence|].
    destruct (IH fuel r' (acc ++ [x]) Hr' Hn ltac:(lia)) as (r2 & -> & Hr2 & Hl). exists r2.
    rewrite <- app_assoc. unfold pop_front in E. injection E as <- _. by split_and!.
Qed.

(** The first line end splits what is held. *)
Lemma split_line (xs : list Z) : 10 ∈ xs -> exists line rest, xs = line ++ 10 :: rest /\ 10 ∉ line.
Proof.
  induction xs as [|x xs IH]; intros Hin; [by apply not_elem_of_nil in Hin|].
  destruct (decide (x = 10)) as [->|Hx]; [exists [], xs; split; [done|apply not_elem_of_nil]|].
  apply elem_of_cons in Hin as [Hin|Hin]; [congruence|]. destruct (IH Hin) as (line & rest & -> & Hn).
  exists (x :: line), rest. split; [done|]. by apply not_elem_of_cons.
Qed.

(** A line is taken exactly when one is complete, and it is the oldest. *)
Lemma take_line_spec r xs :
  holds r xs ->
  (10 ∉ xs -> take_line r = (r, None)) /\
  (forall line rest, xs = line ++ 10 :: rest -> 10 ∉ line ->
     exists r', take_line r = (r', Some line) /\ holds r' rest /\ length (rb_buffer r') = length (rb_buffer r)).
Proof.
  intros Hr. unfold take_line. rewrite (has_char_spec r xs 10 Hr). split.
  - intros Hn. by rewrite bool_decide_false.
  - intros line rest -> Hn. rewrite bool_decide_true by (apply elem_of_app; right; left).
    pose proof (holds_fits r _ Hr) as Hf. rewrite length_app in Hf.
    destruct (pop_line_spec line rest (length (rb_buffer r)) r [] Hr Hn ltac:(lia)) as (r' & -> & Hr' & Hl).
    by exists r'.
Qed.

(** ** Pushing without looking for room *)

(** Every time a push finds the ring full, all it holds is gone: of all that was
    ever pushed, what is left starts at a multiple of the array's size. *)
Lemma push_all_holds (ys : list Z) (r : RingBuffer Z) xs :
  holds r xs ->
  holds (fold_left push_back ys r)
    (drop (length (rb_buffer r) * ((length xs + length ys) / length (rb_buffer r))) (xs ++ ys)) /\
  length (rb_buffer (fold_left push_back ys r)) = length (rb_buffer r).
Proof.
  revert r xs. induction ys as [|y ys IH]; intros r xs Hr.
  - pose proof (holds_fits r xs Hr). cbn [fold_left length]. rewrite Nat.add_0_r, app_nil_r.
    rewrite Nat.div_small, Nat.mul_0_r by done. done.
  - pose proof (holds_fits r xs Hr) as Hf. set (n := length (rb_buffer r)) in *.
    assert (Hn : length (rb_buffer (push_back r y)) = n) by apply length_insert.
    cbn [fold_left length]. destruct (decide (length xs + 1 = n)%nat) as [Hfull|Hroom].
    + destruct (IH (push_back r y) []) as [H Hl].
      { apply push_back_full with xs; [done|]. unfold capacity, rb_length. fold n. lia. }
      rewrite Hn in *. split; [|done]. cbn [length app Nat.add] in H.
      replace (drop (n * ((length xs + S (length ys)) / n)) (xs ++ y :: ys))
        with (drop (n * (length ys / n)) ys); [done|].
      replace (length xs + S (length ys))%nat with (length ys + 1 * n)%nat by lia.
      rewrite Nat.div_add by lia.
      change (y :: ys) with ([y] ++ ys). rewrite app_assoc.
      replace (n * (length ys / n + 1))%nat with (length (xs ++ [y]) + n * (length ys / n))%nat
        by (rewrite length_app; cbn [length]; lia).
      by rewrite <- drop_drop, drop_app_length.
    + destruct (IH (push_back r y) (xs ++ [y])) as [H Hl].
      { apply push_back_holds; [done|]. unfold capacity, rb_length. fold n. lia. }
      rewrite Hn in *. split; [|done]. rewrite length_app in H. cbn [length] in H.
      rewrite <- app_assoc in H. cbn [app] in H. by rewrite <- Nat.add_assoc in H.
Qed.

(** ** Text lines over USB *)

(** Neither a realtime character nor one of the two that pause and resume. *)
Definition ordinary (b : Z) : Prop := b ∉ [63; 24; 25; 26; 33; 126].
#[export] Instance ordinary_dec b : Decision (ordinary b). Proof. unfold ordinary. apply _. Defined.
Definition as_stored (b : Z) : Z := if b =? 13 then 10 else b.

Lemma ordinary_eqb b : ordinary b ->
  (b =? 63) = false /\ (b =? 24) = false /\ (b =? 25) = false /\ (b =? 26) = false /\ (b =? 33) = false /\ (b =? 126) = false.
Proof. unfold ordinary. rewrite !not_elem_of_cons. intros. split_and!; apply Z.eqb_neq; tauto. Qed.

Lemma text_char_ordinary c b now :
  ordinary b -> previous_char c <> 63 ->
  text_char c b now = c <| sc_buffer := push_back (sc_buffer c) (as_stored b) |> <| previous_char := as_stored b |>.
Proof.
  intros Hb Hp. apply ordinary_eqb in Hb as (H1 & H2 & H3 & H4 & H5 & H6). apply Z.eqb_neq in Hp.
  unfold text_char. cbv zeta. by rewrite H1, H2, H3, H4, H5, H6, Hp, !andb_false_r.
Qed.

(** The character remembered is never a question mark: it is taken before. *)
Lemma receive_byte_previous p cw c b now : previous_char c <> 63 -> previous_char (receive_byte p cw c b now) <> 63.
Proof.
  intros Hp. unfold receive_byte, makera_byte, text_char. cbv zeta.
  repeat match goal with |- context [if ?x then _ else _] => destruct x eqn:? end; recs; try done.
  all: apply Z.eqb_neq; by try done.
Qed.
Lemma received_previous p cw c bs : previous_char c <> 63 -> previous_char (on_serial_char_received p cw c bs) <> 63.
Proof.
  revert c. induction bs as [|b bs IH]; intros c Hp; [done|].
  change (previous_char (on_serial_char_received p cw (receive_byte p cw c (fst b) (snd b)) bs) <> 63).
  by apply IH, receive_byte_previous.
Qed.

Lemma received_ordinary c bs :
  previous_char c <> 63 -> Forall ordinary (map fst bs) ->
  sc_buffer (on_serial_char_received PROTOCOL_SMOOTHIE false c bs) =
    fold_left push_back (map as_stored (map fst bs)) (sc_buffer c).
Proof.
  revert c. induction bs as [|b bs IH]; intros c Hp Ho; [done|]. cbn [map] in *.
  apply Forall_cons_iff in Ho as [Hb Ho].
  change (sc_buffer (on_serial_char_received PROTOCOL_SMOOTHIE false
            (text_char (c <| sc_last_activity_us := snd b |>) (fst b) (snd b)) bs)
          = fold_left push_back (map as_stored (map fst bs)) (push_back (sc_buffer c) (as_stored (fst b)))).
  assert (Hp' : previous_char (c <| sc_last_activity_us := snd b |>) <> 63) by done.
  rewrite IH; [|by apply (receive_byte_previous PROTOCOL_SMOOTHIE false c)|done].
  by rewrite text_char_ordinary.
Qed.

(** The lines a ring hands out, one [take_line] after the other. *)
Fixpoint take_lines (fuel : nat) (r : RingBuffer Z) : list (list Z) :=
  match fuel with
  | O => []
  | S fuel => match take_line r with (r, Some line) => line :: take_lines fuel r | (_, None) => [] end
  end.

Definition stored_lines (ls : list (list Z)) : list Z := concat (map (fun l => l ++ [10]) ls).

Lemma take_lines_spec ls r fuel :
  holds r (stored_lines ls) -> Forall (fun l => 10 ∉ l) ls -> (length ls <= fuel)%nat ->
  take_lines fuel r = ls.
Proof.
  revert r fuel. induction ls as [|l ls IH]; intros r fuel Hr Hn Hf.
  - destruct fuel as [|fuel]; [done|]. cbn [take_lines].
    destruct (take_line_spec r _ Hr) as [H _]. by rewrite H by apply not_elem_of_nil.
  - destruct fuel as [|fuel]; cbn [length] in Hf; [lia|]. cbn [take_lines].
    apply Forall_cons_iff in Hn as [Hl Hn].
    destruct (take_line_spec r _ Hr) as [_ H].
    destruct (H l (stored_lines ls)) as (r' & -> & Hr' & _); [by unfold stored_lines; cbn; rewrite <- app_assoc|done|].
    f_equal. apply IH; [done|done|lia].
Qed.

(** A line as it is sent, with the line end of its sender. *)
Definition sent_line (l : list Z * Z) : list Z := fst l ++ [snd l].
Definition line_sendable (l : list Z * Z) : Prop :=
  Forall (fun b => ordinary b /\ b <> 10 /\ b <> 13) (fst l) /\ (snd l = 10 \/ snd l = 13).
#[export] Instance line_sendable_dec l : Decision (line_sendable l). Proof. unfold line_sendable. apply _. Defined.

Lemma sent_lines_stored ls :
  Forall line_sendable ls ->
  map as_stored (concat (map sent_line ls)) = stored_lines (map fst ls) /\
  Forall ordinary (concat (map sent_line ls)) /\ Forall (fun l => 10 ∉ l) (map fst ls).
Proof.
  induction 1 as [|[l e] ls [Hl He] Hls (IH1 & IH2 & IH3)]; [done|]. cbn [fst snd] in *.
  assert (Hm : map as_stored l = l).
  { clear -Hl. induction Hl as [|b l (_ & _ & Hb) _ IH]; [done|]. cbn [map]. rewrite IH.
    unfold as_stored. apply Z.eqb_neq in Hb. by rewrite Hb. }
  split_and!.
  - unfold stored_lines in *. cbn [map concat fst]. unfold sent_line at 1. cbn [fst snd].
    rewrite !map_app, IH1, Hm. cbn [map]. do 3 f_equal. by destruct He as [-> | ->].
  - cbn [map concat]. unfold sent_line at 1. cbn [fst snd]. apply Forall_app_2; [|done].
    apply Forall_app_2; [clear -Hl; by induction Hl as [|? ? [] ]; constructor|].
    apply Forall_singleton. destruct He as [-> | ->]; concrete.
  - constructor; [|done]. cbn [fst]. intros Hin. by destruct (proj1 (list.Forall_forall _ _) Hl 10 Hin) as (_ & ? & _).
Qed.

(** Text lines survive the USB link. Lines without realtime characters, each
    ended by a carriage return or a line feed, that fit the receive ring, are
    handed to the main loop whole, in order, without their line ends, and nothing
    more is handed out. *)
Theorem console_lines_roundtrip c ls bs :
  holds (sc_buffer c) [] -> previous_char c <> 63 ->
  Forall line_sendable ls -> map fst bs = concat (map sent_line ls) ->
  Z.of_nat (length bs) <= capacity (sc_buffer c) ->
  take_lines (S (length ls)) (sc_buffer (on_serial_char_received PROTOCOL_SMOOTHIE false c bs)) = map fst ls.
Proof.
  intros Hr Hp Hls Hbs Hfit. destruct (sent_lines_stored ls Hls) as (Hst & Ho & Hn).
  rewrite received_ordinary by (done || by rewrite Hbs). rewrite Hbs, Hst.
  destruct (push_all_holds (stored_lines (map fst ls)) _ _ Hr) as [Hh _].
  rewrite Nat.div_small, Nat.mul_0_r in Hh.
  - apply take_lines_spec; [done|done|]. rewrite length_map. lia.
  - rewrite <- Hst, <- Hbs, !length_map. unfold capacity, rb_length in Hfit. cbn. pose proof (holds_fits _ _ Hr). lia.
Qed.

(** The keep-alive pattern [?1] of the text protocol is never seen on USB: the
    question mark is not remembered, so the 1 that follows is kept as text. The
    same two characters over WiFi ask for the keep-alive and leave no text. *)
Theorem usb_question_one_is_text c t1 t2 w :
  previous_char c <> 63 ->
  let c' := on_serial_char_received PROTOCOL_SMOOTHIE false c [(63, t1); (49, t2)] in
  kernel c' = kernel c /\ sc_buffer c' = push_back (sc_buffer c) 49 /\
  let w' := wifi_chars false w [63; 49] in
  keep_alive_request (wt_kernel w') = true /\ wt_buffer w' = wt_buffer w.
Proof.
  intros Hp. cbv zeta. split_and!; [| |done..].
  all: change (on_serial_char_received PROTOCOL_SMOOTHIE false c [(63, t1); (49, t2)])
    with (text_char ((c <| sc_last_activity_us := t1 |> <| query_flag := true |>) <| sc_last_activity_us := t2 |>) 49 t2).
  all: by rewrite text_char_ordinary by (concrete || done).
Qed.

(** The realtime characters of the USB text protocol do what the framed
    protocol's control bytes do, and are not kept as text. *)
Theorem usb_realtime_as_framed c b now :
  b ∈ [63; 24; 25; 26] ->
  let c' := text_char c b now in
  kernel c' = fst (handle_control (kernel c) b now) /\ sc_buffer c' = sc_buffer c /\
  (snd (handle_control (kernel c) b now) = ca_query -> query_flag c' = true) /\
  (snd (handle_control (kernel c) b now) = ca_halt -> halt_flag c' = true).
Proof.
  rewrite !elem_of_cons. intros [->|[->|[->|[->|Hf]]]]; [..|by apply elem_of_nil in Hf].
  all: unfold text_char, handle_control; cbn [Z.eqb Pos.eqb decode_control andb fst snd]; cbv zeta;
    rewrite ?andb_false_r; split_and!; done.
Qed.

(** Over WiFi a stop request is set without its time, and an internal one stays:
    what the framed protocol and USB do both about it is not done. *)
Theorem wifi_text_stop_untimed w now :
  let k := wt_kernel (wifi_char w 25) in
  stop_request k = true /\ stop_request_time k = stop_request_time (wt_kernel w) /\
  internal_stop_request k = internal_stop_request (wt_kernel w) /\
  (stop_request_time (wt_kernel w) <> now \/ internal_stop_request (wt_kernel w) = true ->
   k <> fst (handle_control (wt_kernel w) 25 now)).
Proof.
  cbv zeta. unfold wifi_char, handle_control. cbn [Z.eqb Pos.eqb decode_control fst]. recs.
  split_and!; [done..|]. destruct (wt_kernel w) as [[] sr st ka fe fh]; unfold set_field; cbn; intros [|] [=]; congruence.
Qed.

Lemma wifi_chars_ordinary w ys :
  Forall ordinary ys ->
  wifi_chars false w ys = w <| wt_buffer := fold_left push_back (map as_stored ys) (wt_buffer w) |>.
Proof.
  revert w. induction ys as [|y ys IH]; intros w Hy; [by destruct w|].
  apply Forall_cons_iff in Hy as [Hy Hys]. apply ordinary_eqb in Hy as (H1 & H2 & H3 & H4 & H5 & H6).
  cbn [wifi_chars map fold_left]. rewrite H1, IH by done. unfold wifi_char. cbv zeta.
  rewrite H2, H3, H4, H5, H6, !andb_false_r. by destruct w.
Qed.

(** What a read of the WiFi module leaves in the 256-character ring of the
    text protocol. A chunk is kept whole when it fits; whenever it fills the ring,
    everything held so far is lost, so only what follows the last multiple of the
    ring's size is left (a read may bring 1460 characters). *)
Theorem wifi_text_chunk_kept w xs ys :
  holds (wt_buffer w) xs -> Forall ordinary ys ->
  let n := length (rb_buffer (wt_buffer w)) in
  holds (wt_buffer (wifi_chars false w ys)) (drop (n * ((length xs + length ys) / n)) (xs ++ map as_stored ys)) /\
  wt_kernel (wifi_chars false w ys) = wt_kernel w.
Proof.
  intros Hw Hy. cbv zeta. rewrite wifi_chars_ordinary by done. recs. split; [|done].
  destruct (push_all_holds (map as_stored ys) _ _ Hw) as [H _]. by rewrite length_map in H.
Qed.

Definition empty_ring (n : nat) : RingBuffer Z := new_ring (repeat 0 n).
Lemma empty_ring_holds n w : 0 <= w -> Z.of_nat n = 2 ^ w -> holds (empty_ring n) [].
Proof. intros. apply holds_new with w; [done|]. by rewrite repeat_length. Qed.

Definition no_flags : KernelFlags := mk_flags false false 0 false false false.

(** 300 characters into the 256-character ring: 44 are left. *)
Lemma wifi_text_chunk_kept_witness :
  let w := mk_wifi_text (empty_ring 256) false false no_flags in
  holds (wt_buffer (wifi_chars false w (repeat 65 300))) (repeat 65 44).
Proof.
  exact (proj1 (wifi_text_chunk_kept (mk_wifi_text (empty_ring 256) false false no_flags) [] (repeat 65 300)
    (empty_ring_holds 256 8 ltac:(lia) eq_refl) ltac:(concrete))).
Defined.

(** The USB console before anything has arrived. *)
Definition new_console (t : ClientTable) (k : KernelFlags) : SerialConsole :=
  mk_console (empty_ring 256) 0 false false (empty_ring 1024) false 0 k t.

Lemma console_lines_roundtrip_witness :
  let ls := [(chars "G0 X1", 10); ([], 13); (chars "M5", 13)] in
  let bs := map (fun b => (b, 0)) (concat (map sent_line ls)) in
  take_lines 4 (sc_buffer (on_serial_char_received PROTOCOL_SMOOTHIE false (new_console new_table no_flags) bs))
  = [chars "G0 X1"; []; chars "M5"].
Proof.
  cbv zeta. apply (console_lines_roundtrip (new_console new_table no_flags)
    [(chars "G0 X1", 10); ([], 13); (chars "M5", 13)]).
  - by apply (empty_ring_holds 256 8).
  - done.
  - concrete.
  - rewrite map_map. apply map_id.
  - vm_compute. discriminate.
Defined.

(** ** The receive interrupt and the main loop

    The framed protocol's bytes are put in by the receive interrupt and taken out
    by the main loop, which reads the slot and then moves the tail: an interrupt
    may come in between. [in_hand] is the byte read and not yet let go, [arrived]
    all the interrupt was given, [taken] all the main loop took. *)
Record RxRun := mk_run { run_console : SerialConsole; in_hand : option Z; arrived : list Z; taken : list Z }.

Inductive rx_step : RxRun -> RxRun -> Prop :=
| rx_interrupt c h arr tk b now :
    rx_step (mk_run c h arr tk) (mk_run (receive_byte PROTOCOL_MAKERA false c b now) h (arr ++ [b]) tk)
| rx_read c arr tk :
    rb_tail (makera_rx_bytes c) <> rb_head (makera_rx_bytes c) ->
    rx_step (mk_run c None arr tk) (mk_run c (Some (snd (pop_front (makera_rx_bytes c)))) arr tk)
| rx_advance c v arr tk :
    rx_step (mk_run c (Some v) arr tk)
      (mk_run (c <| makera_rx_bytes := fst (pop_front (makera_rx_bytes c)) |>) None arr (tk ++ [v])).

Definition rx_inv (s : RxRun) : Prop :=
  exists pending, holds (makera_rx_bytes (run_console s)) pending /\
    taken s ++ pending `sublist_of` arrived s /\
    (makera_rx_overflow (run_console s) = false -> taken s ++ pending = arrived s) /\
    (forall v, in_hand s = Some v -> exists rest, pending = v :: rest).

(** What the interrupt does to the ring: append, or raise the flag. *)
Lemma interrupt_ring c b now pending :
  holds (makera_rx_bytes c) pending ->
  let c' := receive_byte PROTOCOL_MAKERA false c b now in
  (Z.of_nat (length pending) = capacity (makera_rx_bytes c) /\
     makera_rx_bytes c' = makera_rx_bytes c /\ makera_rx_overflow c' = true) \/
  (holds (makera_rx_bytes c') (pending ++ [b]) /\ makera_rx_overflow c' = makera_rx_overflow c).
Proof.
  intros Hp. pose proof (holds_full_iff _ _ Hp) as Hf. cbv zeta.
  unfold receive_byte, makera_byte. decides. cbv zeta. recs.
  destruct (Z.eqb_spec (next_block_index (makera_rx_bytes c) (rb_head (makera_rx_bytes c))) (rb_tail (makera_rx_bytes c)));
    recs; [left; tauto|right].
  split; [|done]. apply push_back_holds; [done|]. destruct Hp as (_ & _ & Hc & _). lia.
Qed.

Lemma rx_inv_step s s' : rx_inv s -> rx_step s s' -> rx_inv s'.
Proof.
  intros (pending & Hp & Hsub & Heq & Hh) Hstep.
  destruct Hstep as [c h arr tk b now|c arr tk Hne|c v arr tk]; unfold rx_inv; cbn [run_console in_hand arrived taken] in *.
  - destruct (interrupt_ring c b now pending Hp) as [(_ & Hr & Ho)|(Hr & Ho)].
    + exists pending. rewrite Hr, Ho. split_and!; [done| |done|done]. by apply sublist_inserts_r.
    + exists (pending ++ [b]). rewrite Ho, app_assoc. split_and!; [done| | |].
      * by apply sublist_app.
      * intros Hov. by rewrite Heq.
      * intros v Hv. destruct (Hh v Hv) as [rest ->]. by exists (rest ++ [b]).
  - exists pending. split_and!; [done..|]. intros v [= <-].
    destruct pending as [|x rest]; [by rewrite (proj2 (holds_empty_iff _ _ Hp)) in Hne|].
    exists rest. f_equal. symmetry. apply (pop_front_holds _ _ _ Hp).
  - destruct (Hh v eq_refl) as [rest ->]. exists rest. recs. rewrite <- app_assoc. cbn [app].
    split_and!; [by apply (pop_front_holds _ _ _ Hp)|done..].
Qed.

(** No byte of the framed protocol is lost unnoticed, duplicated or reordered
    between the receive interrupt and the main loop, wherever the interrupt comes
    in: what the main loop took, followed by what still waits, is what arrived
    with at most some bytes dropped, and exactly what arrived as long as
    [makera_rx_overflow] was not raised. The byte in the main loop's hand is the
    oldest. *)
Theorem makera_bytes_in_order c s :
  holds (makera_rx_bytes c) [] -> makera_rx_overflow c = false ->
  star rx_step (mk_run c None [] []) s ->
  exists pending, holds (makera_rx_bytes (run_console s)) pending /\
    taken s ++ pending `sublist_of` arrived s /\
    (makera_rx_overflow (run_console s) = false -> taken s ++ pending = arrived s) /\
    (forall v, in_hand s = Some v -> exists rest, pending = v :: rest).
Proof.
  intros Hc Ho Hs. apply (star_invariant _ rx_inv _ _ rx_inv_step Hs).
  exists []. cbn [run_console in_hand arrived taken]. by split_and!.
Qed.

(** Two bytes arrive, one of them between the two halves of a pop. *)
Lemma makera_bytes_in_order_witness :
  exists s, star rx_step (mk_run (new_console new_table no_flags) None [] []) s /\
    arrived s = [134; 104] /\ taken s = [134] /\
    exists pending, holds (makera_rx_bytes (run_console s)) pending /\ [134] ++ pending `sublist_of` [134; 104] /\
      [134] ++ pending = [134; 104].
Proof.
  assert (Hs : exists s, star rx_step (mk_run (new_console new_table no_flags) None [] []) s /\
    arrived s = [134; 104] /\ taken s = [134] /\ makera_rx_overflow (run_console s) = false).
  { eexists. split; [|split; [|split]].
    - eapply star_step; [eapply star_step; [eapply star_step; [eapply star_step; [apply star_refl|]|]|]|].
      + apply (rx_interrupt _ _ _ _ 134 7).
      + apply rx_read. vm_compute. discriminate.
      + apply (rx_interrupt _ _ _ _ 104 8).
      + apply rx_advance.
    - reflexivity.
    - vm_compute. reflexivity.
    - vm_compute. reflexivity. }
  destruct Hs as (s & Hs & Ha & Ht & Ho). exists s.
  destruct (makera_bytes_in_order (new_console new_table no_flags) s (empty_ring_holds 1024 10 ltac:(lia) eq_refl) eq_refl Hs) as (p & H1 & H2 & H3 & _).
  specialize (H3 Ho). rewrite Ha, Ht in *. eauto 10.
Defined.
