(* ===== verification/JobBuffer.v ===== *)
(** * The streamed job buffer ([src/src/modules/utils/player/PlayerLineSources.h],
    [PlayerLineSources.cpp])

    A machine without a file system plays a job that a controller streams to it:
    lines arrive in packets, wait in a ring of twenty lines and are read by the
    player one by one. Here are the ring's class and the theorem that it is a
    queue of the lines sent. The player's side of the stream is in
    [JobStream]. *)
From S2P Require Import Prelude Ring.

(** [src/src/modules/utils/player/PlayerLineSources.h:7-7] LineReadResult *)
Inductive LineReadResult := lr_data | lr_waiting | lr_end | lr_error.
(** [src/src/modules/utils/player/PlayerLineSources.h:26-26] StreamedJobBuffer::line_capacity *)
Definition line_capacity : Z := 130.
(** [src/src/modules/utils/player/PlayerLineSources.h:28-31] StreamedJobBuffer::Line *)
Record Line := mk_line { text : list Z; length_ : Z }.
(** [src/src/modules/utils/player/PlayerLineSources.h:33-41] StreamedJobBuffer::AppendResult *)
Inductive AppendResult :=
| ar_success | ar_wrong_file | ar_unexpected_line | ar_line_too_long | ar_queue_full | ar_not_receiving | ar_invalid_data.
#[export] Instance Line_inhabited : Inhabited Line := populate (mk_line [] 0).

(** [src/src/modules/utils/player/PlayerLineSources.h:60-70] StreamedJobBuffer *)
Record StreamedJobBuffer := mk_job_buffer {
  storage_ : list Line; capacity_ : nat; head_ : nat; tail_ : nat; count_ : nat;
  filename_crc_ : Z; consumed_bytes_ : Z; next_expected_line_ : Z; open_ : bool; eof_ : bool
}.
#[export] Instance eta_job_buffer : Eta StreamedJobBuffer := fun b =>
  mk_job_buffer (storage_ b) (capacity_ b) (head_ b) (tail_ b) (count_ b) (filename_crc_ b) (consumed_bytes_ b)
    (next_expected_line_ b) (open_ b) (eof_ b).

(** [src/src/modules/utils/player/PlayerLineSources.cpp:28-28] StreamedJobBuffer::StreamedJobBuffer *)
Definition new_job_buffer (storage : list Line) (capacity : nat) : StreamedJobBuffer :=
  mk_job_buffer storage capacity 0 0 0 0 0 0 false false.
(** [src/src/modules/utils/player/PlayerLineSources.h:52-52] StreamedJobBuffer::position *)
Definition position (b : StreamedJobBuffer) : Z := consumed_bytes_ b.
(** [src/src/modules/utils/player/PlayerLineSources.h:55-55] StreamedJobBuffer::is_open *)
Definition is_open (b : StreamedJobBuffer) : bool := open_ b.
(** [src/src/modules/utils/player/PlayerLineSources.h:56-56] StreamedJobBuffer::next_expected_line *)
Definition next_expected_line (b : StreamedJobBuffer) : Z := next_expected_line_ b.
(** [src/src/modules/utils/player/PlayerLineSources.h:57-57] StreamedJobBuffer::queued *)
Definition queued (b : StreamedJobBuffer) : nat := count_ b.
(** [src/src/modules/utils/player/PlayerLineSources.h:58-58] StreamedJobBuffer::available *)
Definition available (b : StreamedJobBuffer) : nat := (capacity_ b - count_ b)%nat.
(** [src/src/modules/utils/player/PlayerLineSources.cpp:101-101] StreamedJobBuffer::at_end *)
Definition at_end (b : StreamedJobBuffer) : bool := open_ b && eof_ b && (count_ b =? 0)%nat.
(** [src/src/modules/utils/player/PlayerLineSources.cpp:103-112] StreamedJobBuffer::close *)
Definition close (b : StreamedJobBuffer) : StreamedJobBuffer :=
  mk_job_buffer (storage_ b) (capacity_ b) 0 0 0 0 0 0 false false.
(** [src/src/modules/utils/player/PlayerLineSources.cpp:30-36] StreamedJobBuffer::begin *)
Definition begin (b : StreamedJobBuffer) (filename_crc first_line byte_position : Z) : StreamedJobBuffer :=
  (close b) <| filename_crc_ := filename_crc |> <| consumed_bytes_ := byte_position |>
            <| next_expected_line_ := first_line |> <| open_ := true |>.

(** The first loop, from [i] on with [n] turns left: how many lines there are,
    unless one is too long.
    [src/src/modules/utils/player/PlayerLineSources.cpp:45-56] StreamedJobBuffer::append_lines *)
Fixpoint count_lines (n : nat) (data : list Z) (i begin lines : nat) : option nat :=
  match n with
  | O => Some lines
  | S n =>
      let newline := (i <? length data)%nat && (data !!! i =? 10) in
      if negb newline && negb (i =? length data)%nat then count_lines n data (S i) begin lines
      else if (i =? length data)%nat && (begin =? i)%nat then Some lines
      else
        let length := (i - begin + if newline then 1 else 0)%nat in
        if line_capacity <=? Z.of_nat length then None
        else count_lines n data (S i) (i + if newline then 1 else 0)%nat (S lines)
  end.

(** A line is copied into the slot at [head_], terminated, and counted.
    [src/src/modules/utils/player/PlayerLineSources.cpp:67-73] StreamedJobBuffer::append_lines *)
Definition store_line (b : StreamedJobBuffer) (line : list Z) : StreamedJobBuffer :=
  let slot := storage_ b !!! head_ b in
  let text := copy_in (text slot) 0 line in
  let text := <[length line := 0]> text in
  b <| storage_ := <[head_ b := mk_line text (u8 (Z.of_nat (length line)))]> (storage_ b) |>
    <| head_ := ((head_ b + 1) mod capacity_ b)%nat |> <| count_ := S (count_ b) |>
    <| next_expected_line_ := u32 (next_expected_line_ b + 1) |>.

(** The second loop.
    [src/src/modules/utils/player/PlayerLineSources.cpp:60-75] StreamedJobBuffer::append_lines *)
Fixpoint store_lines (n : nat) (b : StreamedJobBuffer) (data : list Z) (i begin : nat) : StreamedJobBuffer :=
  match n with
  | O => b
  | S n =>
      let newline := (i <? length data)%nat && (data !!! i =? 10) in
      if negb newline && negb (i =? length data)%nat then store_lines n b data (S i) begin
      else if (i =? length data)%nat && (begin =? i)%nat then b
      else
        let length := (i - begin + if newline then 1 else 0)%nat in
        store_lines n (store_line b (slice begin length data)) data (S i) (i + if newline then 1 else 0)%nat
  end.

(** A null [data] is the empty list.
    [src/src/modules/utils/player/PlayerLineSources.cpp:38-78] StreamedJobBuffer::append_lines *)
Definition append_lines (b : StreamedJobBuffer) (filename_crc first_line : Z) (data : list Z)
    : StreamedJobBuffer * AppendResult :=
  if negb (open_ b) || eof_ b then (b, ar_not_receiving)
  else if (length data =? 0)%nat then (b, ar_invalid_data)
  else if negb (filename_crc =? filename_crc_ b) then (b, ar_wrong_file)
  else if negb (first_line =? next_expected_line_ b) then (b, ar_unexpected_line)
  else match count_lines (S (length data)) data 0 0 0 with
  | None => (b, ar_line_too_long)
  | Some lines =>
      if (available b <? lines)%nat then (b, ar_queue_full)
      else (store_lines (S (length data)) b data 0 0, ar_success)
  end.

(** [src/src/modules/utils/player/PlayerLineSources.cpp:80-84] StreamedJobBuffer::mark_end *)
Definition mark_end (b : StreamedJobBuffer) (filename_crc : Z) : StreamedJobBuffer * bool :=
  if negb (open_ b) || negb (filename_crc =? filename_crc_ b) then (b, false)
  else (b <| eof_ := true |>, true).

(** [size] is the room of the caller's buffer, 0 for none; what is written into
    it is returned.
    [src/src/modules/utils/player/PlayerLineSources.cpp:86-99] StreamedJobBuffer::read *)
Definition read (b : StreamedJobBuffer) (size : Z) : StreamedJobBuffer * LineReadResult * list Z :=
  if negb (open_ b) then (b, lr_error, [])
  else if (count_ b =? 0)%nat then (b, if eof_ b then lr_end else lr_waiting, [])
  else
    let slot := storage_ b !!! tail_ b in
    if size <=? length_ slot then (b, lr_error, [])
    else
      (b <| consumed_bytes_ := u32 (consumed_bytes_ b + length_ slot) |>
         <| storage_ := <[tail_ b := mk_line (<[0%nat := 0]> (text slot)) 0]> (storage_ b) |>
         <| tail_ := ((tail_ b + 1) mod capacity_ b)%nat |> <| count_ := (count_ b - 1)%nat |>,
       lr_data, take (Z.to_nat (length_ slot) + 1) (text slot)).

(** ** The reference: the lines of a text *)
Fixpoint lines_of (data : list Z) : list (list Z) :=
  match data with
  | [] => []
  | x :: rest =>
      if x =? 10 then [x] :: lines_of rest
      else match lines_of rest with [] => [[x]] | l :: ls => (x :: l) :: ls end
  end.

Lemma concat_lines_of data : concat (lines_of data) = data.
Proof.
  induction data as [|x rest IH]; [done|]. cbn [lines_of]. destruct (x =? 10); [by cbn; rewrite IH|].
  destruct (lines_of rest) as [|l ls]; cbn in *; by rewrite <- IH.
Qed.
Lemma lines_of_line p rest : 10 ∉ p -> lines_of (p ++ 10 :: rest) = (p ++ [10]) :: lines_of rest.
Proof.
  induction p as [|x p IH]; intros Hp; [done|]. apply not_elem_of_cons in Hp as [Hx Hp]. cbn [app lines_of].
  rewrite IH by done. destruct (Z.eqb_spec x 10); [congruence|done].
Qed.
Lemma lines_of_last p : 10 ∉ p -> p <> [] -> lines_of p = [p].
Proof.
  induction p as [|x p IH]; intros Hp Hne; [done|]. apply not_elem_of_cons in Hp as [Hx Hp]. cbn [lines_of].
  destruct (Z.eqb_spec x 10); [congruence|]. destruct p as [|y p]; [done|]. by rewrite IH.
Qed.

(** The abstract buffer: a queue of lines. *)
Record JobQueue := mk_queue {
  q_lines : list (list Z); q_crc : Z; q_consumed : Z; q_next : Z; q_open : bool; q_eof : bool
}.
Definition too_long (l : list Z) : bool := line_capacity <=? Z.of_nat (length l).
Definition q_append (capacity : nat) (q : JobQueue) (filename_crc first_line : Z) (data : list Z)
    : JobQueue * AppendResult :=
  if negb (q_open q) || q_eof q then (q, ar_not_receiving)
  else if bool_decide (data = []) then (q, ar_invalid_data)
  else if negb (filename_crc =? q_crc q) then (q, ar_wrong_file)
  else if negb (first_line =? q_next q) then (q, ar_unexpected_line)
  else if existsb too_long (lines_of data) then (q, ar_line_too_long)
  else if (capacity <? length (q_lines q) + length (lines_of data))%nat then (q, ar_queue_full)
  else (mk_queue (q_lines q ++ lines_of data) (q_crc q) (q_consumed q)
          (u32 (q_next q + Z.of_nat (length (lines_of data)))) (q_open q) (q_eof q), ar_success).
Definition q_read (q : JobQueue) (size : Z) : JobQueue * LineReadResult * list Z :=
  if negb (q_open q) then (q, lr_error, [])
  else match q_lines q with
  | [] => (q, if q_eof q then lr_end else lr_waiting, [])
  | l :: ls =>
      if size <=? Z.of_nat (length l) then (q, lr_error, [])
      else (mk_queue ls (q_crc q) (u32 (q_consumed q + Z.of_nat (length l))) (q_next q) (q_open q) (q_eof q),
            lr_data, l ++ [0])
  end.

(** ** The loops find the lines *)

Lemma slice_snoc (data : list Z) begin i x :
  (begin <= i)%nat -> data !! i = Some x -> slice begin (S i - begin) data = slice begin (i - begin) data ++ [x].
Proof.
  intros Hb Hx. unfold slice. replace (S i - begin)%nat with (S (i - begin)) by lia.
  rewrite (take_S_r _ _ x); [done|]. rewrite lookup_drop. by replace (begin + (i - begin))%nat with i by lia.
Qed.
Lemma drop_slice (data : list Z) begin i :
  (begin <= i)%nat -> drop begin data = slice begin (i - begin) data ++ drop i data.
Proof.
  intros. unfold slice. rewrite <- (take_drop (i - begin) (drop begin data)) at 1. f_equal.
  rewrite drop_drop. f_equal. lia.
Qed.

(** What the tests of both loops decide at position [i], [begin] being where the
    line at hand starts. *)
Lemma at_position data i begin :
  (begin <= i <= length data)%nat -> 10 ∉ slice begin (i - begin) data ->
  let newline := (i <? length data)%nat && (data !!! i =? 10) in
  if negb newline && negb (i =? length data)%nat then
    (i < length data)%nat /\ 10 ∉ slice begin (S i - begin) data
  else if (i =? length data)%nat && (begin =? i)%nat then lines_of (drop begin data) = []
  else
    let len := (i - begin + if newline then 1 else 0)%nat in
    let next := (i + if newline then 1 else 0)%nat in
    lines_of (drop begin data) = slice begin len data :: lines_of (drop next data) /\
    length (slice begin len data) = len /\
    (newline = true /\ (S i <= length data)%nat /\ next = S i \/
     newline = false /\ i = length data /\ drop next data = []).
Proof.
  intros Hi Hn. cbv zeta. destruct (Nat.eqb_spec i (length data)) as [He|He].
  - assert ((i <? length data)%nat = false) as -> by (apply Nat.ltb_ge; lia). cbn [andb negb].
    destruct (Nat.eqb_spec begin i) as [Hb|Hb]; [by rewrite drop_ge by lia|].
    rewrite !Nat.add_0_r, (drop_slice data begin i), (drop_ge data i) by lia.
    assert (Hl : length (slice begin (i - begin) data) = (i - begin)%nat) by (rewrite length_slice by lia; done).
    rewrite app_nil_r. split_and!; [|done|by right].
    rewrite lines_of_last; [done|done|]. intros H0. rewrite H0 in Hl. cbn in Hl. lia.
  - assert ((i <? length data)%nat = true) as -> by (apply Nat.ltb_lt; lia). cbn [andb].
    destruct (lookup_lt_is_Some_2 data i ltac:(lia)) as [x Hx]. rewrite (list_lookup_total_correct _ _ _ Hx).
    destruct (Z.eqb_spec x 10) as [->|Hne]; cbn [negb andb].
    + replace (i - begin + 1)%nat with (S i - begin)%nat by lia. replace (i + 1)%nat with (S i) by lia.
      rewrite length_slice by lia. split_and!; [|done|left; split_and!; [done|lia|done]].
      rewrite (slice_snoc _ _ _ 10), (drop_slice data begin i), (drop_S _ _ _ Hx) by (done || lia).
      by apply lines_of_line.
    + split; [lia|]. rewrite (slice_snoc _ _ _ x) by (done || lia). apply not_elem_of_app. split; [done|].
      intros Hin. by apply list_elem_of_singleton in Hin.
Qed.

Lemma count_lines_spec n data i begin lines :
  (n + i = S (length data))%nat -> (begin <= i <= length data)%nat -> 10 ∉ slice begin (i - begin) data ->
  count_lines n data i begin lines =
  if existsb too_long (lines_of (drop begin data)) then None
  else Some (lines + length (lines_of (drop begin data)))%nat.
Proof.
  revert i begin lines. induction n as [|n IH]; intros i begin lines Hi Hb Hn; [lia|].
  pose proof (at_position data i begin Hb Hn) as Hp. cbn [count_lines]. cbv zeta in *.
  destruct (negb _ && negb _); [apply IH; [lia|lia|tauto]|].
  destruct (_ && _); [rewrite Hp; cbn; f_equal; lia|]. destruct Hp as (Hl & Hlen & Hnext).
  rewrite Hl. cbn [existsb length]. unfold too_long at 1. rewrite Hlen.
  destruct (line_capacity <=? _); [done|]. cbn [orb].
  destruct Hnext as [(_ & Hle & Hnx)|(_ & -> & Hd)].
  - rewrite Hnx. rewrite IH by (lia || (rewrite Nat.sub_diag; unfold slice; rewrite take_0; apply not_elem_of_nil)).
    destruct (existsb _ _); [done|]. f_equal. lia.
  - rewrite Hd. replace n with 0%nat by lia. cbn. f_equal. lia.
Qed.

Lemma store_lines_spec n b data i begin :
  (n + i = S (length data))%nat -> (begin <= i <= length data)%nat -> 10 ∉ slice begin (i - begin) data ->
  store_lines n b data i begin = fold_left store_line (lines_of (drop begin data)) b.
Proof.
  revert b i begin. induction n as [|n IH]; intros b i begin Hi Hb Hn; [lia|].
  pose proof (at_position data i begin Hb Hn) as Hp. cbn [store_lines]. cbv zeta in *.
  destruct (negb _ && negb _); [apply IH; [lia|lia|tauto]|].
  destruct (_ && _); [by rewrite Hp|]. destruct Hp as (Hl & _ & Hnext). rewrite Hl. cbn [fold_left].
  destruct Hnext as [(_ & Hle & Hnx)|(_ & -> & Hd)].
  - rewrite Hnx. by rewrite IH by (lia || (rewrite Nat.sub_diag; unfold slice; rewrite take_0; apply not_elem_of_nil)).
  - rewrite Hd. by replace n with 0%nat by lia.
Qed.

(** ** Refinement *)
Definition slot_holds (s : Line) (l : list Z) : Prop :=
  length_ s = Z.of_nat (length l) /\ take (length l) (text s) = l /\ text s !! length l = Some 0.

Record represents (b : StreamedJobBuffer) (q : JobQueue) : Prop := mk_represents {
  rep_size : length (storage_ b) = capacity_ b;
  rep_pos : (0 < capacity_ b)%nat;
  rep_cells : Forall (fun s => Z.of_nat (length (text s)) = line_capacity) (storage_ b);
  rep_tail : (tail_ b < capacity_ b)%nat;
  rep_head : head_ b = ((tail_ b + count_ b) mod capacity_ b)%nat;
  rep_count : count_ b = length (q_lines q);
  rep_slots : exists slots, cslice (storage_ b) (tail_ b) slots /\ Forall2 slot_holds slots (q_lines q);
  rep_crc : filename_crc_ b = q_crc q;
  rep_consumed : consumed_bytes_ b = q_consumed q;
  rep_next : next_expected_line_ b = q_next q;
  rep_word : is_u32 (q_next q);
  rep_open : open_ b = q_open q;
  rep_eof : eof_ b = q_eof q
}.

Lemma rep_bound b q : represents b q -> (length (q_lines q) <= capacity_ b)%nat.
Proof.
  intros H. destruct (rep_slots _ _ H) as (slots & [Hl _] & Hs).
  rewrite (rep_size _ _ H) in Hl. by rewrite <- (Forall2_length Hs).
Qed.
Lemma rep_available b q : represents b q -> available b = (capacity_ b - length (q_lines q))%nat.
Proof. intros H. unfold available. by rewrite (rep_count _ _ H). Qed.

Definition q_push (q : JobQueue) (line : list Z) : JobQueue :=
  mk_queue (q_lines q ++ [line]) (q_crc q) (q_consumed q) (u32 (q_next q + 1)) (q_open q) (q_eof q).

Lemma store_line_represents b q line :
  represents b q -> (length (q_lines q) < capacity_ b)%nat -> too_long line = false ->
  represents (store_line b line) (q_push q line).
Proof.
  intros H Hroom Hl. unfold too_long, line_capacity in Hl. apply Z.leb_gt in Hl.
  destruct H as [Hsz Hp Hcells Ht Hh Hc (slots & Hsl & Hf) Hcrc Hcons Hnx Hw Ho He].
  assert (Hhead : (head_ b < capacity_ b)%nat) by (rewrite Hh; apply Nat.mod_upper_bound; lia).
  destruct (lookup_lt_is_Some_2 (storage_ b) (head_ b) ltac:(lia)) as [s Hs].
  assert (Htext : Z.of_nat (length (text s)) = line_capacity) by (rewrite list.Forall_forall in Hcells; eapply Hcells, list_elem_of_lookup_2, Hs).
  unfold line_capacity in *.
  unfold store_line, q_push. rewrite (list_lookup_total_correct _ _ _ Hs). cbv zeta.
  pose proof (Forall2_length Hf) as Hlen.
  split; recs; cbn [q_lines q_crc q_consumed q_next q_open q_eof].
  - by rewrite length_insert.
  - done.
  - apply Forall_insert; [done|]. cbn [text]. unfold copy_in. by rewrite length_insert, length_inserts.
  - done.
  - rewrite Hh, Nat.Div0.add_mod_idemp_l. f_equal. lia.
  - rewrite length_app. cbn. lia.
  - exists (slots ++ [mk_line (<[length line := 0]> (copy_in (text s) 0 line)) (u8 (Z.of_nat (length line)))]). split.
    + rewrite Hh, <- Hsz, Hc, <- Hlen. apply cslice_push; [done|lia].
    + apply Forall2_app; [done|]. constructor; [|constructor]. unfold slot_holds. cbn [text length_]. split_and!.
      * apply wrap_small. ints.
      * rewrite take_insert_ge by lia. apply list_eq. intros j. unfold copy_in.
        destruct (decide (j < length line)%nat).
        -- rewrite lookup_take_lt, list_lookup_inserts by lia. by rewrite Nat.sub_0_r.
        -- rewrite (lookup_ge_None_2 line), (lookup_ge_None_2 (take _ _)); [done|rewrite length_take; lia|lia].
      * apply list_lookup_insert_eq. unfold copy_in. rewrite length_inserts. lia.
  - done.
  - done.
  - by rewrite Hnx.
  - by apply wrap_range.
  - done.
  - done.
Qed.

Lemma store_all_represents b q ls :
  represents b q -> (length (q_lines q) + length ls <= capacity_ b)%nat -> existsb too_long ls = false ->
  represents (fold_left store_line ls b)
    (mk_queue (q_lines q ++ ls) (q_crc q) (q_consumed q) (u32 (q_next q + Z.of_nat (length ls))) (q_open q) (q_eof q)) /\
  capacity_ (fold_left store_line ls b) = capacity_ b.
Proof.
  revert b q. induction ls as [|l ls IH]; intros b q H Hroom Hl; cbn [fold_left length] in *.
  - split; [|done]. destruct q. cbn [q_lines q_crc q_consumed q_next q_open q_eof] in *.
    rewrite app_nil_r, Z.add_0_r, wrap_small by apply (rep_word _ _ H). done.
  - cbn [existsb] in Hl. apply orb_false_iff in Hl as [Hl1 Hl2].
    pose proof (store_line_represents b q l H ltac:(lia) Hl1) as H1.
    destruct (IH _ _ H1) as [H2 Hc]; [unfold q_push; cbn [q_lines]; rewrite length_app; cbn [length];
      change (capacity_ (store_line b l)) with (capacity_ b); lia|done|].
    split; [|done]. unfold q_push in H2. cbn [q_lines q_crc q_consumed q_next q_open q_eof] in H2.
    rewrite <- app_assoc in H2. cbn [app] in H2.
    replace (u32 (q_next q + Z.of_nat (S (length ls)))) with (u32 (u32 (q_next q + 1) + Z.of_nat (length ls))); [done|].
    unfold wrap. rewrite Zplus_mod_idemp_l. f_equal. lia.
Qed.

Lemma append_represents b q crc first data :
  represents b q ->
  let '(b', r) := append_lines b crc first data in
  let '(q', r') := q_append (capacity_ b) q crc first data in
  r = r' /\ represents b' q' /\ capacity_ b' = capacity_ b.
Proof.
  intros H. unfold append_lines, q_append.
  rewrite (rep_open _ _ H), (rep_eof _ _ H), (rep_crc _ _ H), (rep_next _ _ H).
  destruct (negb (q_open q) || q_eof q); [done|].
  destruct data as [|x data]; [done|]. cbn [length Nat.eqb]. rewrite bool_decide_false by done.
  destruct (negb (crc =? q_crc q)); [done|]. destruct (negb (first =? q_next q)); [done|].
  change (S (length data)) with (length (x :: data)).
  rewrite (count_lines_spec (S (length (x :: data))) (x :: data) 0 0 0) by (lia || apply not_elem_of_nil).
  rewrite drop_0. destruct (existsb too_long _) eqn:Hl; [done|]. rewrite Nat.add_0_l, (rep_available _ _ H).
  pose proof (rep_bound _ _ H).
  assert ((capacity_ b - length (q_lines q) <? length (lines_of (x :: data)))%nat =
          (capacity_ b <? length (q_lines q) + length (lines_of (x :: data)))%nat) as ->.
  { destruct (Nat.ltb_spec (capacity_ b - length (q_lines q)) (length (lines_of (x :: data))));
      symmetry; [apply Nat.ltb_lt|apply Nat.ltb_ge]; lia. }
  destruct (Nat.ltb_spec (capacity_ b) (length (q_lines q) + length (lines_of (x :: data)))); [done|].
  rewrite (store_lines_spec (S (length (x :: data))) b (x :: data) 0 0) by (lia || apply not_elem_of_nil).
  rewrite drop_0. by destruct (store_all_represents b q (lines_of (x :: data)) H).
Qed.

Lemma read_represents b q size :
  represents b q ->
  let '(b', r, out) := read b size in
  let '(q', r', out') := q_read q size in
  r = r' /\ out = out' /\ represents b' q' /\ capacity_ b' = capacity_ b.
Proof.
  intros H. unfold read, q_read. rewrite (rep_open _ _ H), (rep_count _ _ H), (rep_eof _ _ H).
  destruct (negb (q_open q)); [done|].
  destruct H as [Hsz Hp Hcells Ht Hh Hc (slots & Hsl & Hf) Hcrc Hcons Hnx Hw Ho He].
  destruct q as [ls crc cons nx op eof]. cbn [q_lines q_crc q_consumed q_next q_open q_eof] in *.
  destruct ls as [|l ls]; cbn [length Nat.eqb]; [split_and!; try done; split; cbn; try done; by exists slots|].
  destruct slots as [|s slots]; [by inversion Hf|]. apply Forall2_cons_1 in Hf as [(Hl1 & Hl2 & Hl3) Hf].
  pose proof (cslice_front _ _ _ _ Hsl) as Hs. rewrite Nat.mod_small in Hs by lia.
  rewrite (list_lookup_total_correct _ _ _ Hs), Hl1. cbv zeta.
  destruct (size <=? Z.of_nat (length l)).
  { split_and!; try done. split; cbn; try done. exists (s :: slots). split; [done|]. by constructor. }
  split_and!; [done| | |done].
  - rewrite Nat2Z.id, Nat.add_1_r, (take_S_r _ _ 0) by done. by rewrite Hl2.
  - pose proof (cslice_length _ _ _ Hsl) as Hlen. cbn [length] in Hlen.
    split; recs; cbn [q_lines q_crc q_consumed q_next q_open q_eof]; try done.
    + by rewrite length_insert.
    + apply Forall_insert; [done|]. cbn [text]. rewrite length_insert.
      rewrite list.Forall_forall in Hcells. eapply Hcells, list_elem_of_lookup_2, Hs.
    + apply Nat.mod_upper_bound. lia.
    + rewrite Hh, Hc. cbn [length]. rewrite Nat.Div0.add_mod_idemp_l. f_equal. lia.
    + lia.
    + exists slots. split; [|done]. apply cslice_pop in Hsl.
      rewrite <- (length_insert _ (tail_ b) (mk_line (<[0%nat:=0]> (text s)) 0)) in Hsz. rewrite <- Hsz, Nat.add_1_r.
      apply cslice_mod. rewrite length_insert in Hsz.
      replace (tail_ b) with ((S (tail_ b) + (length (storage_ b) - 1)) mod length (storage_ b))%nat at 1.
      * apply cslice_insert_free; [done|lia].
      * replace (S (tail_ b) + (length (storage_ b) - 1))%nat with (tail_ b + 1 * length (storage_ b))%nat by lia.
        rewrite Nat.Div0.mod_add. apply Nat.mod_small. lia.
    + by rewrite Hcons.
Qed.

(** The operations of the class, on the ring and on the queue. *)
Inductive Op :=
| op_begin (filename_crc first_line byte_position : Z)
| op_append (filename_crc first_line : Z) (data : list Z)
| op_mark_end (filename_crc : Z)
| op_read (size : Z)
| op_close.
(** What a caller sees of one: a result, what [read] wrote, and the observers. *)
Definition Seen : Type :=
  option AppendResult * option LineReadResult * list Z * option bool * (Z * bool * Z * nat * nat * bool).

Definition observe (b : StreamedJobBuffer) : Z * bool * Z * nat * nat * bool :=
  (position b, is_open b, next_expected_line b, queued b, available b, at_end b).
Definition q_observe (capacity : nat) (q : JobQueue) : Z * bool * Z * nat * nat * bool :=
  (q_consumed q, q_open q, q_next q, length (q_lines q), (capacity - length (q_lines q))%nat,
   q_open q && q_eof q && bool_decide (q_lines q = [])).

Definition run_op (b : StreamedJobBuffer) (o : Op) : StreamedJobBuffer * Seen :=
  let '(b, r) := match o with
  | op_begin crc first pos => (begin b crc first pos, (None, None, [], None))
  | op_append crc first data => let '(b, r) := append_lines b crc first data in (b, (Some r, None, [], None))
  | op_mark_end crc => let '(b, r) := mark_end b crc in (b, (None, None, [], Some r))
  | op_read size => let '(b, r, out) := read b size in (b, (None, Some r, out, None))
  | op_close => (close b, (None, None, [], None))
  end in (b, (r, observe b)).
Definition q_run_op (capacity : nat) (q : JobQueue) (o : Op) : JobQueue * Seen :=
  let '(q, r) := match o with
  | op_begin crc first pos => (mk_queue [] crc pos first true false, (None, None, [], None))
  | op_append crc first data => let '(q, r) := q_append capacity q crc first data in (q, (Some r, None, [], None))
  | op_mark_end crc =>
      if negb (q_open q) || negb (crc =? q_crc q) then (q, (None, None, [], Some false))
      else (mk_queue (q_lines q) (q_crc q) (q_consumed q) (q_next q) (q_open q) true, (None, None, [], Some true))
  | op_read size => let '(q, r, out) := q_read q size in (q, (None, Some r, out, None))
  | op_close => (mk_queue [] 0 0 0 false false, (None, None, [], None))
  end in (q, (r, q_observe capacity q)).
Definition op_ok (o : Op) : Prop := match o with op_begin _ first _ => is_u32 first | _ => True end.

Fixpoint run_ops (b : StreamedJobBuffer) (ops : list Op) : list Seen :=
  match ops with [] => [] | o :: ops => let '(b, r) := run_op b o in r :: run_ops b ops end.
Fixpoint q_run_ops (capacity : nat) (q : JobQueue) (ops : list Op) : list Seen :=
  match ops with [] => [] | o :: ops => let '(q, r) := q_run_op capacity q o in r :: q_run_ops capacity q ops end.

Lemma observe_represents b q : represents b q -> observe b = q_observe (capacity_ b) q.
Proof.
  intros H. unfold observe, q_observe, position, is_open, next_expected_line, queued, at_end.
  rewrite (rep_available _ _ H), (rep_consumed _ _ H), (rep_open _ _ H), (rep_next _ _ H), (rep_count _ _ H), (rep_eof _ _ H).
  by destruct (q_lines q).
Qed.

Lemma empty_represents b crc first pos op :
  length (storage_ b) = capacity_ b -> (0 < capacity_ b)%nat ->
  Forall (fun s => Z.of_nat (length (text s)) = line_capacity) (storage_ b) -> is_u32 first ->
  represents (mk_job_buffer (storage_ b) (capacity_ b) 0 0 0 crc pos first op false) (mk_queue [] crc pos first op false).
Proof.
  intros Hs Hc Hf Hw. split; cbn; try done.
  - by rewrite Nat.Div0.mod_0_l.
  - exists []. split; [apply cslice_nil|constructor].
Qed.

Lemma run_op_represents b q o :
  represents b q -> op_ok o ->
  let '(b', r) := run_op b o in let '(q', r') := q_run_op (capacity_ b) q o in
  r = r' /\ represents b' q' /\ capacity_ b' = capacity_ b.
Proof.
  intros H Ho.
  unfold run_op, q_run_op. destruct o as [crc first pos|crc first data|crc|size|].
  - pose proof (empty_represents b crc first pos true (rep_size _ _ H) (rep_pos _ _ H) (rep_cells _ _ H) Ho) as Hr.
    change (begin b crc first pos) with (mk_job_buffer (storage_ b) (capacity_ b) 0 0 0 crc pos first true false).
    split_and!; [|done..]. by rewrite (observe_represents _ _ Hr).
  - pose proof (append_represents b q crc first data H) as Ha.
    destruct (append_lines b crc first data), (q_append (capacity_ b) q crc first data).
    destruct Ha as (-> & Hr & Hc). by rewrite (observe_represents _ _ Hr), Hc.
  - unfold mark_end. rewrite (rep_open _ _ H), (rep_crc _ _ H).
    destruct (negb (q_open q) || negb (crc =? q_crc q)); [by rewrite (observe_represents _ _ H)|].
    assert (represents (b <| eof_ := true |>) (mk_queue (q_lines q) (q_crc q) (q_consumed q) (q_next q) (q_open q) true)) as Hr
      by (destruct H; by split).
    by rewrite (observe_represents _ _ Hr).
  - pose proof (read_represents b q size H) as Ha.
    destruct (read b size) as [[b' r] out], (q_read q size) as [[q' r'] out'].
    destruct Ha as (-> & -> & Hr & Hc). by rewrite (observe_represents _ _ Hr), Hc.
  - pose proof (empty_represents b 0 0 0 false (rep_size _ _ H) (rep_pos _ _ H) (rep_cells _ _ H) ltac:(ints)) as Hr.
    change (mk_job_buffer _ _ _ _ _ _ _ _ _ _) with (close b) in Hr.
    split_and!; [|done..]. by rewrite (observe_represents _ _ Hr).
Qed.

(** C24: The streamed job buffer is a queue of lines. Whatever operations are
    applied to a buffer of [n] slots, every result, every byte [read] hands out
    and every observer agree with a plain list of lines: a packet's text is cut
    at its line ends and appended whole or, on any error, not at all; a read
    takes the oldest line, terminated. *)
Theorem job_buffer_refines_queue storage n ops :
  length storage = n -> (0 < n)%nat -> Forall (fun s => Z.of_nat (length (text s)) = line_capacity) storage ->
  Forall op_ok ops ->
  run_ops (new_job_buffer storage n) ops = q_run_ops n (mk_queue [] 0 0 0 false false) ops.
Proof.
  intros Hl Hn Hs Ho.
  assert (represents (new_job_buffer storage n) (mk_queue [] 0 0 0 false false)) as Hr
    by (apply (empty_represents (new_job_buffer storage n) 0 0 0 false); try done; ints).
  revert Hr. generalize (mk_queue [] 0 0 0 false false) as q.
  assert (capacity_ (new_job_buffer storage n) = n) as Hc by done. revert Hc.
  generalize (new_job_buffer storage n) as b. induction Ho as [|o ops Ho _ IH]; intros b Hc q Hr; [done|].
  cbn [run_ops q_run_ops]. pose proof (run_op_represents b q o Hr Ho) as H. rewrite Hc in H.
  destruct (run_op b o), (q_run_op n q o). destruct H as (-> & H & Hc'). f_equal. apply IH; [by rewrite Hc'|done].
Qed.

(** Two packets, the second for a line not expected, and three reads, on two slots. *)
Lemma job_buffer_refines_queue_witness :
  let ops := [op_begin 7 0 0; op_append 7 0 (chars "G1" ++ [10] ++ chars "M5"); op_append 7 1 (chars "G0");
              op_read 130; op_read 130; op_read 130] in
  run_ops (new_job_buffer (repeat (mk_line (repeat 0 130) 0) 2) 2) ops = q_run_ops 2 (mk_queue [] 0 0 0 false false) ops /\
  map (fun s => snd (fst (fst s))) (q_run_ops 2 (mk_queue [] 0 0 0 false false) ops) =
    [[]; []; []; chars "G1" ++ [10; 0]; chars "M5" ++ [0]; []].
Proof.
  split; [|reflexivity].
  apply (job_buffer_refines_queue (repeat (mk_line (repeat 0 130) 0) 2) 2 _).
  - reflexivity.
  - apply Nat.ltb_lt. reflexivity.
  - repeat constructor.
  - repeat constructor; cbn; ints.
Defined.
