(* ===== verification/JobStream.v ===== *)
(** * Playing a streamed job ([src/src/modules/utils/player/Player.cpp], built with
    [STREAMED_JOB_PLAYBACK])

    The player's side of the stream: it asks a controller for the file, keeps the
    line buffer ([JobBuffer]) filled by requesting lines, and hands them to the
    console one per main loop turn. A handler returns the player and what it did
    to the rest of the firmware, in order ([Effect]). All the [us_ticker_read()]
    of one call are taken to read the same [now]. *)
From S2P Require Import Prelude MakeraFrame Hello JobBuffer.

(** [src/src/libs/PublicData.h:33-33] PTYPE_PLAY_START *)
Definition PTYPE_PLAY_START : Z := 0xF1.
(** [src/src/libs/PublicData.h:34-34] PTYPE_PLAY_VIEW *)
Definition PTYPE_PLAY_VIEW : Z := 0xF2.
(** [src/src/libs/PublicData.h:35-35] PTYPE_PLAY_DATA *)
Definition PTYPE_PLAY_DATA : Z := 0xF3.
(** [src/src/libs/PublicData.h:36-36] PTYPE_PLAY_END *)
Definition PTYPE_PLAY_END : Z := 0xF4.
(** [src/src/libs/PublicData.h:37-37] PTYPE_PLAY_CAN *)
Definition PTYPE_PLAY_CAN : Z := 0xF5.
(** [src/src/libs/PublicData.h:38-38] PTYPE_GOTO_START *)
Definition PTYPE_GOTO_START : Z := 0xF6.
(** [src/src/libs/PublicData.h:39-39] PTYPE_GOTO_LINES *)
Definition PTYPE_GOTO_LINES : Z := 0xF7.

(** [src/src/modules/utils/player/Player.cpp:102-102] streamed_line_count *)
Definition streamed_line_count : nat := 20.
(** [src/src/modules/utils/player/Player.cpp:103-104] streamed_refill_threshold *)
Definition streamed_refill_threshold : nat := 6.
(** [src/src/modules/utils/player/Player.cpp:105-105] streamed_retry_us *)
Definition streamed_retry_us : Z := 5000000.
(** [src/src/modules/utils/player/Player.cpp:106-106] streamed_timeout_us *)
Definition streamed_timeout_us : Z := 60000000.

(** [src/src/modules/utils/player/Player.h:140-145] Player::StreamedState *)
Inductive StreamedState := ss_idle | ss_opening | ss_playing | ss_seeking.
#[export] Instance StreamedState_eq_dec : EqDecision StreamedState. Proof. solve_decision. Defined.

(** The members the stream uses.
    [src/src/modules/utils/player/Player.h:147-165] Player *)
Record Player := mk_player {
  line_source : StreamedJobBuffer; streamed_state : StreamedState; filename_crc : Z;
  last_request_line : Z; streamed_last_request_us : Z; streamed_wait_started_us : Z;
  play_data_resend_pending : bool; playing_file : bool; file_size : Z; played_cnt : Z; played_lines : Z;
  file_line : Z; playing_lines : Z; goto_line : Z; elapsed_secs : Z; has_last_progress : bool;
  filename : list Z; verbose : bool
}.
#[export] Instance eta_Player : Eta Player := fun p =>
  mk_player (line_source p) (streamed_state p) (filename_crc p) (last_request_line p) (streamed_last_request_us p)
    (streamed_wait_started_us p) (play_data_resend_pending p) (playing_file p) (file_size p) (played_cnt p)
    (played_lines p) (file_line p) (playing_lines p) (goto_line p) (elapsed_secs p) (has_last_progress p)
    (filename p) (verbose p).

(** What a handler does to the rest of the firmware; of a text printed, the part
    that does not vary. *)
Inductive Effect :=
| fx_packet (type : Z) (payload : list Z)
| fx_print (text : string)
| fx_save_progress | fx_clear_buffered_queue | fx_reset_position
| fx_set_waiting (f : bool) | fx_set_suspending (f : bool) | fx_pop_state | fx_clear_saved_spindle
| fx_request_motion_abort | fx_set_aborted | fx_event_abort | fx_wait_for_idle
| fx_job_complete | fx_suspend | fx_echo (line : list Z)
| fx_dispatch (line : list Z) (number : Z).

(** What a handler reads of it. *)
Record Machine := mk_machine {
  aborted : bool; suspending : bool; halted : bool; waiting : bool; conveyor_idle : bool
}.

(** [src/src/modules/utils/player/Player.cpp:158-167] Player::save_last_progress *)
Definition save_last_progress (p : Player) : Player * list Effect :=
  (p <| has_last_progress := true |>, [fx_save_progress]).
(** [src/src/modules/utils/player/Player.cpp:169-176] Player::sync_progress_max *)
Definition sync_progress_max (p : Player) : Player :=
  let pos := position (line_source p) in
  let p := if played_cnt p <? pos then p <| played_cnt := pos |> else p in
  if played_lines p <? file_line p then p <| played_lines := file_line p |> else p.

(** [src/src/modules/utils/player/Player.cpp:1298-1314] Player::reset_streamed_playback *)
Definition reset_streamed_playback (p : Player) : Player * list Effect :=
  (p <| streamed_state := ss_idle |> <| playing_file := false |> <| play_data_resend_pending := false |>
     <| streamed_wait_started_us := 0 |> <| line_source := close (line_source p) |> <| played_cnt := 0 |>
     <| played_lines := 0 |> <| file_line := 0 |> <| playing_lines := 0 |> <| goto_line := 0 |>
     <| file_size := 0 |> <| filename := [] |> <| verbose := false |>, [fx_clear_buffered_queue]).
(** [src/src/modules/utils/player/Player.cpp:1207-1210] Player::streamed_session_active *)
Definition streamed_session_active (p : Player) : bool := negb (bool_decide (streamed_state p = ss_idle)).
(** [src/src/modules/utils/player/Player.cpp:1317-1321] Player::request_job_abort *)
Definition request_job_abort : list Effect := [fx_request_motion_abort; fx_set_aborted].

(** A suspended machine is put back when its job goes away.
    [src/src/modules/utils/player/Player.cpp:1287-1292] Player::handle_link_packet *)
Definition leave_suspend (m : Machine) : list Effect :=
  if suspending m then [fx_set_waiting false; fx_set_suspending false; fx_pop_state; fx_clear_saved_spindle] else [].

(** No stream session: what is left of the command after line 1476.
    [src/src/modules/utils/player/Player.cpp:1478-1570] Player::abort_command *)
Definition abort_rest (p : Player) (m : Machine) (parameters_empty : bool) : Player * list Effect :=
  let '(p, fx) := save_last_progress p in
  let p := p <| verbose := false |> <| playing_file := false |> <| played_cnt := 0 |> <| played_lines := 0 |>
             <| file_line := 0 |> <| playing_lines := 0 |> <| goto_line := 0 |> <| file_size := 0 |>
             <| filename := [] |> <| line_source := close (line_source p) |> in
  (p, fx ++ [fx_clear_buffered_queue; fx_set_suspending false] ++
      if parameters_empty then fx_set_waiting false :: request_job_abort
      else [fx_set_waiting true; fx_wait_for_idle; fx_event_abort] ++
           if halted m then [fx_print "Aborted by halt"; fx_set_waiting false]
           else [fx_set_waiting false; fx_dispatch (chars "M5") 0]).

(** [src/src/modules/utils/player/Player.cpp:1438-1476] Player::abort_command *)
Definition abort_command (p : Player) (m : Machine) (parameters_empty : bool) : Player * list Effect :=
  if aborted m then (p, [fx_print "Abort already pending"])
  else if negb (playing_file p) && negb (is_open (line_source p)) && negb (streamed_session_active p) then
    (p, [fx_event_abort; fx_print "Not currently playing"])
  else if streamed_session_active p then
    let '(p, fx1) := save_last_progress p in
    let '(p, fx2) := reset_streamed_playback p in
    (p, fx1 ++ [fx_packet PTYPE_PLAY_CAN []] ++ fx2 ++ leave_suspend m ++ request_job_abort)
  else abort_rest p m parameters_empty.

(** [name_crc] is the checksum of the file name, which the code computes with
    [crc16::ccitt].
    [src/src/modules/utils/player/Player.cpp:1131-1149] Player::start_streamed_playback *)
Definition start_streamed_playback (p : Player) (name_crc : Z) (verbose_ : bool) (now : Z) : Player * list Effect :=
  (p <| line_source := close (line_source p) |> <| filename_crc := name_crc |> <| streamed_state := ss_opening |>
     <| play_data_resend_pending := false |> <| verbose := verbose_ |> <| streamed_last_request_us := now |>
     <| streamed_wait_started_us := now |>,
   [fx_packet PTYPE_PLAY_START (write_be16 name_crc); fx_print "Playing"]).

(** [src/src/modules/utils/player/Player.cpp:1151-1167] Player::request_streamed_lines *)
Definition request_streamed_lines (p : Player) (now : Z) : Player * list Effect :=
  if negb (is_open (line_source p)) || at_end (line_source p) then (p, [])
  else
    let line := next_expected_line (line_source p) in
    let count := u16 (Z.of_nat (available (line_source p))) in
    let p := if negb (line =? last_request_line p) || (streamed_wait_started_us p =? 0)
             then p <| streamed_wait_started_us := now |> else p in
    (p <| last_request_line := line |> <| streamed_last_request_us := now |> <| play_data_resend_pending := false |>,
     [fx_packet PTYPE_PLAY_DATA (write_be16 (filename_crc p) ++ write_be32 line ++ write_be16 count)]).

(** [src/src/modules/utils/player/Player.cpp:1169-1205] Player::maintain_streamed_source *)
Definition maintain_streamed_source (p : Player) (m : Machine) (now : Z) : Player * list Effect :=
  if negb (streamed_wait_started_us p =? 0) && (streamed_timeout_us <? u32 (now - streamed_wait_started_us p)) then
    let '(p, fx) := abort_command p m false in
    (p, fx_print "ERROR: streamed job transfer timed out" :: fx)
  else
    let retry := streamed_retry_us <? u32 (now - streamed_last_request_us p) in
    match streamed_state p with
    | ss_opening =>
        if retry then (p <| streamed_last_request_us := now |>, [fx_packet PTYPE_PLAY_START (write_be16 (filename_crc p))])
        else (p, [])
    | ss_seeking =>
        if retry then
          (p <| streamed_last_request_us := now |>,
           [fx_packet PTYPE_GOTO_START (write_be16 (filename_crc p) ++ write_be32 (goto_line p))])
        else (p, [])
    | _ =>
        if (streamed_refill_threshold <? queued (line_source p))%nat || at_end (line_source p) then (p, [])
        else if negb (play_data_resend_pending p) && (next_expected_line (line_source p) =? last_request_line p)
                && negb retry then (p, [])
        else request_streamed_lines p now
    end.

(** A data packet.
    [src/src/modules/utils/player/Player.cpp:1242-1260] Player::handle_link_packet *)
Definition handle_play_data (p : Player) (data : list Z) : Player * list Effect :=
  if (length data <? 6)%nat || negb (is_open (line_source p)) then (p, [])
  else
    let '(b, result) := append_lines (line_source p) (read_be16 data) (read_be32 (drop 2 data)) (drop 6 data) in
    let p := p <| line_source := b |> in
    match result with
    | ar_success => (p <| streamed_wait_started_us := 0 |>, [])
    | ar_line_too_long =>
        let '(p, fx) := reset_streamed_playback p in
        (p, [fx_print "ERROR: streamed job line exceeds 128 bytes"; fx_packet PTYPE_PLAY_CAN []] ++ fx)
    | ar_unexpected_line | ar_queue_full => (p <| play_data_resend_pending := true |>, [])
    | _ => (p, [])
    end.

(** The controller has the file: play it from its start.
    [src/src/modules/utils/player/Player.cpp:1214-1240] Player::handle_link_packet *)
Definition handle_play_view (p : Player) (data : list Z) (now : Z) : Player * list Effect :=
  if negb (bool_decide (streamed_state p = ss_opening)) || (length data <? 6)%nat then (p, [])
  else if negb (read_be16 data =? filename_crc p) then
    (p <| streamed_state := ss_idle |>,
     [fx_print "ERROR: streamed job identity mismatch"; fx_packet PTYPE_PLAY_CAN []])
  else
    let p := p <| line_source := begin (line_source p) (read_be16 data) 0 0 |> <| file_size := read_be32 (drop 2 data) |>
               <| played_cnt := 0 |> <| played_lines := 0 |> <| file_line := 0 |> <| elapsed_secs := 0 |>
               <| playing_lines := 0 |> <| goto_line := 0 |> <| has_last_progress := false |>
               <| streamed_state := ss_playing |> <| playing_file := true |> <| streamed_wait_started_us := 0 |> in
    let '(p, fx) := request_streamed_lines p now in
    (p, fx_reset_position :: fx).

(** The controller has found the line sought.
    [src/src/modules/utils/player/Player.cpp:1262-1279] Player::handle_link_packet *)
Definition handle_goto_lines (p : Player) (data : list Z) (now : Z) : Player * list Effect :=
  if negb (bool_decide (streamed_state p = ss_seeking)) || (length data <? 10)%nat then (p, [])
  else if negb (read_be16 data =? filename_crc p) then (p, [])
  else
    let line := read_be32 (drop 2 data) in
    let offset := read_be32 (drop 6 data) in
    let p := p <| played_lines := line |> <| file_line := line |> <| playing_lines := line |> <| played_cnt := offset |>
               <| streamed_last_request_us := now |> <| streamed_wait_started_us := now |> in
    if line <? u32 (goto_line p - 1) then (p, [])
    else request_streamed_lines
           (p <| line_source := begin (line_source p) (read_be16 data) line offset |> <| streamed_state := ss_playing |>) now.

(** [src/src/modules/utils/player/Player.cpp:1212-1296] Player::handle_link_packet *)
Definition handle_link_packet (p : Player) (m : Machine) (type : Z) (data : list Z) (now : Z) : Player * list Effect :=
  if type =? PTYPE_PLAY_VIEW then handle_play_view p data now
  else if type =? PTYPE_PLAY_DATA then handle_play_data p data
  else if type =? PTYPE_GOTO_LINES then handle_goto_lines p data now
  else if type =? PTYPE_PLAY_END then
    (p <| line_source := fst (mark_end (line_source p) (filename_crc p)) |> <| streamed_wait_started_us := 0 |>, [])
  else if type =? PTYPE_PLAY_CAN then
    if negb (streamed_session_active p) || aborted m then (p, [])
    else
      let '(p, fx1) := save_last_progress p in
      let '(p, fx2) := reset_streamed_playback p in
      (p, fx1 ++ leave_suspend m ++ fx2 ++ request_job_abort)
  else (p, []).

(** [parameter] is the number [strtoul] read, [None] when there was none.
    [src/src/modules/utils/player/Player.cpp:1351-1374] Player::goto_command *)
Definition goto_command (p : Player) (m : Machine) (parameter : option Z) (now : Z) : Player * list Effect :=
  if negb (suspending m) then (p, [fx_print "Can only jump when pausing!"])
  else if negb (bool_decide (streamed_state p = ss_playing)) || negb (is_open (line_source p)) then
    (p, [fx_print "No streamed job is active"])
  else match parameter with
  | None => (p, [])
  | Some n =>
      let line := if n <? 1 then 1 else n in
      (p <| goto_line := line |> <| line_source := close (line_source p) |> <| streamed_state := ss_seeking |>
         <| streamed_last_request_us := now |> <| streamed_wait_started_us := now |>,
       [fx_packet PTYPE_GOTO_START (write_be16 (filename_crc p) ++ write_be32 line); fx_print "Goto line"])
  end.

(** ** The main loop *)

(** Up to the first null.
    [src/src/modules/utils/player/Player.cpp:1667-1667] Player::on_main_loop *)
Fixpoint strlen (s : list Z) : nat := match s with [] => 0 | c :: s => if c =? 0 then 0 else S (strlen s) end.
(** [src/src/modules/utils/player/Player.cpp:1760-1763] Player::on_main_loop *)
Fixpoint is_ocode (s : list Z) : bool :=
  match s with
  | c :: s => if (c =? 32) || (c =? 9) then is_ocode s else (c =? 79) || (c =? 111)
  | [] => false
  end.

(** A complete line, neither empty nor discarded; a build that streams has no SD card.
    [src/src/modules/utils/player/Player.cpp:1797-1813] Player::on_main_loop *)
Definition play_line (p : Player) (m : Machine) (line_by_line : bool) (line : list Z) : Player * list Effect :=
  let p := p <| file_line := u32 (file_line p + 1) |> in
  if is_ocode line then
    let '(p, fx) := abort_command p m false in
    (p, fx_print "ERROR: O-codes are not available without local file storage" :: fx)
  else
    (sync_progress_max p,
     (if verbose p then [fx_echo line] else []) ++ fx_dispatch line (file_line p) ::
     if line_by_line && (2 <? length line)%nat && negb (line !!! 0%nat =? 59) && negb (line !!! 0%nat =? 40)
     then [fx_suspend] else []).

(** The job has ended, or its source failed.
    [src/src/modules/utils/player/Player.cpp:1836-1875] Player::on_main_loop *)
Definition finish_job (p : Player) (m : Machine) : Player * list Effect :=
  if negb (conveyor_idle m) then (p, [])
  else
    let '(p, fx) := save_last_progress p in
    (p <| playing_file := false |> <| filename := [] |> <| played_cnt := 0 |> <| played_lines := 0 |>
       <| file_line := 0 |> <| playing_lines := 0 |> <| goto_line := 0 |> <| file_size := 0 |>
       <| line_source := close (line_source p) |> <| streamed_state := ss_idle |> <| verbose := false |>,
     fx ++ [fx_packet PTYPE_PLAY_END []; fx_job_complete]).

(** The note a discarded line gets once.
    [src/src/modules/utils/player/Player.cpp:1815-1820] Player::on_main_loop *)
Definition discard_note (p : Player) (discard : bool) : list Effect :=
  if negb discard && verbose p then [fx_print "Warning: Discarded long line"] else [].

(** The reading loop. Every turn that goes on takes a line out, so the lines
    queued bound the turns ([play_lines_total]). The [ON_IDLE] calls of a long
    discard are left out.
    [src/src/modules/utils/player/Player.cpp:1663-1681] Player::on_main_loop *)
Fixpoint play_lines (fuel : nat) (p : Player) (m : Machine) (line_by_line : bool) (now : Z) (discard : bool)
    : option (Player * list Effect) :=
  match fuel with
  | O => None
  | S fuel =>
      let '(b, result, buf) := read (line_source p) 130 in
      let p := p <| line_source := b |> in
      match result with
      | lr_data =>
          let len := strlen buf in
          if (len =? 0)%nat then play_lines fuel p m line_by_line now discard
          else if (buf !!! (len - 1)%nat =? 10) || at_end b then
            if discard then play_lines fuel p m line_by_line now false
            else if (len =? 1)%nat then
              play_lines fuel (sync_progress_max (p <| file_line := u32 (file_line p + 1) |>)) m line_by_line now discard
            else Some (play_line p m line_by_line (take len buf))
          else
            match play_lines fuel p m line_by_line now true with
            | Some (p', fx) =>
                Some (p', discard_note p discard ++ fx)
            | None => None
            end
      | lr_waiting => Some (maintain_streamed_source p m now)
      | _ => Some (finish_job p m)
      end
  end.

(** A turn of the main loop, after the machine has booted; [buffered] is a
    command waiting in [buffered_queue].
    [src/src/modules/utils/player/Player.cpp:1621-1646] Player::on_main_loop *)
Definition main_loop_turn (p : Player) (m : Machine) (line_by_line inner_playing : bool) (buffered : option (list Z))
    (now : Z) : option (Player * list Effect) :=
  let '(p, fx1) := maintain_streamed_source p m now in
  if negb (playing_file p) || halted m || suspending m || waiting m || inner_playing then Some (p, fx1)
  else
    let '(p, fx2) := maintain_streamed_source p m now in
    match buffered with
    | Some line => Some (p, fx1 ++ fx2 ++ [fx_dispatch line 0])
    | None =>
        match play_lines (S (queued (line_source p))) p m line_by_line now false with
        | Some (p, fx3) => Some (p, fx1 ++ fx2 ++ fx3)
        | None => None
        end
    end.

(** ** The reading loop ends *)
Lemma play_lines_total fuel p m lbl now discard q :
  represents (line_source p) q -> (length (q_lines q) < fuel)%nat ->
  is_Some (play_lines fuel p m lbl now discard).
Proof.
  revert p discard q. induction fuel as [|fuel IH]; intros p discard q Hr Hf; [lia|]. cbn [play_lines].
  pose proof (read_represents _ _ 130 Hr) as H. destruct (read (line_source p) 130) as [[b r] buf].
  destruct (q_read q 130) as [[q' r'] buf'] eqn:Hq. destruct H as (<- & <- & Hb & _).
  destruct r; [|by eexists..]. unfold q_read in Hq. destruct (negb (q_open q)); [done|].
  destruct (q_lines q) as [|l ls] eqn:Hl; [by destruct (q_eof q)|]. destruct (_ <=? _); [done|].
  assert (Hsome : forall p' d, line_source p' = b -> is_Some (play_lines fuel p' m lbl now d)).
  { intros p' d Hp. apply (IH p' d q'); [by rewrite Hp|]. injection Hq as <- _. cbn [q_lines length] in *. lia. }
  cbv zeta. destruct (_ =? 0)%nat; [by apply Hsome|]. destruct (_ || _).
  - destruct discard; [by apply Hsome|]. destruct (_ =? 1)%nat; [|by eexists]. apply Hsome.
    unfold sync_progress_max. cbv zeta. by repeat case_match.
  - set (p1 := p <| line_source := b |>). destruct (Hsome p1 true eq_refl) as [[p' fx] ->]. by eexists.
Qed.

(** ** A stream plays its file *)

Definition dispatched (fx : list Effect) : list (list Z) :=
  omap (fun e => match e with fx_dispatch l _ => Some l | _ => None end) fx.
Lemma dispatched_app a b : dispatched (a ++ b) = dispatched a ++ dispatched b.
Proof. apply omap_app. Qed.

(** Ends what the source of lines is to the stream: the same, or closed with the session. *)
Definition quiet (p p' : Player) : Prop :=
  filename_crc p' = filename_crc p /\
  (line_source p' = line_source p /\ streamed_state p' = streamed_state p /\ playing_file p' = playing_file p \/
   line_source p' = close (line_source p) /\ streamed_state p' = ss_idle /\ playing_file p' = false).

Lemma quiet_refl p : quiet p p. Proof. by split; [|left]. Qed.

Lemma request_quiet p now :
  quiet p (fst (request_streamed_lines p now)) /\ dispatched (snd (request_streamed_lines p now)) = [].
Proof.
  unfold request_streamed_lines. destruct (_ || _); [split; [apply quiet_refl|done]|]. cbv zeta. cbn [fst snd].
  split; [|done]. unfold quiet. destruct (_ || _); recs; auto.
Qed.

(** With no open source there is a session, or nothing to abort. *)
Lemma abort_quiet p m e :
  (streamed_state p = ss_idle -> playing_file p = false /\ open_ (line_source p) = false) ->
  quiet p (fst (abort_command p m e)) /\ dispatched (snd (abort_command p m e)) = [].
Proof.
  intros Hi. unfold abort_command, streamed_session_active, is_open.
  destruct (aborted m); [by split; [apply quiet_refl|]|].
  destruct (bool_decide_reflect (streamed_state p = ss_idle)) as [Hs|Hs]; cbn [negb].
  - destruct (Hi Hs) as [-> ->]. cbn. by split; [apply quiet_refl|].
  - rewrite andb_false_r. unfold save_last_progress, reset_streamed_playback. cbn [fst snd].
    split; [by split; [|right]|]. unfold leave_suspend. by destruct (suspending m).
Qed.

Lemma maintain_quiet p m now :
  (streamed_state p = ss_idle -> playing_file p = false /\ open_ (line_source p) = false) ->
  quiet p (fst (maintain_streamed_source p m now)) /\ dispatched (snd (maintain_streamed_source p m now)) = [].
Proof.
  intros Hi. unfold maintain_streamed_source. destruct (_ && _).
  - pose proof (abort_quiet p m false Hi) as H. destruct (abort_command p m false). done.
  - cbv zeta. assert (Hq : forall t, quiet p (p <| streamed_last_request_us := t |>)) by (by split; [|left]).
    destruct (streamed_state p) eqn:Hs; repeat case_match;
      first [apply request_quiet | split; [first [apply quiet_refl|apply Hq]|done]].
Qed.

Lemma finish_quiet p m : quiet p (fst (finish_job p m)) /\ dispatched (snd (finish_job p m)) = [].
Proof.
  unfold finish_job. destruct (negb _); [by split; [apply quiet_refl|]|]. unfold save_last_progress. cbn [fst snd].
  split; [by split; [|right]|done].
Qed.

Section Stream.
(** The file as the controller holds it: complete lines, none an O-code, none too
    long, no nulls. [crc] is the checksum of its name. *)
Context (file : list (list Z)) (crc : Z).

Definition complete_line (l : list Z) : Prop :=
  exists body, l = body ++ [10] /\ Forall (fun b => b <> 0 /\ b <> 10) body.
Definition playable_file : Prop :=
  is_u16 crc /\ is_u32 (Z.of_nat (length file)) /\
  Forall (fun l => complete_line l /\ too_long l = false /\ is_ocode l = false) file.

(** The packets of a controller that sends lines of this file where it says they
    are, in any order and as often as it likes, data of other files, and its end
    or cancellation at any time. *)
Inductive from_controller : Z -> list Z -> Prop :=
| pk_view size : from_controller PTYPE_PLAY_VIEW (write_be16 crc ++ write_be32 size)
| pk_data k n :
    (k + n <= length file)%nat ->
    from_controller PTYPE_PLAY_DATA (write_be16 crc ++ write_be32 (Z.of_nat k) ++ concat (slice k n file))
| pk_other other data :
    is_u16 other -> other <> crc -> from_controller PTYPE_PLAY_DATA (write_be16 other ++ data)
| pk_end : from_controller PTYPE_PLAY_END []
| pk_can : from_controller PTYPE_PLAY_CAN [].

(** The player and the lines it has given to the console. *)
Inductive job_step : Player * list (list Z) -> Player * list (list Z) -> Prop :=
| js_packet p out m type data now :
    from_controller type data ->
    job_step (p, out)
      (fst (handle_link_packet p m type data now), out ++ dispatched (snd (handle_link_packet p m type data now)))
| js_turn p out m lbl ip now p' fx :
    main_loop_turn p m lbl ip None now = Some (p', fx) -> job_step (p, out) (p', out ++ dispatched fx).

(** An empty line is not dispatched. *)
Definition played (l : list Z) : bool := negb (length l =? 1)%nat.

Record stream_inv (p : Player) (out : list (list Z)) (k : nat) : Prop := mk_stream_inv {
  si_crc : filename_crc p = crc;
  si_state : streamed_state p <> ss_seeking;
  si_idle : streamed_state p = ss_idle -> playing_file p = false /\ open_ (line_source p) = false;
  si_first : streamed_state p = ss_opening -> k = 0%nat;
  si_out : out = List.filter played (take k file) /\ (k <= length file)%nat;
  si_source : exists q, represents (line_source p) q /\
    (q_open q = true ->
       streamed_state p = ss_playing /\ q_crc q = crc /\ (k + length (q_lines q) <= length file)%nat /\
       q_lines q = slice k (length (q_lines q)) file /\ q_next q = Z.of_nat (k + length (q_lines q)))
}.

Lemma lines_of_complete ls : Forall complete_line ls -> lines_of (concat ls) = ls.
Proof.
  induction 1 as [|l ls (body & -> & Hb) _ IH]; [done|]. cbn [concat]. rewrite <- app_assoc. cbn [app].
  rewrite lines_of_line, IH; [done|]. intros Hin. by destruct (proj1 (list.Forall_forall _ _) Hb _ Hin).
Qed.

Lemma close_represents b q : represents b q -> represents (close b) (mk_queue [] 0 0 0 false false).
Proof.
  intros H. apply (empty_represents b 0 0 0 false); [apply H..|ints].
Qed.

Lemma quiet_inv p p' out k : quiet p p' -> stream_inv p out k -> stream_inv p' out k.
Proof.
  intros [Hc [(Hl & Hs & Hp)|(Hl & Hs & Hp)]] H; destruct H as [H1 H2 H3 H4 H5 (q & Hq & Ho)]; split; try congruence.
  - rewrite Hs, Hp, Hl. done.
  - rewrite Hs. done.
  - exists q. rewrite Hl, Hs. done.
  - intros _. rewrite Hp, Hl. done.
  - rewrite Hl. exists (mk_queue [] 0 0 0 false false). split; [by eapply close_represents|done].
Qed.

Lemma slice_extend {A} (l : list A) k a n : slice k a l ++ slice (k + a) n l = slice k (a + n) l.
Proof. unfold slice. rewrite <- drop_drop. by rewrite take_take_drop. Qed.

(** A data packet appends lines of the file, or nothing. *)
Lemma data_inv p out k j n :
  playable_file -> (j + n <= length file)%nat -> stream_inv p out k ->
  let r := handle_play_data p (write_be16 crc ++ write_be32 (Z.of_nat j) ++ concat (slice j n file)) in
  stream_inv (fst r) out k /\ dispatched (snd r) = [].
Proof.
  intros (Hcrc & Hlen & Hf) Hj H. cbv zeta. unfold handle_play_data.
  destruct (_ || _) eqn:Hshort; [done|]. apply orb_false_iff in Hshort as [_ Hopen].
  rewrite read_write_be16 by done. change (drop 2 (write_be16 crc ++ ?l)) with l.
  change (drop 6 (write_be16 crc ++ write_be32 ?v ++ ?l)) with l.
  rewrite read_write_be32 by (unfold is_uint in *; lia).
  destruct H as [H1 H2 H3 H4 H5 (q & Hq & Ho)].
  pose proof (append_represents _ q crc (Z.of_nat j) (concat (slice j n file)) Hq) as Ha.
  unfold is_open in Hopen. rewrite (rep_open _ _ Hq), negb_false_iff in Hopen. destruct (Ho Hopen) as (Hs & Hqc & Hb & Hql & Hqn).
  destruct (append_lines _ _ _ _) as [b r]. destruct (q_append _ q _ _ _) as [q' r'] eqn:Hqa.
  destruct Ha as (<- & Hb' & _).
  assert (Hkeep : q' = q -> stream_inv (p <| line_source := b |>) out k).
  { intros ->. split; recs; try done; [intros Hi; congruence|]. by exists q. }
  assert (Hsl : Forall complete_line (slice j n file) /\ existsb too_long (slice j n file) = false).
  { assert (Forall (fun l => complete_line l /\ too_long l = false /\ is_ocode l = false) (slice j n file)) as Hg
      by (unfold slice; by apply Forall_take, Forall_drop). clear -Hg.
    induction Hg as [|l ls (Hc & Ht & _) _ [IH1 IH2]]; [done|]. cbn [existsb]. rewrite Ht. split; [by constructor|done]. }
  destruct Hsl as [Hsl Htl]. unfold q_append in Hqa. rewrite (lines_of_complete _ Hsl), Htl in Hqa.
  destruct (negb (q_open q) || q_eof q); [injection Hqa as <- <-; by split; [apply Hkeep|]|].
  destruct (bool_decide _); [injection Hqa as <- <-; by split; [apply Hkeep|]|].
  destruct (negb (crc =? q_crc q)); [injection Hqa as <- <-; by split; [apply Hkeep|]|].
  destruct (Z.eqb_spec (Z.of_nat j) (q_next q)) as [Hn|]; cbn [negb] in Hqa.
  2: { injection Hqa as <- <-. split; [|done]. cbn [fst]. specialize (Hkeep eq_refl).
       destruct Hkeep as [K1 K2 K3 K4 K5 K6]. by split. }
  destruct (_ <? _)%nat; injection Hqa as <- <-; (split; [|done]); cbn [fst].
  - specialize (Hkeep eq_refl). destruct Hkeep as [K1 K2 K3 K4 K5 K6]. by split.
  - split; recs; try done; [intros Hi; congruence|]. eexists. split; [exact Hb'|].
    cbn [q_open q_crc q_lines q_next]. intros _. assert (j = k + length (q_lines q))%nat as -> by lia.
    assert (Hls : length (slice (k + length (q_lines q)) n file) = n) by (rewrite length_slice by lia; done).
    rewrite length_app, Hls. split_and!; [done|done|lia| |].
    + rewrite Hql at 1. rewrite slice_extend. done.
    + rewrite Hqn, wrap_small; [lia|unfold is_uint in *; lia].
Qed.

Lemma view_inv p out k size now :
  playable_file -> stream_inv p out k ->
  let r := handle_play_view p (write_be16 crc ++ write_be32 size) now in
  stream_inv (fst r) out k /\ dispatched (snd r) = [].
Proof.
  intros (Hcrc & Hlen & Hf) H. cbv zeta. unfold handle_play_view.
  destruct (bool_decide_reflect (streamed_state p = ss_opening)) as [Ho|]; cbn [negb orb]; [|done].
  cbn [length app write_be16 write_be32 Nat.ltb Nat.leb]. change (u8 (Z.shiftr crc 8) :: u8 crc :: ?l) with (write_be16 crc ++ l).
  rewrite read_write_be16 by done. rewrite (si_crc _ _ _ H), Z.eqb_refl. cbn [negb].
  match goal with |- context [request_streamed_lines ?p1 now] => set (p1' := p1) end.
  assert (stream_inv p1' out k) as Hp.
  { destruct H as [H1 H2 H3 H4 H5 (q & Hq & _)]. specialize (H4 Ho) as ->.
    assert (line_source p1' = begin (line_source p) crc 0 0 /\ filename_crc p1' = crc /\ streamed_state p1' = ss_playing)
      as (El & Ec & Es) by done.
    clearbody p1'. split; rewrite ?El, ?Ec, ?Es; try done.
    exists (mk_queue [] crc 0 0 true false). split; [|intros _; cbn; split_and!; [done|done|lia|done|done]].
    apply (empty_represents (line_source p) crc 0 0 true); [apply Hq..|ints]. }
  destruct (request_quiet p1' now) as [Hq Hd]. destruct (request_streamed_lines p1' now) as [p2 fx].
  split; [by eapply quiet_inv|done].
Qed.

Lemma packet_inv p out k m type data now :
  playable_file -> from_controller type data -> stream_inv p out k ->
  let r := handle_link_packet p m type data now in
  stream_inv (fst r) out k /\ dispatched (snd r) = [].
Proof.
  intros Hf Hd H. cbv zeta. destruct Hd as [size|j n Hj|other data Hu Hne| |].
  - apply (view_inv p out k size now Hf H).
  - apply (data_inv p out k j n Hf Hj H).
  - change (handle_link_packet p m PTYPE_PLAY_DATA ?d now) with (handle_play_data p d). unfold handle_play_data.
    destruct (_ || _) eqn:Hshort; [done|]. apply orb_false_iff in Hshort as [_ Hopen]. rewrite read_write_be16 by done.
    destruct H as [H1 H2 H3 H4 H5 (q & Hq & Ho)]. unfold is_open in Hopen. rewrite negb_false_iff in Hopen.
    pose proof (append_represents _ q other (read_be32 (drop 2 (write_be16 other ++ data))) (drop 6 (write_be16 other ++ data)) Hq) as Ha.
    destruct (append_lines _ _ _ _) as [b r]. destruct (q_append _ q _ _ _) as [q' r'] eqn:Hqa. destruct Ha as (<- & Hb & _).
    assert (q' = q /\ (r = ar_not_receiving \/ r = ar_invalid_data \/ r = ar_wrong_file)) as [-> Hr].
    { rewrite (rep_open _ _ Hq) in Hopen. destruct (Ho Hopen) as (_ & Hqc & _). unfold q_append in Hqa.
      destruct (_ || _); [injection Hqa as <- <-; auto|]. destruct (bool_decide _); [injection Hqa as <- <-; auto|].
      destruct (Z.eqb_spec other (q_crc q)); [congruence|]. injection Hqa as <- <-; auto. }
    assert (stream_inv (p <| line_source := b |>) out k) as Hi.
    { split; recs; try done; [|by exists q].
      intros Hs. rewrite (rep_open _ _ Hq) in Hopen. destruct (Ho Hopen) as [Hpl _]. congruence. }
    destruct Hr as [-> |[-> | ->]]; done.
  - change (handle_link_packet p m PTYPE_PLAY_END [] now) with
      (p <| line_source := fst (mark_end (line_source p) (filename_crc p)) |> <| streamed_wait_started_us := 0 |>, @nil Effect).
    split; [|done]. cbn [fst]. unfold mark_end. destruct H as [H1 H2 H3 H4 H5 (q & Hq & Ho)].
    destruct (negb _ || _) eqn:He; cbn [fst].
    + split; recs; try done. by exists q.
    + apply orb_false_iff in He as [He _]. rewrite negb_false_iff in He. split; recs; try done.
      exists (mk_queue (q_lines q) (q_crc q) (q_consumed q) (q_next q) (q_open q) true). split; [|done].
      destruct Hq; by split.
  - unfold handle_link_packet. cbn [Z.eqb Pos.eqb]. change (PTYPE_PLAY_CAN =? PTYPE_PLAY_VIEW) with false.
    change (PTYPE_PLAY_CAN =? PTYPE_PLAY_DATA) with false. change (PTYPE_PLAY_CAN =? PTYPE_GOTO_LINES) with false.
    change (PTYPE_PLAY_CAN =? PTYPE_PLAY_END) with false. change (PTYPE_PLAY_CAN =? PTYPE_PLAY_CAN) with true. cbv iota.
    destruct (_ || _); [done|]. unfold save_last_progress, reset_streamed_playback. cbn [fst snd].
    split; [|unfold leave_suspend; by destruct (suspending m)]. eapply quiet_inv; [|exact H]. by split; [|right].
Qed.

(** ** Reading *)
Lemma strlen_line body rest : Forall (fun b => b <> 0 /\ b <> 10) body -> strlen (body ++ 10 :: 0 :: rest) = S (length body).
Proof.
  induction 1 as [|b body [Hb _] _ IH]; [done|]. cbn [app strlen length]. apply Z.eqb_neq in Hb. by rewrite Hb, IH.
Qed.

Lemma quiet_result p r out k p' fx :
  stream_inv p out k -> quiet p (fst r) /\ dispatched (snd r) = [] -> r = (p', fx) ->
  stream_inv p' (out ++ dispatched fx) k.
Proof. intros H [Hq Hd] ->. cbn [fst snd] in *. rewrite Hd, app_nil_r. by eapply quiet_inv. Qed.

Lemma play_lines_inv fuel p m lbl now out k p' fx :
  playable_file -> stream_inv p out k -> play_lines fuel p m lbl now false = Some (p', fx) ->
  exists k', stream_inv p' (out ++ dispatched fx) k'.
Proof.
  intros Hf. revert p k p' fx. induction fuel as [|fuel IH]; intros p k p' fx H Hplay; [done|]. cbn [play_lines] in Hplay.
  pose proof H as [H1 H2 H3 H4 [H5 Hk] (q & Hq & Ho)].
  pose proof (read_represents _ _ 130 Hq) as Hr. destruct (read (line_source p) 130) as [[b r] buf].
  destruct (q_read q 130) as [[q' r'] buf'] eqn:Hqr. destruct Hr as (<- & <- & Hb & _).
  unfold q_read in Hqr. destruct (q_open q) eqn:Hopen; cbn [negb] in Hqr.
  2: { injection Hqr as <- <- <-. assert (stream_inv (p <| line_source := b |>) out k) as Hi.
       { split; recs; try done; [|exists q; by rewrite Hopen].
         intros Hs. destruct (H3 Hs). by rewrite (rep_open _ _ Hb), Hopen. }
       injection Hplay as Hplay. exists k. eapply quiet_result; [exact Hi|apply finish_quiet|exact Hplay]. }
  destruct (Ho eq_refl) as (Hs & Hqc & Hbound & Hql & Hqn).
  destruct (q_lines q) as [|l ls] eqn:Hl.
  { injection Hqr as <- <- <-. assert (stream_inv (p <| line_source := b |>) out k) as Hi.
    { split; recs; try done; [intros ?; congruence|]. exists q. rewrite Hl. done. }
    exists k. destruct (q_eof q); injection Hplay as Hplay; (eapply quiet_result; [exact Hi| |exact Hplay]).
    - apply finish_quiet.
    - apply maintain_quiet, (si_idle _ _ _ Hi). }
  assert (Hlk : file !! k = Some l).
  { cbn [length] in *. apply (f_equal (fun x => x !! 0%nat)) in Hql. unfold slice in Hql.
    rewrite lookup_take_lt, lookup_drop, Nat.add_0_r in Hql by lia. by rewrite <- Hql. }
  destruct Hf as (Hcrc & Hlen & Hf). pose proof (Forall_lookup_1 _ _ _ _ Hf Hlk) as ((body & -> & Hbody) & Htl & Hoc).
  unfold too_long, line_capacity in Htl. rewrite Htl in Hqr. injection Hqr as <- <- <-. cbv zeta in Hplay.
  assert (Hlen1 : length (body ++ [10]) = S (length body)) by (rewrite length_app; cbn; lia).
  rewrite <- app_assoc in Hplay. cbn [app] in Hplay. rewrite strlen_line in Hplay by done. cbn [Nat.eqb] in Hplay.
  replace (S (length body) - 1)%nat with (length body) in Hplay by lia.
  rewrite (list_lookup_total_middle body [0] 10 _ eq_refl) in Hplay. cbn [Z.eqb Pos.eqb orb] in Hplay.
  assert (Htake : out ++ (if played (body ++ [10]) then [body ++ [10]] else []) = List.filter played (take (S k) file)).
  { rewrite (take_S_r _ _ _ Hlk), List.filter_app, <- H5. cbn. by destruct (played (body ++ [10])). }
  assert (Hnext : forall p1, filename_crc p1 = crc -> streamed_state p1 = ss_playing -> line_source p1 = b ->
    stream_inv p1 (out ++ (if played (body ++ [10]) then [body ++ [10]] else [])) (S k)).
  { intros p1 C1 C2 C3. split; rewrite ?C1, ?C2, ?C3; try done.
    - split; [done|]. apply lookup_lt_Some in Hlk. lia.
    - eexists. split; [exact Hb|]. cbn [q_open q_crc q_lines q_next length] in *. intros _.
      split_and!; [done|done|lia| |lia]. apply (f_equal (drop 1)) in Hql. cbn [drop] in Hql. rewrite Hql at 1.
      unfold slice. rewrite skipn_firstn_comm, drop_drop. f_equal; [lia|]. f_equal. lia. }
  destruct (Nat.eqb_spec (length body) 0) as [H0|H0].
  - rewrite <- (app_nil_r out). assert (played (body ++ [10]) = false) as Hp by (unfold played; by rewrite Hlen1, H0).
    rewrite Hp in Hnext. rewrite <- app_assoc. cbn [app]. rewrite <- (app_nil_r out) in IH |- *.
    eapply IH; [|exact Hplay]. rewrite app_nil_r in Hnext |- *.
    apply Hnext; unfold sync_progress_max; cbv zeta; repeat case_match; recs; done.
  - assert (played (body ++ [10]) = true) as Hp by (unfold played; rewrite Hlen1; by destruct (length body)).
    rewrite Hp in Hnext. injection Hplay as Hplay.
    replace (S (length body)) with (length (body ++ [10])) in Hplay by done.
    replace (body ++ [10; 0]) with ((body ++ [10]) ++ [0]) in Hplay by (by rewrite <- app_assoc).
    rewrite take_app_length in Hplay. unfold play_line in Hplay. rewrite Hoc in Hplay. injection Hplay as <- <-.
    exists (S k). rewrite dispatched_app.
    replace (dispatched (if verbose _ then _ else _)) with (@nil (list Z)) by (by destruct (verbose _)).
    cbn [app]. cbn [dispatched omap list_omap].
    match goal with |- context [if ?c then [fx_suspend] else []] => destruct c end; cbn [omap list_omap].
    all: apply Hnext; unfold sync_progress_max; cbv zeta; repeat case_match; recs; done.
Qed.
Lemma turn_inv p out k m lbl ip now p' fx :
  playable_file -> stream_inv p out k -> main_loop_turn p m lbl ip None now = Some (p', fx) ->
  exists k', stream_inv p' (out ++ dispatched fx) k'.
Proof.
  intros Hf H Ht. unfold main_loop_turn in Ht.
  pose proof (maintain_quiet p m now (si_idle _ _ _ H)) as H1. destruct (maintain_streamed_source p m now) as [p1 fx1].
  assert (Hi1 : stream_inv p1 (out ++ dispatched fx1) k) by (by eapply quiet_result).
  destruct (_ || _); [injection Ht as <- <-; by exists k|].
  pose proof (maintain_quiet p1 m now (si_idle _ _ _ Hi1)) as H2. destruct (maintain_streamed_source p1 m now) as [p2 fx2].
  assert (Hi2 : stream_inv p2 ((out ++ dispatched fx1) ++ dispatched fx2) k) by (by eapply quiet_result).
  destruct (play_lines _ _ _ _ _ _) as [[p3 fx3]|] eqn:Hp; [|done]. injection Ht as <- <-.
  rewrite !dispatched_app, !app_assoc. by eapply play_lines_inv.
Qed.

(** C23: A streamed job runs its file, in order. Whatever the controller's packets
    (lines of the file at the place they name, in any order, repeated or lost,
    packets of other files, the end or a cancellation at any time), however they
    interleave with the main loop, and whatever times out in between, the lines
    given to the console are the file's lines from its first on, none left out,
    repeated or swapped, empty lines apart. The file's lines are whole, fit the
    player's buffer and are no O-codes. *)
Theorem streamed_job_in_order p q verbose_ now s :
  playable_file -> represents (line_source p) q ->
  star job_step (fst (start_streamed_playback p crc verbose_ now), []) s ->
  exists k, (k <= length file)%nat /\ snd s = List.filter played (take k file).
Proof.
  intros Hf Hp Hrun.
  assert (exists k, stream_inv (fst s) (snd s) k) as [k H]; [|exists k; by destruct (si_out _ _ _ H)].
  refine (star_invariant _ (fun s => exists k, stream_inv (fst s) (snd s) k) _ _ _ Hrun _).
  - intros a b [k H] Hstep. destruct Hstep as [p0 out m type data t Hd|p0 out m lbl ip t p1 fx Ht]; cbn [fst snd] in *.
    + destruct (packet_inv p0 out k m type data t Hf Hd H) as [Hi ->]. rewrite app_nil_r. by exists k.
    + by eapply turn_inv.
  - exists 0%nat. unfold start_streamed_playback. cbn [fst snd].
    match goal with |- stream_inv ?p1 _ _ => set (p1' := p1) end.
    assert (line_source p1' = close (line_source p) /\ filename_crc p1' = crc /\ streamed_state p1' = ss_opening)
      as (El & Ec & Es) by done.
    clearbody p1'. split; rewrite ?El, ?Ec, ?Es; try done; [split; [done|lia]|].
    exists (mk_queue [] 0 0 0 false false). split; [|done].
    by eapply close_represents.
Qed.
End Stream.

(** The main loop's turn always returns. *)
Theorem main_loop_turn_total p m lbl ip buffered now q :
  represents (line_source p) q -> (streamed_state p = ss_idle -> playing_file p = false /\ open_ (line_source p) = false) ->
  is_Some (main_loop_turn p m lbl ip buffered now).
Proof.
  intros Hq Hi. unfold main_loop_turn.
  assert (Hrep : forall p', quiet p p' -> exists q', represents (line_source p') q').
  { intros p' [_ [(-> & _)|(-> & _)]]; [by exists q|]. eexists. by eapply close_represents. }
  destruct (maintain_quiet p m now Hi) as [Hq1 _]. destruct (maintain_streamed_source p m now) as [p1 fx1]. cbn [fst] in Hq1.
  destruct (_ || _); [by eexists|].
  assert (Hi1 : streamed_state p1 = ss_idle -> playing_file p1 = false /\ open_ (line_source p1) = false).
  { destruct Hq1 as [_ [(-> & -> & ->)|(-> & _ & ->)]]; done. }
  destruct (maintain_quiet p1 m now Hi1) as [Hq2 _]. destruct (maintain_streamed_source p1 m now) as [p2 fx2]. cbn [fst] in Hq2.
  assert (exists q', represents (line_source p2) q') as [q2 Hr].
  { destruct (Hrep p1 Hq1) as [q1 Hr1]. destruct Hq2 as [_ [(-> & _)|(-> & _)]]; [by exists q1|].
    eexists. by eapply close_represents. }
  destruct buffered; [by eexists|]. unfold queued.
  destruct (play_lines_total (S (count_ (line_source p2))) p2 m lbl now false q2 Hr) as [[p3 fx3] ->]; [|by eexists].
  rewrite (rep_count _ _ Hr). lia.
Qed.

(** *** Concrete runs *)
Definition stream_storage : list Line := repeat (mk_line (repeat 0 130) 0) streamed_line_count.
Definition new_player : Player :=
  mk_player (new_job_buffer stream_storage streamed_line_count) ss_idle 0 0 0 0 false false 0 0 0 0 0 0 0 false [] false.
Definition calm : Machine := mk_machine false false false false true.

Lemma new_player_represents : represents (line_source new_player) (mk_queue [] 0 0 0 false false).
Proof. apply (empty_represents (line_source new_player) 0 0 0 false); [done|cbn; unfold streamed_line_count; lia| |ints]. by repeat constructor. Qed.

Definition line (s : string) : list Z := chars s ++ [10].
Definition witness_file : list (list Z) := [line "G1 X2"; line ""; line "M5"].

Lemma witness_file_playable : playable_file witness_file 7.
Proof.
  split; [ints|]. split; [cbn; ints|].
  assert (H : forall s, Forall (fun b => b <> 0 /\ b <> 10) (chars s) -> complete_line (line s)) by (intros s Hs; by exists (chars s)).
  repeat (apply Forall_cons_2; [split; [apply H; concrete|done]|]). apply Forall_nil_2.
Qed.

(** Opening, the three lines in one packet, and two turns: an empty line is passed over. *)
Lemma streamed_job_in_order_witness :
  exists s, star (job_step witness_file 7) (fst (start_streamed_playback new_player 7 false 5), []) s /\
    snd s = [line "G1 X2"; line "M5"] /\
    exists k, (k <= length witness_file)%nat /\ snd s = List.filter played (take k witness_file).
Proof.
  assert (Hs : exists s, star (job_step witness_file 7) (fst (start_streamed_playback new_player 7 false 5), []) s /\
    snd s = [line "G1 X2"; line "M5"]).
  { eexists. split.
    - eapply star_step; [eapply star_step; [eapply star_step; [eapply star_step; [apply star_refl|]|]|]|].
      + apply (js_packet _ _ _ _ calm _ _ 6 (pk_view _ _ 100)).
      + apply (js_packet _ _ _ _ calm _ _ 7 (pk_data witness_file 7 0 3 ltac:(cbn; lia))).
      + eapply (js_turn _ _ _ _ calm false false 8). vm_compute. reflexivity.
      + eapply (js_turn _ _ _ _ calm false false 9). vm_compute. reflexivity.
    - vm_compute. reflexivity. }
  destruct Hs as (s & Hs & Ho). exists s. split_and!; [done..|].
  apply (streamed_job_in_order witness_file 7 new_player _ false 5 s witness_file_playable new_player_represents Hs).
Defined.

(** *** What the code does that it does not mean to *)

Definition turn (p : Player) (now : Z) : Player * list Effect :=
  match main_loop_turn p calm false false None now with Some r => r | None => (p, []) end.

(** A last line without a line end is lost when the main loop reads it before the
    end of the stream has been received, and played when the end comes first. *)
Theorem unterminated_last_line_lost :
  let p := fst (start_streamed_playback new_player 7 false 5) in
  let p := fst (handle_link_packet p calm PTYPE_PLAY_VIEW (write_be16 7 ++ write_be32 2) 6) in
  let p := fst (handle_link_packet p calm PTYPE_PLAY_DATA (write_be16 7 ++ write_be32 0 ++ chars "M5") 7) in
  let '(p1, fx1) := turn p 8 in
  let p1 := fst (handle_link_packet p1 calm PTYPE_PLAY_END [] 9) in
  let '(p1, fx2) := turn p1 10 in
  let p2 := fst (handle_link_packet p calm PTYPE_PLAY_END [] 8) in
  let '(_, fx3) := turn p2 9 in
  dispatched (fx1 ++ fx2) = [] /\ streamed_state p1 = ss_idle /\ In fx_job_complete fx2 /\
  dispatched fx3 = [chars "M5"].
Proof. vm_compute. tauto. Qed.

(** After an identity mismatch the wait's time stays set with no session left: a
    minute after the start of the stream, every turn of the main loop reports the
    time-out and raises the abort event again. *)
Theorem mismatch_timeout_repeats p data now now' :
  streamed_state p = ss_opening -> (6 <= length data)%nat -> read_be16 data <> filename_crc p ->
  playing_file p = false -> open_ (line_source p) = false -> streamed_wait_started_us p <> 0 ->
  streamed_timeout_us < u32 (now' - streamed_wait_started_us p) ->
  let p' := fst (handle_play_view p data now) in
  turn p' now' = (p', [fx_print "ERROR: streamed job transfer timed out"; fx_event_abort; fx_print "Not currently playing"]).
Proof.
  intros Ho Hl Hc Hp Hop Hw Ht. unfold handle_play_view. rewrite bool_decide_true by done. cbn [negb orb].
  apply Nat.ltb_ge in Hl. rewrite Hl. apply Z.eqb_neq in Hc. rewrite Hc. cbn [negb fst].
  set (p' := p <| streamed_state := ss_idle |>). unfold turn, main_loop_turn.
  assert (maintain_streamed_source p' calm now' =
    (p', [fx_print "ERROR: streamed job transfer timed out"; fx_event_abort; fx_print "Not currently playing"])) as ->.
  { unfold maintain_streamed_source. change (streamed_wait_started_us p') with (streamed_wait_started_us p).
    apply Z.eqb_neq in Hw. apply Z.ltb_lt in Ht. rewrite Hw, Ht. cbn [negb andb].
    unfold abort_command, is_open, streamed_session_active. change (playing_file p') with (playing_file p).
    change (line_source p') with (line_source p). change (streamed_state p') with ss_idle. rewrite Hp, Hop. done. }
  change (playing_file p') with (playing_file p). rewrite Hp. done.
Qed.
