(* ===== verification/Binary32.v ===== *)
(** * Floating point

    [float] is IEEE 754 binary32 and is carried everywhere as its 32 bits, a
    [Z]; [double] is a [spec_float] of binary64. The operations are those of the
    Standard Library's specification of floating point, rounding to nearest
    even, as the compiler's soft-float routines do; comparisons are on the bits.
    Conversions to integers saturate, as those routines do. *)
From S2P Require Import Prelude.
From Stdlib Require Import Floats.SpecFloat.

(** ** Bits *)
Definition f_inf : Z := 0x7F800000.
Definition f_qnan : Z := 0x7FC00000.
Definition sign_bit (s : bool) : Z := if s then 2 ^ 31 else 0.
Definition exponent (x : Z) : Z := Z.land (Z.shiftr x 23) 0xFF.
Definition mantissa (x : Z) : Z := Z.land x 0x7FFFFF.
Definition of_bits (x : Z) : spec_float :=
  let s := Z.testbit x 31 in
  let e := exponent x in
  let m := mantissa x in
  if e =? 255 then if m =? 0 then S754_infinity s else S754_nan
  else if e =? 0 then match m with Zpos m => S754_finite s m (-149) | _ => S754_zero s end
  else match m + 2 ^ 23 with Zpos m => S754_finite s m (e - 150) | _ => S754_zero s end.
(** One formula serves normal and subnormal numbers: the leading bit carries
    into the exponent. *)
Definition to_bits (x : spec_float) : Z :=
  match x with
  | S754_zero s => sign_bit s
  | S754_infinity s => sign_bit s + f_inf
  | S754_nan => f_qnan
  | S754_finite s m e => sign_bit s + (e + 149) * 2 ^ 23 + Zpos m
  end.

(** ** Arithmetic *)
Definition fadd (x y : Z) : Z := to_bits (SFadd 24 128 (of_bits x) (of_bits y)).
Definition fsub (x y : Z) : Z := to_bits (SFsub 24 128 (of_bits x) (of_bits y)).
Definition fmul (x y : Z) : Z := to_bits (SFmul 24 128 (of_bits x) (of_bits y)).
Definition fdiv (x y : Z) : Z := to_bits (SFdiv 24 128 (of_bits x) (of_bits y)).
Definition fsqrt (x : Z) : Z := to_bits (SFsqrt 24 128 (of_bits x)).
Definition fneg (x : Z) : Z := to_bits (SFopp (of_bits x)).
Definition float_of_int (n : Z) : Z := to_bits (binary_normalize 24 128 n 0 false).
(** The library's [powf] with 2 multiplies. *)
Definition fsquare (x : Z) : Z := fmul x x.

(** ** Comparison *)
Definition is_nan (x : Z) : bool := f_inf <? Z.land x 0x7FFFFFFF.
(** Numbers in the order of the integers; the two zeros are one. *)
Definition key (x : Z) : Z := if Z.testbit x 31 then - Z.land x 0x7FFFFFFF else Z.land x 0x7FFFFFFF.
Definition ordered (x y : Z) : bool := negb (is_nan x) && negb (is_nan y).
Definition flt (x y : Z) : bool := ordered x y && (key x <? key y).
Definition fle (x y : Z) : bool := ordered x y && (key x <=? key y).
Definition feq (x y : Z) : bool := ordered x y && (key x =? key y).
(** [std::min]. *)
Definition fmin (x y : Z) : Z := if flt y x then y else x.

(** ** Conversions *)
Definition floor_of (s : bool) (m : positive) (e : Z) : Z := Z.shiftr (if s then Zneg m else Zpos m) (- e).
(** Halves go away from zero. *)
Definition round_of (s : bool) (m : positive) (e : Z) : Z :=
  let n := if e <? 0 then Z.shiftr (Zpos m + Z.shiftl 1 (- e - 1)) (- e) else Z.shiftl (Zpos m) e in
  if s then - n else n.
Definition trunc_of (s : bool) (m : positive) (e : Z) : Z := let n := Z.shiftr (Zpos m) (- e) in if s then - n else n.
Definition saturate (lo hi : Z) (conv : bool -> positive -> Z -> Z) (x : spec_float) : Z :=
  match x with
  | S754_zero _ | S754_nan => 0
  | S754_infinity s => if s then lo else hi
  | S754_finite s m e => Z.max lo (Z.min hi (conv s m e))
  end.
Definition u32_of_float (x : Z) : Z := saturate 0 (2 ^ 32 - 1) trunc_of (of_bits x).
Definition floorf (x : Z) : Z := match of_bits x with S754_finite s m e => float_of_int (floor_of s m e) | _ => x end.
(** An integer as a [float], with the sign of what it was rounded from. *)
Definition integral (s : bool) (n : Z) : Z := if n =? 0 then sign_bit s else float_of_int n.
Definition roundf (x : Z) : Z := match of_bits x with S754_finite s m e => integral s (round_of s m e) | _ => x end.
Definition ceilf (x : Z) : Z := match of_bits x with S754_finite s m e => integral s (- floor_of (negb s) m e) | _ => x end.
Definition fabsf (x : Z) : Z := Z.land x 0x7FFFFFFF.
(** The remainder of the quotient rounded towards zero, exactly. *)
Definition fmodf (x y : Z) : Z :=
  match of_bits x, of_bits y with
  | S754_finite s m e, S754_finite _ m' e' =>
      let k := Z.min e e' in
      let r := Z.shiftl (Zpos m) (e - k) mod Z.shiftl (Zpos m') (e' - k) in
      if r =? 0 then sign_bit s else to_bits (binary_normalize 24 128 (if s then - r else r) k s)
  | S754_nan, _ | _, S754_nan | S754_infinity _, _ | _, S754_zero _ => f_qnan
  | _, _ => x
  end.
(** The library's [lroundf], [long] of 32 bits. *)
Definition lroundf (x : Z) : Z := saturate (- 2 ^ 31) (2 ^ 31 - 1) round_of (of_bits x).

(** ** Doubles *)
Definition dmul (x y : spec_float) : spec_float := SFmul 53 1024 x y.
Definition ddiv (x y : spec_float) : spec_float := SFdiv 53 1024 x y.
Definition double_of_int (n : Z) : spec_float := binary_normalize 53 1024 n 0 false.
Definition double_of_float (x : Z) : spec_float :=
  match of_bits x with S754_finite s m e => binary_round 53 1024 s m e | y => y end.
(** [(int64_t)round(x)]. *)
Definition round_to_int64 (x : spec_float) : Z := saturate (- 2 ^ 63) (2 ^ 63 - 1) round_of x.

Example one_plus_two : fadd 0x3F800000 0x40000000 = 0x40400000. Proof. reflexivity. Qed.
Example third : fdiv 0x3F800000 0x40400000 = 0x3EAAAAAB. Proof. vm_compute. reflexivity. Qed.
Example root_two : fsqrt 0x40000000 = 0x3FB504F3. Proof. vm_compute. reflexivity. Qed.
Example small_third : fdiv 1 0x40400000 = 0 /\ fdiv 4 0x40400000 = 1. Proof. by vm_compute. Qed.
Example floor_down : floorf 0xBF000000 = 0xBF800000 /\ u32_of_float 0xBF800000 = 0. Proof. by vm_compute. Qed.

(** ** Numbers that are not negative

    Either zero, or a positive number, or infinity; their negatives. *)
Definition nonneg (x : Z) : Prop := x = 2 ^ 31 \/ 0 <= x <= f_inf.
#[export] Instance nonneg_dec x : Decision (nonneg x).
Proof. unfold nonneg. apply _. Defined.
Definition signed (s : bool) (x : spec_float) : Prop :=
  match x with
  | S754_zero _ => True
  | S754_infinity s' => s' = s
  | S754_nan => False
  | S754_finite s' m e => s' = s /\ Zpos m < 2 ^ 24 /\ -149 <= e <= 104
  end.

Lemma bits_fields x :
  0 <= mantissa x < 2 ^ 23 /\ 0 <= exponent x < 2 ^ 8 /\ x = (x / 2 ^ 31 * 2 ^ 8 + exponent x) * 2 ^ 23 + mantissa x.
Proof.
  assert (He : exponent x = (x / 2 ^ 23) mod 2 ^ 8).
  { unfold exponent. change 0xFF with (Z.ones 8). by rewrite Z.land_ones, Z.shiftr_div_pow2 by lia. }
  assert (Hm : mantissa x = x mod 2 ^ 23) by (unfold mantissa; change 0x7FFFFF with (Z.ones 23); by rewrite Z.land_ones).
  pose proof (Z.div_mod x (2 ^ 23) ltac:(lia)). pose proof (Z.mod_pos_bound x (2 ^ 23) ltac:(lia)).
  pose proof (Z.div_mod (x / 2 ^ 23) (2 ^ 8) ltac:(lia)) as H1. pose proof (Z.mod_pos_bound (x / 2 ^ 23) (2 ^ 8) ltac:(lia)).
  rewrite Z.div_div in H1 by lia. change (2 ^ 23 * 2 ^ 8) with (2 ^ 31) in H1. rewrite <- He in *. rewrite <- Hm in *. lia.
Qed.
Lemma sign_div x (s : bool) : 0 <= x < 2 ^ 32 -> (Z.testbit x 31 = s <-> x / 2 ^ 31 = Z.b2z s).
Proof.
  intros Hx. rewrite <- (Z.bit0_odd (x / 2 ^ 31)) || idtac. assert (Hd : 0 <= x / 2 ^ 31 < 2) by (split; [apply Z.div_pos; lia|apply Z.div_lt_upper_bound; lia]).
  destruct (Z.testbit x 31) eqn:Ht.
  - apply Z.testbit_true in Ht; [|lia]. destruct (Z.eq_dec (x / 2 ^ 31) 0) as [Hz|]; [rewrite Hz in Ht; done|].
    assert (x / 2 ^ 31 = 1) by lia. destruct s; split; try done; lia.
  - apply Z.testbit_false in Ht; [|lia]. destruct (Z.eq_dec (x / 2 ^ 31) 1) as [Hz|]; [rewrite Hz in Ht; done|].
    assert (x / 2 ^ 31 = 0) by lia. destruct s; split; try done; lia.
Qed.
Lemma of_bits_signed (s : bool) x :
  0 <= x < 2 ^ 32 -> x / 2 ^ 31 = Z.b2z s -> x <= sign_bit s + f_inf ->
  signed s (of_bits x) /\ (0 < x - sign_bit s < f_inf -> exists m e, of_bits x = S754_finite s m e).
Proof.
  intros Hx Hs Hm. pose proof (proj2 (sign_div x s Hx) Hs) as Ht. destruct (bits_fields x) as (Hb1 & Hb2 & Hb3). rewrite Hs in Hb3.
  unfold of_bits. cbv zeta. rewrite Ht. unfold f_inf in *. generalize dependent (mantissa x). generalize dependent (exponent x). intros e He m Hmm Hb3.
  assert (Hv : x - sign_bit s = e * 2 ^ 23 + m) by (destruct s; cbn [sign_bit Z.b2z] in *; lia).
  destruct (Z.eqb_spec e 255); [destruct (Z.eqb_spec m 0); [split; [done|lia]|destruct s; cbn [sign_bit] in *; lia]|].
  destruct (Z.eqb_spec e 0).
  - destruct m as [|m|m]; [split; [done|lia]| |lia]. split; [split; [done|lia]|]. intros _. by eexists _, _.
  - destruct (m + 2 ^ 23) as [|m'|m'] eqn:Hm'; [lia| |lia]. split; [split; [done|lia]|]. intros _. by eexists _, _.
Qed.
Lemma of_bits_nonneg x : nonneg x -> signed false (of_bits x).
Proof.
  unfold nonneg, f_inf. intros [->|Hx]; [exact I|]. apply of_bits_signed; unfold f_inf; cbn [sign_bit Z.b2z]; [lia|apply Z.div_small; lia|lia].
Qed.
Lemma to_bits_nonneg x : signed false x -> nonneg (to_bits x).
Proof.
  destruct x as [[]|[]| |[] m e]; cbn [signed to_bits sign_bit]; unfold nonneg, f_inf; intros Hx; try (by left); try done; right; try lia.
Qed.

(** ** Rounding stays in range *)
Lemma shr_1_half r : 0 <= shr_m r -> shr_m (shr_1 r) = shr_m r / 2.
Proof.
  destruct r as [m a b]. cbn [shr_m]. intros Hm. destruct m as [|[p|p|]|]; cbn [shr_1 shr_m]; try lia; [done| | |done].
  - apply (Z.div_unique _ _ _ 1); lia.
  - apply (Z.div_unique _ _ _ 0); lia.
Qed.
Lemma iter_shr p r : 0 <= shr_m r -> shr_m (iter_pos shr_1 p r) = shr_m r / 2 ^ Zpos p.
Proof.
  assert (Hdd : forall a p q, 0 <= p -> 0 <= q -> a / 2 ^ p / 2 ^ q = a / 2 ^ (p + q)).
  { intros a n q Hn Hq. rewrite Z.div_div by (try apply Z.pow_nonzero; try apply Z.pow_pos_nonneg; lia). by rewrite Z.pow_add_r. }
  revert r. induction p as [p IH|p IH|]; intros r Hr; cbn [iter_pos]; [| |by rewrite shr_1_half].
  - assert (H1 : 0 <= shr_m (shr_1 r)) by (rewrite shr_1_half by done; apply Z.div_pos; lia).
    rewrite !IH by (rewrite ?IH by done; try apply Z.div_pos; lia). rewrite shr_1_half by done.
    change (shr_m r / 2) with (shr_m r / 2 ^ 1). rewrite !Hdd by lia. do 2 f_equal. lia.
  - rewrite !IH by (rewrite ?IH by done; try apply Z.div_pos; lia). rewrite Hdd by lia. do 2 f_equal. lia.
Qed.
Lemma digits_bound m : 0 <= m -> 0 <= Zdigits2 m /\ m < 2 ^ Zdigits2 m.
Proof.
  assert (Hp : forall p, Zpos p < 2 ^ Zpos (digits2_pos p)).
  { induction p as [p IH|p IH|]; cbn [digits2_pos]; [| |done];
      rewrite Pos2Z.inj_succ, Z.pow_succ_r by lia; lia. }
  destruct m; cbn; [lia| |lia]. split; [lia|apply Hp].
Qed.
Lemma shr_fexp_range m e l :
  0 <= m -> let '(r, e') := shr_fexp 24 128 m e l in 0 <= shr_m r < 2 ^ 24 /\ -149 <= e'.
Proof.
  intros Hm. unfold shr_fexp. destruct (digits_bound m Hm) as [Hd Hb]. set (d := Zdigits2 m) in *.
  assert (Hr : shr_m (shr_record_of_loc m l) = m) by (destruct l as [|[]]; done).
  assert (Hf : d + e - 24 <= fexp 24 128 (d + e) /\ -149 <= fexp 24 128 (d + e)) by (unfold fexp, emin; lia).
  set (f := fexp 24 128 (d + e)) in *. unfold shr. destruct (f - e) as [|p|p] eqn:Hn.
  - rewrite Hr. split; [|lia]. split; [done|]. eapply Z.lt_le_trans; [exact Hb|]. apply Z.pow_le_mono_r; lia.
  - rewrite iter_shr by lia. rewrite Hr. split; [|lia]. split; [apply Z.div_pos; lia|].
    apply Z.div_lt_upper_bound; [lia|]. eapply Z.lt_le_trans; [exact Hb|]. rewrite <- Z.pow_add_r by lia. apply Z.pow_le_mono_r; lia.
  - rewrite Hr. split; [|lia]. split; [done|]. eapply Z.lt_le_trans; [exact Hb|]. apply Z.pow_le_mono_r; lia.
Qed.
Lemma round_aux_signed s m e l : 0 <= m -> signed s (binary_round_aux 24 128 s m e l).
Proof.
  intros Hm. unfold binary_round_aux. pose proof (shr_fexp_range m e l Hm) as H1.
  destruct (shr_fexp _ _ m e l) as [r e1]. destruct H1 as [H1 _].
  assert (Hn : 0 <= round_nearest_even (shr_m r) (loc_of_shr_record r)).
  { unfold round_nearest_even. destruct (loc_of_shr_record r) as [|[]]; try lia. case_match; lia. }
  pose proof (shr_fexp_range _ e1 loc_Exact Hn) as H2. destruct (shr_fexp _ _ _ e1 loc_Exact) as [r2 e2]. destruct H2 as [H2 H3].
  destruct (shr_m r2) as [|p|p]; [done| |lia]. destruct (Z.leb_spec e2 (128 - 24)); cbn [signed]; [|done]. split; [done|]. lia.
Qed.
Lemma binary_round_signed s m e : signed s (binary_round 24 128 s m e).
Proof. unfold binary_round. destruct (shl_align _ _ _). apply round_aux_signed. lia. Qed.

(** ** The operations on such numbers *)
Lemma SFadd_signed s x y : signed s x -> signed s y -> signed s (SFadd 24 128 x y).
Proof.
  destruct x as [[]|s1| |s1 m1 e1], y as [[]|s2| |s2 m2 e2]; cbn [signed SFadd]; intros Hx Hy; try done;
    [subst; by destruct s|]. destruct Hx as (-> & _), Hy as (-> & _). cbv zeta.
  destruct (shl_align m1 e1 _) as [a ?], (shl_align m2 e2 _) as [b ?]. cbn [fst]. destruct s; cbn [cond_Zopp].
  - replace (- Zpos a + - Zpos b) with (Zneg (a + b)) by lia. apply binary_round_signed.
  - replace (Zpos a + Zpos b) with (Zpos (a + b)) by lia. apply binary_round_signed.
Qed.
Lemma SFsub_signed x y : signed false x -> signed true y -> signed false (SFsub 24 128 x y).
Proof.
  destruct x as [[]|s1| |s1 m1 e1], y as [[]|s2| |s2 m2 e2]; cbn [signed SFsub]; intros Hx Hy; try done; try (by subst);
    [by destruct Hy as (-> & ?)..|]. destruct Hx as (-> & _), Hy as (-> & _). cbv zeta.
  destruct (shl_align m1 e1 _) as [a ?], (shl_align m2 e2 _) as [b ?]. cbn [fst cond_Zopp].
  replace (Zpos a - - Zpos b) with (Zpos (a + b)) by lia. apply binary_round_signed.
Qed.
Definition zero_times_inf (x y : spec_float) : bool :=
  match x, y with S754_zero _, S754_infinity _ | S754_infinity _, S754_zero _ => true | _, _ => false end.
Lemma SFmul_signed s t x y : signed s x -> signed t y -> zero_times_inf x y = false -> signed (xorb s t) (SFmul 24 128 x y).
Proof.
  destruct x as [s1|s1| |s1 m1 e1], y as [s2|s2| |s2 m2 e2]; cbn [signed SFmul zero_times_inf]; intros Hx Hy Hz; try done;
    try (by subst); try (by destruct Hx as (-> & ?); subst); try (by destruct Hy as (-> & ?); subst).
  destruct Hx as (-> & _), Hy as (-> & _). apply round_aux_signed. lia.
Qed.
Lemma sqrt_core_nonneg m e q e' l : SFsqrt_core_binary 24 128 (Zpos m) e = (q, e', l) -> 0 <= q.
Proof.
  unfold SFsqrt_core_binary. cbv zeta. intros Hq.
  match type of Hq with context [Z.sqrtrem ?a] => pose proof (Z.sqrtrem_sqrt a) as Hs;
    pose proof (Z.sqrt_nonneg a) as Hn; destruct (Z.sqrtrem a) as [q1 r1] end.
  injection Hq as <- _ _. cbn [fst] in Hs. by rewrite Hs.
Qed.
Lemma SFsqrt_signed x : SFsqrt 24 128 x = S754_nan \/ signed false (SFsqrt 24 128 x).
Proof.
  destruct x as [s|[]| |[] m e]; cbn [SFsqrt]; try (by left); try (by right). right.
  destruct (SFsqrt_core_binary 24 128 (Zpos m) e) as [[q e'] l] eqn:Hq. apply round_aux_signed. by eapply sqrt_core_nonneg.
Qed.
Lemma SFsqrt_nonneg x : signed false x -> signed false (SFsqrt 24 128 x).
Proof.
  destruct x as [s|[]| |[] m e]; cbn [signed SFsqrt]; intros Hx; try done; [by destruct Hx|].
  destruct (SFsqrt_core_binary 24 128 (Zpos m) e) as [[q e'] l] eqn:Hq. apply round_aux_signed. by eapply sqrt_core_nonneg.
Qed.

(** The same on bits. *)
Definition nonpos (x : Z) : Prop := x = 0 \/ 2 ^ 31 <= x <= 2 ^ 31 + f_inf.
Lemma nonneg_not_nan x : nonneg x -> is_nan x = false.
Proof.
  unfold nonneg, is_nan, f_inf. intros [->|Hx]; [done|]. change 0x7FFFFFFF with (Z.ones 31).
  rewrite Z.land_ones, Z.mod_small by lia. lia.
Qed.
Lemma nonneg_key x : nonneg x -> key x = if x =? 2 ^ 31 then 0 else x.
Proof.
  unfold nonneg, key, f_inf. intros [->|Hx]; [done|]. assert (Hs : Z.testbit x 31 = false) by (rewrite Z.testbit_false by lia; rewrite Z.div_small by lia; done).
  rewrite Hs. change 0x7FFFFFFF with (Z.ones 31). rewrite Z.land_ones, Z.mod_small by lia. destruct (Z.eqb_spec x (2 ^ 31)); [lia|done].
Qed.
Lemma ordered_nonneg x y : nonneg x -> nonneg y -> ordered x y = true.
Proof. intros Hx Hy. unfold ordered. by rewrite !nonneg_not_nan. Qed.
Lemma of_bits_nonpos x : nonpos x -> signed true (of_bits x).
Proof.
  unfold nonpos, f_inf. intros [->|Hx]; [exact I|]. apply of_bits_signed; unfold f_inf; cbn [sign_bit Z.b2z]; [lia| |lia].
  symmetry. apply (Z.div_unique x (2 ^ 31) 1 (x - 2 ^ 31)); lia.
Qed.
Lemma to_bits_nonpos x : signed true x -> nonpos (to_bits x).
Proof.
  destruct x as [[]|[]| |[] m e]; cbn [signed to_bits sign_bit]; unfold nonpos, f_inf; intros Hx; try (by left); try done; right; try lia.
Qed.
Lemma of_bits_positive x : 0 < x < f_inf -> exists m e, of_bits x = S754_finite false m e.
Proof.
  unfold f_inf. intros Hx. apply of_bits_signed; unfold f_inf; cbn [sign_bit Z.b2z]; [lia|apply Z.div_small; lia|lia|lia].
Qed.
Lemma fneg_nonneg x : nonneg x -> nonpos (fneg x).
Proof.
  intros Hx. apply of_bits_nonneg in Hx. apply to_bits_nonpos. destruct (of_bits x) as [[]|[]| |[] m e]; cbn [signed SFopp negb] in *; intuition congruence.
Qed.
Lemma fadd_nonneg x y : nonneg x -> nonneg y -> nonneg (fadd x y).
Proof. intros Hx Hy. apply to_bits_nonneg, SFadd_signed; by apply of_bits_nonneg. Qed.
Lemma fsqrt_nonneg x : nonneg x -> nonneg (fsqrt x).
Proof. intros Hx. apply to_bits_nonneg, SFsqrt_nonneg. by apply of_bits_nonneg. Qed.
Lemma fsqrt_cases x : is_nan (fsqrt x) = true \/ nonneg (fsqrt x).
Proof. unfold fsqrt. destruct (SFsqrt_signed (of_bits x)) as [->|]; [by left|right; by apply to_bits_nonneg]. Qed.
Lemma fsquare_nonneg x : nonneg x -> nonneg (fsquare x).
Proof.
  intros Hx. apply of_bits_nonneg in Hx. apply to_bits_nonneg.
  refine (SFmul_signed false false _ _ Hx Hx _). by destruct (of_bits x).
Qed.
Lemma fsub_nonneg x y : nonneg x -> nonpos y -> nonneg (fsub x y).
Proof. intros Hx Hy. apply to_bits_nonneg, SFsub_signed; [by apply of_bits_nonneg|by apply of_bits_nonpos]. Qed.
(** Times a finite positive number. *)
Lemma fmul_nonpos x y : 0 < x < f_inf -> nonpos y -> nonpos (fmul x y) /\ nonpos (fmul y x).
Proof.
  intros Hx Hy. pose proof (of_bits_nonneg x ltac:(right; lia)) as Hs. destruct (of_bits_positive x Hx) as (m & e & Hf).
  apply of_bits_nonpos in Hy. unfold fmul. rewrite Hf in *.
  split; apply to_bits_nonpos.
  - refine (SFmul_signed false true _ _ Hs Hy _). by destruct (of_bits y).
  - refine (SFmul_signed true false _ _ Hy Hs _). by destruct (of_bits y).
Qed.
(** The least of two numbers; a NaN does not count. *)
Lemma fmin_nonneg x y : nonneg x -> is_nan y = true \/ nonneg y -> nonneg (fmin x y).
Proof. intros Hx [Hn|Hy]; unfold fmin, flt, ordered; [by rewrite Hn|by case_match]. Qed.
Lemma fmin_key x y : nonneg x -> nonneg y -> key (fmin x y) = Z.min (key x) (key y).
Proof.
  intros Hx Hy. unfold fmin, flt. rewrite ordered_nonneg by done. cbn [andb]. destruct (Z.ltb_spec (key y) (key x)); lia.
Qed.
Lemma fmin_below x y : key (fmin x y) <= key x.
Proof. unfold fmin, flt. destruct (ordered y x); cbn [andb]; [|lia]. destruct (Z.ltb_spec (key y) (key x)); lia. Qed.
Lemma flt_nonneg x y : nonneg x -> nonneg y -> flt x y = (key x <? key y).
Proof. intros. unfold flt. by rewrite ordered_nonneg. Qed.
Lemma fle_nonneg x y : nonneg x -> nonneg y -> fle x y = (key x <=? key y).
Proof. intros. unfold fle. by rewrite ordered_nonneg. Qed.
Lemma feq_nonneg x y : nonneg x -> nonneg y -> feq x y = (key x =? key y).
Proof. intros. unfold feq. by rewrite ordered_nonneg. Qed.
