(* ===== verification/BlockQueue.v ===== *)
(** * Blocks and their queue ([src/src/modules/robot/Block.h], [Block.cpp],
    [BlockQueue.h], [BlockQueue.cpp])

    A block is one move: how many steps each motor takes and when it accelerates.
    Blocks live in a ring shared by three users: the planner prepares the one at
    [head_i], the step interrupt runs the one at [isr_tail_i], and the idle loop
    cleans the one at [tail_i]. The ring's indices are here with their
    arithmetic; who may touch which block is in [Conveyor]. *)
From S2P Require Import Prelude Ring.

(** A [float] is carried as its 32 bits (IEEE 754 binary32): nothing here
    computes with one. *)
Definition f0 : Z := 0.
Definition f100 : Z := 0x42C80000.

(** Times and rates of one motor in a block, 2.62 fixed point.
    [src/src/modules/robot/Block.h:58-67] Block::tickinfo_t *)
Record tickinfo_t := mk_tickinfo {
  steps_per_tick : Z; counter : Z; acceleration_change : Z; deceleration_change : Z; plateau_rate : Z;
  steps_to_move : Z; step_count : Z; next_accel_event : Z
}.
#[export] Instance eta_tickinfo : Eta tickinfo_t := fun t =>
  mk_tickinfo (steps_per_tick t) (counter t) (acceleration_change t) (deceleration_change t) (plateau_rate t)
    (steps_to_move t) (step_count t) (next_accel_event t).
Definition no_tickinfo : tickinfo_t := mk_tickinfo 0 0 0 0 0 0 0 0.
#[export] Instance tickinfo_inhabited : Inhabited tickinfo_t := populate no_tickinfo.

(** [src/src/modules/robot/Block.h:37-91] Block *)
Record Block := mk_block {
  steps : list Z; steps_event_count : Z; nominal_rate : Z; nominal_speed : Z; millimeters : Z; entry_speed : Z;
  exit_speed : Z; acceleration : Z; initial_rate : Z; maximum_rate : Z; max_entry_speed : Z; line : Z;
  accelerate_until : Z; decelerate_after : Z; total_move_ticks : Z; direction_bits : list bool;
  tick_info : list tickinfo_t;
  recalculate_flag : bool; nominal_length_flag : bool; is_ready : bool; primary_axis : bool; is_g123 : bool;
  is_ticking : bool; locked : bool; s_value : Z
}.
#[export] Instance eta_Block : Eta Block := fun b =>
  mk_block (steps b) (steps_event_count b) (nominal_rate b) (nominal_speed b) (millimeters b) (entry_speed b)
    (exit_speed b) (acceleration b) (initial_rate b) (maximum_rate b) (max_entry_speed b) (line b)
    (accelerate_until b) (decelerate_after b) (total_move_ticks b) (direction_bits b) (tick_info b)
    (recalculate_flag b) (nominal_length_flag b) (is_ready b) (primary_axis b) (is_g123 b) (is_ticking b) (locked b)
    (s_value b).

(** The arrays have [k_max_actuators] cells; [n_actuators] of them are in use.
    [src/src/modules/robot/Block.cpp:46-97] Block::clear *)
Definition clear (n_actuators : nat) (b : Block) : Block :=
  mk_block (map (fun _ => 0) (steps b)) 0 f0 f0 f0 f0 f0 f100 f0 (maximum_rate b) f0 (line b) 0 0 0
    (map (fun _ => false) (direction_bits b))
    (map (fun _ => no_tickinfo) (take n_actuators (tick_info b)) ++ drop n_actuators (tick_info b))
    false false false (primary_axis b) false false false 0.
(** [src/src/modules/robot/Block.h:26-26] Block::ready *)
Definition ready (b : Block) : Block := b <| is_ready := true |>.
(** [src/src/modules/robot/Block.cpp:100-106] Block::reset *)
Definition reset (n_actuators : nat) (b : Block) (saved : list tickinfo_t) : Block :=
  b <| tick_info := imap (fun i t => match saved !! i with
                                     | Some s => if (i <? n_actuators)%nat && negb (steps_to_move s =? 0) then s else t
                                     | None => t end) (tick_info b) |>.

(** Memory that no constructor has run on. *)
Definition raw_block (k : nat) : Block :=
  mk_block (repeat 0 k) 0 0 0 0 0 0 0 0 0 0 0 0 0 0 (repeat false k) (repeat no_tickinfo k)
    false false false false false false false 0.
(** [src/src/modules/robot/Block.cpp:34-38] Block::Block *)
Definition new_block (k n_actuators : nat) : Block := clear n_actuators ((raw_block k) <| line := 0 |>).
#[export] Instance Block_inhabited : Inhabited Block := populate (raw_block 0).

(** The ring is [None] for a null pointer.
    [src/src/modules/robot/BlockQueue.h:70-80] BlockQueue *)
Record BlockQueue := mk_block_queue {
  length : Z; head_i : Z; tail_i : Z; isr_tail_i : Z; ring : option (list Block)
}.
#[export] Instance eta_BlockQueue : Eta BlockQueue := fun q =>
  mk_block_queue (length q) (head_i q) (tail_i q) (isr_tail_i q) (ring q).

(** [src/src/modules/robot/BlockQueue.cpp:12-17] BlockQueue::BlockQueue *)
Definition new_queue : BlockQueue := mk_block_queue 0 0 0 0 None.
(** [memory] is what [new(std::nothrow)] returns.
    [src/src/modules/robot/BlockQueue.cpp:19-33] BlockQueue::BlockQueue *)
Definition new_queue_of (length_ : Z) (memory : option (list Block)) : BlockQueue :=
  match memory with
  | None => mk_block_queue 0 0 0 0 None
  | Some r => mk_block_queue length_ 0 0 0 (Some r)
  end.
(** [src/src/modules/robot/BlockQueue.cpp:52-61] BlockQueue::next *)
Definition next (q : BlockQueue) (item : Z) : Z :=
  if length q =? 0 then 0
  else let item := u32 (item + 1) in if length q <=? item then 0 else item.
(** [src/src/modules/robot/BlockQueue.cpp:63-72] BlockQueue::prev *)
Definition prev (q : BlockQueue) (item : Z) : Z :=
  if length q =? 0 then 0 else if item =? 0 then length q - 1 else item - 1.

Definition blocks (q : BlockQueue) : list Block := match ring q with Some r => r | None => [] end.
(** [src/src/modules/robot/BlockQueue.cpp:88-91] BlockQueue::item *)
Definition item (q : BlockQueue) (i : Z) : Block := blocks q !!! Z.to_nat i.
Definition set_item (q : BlockQueue) (i : Z) (f : Block -> Block) : BlockQueue :=
  q <| ring := (fun r => alter f (Z.to_nat i) r) <$> ring q |>.
(** [src/src/modules/robot/BlockQueue.cpp:78-81] BlockQueue::head *)
Definition head (q : BlockQueue) : Block := item q (head_i q).
(** [src/src/modules/robot/BlockQueue.cpp:83-86] BlockQueue::tail *)
Definition tail (q : BlockQueue) : Block := item q (tail_i q).
(** A pointer to a block is its index.
    [src/src/modules/robot/BlockQueue.cpp:110-113] BlockQueue::head_ref *)
Definition head_ref (q : BlockQueue) : Z := head_i q.
(** [src/src/modules/robot/BlockQueue.cpp:115-118] BlockQueue::tail_ref *)
Definition tail_ref (q : BlockQueue) : Z := tail_i q.
(** [src/src/modules/robot/BlockQueue.cpp:120-123] BlockQueue::item_ref *)
Definition item_ref (q : BlockQueue) (i : Z) : Z := i.

(** [src/src/modules/robot/BlockQueue.cpp:141-148] BlockQueue::is_full *)
Definition is_full (q : BlockQueue) : bool := next q (head_i q) =? tail_i q.
(** [src/src/modules/robot/BlockQueue.cpp:150-157] BlockQueue::is_empty *)
Definition is_empty (q : BlockQueue) : bool := head_i q =? tail_i q.
(** [src/src/modules/robot/BlockQueue.cpp:93-97] BlockQueue::push_front *)
Definition push_front (q : BlockQueue) (b : Block) : BlockQueue :=
  (set_item q (head_i q) (fun _ => b)) <| head_i := next q (head_i q) |>.
(** [src/src/modules/robot/BlockQueue.cpp:99-104] BlockQueue::pop_back *)
Definition pop_back (q : BlockQueue) : BlockQueue * Block := (q <| tail_i := next q (tail_i q) |>, item q (tail_i q)).
(** The last line; the loop before it waits while the queue is full.
    [src/src/modules/robot/BlockQueue.cpp:125-129] BlockQueue::produce_head *)
Definition produce_head (q : BlockQueue) : BlockQueue := q <| head_i := next q (head_i q) |>.
(** [src/src/modules/robot/BlockQueue.cpp:131-135] BlockQueue::consume_tail *)
Definition consume_tail (q : BlockQueue) : BlockQueue :=
  if is_empty q then q else q <| tail_i := next q (tail_i q) |>.

(** [memory] is what the allocation returns; the second test of [is_empty] finds
    what the first did, as only the caller pushes.
    [src/src/modules/robot/BlockQueue.cpp:163-219] BlockQueue::resize *)
Definition resize (q : BlockQueue) (length_ : Z) (memory : option (list Block)) : BlockQueue * bool :=
  if is_empty q then
    if length_ =? 0 then (q <| head_i := 0 |> <| tail_i := 0 |> <| length := 0 |> <| ring := None |>, true)
    else match memory with
    | Some newring => (q <| ring := Some newring |> <| length := length_ |> <| head_i := 0 |> <| tail_i := 0 |>, true)
    | None => (q, false)
    end
  else (q, false).

(** ** The ring's regions

    From [tail_i] on, cyclically: the blocks the interrupt has finished, then the
    ones it has still to run, then the free ones, the first of which is the
    planner's. [done_] and [todo] are the sizes of the first two. *)
Record queue_ok (q : BlockQueue) (done_ todo : Z) : Prop := mk_queue_ok {
  qo_ring : exists r, ring q = Some r /\ Z.of_nat (List.length r) = length q;
  qo_size : 2 <= length q < 2 ^ 32;
  qo_tail : 0 <= tail_i q < length q;
  qo_done : 0 <= done_;
  qo_todo : 0 <= todo;
  qo_room : done_ + todo <= length q - 1;
  qo_isr : isr_tail_i q = (tail_i q + done_) mod length q;
  qo_head : head_i q = (tail_i q + done_ + todo) mod length q
}.

(** The slot [k] places after the tail. *)
Definition slot (q : BlockQueue) (k : Z) : Z := (tail_i q + k) mod length q.

Section Regions.
Context (q : BlockQueue) (done_ todo : Z) (H : queue_ok q done_ todo).

Lemma next_mod i : 0 <= i < length q -> next q i = (i + 1) mod length q.
Proof.
  intros Hi. destruct (qo_size _ _ _ H). unfold next.
  destruct (Z.eqb_spec (length q) 0); [lia|]. cbv zeta. rewrite wrap_small by (unfold is_uint; lia).
  destruct (Z.leb_spec (length q) (i + 1)); [|by rewrite Z.mod_small by lia].
  assert (i + 1 = length q) as -> by lia. by rewrite Z_mod_same_full.
Qed.
(** [prev] undoes [next], and the other way round. *)
Lemma prev_next i : 0 <= i < length q -> prev q (next q i) = i /\ next q (prev q i) = i.
Proof.
  intros Hi. destruct (qo_size _ _ _ H).
  assert (Hp : prev q i = if i =? 0 then length q - 1 else i - 1) by (unfold prev; destruct (Z.eqb_spec (length q) 0); [lia|done]).
  split.
  - unfold prev, next. destruct (Z.eqb_spec (length q) 0); [lia|]. cbv zeta. rewrite wrap_small by (unfold is_uint; lia).
    destruct (Z.leb_spec (length q) (i + 1)); cbn [Z.eqb]; [lia|]. destruct (Z.eqb_spec (i + 1) 0); lia.
  - rewrite Hp. destruct (Z.eqb_spec i 0) as [->|]; rewrite next_mod by lia.
    + by rewrite Z.sub_add, Z_mod_same_full.
    + rewrite Z.sub_add. by apply Z.mod_small.
Qed.

Lemma slot_range k : 0 <= slot q k < length q.
Proof. destruct (qo_size _ _ _ H). apply Z.mod_pos_bound. lia. Qed.
Lemma slot_next k : next q (slot q k) = slot q (k + 1).
Proof. rewrite next_mod by apply slot_range. unfold slot. rewrite Zplus_mod_idemp_l. f_equal. lia. Qed.
(** Different places less than a lap apart are different slots. *)
Lemma slot_inj a b : 0 <= a < length q -> 0 <= b < length q -> slot q a = slot q b -> a = b.
Proof.
  intros Ha Hb He. destruct (qo_size _ _ _ H), (qo_tail _ _ _ H). unfold slot in He.
  assert (Z.to_nat a = Z.to_nat b) as Hn; [|lia].
  apply (slot_mod_inj (Z.to_nat (length q)) (Z.to_nat (tail_i q))); [lia..|].
  apply (f_equal Z.to_nat) in He. rewrite !Z2Nat.inj_mod, !Z2Nat.inj_add in He by lia. done.
Qed.

Lemma head_slot : head_i q = slot q (done_ + todo).
Proof. rewrite (qo_head _ _ _ H). unfold slot. f_equal. lia. Qed.
Lemma isr_slot : isr_tail_i q = slot q done_.
Proof. by rewrite (qo_isr _ _ _ H). Qed.
Lemma tail_slot : tail_i q = slot q 0.
Proof. unfold slot. rewrite Z.add_0_r, Z.mod_small; [done|apply (qo_tail _ _ _ H)]. Qed.

Lemma slot_eqb a b : 0 <= a < length q -> 0 <= b < length q -> (slot q a =? slot q b) = (a =? b).
Proof.
  intros Ha Hb. destruct (Z.eqb_spec a b) as [->|Hne]; [apply Z.eqb_refl|].
  apply Z.eqb_neq. intros He. by apply slot_inj in He.
Qed.
Lemma regions_bound : 2 <= length q < 2 ^ 32 /\ 0 <= done_ /\ 0 <= todo /\ done_ + todo <= length q - 1.
Proof. by destruct H. Qed.

(** The tests of the code, in terms of the regions. *)
Lemma is_empty_ok : is_empty q = (done_ + todo =? 0).
Proof.
  pose proof regions_bound. unfold is_empty. rewrite head_slot. replace (tail_i q) with (slot q 0) by (symmetry; apply tail_slot).
  apply slot_eqb; lia.
Qed.
Lemma is_full_ok : is_full q = (done_ + todo =? length q - 1).
Proof.
  pose proof regions_bound. unfold is_full. rewrite head_slot, slot_next.
  replace (tail_i q) with (slot q 0) by (symmetry; apply tail_slot).
  destruct (Z.eqb_spec (done_ + todo) (length q - 1)) as [->|Hne].
  - apply Z.eqb_eq. unfold slot. rewrite Z.sub_add, Z.add_0_r, <- Zplus_mod_idemp_r, Z_mod_same_full. by rewrite Z.add_0_r.
  - rewrite slot_eqb by lia. lia.
Qed.
Lemma nothing_to_run : (isr_tail_i q =? head_i q) = (todo =? 0).
Proof. pose proof regions_bound. rewrite isr_slot, head_slot, slot_eqb by lia. lia. Qed.
Lemma nothing_to_clean : (tail_i q =? isr_tail_i q) = (done_ =? 0).
Proof.
  pose proof regions_bound. rewrite isr_slot. replace (tail_i q) with (slot q 0) by (symmetry; apply tail_slot).
  rewrite slot_eqb by lia. lia.
Qed.
End Regions.

(** The operations move the borders. *)
Lemma produce_head_ok q d t : queue_ok q d t -> is_full q = false -> queue_ok (produce_head q) d (t + 1).
Proof.
  intros H Hf. rewrite (is_full_ok _ _ _ H) in Hf. apply Z.eqb_neq in Hf. pose proof H as [].
  split; unfold produce_head; recs; try done; [lia|lia|].
  rewrite (head_slot _ _ _ H), (slot_next _ _ _ H). unfold slot. f_equal. lia.
Qed.
Lemma consume_tail_ok q d t :
  queue_ok q d t -> 0 < d ->
  queue_ok (consume_tail q) (d - 1) t /\ tail_i (consume_tail q) = slot q 1.
Proof.
  intros H Hd. pose proof (is_empty_ok _ _ _ H) as He. pose proof H as [].
  destruct (Z.eqb_spec (d + t) 0); [lia|]. unfold consume_tail. rewrite He.
  assert (Hn : next q (tail_i q) = slot q 1) by (rewrite (next_mod _ _ _ H) by done; done).
  pose proof (slot_range _ _ _ H 1). split; [|done]. split; recs; rewrite ?Hn; try done; try lia.
  - rewrite qo_isr0. unfold slot. rewrite Zplus_mod_idemp_l. f_equal. lia.
  - rewrite qo_head0. unfold slot. rewrite <- (Z.add_assoc (_ mod _)), Zplus_mod_idemp_l. f_equal. lia.
Qed.
Lemma isr_advance_ok q d t : queue_ok q d t -> 0 < t -> queue_ok (q <| isr_tail_i := next q (isr_tail_i q) |>) (d + 1) (t - 1).
Proof.
  intros H Ht. pose proof H as []. split; recs; try done; try lia.
  - rewrite (isr_slot _ _ _ H), (slot_next _ _ _ H). done.
  - rewrite qo_head0. f_equal. lia.
Qed.
Lemma set_item_ok q d t i f : queue_ok q d t -> queue_ok (set_item q i f) d t.
Proof.
  intros H. pose proof H as [(r & Hr & Hl) ? ? ? ? ? ? ?]. split; unfold set_item; recs; try done.
  exists (alter f (Z.to_nat i) r). rewrite Hr. split; [done|]. by rewrite length_alter.
Qed.
Lemma item_set_item q d t i f : queue_ok q d t -> 0 <= i < length q -> item (set_item q i f) i = f (item q i).
Proof.
  intros [(r & Hr & Hl) ? ? ? ? ? ? ?] Hi. unfold item, set_item, blocks. recs. rewrite Hr. cbn [fmap option_fmap option_map].
  destruct (lookup_lt_is_Some_2 r (Z.to_nat i)) as [b Hb]; [lia|]. rewrite (list_lookup_total_correct _ _ _ Hb).
  apply list_lookup_total_correct. rewrite list_lookup_alter_eq. by rewrite Hb.
Qed.
Lemma item_set_item_ne q i j f : 0 <= i -> 0 <= j -> i <> j -> item (set_item q i f) j = item q j.
Proof.
  intros Hi Hj Hne. unfold item, set_item, blocks. recs. destruct (ring q) as [r|]; [|done]. cbn [fmap option_fmap option_map].
  rewrite !list_lookup_total_alt, list_lookup_alter_ne; [done|lia].
Qed.
Lemma resize_ok q n r :
  2 <= n < 2 ^ 32 -> Z.of_nat (List.length r) = n -> is_empty q = true -> isr_tail_i q = 0 ->
  queue_ok (fst (resize q n (Some r))) 0 0.
Proof.
  intros Hn Hr He Hi. unfold resize. rewrite He. destruct (Z.eqb_spec n 0); [lia|]. cbn [fst].
  split; recs; try lia; try done. by exists r.
Qed.
