(* ===== verification/StepperMotor.v ===== *)
(** * A stepper motor ([src/src/libs/StepperMotor.h], [StepperMotor.cpp],
    [src/src/libs/Pin.h])

    A motor's pins, where it stands, where the planner has sent it, and the flag
    the step interrupt and the main loop share: whether it is moving. *)
From S2P Require Import Prelude.

(** ** Pins *)
Module Pin.
(** An output pin; [level] is its bit of the port.
    [src/src/libs/Pin.h:73-83] Pin *)
Record t := mk { inverting : bool; valid : bool; level : bool }.
#[export] Instance eta_t : Eta t := fun p => mk (inverting p) (valid p) (level p).
(** [src/src/libs/Pin.h:52-55] Pin::get *)
Definition get (p : t) : bool := if valid p then xorb (inverting p) (level p) else false.
(** [src/src/libs/Pin.h:57-64] Pin::set *)
Definition set (p : t) (value : bool) : t := if valid p then p <| level := xorb (inverting p) value |> else p.
(** [src/src/libs/Pin.h:22-24] Pin::connected *)
Definition connected (p : t) : bool := valid p.

Lemma get_set p v : get (set p v) = valid p && v.
Proof. destruct p as [[] [] []], v; reflexivity. Qed.
Lemma set_valid p v : valid (set p v) = valid p.
Proof. by destruct p as [[] [] []], v. Qed.
End Pin.

(** [float]s are carried as their bits.
    [src/src/libs/StepperMotor.h:64-83] StepperMotor *)
Record StepperMotor := mk_motor {
  step_pin : Pin.t; dir_pin : Pin.t; en_pin : Pin.t;
  steps_per_mm : Z; max_rate : Z; acceleration : Z;
  current_position_steps : Z; last_milestone_steps : Z; last_milestone_mm : Z;
  motor_id : Z; direction : bool; moving : bool; selected : bool; extruder : bool
}.
#[export] Instance eta_StepperMotor : Eta StepperMotor := fun m =>
  mk_motor (step_pin m) (dir_pin m) (en_pin m) (steps_per_mm m) (max_rate m) (acceleration m)
    (current_position_steps m) (last_milestone_steps m) (last_milestone_mm m)
    (motor_id m) (direction m) (moving m) (selected m) (extruder m).

(** The [float]s 1.0, 50.0 and a not-a-number. *)
Definition f1 : Z := 0x3F800000.
Definition f50 : Z := 0x42480000.
Definition f_nan : Z := 0x7FC00000.

(** [src/src/libs/StepperMotor.h:28-28] StepperMotor::enable *)
Definition enable (m : StepperMotor) (state : bool) : StepperMotor := m <| en_pin := Pin.set (en_pin m) (negb state) |>.
(** [src/src/libs/StepperMotor.h:29-29] StepperMotor::is_enabled *)
Definition is_enabled (m : StepperMotor) : bool := negb (Pin.get (en_pin m)).
(** [src/src/libs/StepperMotor.h:31-31] StepperMotor::start_moving *)
Definition start_moving (m : StepperMotor) : StepperMotor := m <| moving := true |>.
(** [src/src/libs/StepperMotor.h:32-32] StepperMotor::stop_moving *)
Definition stop_moving (m : StepperMotor) : StepperMotor := m <| moving := false |>.
(** [src/src/libs/StepperMotor.h:30-30] StepperMotor::is_moving *)
Definition is_moving (m : StepperMotor) : bool := moving m.
(** One step either way; the position is an [int32_t].
    [src/src/libs/StepperMotor.h:22-22] StepperMotor::step *)
Definition step (m : StepperMotor) : StepperMotor * bool :=
  let m := m <| step_pin := Pin.set (step_pin m) true |> in
  let m := m <| current_position_steps := s32 (current_position_steps m + (if direction m then -1 else 1)) |> in
  (m, moving m).
(** [src/src/libs/StepperMotor.h:24-24] StepperMotor::unstep *)
Definition unstep (m : StepperMotor) : StepperMotor := m <| step_pin := Pin.set (step_pin m) false |>.
(** [src/src/libs/StepperMotor.h:26-26] StepperMotor::set_direction *)
Definition set_direction (m : StepperMotor) (f : bool) : StepperMotor :=
  m <| dir_pin := Pin.set (dir_pin m) f |> <| direction := f |>.

(** [raw] is the memory the constructor runs on.
    [src/src/libs/StepperMotor.cpp:16-39] StepperMotor::StepperMotor *)
Definition new_motor (raw : StepperMotor) (step dir en : Pin.t) : StepperMotor :=
  let m := raw <| step_pin := step |> <| dir_pin := dir |> <| en_pin := en |>
    <| steps_per_mm := f1 |> <| max_rate := f50 |> <| last_milestone_steps := 0 |> <| last_milestone_mm := 0 |>
    <| current_position_steps := 0 |> <| moving := false |> <| acceleration := f_nan |> <| selected := true |>
    <| extruder := false |> in
  set_direction (unstep (enable m false)) false.
(** [argument = None] is the null pointer, a halt.
    [src/src/libs/StepperMotor.cpp:47-53] StepperMotor::on_halt *)
Definition on_halt (m : StepperMotor) (argument : option unit) : StepperMotor :=
  match argument with
  | None => (enable m false) <| moving := false |>
  | Some _ => m
  end.
(** [src/src/libs/StepperMotor.cpp:55-66] StepperMotor::on_enable *)
Definition on_enable (m : StepperMotor) (bm : Z) : StepperMotor :=
  if bm =? 0x01 then enable m true
  else if (bm =? 0) || ((Z.land bm 0x01 =? 0) && negb (Z.land bm (Z.shiftl 0x02 (motor_id m)) =? 0)) then enable m false
  else m.
(** [src/src/libs/StepperMotor.cpp:82-87] StepperMotor::set_last_milestones *)
Definition set_last_milestones (m : StepperMotor) (mm steps : Z) : StepperMotor :=
  m <| last_milestone_mm := mm |> <| last_milestone_steps := steps |> <| current_position_steps := steps |>.
(** [src/src/libs/StepperMotor.cpp:89-93] StepperMotor::update_last_milestones *)
Definition update_last_milestones (m : StepperMotor) (mm steps : Z) : StepperMotor :=
  m <| last_milestone_steps := s32 (last_milestone_steps m + steps) |> <| last_milestone_mm := mm |>.
(** The waits are left out: they only give the drivers time.
    [src/src/libs/StepperMotor.cpp:104-123] StepperMotor::manual_step *)
Definition manual_step (m : StepperMotor) (dir : bool) : StepperMotor :=
  let m := if is_enabled m then m else enable m true in
  let m := if bool_decide (direction m = dir) then m else m <| direction := dir |> <| dir_pin := Pin.set (dir_pin m) dir |> in
  let m := m <| step_pin := Pin.set (step_pin m) true |> in
  let m := m <| step_pin := Pin.set (step_pin m) false |> in
  m <| current_position_steps := s32 (current_position_steps m + (if dir then -1 else 1)) |>.

(** ** Millimetres to steps

    [float] multiplication and [lroundf] are the platform's. *)
Section Scale.
Context (fmul : Z -> Z -> Z) (lroundf : Z -> Z).
(** [src/src/libs/StepperMotor.cpp:68-73] StepperMotor::change_steps_per_mm *)
Definition change_steps_per_mm (m : StepperMotor) (new_steps : Z) : StepperMotor :=
  let m := m <| steps_per_mm := new_steps |> in
  let m := m <| last_milestone_steps := s32 (lroundf (fmul (last_milestone_mm m) (steps_per_mm m))) |> in
  m <| current_position_steps := last_milestone_steps m |>.
(** [src/src/libs/StepperMotor.cpp:75-80] StepperMotor::change_last_milestone *)
Definition change_last_milestone (m : StepperMotor) (new_milestone : Z) : StepperMotor :=
  let m := m <| last_milestone_mm := new_milestone |> in
  let m := m <| last_milestone_steps := s32 (lroundf (fmul (last_milestone_mm m) (steps_per_mm m))) |> in
  m <| current_position_steps := last_milestone_steps m |>.
(** [src/src/libs/StepperMotor.cpp:95-99] StepperMotor::steps_to_target *)
Definition steps_to_target (m : StepperMotor) (target : Z) : Z :=
  let target_steps := s32 (lroundf (fmul target (steps_per_mm m))) in
  s32 (target_steps - last_milestone_steps m).

(** A move to a target takes the milestone to the target's step, whatever was
    rounded before: errors do not add up. *)
Lemma milestone_reaches_target m target :
  last_milestone_steps (update_last_milestones m target (steps_to_target m target)) =
  s32 (lroundf (fmul target (steps_per_mm m))).
Proof.
  unfold update_last_milestones, steps_to_target. recs.
  generalize (lroundf (fmul target (steps_per_mm m))) (last_milestone_steps m). intros x y. ints.
Qed.
End Scale.

(** What a step and the flags do to the rest. *)
Lemma step_position m : current_position_steps (fst (step m)) = s32 (current_position_steps m + (if direction m then -1 else 1)).
Proof. done. Qed.
Lemma step_flags m : moving (fst (step m)) = moving m /\ direction (fst (step m)) = direction m /\ snd (step m) = moving m.
Proof. done. Qed.
Lemma set_direction_fields m f :
  direction (set_direction m f) = f /\ moving (set_direction m f) = moving m /\
  current_position_steps (set_direction m f) = current_position_steps m.
Proof. done. Qed.
(** A halt leaves a motor with its driver off, and not moving. *)
Lemma on_halt_stops m : moving (on_halt m None) = false /\ is_enabled (on_halt m None) = negb (Pin.valid (en_pin m)).
Proof. unfold is_enabled, on_halt, enable. recs. by rewrite Pin.get_set, andb_true_r. Qed.

(** [n] steps taken one after the other. *)
Lemma s32_add_s32 x y : s32 (s32 x + y) = s32 (x + y).
Proof. ints. Qed.
Lemma s32_add_r x y : s32 (x + s32 y) = s32 (x + y).
Proof. ints. Qed.
