(* ===== verification/Conveyor.v ===== *)
(** * The conveyor ([src/src/modules/robot/Conveyor.h], [Conveyor.cpp])

    The queue of blocks between the planner, which fills it, the step interrupt,
    which runs it, and the idle loop, which cleans it, with the flags that hold
    it back, flush it and abort it. Each operation is here; what happens when
    they interrupt each other is in [Motion]. *)
From S2P Require Import Prelude Ring StepperMotor BlockQueue.

(** [last_time_check] is [check_queue]'s static, set on its first call.
    [src/src/modules/robot/Conveyor.h:52-66] Conveyor *)
Record Conveyor := mk_conveyor {
  queue : BlockQueue; saved_block : list tickinfo_t; queue_delay_time_ms : Z; queue_size : Z; current_feedrate : Z;
  running : bool; allow_fetch : bool; flush : bool; hold_queue : bool; abort_motion : bool; continuous_mode : Z;
  last_time_check : option Z
}.
#[export] Instance eta_Conveyor : Eta Conveyor := fun c =>
  mk_conveyor (queue c) (saved_block c) (queue_delay_time_ms c) (queue_size c) (current_feedrate c)
    (running c) (allow_fetch c) (flush c) (hold_queue c) (abort_motion c) (continuous_mode c) (last_time_check c).

(** The members the constructor leaves alone are those of [raw].
    [src/src/modules/robot/Conveyor.cpp:61-69] Conveyor::Conveyor *)
Definition new_conveyor (raw : Conveyor) : Conveyor :=
  raw <| queue := new_queue |> <| current_feedrate := f0 |> <| running := false |> <| allow_fetch := false |>
    <| flush := false |> <| continuous_mode := 0 |> <| hold_queue := false |> <| abort_motion := false |>
    <| last_time_check := None |>.
(** The two values are the configuration's.
    [src/src/modules/robot/Conveyor.cpp:71-80] Conveyor::on_module_loaded *)
Definition on_module_loaded (c : Conveyor) (planner_queue_size queue_delay : Z) : Conveyor :=
  c <| queue_size := u32 planner_queue_size |> <| queue_delay_time_ms := u32 queue_delay |>.
(** [memory] is what the allocation of the ring returns.
    [src/src/modules/robot/Conveyor.cpp:83-88] Conveyor::start *)
Definition start (c : Conveyor) (memory : option (list Block)) : Conveyor :=
  c <| queue := fst (resize (queue c) (queue_size c) memory) |> <| running := true |>.

(** ** The main loop's side *)

(** The microsecond counter is read once in each call.
    [src/src/modules/robot/Conveyor.cpp:199-216] Conveyor::check_queue *)
Definition check_queue (now : Z) (c : Conveyor) (force : bool) : Conveyor :=
  let last := match last_time_check c with Some t => t | None => now end in
  if is_empty (queue c) then c <| allow_fetch := false |> <| last_time_check := Some now |>
  else if force || is_full (queue c) || (u32 (queue_delay_time_ms c * 1000) <=? u32 (now - last))
  then let c := c <| last_time_check := Some now |> in if flush c then c else c <| allow_fetch := true |>
  else c <| last_time_check := Some last |>.
(** The cleaning half of [on_idle], in the order it touches the queue: test,
    clear, consume.
    [src/src/modules/robot/Conveyor.cpp:106-106] Conveyor::on_idle *)
Definition may_collect (c : Conveyor) : bool := negb (tail_i (queue c) =? isr_tail_i (queue c)).
(** [src/src/modules/robot/Conveyor.cpp:107-115] Conveyor::on_idle *)
Definition clear_tail (n_actuators : nat) (c : Conveyor) : Conveyor :=
  if is_empty (queue c) then c
  else c <| queue := set_item (queue c) (tail_ref (queue c)) (clear n_actuators) |>.
(** [src/src/modules/robot/Conveyor.cpp:116-116] Conveyor::on_idle *)
Definition consume (c : Conveyor) : Conveyor := c <| queue := consume_tail (queue c) |>.
(** [src/src/modules/robot/Conveyor.cpp:99-119] Conveyor::on_idle *)
Definition on_idle (n_actuators : nat) (now : Z) (c : Conveyor) : Conveyor :=
  let c := if running c then check_queue now c false else c in
  if may_collect c then consume (clear_tail n_actuators c) else c.

(** [src/src/modules/robot/Conveyor.cpp:124-134] Conveyor::is_idle *)
Definition is_idle (c : Conveyor) (actuators : list StepperMotor) : bool :=
  is_empty (queue c) && forallb (fun a => negb (is_moving a)) actuators.
(** [src/src/modules/robot/Conveyor.cpp:136-144] Conveyor::request_motion_abort *)
Definition request_motion_abort (c : Conveyor) (actuators : list StepperMotor) : Conveyor * list StepperMotor :=
  (c <| abort_motion := true |> <| allow_fetch := false |> <| flush := true |>, map stop_moving actuators).
(** [src/src/modules/robot/Conveyor.cpp:146-150] Conveyor::clear_motion_abort *)
Definition clear_motion_abort (c : Conveyor) : Conveyor := c <| flush := false |> <| abort_motion := false |>.
(** [src/src/modules/robot/Conveyor.h:38-38] Conveyor::motion_abort_requested *)
Definition motion_abort_requested (c : Conveyor) : bool := abort_motion c.
(** [src/src/modules/robot/Conveyor.h:40-40] Conveyor::force_queue *)
Definition force_queue (now : Z) (c : Conveyor) : Conveyor := check_queue now c true.
(** [src/src/modules/robot/Conveyor.cpp:218-221] Conveyor::set_continuous_mode *)
Definition set_continuous_mode (c : Conveyor) (f : bool) : Conveyor * bool := (c <| continuous_mode := 1 |>, true).
(** [src/src/modules/robot/Conveyor.h:43-43] Conveyor::set_hold *)
Definition set_hold (c : Conveyor) (f : bool) : Conveyor := c <| hold_queue := f |>.

(** The condition of the loop that waits for room.
    [src/src/modules/robot/Conveyor.cpp:180-180] Conveyor::queue_head_block *)
Definition waits_for_room (halted : bool) (c : Conveyor) : bool :=
  is_full (queue c) && negb halted && negb (motion_abort_requested c).
(** What follows the loop, up to the enabling of the motors.
    [src/src/modules/robot/Conveyor.cpp:185-197] Conveyor::queue_head_block *)
Definition push_head_block (n_actuators : nat) (halted : bool) (c : Conveyor) (actuators : list StepperMotor)
    : Conveyor * list StepperMotor * bool :=
  if halted || motion_abort_requested c
  then (c <| queue := set_item (queue c) (head_ref (queue c)) (clear n_actuators) |>, actuators, false)
  else (c <| queue := produce_head (queue c) |>, map (fun a => on_enable a 1) actuators, true).

(** ** The interrupt's side *)

(** A block on its way to the step ticker.
    [src/src/modules/robot/Conveyor.cpp:291-295] Conveyor::get_next_block *)
Definition hand_out (c : Conveyor) (i : Z) : Conveyor :=
  (c <| queue := set_item (queue c) i (fun b => b <| is_ticking := true |> <| recalculate_flag := false |>) |>)
    <| current_feedrate := nominal_speed (item (queue c) i) |>.
(** [fuel] is the size of the ring: the loop walks round it at most once
    ([flush_ring_spec]).
    [src/src/modules/robot/Conveyor.cpp:259-261] Conveyor::get_next_block *)
Fixpoint flush_ring (fuel : nat) (q : BlockQueue) : option BlockQueue :=
  if isr_tail_i q =? head_i q then Some q
  else match fuel with
  | O => None
  | S fuel => flush_ring fuel (q <| isr_tail_i := next q (isr_tail_i q) |>)
  end.
(** [None] if the loop does not end; the block handed out is an index.
    [src/src/modules/robot/Conveyor.cpp:251-299] Conveyor::get_next_block *)
Definition get_next_block (n_actuators : nat) (halted : bool) (c : Conveyor) : option (Conveyor * option Z) :=
  if hold_queue c then Some (c, None)
  else
    q ← (if flush c then flush_ring (Z.to_nat (length (queue c))) (queue c) else Some (queue c));
    let c := c <| queue := q |> in
    let c := c <| current_feedrate := f0 |> in
    if halted || (isr_tail_i (queue c) =? head_i (queue c)) then Some (c, None)
    else let i := isr_tail_i (queue c) in
    if 1 <? continuous_mode c then
      let c := c <| queue := set_item (queue c) i (fun b => BlockQueue.reset n_actuators b (saved_block c)) |> in
      Some (hand_out c i, Some i)
    else if negb (allow_fetch c) then Some (c, None)
    else if negb (locked (item (queue c) i)) then Some (hand_out c i, Some i)
    else Some (c, None).
(** [src/src/modules/robot/Conveyor.cpp:302-309] Conveyor::block_finished *)
Definition block_finished (c : Conveyor) : Conveyor :=
  if continuous_mode c <=? 1
  then c <| queue := (queue c) <| isr_tail_i := next (queue c) (isr_tail_i (queue c)) |> |>
  else c.

(** ** What they do to the regions of the ring *)
Abbreviation conveyor_ok c d t := (queue_ok (queue c) d t).

Lemma flush_ring_spec q d t fuel :
  queue_ok q d t -> t <= Z.of_nat fuel ->
  exists q', flush_ring fuel q = Some q' /\ queue_ok q' (d + t) 0 /\
    ring q' = ring q /\ head_i q' = head_i q /\ tail_i q' = tail_i q /\ length q' = length q.
Proof.
  revert q d t. induction fuel as [|fuel IH]; intros q d t H Hf; pose proof (regions_bound _ _ _ H);
    cbn [flush_ring]; rewrite (nothing_to_run _ _ _ H).
  - destruct (Z.eqb_spec t 0) as [->|]; [|lia]. exists q. rewrite Z.add_0_r. done.
  - destruct (Z.eqb_spec t 0) as [->|]; [exists q; rewrite Z.add_0_r; done|].
    destruct (IH _ _ _ (isr_advance_ok _ _ _ H ltac:(lia))) as (q' & Hq & Hok & Hr & Hh & Ht & Hl); [lia|].
    exists q'. rewrite Hq. replace (d + t) with (d + 1 + (t - 1)) by lia. done.
Qed.

Lemma on_idle_cleans n_actuators now c d t :
  conveyor_ok c d t -> conveyor_ok (on_idle n_actuators now c) (Z.max 0 (d - 1)) t.
Proof.
  intros H. unfold on_idle.
  set (c1 := if running c then check_queue now c false else c).
  assert (Hq : queue c1 = queue c) by (unfold c1, check_queue; by repeat case_match).
  clearbody c1. rewrite <- Hq in H. pose proof (regions_bound _ _ _ H).
  unfold may_collect. rewrite (nothing_to_clean _ _ _ H).
  destruct (Z.eqb_spec d 0) as [->|]; cbn [negb]; [done|].
  unfold clear_tail, consume. rewrite (is_empty_ok _ _ _ H). destruct (Z.eqb_spec (d + t) 0); [lia|].
  set (c2 := c1 <| queue := _ |>). assert (H2 : conveyor_ok c2 d t) by (unfold c2; recs; by apply set_item_ok).
  recs.
  replace (Z.max 0 (d - 1)) with (d - 1) by lia. apply consume_tail_ok; [done|lia].
Qed.

Lemma get_next_block_ok n_actuators halted c d t :
  conveyor_ok c d t ->
  exists c' ob d' t', get_next_block n_actuators halted c = Some (c', ob) /\ conveyor_ok c' d' t' /\
    tail_i (queue c') = tail_i (queue c) /\ head_i (queue c') = head_i (queue c) /\ length (queue c') = length (queue c) /\
    (if flush c && negb (hold_queue c) then d' = d + t /\ t' = 0 /\ ob = None else d' = d /\ t' = t) /\
    (forall i, ob = Some i -> i = isr_tail_i (queue c') /\ 0 < t' /\ halted = false /\ hold_queue c = false /\
       (continuous_mode c <= 1 -> allow_fetch c = true /\ locked (item (queue c) i) = false)).
Proof.
  intros H. unfold get_next_block. destruct (hold_queue c); [exists c, None, d, t; rewrite andb_false_r; done|].
  pose proof (regions_bound _ _ _ H).
  assert (exists q d' t', (if flush c then flush_ring (Z.to_nat (length (queue c))) (queue c) else Some (queue c)) = Some q /\
    queue_ok q d' t' /\ ring q = ring (queue c) /\ head_i q = head_i (queue c) /\ tail_i q = tail_i (queue c) /\
    length q = length (queue c) /\ (if flush c then d' = d + t /\ t' = 0 else d' = d /\ t' = t /\ q = queue c))
    as (q & d' & t' & -> & Hq & Hr & Hh & Ht & Hl & Hf).
  { destruct (flush c); [|by exists (queue c), d, t].
    destruct (flush_ring_spec _ _ _ (Z.to_nat (length (queue c))) H) as (q & Hq & Hok & Hr & Hh & Ht & Hl); [lia|].
    exists q, (d + t), 0. done. }
  cbn [mbind option_bind]. recs. rewrite (nothing_to_run _ _ _ Hq). rewrite andb_true_r.
  destruct (halted || (t' =? 0)) eqn:Hstop.
  { eexists _, None, d', t'. split; [done|]. recs. do 4 (split; [done|]). split; [destruct (flush c); intuition|done]. }
  apply orb_false_iff in Hstop as [-> Hz]. apply Z.eqb_neq in Hz. pose proof (regions_bound _ _ _ Hq).
  destruct (flush c); [lia|]. destruct Hf as (-> & -> & ->).
  destruct (1 <? continuous_mode c) eqn:Hm.
  { eexists _, (Some _), d, t. split; [done|]. unfold hand_out. recs.
    split; [by do 2 apply set_item_ok|]. do 4 (split; [done|]). intros i [= <-].
    split; [done|]. split; [lia|]. do 2 (split; [done|]). lia. }
  destruct (allow_fetch c); cbn [negb]; [|by eexists _, None, d, t].
  destruct (locked _) eqn:Hlk; cbn [negb]; [by eexists _, None, d, t|].
  eexists _, (Some _), d, t. split; [done|]. unfold hand_out. recs. split; [by apply set_item_ok|].
  do 4 (split; [done|]). intros i [= <-]. split; [done|]. split; [lia|]. done.
Qed.

(** The interrupt writes the queue and the feed rate, and no flag. *)
Lemma get_next_block_flags n_actuators halted c c' ob :
  get_next_block n_actuators halted c = Some (c', ob) ->
  c' = c <| queue := queue c' |> <| current_feedrate := current_feedrate c' |>.
Proof.
  unfold get_next_block. destruct (hold_queue c); [intros [= <- _]; by destruct c|].
  destruct (if flush c then _ else _) as [q|]; [|done]. cbn [mbind option_bind]. cbv zeta.
  repeat case_match; intros [= <- _]; by destruct c.
Qed.
(** What is handed out is the block at the interrupt's place, as the planner
    left it but for the two flags. *)
Lemma get_next_block_item n_actuators halted c c' i d t :
  conveyor_ok c d t -> continuous_mode c <= 1 -> get_next_block n_actuators halted c = Some (c', Some i) ->
  i = isr_tail_i (queue c) /\
  queue c' = set_item (queue c) i (fun b => b <| is_ticking := true |> <| recalculate_flag := false |>).
Proof.
  intros H Hm. destruct (get_next_block_ok n_actuators halted _ _ _ H) as (c1 & ob & d' & t' & Hg & _ & _ & _ & _ & Hf & Hob).
  rewrite Hg. intros [= -> ->]. destruct (Hob _ eq_refl) as (_ & Ht & _ & Hh & _). rewrite Hh, andb_true_r in Hf.
  unfold get_next_block in Hg. rewrite Hh in Hg. destruct (flush c); [by destruct Hf as (_ & _ & ?)|].
  cbn [mbind option_bind] in Hg. recs. destruct (Z.ltb_spec 1 (continuous_mode c)); [lia|].
  repeat case_match; simplify_eq; by unfold hand_out; recs.
Qed.
Lemma block_finished_ok c d t :
  conveyor_ok c d t -> 0 < t -> continuous_mode c <= 1 -> conveyor_ok (block_finished c) (d + 1) (t - 1).
Proof.
  intros H Ht Hm. unfold block_finished. destruct (Z.leb_spec (continuous_mode c) 1); [|lia]. recs.
  by apply isr_advance_ok.
Qed.
Lemma push_head_block_ok n_actuators halted c ms d t :
  conveyor_ok c d t -> waits_for_room halted c = false ->
  let '(c', _, pushed) := push_head_block n_actuators halted c ms in
  conveyor_ok c' d (if pushed : bool then t + 1 else t) /\ pushed = negb (halted || abort_motion c).
Proof.
  intros H Hw. unfold push_head_block, waits_for_room, motion_abort_requested in *.
  destruct halted; cbn [orb negb andb] in *; [recs; split; [by apply set_item_ok|done]|].
  destruct (abort_motion c); cbn [orb negb andb] in *; recs; (split; [|done]); [by apply set_item_ok|].
  rewrite !andb_true_r in Hw. by apply produce_head_ok.
Qed.
