(* ===== verification/StepTicker.v ===== *)
(** * The step generator ([src/src/libs/StepTicker.h], [StepTicker.cpp])

    A timer interrupt at a fixed rate. On each tick every motor of the running
    block adds its speed to a fraction counter and steps when a whole step has
    built up; when no motor moves any more, the next block is fetched at once.
    The motors are the robot's actuators, in the order they were registered. *)
From S2P Require Import Prelude Ring StepperMotor BlockQueue Conveyor.

(** ** 2.62 fixed point *)
(** [src/src/libs/StepTicker.h:25-25] STEPTICKER_FPSCALE *)
Definition STEPTICKER_FPSCALE : Z := Z.shiftl 1 62.
(** [int64_t], two's complement. *)
Definition s64 (x : Z) : Z := let y := u64 x in if y <? 2 ^ 63 then y else y - 2 ^ 64.
Lemma s64_small x : - 2 ^ 63 <= x < 2 ^ 63 -> s64 x = x.
Proof. intros. unfold s64. ints. Qed.

(** The timers' registers are left out; the number of motors is that of the
    robot's actuators.
    [src/src/libs/StepTicker.h:53-64] StepTicker *)
Record StepTicker := mk_ticker {
  frequency : Z; period : Z; unstep_bits : list bool; current_block : option Z; current_tick : Z; ticking : bool
}.
#[export] Instance eta_StepTicker : Eta StepTicker := fun k =>
  mk_ticker (frequency k) (period k) (unstep_bits k) (current_block k) (current_tick k) (ticking k).

(** [src/src/libs/StepTicker.cpp:52-56] StepTicker::StepTicker *)
Definition new_ticker (raw : StepTicker) : StepTicker :=
  raw <| unstep_bits := [] |> <| ticking := false |> <| current_block := None |> <| current_tick := 0 |>.
(** The motors are indexed in the order they come.
    [src/src/libs/StepTicker.cpp:282-286] StepTicker::register_motor *)
Definition register_motor (motors : list StepperMotor) (m : StepperMotor) : list StepperMotor * Z :=
  (motors ++ [m], Z.of_nat (List.length motors)).
(** [src/src/libs/StepTicker.cpp:97-105] StepTicker::unstep_tick *)
Definition unstep_tick (k : StepTicker) (motors : list StepperMotor) : StepTicker * list StepperMotor :=
  (k <| unstep_bits := [] |>,
   imap (fun i m => match unstep_bits k !! i with Some true => unstep m | _ => m end) motors).

(** ** One motor's tick *)
(** The speed changes of a trapezoid.
    [src/src/libs/StepTicker.cpp:163-178] StepTicker::step_tick *)
Definition accel_event (b : Block) (tick : Z) (t : tickinfo_t) : tickinfo_t :=
  if tick =? next_accel_event t then
    let t := if tick =? accelerate_until b then
        let t := t <| acceleration_change := 0 |> in
        if decelerate_after b <? total_move_ticks b then
          let t := t <| next_accel_event := decelerate_after b |> in
          if negb (tick =? decelerate_after b) then t <| steps_per_tick := plateau_rate t |> else t
        else t
      else t in
    if tick =? decelerate_after b then t <| acceleration_change := deceleration_change t |> else t
  else t.
(** The new speed, and the fraction it adds.
    [src/src/libs/StepTicker.cpp:161-186] StepTicker::step_tick *)
Definition advance (b : Block) (tick : Z) (t : tickinfo_t) : tickinfo_t :=
  let t := t <| steps_per_tick := s64 (steps_per_tick t + acceleration_change t) |> in
  let t := accel_event b tick t in
  let t := if steps_per_tick t <=? 0 then t <| counter := STEPTICKER_FPSCALE |> <| steps_per_tick := 0 |> else t in
  t <| counter := s64 (counter t + steps_per_tick t) |>.
(** A motor's tick: its times, itself, whether it stepped, and whether it still
    moves.
    [src/src/libs/StepTicker.cpp:159-205] StepTicker::step_tick *)
Definition tick_motor (b : Block) (tick : Z) (t : tickinfo_t) (m : StepperMotor)
    : tickinfo_t * StepperMotor * bool * bool :=
  if steps_to_move t =? 0 then (t, m, false, false)
  else
    let t := advance b tick t in
    if STEPTICKER_FPSCALE <=? counter t then
      let t := t <| counter := s64 (counter t - STEPTICKER_FPSCALE) |> <| step_count := u32 (step_count t + 1) |> in
      let '(m, ismoving) := step m in
      let '(t, m) := if negb ismoving || (step_count t =? steps_to_move t)
                     then (t <| steps_to_move := 0 |>, stop_moving m) else (t, m) in
      (t, m, true, is_moving m)
    else (t, m, false, is_moving m).
(** The loop over the motors: the block's times, the motors, who stepped, and
    whether any still moves.
    [src/src/libs/StepTicker.cpp:156-206] StepTicker::step_tick *)
Fixpoint tick_motors (b : Block) (tick : Z) (ts : list tickinfo_t) (ms : list StepperMotor)
    : list tickinfo_t * list StepperMotor * list bool * bool :=
  match ts, ms with
  | t :: ts, m :: ms =>
      let '(t, m, stepped, moves) := tick_motor b tick t m in
      let '(ts, ms, bits, still) := tick_motors b tick ts ms in
      (t :: ts, m :: ms, stepped :: bits, moves || still)
  | ts, ms => (ts, ms, [], false)
  end.

(** ** The tick *)
(** A motor whose block has steps for it is set going.
    [src/src/libs/StepTicker.cpp:255-262] StepTicker::start_next_block *)
Definition start_motor (t : tickinfo_t) (dir : bool) (m : StepperMotor) : StepperMotor :=
  if steps_to_move t =? 0 then m else start_moving (set_direction m dir).
(** The pieces of the machine an interrupt works on. *)
Record machine := mk_machine { conveyor : Conveyor; ticker : StepTicker; motors : list StepperMotor; halted : bool }.
#[export] Instance eta_machine : Eta machine := fun w => mk_machine (conveyor w) (ticker w) (motors w) (halted w).

(** [src/src/libs/StepTicker.cpp:248-278] StepTicker::start_next_block *)
Definition start_next_block (w : machine) : machine * bool :=
  match current_block (ticker w) with
  | None => (w, false)
  | Some i =>
      let b := item (queue (conveyor w)) i in
      let ok := existsb (fun t => negb (steps_to_move t =? 0)) (take (List.length (motors w)) (tick_info b)) in
      let w := w <| motors := imap (fun j m => start_motor (tick_info b !!! j) (direction_bits b !!! j) m) (motors w) |> in
      let w := w <| ticker := (ticker w) <| current_tick := 0 |> |> in
      if ok then (w, true) else (w <| conveyor := block_finished (conveyor w) |>, false)
  end.
(** Fetches and starts, as both ends of the tick do: the flag says whether
    there was a block.
    [src/src/libs/StepTicker.cpp:141-146] StepTicker::step_tick *)
Definition fetch (w : machine) : option (machine * bool) :=
  '(c, ob) ← get_next_block (List.length (motors w)) (halted w) (conveyor w);
  let w := w <| conveyor := c |> in
  match ob with
  | Some i =>
      let w := w <| ticker := (ticker w) <| current_block := Some i |> |> in
      let '(w, r) := start_next_block w in
      Some (w <| ticker := (ticker w) <| ticking := r |> |>, true)
  | None => Some (w, false)
  end.
(** What follows once no motor moves.
    [src/src/libs/StepTicker.cpp:222-238] StepTicker::step_tick *)
Definition end_of_block (w : machine) : option machine :=
  let w := w <| ticker := (ticker w) <| current_tick := 0 |> |> in
  let w := w <| conveyor := block_finished (conveyor w) |> in
  '(w, found) ← fetch w;
  Some (if found : bool then w else w <| ticker := (ticker w) <| current_block := None |> <| ticking := false |> |>).
(** The motors that stepped join those whose pulse has not ended yet. *)
Definition set_bits (new old : list bool) : list bool := imap (fun i b => b || default false (old !! i)) new.
(** The part of a tick that works on a block.
    [src/src/libs/StepTicker.cpp:149-245] StepTicker::step_tick *)
Definition run_block (w : machine) : option machine :=
  if halted w
  then Some (w <| ticker := (ticker w) <| ticking := false |> <| current_tick := 0 |> <| current_block := None |> |>)
  else match current_block (ticker w) with
  | None => None
  | Some i =>
      let b := item (queue (conveyor w)) i in
      let '(ts, ms, bits, still) := tick_motors b (current_tick (ticker w)) (tick_info b) (motors w) in
      let w := w <| conveyor := (conveyor w) <| queue := set_item (queue (conveyor w)) i (fun b => b <| tick_info := ts |>) |> |> in
      let w := w <| motors := ms |> in
      let w := w <| ticker := (ticker w) <| current_tick := u32 (current_tick (ticker w) + 1) |>
                 <| unstep_bits := set_bits bits (unstep_bits (ticker w)) |> |> in
      if still : bool then Some w else end_of_block w
  end.
(** [None] for a null block or a flush that does not end: neither happens
    ([Motion.motion_safe]).
    [src/src/libs/StepTicker.cpp:134-245] StepTicker::step_tick *)
Definition step_tick (w : machine) : option machine :=
  if ticking (ticker w) then run_block w
  else
    '(w, found) ← fetch w;
    if (found : bool) && ticking (ticker w) then run_block w else Some w.

(** ** What a tick does to a motor *)

(** [n] steps in direction [dir] from position [p]: where a motor is after [k]. *)
Definition position_after (p : Z) (dir : bool) (k : Z) : Z := s32 (p + (if dir then - k else k)).
Lemma position_step p dir k :
  s32 (position_after p dir k + (if dir then -1 else 1)) = position_after p dir (k + 1).
Proof. unfold position_after. rewrite s32_add_s32. f_equal. destruct dir; lia. Qed.

(** How far a motor is on a block that has [n] steps for it. *)
Inductive progress (n : Z) (dir : bool) (p : Z) (t : tickinfo_t) (m : StepperMotor) : Prop :=
| not_in_block : n = 0 -> steps_to_move t = 0 -> current_position_steps m = p -> progress n dir p t m
| on_the_way :
    steps_to_move t = n -> 0 <= step_count t < n -> is_u32 n -> moving m = true -> direction m = dir ->
    current_position_steps m = position_after p dir (step_count t) -> progress n dir p t m
| arrived :
    0 < n -> steps_to_move t = 0 -> moving m = false ->
    current_position_steps m = position_after p dir n -> progress n dir p t m.

Lemma accel_event_counts b tick t :
  steps_to_move (accel_event b tick t) = steps_to_move t /\ step_count (accel_event b tick t) = step_count t /\
  counter (accel_event b tick t) = counter t /\ deceleration_change (accel_event b tick t) = deceleration_change t /\
  plateau_rate (accel_event b tick t) = plateau_rate t.
Proof. unfold accel_event. cbv zeta. by repeat case_match. Qed.
Lemma advance_counts b tick t :
  steps_to_move (advance b tick t) = steps_to_move t /\ step_count (advance b tick t) = step_count t /\
  deceleration_change (advance b tick t) = deceleration_change t /\ plateau_rate (advance b tick t) = plateau_rate t.
Proof.
  unfold advance. cbv zeta.
  destruct (accel_event_counts b tick (t <| steps_per_tick := s64 (steps_per_tick t + acceleration_change t) |>)) as (H1 & H2 & _ & H3 & H4).
  case_match; recs; by rewrite ?H1, ?H2, ?H3, ?H4.
Qed.

(** A tick takes a motor along its way, and says it moves until it has arrived. *)
Lemma tick_motor_progress n dir p b tick t m t' m' stepped moves :
  progress n dir p t m -> tick_motor b tick t m = (t', m', stepped, moves) ->
  progress n dir p t' m' /\ (moves = false <-> steps_to_move t' = 0).
Proof.
  intros Hp Ht. unfold tick_motor in Ht. destruct (advance_counts b tick t) as (Hn & Hc & _).
  destruct Hp as [-> Hz Hpos|Hs Hk Hu Hm Hd Hpos|Hn0 Hz Hm Hpos].
  - rewrite Hz in Ht. injection Ht as <- <- <- <-. split; [by apply not_in_block|done].
  - destruct (Z.eqb_spec (steps_to_move t) 0); [lia|]. cbv zeta in Ht.
    destruct (_ <=? _); [|injection Ht as <- <- <- <-; unfold is_moving; rewrite Hm, Hn;
      split; [apply on_the_way; rewrite ?Hn, ?Hc; done|split; [done|lia]]].
    unfold step in Ht. cbv zeta in Ht. recs. rewrite Hm, Hn, Hc, wrap_small in Ht by (unfold is_uint in *; lia). cbn [negb orb] in Ht.
    rewrite Hd, Hpos, position_step in Ht.
    destruct (Z.eqb_spec (step_count t + 1) (steps_to_move t)) as [He|He]; injection Ht as <- <- <- <-; unfold is_moving, stop_moving; recs.
    + split; [apply arrived; recs; [lia|done|done|]; congruence|done].
    + split; [apply on_the_way; recs; rewrite ?Hn, ?Hc; try done; try lia; by rewrite wrap_small by (unfold is_uint in *; lia)|].
      rewrite Hm, Hn. split; [done|lia].
  - rewrite Hz in Ht. injection Ht as <- <- <- <-. split; [by apply arrived|done].
Qed.

(** A motor stopped from outside takes at most one more step, and its block has
    no more for it. *)
Lemma tick_motor_stopped b tick t m t' m' stepped moves :
  moving m = false -> tick_motor b tick t m = (t', m', stepped, moves) ->
  moving m' = false /\ moves = false /\
  current_position_steps m' = (if stepped : bool then position_after (current_position_steps m) (direction m) 1
                               else current_position_steps m) /\
  (stepped = true -> steps_to_move t' = 0).
Proof.
  intros Hm Ht. unfold tick_motor in Ht. destruct (steps_to_move t =? 0); [by injection Ht as <- <- <- <-|].
  cbv zeta in Ht. destruct (_ <=? _); [|by injection Ht as <- <- <- <-].
  unfold step in Ht. cbv zeta in Ht. recs. rewrite Hm in Ht. cbn [negb orb] in Ht. injection Ht as <- <- <- <-.
  unfold is_moving, stop_moving. recs. do 2 (split; [done|]). split; [|done].
  unfold position_after. by destruct (direction m).
Qed.

(** ** How long a motor takes

    What the planner prepares, and every tick keeps: the fraction is less than a
    step, the speed is less than a step a tick and stays so while it grows, and
    nothing leaves the range of [int64_t]. *)
Record timing_ok (until tick : Z) (t : tickinfo_t) : Prop := mk_timing_ok {
  to_counter : 0 <= counter t < STEPTICKER_FPSCALE;
  to_speed : 0 <= steps_per_tick t < STEPTICKER_FPSCALE;
  to_accel : - STEPTICKER_FPSCALE <= acceleration_change t;
  to_decel : - STEPTICKER_FPSCALE <= deceleration_change t <= 0;
  to_plateau : 0 <= plateau_rate t < STEPTICKER_FPSCALE;
  to_growth : 0 < acceleration_change t -> 0 <= tick <= until /\ next_accel_event t = until /\
    steps_per_tick t + acceleration_change t * (until - tick + 1) < STEPTICKER_FPSCALE
}.
(** The way left, in fractions of a step; it shrinks every tick. *)
Definition way_left (t : tickinfo_t) : Z :=
  if steps_to_move t =? 0 then 0 else (steps_to_move t - step_count t) * STEPTICKER_FPSCALE - counter t.

Lemma fpscale_value : STEPTICKER_FPSCALE = 2 ^ 62.
Proof. reflexivity. Qed.

(** The speed change of a tick, before the counter. *)
Lemma accel_event_timing b tick t :
  timing_ok (accelerate_until b) tick t -> is_u32 tick -> is_u32 (accelerate_until b) ->
  let t1 := t <| steps_per_tick := s64 (steps_per_tick t + acceleration_change t) |> in
  let t' := accel_event b tick t1 in
  - STEPTICKER_FPSCALE <= steps_per_tick t' < STEPTICKER_FPSCALE /\
  - STEPTICKER_FPSCALE <= acceleration_change t' /\
  (0 < acceleration_change t' -> 0 < steps_per_tick t' /\ 0 <= u32 (tick + 1) <= accelerate_until b /\ next_accel_event t' = accelerate_until b /\
    steps_per_tick t' + acceleration_change t' * (accelerate_until b - u32 (tick + 1) + 1) < STEPTICKER_FPSCALE).
Proof.
  intros [] Hu Ha t1 t'.
  assert (Hsp : - STEPTICKER_FPSCALE <= steps_per_tick t + acceleration_change t < STEPTICKER_FPSCALE) by nia.
  assert (Ht1 : steps_per_tick t1 = steps_per_tick t + acceleration_change t).
  { unfold t1. recs. apply s64_small. rewrite fpscale_value in Hsp. lia. }
  destruct (Z.le_gt_cases (acceleration_change t) 0) as [Hle|Hgt].
  { assert (Hn : acceleration_change t' <= 0 /\ - STEPTICKER_FPSCALE <= acceleration_change t' /\
       - STEPTICKER_FPSCALE <= steps_per_tick t' < STEPTICKER_FPSCALE).
    { unfold t', accel_event. cbv zeta. repeat case_match; recs; rewrite ?Ht1; unfold t1; recs; lia. }
    destruct Hn as (? & ? & ?). split; [done|]. split; [done|lia]. }
  destruct (to_growth0 Hgt) as (Htk & Hne & Hg). unfold t', accel_event. cbv zeta.
  assert (H1 : next_accel_event t1 = accelerate_until b /\ acceleration_change t1 = acceleration_change t /\
    plateau_rate t1 = plateau_rate t /\ deceleration_change t1 = deceleration_change t) by done.
  clearbody t1. destruct H1 as (E1 & E2 & E3 & E4). rewrite E1.
  destruct (Z.eqb_spec tick (accelerate_until b)) as [He|He].
  - repeat case_match; recs; rewrite ?E1, ?E2, ?E3, ?E4, ?Ht1; (split; [lia|]); (split; [lia|]); lia.
  - rewrite E1, E2, Ht1. rewrite wrap_small by (unfold is_uint in *; lia).
    split; [lia|]. split; [lia|]. intros _. do 3 (split; [lia || done|]). nia.
Qed.

Lemma tick_motor_timing b tick t m :
  timing_ok (accelerate_until b) tick t -> is_u32 tick -> is_u32 (accelerate_until b) -> moving m = true ->
  0 <= step_count t < steps_to_move t -> is_u32 (steps_to_move t) ->
  let '(t', _, _, _) := tick_motor b tick t m in
  timing_ok (accelerate_until b) (u32 (tick + 1)) t' /\ 0 <= way_left t' /\ way_left t' < way_left t.
Proof.
  intros Hok Hu Ha Hm Hc Hn. destruct (accel_event_timing b tick t Hok Hu Ha) as (Hs & Hac & Hg).
  destruct (accel_event_counts b tick (t <| steps_per_tick := s64 (steps_per_tick t + acceleration_change t) |>))
    as (E1 & E2 & E3 & E4 & E5).
  unfold tick_motor. destruct (Z.eqb_spec (steps_to_move t) 0); [lia|]. cbv zeta. unfold advance. cbv zeta.
  set (t2 := accel_event b tick _) in *. recs. clearbody t2. destruct Hok.
  set (t3 := if steps_per_tick t2 <=? 0 then _ else _).
  assert (H3 : steps_to_move t3 = steps_to_move t /\ step_count t3 = step_count t /\
    deceleration_change t3 = deceleration_change t /\ plateau_rate t3 = plateau_rate t /\
    acceleration_change t3 = acceleration_change t2 /\ next_accel_event t3 = next_accel_event t2)
    by (unfold t3; case_match; recs; rewrite ?E1, ?E2, ?E4, ?E5; done).
  assert (Hcs : 0 <= counter t3 <= STEPTICKER_FPSCALE /\ 0 <= steps_per_tick t3 < STEPTICKER_FPSCALE /\
    steps_per_tick t2 <= steps_per_tick t3 /\
    counter t < counter t3 + steps_per_tick t3 < 2 * STEPTICKER_FPSCALE /\
    (0 < steps_per_tick t2 -> steps_per_tick t3 = steps_per_tick t2)).
  { unfold t3. destruct (Z.leb_spec (steps_per_tick t2) 0); recs; rewrite ?E3; rewrite fpscale_value in *; lia. }
  clearbody t3. destruct H3 as (F1 & F2 & F3 & F4 & F5 & F6). destruct Hcs as (? & ? & Hmono & ? & Heq). recs.
  rewrite (s64_small (counter t3 + steps_per_tick t3)) by (rewrite fpscale_value in *; lia).
  assert (Hg' : 0 < acceleration_change t3 -> 0 <= u32 (tick + 1) <= accelerate_until b /\ next_accel_event t3 = accelerate_until b /\
    steps_per_tick t3 + acceleration_change t3 * (accelerate_until b - u32 (tick + 1) + 1) < STEPTICKER_FPSCALE).
  { rewrite F5, F6. intros Hp. destruct (Hg Hp) as (G1 & G2 & G3 & G4). by rewrite (Heq G1). }
  destruct (Z.leb_spec STEPTICKER_FPSCALE (counter t3 + steps_per_tick t3)).
  - unfold step. cbv zeta. recs. rewrite Hm, F1, F2, wrap_small by (unfold is_uint in *; lia). cbn [negb orb].
    rewrite (s64_small (counter t3 + _ - _)) by (rewrite fpscale_value in *; lia).
    destruct (Z.eqb_spec (step_count t + 1) (steps_to_move t)).
    + split; [split; recs; rewrite ?F3, ?F4, ?F5 in *; try done; lia|]. unfold way_left. recs.
      destruct (Z.eqb_spec (steps_to_move t) 0); [lia|]. cbn [Z.eqb]. nia.
    + split; [split; recs; rewrite ?F3, ?F4, ?F5 in *; try done; lia|]. unfold way_left. recs.
      rewrite F1. destruct (Z.eqb_spec (steps_to_move t) 0); [lia|]. nia.
  - split; [split; recs; rewrite ?F3, ?F4, ?F5 in *; try done; lia|]. unfold way_left. recs.
    rewrite F1, F2. destruct (Z.eqb_spec (steps_to_move t) 0); [lia|]. nia.
Qed.

(** ** The loop over the motors *)
Lemma tick_motors_lookup b tick ts ms ts' ms' bits still :
  tick_motors b tick ts ms = (ts', ms', bits, still) -> (List.length ms <= List.length ts)%nat ->
  List.length ts' = List.length ts /\ List.length ms' = List.length ms /\
  (forall j t m, ts !! j = Some t -> ms !! j = Some m -> exists t' m' stepped moves,
     tick_motor b tick t m = (t', m', stepped, moves) /\ ts' !! j = Some t' /\ ms' !! j = Some m' /\ bits !! j = Some stepped /\
     (still = false -> moves = false)) /\
  (still = true -> exists j t m t' m' stepped, ts !! j = Some t /\ ms !! j = Some m /\
     tick_motor b tick t m = (t', m', stepped, true)).
Proof.
  revert ms ts' ms' bits still. induction ts as [|t ts IH]; intros [|m ms] ts' ms' bits still Ht Hl; cbn in *.
  - injection Ht as <- <- <- <-. done.
  - lia.
  - injection Ht as <- <- <- <-. done.
  - destruct (tick_motor b tick t m) as [[[t1 m1] s1] v1] eqn:Hm.
    destruct (tick_motors b tick ts ms) as [[[ts1 ms1] bs1] st1] eqn:Hs. injection Ht as <- <- <- <-.
    destruct (IH _ _ _ _ _ Hs) as (H1 & H2 & H3 & H4); [lia|]. cbn. split; [lia|]. split; [lia|]. split.
    + intros [|j] t0 m0; cbn.
      * intros [= <-] [= <-]. exists t1, m1, s1, v1. rewrite Hm. do 4 (split; [done|]). by destruct v1.
      * intros Hj1 Hj2. destruct (H3 _ _ _ Hj1 Hj2) as (t' & m' & s & v & ? & ? & ? & ? & Hv).
        exists t', m', s, v. do 4 (split; [done|]). intros ?. apply Hv. by destruct v1, st1.
    + intros Hst. destruct v1.
      * exists 0%nat, t, m, t1, m1, s1. done.
      * cbn in Hst. destruct (H4 Hst) as (j & Hj). by exists (S j).
Qed.

(** Where each motor of a block begins: its steps, direction and position. *)
Abbreviation starts := (list (Z * bool * Z)).
(** Every motor is on its way from its start, in time, with at most [k] left. *)
Definition on_course (s : starts) (until tick k : Z) (ts : list tickinfo_t) (ms : list StepperMotor) : Prop :=
  List.length ms = List.length s /\ (List.length ms <= List.length ts)%nat /\
  forall j n dir p t m, s !! j = Some (n, dir, p) -> ts !! j = Some t -> ms !! j = Some m ->
    progress n dir p t m /\ (steps_to_move t <> 0 -> timing_ok until tick t) /\ way_left t <= k.
(** Every motor has taken its steps. *)
Definition all_arrived (s : starts) (ms : list StepperMotor) : Prop :=
  List.length ms = List.length s /\
  forall j n dir p m, s !! j = Some (n, dir, p) -> ms !! j = Some m ->
    - 2 ^ 31 <= p < 2 ^ 31 -> current_position_steps m = position_after p dir n.

Lemma tick_motors_course s b tick k ts ms ts' ms' bits still :
  on_course s (accelerate_until b) tick k ts ms -> is_u32 tick -> is_u32 (accelerate_until b) -> 0 <= k ->
  tick_motors b tick ts ms = (ts', ms', bits, still) ->
  List.length ts' = List.length ts /\ List.length ms' = List.length ms /\
  if still then 1 <= k /\ on_course s (accelerate_until b) (u32 (tick + 1)) (k - 1) ts' ms' else all_arrived s ms'.
Proof.
  intros (Hl1 & Hl2 & Hc) Hu Ha Hk Ht.
  destruct (tick_motors_lookup _ _ _ _ _ _ _ _ Ht Hl2) as (L1 & L2 & Hj & Hst). split; [done|]. split; [done|].
  assert (Hone : forall j n dir p t' m', s !! j = Some (n, dir, p) -> ts' !! j = Some t' -> ms' !! j = Some m' ->
    exists t m stepped moves, ts !! j = Some t /\ ms !! j = Some m /\ tick_motor b tick t m = (t', m', stepped, moves) /\
      (still = false -> moves = false) /\ progress n dir p t' m' /\ (moves = false <-> steps_to_move t' = 0) /\
      (steps_to_move t' <> 0 -> timing_ok (accelerate_until b) (u32 (tick + 1)) t' /\ 0 <= way_left t' < way_left t) /\ way_left t <= k).
  { intros j n dir p t' m' Hs Hts Hms.
    destruct (lookup_lt_is_Some_2 ts j) as [t Htj]; [rewrite <- L1; by eapply lookup_lt_Some|].
    destruct (lookup_lt_is_Some_2 ms j) as [m Hmj]; [rewrite <- L2; by eapply lookup_lt_Some|].
    destruct (Hj _ _ _ Htj Hmj) as (t1 & m1 & stepped & moves & Htm & E1 & E2 & _ & Hsf). simplify_eq.
    exists t, m, stepped, moves. destruct (Hc _ _ _ _ _ _ Hs Htj Hmj) as (Hp & Hto & Hw).
    destruct (tick_motor_progress _ _ _ _ _ _ _ _ _ _ _ Hp Htm) as (Hp' & Hmv). do 6 (split; [done|]). split; [|done].
    intros Hne. destruct Hp as [-> Hz _|Hn Hcnt Hun Hmo Hd Hpos|? Hz ? ?].
    1, 3: unfold tick_motor in Htm; rewrite Hz in Htm; injection Htm as <- <- <- <-; by rewrite Hz in Hne.
    assert (steps_to_move t <> 0) by lia.
    pose proof (tick_motor_timing b tick t m (Hto ltac:(done)) Hu Ha Hmo ltac:(lia) ltac:(by rewrite Hn)) as Hx.
    rewrite Htm in Hx. destruct Hx as (? & ? & ?). split; [done|lia]. }
  destruct still.
  - assert (1 <= k).
    { destruct (Hst eq_refl) as (j & t & m & t' & m' & stepped & Htj & Hmj & Htm).
      destruct (lookup_lt_is_Some_2 s j) as [[[n dir] p] Hs]; [rewrite <- Hl1; by eapply lookup_lt_Some|].
      destruct (Hj _ _ _ Htj Hmj) as (t1 & m1 & ? & ? & Htm1 & E1 & E2 & _ & _). rewrite Htm in Htm1. simplify_eq.
      destruct (Hone _ _ _ _ _ _ Hs E1 E2) as (t0 & m0 & ? & ? & ? & ? & Htm2 & _ & _ & Hmv & Hto & Hw). simplify_eq.
      rewrite Htm in Htm2. simplify_eq. destruct Hto as (_ & ? & ?); [|lia].
      intros Hz. destruct Hmv as [_ Hmv]. discriminate (Hmv Hz). }
    split; [done|]. split; [lia|]. split; [lia|]. intros j n dir p t' m' Hs Hts Hms.
    destruct (Hone _ _ _ _ _ _ Hs Hts Hms) as (t & m & ? & ? & ? & ? & ? & _ & Hp & _ & Hto & Hw).
    split; [done|]. split; [intros Hne; by apply Hto|].
    destruct (Z.eq_dec (steps_to_move t') 0) as [Hz|Hne]; [unfold way_left; rewrite Hz; cbn; lia|]. apply Hto in Hne. lia.
  - split; [lia|]. intros j n dir p m' Hs Hms Hpr.
    destruct (lookup_lt_is_Some_2 ts' j) as [t' Hts]; [apply lookup_lt_Some in Hms; lia|].
    destruct (Hone _ _ _ _ _ _ Hs Hts Hms) as (t & m & ? & ? & ? & ? & ? & Hsf & Hp & Hmv & _).
    assert (Hz : steps_to_move t' = 0) by (apply Hmv; by apply Hsf).
    destruct Hp as [-> _ ->|Hn ? _ _ _ _|_ _ _ ->]; [|lia|done].
    unfold position_after. rewrite s32_small; destruct dir; lia.
Qed.

(** ** A block, from its fetch to its end *)
Fixpoint ticks (n : nat) (w : machine) : option machine :=
  match n with O => Some w | S n => w ← step_tick w; ticks n w end.

(** What a fetch leaves alone: where the motors stand, and the planner's end of
    the queue. *)
Definition positions (w : machine) : list Z := map current_position_steps (motors w).
Lemma imap_start_positions (f : nat -> StepperMotor -> StepperMotor) ms :
  (forall j m, current_position_steps (f j m) = current_position_steps m) ->
  map current_position_steps (imap f ms) = map current_position_steps ms.
Proof.
  revert f. induction ms as [|m ms IH]; intros f Hf; cbn; [done|]. rewrite Hf. f_equal. apply (IH (f ∘ S)). intros. apply Hf.
Qed.
Lemma start_motor_position t dir m : current_position_steps (start_motor t dir m) = current_position_steps m.
Proof. unfold start_motor. by case_match. Qed.

Lemma start_next_block_ok w d t i :
  conveyor_ok (conveyor w) d t -> 0 < t -> continuous_mode (conveyor w) <= 1 -> current_block (ticker w) = Some i ->
  let '(w', r) := start_next_block w in
  exists d' t', conveyor_ok (conveyor w') d' t' /\ d' + t' = d + t /\ (if r then d' = d /\ conveyor w' = conveyor w else d' = d + 1) /\
    positions w' = positions w /\ halted w' = halted w /\ continuous_mode (conveyor w') = continuous_mode (conveyor w) /\
    current_block (ticker w') = Some i.
Proof.
  intros H Ht Hm Hi. unfold start_next_block. rewrite Hi. cbv zeta.
  assert (Hp : forall l (f : nat -> StepperMotor -> StepperMotor), (forall j m, f j m = start_motor (tick_info l !!! j) (direction_bits l !!! j) m) ->
    map current_position_steps (imap f (motors w)) = positions w).
  { intros l f Hf. apply imap_start_positions. intros j m. by rewrite Hf, start_motor_position. }
  destruct (existsb _ _); unfold positions; recs.
  - exists d, t. do 3 (split; [done|]). rewrite Hp with (l := item (queue (conveyor w)) i); done.
  - exists (d + 1), (t - 1). split; [by apply block_finished_ok|]. split; [lia|]. split; [done|].
    rewrite Hp with (l := item (queue (conveyor w)) i); [|done]. do 2 (split; [done|]). unfold block_finished. by case_match.
Qed.

Lemma fetch_ok w d t :
  conveyor_ok (conveyor w) d t -> continuous_mode (conveyor w) <= 1 ->
  exists w' found d' t', fetch w = Some (w', found) /\ conveyor_ok (conveyor w') d' t' /\ d <= d' /\ d' + t' = d + t /\
    positions w' = positions w /\ halted w' = halted w /\ continuous_mode (conveyor w') = continuous_mode (conveyor w) /\
    (found = true -> ticking (ticker w') = true -> d' = d /\ 0 < t' /\ halted w = false /\
       current_block (ticker w') = Some (isr_tail_i (queue (conveyor w'))) /\
       isr_tail_i (queue (conveyor w')) = isr_tail_i (queue (conveyor w))).
Proof.
  intros H Hm. unfold fetch.
  destruct (get_next_block_ok (List.length (motors w)) (halted w) _ _ _ H) as (c & ob & d' & t' & Hg & Hc & Ht & Hh & Hl & Hf & Hob).
  rewrite Hg. pose proof (f_equal continuous_mode (get_next_block_flags _ _ _ _ _ Hg)) as Hcm. recs.
  cbn [mbind option_bind]. destruct ob as [i|]; cbv zeta.
  - destruct (Hob i eq_refl) as (Hi & Hpos & Hhalt & Hhold & _). rewrite Hhold, andb_true_r in Hf.
    destruct (flush (conveyor w)); [by destruct Hf as (_ & _ & ?)|]. destruct Hf as [-> ->].
    set (w1 := w <| conveyor := c |> <| ticker := _ |>).
    pose proof (start_next_block_ok w1 d t i Hc Hpos ltac:(unfold w1; recs; lia) eq_refl) as Hs.
    destruct (start_next_block w1) as [w2 r]. destruct Hs as (d2 & t2 & H2 & He & Hr & Hps & Hh2 & Hc2 & Hb2).
    eexists _, true, d2, t2. split; [done|]. recs. split; [done|]. split; [destruct r; lia|]. split; [lia|].
    split; [done|]. split; [done|]. split; [unfold w1 in Hc2; recs; lia|].
    intros _ ->. destruct Hr as [-> ->]. unfold w1. recs. split; [done|]. split; [lia|]. split; [done|].
    split; [by rewrite Hb2, Hi|]. rewrite (isr_slot _ _ _ Hc), (isr_slot _ _ _ H). unfold slot. by rewrite Ht, Hl.
  - eexists _, false, d', t'. split; [done|]. recs. split; [done|].
    destruct (flush (conveyor w) && negb (hold_queue (conveyor w)));
      (split; [|split; [|do 2 (split; [done|]); split; [done|by intros]]]);
      destruct (regions_bound _ _ _ H) as (_ & ? & ? & _); lia.
Qed.

(** The machine in the middle of a block: [k] bounds what is left. *)
Record in_block (w : machine) (s : starts) (i d t until k : Z) : Prop := mk_in_block {
  ib_halted : halted w = false;
  ib_ticking : ticking (ticker w) = true;
  ib_block : current_block (ticker w) = Some i;
  ib_tail : isr_tail_i (queue (conveyor w)) = i;
  ib_tick : is_u32 (current_tick (ticker w));
  ib_queue : conveyor_ok (conveyor w) d t;
  ib_todo : 0 < t;
  ib_mode : continuous_mode (conveyor w) <= 1;
  ib_until : accelerate_until (item (queue (conveyor w)) i) = until;
  ib_until_range : is_u32 until;
  ib_left : 0 <= k;
  ib_course : on_course s until (current_tick (ticker w)) k (tick_info (item (queue (conveyor w)) i)) (motors w)
}.
(** A tick goes on, or ends the block with every step taken. *)
Lemma in_block_tick w s i d t until k :
  in_block w s i d t until k -> exists w', step_tick w = Some w' /\
    ((1 <= k /\ in_block w' s i d t until (k - 1)) \/
     (exists d' t', conveyor_ok (conveyor w') d' t' /\ d < d' /\ d' + t' = d + t /\
        List.length (positions w') = List.length s /\
        forall j n dir p x, s !! j = Some (n, dir, p) -> positions w' !! j = Some x -> - 2 ^ 31 <= p < 2 ^ 31 ->
          x = position_after p dir n)).
Proof.
  intros []. unfold step_tick, run_block. rewrite ib_ticking0, ib_halted0, ib_block0. cbv zeta.
  set (b := item (queue (conveyor w)) i) in *.
  assert (Hi : 0 <= i < length (queue (conveyor w))).
  { rewrite <- ib_tail0, (isr_slot _ _ _ ib_queue0). by apply (slot_range _ _ _ ib_queue0). }
  destruct (tick_motors b _ (tick_info b) (motors w)) as [[[ts ms] bits] still] eqn:Ht.
  rewrite <- ib_until0 in ib_course0, ib_until_range0.
  destruct (tick_motors_course _ _ _ _ _ _ _ _ _ _ ib_course0 ib_tick0 ib_until_range0 ib_left0 Ht) as (L1 & L2 & Hc).
  set (q1 := set_item (queue (conveyor w)) i (fun b => b <| tick_info := ts |>)).
  assert (Hq1 : queue_ok q1 d t) by (by apply set_item_ok).
  assert (Hb1 : item q1 i = b <| tick_info := ts |>) by (unfold q1; by rewrite (item_set_item _ _ _ _ _ ib_queue0 Hi)).
  destruct still.
  - eexists. split; [done|]. left. destruct Hc as [Hk Hc]. split; [done|]. split; recs; try done; try lia.
    + by apply wrap_range.
    + by rewrite Hb1, <- ib_until0.
    + by rewrite <- ib_until0.
    + rewrite Hb1. recs. by rewrite <- ib_until0.
  - unfold end_of_block. cbv zeta. recs.
    set (w1 := _ <| conveyor := block_finished _ |>).
    assert (H1 : conveyor_ok (conveyor w1) (d + 1) (t - 1)) by (unfold w1; recs; by apply block_finished_ok).
    assert (Hm1 : continuous_mode (conveyor w1) <= 1) by (unfold w1, block_finished; case_match; recs; lia).
    assert (Hp1 : positions w1 = map current_position_steps ms) by done.
    clearbody w1. destruct (fetch_ok w1 _ _ H1 Hm1) as (w2 & found & d' & t' & -> & H2 & Hd & Hs & Hp & _). cbn [mbind option_bind].
    destruct Hc as [HL Ha].
    assert (Hend : forall w3, positions w3 = positions w2 -> List.length (positions w3) = List.length s /\
        forall j n dir p x, s !! j = Some (n, dir, p) -> positions w3 !! j = Some x -> - 2 ^ 31 <= p < 2 ^ 31 ->
          x = position_after p dir n).
    { intros w3 E. rewrite E, Hp, Hp1. split; [by rewrite length_map|]. intros j n dir p x Hj Hx Hr.
      rewrite list_lookup_fmap in Hx. destruct (ms !! j) as [m|] eqn:Hmj; [|done]. injection Hx as <-. by eapply Ha. }
    destruct found; (eexists; split; [done|right; exists d', t']);
      (split; [done|]); (split; [lia|]); (split; [lia|]); by apply Hend.
Qed.

Lemma in_block_ends w s i d t until k :
  in_block w s i d t until (Z.of_nat k) -> exists n w', (1 <= n <= k + 1)%nat /\ ticks n w = Some w' /\
    (forall m, (m < n)%nat -> exists w1, ticks m w = Some w1 /\ current_block (ticker w1) = Some i /\
       isr_tail_i (queue (conveyor w1)) = i) /\
    exists d' t', conveyor_ok (conveyor w') d' t' /\ d < d' /\ d' + t' = d + t /\
      List.length (positions w') = List.length s /\
      forall j n dir p x, s !! j = Some (n, dir, p) -> positions w' !! j = Some x -> - 2 ^ 31 <= p < 2 ^ 31 ->
        x = position_after p dir n.
Proof.
  revert w. induction k as [|k IH]; intros w H; destruct (in_block_tick _ _ _ _ _ _ _ H) as (w1 & Hw & Hor).
  - destruct Hor as [[? _]|Hend]; [lia|]. exists 1%nat, w1. cbn [ticks]. rewrite Hw. split; [lia|]. split; [done|]. split; [|done].
    intros m Hm. assert (m = 0%nat) as -> by lia. exists w. by destruct H.
  - destruct Hor as [[_ Hin]|Hend].
    + replace (Z.of_nat (S k) - 1) with (Z.of_nat k) in Hin by lia.
      destruct (IH _ Hin) as (n & w' & Hn & Ht & Hb & Hr). exists (S n), w'. cbn [ticks]. rewrite Hw. cbn [mbind option_bind].
      split; [lia|]. split; [done|]. split; [|done]. intros [|m] Hm; cbn [ticks]; [exists w; by destruct H|].
      rewrite Hw. cbn [mbind option_bind]. apply Hb. lia.
    + exists 1%nat, w1. cbn [ticks]. rewrite Hw. split; [lia|]. split; [done|]. split; [|done].
      intros m Hm. assert (m = 0%nat) as -> by lia. exists w. by destruct H.
Qed.

(** What the planner hands over, for one motor: no steps taken, all of them
    still to do, and the times within range; [k] bounds the way. *)
Definition prepared (until k : Z) (t : tickinfo_t) : Prop :=
  is_u32 (steps_to_move t) /\ (steps_to_move t <> 0 -> step_count t = 0 /\ timing_ok until 0 t) /\ way_left t <= k.

Lemma imap_lookup_Some {A B} (f : nat -> A -> B) l j y :
  imap f l !! j = Some y <-> exists x, l !! j = Some x /\ y = f j x.
Proof.
  rewrite list_lookup_imap. destruct (l !! j) as [x|]; cbn; split.
  - intros [= <-]. by exists x.
  - by intros (? & [= <-] & ->).
  - done.
  - by intros (? & ? & ?).
Qed.

Lemma fetched_in_block w0 w d t k :
  let b := item (queue (conveyor w0)) (isr_tail_i (queue (conveyor w0))) in
  conveyor_ok (conveyor w0) d t -> continuous_mode (conveyor w0) <= 1 -> fetch w0 = Some (w, true) -> ticking (ticker w) = true ->
  (List.length (motors w0) <= List.length (tick_info b))%nat -> is_u32 (accelerate_until b) -> 0 <= k ->
  Forall (prepared (accelerate_until b) k) (tick_info b) ->
  Forall (fun m => - 2 ^ 31 <= current_position_steps m < 2 ^ 31) (motors w0) ->
  in_block w (imap (fun j m => (steps_to_move (tick_info b !!! j), direction_bits b !!! j, current_position_steps m)) (motors w0))
    (isr_tail_i (queue (conveyor w0))) d t (accelerate_until b) k.
Proof.
  intros b H Hm Hf Htk Hl Hu Hk Hprep Hpos.
  destruct (fetch_ok _ _ _ H Hm) as (w' & found & d' & t' & Hf' & Hq & _ & Hs & _ & Hh & Hcm & Hfound).
  rewrite Hf in Hf'. simplify_eq. destruct (Hfound eq_refl Htk) as (-> & Ht & Hhalt & Hb & Hi).
  assert (t' = t) as -> by lia. rewrite Hi in Hb. unfold fetch in Hf.
  destruct (get_next_block _ _ _) as [[c ob]|] eqn:Hg; [|done]. cbn [mbind option_bind] in Hf. destruct ob as [i|]; [|done].
  destruct (get_next_block_item _ _ _ _ _ _ _ H Hm Hg) as (-> & Hq1).
  set (i := isr_tail_i (queue (conveyor w0))) in *.
  assert (Hir : 0 <= i < length (queue (conveyor w0))).
  { unfold i. rewrite (isr_slot _ _ _ H). by apply (slot_range _ _ _ H). }
  assert (Hbi : item (queue c) i = b <| is_ticking := true |> <| recalculate_flag := false |>)
    by (rewrite Hq1, (item_set_item _ _ _ _ _ H Hir); done).
  unfold start_next_block in Hf. recs. cbv beta iota zeta in Hf. destruct (existsb (A:=tickinfo_t) _ _);
    injection Hf as <-; recs; [|done].
  split; recs; try done; rewrite ?Hbi; recs; [lia|done|..].
  split; [by rewrite !length_imap|]. split; [by rewrite length_imap|].
  intros j n dir p t0 m Hj Ht0 Hmj. apply imap_lookup_Some in Hj as (m0 & Hm0 & Hj), Hmj as (m1 & Hm1 & ->).
  simplify_eq. pose proof (list_lookup_total_correct _ _ _ Ht0) as ->.
  destruct (Forall_lookup_1 _ _ _ _ Hprep Ht0) as (Hsu & Hfresh & Hway).
  pose proof (Forall_lookup_1 _ _ _ _ Hpos Hm0) as Hp0. cbn beta in Hp0.
  split; [|split; [|done]]; [|intros Hne; by apply Hfresh]. unfold start_motor.
  destruct (Z.eqb_spec (steps_to_move t0) 0) as [Hz|Hne]; [by apply not_in_block|].
  destruct (Hfresh Hne) as [Hc _]. unfold is_uint in *. apply on_the_way; unfold start_moving, set_direction; recs; try done; try lia.
  rewrite Hc. unfold position_after. rewrite s32_small; destruct (_ !!! j); lia.
Qed.

(** C5: A block fetched from the queue is run to its end, and exactly: within a
    bounded number of ticks the step interrupt has taken, on every motor, as
    many steps in the block's direction as the planner prepared, no more and no
    fewer (positions are 32-bit and wrap), with any speed profile that stays
    under a step a tick; until then the ticker stays on this block, and
    afterwards the block is handed to the idle loop. *)
Theorem block_takes_its_steps w0 w d t k :
  let b := item (queue (conveyor w0)) (isr_tail_i (queue (conveyor w0))) in
  conveyor_ok (conveyor w0) d t -> continuous_mode (conveyor w0) <= 1 -> fetch w0 = Some (w, true) -> ticking (ticker w) = true ->
  (List.length (motors w0) <= List.length (tick_info b))%nat -> is_u32 (accelerate_until b) ->
  Forall (prepared (accelerate_until b) (Z.of_nat k)) (tick_info b) ->
  Forall (fun m => - 2 ^ 31 <= current_position_steps m < 2 ^ 31) (motors w0) ->
  exists n w', (1 <= n <= k + 1)%nat /\ ticks n w = Some w' /\
    (forall m, (m < n)%nat -> exists w1, ticks m w = Some w1 /\
       current_block (ticker w1) = Some (isr_tail_i (queue (conveyor w0))) /\
       isr_tail_i (queue (conveyor w1)) = isr_tail_i (queue (conveyor w0))) /\
    (exists d' t', conveyor_ok (conveyor w') d' t' /\ d < d' /\ d' + t' = d + t) /\
    positions w' = imap (fun j p => position_after p (direction_bits b !!! j) (steps_to_move (tick_info b !!! j))) (positions w0).
Proof.
  intros b H Hm Hf Htk Hl Hu Hprep Hpos.
  pose proof (fetched_in_block _ _ _ _ _ H Hm Hf Htk Hl Hu (Nat2Z.is_nonneg k) Hprep Hpos) as Hin. fold b in Hin.
  destruct (in_block_ends _ _ _ _ _ _ _ Hin) as (n & w' & Hn & Ht & Hb & d' & t' & Hq & Hd & Hs & HL & Hp).
  exists n, w'. do 3 (split; [done|]). split; [by exists d', t'|].
  apply list_eq_same_length with (n := List.length (positions w0)); [by rewrite length_imap|rewrite HL, length_imap; unfold positions; by rewrite length_map|].
  intros j x y _ Hx Hy. apply imap_lookup_Some in Hy as (p & Hpj & ->). unfold positions in Hpj.
  rewrite list_lookup_fmap in Hpj. destruct (motors w0 !! j) as [m|] eqn:Hmj; [|done]. injection Hpj as <-.
  eapply Hp; [|done|by apply (Forall_lookup_1 _ _ _ _ Hpos Hmj)]. apply imap_lookup_Some. by exists m.
Qed.

(** A machine with a queue of three slots whose first block takes three steps
    forward on one motor and one back on another, and none on a third. *)
Definition demo_pin : Pin.t := Pin.mk false true false.
Definition demo_motor (p : Z) : StepperMotor := mk_motor demo_pin demo_pin demo_pin f1 f50 f_nan p p 0 0 false false true false.
Definition demo_ticks (n speed : Z) : tickinfo_t := mk_tickinfo speed 0 0 (- (2 ^ 58)) (2 ^ 60) n 0 4.
Definition demo_block : Block :=
  (new_block 3 3) <| steps := [3; 1; 0] |> <| decelerate_after := 4 |> <| total_move_ticks := 6 |> <| is_ready := true |>
    <| direction_bits := [false; true; false] |>
    <| tick_info := [demo_ticks 3 (2 ^ 61); demo_ticks 1 (2 ^ 60); demo_ticks 0 0] |>.
Definition demo_conveyor : Conveyor :=
  mk_conveyor (mk_block_queue 3 1 0 0 (Some [demo_block; new_block 3 3; new_block 3 3])) [] 100 3 0 true true false false false 0 (Some 0).
Definition demo_machine : machine :=
  mk_machine demo_conveyor (mk_ticker 0 0 [] None 0 false) (map demo_motor [10; 20; 30]) false.
Lemma demo_queue_ok : conveyor_ok demo_conveyor 0 1.
Proof. split; cbn; try lia; try done. eexists. done. Qed.

Lemma block_takes_its_steps_witness :
  exists w n w', fetch demo_machine = Some (w, true) /\ ticks n w = Some w' /\ positions w' = [13; 19; 30].
Proof.
  assert (Hk : Z.of_nat (Z.to_nat (3 * STEPTICKER_FPSCALE)) = 3 * 2 ^ 62) by (apply Z2Nat.id; done).
  destruct (fetch demo_machine) as [[w []]|] eqn:Hf; [|vm_compute in Hf; discriminate..].
  exists w.
  destruct (block_takes_its_steps demo_machine w 0 1 (Z.to_nat (3 * STEPTICKER_FPSCALE))) as (n & w' & _ & Ht & _ & _ & Hp).
  - exact demo_queue_ok.
  - cbn. lia.
  - exact Hf.
  - assert (Hx : option_map (fun x => ticking (ticker (fst x))) (fetch demo_machine) = Some true) by (vm_compute; reflexivity).
    rewrite Hf in Hx. by injection Hx.
  - vm_compute. lia.
  - concrete.
  - rewrite Hk. change (tick_info _) with [demo_ticks 3 (2 ^ 61); demo_ticks 1 (2 ^ 60); demo_ticks 0 0].
    change (accelerate_until _) with 0.
    repeat (apply Forall_cons_2; [split; [unfold is_uint; cbn; lia|split; [|vm_compute; done]]|]); [| | |done].
    1, 2: intros _; split; [done|]; split; cbn; rewrite ?fpscale_value; lia.
    intros Hn. by contradict Hn.
  - repeat (apply Forall_cons_2; [split; vm_compute; done|]). apply Forall_nil_2.
  - exists n, w'. split; [done|]. split; [exact Ht|]. rewrite Hp. vm_compute. reflexivity.
Defined.
