(* ===== verification/Motion.v ===== *)
(** * Motion: planner, conveyor and step interrupt together
    ([src/src/modules/robot/Conveyor.cpp], [src/src/libs/StepTicker.cpp],
    [src/src/modules/robot/Block.cpp])

    The step interrupt may come between any two of the main loop's accesses to
    the queue, and runs to its end when it comes. A state is the machine and
    where the main loop is; a step is one access of the main loop or one whole
    interrupt. The main loop is free to do its operations in any order. *)
From S2P Require Import Prelude Ring StepperMotor BlockQueue Conveyor StepTicker.

(** Where the main loop is: between operations, in the cleaning half of
    [on_idle], or in [calculate_trapezoid] of the block in slot [i].
    [src/src/modules/robot/Conveyor.cpp:105-119] Conveyor::on_idle *)
Inductive main_at := Free | Collecting | Cleared | Trapezoid_tested (i : Z) | Trapezoid_locked (i : Z).

(** [produced] is the lines of all blocks ever queued, in order. *)
Record system := mk_system { mach : machine; main : main_at; produced : list Z }.
#[export] Instance eta_system : Eta system := fun s => mk_system (mach s) (main s) (produced s).
Definition conv (s : system) : Conveyor := conveyor (mach s).
Definition with_conveyor (s : system) (c : Conveyor) : system := s <| mach := (mach s) <| conveyor := c |> |>.

(** What the locked part of [calculate_trapezoid] leaves alone: it writes rates,
    times and [tick_info].
    [src/src/modules/robot/Block.cpp:223-235] Block::calculate_trapezoid *)
Definition same_plan (b b' : Block) : Prop :=
  line b' = line b /\ is_ready b' = is_ready b /\ locked b' = locked b /\ is_ticking b' = is_ticking b.
(** [src/src/modules/robot/Block.cpp:151-151] Block::calculate_trapezoid *)
Definition trapezoid_may_start (c : Conveyor) (i : Z) : bool := negb (is_ticking (item (queue c) i)).
(** [src/src/modules/robot/Block.cpp:222-222] Block::calculate_trapezoid *)
Definition lock_block (c : Conveyor) (i : Z) : Conveyor :=
  c <| queue := set_item (queue c) i (fun b => b <| locked := true |>) |>.
(** [src/src/modules/robot/Block.cpp:237-237] Block::calculate_trapezoid *)
Definition unlock_block (c : Conveyor) (i : Z) : Conveyor :=
  c <| queue := set_item (queue c) i (fun b => b <| locked := false |>) |>.

(** The main loop's accesses, [n] actuators; the flags' writers are
    [wait_for_idle], [flush_queue], [on_halt] and the small setters. The halt is
    lifted only once [on_halt] is back, with the queue empty
    ([flush_queue_empties]).
    [src/src/modules/robot/Conveyor.cpp:177-197] Conveyor::queue_head_block *)
Inductive main_step (s : system) : system -> Prop :=
| prepare_head b' :
    main s = Free ->
    main_step s (with_conveyor s ((conv s) <| queue := set_item (queue (conv s)) (head_ref (queue (conv s))) (fun _ => b') |>))
| push_head c ms pushed :
    main s = Free -> waits_for_room (halted (mach s)) (conv s) = false -> is_ready (head (queue (conv s))) = true ->
    push_head_block (List.length (motors (mach s))) (halted (mach s)) (conv s) (motors (mach s)) = (c, ms, pushed) ->
    main_step s ((with_conveyor s c) <| mach := (mach s) <| conveyor := c |> <| motors := ms |> |>
                   <| produced := if pushed : bool then produced s ++ [line (head (queue (conv s)))] else produced s |>)
| checks now force : main s = Free -> main_step s (with_conveyor s (check_queue now (conv s) force))
| collects : main s = Free -> may_collect (conv s) = true -> main_step s (s <| main := Collecting |>)
| clears :
    main s = Collecting ->
    main_step s ((with_conveyor s (clear_tail (List.length (motors (mach s))) (conv s))) <| main := Cleared |>)
| consumes : main s = Cleared -> main_step s ((with_conveyor s (consume (conv s))) <| main := Free |>)
| aborts c ms :
    main s = Free -> request_motion_abort (conv s) (motors (mach s)) = (c, ms) ->
    main_step s (s <| mach := (mach s) <| conveyor := c |> <| motors := ms |> |>)
| clears_abort : main s = Free -> main_step s (with_conveyor s (clear_motion_abort (conv s)))
| holds_queue f : main s = Free -> main_step s (with_conveyor s (set_hold (conv s) f))
| sets_running f : main s = Free -> main_step s (with_conveyor s ((conv s) <| running := f |>))
| starts_flush : main s = Free -> main_step s (with_conveyor s ((conv s) <| allow_fetch := false |> <| flush := true |>))
| ends_flush : main s = Free -> main_step s (with_conveyor s ((conv s) <| flush := false |>))
| sets_continuous f : main s = Free -> main_step s (with_conveyor s (fst (set_continuous_mode (conv s) f)))
| clears_continuous : main s = Free -> main_step s (with_conveyor s ((conv s) <| continuous_mode := 0 |>))
| halts :
    main s = Free ->
    main_step s (s <| mach := (mach s) <| halted := true |> <| motors := map (fun m => on_halt m None) (motors (mach s)) |> |>)
| lifts_halt : main s = Free -> is_empty (queue (conv s)) = true -> main_step s (s <| mach := (mach s) <| halted := false |> |>)
| tests_trapezoid i :
    main s = Free -> 0 <= i -> trapezoid_may_start (conv s) i = true -> main_step s (s <| main := Trapezoid_tested i |>)
| locks_trapezoid i :
    main s = Trapezoid_tested i -> main_step s ((with_conveyor s (lock_block (conv s) i)) <| main := Trapezoid_locked i |>)
| writes_trapezoid i b' :
    main s = Trapezoid_locked i -> same_plan (item (queue (conv s)) i) b' ->
    main_step s (with_conveyor s ((conv s) <| queue := set_item (queue (conv s)) i (fun _ => b') |>))
| unlocks_trapezoid i :
    main s = Trapezoid_locked i -> main_step s ((with_conveyor s (unlock_block (conv s) i)) <| main := Free |>).
(** The step interrupt, at any time; and other interrupts, which stop a motor
    (end stops, probes).
    [src/src/libs/StepTicker.cpp:114-119] TIMER0_IRQHandler *)
Inductive motion_step (s : system) : system -> Prop :=
| by_main s' : main_step s s' -> motion_step s s'
| by_ticker w : step_tick (mach s) = Some w -> motion_step s (s <| mach := w |>)
| by_end_stop j : motion_step s (s <| mach := (mach s) <| motors := alter stop_moving j (motors (mach s)) |> |>).

(** ** What an interrupt leaves alone *)

(** Each block keeps its line and stays ready, and the planner's two ends stay. *)
Definition planned (b b' : Block) : Prop := line b' = line b /\ is_ready b' = is_ready b.
Record queue_same (q q' : BlockQueue) : Prop := mk_queue_same {
  qs_head : head_i q' = head_i q; qs_tail : tail_i q' = tail_i q; qs_length : length q' = length q;
  qs_items : forall i, 0 <= i -> planned (item q i) (item q' i)
}.
#[export] Instance queue_same_preorder : PreOrder queue_same.
Proof.
  split.
  - intros q. by split.
  - intros q1 q2 q3 [H1 H2 H3 H4] [G1 G2 G3 G4]. split; [congruence..|]. intros i Hi.
    destruct (H4 i Hi), (G4 i Hi). split; congruence.
Qed.

Lemma item_set_item_cases q i j f :
  0 <= i -> 0 <= j -> item (set_item q i f) j = item q j \/ (i = j /\ item (set_item q i f) j = f (item q j)).
Proof.
  intros Hi Hj. destruct (Z.eq_dec i j) as [->|Hne]; [|left; by apply item_set_item_ne].
  unfold item, set_item, blocks. recs. destruct (ring q) as [r|]; [|by left]. cbn [fmap option_fmap option_map].
  rewrite !list_lookup_total_alt, list_lookup_alter_eq. destruct (r !! Z.to_nat j); [by right|by left].
Qed.
Lemma set_item_same q i f : 0 <= i -> (forall b, planned b (f b)) -> queue_same q (set_item q i f).
Proof.
  intros Hi Hf. split; [done..|]. intros j Hj.
  destruct (item_set_item_cases q i j f Hi Hj) as [->|[_ ->]]; [by split|apply Hf].
Qed.
Lemma same_items q q' : ring q' = ring q -> head_i q' = head_i q -> tail_i q' = tail_i q -> length q' = length q -> queue_same q q'.
Proof. intros Hr Hh Ht Hl. split; [done..|]. intros i _. unfold item, blocks. by rewrite Hr. Qed.

Lemma get_next_block_same n_actuators h c c' ob d t :
  conveyor_ok c d t -> continuous_mode c <= 1 -> get_next_block n_actuators h c = Some (c', ob) -> queue_same (queue c) (queue c').
Proof.
  intros H Hm Hg. destruct ob as [i|].
  - destruct (get_next_block_item _ _ _ _ _ _ _ H Hm Hg) as (-> & ->). apply set_item_same; [|done].
    rewrite (isr_slot _ _ _ H). apply (slot_range _ _ _ H).
  - unfold get_next_block in Hg. destruct (hold_queue c); [by injection Hg as <-|].
    assert (Hq : forall q, (if flush c then flush_ring (Z.to_nat (length (queue c))) (queue c) else Some (queue c)) = Some q ->
      queue_same (queue c) q).
    { destruct (flush c); [|by intros q [= <-]]. pose proof (regions_bound _ _ _ H).
      destruct (flush_ring_spec _ _ _ (Z.to_nat (length (queue c))) H) as (q' & -> & _ & ? & ? & ? & ?); [lia|].
      intros q [= <-]. by apply same_items. }
    destruct (if flush c then _ else _) as [q|]; [|done]. specialize (Hq q eq_refl). cbn [mbind option_bind] in Hg.
    cbv zeta in Hg. repeat case_match; simplify_eq; done.
Qed.
Lemma block_finished_same c : queue_same (queue c) (queue (block_finished c)).
Proof. unfold block_finished. case_match; [|done]. by apply same_items. Qed.
Lemma start_next_block_same w : queue_same (queue (conveyor w)) (queue (conveyor (fst (start_next_block w)))).
Proof.
  unfold start_next_block. destruct (current_block (ticker w)); [|done]. cbv zeta.
  destruct (existsb _ _); recs; [done|apply block_finished_same].
Qed.

(** The ticker runs only the block at the interrupt's place, and it is marked. *)
Definition ticker_ok (w : machine) (t : Z) : Prop :=
  ticking (ticker w) = true ->
  0 < t /\ current_block (ticker w) = Some (isr_tail_i (queue (conveyor w))) /\
  is_ticking (item (queue (conveyor w)) (isr_tail_i (queue (conveyor w)))) = true.

(** What a piece of the interrupt does to a ring with [d] finished blocks and [t]
    to run: blocks only go from the second kind to the first. *)
Record moved (w : machine) (d t : Z) (w' : machine) (d' t' : Z) : Prop := mk_moved {
  mv_queue : conveyor_ok (conveyor w') d' t';
  mv_done : d <= d';
  mv_sum : d' + t' = d + t;
  mv_same : queue_same (queue (conveyor w)) (queue (conveyor w'));
  mv_mode : continuous_mode (conveyor w') = continuous_mode (conveyor w);
  mv_halted : halted w' = halted w;
  mv_motors : List.length (motors w') = List.length (motors w)
}.
Lemma moved_trans w d t w1 d1 t1 w2 d2 t2 : moved w d t w1 d1 t1 -> moved w1 d1 t1 w2 d2 t2 -> moved w d t w2 d2 t2.
Proof. intros [] []. split; try done; try lia; try congruence. by etransitivity. Qed.
Lemma moved_refl w d t : conveyor_ok (conveyor w) d t -> moved w d t w d t.
Proof. by split. Qed.
(** The ticker's own members are no part of it. *)
Lemma moved_ticker w d t w' d' t' k : moved w d t w' d' t' -> moved w d t (w' <| ticker := k |>) d' t'.
Proof. intros []. by split. Qed.

Lemma start_next_block_motors w : List.length (motors (fst (start_next_block w))) = List.length (motors w).
Proof.
  unfold start_next_block. destruct (current_block (ticker w)); [|done]. cbv zeta.
  destruct (existsb _ _); cbn [fst]; recs; by rewrite length_imap.
Qed.

Lemma fetch_moves w d t :
  conveyor_ok (conveyor w) d t -> continuous_mode (conveyor w) <= 1 ->
  exists w' found d' t', fetch w = Some (w', found) /\ moved w d t w' d' t' /\
    (found = true -> ticker_ok w' t') /\ (found = false -> ticker w' = ticker w).
Proof.
  intros H Hm. destruct (fetch_ok _ _ _ H Hm) as (w' & found & d' & t' & Hf & Hq & Hd & Hs & Hp & Hh & Hc & Hfound).
  exists w', found, d', t'. split; [done|].
  pose proof (f_equal (@List.length _) Hp) as Hl. unfold positions in Hl. rewrite !length_map in Hl.
  pose proof Hf as Hf0. unfold fetch in Hf.
  destruct (get_next_block _ _ _) as [[c ob]|] eqn:Hg; [|done]. cbn [mbind option_bind] in Hf. cbv zeta in Hf.
  pose proof (get_next_block_same _ _ _ _ _ _ _ H Hm Hg) as Hsame. destruct ob as [i|].
  - set (w1 := w <| conveyor := c |> <| ticker := _ |>) in Hf. pose proof (start_next_block_same w1) as Hs1.
    pose proof (start_next_block_ok w1) as Hs2.
    destruct (get_next_block_item _ _ _ _ _ _ _ H Hm Hg) as (Hi & Hqc).
    destruct (start_next_block w1) as [w2 r] eqn:Hst. cbn [fst] in Hs1. injection Hf as <- <-. recs.
    split; [split; recs; try done; by etransitivity|]. split; [|done]. intros _ Hr. recs.
    destruct (Hfound eq_refl Hr) as (-> & Ht & _ & Hb & Hi'). split; [done|]. split; [done|].
    unfold start_next_block in Hst. unfold w1 in Hst. recs. cbv beta iota zeta in Hst.
    rewrite Hi', <- Hi. rewrite Hr in Hst. destruct (existsb (A:=tickinfo_t) _ _); [|by injection Hst].
    injection Hst as <-. recs. rewrite Hqc, (item_set_item _ _ _ _ _ H); [done|].
    rewrite Hi, (isr_slot _ _ _ H). by apply (slot_range _ _ _ H).
  - injection Hf as <- <-. recs. split; [by split|]. by split.
Qed.

Lemma end_of_block_moves w d t :
  conveyor_ok (conveyor w) d t -> 0 < t -> continuous_mode (conveyor w) <= 1 ->
  exists w' d' t', end_of_block w = Some w' /\ moved w d t w' d' t' /\ ticker_ok w' t'.
Proof.
  intros H Ht Hm. unfold end_of_block. cbv zeta. set (w1 := _ <| conveyor := block_finished _ |>).
  assert (Hcm : continuous_mode (conveyor w1) = continuous_mode (conveyor w)) by (unfold w1, block_finished; recs; by case_match).
  assert (H1 : moved w d t w1 (d + 1) (t - 1)).
  { split; try done; [unfold w1; recs; by apply block_finished_ok|lia|lia|unfold w1; recs; apply block_finished_same]. }
  destruct (fetch_moves w1 _ _ (mv_queue _ _ _ _ _ _ H1)) as (w2 & found & d' & t' & -> & H2 & Hf & _); [lia|].
  cbn [mbind option_bind]. pose proof (moved_trans _ _ _ _ _ _ _ _ _ H1 H2) as H3.
  destruct found; eexists _, d', t'; (split; [done|]); (split; [by try apply moved_ticker|]); [by apply Hf|].
  intros Hx. recs. done.
Qed.

Lemma tick_motors_length b tick ts ms :
  let '(_, ms', _, _) := tick_motors b tick ts ms in List.length ms' = List.length ms.
Proof.
  revert ms. induction ts as [|t ts IH]; intros [|m ms]; cbn; try done.
  destruct (tick_motor b tick t m) as [[[? ?] ?] ?]. specialize (IH ms).
  destruct (tick_motors b tick ts ms) as [[[? ?] ?] ?]. cbn. by rewrite IH.
Qed.

Lemma run_block_moves w d t :
  conveyor_ok (conveyor w) d t -> continuous_mode (conveyor w) <= 1 -> ticker_ok w t -> ticking (ticker w) = true ->
  exists w' d' t', run_block w = Some w' /\ moved w d t w' d' t' /\ ticker_ok w' t'.
Proof.
  intros H Hm Hk Htk. destruct (Hk Htk) as (Ht & Hb & Hti). unfold run_block. destruct (halted w) eqn:Hh.
  - eexists _, d, t. split; [done|]. split; [by apply moved_ticker, moved_refl|]. intros Hx. recs. done.
  - rewrite Hb. cbv zeta. set (i := isr_tail_i (queue (conveyor w))) in *.
    assert (Hi : 0 <= i < length (queue (conveyor w))).
    { unfold i. rewrite (isr_slot _ _ _ H). by apply (slot_range _ _ _ H). }
    pose proof (tick_motors_length (item (queue (conveyor w)) i) (current_tick (ticker w))
      (tick_info (item (queue (conveyor w)) i)) (motors w)) as Hlen.
    destruct (tick_motors _ _ _ _) as [[[ts ms] bits] still].
    set (w1 := _ <| ticker := (ticker _) <| current_tick := _ |> <| unstep_bits := _ |> |>).
    assert (H1 : moved w d t w1 d t).
    { split; try done; try lia; unfold w1; recs; [by apply set_item_ok|]. apply set_item_same; [lia|done]. }
    destruct still.
    + exists w1, d, t. split; [done|]. split; [done|]. intros _. unfold w1. recs. split; [done|]. split; [done|].
      by rewrite (item_set_item _ _ _ _ _ H Hi).
    + destruct (end_of_block_moves w1 d t (mv_queue _ _ _ _ _ _ H1) Ht) as (w2 & d' & t' & Hw & H2 & Hk2);
        [unfold w1; by recs|]. exists w2, d', t'. split; [done|]. split; [|done]. by eapply moved_trans.
Qed.

(** The interrupt always ends, and keeps all this. *)
Lemma step_tick_moves w d t :
  conveyor_ok (conveyor w) d t -> continuous_mode (conveyor w) <= 1 -> ticker_ok w t ->
  exists w' d' t', step_tick w = Some w' /\ moved w d t w' d' t' /\ ticker_ok w' t'.
Proof.
  intros H Hm Hk. unfold step_tick. destruct (ticking (ticker w)) eqn:Htk; [by apply run_block_moves|].
  destruct (fetch_moves w d t H Hm) as (w1 & found & d1 & t1 & -> & H1 & Hf & Hn). cbn [mbind option_bind].
  destruct found; cbn [andb].
  - destruct (ticking (ticker w1)) eqn:Ht1.
    + destruct (run_block_moves w1 d1 t1) as (w2 & d2 & t2 & Hw & H2 & Hk2);
        [apply H1|rewrite (mv_mode _ _ _ _ _ _ H1); done|by apply Hf|done|].
      exists w2, d2, t2. split; [done|]. split; [|done]. by eapply moved_trans.
    + exists w1, d1, t1. split; [done|]. split; [done|]. by apply Hf.
  - exists w1, d1, t1. split; [done|]. split; [done|]. intros Hx. by rewrite Hn, Htk in Hx.
Qed.

(** ** The invariant

    [c] blocks have been cleaned for good, [d] are finished and wait for it, [t]
    are queued; so block number [c + d] is the next to finish. *)
Record motion_inv (s : system) (c d t : Z) : Prop := mk_motion_inv {
  mi_queue : conveyor_ok (conv s) d t;
  mi_cleaned : 0 <= c;
  mi_tail : tail_i (queue (conv s)) = c mod length (queue (conv s));
  mi_produced : Z.of_nat (List.length (produced s)) = c + d + t;
  mi_mode : continuous_mode (conv s) <= 1;
  mi_ticker : ticker_ok (mach s) t;
  mi_todo : forall k, d <= k < d + t -> is_ready (item (queue (conv s)) (slot (queue (conv s)) k)) = true /\
    produced s !! Z.to_nat (c + k) = Some (line (item (queue (conv s)) (slot (queue (conv s)) k)));
  mi_main : match main s with Collecting | Cleared => 0 < d | Trapezoid_tested i | Trapezoid_locked i => 0 <= i | Free => True end
}.

(** A change that keeps the plan of every block, and hands none over backwards. *)
Lemma inv_same s c d t s' d' t' :
  motion_inv s c d t -> conveyor_ok (conv s') d' t' -> d <= d' -> d' + t' = d + t ->
  queue_same (queue (conv s)) (queue (conv s')) -> continuous_mode (conv s') <= 1 -> ticker_ok (mach s') t' ->
  produced s' = produced s ->
  match main s' with Collecting | Cleared => 0 < d' | Trapezoid_tested i | Trapezoid_locked i => 0 <= i | Free => True end ->
  motion_inv s' c d' t'.
Proof.
  intros [] Hq Hd Hs Hsame Hm Hk Hp Hmain. pose proof Hsame as [Eh Et El Ei]. pose proof (regions_bound _ _ _ Hq).
  split; try done; [by rewrite Et, El|rewrite Hp; lia|]. intros k Hkr. rewrite Hp.
  assert (Hsl : slot (queue (conv s')) k = slot (queue (conv s)) k) by (unfold slot; by rewrite Et, El).
  rewrite Hsl. destruct (Ei (slot (queue (conv s)) k)) as [Hl Hr]; [apply (slot_range _ _ _ mi_queue0)|].
  rewrite Hl, Hr. apply mi_todo0. lia.
Qed.

(** A step of the main loop that only sets flags. *)
Lemma inv_flags s c d t s' :
  motion_inv s c d t -> queue (conv s') = queue (conv s) -> continuous_mode (conv s') <= 1 ->
  ticker (mach s') = ticker (mach s) -> produced s' = produced s ->
  match main s' with Collecting | Cleared => 0 < d | Trapezoid_tested i | Trapezoid_locked i => 0 <= i | Free => True end ->
  motion_inv s' c d t.
Proof.
  intros H Hq Hm Hk Hp Hmain. pose proof H as [].
  apply (inv_same s c d t s' d t); try done; [by rewrite Hq|by rewrite Hq|].
  intros Hx. unfold ticker_ok, conv in *. rewrite Hk in *. rewrite Hq. by apply mi_ticker0.
Qed.

(** A step of the main loop that rewrites one block. *)
Lemma inv_item s c d t s' i f :
  motion_inv s c d t -> 0 <= i -> conv s' = (conv s) <| queue := set_item (queue (conv s)) i f |> ->
  ticker (mach s') = ticker (mach s) -> produced s' = produced s ->
  match main s' with Collecting | Cleared => 0 < d | Trapezoid_tested i | Trapezoid_locked i => 0 <= i | Free => True end ->
  (forall k, d <= k < d + t -> i = slot (queue (conv s)) k ->
     let b := item (queue (conv s)) i in planned b (f b) /\ is_ticking (f b) = is_ticking b) ->
  motion_inv s' c d t.
Proof.
  intros [] Hi Hc Hk Hp Hmain Hf. pose proof (regions_bound _ _ _ mi_queue0) as Hrb.
  assert (Hq : queue (conv s') = set_item (queue (conv s)) i f) by (by rewrite Hc).
  assert (Hit : forall k, d <= k < d + t ->
    let j := slot (queue (conv s)) k in planned (item (queue (conv s)) j) (item (queue (conv s')) j) /\
      is_ticking (item (queue (conv s')) j) = is_ticking (item (queue (conv s)) j)).
  { intros k Hkr j. rewrite Hq. destruct (item_set_item_cases (queue (conv s)) i j f Hi) as [->|[Hij ->]].
    - apply (slot_range _ _ _ mi_queue0).
    - by repeat split.
    - rewrite <- Hij. by apply (Hf k). }
  assert (Hsl : forall k, slot (queue (conv s')) k = slot (queue (conv s)) k) by (intros k; by rewrite Hq).
  split; try done.
  - rewrite Hq. by apply set_item_ok.
  - by rewrite Hq.
  - by rewrite Hp.
  - by rewrite Hc.
  - intros Hx. rewrite Hk in *. destruct (mi_ticker0 Hx) as (Ht & Hb & Hti). split; [done|].
    change (conveyor (mach s')) with (conv s'). change (conveyor (mach s)) with (conv s) in *.
    assert (Hisr : isr_tail_i (queue (conv s')) = slot (queue (conv s)) d)
      by (rewrite Hq; apply (isr_slot _ _ _ mi_queue0)).
    rewrite (isr_slot _ _ _ mi_queue0) in Hb, Hti. rewrite Hisr. split; [done|].
    destruct (Hit d ltac:(lia)) as [_ ->]. done.
  - intros k Hkr. rewrite Hsl, Hp. destruct (Hit k Hkr) as [[-> ->] _]. by apply mi_todo0.
Qed.

Lemma push_head_inv s c d t c' ms pushed :
  motion_inv s c d t -> waits_for_room (halted (mach s)) (conv s) = false -> is_ready (head (queue (conv s))) = true ->
  main s = Free ->
  push_head_block (List.length (motors (mach s))) (halted (mach s)) (conv s) (motors (mach s)) = (c', ms, pushed) ->
  exists t', motion_inv ((with_conveyor s c') <| mach := (mach s) <| conveyor := c' |> <| motors := ms |> |>
       <| produced := if pushed : bool then produced s ++ [line (head (queue (conv s)))] else produced s |>) c d t'.
Proof.
  intros H Hw Hready Hmain Hp. pose proof H as []. pose proof (regions_bound _ _ _ mi_queue0) as Hrb.
  pose proof (push_head_block_ok (List.length (motors (mach s))) _ _ (motors (mach s)) _ _ mi_queue0 Hw) as Hok.
  rewrite Hp in Hok. destruct Hok as [Hok Hpushed].
  unfold push_head_block in Hp. destruct (halted (mach s) || motion_abort_requested (conv s)).
  - injection Hp as <- <- <-. exists t.
    apply (inv_item s c d t _ (head_ref (queue (conv s))) (BlockQueue.clear (List.length (motors (mach s))))); try done.
    + unfold head_ref. rewrite (head_slot _ _ _ mi_queue0). apply (slot_range _ _ _ mi_queue0).
    + intros k Hk Hs. unfold head_ref in Hs. rewrite (head_slot _ _ _ mi_queue0) in Hs.
      apply (slot_inj _ _ _ mi_queue0) in Hs; lia.
  - injection Hp as <- <- <-. exists (t + 1). unfold with_conveyor, conv in *. split; unfold conv; recs; try done.
    + rewrite length_app. cbn [List.length]. lia.
    + intros Hx. recs. destruct (mi_ticker0 Hx) as (? & ? & ?). split; [lia|done].
    + intros k Hk. change (slot (produce_head ?q) k) with (slot q k). change (item (produce_head ?q) ?i) with (item q i).
      destruct (Z.eq_dec k (d + t)) as [->|Hne].
      * rewrite <- (head_slot _ _ _ mi_queue0). split; [done|].
        rewrite lookup_app_r by lia. replace (Z.to_nat (c + (d + t)) - List.length (produced s))%nat with 0%nat by lia. done.
      * destruct (mi_todo0 k ltac:(lia)) as [? Hl]. split; [done|]. by apply lookup_app_l_Some.
Qed.

Lemma consume_inv s c d t :
  motion_inv s c d t -> main s = Cleared ->
  motion_inv ((with_conveyor s (consume (conv s))) <| main := Free |>) (c + 1) (d - 1) t.
Proof.
  intros [] Hmain. rewrite Hmain in mi_main0. pose proof (regions_bound _ _ _ mi_queue0) as Hrb.
  destruct (consume_tail_ok _ _ _ mi_queue0 mi_main0) as [Hq Ht].
  assert (Hct : consume_tail (queue (conv s)) = (queue (conv s)) <| tail_i := slot (queue (conv s)) 1 |>).
  { unfold consume_tail in *. rewrite (is_empty_ok _ _ _ mi_queue0) in *. destruct (Z.eqb_spec (d + t) 0); [lia|].
    rewrite <- Ht. by recs. }
  assert (Hsl : forall k, slot (consume_tail (queue (conv s))) k = slot (queue (conv s)) (k + 1)).
  { intros k. rewrite Hct. unfold slot. recs. rewrite Zplus_mod_idemp_l. f_equal. lia. }
  unfold with_conveyor, conv, consume in *. split; unfold conv; recs; try done; try lia.
  - rewrite Hct. recs. unfold slot. rewrite mi_tail0. by rewrite Zplus_mod_idemp_l.
  - intros Hx. recs. rewrite Hct. by apply mi_ticker0.
  - intros k Hk. rewrite Hsl. replace (c + 1 + k) with (c + (k + 1)) by lia.
    rewrite Hct. change (item (?q <| tail_i := _ |>) ?i) with (item q i). apply mi_todo0. lia.
Qed.

(** Every step keeps the invariant, and never takes a block back. *)
Lemma main_step_inv s c d t s' :
  motion_inv s c d t -> main_step s s' -> exists c' d' t', motion_inv s' c' d' t' /\ c' + d' = c + d /\ (t <= t').
Proof.
  intros H Hstep. pose proof H as []. pose proof (regions_bound _ _ _ mi_queue0) as Hrb.
  destruct Hstep as [b' Hf|cc ms pushed Hf Hw Hr Hp|now force Hf|Hf Hc|Hf|Hf|cc ms Hf Ha|Hf|f Hf|f Hf|Hf|Hf|f Hf|Hf|Hf|Hf He|i Hf Hi Ht|i Hf|i b' Hf Hsp|i Hf].
  all: pose proof mi_main0 as Hmn; rewrite Hf in Hmn.
  - exists c, d, t. split; [|lia].
    apply (inv_item s c d t _ (head_ref (queue (conv s))) (fun _ => b')); try done.
    + unfold head_ref. rewrite (head_slot _ _ _ mi_queue0). apply (slot_range _ _ _ mi_queue0).
    + intros k Hk Hs. unfold head_ref in Hs. rewrite (head_slot _ _ _ mi_queue0) in Hs.
      apply (slot_inj _ _ _ mi_queue0) in Hs; lia.
  - destruct (push_head_inv _ _ _ _ _ _ _ H Hw Hr Hf Hp) as [t' Hi]. exists c, d, t'. split; [done|]. split; [done|].
    pose proof (mi_produced _ _ _ _ Hi) as Hl. recs. destruct pushed; recs; rewrite ?length_app in Hl; cbn [List.length] in Hl; lia.
  - exists c, d, t. split; [|lia]. apply (inv_flags s); try done; unfold with_conveyor, conv, check_queue; recs.
    + by repeat case_match.
    + by repeat case_match.
  - exists c, d, t. split; [|lia]. apply (inv_flags s); try done. recs.
    unfold may_collect in Hc. rewrite (nothing_to_clean _ _ _ mi_queue0) in Hc.
    apply negb_true_iff, Z.eqb_neq in Hc. cbv beta iota. lia.
  - exists c, d, t. split; [|lia]. unfold clear_tail. destruct (is_empty (queue (conv s))).
    + apply (inv_flags s); try done.
    + apply (inv_item s c d t _ (tail_ref (queue (conv s))) (BlockQueue.clear (List.length (motors (mach s))))); try done.
      * unfold tail_ref. lia || (rewrite (tail_slot _ _ _ mi_queue0); apply (slot_range _ _ _ mi_queue0)).
      * intros k Hk Hs. unfold tail_ref in Hs. rewrite (tail_slot _ _ _ mi_queue0) in Hs at 1.
        apply (slot_inj _ _ _ mi_queue0) in Hs; lia.
  - exists (c + 1), (d - 1), t. split; [by apply consume_inv|lia].
  - injection Ha as <- <-. exists c, d, t. split; [|lia]. by apply (inv_flags s).
  - exists c, d, t. split; [|lia]. by apply (inv_flags s).
  - exists c, d, t. split; [|lia]. by apply (inv_flags s).
  - exists c, d, t. split; [|lia]. by apply (inv_flags s).
  - exists c, d, t. split; [|lia]. by apply (inv_flags s).
  - exists c, d, t. split; [|lia]. by apply (inv_flags s).
  - exists c, d, t. split; [|lia]. by apply (inv_flags s).
  - exists c, d, t. split; [|lia]. by apply (inv_flags s).
  - exists c, d, t. split; [|lia]. by apply (inv_flags s).
  - exists c, d, t. split; [|lia]. by apply (inv_flags s).
  - exists c, d, t. split; [|lia]. by apply (inv_flags s).
  - exists c, d, t. split; [|lia].
    apply (inv_item s c d t _ i (fun b => b <| locked := true |>)); done.
  - exists c, d, t. split; [|lia].
    apply (inv_item s c d t _ i (fun _ => b')); try done. intros k Hk ->. split; [by split; apply Hsp|apply Hsp].
  - exists c, d, t. split; [|lia].
    apply (inv_item s c d t _ i (fun b => b <| locked := false |>)); done.
Qed.

Lemma motion_step_inv s c d t s' :
  motion_inv s c d t -> motion_step s s' ->
  exists c' d' t', motion_inv s' c' d' t' /\ c + d <= c' + d'.
Proof.
  intros H Hstep. destruct Hstep as [s' Hm|w Hw|j].
  - destruct (main_step_inv _ _ _ _ _ H Hm) as (c' & d' & t' & Hi & ? & ?). exists c', d', t'. split; [done|lia].
  - destruct (step_tick_moves (mach s) d t) as (w' & d' & t' & Hw' & Hmv & Hk); [by apply H..|].
    rewrite Hw in Hw'. injection Hw' as <-. exists c, d', t'. destruct Hmv.
    pose proof (mi_mode _ _ _ _ H). pose proof (mi_main _ _ _ _ H) as Hmn. split; [|lia].
    apply (inv_same s c d t _ d' t'); try done; [change (continuous_mode (conveyor w) <= 1); rewrite mv_mode0; done|].
    recs. destruct (main s); lia || done.
  - exists c, d, t. split; [|lia]. pose proof (mi_mode _ _ _ _ H). pose proof (mi_main _ _ _ _ H). by apply (inv_flags s).
Qed.

(** Where the machine starts: the configuration read, the ring allocated, the
    ticker and the halt flag as they are made. *)
Definition boot (raw : Conveyor) (size delay : Z) (ring : list Block) (rawk : StepTicker) (ms : list StepperMotor) : system :=
  mk_system (mk_machine (Conveyor.start (on_module_loaded (new_conveyor raw) size delay) (Some ring)) (new_ticker rawk) ms false) Free [].
Lemma boot_inv raw size delay ring rawk ms :
  2 <= size < 2 ^ 32 -> Z.of_nat (List.length ring) = size -> motion_inv (boot raw size delay ring rawk ms) 0 0 0.
Proof.
  intros Hs Hr. set (s := boot raw size delay ring rawk ms).
  assert (Hq : queue (conv s) = fst (resize new_queue (u32 size) (Some ring))) by reflexivity.
  assert (Hm : continuous_mode (conv s) = 0) by reflexivity.
  assert (Hk : ticking (ticker (mach s)) = false) by reflexivity.
  assert (Hp : produced s = []) by reflexivity. assert (Hmain : main s = Free) by reflexivity.
  clearbody s. rewrite wrap_small in Hq by (unfold is_uint; lia).
  pose proof (resize_ok new_queue size ring Hs Hr eq_refl eq_refl) as Hok.
  split; rewrite ?Hq, ?Hm, ?Hp, ?Hmain; try done; try lia.
  - unfold resize, is_empty. cbn [head_i tail_i new_queue Z.eqb]. by case_match.
  - intros Hx. by rewrite Hk in Hx.
Qed.

(** What the main loop and the interrupt can rely on in a state. *)
Record motion_safe_in (s : system) (c d t : Z) : Prop := mk_motion_safe_in {
  ms_ring : conveyor_ok (conv s) d t;
  ms_count : Z.of_nat (List.length (produced s)) = c + d + t;
  ms_tick : exists w, step_tick (mach s) = Some w;
  ms_queued : forall k, 0 <= k < t ->
    let b := item (queue (conv s)) (slot (queue (conv s)) (d + k)) in
    is_ready b = true /\ produced s !! Z.to_nat (c + d + k) = Some (line b);
  ms_running : ticking (ticker (mach s)) = true -> exists i,
    current_block (ticker (mach s)) = Some i /\ produced s !! Z.to_nat (c + d) = Some (line (item (queue (conv s)) i)) /\
    is_ticking (item (queue (conv s)) i) = true /\ i <> head_i (queue (conv s)) /\
    (main s = Collecting \/ main s = Cleared -> i <> tail_i (queue (conv s)))
}.

Lemma inv_safe s c d t : motion_inv s c d t -> motion_safe_in s c d t.
Proof.
  intros []. pose proof (regions_bound _ _ _ mi_queue0) as Hrb. split; try done.
  - destruct (step_tick_moves (mach s) d t) as (w & _ & _ & Hw & _); [done..|]. by exists w.
  - intros k Hk b. destruct (mi_todo0 (d + k) ltac:(lia)) as [? ?]. split; [done|]. by rewrite <- Z.add_assoc.
  - intros Hx. destruct (mi_ticker0 Hx) as (Ht & Hb & Hti). change (conveyor (mach s)) with (conv s) in *.
    rewrite (isr_slot _ _ _ mi_queue0) in Hb, Hti. eexists. split; [done|]. destruct (mi_todo0 d ltac:(lia)) as [_ ?].
    split; [done|]. split; [done|]. split.
    + intros He. rewrite (head_slot _ _ _ mi_queue0) in He. apply (slot_inj _ _ _ mi_queue0) in He; lia.
    + intros Hmn He. rewrite (tail_slot _ _ _ mi_queue0) in He. apply (slot_inj _ _ _ mi_queue0) in He; [|lia..].
      destruct Hmn as [Hmn|Hmn]; rewrite Hmn in mi_main0; lia.
Qed.

(** C4: The planner, the idle loop and the step interrupt share the ring of
    blocks without locks, the interrupt coming between any two of the main
    loop's accesses, and every state they reach is sound: the interrupt always
    ends; the queued blocks are the last ones produced, in order and prepared;
    the block being run is the oldest of them, is marked as running, and is
    neither the one the planner prepares nor the one the idle loop cleans; and a
    block passed is never run again. This holds through holds, flushes, aborts
    and halts. *)
Theorem motion_safe raw size delay ring rawk ms s s' :
  2 <= size < 2 ^ 32 -> Z.of_nat (List.length ring) = size ->
  star motion_step (boot raw size delay ring rawk ms) s -> star motion_step s s' ->
  exists c d t c' d' t', motion_safe_in s c d t /\ motion_safe_in s' c' d' t' /\ c + d <= c' + d'.
Proof.
  intros Hs Hr H1 H2.
  assert (exists c d t, motion_inv s c d t) as (c & d & t & Hi).
  { refine (star_invariant _ (fun s => exists c d t, motion_inv s c d t) _ _ _ H1 _).
    - intros a b (c & d & t & Ha) Hab. destruct (motion_step_inv _ _ _ _ _ Ha Hab) as (c' & d' & t' & ? & _). by exists c', d', t'.
    - exists 0, 0, 0. by apply boot_inv. }
  assert (exists c' d' t', motion_inv s' c' d' t' /\ c + d <= c' + d') as (c' & d' & t' & Hi' & Hle).
  { refine (star_invariant _ (fun s => exists c' d' t', motion_inv s c' d' t' /\ c + d <= c' + d') _ _ _ H2 _).
    - intros a b (c1 & d1 & t1 & Ha & Hle) Hab. destruct (motion_step_inv _ _ _ _ _ Ha Hab) as (c' & d' & t' & ? & ?).
      exists c', d', t'. split; [done|lia].
    - exists c, d, t. split; [done|lia]. }
  exists c, d, t, c', d', t'. split; [by apply inv_safe|]. split; [by apply inv_safe|done].
Qed.

(** A run: a block is prepared and queued, the interrupt runs it to its end, and
    the idle loop has tested that there is something to clean. *)
Definition demo_boot : system :=
  boot demo_conveyor 3 100 [new_block 3 3; new_block 3 3; new_block 3 3] (mk_ticker 0 0 [] None 0 false)
    (map demo_motor [10; 20; 30]).
Definition quick_block : Block :=
  (new_block 3 3) <| line := 7 |> <| steps := [1; 0; 0] |> <| total_move_ticks := 1 |> <| is_ready := true |>
    <| direction_bits := [false; true; false] |>
    <| tick_info := [demo_ticks 1 (2 ^ 61); demo_ticks 0 0; demo_ticks 0 0] |>.
Ltac by_running := vm_compute; reflexivity.

(** [n] interrupts are [n] steps. *)
Lemma star_ticks n s w : ticks n (mach s) = Some w -> star motion_step s (s <| mach := w |>).
Proof.
  revert s. induction n as [|n IH]; intros s Hn; cbn [ticks] in Hn.
  - injection Hn as <-. replace (s <| mach := mach s |>) with s by (by destruct s). apply star_refl.
  - destruct (step_tick (mach s)) as [w1|] eqn:Hw; [|done]. cbn [mbind option_bind] in Hn.
    eapply star_trans; [apply star_one, by_ticker, Hw|]. specialize (IH (s <| mach := w1 |>) Hn). recs. exact IH.
Qed.

Definition demo_prepared : system :=
  with_conveyor demo_boot ((conv demo_boot) <| queue := set_item (queue (conv demo_boot)) 0 (fun _ => quick_block) |>).
Definition demo_pushed : system :=
  let p := push_head_block 3 false (conv demo_prepared) (motors (mach demo_prepared)) in
  (with_conveyor demo_prepared (fst (fst p))) <| mach := (mach demo_prepared) <| conveyor := fst (fst p) |> <| motors := snd (fst p) |> |>
    <| produced := produced demo_prepared ++ [line (head (queue (conv demo_prepared)))] |>.
Definition demo_fetching : system := with_conveyor demo_pushed (check_queue 0 (conv demo_pushed) true).

Lemma demo_prepares : star motion_step demo_boot demo_fetching.
Proof.
  apply star_step with demo_pushed; [apply star_step with demo_prepared; [apply star_one|]|].
  - apply by_main. apply (prepare_head demo_boot quick_block). reflexivity.
  - apply by_main. apply (push_head demo_prepared _ _ true); vm_compute; reflexivity.
  - apply by_main. apply (checks demo_pushed 0 true). vm_compute. reflexivity.
Qed.

Lemma motion_safe_witness : exists s c d t, motion_safe_in s c d t /\ ticking (ticker (mach s)) = true /\ c + d = 0 /\ t = 1.
Proof.
  destruct (ticks 1 (mach demo_fetching)) as [w|] eqn:Hw; [|vm_compute in Hw; discriminate].
  set (s := demo_fetching <| mach := w |>).
  assert (H : ticking (ticker w) = true /\ isr_tail_i (queue (conveyor w)) = 0 /\ head_i (queue (conveyor w)) = 1 /\
    tail_i (queue (conveyor w)) = 0 /\ length (queue (conveyor w)) = 3).
  { assert (Hx : option_map (fun w => (ticking (ticker w), isr_tail_i (queue (conveyor w)), head_i (queue (conveyor w)),
      tail_i (queue (conveyor w)), length (queue (conveyor w)))) (ticks 1 (mach demo_fetching)) = Some (true, 0, 1, 0, 3)) by by_running.
    rewrite Hw in Hx. cbn [option_map] in Hx. by injection Hx. }
  destruct H as (Htk & Hi & Hh & Ht & Hl).
  destruct (motion_safe demo_conveyor 3 100 [new_block 3 3; new_block 3 3; new_block 3 3] (mk_ticker 0 0 [] None 0 false)
              (map demo_motor [10; 20; 30]) demo_boot s ltac:(lia) eq_refl) as (c & d & t & c' & d' & t' & _ & H & _).
  - apply star_refl.
  - eapply star_trans; [exact demo_prepares|]. by apply (star_ticks 1).
  - exists s, c', d', t'. split; [exact H|]. split; [exact Htk|]. destruct H as [Hr Hc _ _ _].
    change (produced s) with [7] in Hc. cbn [List.length Z.of_nat] in Hc.
    pose proof (regions_bound _ _ _ Hr) as Hb. pose proof (qo_isr _ _ _ Hr) as Hqi. pose proof (qo_head _ _ _ Hr) as Hqh.
    change (conv s) with (conveyor w) in *. rewrite Hi, Ht, Hl in Hqi. rewrite Hh, Ht, Hl in Hqh. rewrite Hl in Hb.
    rewrite Z.mod_small in Hqi, Hqh by lia. assert (d' = 0) by lia. assert (t' = 1) by lia. lia.
Defined.

(** ** A replanned block

    [calculate_trapezoid] looks at [is_ticking] when it begins and locks the
    block only when it has done its arithmetic. *)
Definition two_steps : Block :=
  quick_block <| steps := [2; 0; 0] |> <| tick_info := [demo_ticks 2 (2 ^ 61); demo_ticks 0 0; demo_ticks 0 0] |>.
Definition race_tested : system :=
  (demo_fetching <| mach := (mach demo_fetching) <| conveyor := (conv demo_fetching)
      <| queue := set_item (queue (conv demo_fetching)) 0 (fun _ => two_steps) |> |> |>) <| main := Trapezoid_tested 0 |>.
Definition race_started : system := race_tested <| mach := default (mach race_tested) (ticks 2 (mach race_tested)) |>.
Definition race_locked : system := (with_conveyor race_started (lock_block (conv race_started) 0)) <| main := Trapezoid_locked 0 |>.
Definition race_written : system :=
  with_conveyor race_locked ((conv race_locked) <| queue := set_item (queue (conv race_locked)) 0
    (fun _ => (item (queue (conv race_locked)) 0) <| tick_info := tick_info two_steps |>) |>).
Definition race_unlocked : system := (with_conveyor race_written (unlock_block (conv race_written) 0)) <| main := Free |>.
Definition race_ended : system := race_unlocked <| mach := default (mach race_unlocked) (ticks 4 (mach race_unlocked)) |>.

(** A block of two steps, replanned by the main loop to the same two steps while
    the interrupt had just begun it, takes three: the interrupt came between the
    test and the lock, and the times it had counted on were written anew. *)
Lemma replanned_block_oversteps :
  star motion_step race_tested race_ended /\ positions (mach race_tested) = [10; 20; 30] /\
  map steps_to_move (tick_info two_steps) = [2; 0; 0] /\ positions (mach race_ended) = [13; 20; 30] /\
  ticking (ticker (mach race_ended)) = false.
Proof.
  split; [|split; [by_running|]; split; [by_running|]; split; by_running].
  assert (H1 : star motion_step race_tested race_started) by (apply (star_ticks 2); by_running).
  assert (H2 : motion_step race_started race_locked) by (apply by_main, locks_trapezoid; by_running).
  assert (H3 : motion_step race_locked race_written).
  { apply by_main, (writes_trapezoid race_locked 0); [by_running|]. split; [by_running|]. split; [by_running|]. split; by_running. }
  assert (H4 : motion_step race_written race_unlocked) by (apply by_main, unlocks_trapezoid; by_running).
  assert (H5 : star motion_step race_unlocked race_ended) by (apply (star_ticks 4); by_running).
  eapply star_trans; [exact H1|]. eapply star_trans; [|exact H5].
  eapply star_step; [eapply star_step; [apply star_one; exact H2|exact H3]|exact H4].
Qed.

(** ** Waiting for the queue to empty

    The loops of [wait_for_idle] and [flush_queue]; each turn the step interrupt
    comes [between] times, and the microsecond counter reads [clock]. *)
Section Waiting.
Context (between : nat) (clock : nat -> Z).

(** [None] when the turns are used up. The idle event's other handlers are left
    out.
    [src/src/modules/robot/Conveyor.cpp:158-161] Conveyor::wait_for_idle *)
Fixpoint wait_empty (turns : nat) (w : machine) : option machine :=
  if is_empty (queue (conveyor w)) then Some w
  else match turns with
  | O => None
  | S turns =>
      let w := w <| conveyor := check_queue (clock turns) (conveyor w) true |> in
      let w := w <| conveyor := on_idle (List.length (motors w)) (clock turns) (conveyor w) |> in
      w ← ticks between w; wait_empty turns w
  end.
(** [src/src/modules/robot/Conveyor.cpp:163-168] Conveyor::wait_for_idle *)
Fixpoint wait_stopped (turns : nat) (w : machine) : option machine :=
  if is_idle (conveyor w) (motors w) then Some w
  else match turns with
  | O => None
  | S turns =>
      let w := w <| conveyor := on_idle (List.length (motors w)) (clock turns) (conveyor w) |> in
      w ← ticks between w; wait_stopped turns w
  end.
(** [src/src/modules/robot/Conveyor.cpp:153-172] Conveyor::wait_for_idle *)
Definition wait_for_idle (turns : nat) (w : machine) (wait_for_motors : bool) : option machine :=
  let w := w <| conveyor := (conveyor w) <| running := false |> |> in
  w ← wait_empty turns w;
  w ← (if wait_for_motors then wait_stopped turns w else Some w);
  Some (w <| conveyor := (conveyor w) <| running := true |> |>).
(** [src/src/modules/robot/Conveyor.cpp:318-329] Conveyor::flush_queue *)
Definition flush_queue (turns : nat) (w : machine) : option machine :=
  let w := w <| conveyor := (conveyor w) <| allow_fetch := false |> <| flush := true |> |> in
  w ← wait_for_idle turns w false;
  Some (w <| conveyor := (conveyor w) <| flush := false |> |>).
(** [argument = None] is the null pointer, a halt.
    [src/src/modules/robot/Conveyor.cpp:90-97] Conveyor::on_halt *)
Definition on_halt (turns : nat) (w : machine) (argument : option unit) : option machine :=
  match argument with
  | Some _ => Some w
  | None =>
      w ← flush_queue turns w;
      Some (w <| conveyor := (conveyor w) <| hold_queue := false |> <| continuous_mode := 0 |> |>)
  end.

(** How far a flush still is from its end. *)
Definition flush_left (w : machine) (d t : Z) : Z :=
  d + t + (if ticking (ticker w) then 2 else if 0 <? t then 1 else 0).

(** What the loop keeps in a halted machine that flushes. *)
Record flushing (w : machine) (d t : Z) : Prop := mk_flushing {
  fl_queue : conveyor_ok (conveyor w) d t;
  fl_halted : halted w = true;
  fl_hold : hold_queue (conveyor w) = false;
  fl_flush : flush (conveyor w) = true
}.
Lemma flushing_tick w d t : flushing w d t ->
  exists w' d' t', step_tick w = Some w' /\ flushing w' d' t' /\ d' + t' = d + t /\ ticking (ticker w') = false /\
    (if ticking (ticker w) then t' = t else t' = 0).
Proof.
  intros []. pose proof (regions_bound _ _ _ fl_queue0) as Hrb. unfold step_tick, run_block.
  destruct (ticking (ticker w)) eqn:Htk.
  - rewrite fl_halted0. eexists _, d, t. split; [done|]. split; [by split|]. by recs.
  - unfold fetch.
    destruct (get_next_block_ok (List.length (motors w)) (halted w) _ _ _ fl_queue0) as (c & ob & d' & t' & Hg & Hc & _ & _ & _ & Hf & _).
    rewrite Hg. cbn [mbind option_bind]. rewrite fl_flush0, fl_hold0 in Hf. destruct Hf as (-> & -> & ->). cbn [mbind option_bind andb].
    pose proof (get_next_block_flags _ _ _ _ _ Hg) as Hfl.
    eexists _, (d + t), 0. split; [done|]. split; [|split; [lia|split; [done|done]]].
    split; recs; try done; rewrite Hfl; recs; done.
Qed.
Lemma flushing_ticks n w d t : flushing w d t -> (0 < n)%nat ->
  exists w' d' t', ticks n w = Some w' /\ flushing w' d' t' /\ d' + t' = d + t /\ ticking (ticker w') = false /\
    (t' = 0 \/ ticking (ticker w) = true /\ t' = t).
Proof.
  revert w d t. induction n as [|n IH]; intros w d t H Hn; [lia|]. cbn [ticks].
  destruct (flushing_tick _ _ _ H) as (w1 & d1 & t1 & -> & H1 & Hs & Hk & Ht). cbn [mbind option_bind].
  destruct n as [|n].
  - exists w1, d1, t1. do 4 (split; [done|]). destruct (ticking (ticker w)); [by right|by left].
  - destruct (IH _ _ _ H1 ltac:(lia)) as (w2 & d2 & t2 & Hw2 & H2 & Hs2 & Hk2 & Ht2). exists w2, d2, t2.
    split; [done|]. split; [done|]. split; [lia|]. split; [done|]. left. destruct Ht2 as [|[Hx _]]; [done|congruence].
Qed.

Lemma check_queue_keeps now c force :
  queue (check_queue now c force) = queue c /\ hold_queue (check_queue now c force) = hold_queue c /\
  flush (check_queue now c force) = flush c.
Proof. unfold check_queue. by repeat case_match. Qed.
Lemma on_idle_keeps n now c :
  hold_queue (on_idle n now c) = hold_queue c /\ flush (on_idle n now c) = flush c.
Proof.
  unfold on_idle. set (c1 := if running c then _ else _).
  assert (H : hold_queue c1 = hold_queue c /\ flush c1 = flush c)
    by (unfold c1; case_match; [split; apply check_queue_keeps|done]).
  clearbody c1. unfold consume, clear_tail. by repeat case_match.
Qed.

Lemma wait_empty_flushes turns w d t :
  flushing w d t -> (0 < between)%nat -> flush_left w d t <= Z.of_nat turns ->
  exists w', wait_empty turns w = Some w' /\ flushing w' 0 0.
Proof.
  revert w d t. induction turns as [|turns IH]; intros w d t H Hb Hl; pose proof H as [];
    pose proof (regions_bound _ _ _ fl_queue0) as Hrb; cbn [wait_empty]; rewrite (is_empty_ok _ _ _ fl_queue0);
    (destruct (Z.eqb_spec (d + t) 0); [exists w; split; [done|]; assert (d = 0) as -> by lia; assert (t = 0) as -> by lia; done|]).
  - unfold flush_left in Hl. destruct (ticking (ticker w)), (0 <? t); lia.
  - set (w1 := w <| conveyor := check_queue _ _ true |>). set (w2 := w1 <| conveyor := on_idle _ _ _ |>). cbv zeta.
    destruct (check_queue_keeps (clock turns) (conveyor w) true) as (E1 & E2 & E3).
    destruct (on_idle_keeps (List.length (motors w1)) (clock turns) (conveyor w1)) as (F1 & F2).
    assert (H2 : flushing w2 (Z.max 0 (d - 1)) t).
    { split; unfold w2, w1 in *; recs; [apply on_idle_cleans; by rewrite E1|done|by rewrite F1, E2|by rewrite F2, E3]. }
    assert (Hk : ticking (ticker w2) = ticking (ticker w)) by done. clearbody w2. clear w1 E1 E2 E3 F1 F2.
    destruct (flushing_ticks _ _ _ _ H2 Hb) as (w3 & d3 & t3 & -> & H3 & Hs & Hk3 & Ht3). cbn [mbind option_bind].
    apply (IH w3 d3 t3 H3 Hb). pose proof (fl_queue _ _ _ H3) as Hq3. pose proof (regions_bound _ _ _ Hq3).
    unfold flush_left in *. rewrite Hk3. rewrite Hk in Ht3.
    destruct (ticking (ticker w)), (Z.ltb_spec 0 t), (Z.ltb_spec 0 t3), Ht3 as [|[? ?]]; lia || done.
Qed.

(** A halt empties the queue and comes back: if the step interrupt comes at
    least once a turn and the queue is not held, [on_halt] ends within as many
    turns as the ring has blocks and two, whatever was queued or running; then
    the queue is empty and nothing runs or is handed out. *)
Theorem on_halt_empties_queue turns w d t :
  conveyor_ok (conveyor w) d t -> halted w = true -> hold_queue (conveyor w) = false -> (0 < between)%nat ->
  d + t + 2 <= Z.of_nat turns ->
  exists w', on_halt turns w None = Some w' /\ is_empty (queue (conveyor w')) = true /\ conveyor_ok (conveyor w') 0 0 /\
    flush (conveyor w') = false /\ running (conveyor w') = true /\ continuous_mode (conveyor w') = 0.
Proof.
  intros Hq Hh Hhold Hb Hturns. unfold on_halt, flush_queue, wait_for_idle.
  set (w1 := (w <| conveyor := _ |>) <| conveyor := _ <| running := false |> |>).
  assert (H1 : flushing w1 d t) by by split. destruct (regions_bound _ _ _ Hq) as (_ & ? & ? & _).
  destruct (wait_empty_flushes turns w1 d t H1 Hb) as (w2 & Hw & [H2 _ _ _]).
  { unfold flush_left. destruct (ticking (ticker w1)), (0 <? t); lia. }
  cbv zeta. rewrite Hw. cbn [mbind option_bind]. eexists. split; [done|].
  set (w3 := _ <| conveyor := _ <| continuous_mode := 0 |> |>).
  assert (H3 : queue (conveyor w3) = queue (conveyor w2) /\ flush (conveyor w3) = false /\ running (conveyor w3) = true /\
    continuous_mode (conveyor w3) = 0) by done.
  clearbody w3. destruct H3 as (E1 & E2 & E3 & E4). rewrite E1, (is_empty_ok _ _ _ H2). done.
Qed.

(** Under a hold a flush never comes back while anything is queued: the
    interrupt looks at the hold first. *)
Lemma flush_under_hold_hangs turns w d t :
  conveyor_ok (conveyor w) d t -> 0 < t -> hold_queue (conveyor w) = true -> ticking (ticker w) = false ->
  on_halt turns w None = None.
Proof.
  intros Hq Ht Hh Hk. unfold on_halt, flush_queue, wait_for_idle. set (w1 := (w <| conveyor := _ |>) <| conveyor := _ <| running := false |> |>).
  assert (Hn : wait_empty turns w1 = None); [|cbv zeta; by rewrite Hn].
  assert (H1 : conveyor_ok (conveyor w1) d t /\ hold_queue (conveyor w1) = true /\ ticking (ticker w1) = false) by done.
  clearbody w1. clear w Hq Hh Hk. destruct H1 as (Hq & Hh & Hk).
  revert w1 d Hq Hh Hk. induction turns as [|turns IH]; intros w d Hq Hh Hk;
    pose proof (regions_bound _ _ _ Hq); cbn [wait_empty]; rewrite (is_empty_ok _ _ _ Hq);
    (destruct (Z.eqb_spec (d + t) 0); [lia|]); [done|]. cbv zeta.
  set (w1 := w <| conveyor := check_queue _ _ true |>). set (w2 := w1 <| conveyor := on_idle _ _ _ |>).
  destruct (check_queue_keeps (clock turns) (conveyor w) true) as (E1 & E2 & _).
  destruct (on_idle_keeps (List.length (motors w1)) (clock turns) (conveyor w1)) as (F1 & _).
  assert (H2 : conveyor_ok (conveyor w2) (Z.max 0 (d - 1)) t) by (unfold w2, w1; recs; apply on_idle_cleans; by rewrite E1).
  assert (Hh2 : hold_queue (conveyor w2) = true) by (unfold w2, w1 in *; recs; by rewrite F1, E2).
  assert (Hk2 : ticking (ticker w2) = false) by done. clearbody w2. clear E1 E2 F1.
  assert (Hts : forall n, ticks n w2 = Some w2).
  { intros m. induction m as [|m IHm]; [done|]. cbn [ticks]. unfold step_tick, fetch, get_next_block. rewrite Hk2, Hh2.
    cbn [mbind option_bind andb]. replace (w2 <| conveyor := conveyor w2 |>) with w2 by (by destruct w2). done. }
  rewrite Hts. cbn [mbind option_bind]. by eapply IH.
Qed.
End Waiting.

Lemma on_halt_empties_queue_witness :
  exists w', on_halt 1 (fun _ => 0) 3 (demo_machine <| halted := true |>) None = Some w' /\ is_empty (queue (conveyor w')) = true.
Proof.
  destruct (on_halt_empties_queue 1 (fun _ => 0) 3 (demo_machine <| halted := true |>) 0 1) as (w' & H & He & _).
  - exact demo_queue_ok.
  - reflexivity.
  - reflexivity.
  - lia.
  - lia.
  - exists w'. split; [exact H|exact He].
Defined.
