(* ===== verification/Planner.v ===== *)
(** * The planner ([src/src/modules/robot/Planner.h], [Planner.cpp]; the speeds of
    [src/src/modules/robot/Block.cpp])

    Each new block is given the fastest speed it may be entered at, from the
    angle it makes with the block before; then the queue is walked back, to see
    how fast each block may be entered and still stop in time, and forth, to see
    how fast it can be reached; and the blocks whose speeds changed get new ramps
    of acceleration. All of it in [float]s and [double]s ([Binary32]). *)
From S2P Require Import Prelude Binary32 Ring StepperMotor BlockQueue Conveyor StepTicker Motion.
From Stdlib Require Import Floats.SpecFloat.

Definition f2 : Z := 0x40000000.
Definition f_half : Z := 0x3F000000.
(** 0.9999F. *)
Definition f_0_9999 : Z := 0x3F7FF972.

(** ** Speeds of one block *)

(** The speed from which [target_velocity] is reached within the distance;
    [acceleration] is negative.
    [src/src/modules/robot/Block.cpp:242-245] Block::max_allowable_speed *)
Definition max_allowable_speed (acceleration target_velocity distance : Z) : Z :=
  fsqrt (fsub (fmul target_velocity target_velocity) (fmul (fmul f2 acceleration) distance)).
(** [src/src/modules/robot/Block.cpp:248-267] Block::reverse_pass *)
Definition reverse_pass (b : Block) (exit_speed : Z) : Block * Z :=
  let b :=
    if negb (feq (entry_speed b) (max_entry_speed b)) then
      if negb (nominal_length_flag b) && flt exit_speed (max_entry_speed b) then
        let m := max_allowable_speed (fneg (acceleration b)) exit_speed (millimeters b) in
        b <| entry_speed := fmin m (max_entry_speed b) |>
      else b <| entry_speed := max_entry_speed b |>
    else b in
  (b, entry_speed b).
(** [src/src/modules/robot/Block.cpp:298-315] Block::max_exit_speed *)
Definition max_exit_speed (b : Block) : Z :=
  if is_ticking b then exit_speed b
  else if nominal_length_flag b then nominal_speed b
  else fmin (max_allowable_speed (fneg (acceleration b)) (entry_speed b) (millimeters b)) (nominal_speed b).
(** [src/src/modules/robot/Block.cpp:272-296] Block::forward_pass *)
Definition forward_pass (b : Block) (prev_max_exit_speed : Z) : Block * Z :=
  let p := prev_max_exit_speed in
  let p := if flt (nominal_speed b) p then nominal_speed b else p in
  let p := if flt (max_entry_speed b) p then max_entry_speed b else p in
  let b := if fle p (entry_speed b) then b <| entry_speed := p |> <| recalculate_flag := false |> else b in
  (b, max_exit_speed b).

(** ** Ramps *)
Section Ramps.
(** The step ticker's frequency, and the number of motors. *)
Context (frequency : Z) (n_actuators : nat).
(** [src/src/modules/robot/Block.cpp:43-43] Block::init *)
Definition fp_scale : spec_float :=
  ddiv (double_of_int STEPTICKER_FPSCALE) (dmul (double_of_float frequency) (double_of_float frequency)).
(** One motor's share.
    [src/src/modules/robot/Block.cpp:333-362] Block::prepare *)
Definition prepare_motor (b : Block) (inv : Z) (acceleration_per_tick deceleration_per_tick : spec_float) (steps : Z)
    (t : tickinfo_t) : tickinfo_t :=
  let t := t <| steps_to_move := steps |> in
  if steps =? 0 then t
  else
    let aratio := fmul inv (float_of_int steps) in
    let t := t <| steps_per_tick := round_to_int64 (dmul (ddiv (dmul (double_of_float (initial_rate b)) (double_of_float aratio))
                                                              (double_of_float frequency)) (double_of_int STEPTICKER_FPSCALE)) |>
               <| counter := 0 |> <| step_count := 0 |> <| next_accel_event := u32 (total_move_ticks b + 1) |> in
    let '(t, acceleration_change_) :=
      if negb (accelerate_until b =? 0) then (t <| next_accel_event := accelerate_until b |>, acceleration_per_tick)
      else if decelerate_after b =? 0 then (t, SFopp deceleration_per_tick)
      else if negb (decelerate_after b =? total_move_ticks b) then (t <| next_accel_event := decelerate_after b |>, S754_zero false)
      else (t, S754_zero false) in
    t <| acceleration_change := round_to_int64 (dmul acceleration_change_ (double_of_float aratio)) |>
      <| deceleration_change := - round_to_int64 (dmul deceleration_per_tick (double_of_float aratio)) |>
      <| plateau_rate := round_to_int64 (double_of_float
           (fmul (fdiv (fmul (maximum_rate b) aratio) frequency) (float_of_int STEPTICKER_FPSCALE))) |>.
(** [src/src/modules/robot/Block.cpp:319-377] Block::prepare *)
Definition prepare (b : Block) (acceleration_in_steps deceleration_in_steps : Z) : Block :=
  let inv := fdiv f1 (float_of_int (steps_event_count b)) in
  let acceleration_per_tick := dmul (double_of_float acceleration_in_steps) fp_scale in
  let deceleration_per_tick := dmul (double_of_float deceleration_in_steps) fp_scale in
  b <| tick_info := imap (fun m t => if (m <? n_actuators)%nat
      then prepare_motor b inv acceleration_per_tick deceleration_per_tick (steps b !!! m) t else t) (tick_info b) |>.
(** Times in seconds, then in ticks; the rates, then the block. The lock is taken
    and released within.
    [src/src/modules/robot/Block.cpp:148-238] Block::calculate_trapezoid *)
Definition calculate_trapezoid (b : Block) (entryspeed exitspeed : Z) : Block :=
  if is_ticking b then b
  else
    let events := float_of_int (steps_event_count b) in
    let initial_rate_ := fmul (nominal_rate b) (fdiv entryspeed (nominal_speed b)) in
    let final_rate := fmul (nominal_rate b) (fdiv exitspeed (nominal_speed b)) in
    let acceleration_per_second := fdiv (fmul (acceleration b) events) (millimeters b) in
    let maximum_possible_rate :=
      fsqrt (fadd (fmul events acceleration_per_second) (fdiv (fadd (fsquare initial_rate_) (fsquare final_rate)) f2)) in
    let b := b <| maximum_rate := fmin maximum_possible_rate (nominal_rate b) |> in
    let time_to_accelerate := fdiv (fsub (maximum_rate b) initial_rate_) acceleration_per_second in
    let time_to_decelerate := fdiv (fsub final_rate (maximum_rate b)) (fneg acceleration_per_second) in
    let plateau_time :=
      if flt (nominal_rate b) maximum_possible_rate then
        let acceleration_distance := fmul (fdiv (fadd initial_rate_ (maximum_rate b)) f2) time_to_accelerate in
        let deceleration_distance := fmul (fdiv (fadd (maximum_rate b) final_rate) f2) time_to_decelerate in
        let plateau_distance := fsub (fsub events acceleration_distance) deceleration_distance in
        fdiv plateau_distance (maximum_rate b)
      else f0 in
    let total_move_time := fadd (fadd time_to_accelerate time_to_decelerate) plateau_time in
    let acceleration_ticks := u32_of_float (floorf (fmul time_to_accelerate frequency)) in
    let deceleration_ticks := u32_of_float (floorf (fmul time_to_decelerate frequency)) in
    let total_move_ticks_ := u32_of_float (floorf (fmul total_move_time frequency)) in
    let acceleration_time := fdiv (float_of_int acceleration_ticks) frequency in
    let deceleration_time := fdiv (float_of_int deceleration_ticks) frequency in
    let acceleration_in_steps := if flt f0 acceleration_time then fdiv (fsub (maximum_rate b) initial_rate_) acceleration_time else f0 in
    let deceleration_in_steps := if flt f0 deceleration_time then fdiv (fsub (maximum_rate b) final_rate) deceleration_time else f0 in
    let b := b <| locked := true |> in
    let b := b <| accelerate_until := acceleration_ticks |> <| decelerate_after := u32 (total_move_ticks_ - deceleration_ticks) |>
               <| total_move_ticks := total_move_ticks_ |> <| initial_rate := initial_rate_ |> <| exit_speed := exitspeed |> in
    let b := prepare b acceleration_in_steps deceleration_in_steps in
    b <| locked := false |>.

(** ** The passes over the queue *)

(** [None] for fuel, here and below: the ring's size is enough ([recalculate_ok]).
    [src/src/modules/robot/Planner.cpp:294-299] Planner::recalculate *)
Fixpoint reverse_loop (fuel : nat) (q : BlockQueue) (block_index entry_speed_ : Z) : option (BlockQueue * Z) :=
  if negb (block_index =? tail_i q) && recalculate_flag (item q block_index) then
    match fuel with
    | O => None
    | S fuel =>
        let '(b, e) := reverse_pass (item q block_index) entry_speed_ in
        reverse_loop fuel (set_item q block_index (fun _ => b)) (prev q block_index) e
    end
  else Some (q, block_index).
(** [src/src/modules/robot/Planner.cpp:312-322] Planner::recalculate *)
Fixpoint forward_loop (fuel : nat) (q : BlockQueue) (block_index exit_speed_ : Z) : option (BlockQueue * Z) :=
  if block_index =? head_i q then Some (q, block_index)
  else match fuel with
  | O => None
  | S fuel =>
      let previous := block_index in
      let block_index := next q block_index in
      let '(b, e) := forward_pass (item q block_index) exit_speed_ in
      let q := set_item q block_index (fun _ => b) in
      let q := set_item q previous (fun p => calculate_trapezoid p (entry_speed p) (entry_speed b)) in
      forward_loop fuel q block_index e
  end.
(** [src/src/modules/robot/Planner.cpp:248-333] Planner::recalculate *)
Definition recalculate (q : BlockQueue) (minimum_planner_speed : Z) : option BlockQueue :=
  let block_index := head_i q in
  '(q, block_index) ←
    (if is_empty q then Some (q, block_index)
     else
       '(q, block_index) ← reverse_loop (Z.to_nat (length q)) q block_index minimum_planner_speed;
       forward_loop (Z.to_nat (length q)) q block_index (max_exit_speed (item q block_index)));
  Some (set_item q block_index (fun b => calculate_trapezoid b (entry_speed b) minimum_planner_speed)).

(** ** A new block *)
(** [src/src/modules/robot/Planner.h:31-34] Planner *)
Record Planner := mk_planner {
  previous_unit_vec : list Z; junction_deviation : Z; z_junction_deviation : Z; minimum_planner_speed : Z
}.
#[global] Instance eta_Planner : Eta Planner := fun p =>
  mk_planner (previous_unit_vec p) (junction_deviation p) (z_junction_deviation p) (minimum_planner_speed p).
(** [n_primary] is [N_PRIMARY_AXIS], three or more. *)
Context (n_primary : nat).
(** [src/src/modules/robot/Planner.cpp:42-45] Planner::reset_after_abort *)
Definition reset_after_abort (p : Planner) : Planner := p <| previous_unit_vec := repeat f0 n_primary |>.
(** The configuration's values; [src/src/modules/robot/Planner.cpp:48-53] is the
    same without the first.
    [src/src/modules/robot/Planner.cpp:36-53] Planner::Planner *)
Definition new_planner (junction_deviation_ z_junction_deviation_ minimum_planner_speed_ : Z) : Planner :=
  mk_planner (repeat f0 n_primary) junction_deviation_ z_junction_deviation_ minimum_planner_speed_.

(** A move, as [Robot] hands it over. *)
Record move := mk_move {
  mv_pos : list Z; mv_rate : Z; mv_distance : Z; mv_unit_vec : option (list Z); mv_acceleration : Z; mv_s_value : Z;
  mv_g123 : bool; mv_line : Z
}.
(** The motors' milestones, and the steps each has to take.
    [src/src/modules/robot/Planner.cpp:76-97] Planner::append_block *)
Definition motor_steps (actuators : list StepperMotor) (pos : list Z) : list Z :=
  zip_with (steps_to_target fmul lroundf) actuators pos.
(** [src/src/modules/robot/Planner.cpp:81-81] Planner::append_block *)
Definition update_motors (actuators : list StepperMotor) (pos : list Z) : list StepperMotor :=
  imap (fun i a => match pos !! i with
                   | Some x => update_last_milestones a x (steps_to_target fmul lroundf a x)
                   | None => a end) actuators.
(** [src/src/modules/robot/Planner.cpp:86-89] Planner::append_block *)
Definition set_steps (b : Block) (ss : list Z) : Block :=
  b <| direction_bits := imap (fun i d => match ss !! i with Some s => s <? 0 | None => d end) (direction_bits b) |>
    <| steps := imap (fun i n => match ss !! i with Some s => Z.abs s | None => n end) (steps b) |>.
(** Which junction deviation, and whether the move is of a primary axis.
    [src/src/modules/robot/Planner.cpp:122-145] Planner::append_block *)
Definition choose_deviation (p : Planner) (b : Block) : Z * bool :=
  if (steps b !!! 0%nat =? 0) && (steps b !!! 1%nat =? 0) then
    if negb (steps b !!! 2%nat =? 0)
    then (if is_nan (z_junction_deviation p) then junction_deviation p else z_junction_deviation p, true)
    else (junction_deviation p, existsb (fun n => negb (n =? 0)) (drop 3 (take n_primary (steps b))))
  else (junction_deviation p, true).
(** Minus the product of the two directions.
    [src/src/modules/robot/Planner.cpp:191-198] Planner::append_block *)
Definition cosine (p u : list Z) : Z :=
  foldl (fun c xy => fsub c (fmul xy.1 xy.2)) (fmul (fneg (p !!! 0%nat)) (u !!! 0%nat)) (zip (drop 1 (take n_primary p)) (drop 1 u)).
(** [src/src/modules/robot/Planner.cpp:181-211] Planner::append_block *)
Definition junction_speed (p : Planner) (q : BlockQueue) (b : Block) (deviation acceleration_ : Z) (unit_vec : option (list Z)) : Z :=
  match unit_vec with
  | Some u =>
      if is_empty q then minimum_planner_speed p
      else
        let prev_block := item q (prev q (head_i q)) in
        let previous_nominal_speed := if primary_axis prev_block then nominal_speed prev_block else f0 in
        if flt f0 deviation && flt f0 previous_nominal_speed then
          let cos_theta := cosine (previous_unit_vec p) u in
          if fle cos_theta f_0_9999 then
            let v := fmin previous_nominal_speed (nominal_speed b) in
            if fle (fneg f_0_9999) cos_theta then
              let sin_theta_d2 := fsqrt (fmul f_half (fsub f1 cos_theta)) in
              fmin v (fsqrt (fdiv (fmul (fmul acceleration_ deviation) sin_theta_d2) (fsub f1 sin_theta_d2)))
            else v
          else minimum_planner_speed p
        else minimum_planner_speed p
  | None => minimum_planner_speed p
  end.
(** The head block's sizes, once it is known to have steps, with the junction
    deviation that goes for it.
    [src/src/modules/robot/Planner.cpp:106-162] Planner::append_block *)
Definition fill_sizes (p : Planner) (b : Block) (m : move) : Block * Z :=
  let b := b <| s_value := Z.land (u32_of_float (roundf (fmul (mv_s_value m) (float_of_int 2048)))) 0xFFF |>
             <| is_g123 := mv_g123 m |> in
  let '(deviation, primary) := choose_deviation p b in
  let b := b <| primary_axis := primary |> <| acceleration := mv_acceleration m |>
             <| steps_event_count := foldr Z.max 0 (steps b) |> <| millimeters := mv_distance m |> in
  (if flt f0 (mv_distance m)
   then b <| nominal_speed := mv_rate m |>
          <| nominal_rate := fdiv (fmul (float_of_int (steps_event_count b)) (mv_rate m)) (mv_distance m) |>
   else b <| nominal_speed := f0 |> <| nominal_rate := f0 |>, deviation).
(** Its speeds and flags.
    [src/src/modules/robot/Planner.cpp:181-230] Planner::append_block *)
Definition fill_speeds (p : Planner) (q : BlockQueue) (b : Block) (deviation : Z) (m : move) : Block :=
  let vmax_junction := junction_speed p q b deviation (mv_acceleration m) (mv_unit_vec m) in
  let b := b <| max_entry_speed := vmax_junction |> in
  let v_allowable := max_allowable_speed (fneg (mv_acceleration m)) (minimum_planner_speed p) (millimeters b) in
  b <| entry_speed := fmin vmax_junction v_allowable |>
    <| nominal_length_flag := fle (nominal_speed b) v_allowable |> <| recalculate_flag := true |>.
(** [src/src/modules/robot/Planner.cpp:106-230] Planner::append_block *)
Definition fill_block (p : Planner) (q : BlockQueue) (b : Block) (m : move) : Block :=
  let '(b, deviation) := fill_sizes p b m in fill_speeds p q b deviation m.
(** Up to the waiting for room; the flag says whether the head block is to be
    queued, the answer what is returned if not.
    [src/src/modules/robot/Planner.cpp:58-243] Planner::append_block *)
Definition append_block (p : Planner) (c : Conveyor) (actuators : list StepperMotor) (m : move)
    : option (Planner * Conveyor * list StepperMotor * (bool + unit)) :=
  if motion_abort_requested c then Some (p, c, actuators, inl false)
  else
    let q := set_item (queue c) (head_ref (queue c)) (fun b => set_steps (b <| line := mv_line m |>) (motor_steps actuators (mv_pos m))) in
    let has_steps := existsb (fun s => negb (s =? 0)) (motor_steps actuators (mv_pos m)) in
    let actuators := update_motors actuators (mv_pos m) in
    if negb has_steps then Some (p, c <| queue := set_item q (head_ref q) (clear n_actuators) |>, actuators, inl true)
    else
      let q := set_item q (head_ref q) (fun b => fill_block p q b m) in
      let p := p <| previous_unit_vec := match mv_unit_vec m with Some u => take n_primary u | None => repeat f0 n_primary end |> in
      q ← recalculate q (minimum_planner_speed p);
      Some (p, c <| queue := set_item q (head_ref q) ready |>, actuators, inr tt).
End Ramps.

(** *** A stop that never slows down

    Three steps of a motor with 400 steps a millimetre, at 150 mm/s2: the block
    may be entered at 1.5 mm/s and is to end at rest. The time to accelerate is
    rounded to a little below zero, so the whole move takes less than the
    slowing down: [decelerate_after] wraps round, and the block never slows. *)
Definition f100k : Z := 0x47C35000.
Definition short_stop : Block :=
  (raw_block 5) <| steps := [3; 0; 0; 0; 0] |> <| steps_event_count := 3 |> <| nominal_speed := 0x41055555 |>
    <| millimeters := 0x3BF5C28F |> <| acceleration := 0x43160000 |>
    <| nominal_rate := fdiv (fmul (float_of_int 3) 0x41055555) 0x3BF5C28F |>.
Definition short_stop_entry : Z := max_allowable_speed (fneg (acceleration short_stop)) f0 (millimeters short_stop).
Lemma short_stop_never_slows :
  let b := calculate_trapezoid f100k 1 short_stop short_stop_entry f0 in
  let t := tick_info b !!! 0%nat in
  short_stop_entry = 0x3FC00000 /\ total_move_ticks b = 999 /\ decelerate_after b = 2 ^ 32 - 1 /\
  acceleration_change t = 0 /\ next_accel_event t = 2 ^ 32 - 1.
Proof. vm_compute. done. Qed.

(** ** What the passes do to a block *)

(** Speeds are numbers and not negative; a block is not entered faster than its
    junction allows; and one that runs is not planned anew. *)
Record block_ok (b : Block) : Prop := mk_block_ok {
  bo_entry : nonneg (entry_speed b);
  bo_exit : nonneg (exit_speed b);
  bo_max : nonneg (max_entry_speed b);
  bo_nominal : nonneg (nominal_speed b);
  bo_acceleration : nonneg (acceleration b);
  bo_length : 0 < millimeters b < f_inf;
  bo_junction : key (entry_speed b) <= key (max_entry_speed b);
  bo_ticking : is_ticking b = true -> recalculate_flag b = false
}.
(** The next block is not entered faster than this one can leave it; and one that
    does not run yet is to leave it at just that speed. *)
Record pair_ok (b b' : Block) : Prop := mk_pair_ok {
  po_reach : key (entry_speed b') <= key (max_exit_speed b);
  po_exit : is_ticking b = false -> exit_speed b = entry_speed b'
}.
(** What stays of a block whose entry speed is planned anew. *)
Definition same_move (b b' : Block) : Prop :=
  nominal_speed b' = nominal_speed b /\ max_entry_speed b' = max_entry_speed b /\ acceleration b' = acceleration b /\
  millimeters b' = millimeters b /\ nominal_length_flag b' = nominal_length_flag b /\ is_ticking b' = is_ticking b.

Lemma max_allowable_nonneg a v d : nonneg a -> nonneg v -> 0 < d < f_inf -> nonneg (max_allowable_speed (fneg a) v d).
Proof.
  intros Ha Hv Hd. apply fsqrt_nonneg, fsub_nonneg; [by apply fsquare_nonneg|].
  apply (fmul_nonpos d); [done|]. apply (fmul_nonpos f2); [unfold f2, f_inf; lia|]. by apply fneg_nonneg.
Qed.
Lemma max_exit_nonneg b : block_ok b -> nonneg (max_exit_speed b).
Proof.
  intros []. unfold max_exit_speed. case_match; [done|]. case_match; [done|].
  apply fmin_nonneg; [by apply max_allowable_nonneg|by right].
Qed.
Lemma reverse_pass_ok b x b' e :
  block_ok b -> nonneg x -> reverse_pass b x = (b', e) ->
  block_ok b' /\ same_move b b' /\ recalculate_flag b' = recalculate_flag b /\ exit_speed b' = exit_speed b /\ nonneg e.
Proof.
  intros H Hx Hr. pose proof H as [].
  assert (Hgo : forall v, nonneg v -> key v <= key (max_entry_speed b) -> (b <| entry_speed := v |>, v) = (b', e) ->
    block_ok b' /\ same_move b b' /\ recalculate_flag b' = recalculate_flag b /\ exit_speed b' = exit_speed b /\ nonneg e).
  { intros v Hv Hk [= <- <-]. split; [by split; recs|]. done. }
  pose proof (max_allowable_nonneg _ _ _ bo_acceleration0 Hx bo_length0) as Hm. unfold reverse_pass in Hr.
  destruct (negb (feq _ _)); [destruct (_ && _)|].
  - eapply (Hgo (fmin (max_allowable_speed (fneg (acceleration b)) x (millimeters b)) (max_entry_speed b))); [|rewrite fmin_key by done; lia|exact Hr].
    apply fmin_nonneg; [done|by right].
  - by apply (Hgo (max_entry_speed b)).
  - injection Hr as <- <-. done.
Qed.
Lemma max_exit_same b b' : same_move b b' -> entry_speed b' = entry_speed b -> (is_ticking b = true -> exit_speed b' = exit_speed b) ->
  max_exit_speed b' = max_exit_speed b.
Proof.
  intros (Hn & Hm & Ha & Hl & Hf & Ht) He Hx. unfold max_exit_speed. rewrite Hn, Ha, Hl, Hf, Ht, He.
  destruct (is_ticking b); [by apply Hx|done].
Qed.
Lemma forward_pass_ok b x b' e :
  block_ok b -> nonneg x -> forward_pass b x = (b', e) ->
  block_ok b' /\ same_move b b' /\ exit_speed b' = exit_speed b /\ e = max_exit_speed b' /\ key (entry_speed b') <= key x.
Proof.
  intros H Hx Hf. pose proof H as []. unfold forward_pass in Hf. cbv zeta in Hf.
  set (p1 := if flt (nominal_speed b) x then nominal_speed b else x) in Hf.
  assert (H1 : nonneg p1 /\ key p1 <= key x).
  { unfold p1. rewrite flt_nonneg by done. destruct (Z.ltb_spec (key (nominal_speed b)) (key x)); split; try done; lia. }
  clearbody p1. destruct H1 as [Hp1 Hk1].
  set (p2 := if flt (max_entry_speed b) p1 then max_entry_speed b else p1) in Hf.
  assert (H2 : nonneg p2 /\ key p2 <= key x).
  { unfold p2. rewrite flt_nonneg by done. destruct (Z.ltb_spec (key (max_entry_speed b)) (key p1)); split; try done; lia. }
  clearbody p2. destruct H2 as [Hp2 Hk2]. rewrite fle_nonneg in Hf by done.
  destruct (Z.leb_spec (key p2) (key (entry_speed b))); injection Hf as <- <-.
  - split; [split; recs; try done; lia|]. done.
  - split; [done|]. do 3 (split; [done|]). lia.
Qed.
Lemma trapezoid_fields f n b e x :
  let b' := calculate_trapezoid f n b e x in
  same_move b b' /\ entry_speed b' = entry_speed b /\ recalculate_flag b' = recalculate_flag b /\
  exit_speed b' = if is_ticking b then exit_speed b else x.
Proof.
  cbv zeta. destruct (is_ticking b) eqn:Ht; [unfold calculate_trapezoid; by rewrite Ht|].
  destruct b. cbn in Ht. subst. unfold same_move. repeat split.
Qed.
Lemma trapezoid_ok f n b e x : block_ok b -> nonneg x -> block_ok (calculate_trapezoid f n b e x).
Proof.
  intros [] Hx. destruct (trapezoid_fields f n b e x) as ((H1 & H2 & H3 & H4 & H5 & H6) & H7 & H8 & H9).
  split; rewrite ?H1, ?H2, ?H3, ?H4, ?H6, ?H7, ?H8, ?H9; try done. by case_match.
Qed.
Lemma trapezoid_exit f n b e x : max_exit_speed (calculate_trapezoid f n b e x) = max_exit_speed b.
Proof.
  destruct (trapezoid_fields f n b e x) as (H1 & H2 & _ & H3). apply max_exit_same; [done|done|]. intros Ht. by rewrite H3, Ht.
Qed.

(** ** The passes over the ring *)

(** The block [k] places after the tail. *)
Definition blk (q : BlockQueue) (k : Z) : Block := item q (slot q k).
Record same_ring (q q' : BlockQueue) : Prop := mk_same_ring {
  sr_length : length q' = length q; sr_tail : tail_i q' = tail_i q; sr_head : head_i q' = head_i q;
  sr_isr : isr_tail_i q' = isr_tail_i q; sr_ok : forall d t, queue_ok q d t -> queue_ok q' d t
}.
#[export] Instance same_ring_preorder : PreOrder same_ring.
Proof. split; [by split|]. intros q1 q2 q3 [] []. split; try congruence. auto. Qed.
Lemma set_item_ring q i f : same_ring q (set_item q i f).
Proof. split; try done. intros d t. apply set_item_ok. Qed.
Lemma same_ring_slot q q' k : same_ring q q' -> slot q' k = slot q k.
Proof. intros []. unfold slot. congruence. Qed.
Lemma blk_set q d t k j f :
  queue_ok q d t -> 0 <= k < length q -> 0 <= j < length q ->
  blk (set_item q (slot q k) f) j = if k =? j then f (blk q j) else blk q j.
Proof.
  intros H Hk Hj. unfold blk. change (slot (set_item q (slot q k) f) j) with (slot q j).
  pose proof (slot_range _ _ _ H k). pose proof (slot_range _ _ _ H j). destruct (Z.eqb_spec k j) as [->|Hne].
  - by apply (item_set_item _ d t).
  - apply item_set_item_ne; try lia. intros He. by apply (slot_inj _ _ _ H) in He.
Qed.
Lemma slot_prev q d t k : queue_ok q d t -> prev q (slot q k) = slot q (k - 1).
Proof.
  intros H. replace k with (k - 1 + 1) at 1 by lia. rewrite <- (slot_next _ _ _ H).
  apply (prev_next _ _ _ H). apply (slot_range _ _ _ H).
Qed.

Lemma reverse_loop_ok fuel q d t k x :
  queue_ok q d t -> 0 <= k <= d + t -> (Z.to_nat k <= fuel)%nat -> nonneg x -> (forall j, 0 <= j <= d + t -> block_ok (blk q j)) ->
  exists q' k0, reverse_loop fuel q (slot q k) x = Some (q', slot q k0) /\ 0 <= k0 <= k /\
    (0 < k -> recalculate_flag (blk q k) = true -> k0 < k) /\ same_ring q q' /\
    (forall j, 0 <= j < length q -> j <= k0 \/ k < j -> blk q' j = blk q j) /\
    (forall j, 0 <= j <= d + t -> block_ok (blk q' j) /\ same_move (blk q j) (blk q' j)).
Proof.
  revert q k x. induction fuel as [|fuel IH]; intros q k x H Hk Hf Hx Hb; pose proof (regions_bound _ _ _ H) as (Hl & Hd & Ht & Hr);
    cbn [reverse_loop]; pose proof (tail_slot _ _ _ H) as Htl; rewrite Htl, (slot_eqb _ _ _ H) by lia.
  - assert (k = 0) as -> by lia. cbn. exists q, 0. split; [done|]. split; [lia|]. split; [lia|]. split; [done|]. split; [done|].
    intros j Hj. split; [by apply Hb|done].
  - destruct (negb (k =? 0) && recalculate_flag (item q (slot q k))) eqn:Hgo.
    2: { exists q, k. split; [done|]. split; [lia|]. split.
      { intros H0 Hrc. unfold blk in Hrc. rewrite Hrc, andb_true_r in Hgo. apply negb_false_iff, Z.eqb_eq in Hgo. lia. }
      split; [done|]. split; [done|]. intros j Hj. split; [by apply Hb|done]. }
    apply andb_true_iff in Hgo as [Hk0 _]. apply negb_true_iff, Z.eqb_neq in Hk0.
    change (item q (slot q k)) with (blk q k). destruct (reverse_pass (blk q k) x) as [b e] eqn:Hp.
    destruct (reverse_pass_ok _ _ _ _ (Hb k ltac:(lia)) Hx Hp) as (Hbo & Hsm & _ & _ & He).
    rewrite (slot_prev _ _ _ _ H). set (q1 := set_item q (slot q k) (fun _ => b)).
    assert (Hs1 : same_ring q q1) by apply set_item_ring. assert (H1 : queue_ok q1 d t) by by apply Hs1.
    assert (Hb1 : forall j, 0 <= j < length q -> blk q1 j = if k =? j then b else blk q j)
      by (intros j Hj; unfold q1; rewrite (blk_set _ _ _ _ _ _ H) by lia; done).
    destruct (IH q1 (k - 1) e H1) as (q' & k0 & Hq & Hk1 & _ & Hs & Hun & Hok); [lia|lia|done| |].
    { intros j Hj. rewrite Hb1 by lia. case_match; [done|]. by apply Hb. }
    replace (slot q (k - 1)) with (slot q1 (k - 1)) by by apply same_ring_slot. rewrite Hq.
    exists q', k0. rewrite (same_ring_slot _ _ k0 Hs1). split; [done|]. split; [lia|]. split; [lia|]. split; [by etransitivity|]. split.
    + intros j Hj Hout. rewrite Hun, Hb1 by (rewrite ?(sr_length _ _ Hs1); lia). destruct (Z.eqb_spec k j); [lia|done].
    + intros j Hj. destruct (Hok j Hj) as [Ho Hm]. split; [done|]. rewrite Hb1 in Hm by lia.
      destruct (Z.eqb_spec k j) as [<-|]; [|done]. unfold same_move in *. intuition congruence.
Qed.

Section Passes.
Context (frequency : Z) (n_actuators : nat).
Abbreviation trapezoid := (calculate_trapezoid frequency n_actuators).

Lemma forward_loop_ok fuel q d t k :
  queue_ok q d t -> 0 <= k <= d + t -> (Z.to_nat (d + t - k) <= fuel)%nat ->
  (forall j, 0 <= j <= d + t -> block_ok (blk q j)) -> (forall j, 0 <= j < k -> pair_ok (blk q j) (blk q (j + 1))) ->
  exists q', forward_loop frequency n_actuators fuel q (slot q k) (max_exit_speed (blk q k)) = Some (q', slot q (d + t)) /\ same_ring q q' /\
    (forall j, 0 <= j <= d + t -> block_ok (blk q' j) /\ same_move (blk q j) (blk q' j)) /\
    (forall j, 0 <= j < d + t -> pair_ok (blk q' j) (blk q' (j + 1))) /\
    (forall j, d + t < j < length q -> blk q' j = blk q j).
Proof.
  revert q k. induction fuel as [|fuel IH]; intros q k H Hk Hf Hb Hp; pose proof (regions_bound _ _ _ H) as (Hl & Hd & Ht & Hr);
    cbn [forward_loop]; rewrite (head_slot _ _ _ H), (slot_eqb _ _ _ H) by lia.
  - assert (k = d + t) as -> by lia. rewrite Z.eqb_refl. exists q. split; [done|]. split; [done|]. split; [by split; [apply Hb|]|]. done.
  - destruct (Z.eqb_spec k (d + t)) as [->|Hne].
    { exists q. split; [done|]. split; [done|]. split; [by split; [apply Hb|]|]. done. }
    cbv zeta. rewrite (slot_next _ _ _ H). change (item q (slot q (k + 1))) with (blk q (k + 1)).
    destruct (forward_pass (blk q (k + 1)) (max_exit_speed (blk q k))) as [b e] eqn:Hpass.
    destruct (forward_pass_ok _ _ _ _ (Hb (k + 1) ltac:(lia)) (max_exit_nonneg _ (Hb k ltac:(lia))) Hpass) as (Hbo & Hsm & Hx & -> & Hke).
    set (q1 := set_item q (slot q (k + 1)) (fun _ => b)). assert (Hs1 : same_ring q q1) by apply set_item_ring.
    set (q2 := set_item q1 (slot q k) _). assert (Hs2 : same_ring q q2) by (etransitivity; [exact Hs1|apply set_item_ring]).
    assert (Hb2 : forall j, 0 <= j < length q -> blk q2 j =
      if k =? j then trapezoid (blk q k) (entry_speed (blk q k)) (entry_speed b) else if k + 1 =? j then b else blk q j).
    { intros j Hj. unfold q2. replace (slot q k) with (slot q1 k) by by apply same_ring_slot.
      rewrite (blk_set _ d t) by (try (by apply Hs1); rewrite (sr_length _ _ Hs1); lia).
      unfold q1. rewrite (blk_set _ _ _ _ _ _ H) by lia. destruct (Z.eqb_spec k j) as [<-|]; [|done].
      by destruct (Z.eqb_spec (k + 1) k); [lia|]. }
    clearbody q2. destruct (trapezoid_fields frequency n_actuators (blk q k) (entry_speed (blk q k)) (entry_speed b)) as (Hm & He & _ & Hxs).
    assert (Hok2 : forall j, 0 <= j <= d + t -> block_ok (blk q2 j) /\ same_move (blk q j) (blk q2 j) /\ (j <> k + 1 -> entry_speed (blk q2 j) = entry_speed (blk q j))).
    { intros j Hj. rewrite Hb2 by lia. destruct (Z.eqb_spec k j) as [<-|]; [|destruct (Z.eqb_spec (k + 1) j) as [<-|]].
      - split; [apply trapezoid_ok; [by apply Hb|apply Hbo]|]. split; [done|]. by intros _.
      - split; [done|]. split; [done|]. lia.
      - split; [by apply Hb|]. done. }
    destruct (IH q2 (k + 1)) as (q' & Hq & Hs & Hok & Hpr & Hun); [by apply Hs2|lia|lia| | |].
    { intros j Hj. by apply Hok2. }
    { intros j Hj. destruct (Z.eq_dec j k) as [->|Hjk].
      - rewrite !Hb2 by lia. rewrite Z.eqb_refl. destruct (Z.eqb_spec k (k + 1)); [lia|]. rewrite Z.eqb_refl.
        split; [by rewrite trapezoid_exit|]. intros Htk. rewrite Hxs. destruct Hm as (_ & _ & _ & _ & _ & Hm). by rewrite <- Hm, Htk.
      - destruct (Hp j ltac:(lia)) as [Hre Hex].
        assert (Hbj : blk q2 j = blk q j) by (rewrite Hb2 by lia; destruct (Z.eqb_spec k j), (Z.eqb_spec (k + 1) j); try lia; done).
        assert (Hej : entry_speed (blk q2 (j + 1)) = entry_speed (blk q (j + 1))) by (apply Hok2; lia).
        split; rewrite Hbj, Hej; done. }
    assert (Heb : b = blk q2 (k + 1)) by (rewrite Hb2 by lia; destruct (Z.eqb_spec k (k + 1)); [lia|]; by rewrite Z.eqb_refl).
    rewrite Heb. replace (slot q (k + 1)) with (slot q2 (k + 1)) by by apply same_ring_slot. rewrite Hq.
    exists q'. rewrite (same_ring_slot _ _ (d + t) Hs2). split; [done|]. split; [by etransitivity|]. split; [|split].
    + intros j Hj. destruct (Hok j Hj) as [Ho Hm1]. split; [done|]. destruct (Hok2 j Hj) as (_ & Hm2 & _).
      unfold same_move in *. intuition congruence.
    + done.
    + intros j Hj. rewrite Hun by (rewrite (sr_length _ _ Hs2); lia). rewrite Hb2 by lia.
      destruct (Z.eqb_spec k j), (Z.eqb_spec (k + 1) j); try lia; done.
Qed.

(** A planned ring: [d + t] queued blocks and the new one at the head. *)
Lemma recalculate_ok q d t m :
  queue_ok q d t -> nonneg m -> recalculate_flag (blk q (d + t)) = true ->
  (forall j, 0 <= j <= d + t -> block_ok (blk q j)) -> (forall j, 0 <= j < d + t - 1 -> pair_ok (blk q j) (blk q (j + 1))) ->
  exists q', recalculate frequency n_actuators q m = Some q' /\ same_ring q q' /\
    (forall j, 0 <= j <= d + t -> block_ok (blk q' j) /\ same_move (blk q j) (blk q' j)) /\
    (forall j, 0 <= j < d + t -> pair_ok (blk q' j) (blk q' (j + 1))) /\
    (forall j, d + t < j < length q -> blk q' j = blk q j) /\
    (is_ticking (blk q (d + t)) = false -> exit_speed (blk q' (d + t)) = m).
Proof.
  intros H Hm Hrc Hb Hp. pose proof (regions_bound _ _ _ H) as (Hl & Hd & Ht & Hr). unfold recalculate. rewrite (head_slot _ _ _ H).
  assert (exists q1, (if is_empty q then Some (q, slot q (d + t)) else
      '(q0, i) ← reverse_loop (Z.to_nat (length q)) q (slot q (d + t)) m;
      forward_loop frequency n_actuators (Z.to_nat (length q0)) q0 i (max_exit_speed (item q0 i))) = Some (q1, slot q (d + t)) /\ same_ring q q1 /\
    (forall j, 0 <= j <= d + t -> block_ok (blk q1 j) /\ same_move (blk q j) (blk q1 j)) /\
    (forall j, 0 <= j < d + t -> pair_ok (blk q1 j) (blk q1 (j + 1))) /\
    (forall j, d + t < j < length q -> blk q1 j = blk q j)) as (q1 & -> & Hs1 & Hb1 & Hp1 & Hu1).
  { rewrite (is_empty_ok _ _ _ H). destruct (Z.eqb_spec (d + t) 0) as [Hz|Hz].
    - exists q. split; [done|]. split; [done|]. split; [intros j Hj; split; [by apply Hb|done]|]. split; [lia|done].
    - destruct (reverse_loop_ok (Z.to_nat (length q)) q d t (d + t) m H) as (q0 & k0 & -> & Hk0 & Hlt & Hs0 & Hu0 & Hb0); [lia|lia|done|done|].
      cbn [mbind option_bind]. assert (H0 : queue_ok q0 d t) by by apply Hs0.
      replace (slot q k0) with (slot q0 k0) by by apply same_ring_slot. change (item q0 (slot q0 k0)) with (blk q0 k0).
      destruct (forward_loop_ok (Z.to_nat (length q0)) q0 d t k0 H0) as (q1 & -> & Hs1 & Hb1 & Hp1 & Hu1).
      + lia.
      + rewrite (sr_length _ _ Hs0). lia.
      + intros j Hj. by apply Hb0.
      + specialize (Hlt ltac:(lia) Hrc). intros j Hj. rewrite !Hu0 by lia. apply Hp. lia.
      + exists q1. rewrite (same_ring_slot _ _ (d + t) Hs0). split; [done|]. split; [by etransitivity|]. split; [|split].
        * intros j Hj. destruct (Hb1 j Hj) as [Ho Hm1], (Hb0 j Hj) as [_ Hm0]. split; [done|]. unfold same_move in *. intuition congruence.
        * done.
        * intros j Hj. rewrite Hu1, Hu0 by (rewrite ?(sr_length _ _ Hs0); lia). done. }
  cbn [mbind option_bind]. eexists. split; [done|]. set (q2 := set_item q1 _ _).
  assert (Hs2 : same_ring q q2) by (etransitivity; [exact Hs1|apply set_item_ring]). split; [done|].
  assert (H1 : queue_ok q1 d t) by by apply Hs1.
  assert (Hb2 : forall j, 0 <= j < length q -> blk q2 j =
    if d + t =? j then trapezoid (blk q1 j) (entry_speed (blk q1 j)) m else blk q1 j).
  { intros j Hj. unfold q2. replace (slot q (d + t)) with (slot q1 (d + t)) by by apply same_ring_slot.
    by rewrite (blk_set _ _ _ _ _ _ H1) by (rewrite (sr_length _ _ Hs1); lia). }
  clearbody q2. split; [|split; [|split]].
  - intros j Hj. rewrite Hb2 by lia. destruct (Hb1 j Hj) as [Ho Hm1]. destruct (Z.eqb_spec (d + t) j); [|done].
    split; [by apply trapezoid_ok|]. destruct (trapezoid_fields frequency n_actuators (blk q1 j) (entry_speed (blk q1 j)) m) as (Hm2 & _).
    unfold same_move in *. intuition congruence.
  - intros j Hj. rewrite !Hb2 by lia. destruct (Z.eqb_spec (d + t) j); [lia|]. pose proof (Hp1 j Hj) as Hpj.
    destruct (Z.eqb_spec (d + t) (j + 1)); [|done].
    destruct (trapezoid_fields frequency n_actuators (blk q1 (j + 1)) (entry_speed (blk q1 (j + 1))) m) as (_ & He & _).
    destruct Hpj. split; by rewrite He.
  - intros j Hj. rewrite Hb2 by lia. destruct (Z.eqb_spec (d + t) j); [lia|]. by apply Hu1.
  - intros Hk. rewrite Hb2, Z.eqb_refl by lia. destruct (trapezoid_fields frequency n_actuators (blk q1 (d + t)) (entry_speed (blk q1 (d + t))) m) as (_ & _ & _ & ->).
    destruct (Hb1 (d + t) ltac:(lia)) as [_ (_ & _ & _ & _ & _ & ->)]. by rewrite Hk.
Qed.
End Passes.

(** ** What the step interrupt does to a planned ring *)

(** A block may be set running, with its speeds as they are. *)
Definition started (b b' : Block) : Prop :=
  nominal_speed b' = nominal_speed b /\ max_entry_speed b' = max_entry_speed b /\ acceleration b' = acceleration b /\
  millimeters b' = millimeters b /\ nominal_length_flag b' = nominal_length_flag b /\ entry_speed b' = entry_speed b /\
  exit_speed b' = exit_speed b /\
  (is_ticking b' = is_ticking b /\ recalculate_flag b' = recalculate_flag b \/ is_ticking b' = true /\ recalculate_flag b' = false).
#[export] Instance started_preorder : PreOrder started.
Proof. split; [intros b; unfold started; intuition|]. intros b1 b2 b3. unfold started. intuition congruence. Qed.
Lemma started_ok b b' : started b b' -> block_ok b -> block_ok b'.
Proof.
  intros (H1 & H2 & H3 & H4 & H5 & H6 & H7 & H8) []. split; rewrite ?H1, ?H2, ?H3, ?H4, ?H6, ?H7; try done.
  destruct H8 as [[-> ->]|[_ ->]]; done.
Qed.
Lemma started_pair b b' c c' : started b b' -> entry_speed c' = entry_speed c -> pair_ok b c -> pair_ok b' c'.
Proof.
  intros (H1 & H2 & H3 & H4 & H5 & H6 & H7 & H8) He [Hr Hx]. split; rewrite He.
  - destruct H8 as [[Ht _]|[Ht _]].
    + rewrite (max_exit_same b b'); [done| |done|done]. unfold same_move. intuition congruence.
    + unfold max_exit_speed. rewrite Ht, H7. unfold max_exit_speed in Hr. destruct (is_ticking b) eqn:Htb; [done|].
      by rewrite Hx.
  - rewrite H7. destruct H8 as [[Ht _]|[Ht _]]; [by rewrite Ht|]. by rewrite Ht.
Qed.
(** Of [n] planned blocks, some may be set running; nothing else changes. *)
Record evolves (n : Z) (q q' : BlockQueue) : Prop := mk_evolves {
  ev_length : length q' = length q; ev_tail : tail_i q' = tail_i q;
  ev_blk : forall k, 0 <= k < length q -> started (blk q k) (blk q' k) /\ (n <= k -> blk q' k = blk q k)
}.
Lemma evolves_refl n q : evolves n q q.
Proof. split; done. Qed.
Lemma evolves_trans n q1 q2 q3 : evolves n q1 q2 -> evolves n q2 q3 -> evolves n q1 q3.
Proof.
  intros [L1 T1 B1] [L2 T2 B2]. split; [congruence..|]. intros k Hk. destruct (B1 k Hk) as [S1 U1], (B2 k ltac:(lia)) as [S2 U2].
  split; [by etransitivity|]. intros Hn. rewrite U2 by done. by apply U1.
Qed.
Lemma evolves_ring n q q' : ring q' = ring q -> length q' = length q -> tail_i q' = tail_i q -> evolves n q q'.
Proof.
  intros Hr Hl Ht. split; [done..|]. intros k Hk. assert (Hb : blk q' k = blk q k).
  { unfold blk, item, blocks, slot. by rewrite Hr, Hl, Ht. }
  rewrite Hb. done.
Qed.
Lemma evolves_set q d t k f :
  queue_ok q d t -> 0 <= k < d + t -> (forall b, started b (f b)) -> evolves (d + t) q (set_item q (slot q k) f).
Proof.
  intros H Hk Hf. pose proof (regions_bound _ _ _ H). split; [done..|]. intros j Hj. rewrite (blk_set _ _ _ _ _ _ H) by lia.
  destruct (Z.eqb_spec k j); [split; [apply Hf|lia]|]. done.
Qed.

Lemma get_next_block_evolves n_actuators h c c' ob d t :
  conveyor_ok c d t -> continuous_mode c <= 1 -> get_next_block n_actuators h c = Some (c', ob) -> evolves (d + t) (queue c) (queue c').
Proof.
  intros H Hm Hg. destruct (get_next_block_ok n_actuators h _ _ _ H) as (c1 & ob1 & d' & t' & Hg1 & _ & Htl & _ & Hln & Hf & Hob).
  rewrite Hg in Hg1. injection Hg1 as <- <-. destruct ob as [i|].
  - destruct (get_next_block_item _ _ _ _ _ _ _ H Hm Hg) as (-> & ->). rewrite (isr_slot _ _ _ H).
    destruct (Hob _ eq_refl) as (_ & Ht & _ & Hh & _). rewrite Hh, andb_true_r in Hf.
    destruct (flush c); [by destruct Hf as (_ & _ & ?)|]. destruct Hf as [-> ->].
    apply (evolves_set _ d t); [done|pose proof (regions_bound _ _ _ H); lia|]. intros b. unfold started. recs. do 7 (split; [done|]). by right.
  - apply evolves_ring; [|done|done]. unfold get_next_block in Hg. destruct (hold_queue c); [by injection Hg as <-|].
    assert (Hq : forall q, (if flush c then flush_ring (Z.to_nat (length (queue c))) (queue c) else Some (queue c)) = Some q -> ring q = ring (queue c)).
    { destruct (flush c); [|by intros q [= <-]]. pose proof (regions_bound _ _ _ H).
      destruct (flush_ring_spec _ _ _ (Z.to_nat (length (queue c))) H) as (q' & -> & _ & ? & _); [lia|]. by intros q [= <-]. }
    destruct (if flush c then _ else _) as [q|]; [|done]. specialize (Hq q eq_refl). cbn [mbind option_bind] in Hg.
    cbv zeta in Hg. repeat case_match; simplify_eq; done.
Qed.
Lemma block_finished_evolves n c : evolves n (queue c) (queue (block_finished c)).
Proof. unfold block_finished. case_match; [by apply evolves_ring|apply evolves_refl]. Qed.
Lemma start_next_block_evolves n w : evolves n (queue (conveyor w)) (queue (conveyor (fst (start_next_block w)))).
Proof.
  unfold start_next_block. destruct (current_block (ticker w)); [|apply evolves_refl]. cbv zeta.
  destruct (existsb _ _); recs; [apply evolves_refl|apply block_finished_evolves].
Qed.
Lemma fetch_evolves w d t w' found :
  conveyor_ok (conveyor w) d t -> continuous_mode (conveyor w) <= 1 -> fetch w = Some (w', found) ->
  evolves (d + t) (queue (conveyor w)) (queue (conveyor w')).
Proof.
  intros H Hm Hf. unfold fetch in Hf. destruct (get_next_block _ _ _) as [[c ob]|] eqn:Hg; [|done]. cbn [mbind option_bind] in Hf.
  pose proof (get_next_block_evolves _ _ _ _ _ _ _ H Hm Hg) as He. cbv zeta in Hf. destruct ob as [i|]; [|by injection Hf as <- _].
  set (w1 := w <| conveyor := c |> <| ticker := _ |>) in Hf. pose proof (start_next_block_evolves (d + t) w1) as Hs.
  destruct (start_next_block w1) as [w2 r]. cbn [fst] in Hs. injection Hf as <- _. recs. by eapply evolves_trans.
Qed.
Lemma end_of_block_evolves w d t w' :
  conveyor_ok (conveyor w) d t -> 0 < t -> continuous_mode (conveyor w) <= 1 -> end_of_block w = Some w' ->
  evolves (d + t) (queue (conveyor w)) (queue (conveyor w')).
Proof.
  intros H Ht Hm He. unfold end_of_block in He. cbv zeta in He. set (w1 := _ <| conveyor := block_finished _ |>) in He.
  assert (H1 : conveyor_ok (conveyor w1) (d + 1) (t - 1)) by (unfold w1; recs; by apply block_finished_ok).
  assert (Hc1 : continuous_mode (conveyor w1) <= 1) by (unfold w1, block_finished; recs; by case_match).
  destruct (fetch w1) as [[w2 found]|] eqn:Hf; [|done]. cbn [mbind option_bind] in He.
  pose proof (fetch_evolves _ _ _ _ _ H1 Hc1 Hf) as H2. replace (d + 1 + (t - 1)) with (d + t) in H2 by lia.
  assert (Hw : conveyor w' = conveyor w2) by (injection He as <-; by destruct found).
  rewrite Hw. eapply evolves_trans; [|exact H2]. exact (block_finished_evolves _ _).
Qed.
Lemma run_block_evolves w d t w' :
  conveyor_ok (conveyor w) d t -> continuous_mode (conveyor w) <= 1 -> ticker_ok w t -> ticking (ticker w) = true ->
  run_block w = Some w' -> evolves (d + t) (queue (conveyor w)) (queue (conveyor w')).
Proof.
  intros H Hm Hk Htk Hr. destruct (Hk Htk) as (Ht & Hb & _). unfold run_block in Hr.
  destruct (halted w); [injection Hr as <-; apply evolves_refl|]. rewrite Hb in Hr. cbv zeta in Hr.
  destruct (tick_motors _ _ _ _) as [[[ts ms] bits] still].
  set (w1 := _ <| ticker := (ticker _) <| current_tick := _ |> <| unstep_bits := _ |> |>) in Hr.
  assert (H1 : conveyor_ok (conveyor w1) d t) by (unfold w1; recs; by apply set_item_ok).
  assert (He : evolves (d + t) (queue (conveyor w)) (queue (conveyor w1))).
  { unfold w1. recs. rewrite (isr_slot _ _ _ H). pose proof (regions_bound _ _ _ H).
    apply (evolves_set _ d t); [done|lia|]. intros b. unfold started. recs. do 7 (split; [done|]). by left. }
  destruct still; [by injection Hr as <-|].
  eapply evolves_trans; [exact He|]. apply (end_of_block_evolves w1); [done|done|unfold w1; by recs|done].
Qed.
Lemma step_tick_evolves w d t w' :
  conveyor_ok (conveyor w) d t -> continuous_mode (conveyor w) <= 1 -> ticker_ok w t ->
  step_tick w = Some w' -> evolves (d + t) (queue (conveyor w)) (queue (conveyor w')).
Proof.
  intros H Hm Hk Hs. unfold step_tick in Hs. destruct (ticking (ticker w)) eqn:Htk; [by apply (run_block_evolves w)|].
  destruct (fetch_moves w d t H Hm) as (w1 & found & d1 & t1 & Hf & [] & Hk1 & _). rewrite Hf in Hs. cbn [mbind option_bind] in Hs.
  pose proof (fetch_evolves _ _ _ _ _ H Hm Hf) as He. destruct (found && ticking (ticker w1)) eqn:Hgo; [|by injection Hs as <-].
  apply andb_true_iff in Hgo as [-> Htk1]. eapply evolves_trans; [exact He|]. rewrite <- mv_sum.
  apply (run_block_evolves w1); try done; [lia|by apply Hk1].
Qed.

(** ** A new block *)
(** How fast the second of two blocks may be entered, whatever their angle: no faster
    than either is to run, but for the planner's lowest speed. *)
Definition junction_ok (lowest : Z) (b b' : Block) : Prop :=
  key (max_entry_speed b') <= Z.max (key lowest) (Z.min (key (nominal_speed b)) (key (nominal_speed b'))).
Lemma junction_same lowest b b' c c' : junction_ok lowest b c ->
  nominal_speed b' = nominal_speed b -> nominal_speed c' = nominal_speed c -> max_entry_speed c' = max_entry_speed c -> junction_ok lowest b' c'.
Proof. unfold junction_ok. congruence. Qed.
(** [n] planned blocks from the tail; the others are clean. *)
Record plan_ok (lowest : Z) (q : BlockQueue) (n : Z) : Prop := mk_plan_ok {
  pn_blocks : forall k, 0 <= k < n -> block_ok (blk q k);
  pn_pairs : forall k, 0 <= k -> k + 1 < n -> pair_ok (blk q k) (blk q (k + 1));
  pn_junctions : forall k, 0 <= k -> k + 1 < n -> junction_ok lowest (blk q k) (blk q (k + 1));
  pn_free : forall k, n <= k < length q -> is_ticking (blk q k) = false /\ nonneg (exit_speed (blk q k))
}.
Lemma plan_evolves lowest q q' n : 0 <= n -> n <= length q -> evolves n q q' -> plan_ok lowest q n -> plan_ok lowest q' n.
Proof.
  intros Hn Hl [Hle Ht Hb] [Hbl Hp Hj Hf]. split.
  - intros k Hk. eapply started_ok; [apply (Hb k); lia|]. by apply Hbl.
  - intros k Hk Hk1. destruct (Hb k ltac:(lia)) as [Hs _], (Hb (k + 1) ltac:(lia)) as [(_ & _ & _ & _ & _ & He & _) _].
    eapply started_pair; [exact Hs|exact He|]. by apply Hp.
  - intros k Hk Hk1. destruct (Hb k ltac:(lia)) as [(Hn0 & _) _], (Hb (k + 1) ltac:(lia)) as [(Hn1 & Hm1 & _) _].
    eapply junction_same; [by apply Hj|done..].
  - intros k Hk. rewrite Hle in Hk. destruct (Hb k ltac:(lia)) as [_ Hu]. rewrite Hu by lia. apply Hf. lia.
Qed.
(** A change of the head block. *)
Lemma blk_head q d t f j :
  queue_ok q d t -> 0 <= j < length q ->
  blk (set_item q (head_ref q) f) j = if d + t =? j then f (blk q j) else blk q j.
Proof.
  intros H Hj. pose proof (regions_bound _ _ _ H). unfold head_ref. rewrite (head_slot _ _ _ H). apply (blk_set _ d t); [done|lia|done].
Qed.

(** What [Robot] hands over: a positive distance, and no negative speed. *)
Definition move_ok (m : move) : Prop := nonneg (mv_rate m) /\ nonneg (mv_acceleration m) /\ 0 < mv_distance m < f_inf.

Section Append.
Context (frequency : Z) (n_actuators n_primary : nat).
Lemma junction_nonneg p q b deviation a u :
  nonneg (minimum_planner_speed p) -> nonneg (nominal_speed b) ->
  (is_empty q = false -> nonneg (nominal_speed (item q (prev q (head_i q))))) ->
  nonneg (junction_speed n_primary p q b deviation a u).
Proof.
  intros Hm Hb Hp. unfold junction_speed. destruct u as [u|]; [|done]. destruct (is_empty q); [done|]. specialize (Hp eq_refl).
  cbv zeta. destruct (_ && _); [|done]. destruct (fle _ _); [|done].
  assert (Hv : nonneg (fmin (if primary_axis (item q (prev q (head_i q))) then nominal_speed (item q (prev q (head_i q))) else f0) (nominal_speed b))).
  { apply fmin_nonneg; [|by right]. case_match; [done|]. right. unfold f0, f_inf. lia. }
  destruct (fle _ _); [|done]. apply fmin_nonneg; [done|apply fsqrt_cases].
Qed.
(** The speed of a junction: the slower of the two blocks' at most, or the lowest. *)
Lemma junction_bound p q b deviation a u :
  nonneg (nominal_speed b) -> nonneg (nominal_speed (item q (prev q (head_i q)))) ->
  key (junction_speed n_primary p q b deviation a u) <=
  Z.max (key (minimum_planner_speed p)) (Z.min (key (nominal_speed (item q (prev q (head_i q))))) (key (nominal_speed b))).
Proof.
  intros Hb Hp. unfold junction_speed. destruct u as [u|]; [|lia]. destruct (is_empty q); [lia|]. cbv zeta.
  set (pb := item q (prev q (head_i q))) in *. clearbody pb. destruct (primary_axis pb); [|change (flt f0 f0) with false; rewrite andb_false_r; lia].
  destruct (flt f0 deviation && flt f0 (nominal_speed pb)); [|lia]. destruct (fle _ f_0_9999); [|lia].
  assert (Hv : key (fmin (nominal_speed pb) (nominal_speed b)) = Z.min (key (nominal_speed pb)) (key (nominal_speed b))) by by apply fmin_key.
  destruct (fle _ _); [|lia]. pose proof (fmin_below (fmin (nominal_speed pb) (nominal_speed b)) (fsqrt (fdiv (fmul (fmul a deviation) (fsqrt (fmul f_half (fsub f1 (cosine n_primary (previous_unit_vec p) u)))))
    (fsub f1 (fsqrt (fmul f_half (fsub f1 (cosine n_primary (previous_unit_vec p) u)))))))). lia.
Qed.
Lemma fill_sizes_fields p b m :
  flt f0 (mv_distance m) = true ->
  let b' := fst (fill_sizes n_primary p b m) in
  is_ticking b' = is_ticking b /\ exit_speed b' = exit_speed b /\ nominal_speed b' = mv_rate m /\ acceleration b' = mv_acceleration m /\
  millimeters b' = mv_distance m.
Proof. intros Hlt. cbv zeta. unfold fill_sizes. rewrite Hlt. destruct b, (choose_deviation _ _ _). repeat split. Qed.
Lemma fill_speeds_ok p q b deviation m :
  nonneg (minimum_planner_speed p) -> nonneg (mv_acceleration m) -> acceleration b = mv_acceleration m -> 0 < millimeters b < f_inf ->
  nonneg (nominal_speed b) -> is_ticking b = false -> nonneg (exit_speed b) ->
  (is_empty q = false -> nonneg (nominal_speed (item q (prev q (head_i q))))) ->
  let b' := fill_speeds n_primary p q b deviation m in block_ok b' /\ recalculate_flag b' = true /\ is_ticking b' = false.
Proof.
  intros Hp Ha Hab Hl Hn Ht Hx Hq. unfold fill_speeds. cbv zeta.
  set (v := junction_speed _ _ _ _ _ _ _). assert (Hv : nonneg v) by by apply junction_nonneg. clearbody v.
  recs. set (w := max_allowable_speed _ _ _). assert (Hw : nonneg w) by by apply max_allowable_nonneg. clearbody w.
  split; [|done]. split; recs; rewrite ?Hab, ?Ht; try done; [apply fmin_nonneg; [done|by right]|].
  rewrite fmin_key by done. lia.
Qed.
Lemma positive_distance x : 0 < x < f_inf -> flt f0 x = true.
Proof.
  unfold f_inf. intros Hx. rewrite flt_nonneg by (right; unfold f_inf, f0; lia). rewrite !nonneg_key by (right; unfold f_inf, f0; lia).
  destruct (Z.eqb_spec x (2 ^ 31)); [lia|]. change (if f0 =? 2 ^ 31 then 0 else f0) with 0. apply Z.ltb_lt. lia.
Qed.
Lemma fill_block_ok p q b m :
  nonneg (minimum_planner_speed p) -> move_ok m -> is_ticking b = false -> nonneg (exit_speed b) ->
  (is_empty q = false -> nonneg (nominal_speed (item q (prev q (head_i q))))) ->
  let b' := fill_block n_primary p q b m in
  block_ok b' /\ recalculate_flag b' = true /\ is_ticking b' = false.
Proof.
  intros Hp (Hr & Ha & Hd) Ht Hx Hq. cbv zeta. unfold fill_block.
  destruct (fill_sizes_fields p b m (positive_distance _ Hd)) as (H1 & H2 & H3 & H4 & H5).
  destruct (fill_sizes n_primary p b m) as [b1 dev]. cbn [fst] in *. apply fill_speeds_ok; congruence || by rewrite ?H1, ?H2, ?H3, ?H5.
Qed.
(** The new block's junction with the one before it. *)
Lemma fill_block_junction p q b m :
  move_ok m -> nonneg (nominal_speed (item q (prev q (head_i q)))) ->
  junction_ok (minimum_planner_speed p) (item q (prev q (head_i q))) (fill_block n_primary p q b m).
Proof.
  intros (Hr & Ha & Hd) Hq. unfold fill_block. destruct (fill_sizes_fields p b m (positive_distance _ Hd)) as (_ & _ & Hn & _).
  destruct (fill_sizes n_primary p b m) as [b1 dev]. cbn [fst] in Hn.
  assert (Hb1 : nonneg (nominal_speed b1)) by by rewrite Hn. pose proof (junction_bound p q b1 dev (mv_acceleration m) (mv_unit_vec m) Hb1 Hq) as Hj.
  unfold fill_speeds. cbv zeta. set (v := junction_speed _ _ _ _ _ _ _) in *. clearbody v. set (prev_block := item q _) in *. clearbody prev_block.
  set (w := max_allowable_speed _ _ _). clearbody w. destruct b1. exact Hj.
Qed.

Lemma plan_ok_ready lowest q d t :
  queue_ok q d t -> plan_ok lowest q (d + t + 1) -> plan_ok lowest (set_item q (head_ref q) ready) (d + t + 1).
Proof.
  intros H Hp. pose proof (regions_bound _ _ _ H). apply (plan_evolves _ q); [lia|lia| |done]. split; [done..|]. intros k Hk.
  rewrite (blk_head _ _ _ _ _ H) by done. destruct (Z.eqb_spec (d + t) k); [|done]. split; [|lia].
  unfold started, ready. recs. do 7 (split; [done|]). by left.
Qed.
(** The head block given up. *)
Lemma plan_ok_clear lowest q d t n :
  queue_ok q d t -> n = d + t \/ n = d + t + 1 -> plan_ok lowest q n -> plan_ok lowest (set_item q (head_ref q) (clear n_actuators)) (d + t).
Proof.
  intros H Hn []. pose proof (regions_bound _ _ _ H). set (q' := set_item _ _ _).
  assert (Hb : forall k, 0 <= k < length q -> blk q' k = if d + t =? k then clear n_actuators (blk q k) else blk q k)
    by (intros; unfold q'; by rewrite (blk_head _ _ _ _ _ H)).
  split.
  - intros k Hk. rewrite Hb by lia. destruct (Z.eqb_spec (d + t) k); [lia|]. apply pn_blocks0. lia.
  - intros k Hk Hk1. rewrite !Hb by lia. destruct (Z.eqb_spec (d + t) k), (Z.eqb_spec (d + t) (k + 1)); try lia. apply pn_pairs0; lia.
  - intros k Hk Hk1. rewrite !Hb by lia. destruct (Z.eqb_spec (d + t) k), (Z.eqb_spec (d + t) (k + 1)); try lia. apply pn_junctions0; lia.
  - intros k Hk. change (length q') with (length q) in Hk. rewrite Hb by lia. destruct (Z.eqb_spec (d + t) k).
    + split; [done|]. right. unfold clear, f0, f_inf. cbn. lia.
    + apply pn_free0. lia.
Qed.

(** The planner leaves the ring planned, with the new block or without it. *)
Lemma append_block_ok p c ms m d t :
  conveyor_ok c d t -> plan_ok (minimum_planner_speed p) (queue c) (d + t) -> nonneg (minimum_planner_speed p) -> move_ok m ->
  exists p' c' ms' r, append_block frequency n_actuators n_primary p c ms m = Some (p', c', ms', r) /\
    minimum_planner_speed p' = minimum_planner_speed p /\ same_ring (queue c) (queue c') /\ List.length ms' = List.length ms /\
    c' = c <| queue := queue c' |> /\ (forall k, 0 <= k < d + t -> is_ticking (blk (queue c') k) = is_ticking (blk (queue c) k)) /\
    plan_ok (minimum_planner_speed p) (queue c') (d + t + match r with inl _ => 0 | inr _ => 1 end) /\
    match r with inl _ => True | inr _ => exit_speed (blk (queue c') (d + t)) = minimum_planner_speed p end.
Proof.
  intros H Hp Hm Hmv. pose proof (regions_bound _ _ _ H). unfold append_block.
  destruct (motion_abort_requested c); [exists p, c, ms, (inl false); rewrite Z.add_0_r; by destruct c|]. cbv zeta.
  assert (Hlm : List.length (update_motors ms (mv_pos m)) = List.length ms) by (unfold update_motors; by rewrite length_imap).
  set (q1 := set_item (queue c) _ _). assert (Hs1 : same_ring (queue c) q1) by apply set_item_ring.
  assert (H1 : queue_ok q1 d t) by by apply Hs1.
  assert (Hb1 : forall k, 0 <= k < length (queue c) -> started (blk (queue c) k) (blk q1 k)).
  { intros k Hk. unfold q1. rewrite (blk_head _ _ _ _ _ H) by done. destruct (_ =? _); [|done].
    unfold started, set_steps. recs. do 7 (split; [done|]). by left. }
  assert (Hu1 : forall k, 0 <= k < length (queue c) -> k <> d + t -> blk q1 k = blk (queue c) k).
  { intros k Hk Hn. unfold q1. rewrite (blk_head _ _ _ _ _ H) by done. by destruct (Z.eqb_spec (d + t) k). }
  assert (Hp1 : plan_ok (minimum_planner_speed p) q1 (d + t)).
  { destruct Hp. split.
    - intros k Hk. rewrite Hu1 by lia. by apply pn_blocks0.
    - intros k Hk Hk1. rewrite !Hu1 by lia. by apply pn_pairs0.
    - intros k Hk Hk1. rewrite !Hu1 by lia. by apply pn_junctions0.
    - intros k Hk. change (length q1) with (length (queue c)) in Hk. destruct (pn_free0 k Hk) as [Hf1 Hf2].
      destruct (Hb1 k ltac:(lia)) as (_ & _ & _ & _ & _ & _ & Hx & _). rewrite Hx. split; [|done].
      unfold q1. rewrite (blk_head _ _ _ _ _ H) by lia. by destruct (_ =? _). }
  clearbody q1. destruct (negb (existsb _ _)).
  - eexists p, _, _, (inl true). split; [done|]. recs. rewrite Z.add_0_r. split; [done|]. split; [etransitivity; [exact Hs1|apply set_item_ring]|].
    do 2 (split; [done|]). split; [|split; [apply (plan_ok_clear _ q1 d t (d + t)); [done|by left|done]|done]].
    intros k Hk. rewrite (blk_head _ _ _ _ _ H1) by (rewrite (sr_length _ _ Hs1); lia). destruct (Z.eqb_spec (d + t) k); [lia|]. by rewrite Hu1 by lia.
  - set (q2 := set_item q1 _ _). assert (Hs2 : same_ring q1 q2) by apply set_item_ring. assert (H2 : queue_ok q2 d t) by by apply Hs2.
    assert (Hb2 : forall k, 0 <= k < length q1 -> blk q2 k = if d + t =? k then fill_block n_primary p q1 (blk q1 k) m else blk q1 k)
      by (intros; unfold q2; by rewrite (blk_head _ _ _ _ _ H1)).
    pose proof (sr_length _ _ Hs1) as Hl1. destruct (pn_free _ _ _ Hp1 (d + t) ltac:(lia)) as [Hft Hfx].
    destruct (fill_block_ok p q1 (blk q1 (d + t)) m Hm Hmv Hft Hfx) as (Hfo & Hfr & Hfk).
    { intros He. rewrite (is_empty_ok _ _ _ H1) in He. apply Z.eqb_neq in He. rewrite (head_slot _ _ _ H1), (slot_prev _ _ _ _ H1).
      apply (pn_blocks _ _ _ Hp1 (d + t - 1)). lia. }
    clearbody q2. recs.
    destruct (recalculate_ok frequency n_actuators q2 d t (minimum_planner_speed p) H2 Hm) as (q3 & -> & Hs3 & Hb3 & Hp3 & Hu3 & Hx3).
    + by rewrite Hb2, Z.eqb_refl by lia.
    + intros k Hk. rewrite Hb2 by lia. destruct (Z.eqb_spec (d + t) k) as [<-|]; [done|]. apply Hp1. lia.
    + intros k Hk. rewrite !Hb2 by lia. destruct (Z.eqb_spec (d + t) k), (Z.eqb_spec (d + t) (k + 1)); try lia. apply Hp1; lia.
    + cbn [mbind option_bind]. eexists _, _, _, (inr tt). split; [done|]. recs. split; [done|].
      split; [etransitivity; [exact Hs1|]; etransitivity; [exact Hs2|]; etransitivity; [exact Hs3|apply set_item_ring]|].
      do 2 (split; [done|]). pose proof (sr_length _ _ Hs2) as Hl2. pose proof (sr_length _ _ Hs3) as Hl3.
      assert (H3 : queue_ok q3 d t) by by apply Hs3. split.
      { intros k Hk. rewrite (blk_head _ _ _ _ _ H3) by lia. destruct (Z.eqb_spec (d + t) k); [lia|].
        destruct (Hb3 k ltac:(lia)) as [_ (_ & _ & _ & _ & _ & ->)]. rewrite Hb2 by lia. destruct (Z.eqb_spec (d + t) k); [lia|]. by rewrite Hu1 by lia. }
      split; [apply (plan_ok_ready _ q3 d t); [done|]; split|].
      * intros k Hk. apply Hb3. lia.
      * intros k Hk Hk1. apply Hp3. lia.
      * intros k Hk Hk1. destruct (Hb3 k ltac:(lia)) as [_ (Hn0 & _)], (Hb3 (k + 1) ltac:(lia)) as [_ (Hn1 & Hm1 & _)].
        apply (junction_same _ (blk q2 k) _ (blk q2 (k + 1))); try done. rewrite !Hb2 by lia.
        destruct (Z.eqb_spec (d + t) k), (Z.eqb_spec (d + t) (k + 1)) as [Ek|]; try lia; [|apply (pn_junctions _ _ _ Hp1); lia].
        assert (Hprev : blk q1 k = item q1 (prev q1 (head_i q1))) by (rewrite (head_slot _ _ _ H1), (slot_prev _ _ _ _ H1); unfold blk; do 2 f_equal; lia).
        rewrite Hprev. apply fill_block_junction; [done|]. rewrite <- Hprev. apply (pn_blocks _ _ _ Hp1). lia.
      * intros k Hk. rewrite Hu3, Hb2 by lia. destruct (Z.eqb_spec (d + t) k); [lia|]. apply Hp1. lia.
      * rewrite (blk_head _ _ _ _ _ H3), Z.eqb_refl by lia. unfold ready. recs. apply Hx3. by rewrite Hb2, Z.eqb_refl by lia.
Qed.

(** ** Planner, idle loop and step interrupt

    Planning is taken as one step here (what may happen when the interrupt comes
    in its middle is in [Motion]). A block that is planned waits for room, with
    the idle loop and the interrupt going on. *)
Record planning := mk_planning { pl_mach : machine; pl_planner : Planner; pending : bool }.
Abbreviation cv s := (conveyor (pl_mach s)).
Inductive planner_step (s : planning) : planning -> Prop :=
| plans m p' c' ms' r :
    pending s = false -> move_ok m ->
    append_block frequency n_actuators n_primary (pl_planner s) (cv s) (motors (pl_mach s)) m = Some (p', c', ms', r) ->
    planner_step s (mk_planning ((pl_mach s) <| conveyor := c' |> <| motors := ms' |>) p' (match r with inl _ => false | inr _ => true end))
| queues c' ms' pushed :
    pending s = true -> waits_for_room (halted (pl_mach s)) (cv s) = false ->
    push_head_block n_actuators (halted (pl_mach s)) (cv s) (motors (pl_mach s)) = (c', ms', pushed) ->
    planner_step s (mk_planning ((pl_mach s) <| conveyor := c' |> <| motors := ms' |>) (pl_planner s) false)
| idles now : planner_step s (mk_planning ((pl_mach s) <| conveyor := on_idle n_actuators now (cv s) |>) (pl_planner s) (pending s))
| ticks w : step_tick (pl_mach s) = Some w -> planner_step s (mk_planning w (pl_planner s) (pending s))
| sets_flags c' ms' h :
    queue c' = queue (cv s) -> continuous_mode c' <= 1 -> List.length ms' = List.length (motors (pl_mach s)) ->
    planner_step s (mk_planning ((pl_mach s) <| conveyor := c' |> <| motors := ms' |> <| halted := h |>) (pl_planner s) (pending s))
| resets_planner : planner_step s (mk_planning (pl_mach s) (reset_after_abort n_primary (pl_planner s)) (pending s)).

Record planning_inv (s : planning) (d t : Z) : Prop := mk_planning_inv {
  pi_queue : conveyor_ok (cv s) d t;
  pi_plan : plan_ok (minimum_planner_speed (pl_planner s)) (queue (cv s)) (d + t + Z.b2z (pending s));
  pi_stop : pending s = true -> exit_speed (blk (queue (cv s)) (d + t)) = minimum_planner_speed (pl_planner s);
  pi_room : d + t + Z.b2z (pending s) <= length (queue (cv s));
  pi_mode : continuous_mode (cv s) <= 1;
  pi_ticker : ticker_ok (pl_mach s) t;
  pi_speed : nonneg (minimum_planner_speed (pl_planner s))
}.

(** The idle loop takes the oldest block away, if it has run. *)
Lemma idle_blk now c d t (shift := d - Z.max 0 (d - 1)) :
  conveyor_ok c d t -> let q' := queue (on_idle n_actuators now c) in
  length q' = length (queue c) /\
  (forall k, 0 <= k -> k + shift < length (queue c) -> blk q' k = blk (queue c) (k + shift)) /\
  (0 < d -> blk q' (length (queue c) - 1) = clear n_actuators (blk (queue c) 0)).
Proof.
  intros H. unfold on_idle. set (c1 := if running c then _ else _).
  assert (Hq : queue c1 = queue c) by (unfold c1, check_queue; by repeat case_match). clearbody c1. rewrite <- Hq in *. subst shift.
  pose proof (regions_bound _ _ _ H). unfold may_collect. rewrite (nothing_to_clean _ _ _ H).
  destruct (Z.eqb_spec d 0) as [->|Hd]; cbn [negb].
  { split; [done|]. split; [|lia]. intros k Hk Hl. by rewrite Z.add_0_r. }
  replace (d - Z.max 0 (d - 1)) with 1 by lia.
  unfold clear_tail, consume. rewrite (is_empty_ok _ _ _ H). destruct (Z.eqb_spec (d + t) 0); [lia|].
  set (q1 := set_item (queue c1) (tail_ref (queue c1)) (clear n_actuators)).
  assert (H1 : queue_ok q1 d t) by by apply set_item_ok.
  assert (Hb : forall k, 0 <= k < length (queue c1) -> blk q1 k = if 0 =? k then clear n_actuators (blk (queue c1) k) else blk (queue c1) k).
  { intros k Hk. unfold q1, tail_ref. rewrite (tail_slot _ _ _ H). by apply (blk_set _ d t); [|lia|]. }
  destruct (consume_tail_ok _ _ _ H1 ltac:(lia)) as [H2 Ht2]. set (q2 := consume_tail q1) in *. cbv zeta. recs. fold q1. change (consume_tail q1) with q2.
  assert (Hl : length q2 = length (queue c1) /\ ring q2 = ring q1) by (unfold q2, consume_tail; by case_match). destruct Hl as [Hl Hrg].
  assert (Hs : forall k, blk q2 k = blk q1 (k + 1)).
  { intros k. unfold blk, item, blocks. rewrite Hrg. do 2 f_equal. unfold slot. rewrite Ht2, Hl. unfold slot.
    change (length q1) with (length (queue c1)). rewrite Zplus_mod_idemp_l. f_equal. lia. }
  clearbody q2. split; [done|]. split.
  - intros k Hk Hlt. rewrite Hs, Hb by lia. by destruct (Z.eqb_spec 0 (k + 1)); [lia|].
  - intros _. rewrite Hs. assert (Hw : blk q1 (length (queue c1) - 1 + 1) = blk q1 0).
    { unfold blk, slot. change (length q1) with (length (queue c1)). rewrite Z.sub_add, Z.add_0_r.
      rewrite <- Zplus_mod_idemp_r, Z_mod_same_full. by rewrite Z.add_0_r. }
    by rewrite Hw, Hb by lia.
Qed.
Lemma idle_plan lowest now c d t n :
  conveyor_ok c d t -> d + t <= n <= length (queue c) -> plan_ok lowest (queue c) n ->
  plan_ok lowest (queue (on_idle n_actuators now c)) (n - (d - Z.max 0 (d - 1))).
Proof.
  intros H Hn []. pose proof (regions_bound _ _ _ H). destruct (idle_blk now _ _ _ H) as (Hl & Hb & Hc). split.
  - intros k Hk. rewrite Hb by lia. apply pn_blocks0. lia.
  - intros k Hk Hk1. rewrite !Hb by lia. rewrite <- Z.add_assoc, (Z.add_comm 1), Z.add_assoc. apply pn_pairs0; lia.
  - intros k Hk Hk1. rewrite !Hb by lia. rewrite <- Z.add_assoc, (Z.add_comm 1), Z.add_assoc. apply pn_junctions0; lia.
  - intros k Hk. rewrite Hl in Hk. destruct (Z.lt_ge_cases (k + (d - Z.max 0 (d - 1))) (length (queue c))) as [Hlt|Hge].
    + rewrite Hb by lia. apply pn_free0. lia.
    + assert (k = length (queue c) - 1) as -> by lia. rewrite Hc by lia. split; [done|]. right. unfold clear, f0, f_inf. cbn. lia.
Qed.

Lemma ticker_keeps w w' d t t' :
  ticker_ok w t -> conveyor_ok (conveyor w) d t -> ticker w' = ticker w -> t <= t' ->
  isr_tail_i (queue (conveyor w')) = isr_tail_i (queue (conveyor w)) ->
  (0 < t -> is_ticking (item (queue (conveyor w')) (isr_tail_i (queue (conveyor w)))) = is_ticking (item (queue (conveyor w)) (isr_tail_i (queue (conveyor w))))) ->
  ticker_ok w' t'.
Proof.
  intros Hk H Hw Ht Hi Hb. unfold ticker_ok in *. rewrite Hw, Hi. intros Hx. destruct (Hk Hx) as (H1 & H2 & H3).
  split; [lia|]. split; [done|]. by rewrite Hb.
Qed.
Lemma idle_ticker w d t now :
  conveyor_ok (conveyor w) d t -> ticker_ok w t -> ticker_ok (w <| conveyor := on_idle n_actuators now (conveyor w) |>) t.
Proof.
  intros H Hk. pose proof (regions_bound _ _ _ H). apply (ticker_keeps w _ d t); try done; recs; unfold on_idle.
  - set (c1 := if running (conveyor w) then _ else _).
    assert (Hq : queue c1 = queue (conveyor w)) by (unfold c1, check_queue; by repeat case_match). clearbody c1.
    case_match; [|by rewrite Hq]. unfold consume, consume_tail, clear_tail. recs. repeat case_match; recs; by rewrite Hq.
  - intros Ht. set (c1 := if running (conveyor w) then _ else _).
    assert (Hq : queue c1 = queue (conveyor w)) by (unfold c1, check_queue; by repeat case_match). clearbody c1. rewrite <- Hq in *.
    unfold may_collect. rewrite (nothing_to_clean _ _ _ H). destruct (Z.eqb_spec d 0) as [->|Hd]; cbn [negb]; [done|].
    unfold clear_tail, consume. rewrite (is_empty_ok _ _ _ H). destruct (Z.eqb_spec (d + t) 0); [lia|].
    recs. set (q1 := set_item (queue c1) (tail_ref (queue c1)) _).
    assert (Hi : forall i, item (consume_tail q1) i = item q1 i) by (intros; unfold consume_tail; by case_match).
    rewrite Hi. unfold q1, tail_ref. rewrite (isr_slot _ _ _ H), (tail_slot _ _ _ H).
    pose proof (slot_range _ _ _ H 0). pose proof (slot_range _ _ _ H d).
    rewrite item_set_item_ne; [done|lia|lia|]. intros He. apply (slot_inj _ _ _ H) in He; lia.
Qed.

Ltac sys := cbn [pl_mach pl_planner pending]; recs.
(** Every kind of step keeps the invariant. *)
Lemma plans_inv s d t m p' c' ms' r : planning_inv s d t -> pending s = false -> move_ok m ->
  append_block frequency n_actuators n_primary (pl_planner s) (cv s) (motors (pl_mach s)) m = Some (p', c', ms', r) ->
  planning_inv (mk_planning ((pl_mach s) <| conveyor := c' |> <| motors := ms' |>) p' (match r with inl _ => false | inr _ => true end)) d t.
Proof.
  intros [Hq Hp _ Hrm Hm Hk Hs] Hpe Hmv Ha. pose proof (regions_bound _ _ _ Hq) as (Hl & Hd & Ht & Hr).
  rewrite Hpe in *. cbn [Z.b2z] in *. rewrite Z.add_0_r in Hp.
  destruct (append_block_ok _ _ (motors (pl_mach s)) m _ _ Hq Hp Hs Hmv) as (p1 & c1 & ms1 & r1 & Ha1 & Hms & Hring & _ & Hc & Htk & Hpl & Hst).
  rewrite Ha in Ha1. injection Ha1 as <- <- <- <-. split; sys.
  - by apply Hring.
  - rewrite Hms. by destruct r.
  - rewrite Hms. by destruct r.
  - rewrite (sr_length _ _ Hring). destruct r; cbn [Z.b2z]; lia.
  - by rewrite Hc.
  - apply (ticker_keeps (pl_mach s) _ d t); try done; sys; [apply (sr_isr _ _ Hring)|]. intros H0.
    rewrite (isr_slot _ _ _ Hq). specialize (Htk d ltac:(lia)). unfold blk in Htk. by rewrite (same_ring_slot _ _ d Hring) in Htk.
  - by rewrite Hms.
Qed.
Lemma queues_inv s d t c' ms' pushed : planning_inv s d t -> pending s = true -> waits_for_room (halted (pl_mach s)) (cv s) = false ->
  push_head_block n_actuators (halted (pl_mach s)) (cv s) (motors (pl_mach s)) = (c', ms', pushed) ->
  exists t', planning_inv (mk_planning ((pl_mach s) <| conveyor := c' |> <| motors := ms' |>) (pl_planner s) false) d t'.
Proof.
  intros [Hq Hp _ Hrm Hm Hk Hs] Hpe Hw Hpush. pose proof (regions_bound _ _ _ Hq) as (Hl & Hd & Ht & Hr).
  rewrite Hpe in *. cbn [Z.b2z] in *. unfold push_head_block, waits_for_room in *.
  destruct (halted (pl_mach s) || motion_abort_requested (cv s)) eqn:Hstop; injection Hpush as <- <- <-.
  - exists t. split; sys; cbn [Z.b2z]; rewrite ?Z.add_0_r; try done.
    + by apply set_item_ok.
    + by apply (plan_ok_clear _ _ d t (d + t + 1)); [|right|].
    + change (length (set_item ?q ?i ?f)) with (length q). lia.
    + apply (ticker_keeps (pl_mach s) _ d t); try done; sys. intros H0. unfold head_ref. rewrite (isr_slot _ _ _ Hq), (head_slot _ _ _ Hq).
      pose proof (slot_range _ _ _ Hq d). pose proof (slot_range _ _ _ Hq (d + t)).
      rewrite item_set_item_ne; [done|lia|lia|]. intros He. apply (slot_inj _ _ _ Hq) in He; lia.
  - apply orb_false_iff in Hstop as [Hh Hab]. rewrite Hh, Hab, !andb_true_r in Hw.
    exists (t + 1). split; sys; cbn [Z.b2z]; rewrite ?Z.add_0_r; try done.
    + by apply produce_head_ok.
    + rewrite Z.add_assoc. by apply (plan_evolves _ (queue (cv s))); [lia|lia|apply evolves_ring|].
    + change (length (produce_head ?q)) with (length q). lia.
    + apply (ticker_keeps (pl_mach s) _ d t); try done; sys. lia.
Qed.
Lemma idles_inv s d t now : planning_inv s d t ->
  planning_inv (mk_planning ((pl_mach s) <| conveyor := on_idle n_actuators now (cv s) |>) (pl_planner s) (pending s)) (Z.max 0 (d - 1)) t.
Proof.
  intros [Hq Hp Hx Hrm Hm Hk Hs]. pose proof (regions_bound _ _ _ Hq) as (Hl & Hd & Ht & Hr). pose proof (on_idle_cleans n_actuators now _ _ _ Hq) as Hq'.
  destruct (idle_blk now _ _ _ Hq) as (Hln & Hb & _).
  assert (Hmd : continuous_mode (on_idle n_actuators now (cv s)) = continuous_mode (cv s)).
  { unfold on_idle, check_queue, may_collect, consume, clear_tail, consume_tail. repeat case_match; done. }
  split; sys; [done| | |rewrite Hln; destruct (pending s); cbn [Z.b2z] in *; lia|by rewrite Hmd|by apply (idle_ticker _ d)|done].
  - replace (Z.max 0 (d - 1) + t + Z.b2z (pending s)) with (d + t + Z.b2z (pending s) - (d - Z.max 0 (d - 1))) by lia.
    apply (idle_plan _ _ _ _ t); [done| |done]. destruct (pending s); cbn [Z.b2z] in *; lia.
  - intros Hpe. rewrite Hpe in *. cbn [Z.b2z] in *. rewrite Hb by lia. replace (Z.max 0 (d - 1) + t + (d - Z.max 0 (d - 1))) with (d + t) by lia. by apply Hx.
Qed.
Lemma ticks_inv s d t w : planning_inv s d t -> step_tick (pl_mach s) = Some w -> exists d' t', planning_inv (mk_planning w (pl_planner s) (pending s)) d' t'.
Proof.
  intros [Hq Hp Hx Hrm Hm Hk Hs] Htick. pose proof (regions_bound _ _ _ Hq) as (Hl & Hd & Ht & Hr).
  destruct (step_tick_moves _ _ _ Hq Hm Hk) as (w1 & d' & t' & Hw1 & [] & Hk1). rewrite Htick in Hw1. injection Hw1 as <-.
  exists d', t'. pose proof (step_tick_evolves _ _ _ _ Hq Hm Hk Htick) as He. split; sys; try done.
  - replace (d' + t') with (d + t) by lia. destruct He as [El Et Eb]. apply (plan_evolves _ (queue (cv s))); try done; [destruct (pending s); cbn; lia|].
    split; [done..|]. intros k Hkk. destruct (Eb k Hkk) as [Hst Hun]. split; [done|]. intros Hn. apply Hun. destruct (pending s); cbn in Hn; lia.
  - intros Hpe. rewrite Hpe in *. cbn [Z.b2z] in *. replace (d' + t') with (d + t) by lia. rewrite (proj2 (ev_blk _ _ _ He (d + t) ltac:(lia))) by lia. by apply Hx.
  - rewrite (ev_length _ _ _ He). lia.
  - lia.
Qed.
Lemma planner_step_inv s s' d t : planning_inv s d t -> planner_step s s' -> exists d' t', planning_inv s' d' t'.
Proof.
  intros Hi Hstep. destruct Hstep as [m p' c' ms' r Hpe Hmv Ha|c' ms' pushed Hpe Hw Hpush|now|w Htick|c' ms' h Hqc Hmc Hlen|].
  - exists d, t. by eapply plans_inv.
  - destruct (queues_inv _ _ _ _ _ _ Hi Hpe Hw Hpush) as [t' Ht']. by exists d, t'.
  - exists (Z.max 0 (d - 1)), t. by apply idles_inv.
  - by eapply ticks_inv.
  - destruct Hi as [Hq Hp Hx Hrm Hm Hk Hs]. exists d, t. split; sys; rewrite ?Hqc; try done. apply (ticker_keeps (pl_mach s) _ d t); try done; sys; by rewrite Hqc.
  - destruct Hi. exists d, t. by split.
Qed.

(** How many blocks stand in the queue, from the tail to the head. *)
Definition queued (q : BlockQueue) : Z := (head_i q - tail_i q) mod length q.
Lemma queued_ok q d t : queue_ok q d t -> queued q = d + t.
Proof.
  intros H. pose proof (regions_bound _ _ _ H). unfold queued. rewrite (head_slot _ _ _ H). unfold slot.
  rewrite Zminus_mod_idemp_l. replace (tail_i q + (d + t) - tail_i q) with (d + t) by lia. apply Z.mod_small. lia.
Qed.
(** C6: No plan asks the impossible. From an empty queue, through any history of
    moves planned and queued (with a positive distance and no negative rate or
    acceleration), idle turns, step interrupts, halts, holds, flushes and aborts, take
    all the blocks in the queue, from the tail to the head, and with them the block
    that is planned and waits for room, if there is one. Each is entered
    no faster than its junction allows, and that is no faster than it or the block
    before it is to run, or the planner's lowest speed; no faster than the block before can leave it (from the
    speed that one is entered at, over its length, at its acceleration, and
    within its nominal speed; or, when it runs already, the speed it was told to
    end at); every block that does not run yet is to end at the very speed the
    next is entered at, and the one that waits at the planner's lowest; and every speed is a number, and not negative. *)
Theorem plan_within_limits s0 s :
  conveyor_ok (cv s0) 0 0 -> plan_ok (minimum_planner_speed (pl_planner s0)) (queue (cv s0)) 0 -> continuous_mode (cv s0) <= 1 -> ticking (ticker (pl_mach s0)) = false ->
  nonneg (minimum_planner_speed (pl_planner s0)) -> pending s0 = false ->
  star planner_step s0 s ->
  let q := queue (cv s) in let planned := queued q + Z.b2z (pending s) in let lowest := minimum_planner_speed (pl_planner s) in
  0 <= planned <= length q /\
  (forall k, 0 <= k < planned -> let b := blk q k in
     nonneg (entry_speed b) /\ nonneg (exit_speed b) /\ key (entry_speed b) <= key (max_entry_speed b)) /\
  (forall k, 0 <= k -> k + 1 < planned -> let b := blk q k in let b' := blk q (k + 1) in
     key (max_entry_speed b') <= Z.max (key lowest) (Z.min (key (nominal_speed b)) (key (nominal_speed b'))) /\
     key (entry_speed b') <= key (max_exit_speed b) /\ (is_ticking b = false -> exit_speed b = entry_speed b')) /\
  (pending s = true -> exit_speed (blk q (queued q)) = lowest).
Proof.
  intros Hq Hp Hm Hk Hs Hpe Hst.
  assert (H : exists d t, planning_inv s d t).
  { refine (star_invariant planner_step (fun s => exists d t, planning_inv s d t) _ _ _ Hst _).
    - intros a b (d & t & Hi) Hab. by eapply planner_step_inv.
    - exists 0, 0. split; rewrite ?Hpe; cbn [Z.b2z Z.add]; try done; [destruct Hq; lia|]. intros Hx. by rewrite Hk in Hx. }
  destruct H as (d & t & [Hq' [Hb Hpr Hj _] Hx Hr' _ _ _]). cbv zeta. rewrite (queued_ok _ _ _ Hq').
  destruct (regions_bound _ _ _ Hq') as (_ & Hd & Ht & _). split; [destruct (pending s); cbn [Z.b2z] in *; lia|]. split; [|split; [|exact Hx]].
  - intros k Hkk. by destruct (Hb k Hkk).
  - intros k Hkk Hk1. destruct (Hpr k Hkk Hk1). split; [by apply Hj|done].
Qed.
End Append.

(** *** An example: two moves along one line *)
Definition demo_motor : StepperMotor :=
  mk_motor (Pin.mk false true false) (Pin.mk false true false) (Pin.mk false true false) 0x42C80000 0 0 0 0 0 0 false false true false.
Definition demo_planning : planning :=
  mk_planning
    (mk_machine (mk_conveyor (mk_block_queue 4 0 0 0 (Some (repeat (new_block 3 3) 4))) [] 100 4 0 true false false false false 0 None)
      (mk_ticker f100k 0 [] None 0 false) (repeat demo_motor 3) false)
    (new_planner 3 0x3D4CCCCD f_qnan 0) false.
Definition demo_move (x : Z) : move :=
  mk_move [x; 0; 0] 0x42480000 0x41200000 (Some [f1; f0; f0]) 0x43160000 0 true 1.
(** 10 mm, then 10 mm more. *)
Definition plan_it (s : planning) (m : move) : planning :=
  match append_block f100k 3 3 (pl_planner s) (conveyor (pl_mach s)) (motors (pl_mach s)) m with
  | Some (p, c, ms, r) => mk_planning ((pl_mach s) <| conveyor := c |> <| motors := ms |>) p (match r with inl _ => false | inr _ => true end)
  | None => s
  end.
Definition queue_it (s : planning) : planning :=
  let '(c, ms, _) := push_head_block 3 false (conveyor (pl_mach s)) (motors (pl_mach s)) in
  mk_planning ((pl_mach s) <| conveyor := c |> <| motors := ms |>) (pl_planner s) false.
Definition demo_1 : planning := Eval vm_compute in plan_it demo_planning (demo_move 0x41200000).
Definition demo_2 : planning := Eval vm_compute in queue_it demo_1.
Definition demo_3 : planning := Eval vm_compute in plan_it demo_2 (demo_move 0x41A00000).
#[local] Ltac demo_ok := unfold move_ok, nonneg; cbn; split; [right; vm_compute; split; discriminate|]; split; [right; vm_compute; split; discriminate|vm_compute; done].
Lemma plan_it_step s m s' : pending s = false -> move_ok m ->
  append_block f100k 3 3 (pl_planner s) (conveyor (pl_mach s)) (motors (pl_mach s)) m <> None ->
  plan_it s m = s' -> planner_step f100k 3 3 s s'.
Proof.
  intros Hp Hm Hn <-. unfold plan_it. destruct (append_block _ _ _ _ _ _ _) as [[[[p c] ms] r]|] eqn:E; [|done].
  by eapply (plans _ _ _ s m).
Qed.
Lemma queue_it_step s s' : pending s = true -> waits_for_room (halted (pl_mach s)) (conveyor (pl_mach s)) = false -> halted (pl_mach s) = false ->
  queue_it s = s' -> planner_step f100k 3 3 s s'.
Proof.
  intros Hp Hw Hh <-. unfold queue_it. destruct (push_head_block _ _ _ _) as [[c ms] r] eqn:E.
  eapply (queues _ _ _ s); [done|done|by rewrite Hh].
Qed.
Lemma plan_within_limits_witness :
  let q := queue (conveyor (pl_mach demo_3)) in
  queued q = 1 /\ pending demo_3 = true /\
  key (entry_speed (blk q 1)) <= key (max_exit_speed (blk q 0)) /\ exit_speed (blk q 0) = entry_speed (blk q 1) /\ exit_speed (blk q 1) = 0 /\
  entry_speed (blk q 1) = 0x42480000.
Proof.
  destruct (plan_within_limits f100k 3 3 demo_planning demo_3) as (_ & _ & Hp & Hx).
  - split; cbn; try lia; [by eexists|done|done].
  - split; [lia|lia|lia|]. intros k Hk. change (length _) with 4 in Hk.
    assert (k = 0 \/ k = 1 \/ k = 2 \/ k = 3) as [->|[->|[->| ->]]] by lia; (split; [done|]); right; vm_compute; split; discriminate.
  - done.
  - done.
  - right. vm_compute. split; discriminate.
  - done.
  - apply star_step with demo_2; [apply star_step with demo_1; [apply star_one|]|].
    + apply (plan_it_step _ (demo_move 0x41200000)); [done| |vm_compute; discriminate|vm_compute; reflexivity]. demo_ok.
    + apply queue_it_step; [done|done|done|vm_compute; reflexivity].
    + apply (plan_it_step _ (demo_move 0x41A00000)); [done| |vm_compute; discriminate|vm_compute; reflexivity]. demo_ok.
  - destruct (Hp 0) as (_ & Hr & He); [done|done|]. split; [done|]. split; [done|]. split; [exact Hr|]. split; [exact (He eq_refl)|].
    split; [exact (Hx eq_refl)|]. by vm_compute.
Defined.
