(* ===== verification/Arith.v ===== *)
(** * Numbers as the robot computes with them

    The arithmetic of coordinates, as an interface with two implementations: single
    precision on the bits, which is what the controller computes with, and the
    real numbers, in which the formulas say what they are meant to say. The robot
    ([Robot], [RobotMoves]) is defined once for both: what holds of its control
    flow is proved for any arithmetic, what its formulas compute in the reals. *)
From Stdlib Require Import Floats.SpecFloat Reals Lra.
From S2P Require Import Prelude Binary32.
#[local] Open Scope Z_scope.

(** The operations of [float] the robot uses. [literal m e] is the constant
    written [m]e[e]F, [over x m e] compares with the [double] written [m]e[e], [times x m e] multiplies by
    it;
    [cos_degrees] is the cosine taken of r * (PI / 180.0) in double precision,
    [cos_180] that of x / 180.0. *)
Class Arith := mk_arith {
  num : Type;
  nadd : num -> num -> num; nsub : num -> num -> num; nmul : num -> num -> num; ndiv : num -> num -> num;
  nneg : num -> num; nabs : num -> num; nsqrt : num -> num; nsquare : num -> num;
  nlt : num -> num -> bool; nle : num -> num -> bool; neqb : num -> num -> bool;
  isnan : num -> bool; nan : num;
  of_Z : Z -> num; literal : Z -> Z -> num; over : num -> Z -> Z -> bool;
  n_pi : num; cos_degrees : num -> num; sin_degrees : num -> num; cos_180 : num -> num; sin_180 : num -> num;
  n_cosf : num -> num; n_sinf : num -> num; n_atan2f : num -> num -> num; n_hypotf : num -> num -> num;
  n_fmodf : num -> num -> num; n_floorf : num -> num; n_ceilf : num -> num;
  to_u16 : num -> Z; to_u32 : num -> Z; to_int : num -> Z; times : num -> Z -> Z -> num
}.
Declare Scope num_scope.
Delimit Scope num_scope with num.
Bind Scope num_scope with num.
Infix "+" := nadd : num_scope.
Infix "-" := nsub : num_scope.
Infix "*" := nmul : num_scope.
Infix "/" := ndiv : num_scope.
Notation "- x" := (nneg x) : num_scope.
Infix "<?" := nlt : num_scope.
Infix "<=?" := nle : num_scope.
#[export] Instance num_inhabited `{Arith} : Inhabited num := populate (of_Z 0).

(** ** Single precision *)

(** The library's functions; [cos] and [sin] are of double precision, rounded. *)
Class MathLib := mk_mathlib {
  lib_cos_degrees : Z -> Z; lib_sin_degrees : Z -> Z; lib_cos_180 : Z -> Z; lib_sin_180 : Z -> Z; lib_cosf : Z -> Z; lib_sinf : Z -> Z;
  lib_atan2f : Z -> Z -> Z; lib_hypotf : Z -> Z -> Z
}.
Definition float_literal (m e : Z) : Z := if e <? 0 then fdiv (float_of_int m) (float_of_int (10 ^ (- e))) else float_of_int (m * 10 ^ e).
(** Powers of ten up to 10^22 are doubles, so the quotient is the literal. *)
Definition double_literal (m e : Z) : spec_float := if e <? 0 then ddiv (double_of_int m) (double_of_int (10 ^ (- e))) else double_of_int (m * 10 ^ e).
Definition over_double (x m e : Z) : bool := SFltb (double_literal m e) (double_of_float x).
Definition float_of_double (x : spec_float) : Z :=
  match x with S754_finite s m e => to_bits (binary_normalize 24 128 (if s then Zneg m else Zpos m) e s) | _ => to_bits x end.
Definition times_double (x m e : Z) : Z := float_of_double (dmul (double_of_float x) (double_literal m e)).
Definition binary32 `{MathLib} : Arith := {|
  num := Z; nadd := fadd; nsub := fsub; nmul := fmul; ndiv := fdiv; nneg := fneg; nabs := fabsf; nsqrt := fsqrt; nsquare := fsquare;
  nlt := flt; nle := fle; neqb := feq; isnan := is_nan; nan := f_qnan;
  of_Z := float_of_int; literal := float_literal; over := over_double;
  n_pi := 0x40490FDB; cos_degrees := lib_cos_degrees; sin_degrees := lib_sin_degrees; cos_180 := lib_cos_180; sin_180 := lib_sin_180;
  n_cosf := lib_cosf; n_sinf := lib_sinf; n_atan2f := lib_atan2f; n_hypotf := lib_hypotf;
  n_fmodf := fmodf; n_floorf := floorf; n_ceilf := ceilf;
  to_u16 x := u16 (u32_of_float x); to_u32 := u32_of_float;
  to_int x := saturate (- 2 ^ 31) (2 ^ 31 - 1) trunc_of (of_bits x); times := times_double
|}.
Example literals : float_literal 254 (-1) = 0x41CB3333 /\ float_literal 1 (-5) = 0x3727C5AC /\ over_double 0x3DCCCCCD 1 (-1) = true /\ over_double 0x3DCCCCCC 1 (-1) = false /\
  times_double (float_of_int 80) 16666666 (-6) = 0x44A6AAAA.
Proof. by vm_compute. Qed.

(** ** Real numbers *)
Section Real.
#[local] Open Scope R_scope.
Definition real_lt (x y : R) : bool := if Rlt_dec x y then true else false.
Definition real_le (x y : R) : bool := if Rle_dec x y then true else false.
Definition real_eqb (x y : R) : bool := if Req_dec_T x y then true else false.
(** The integer part, towards zero. *)
Definition truncated (x : R) : Z := if Rlt_dec x 0 then (- Int_part (- x))%Z else Int_part x.
Definition real_literal (m e : Z) : R := if (e <? 0)%Z then IZR m / IZR (10 ^ (- e)) else IZR (m * 10 ^ e).
Definition real_atan2 (y x : R) : R :=
  if Rlt_dec 0 x then atan (y / x)
  else if Rlt_dec x 0 then (if Rlt_dec y 0 then atan (y / x) - PI else atan (y / x) + PI)
  else if Rlt_dec 0 y then PI / 2 else if Rlt_dec y 0 then - PI / 2 else 0.
End Real.
(** No real number is not a number; division by zero is some number, and no theorem
    divides by it. *)
Definition real : Arith := {|
  num := R; nadd := Rplus; nsub := Rminus; nmul := Rmult; ndiv := Rdiv; nneg := Ropp; nabs := Rabs; nsqrt := sqrt; nsquare := Rsqr;
  nlt := real_lt; nle := real_le; neqb := real_eqb; isnan _ := false; nan := 0%R;
  of_Z := IZR; literal := real_literal; over x m e := real_lt (real_literal m e) x;
  n_pi := PI; cos_degrees r := cos (r * (PI / 180)); sin_degrees r := sin (r * (PI / 180)); cos_180 x := cos (x / 180); sin_180 x := sin (x / 180);
  n_cosf := cos; n_sinf := sin; n_atan2f := real_atan2; n_hypotf x y := sqrt (x * x + y * y)%R;
  n_fmodf x y := (x - y * IZR (truncated (x / y)))%R; n_floorf x := IZR (Int_part x); n_ceilf x := (- IZR (Int_part (- x)))%R;
  to_u16 x := u16 (Z.max 0 (truncated x)); to_u32 x := Z.max 0 (Z.min (2 ^ 32 - 1) (truncated x));
  to_int x := Z.max (- 2 ^ 31) (Z.min (2 ^ 31 - 1) (truncated x)); times x m e := (x * real_literal m e)%R
|}.
Lemma real_ltP x y : reflect (x < y)%R (real_lt x y).
Proof. unfold real_lt. by destruct (Rlt_dec x y); constructor. Qed.
Lemma real_leP x y : reflect (x <= y)%R (real_le x y).
Proof. unfold real_le. by destruct (Rle_dec x y); constructor. Qed.
(** What is said of the reals' operations, said of the reals. *)
Ltac reals := cbn [num nadd nsub nmul ndiv nneg nabs nsqrt nsquare nlt nle neqb isnan nan of_Z literal over n_pi cos_degrees sin_degrees cos_180 sin_180 n_cosf n_sinf n_atan2f n_hypotf n_fmodf n_floorf n_ceilf to_u16 to_u32 to_int times real] in *.
(** The first comparison of the goal decided. *)
Ltac real_case H :=
  match goal with
  | |- context [real_lt ?x ?y] => destruct (real_ltP x y) as [H|H]
  | |- context [real_le ?x ?y] => destruct (real_leP x y) as [H|H]
  end.
