(* ===== verification/Robot.v ===== *)
(** * The robot's coordinates ([src/src/modules/robot/Robot.cpp])

    Machine coordinates, the nine coordinate systems over them with their offsets
    and rotations, the offsets of G92 and of the tool; the modes a G-code is read
    in, saved and restored. The moves are in [RobotMoves]. *)
From S2P Require Import Prelude Arith.
#[local] Open Scope Z_scope.
#[local] Open Scope nat_scope.

Definition X_AXIS : nat := 0.
Definition Y_AXIS : nat := 1.
Definition Z_AXIS : nat := 2.
Definition A_AXIS : nat := 3.
Definition B_AXIS : nat := 4.
Definition MAX_WCS : nat := 9.
(** As the firmware is built: AXIS=5 PAXIS=3. *)
Definition k_max_actuators : nat := 5.
Definition N_PRIMARY_AXIS : nat := 3.
(** The letter of an axis.
    [src/src/modules/robot/Robot.cpp:1288-1288] Robot::process_move *)
Definition axis_letter (i : nat) : ascii := nth i ["X"; "Y"; "Z"; "A"; "B"; "C"]%char "X"%char.

Section Robot.
Context `{Arith}.
#[local] Open Scope num_scope.
Definition zero : num := of_Z 0.
(** [wcs_t]: X, Y, Z, A and B.
    [src/src/modules/robot/Robot.h:31-31] Robot *)
Record wcs_t := mk_wcs { wx : num; wy : num; wz : num; wa : num; wb : num }.
Definition wcs_zero : wcs_t := mk_wcs zero zero zero zero zero.
#[global] Instance wcs_inhabited : Inhabited wcs_t := populate wcs_zero.
(** From an array of five.
    [src/src/modules/robot/Robot.h:103-107] Robot::mcs2wcs *)
Definition wcs_of (pos : list num) : wcs_t := mk_wcs (pos !!! 0) (pos !!! 1) (pos !!! 2) (pos !!! 3) (pos !!! 4).
(** [src/src/modules/robot/Robot.h:163-163] Robot *)
Record saved_state_t := mk_saved {
  sv_feed_rate : num; sv_seek_rate : num; sv_absolute : bool; sv_e_absolute : bool; sv_inch : bool; sv_g123 : bool; sv_inverse_time : bool; sv_wcs : nat
}.
(** [compensationTransform] maps a position, the way there or back; the tool
    position arrays have [k_max_actuators] cells.
    [src/src/modules/robot/Robot.h:111-211] Robot *)
Record Robot := mk_robot {
  r_ : list num;
  inch_mode : bool; absolute_mode : bool; e_absolute_mode : bool; inverse_time_mode : bool; next_command_is_MCS : bool;
  disable_segmentation : bool; disable_arm_solution : bool; segment_z_moves : bool; save_g92 : bool; save_g54 : bool; is_g123 : bool;
  soft_endstop_enabled : bool; soft_endstop_halt : bool;
  plane_axis_0 : nat; plane_axis_1 : nat; plane_axis_2 : nat;
  compensationTransform : option (bool -> list num -> list num);
  wcs_offsets : list wcs_t; current_wcs : nat; g92_offset : wcs_t; tool_offset : wcs_t; cos_r : list num; sin_r : list num;
  current_motion_mode : Z; state_stack : list saved_state_t;
  machine_position : list num; compensated_machine_position : list num;
  seek_rate : num; feed_rate : num; mm_per_line_segment : num; mm_per_arc_segment : num; mm_max_arc_error : num; delta_segments_per_second : num;
  seconds_per_minute : num; default_acceleration : num; s_value : num; arc_milestone : list num;
  laser_module_offset : wcs_t; arc_correction : Z; max_speeds : list num; max_speed : num;
  tool_not_calibrated : bool; home_override : bool;
  soft_endstop_min : list num; soft_endstop_max : list num; rotary_clearance_y_min : num; n_motors : nat
}.
#[global] Instance eta_Robot : Eta Robot := fun b =>
  mk_robot (r_ b) (inch_mode b) (absolute_mode b) (e_absolute_mode b) (inverse_time_mode b) (next_command_is_MCS b)
    (disable_segmentation b) (disable_arm_solution b) (segment_z_moves b) (save_g92 b) (save_g54 b) (is_g123 b) (soft_endstop_enabled b) (soft_endstop_halt b)
    (plane_axis_0 b) (plane_axis_1 b) (plane_axis_2 b) (compensationTransform b) (wcs_offsets b) (current_wcs b) (g92_offset b) (tool_offset b) (cos_r b) (sin_r b)
    (current_motion_mode b) (state_stack b) (machine_position b) (compensated_machine_position b)
    (seek_rate b) (feed_rate b) (mm_per_line_segment b) (mm_per_arc_segment b) (mm_max_arc_error b) (delta_segments_per_second b)
    (seconds_per_minute b) (default_acceleration b) (s_value b) (arc_milestone b) (laser_module_offset b) (arc_correction b) (max_speeds b) (max_speed b)
    (tool_not_calibrated b) (home_override b) (soft_endstop_min b) (soft_endstop_max b) (rotary_clearance_y_min b) (n_motors b).

(** ** Coordinate systems *)

(** [src/src/modules/robot/Robot.h:67-68] Robot::to_millimeters *)
Definition to_millimeters (b : Robot) (value : num) : num := if inch_mode b then value * literal 254 (-1) else value.
Definition from_millimeters (b : Robot) (value : num) : num := if inch_mode b then value / literal 254 (-1) else value.
(** [src/src/modules/robot/Robot.cpp:525-534] Robot::mcs2selected_wcs *)
Definition mcs2selected_wcs (b : Robot) (pos : wcs_t) (n : nat) : wcs_t :=
  let o := wcs_offsets b !!! n in let g := g92_offset b in let t := tool_offset b in
  mk_wcs
    (cos_r b !!! n * (wx pos - wx o) + sin_r b !!! n * (wy pos - wy o) + wx g - wx t)
    (cos_r b !!! n * (wy pos - wy o) - sin_r b !!! n * (wx pos - wx o) + wy g - wy t)
    (wz pos - wz o + wz g - wz t) (wa pos - wa o + wa g - wa t) (wb pos - wb o + wb g - wb t).
Definition mcs2wcs (b : Robot) (pos : wcs_t) : wcs_t := mcs2selected_wcs b pos (current_wcs b).
(** [src/src/modules/robot/Robot.cpp:537-546] Robot::wcs2mcs *)
Definition wcs2mcs (b : Robot) (pos : wcs_t) : wcs_t :=
  let n := current_wcs b in let o := wcs_offsets b !!! n in let g := g92_offset b in let t := tool_offset b in
  mk_wcs
    (wx o + cos_r b !!! n * (wx pos - wx g + wx t) - sin_r b !!! n * (wy pos - wy g + wy t))
    (wy o + cos_r b !!! n * (wy pos - wy g + wy t) + sin_r b !!! n * (wx pos - wx g + wx t))
    (wz pos + wz o - wz g + wz t) (wa pos + wa o - wa g + wa t) (wb pos + wb o - wb g + wb t).
(** [src/src/modules/robot/Robot.cpp:1262-1268] Robot::rotate *)
Definition rotate (b : Robot) (x y : num) : num * num :=
  let c := cos_r b !!! current_wcs b in let s := sin_r b !!! current_wcs b in (x * c - y * s, x * s + y * c).
(** [src/src/modules/robot/Robot.cpp:1270-1276] Robot::unrotate *)
Definition unrotate (b : Robot) (x y : num) : num * num :=
  let c := cos_r b !!! current_wcs b in let s := sin_r b !!! current_wcs b in (x * c + y * s, (- x) * s + y * c).
(** [src/src/modules/robot/Robot.cpp:2313-2318] Robot::select_plane *)
Definition select_plane (axis_0 axis_1 axis_2 : nat) (b : Robot) : Robot :=
  b <| plane_axis_0 := axis_0 |> <| plane_axis_1 := axis_1 |> <| plane_axis_2 := axis_2 |>.
(** [src/src/modules/robot/Robot.cpp:403-412] Robot::push_state *)
Definition push_state (b : Robot) : Robot :=
  b <| state_stack := mk_saved (feed_rate b) (seek_rate b) (absolute_mode b) (e_absolute_mode b) (inch_mode b) (is_g123 b) (inverse_time_mode b) (current_wcs b) :: state_stack b |>.
(** [src/src/modules/robot/Robot.cpp:414-428] Robot::pop_state *)
Definition pop_state (b : Robot) : Robot :=
  match state_stack b with
  | [] => b
  | s :: stack =>
      b <| state_stack := stack |> <| feed_rate := sv_feed_rate s |> <| seek_rate := sv_seek_rate s |> <| absolute_mode := sv_absolute s |>
        <| e_absolute_mode := sv_e_absolute s |> <| inch_mode := sv_inch s |> <| is_g123 := sv_g123 s |> <| inverse_time_mode := sv_inverse_time s |>
        <| current_wcs := sv_wcs s |>
  end.
(** [src/src/modules/robot/Robot.h:43-43] Robot::set_seconds_per_minute *)
Definition set_seconds_per_minute (value : num) (b : Robot) : Robot := b <| seconds_per_minute := value |>.
(** [src/src/modules/robot/Robot.h:52-52] Robot::set_s_value *)
Definition set_s_value (s : num) (b : Robot) : Robot := b <| s_value := s |>.
(** The system in use and the number of systems, the systems, the two offsets.
    [src/src/modules/robot/Robot.cpp:430-440] Robot::get_wcs_state *)
Definition get_wcs_state (b : Robot) : list wcs_t :=
  mk_wcs (of_Z (Z.of_nat (current_wcs b))) (of_Z (Z.of_nat MAX_WCS)) zero zero zero :: wcs_offsets b ++ [g92_offset b; tool_offset b].

(** ** The machine around it *)

(** A motor, as the robot sees and sets it.
    [src/src/libs/StepperMotor.h:38-57] StepperMotor *)
Class Axis (Motor : Type) := mk_axis {
  get_last_milestone : Motor -> num; get_current_position : Motor -> num; get_steps_per_mm : Motor -> num;
  get_max_rate : Motor -> num; get_acceleration : Motor -> num; is_selected : Motor -> bool; is_extruder : Motor -> bool;
  change_last_milestone : num -> Motor -> Motor; change_steps_per_mm : num -> Motor -> Motor;
  set_max_rate : num -> Motor -> Motor; set_acceleration : num -> Motor -> Motor
}.
(** A block for the planner. *)
Record Move := mk_move {
  mv_pos : list num; mv_rate : num; mv_distance : num; mv_unit_vec : option (list num); mv_acceleration : num; mv_s_value : num; mv_g123 : bool; mv_line : Z
}.
(** What the robot keeps in the memory that outlives power: offsets and rotations of
    the first six systems.
    [src/src/libs/Kernel.h:97-110] EEPROM_data *)
Record Eeprom := mk_eeprom {
  WCScoord : list (list num); WCSrotation : list num; ee_current_wcs : Z; TLO : num; TOOLMZ : num; TOOL : Z; ee_not_calibrated : bool
}.
#[global] Instance eta_Eeprom : Eta Eeprom := fun e =>
  mk_eeprom (WCScoord e) (WCSrotation e) (ee_current_wcs e) (TLO e) (TOOLMZ e) (TOOL e) (ee_not_calibrated e).
Inductive HaltReason := MANUAL | HOME_FAIL | CALIBRATE_FAIL | SOFT_LIMIT.
Inductive Item := an_int (n : Z) | a_num (x : num) | a_letter (c : ascii) | a_text (s : string).
(** What is told: to all, to who sent the command, as the command's error; and the
    memory written. *)
Inductive Out := say (fmt : string) (args : list Item) | answer (fmt : string) (args : list Item) | error_text (text : string) | write_eeprom_data.
Context {Motor : Type} `{Axis Motor} {Env : Type}.
Record World := mk_world { robot : Robot; actuators : list Motor; eeprom : Eeprom; out : list Out; env : Env }.
#[global] Instance eta_World : Eta World := fun w => mk_world (robot w) (actuators w) (eeprom w) (out w) (env w).
(** The rest of the firmware. While the robot waits, anything may happen to all of
    it; a halt is answered by every module. *)
Class Machine := mk_machine {
  is_halted : Env -> bool; motion_abort_requested : Env -> bool; get_feed_hold : Env -> bool; is_zprobing : Env -> bool;
  is_continuous_mode : Env -> bool; is_grbl_mode : Env -> bool; get_laser_mode : Env -> bool; rotary_installed : Env -> bool;
  homing_status : Env -> option bool; homed_status : Env -> option (list bool);
  default_seek_rate : Env -> option num; base_stepping_frequency : Env -> num; us_ticker_read : Env -> Z; modal_command : Env -> Z;
  on_idle : World -> World; wait_for_idle : World -> World; on_halt : World -> World; set_halt_reason : HaltReason -> World -> World;
  on_enable : Z -> World -> World;
  set_junction_deviation : num -> Env -> Env; set_z_junction_deviation : num -> Env -> Env; set_minimum_planner_speed : num -> Env -> Env;
  junction_deviation : Env -> num; z_junction_deviation : Env -> num; minimum_planner_speed : Env -> num;
  append_block : Move -> World -> World * bool
}.
Context `{Machine}.
(** Computations; [None] only for fuel that ran out. *)
Definition M (A : Type) : Type := World -> option (A * World).
#[global] Instance M_ret : MRet M := fun A x w => Some (x, w).
#[global] Instance M_bind : MBind M := fun A B f m w => match m w with Some (x, w') => f x w' | None => None end.
Definition get {A} (f : World -> A) : M A := fun w => Some (f w, w).
Definition stuck {A} : M A := fun _ => None.
Definition world : M World := get (fun w => w).
Definition modify (f : World -> World) : M unit := fun w => Some (tt, f w).
Definition on_robot (f : Robot -> Robot) : M unit := modify (fun w => w <| robot := f (robot w) |>).
Definition tell (o : Out) : M unit := modify (fun w => w <| out := out w ++ [o] |>).
Definition on_axis (i : nat) (f : Motor -> Motor) : M unit := modify (fun w => w <| actuators := alter f i (actuators w) |>).
Definition axis {A} (i : nat) (f : Motor -> A) (d : A) (w : World) : A := match actuators w !! i with Some m => f m | None => d end.
Definition write_eeprom (f : Eeprom -> Eeprom) : M unit := _ ← modify (fun w => w <| eeprom := f (eeprom w) |>); tell write_eeprom_data.
(** Over the numbers below [n], in order. *)
Fixpoint for_each (l : list nat) (f : nat -> M unit) : M unit :=
  match l with [] => mret tt | i :: l => _ ← f i; for_each l f end.

Definition queue_block (m : Move) : M bool := fun w => let '(w, moved) := append_block m w in Some (moved, w).

(** *** Homing *)
(** [src/src/modules/robot/Robot.cpp:2361-2375] Robot::is_homed *)
Definition is_homed (i : nat) (e : Env) : bool :=
  if (3 <=? i)%nat then false
  else match homing_status e with
       | Some false => match homed_status e with Some homed => default false (homed !! i) | None => false end
       | _ => false
       end.
(** [src/src/modules/robot/Robot.cpp:2377-2391] Robot::is_homed_all_axes *)
Definition is_homed_all_axes : M bool :=
  b ← get robot; e ← get env;
  if home_override b then mret true
  else if forallb (fun i => is_homed i e) [X_AXIS; Y_AXIS; Z_AXIS] then mret true
  else _ ← tell (say "ERROR: Machine has not been homed. Use M887 to disable homed check" []);
       _ ← modify (set_halt_reason HOME_FAIL); _ ← modify on_halt; mret false.
(** [src/src/modules/robot/Robot.cpp:2393-2396] Robot::override_homed_check *)
Definition override_homed_check (value : bool) (b : Robot) : Robot := b <| home_override := value |>.
(** [src/src/modules/robot/Robot.cpp:2398-2403] Robot::set_tool_not_calibrated *)
Definition set_tool_not_calibrated (value : bool) : M unit :=
  _ ← on_robot (fun b => b <| tool_not_calibrated := value |>); write_eeprom (fun e => e <| ee_not_calibrated := value |>).

(** *** Offsets of the tool and the laser *)
(** [src/src/modules/robot/Robot.cpp:2342-2349] Robot::setLaserOffset *)
Definition setLaserOffset : M unit :=
  laser ← get (fun w => get_laser_mode (env w));
  if laser : bool then
    o ← get (fun w => laser_module_offset (robot w));
    let o := mk_wcs (wx o) (wy o) (wz o) zero zero in
    _ ← on_robot (fun b => b <| g92_offset := o |>); tell (say "Laser offset set to: %1.3f, %1.3f, %1.3f" [a_num (wx o); a_num (wy o); a_num (wz o)])
  else mret tt.
(** [src/src/modules/robot/Robot.cpp:2351-2353] Robot::clearLaserOffset *)
Definition clearLaserOffset (b : Robot) : Robot := b <| g92_offset := wcs_zero |>.
(** [src/src/modules/robot/Robot.cpp:2320-2326] Robot::clearToolOffset *)
Definition clearToolOffset : M unit :=
  _ ← on_robot (fun b => b <| tool_offset := wcs_zero |>); modify (fun w => w <| eeprom := (eeprom w) <| TLO := zero |> |>).
(** [src/src/modules/robot/Robot.cpp:2328-2332] Robot::loadToolOffset *)
Definition loadToolOffset (offset : list num) : M unit :=
  _ ← on_robot (fun b => b <| tool_offset := mk_wcs (offset !!! 0) (offset !!! 1) (offset !!! 2) zero zero |>); setLaserOffset.
(** [src/src/modules/robot/Robot.cpp:2334-2340] Robot::saveToolOffset *)
Definition saveToolOffset (offset : list num) (cur_tool_mz : num) : M unit :=
  _ ← loadToolOffset offset; write_eeprom (fun e => e <| TLO := offset !!! 2 |> <| TOOLMZ := cur_tool_mz |>).
(** [src/src/modules/robot/Robot.cpp:2356-2359] Robot::get_feed_rate *)
Definition get_feed_rate (w : World) : num := if (modal_command (env w) =? 0)%Z then seek_rate (robot w) else feed_rate (robot w).

(** *** The current system set by a machine position *)
(** The first six systems are kept in the memory.
    [src/src/modules/robot/Robot.cpp:590-602] Robot::set_current_wcs_by_mpos *)
Definition save_wcs (n : nat) (o : wcs_t) (rotation : num) : M unit :=
  if (n <=? 5)%nat then
    write_eeprom (fun e => e <| WCScoord := <[n := [wx o; wy o; wz o; wa o]]> (WCScoord e) |> <| WCSrotation := <[n := rotation]> (WCSrotation e) |>)
  else mret tt.
(** [src/src/modules/robot/Robot.cpp:583-587] Robot::set_current_wcs_by_mpos *)
Definition set_rotation (n : nat) (degrees : num) (b : Robot) : Robot :=
  b <| r_ := <[n := degrees]> (r_ b) |> <| cos_r := <[n := cos_degrees degrees]> (cos_r b) |> <| sin_r := <[n := sin_degrees degrees]> (sin_r b) |>.
(** An argument that is not a number leaves its part as it is.
    [src/src/modules/robot/Robot.cpp:563-604] Robot::set_current_wcs_by_mpos *)
Definition set_current_wcs_by_mpos (x y z a b rotation : num) : M unit :=
  rb ← get robot;
  let n := current_wcs rb in
  let o := wcs_offsets rb !!! n in
  let or (v kept : num) := if isnan v then kept else v in
  let o := mk_wcs (or x (wx o)) (or y (wy o)) (if isnan z then wz o else z - wz (tool_offset rb)) (or a (wa o)) (or b (wb o)) in
  _ ← on_robot (fun rb => (if isnan rotation then rb else set_rotation n rotation rb) <| wcs_offsets := <[n := o]> (wcs_offsets rb) |>);
  rb ← get robot; save_wcs n o (r_ rb !!! n).

(** *** Positions set *)
(** [src/src/modules/robot/arm_solutions/CartesianSolution.cpp:5-9] CartesianSolution::cartesian_to_actuator *)
Definition cartesian_to_actuator (cartesian_mm : list num) : list num := [cartesian_mm !!! X_AXIS; cartesian_mm !!! Y_AXIS; cartesian_mm !!! Z_AXIS].
(** Into the first three places.
    [src/src/modules/robot/arm_solutions/CartesianSolution.cpp:11-15] CartesianSolution::actuator_to_cartesian *)
Definition actuator_to_cartesian (actuator_mm cartesian_mm : list num) : list num :=
  [actuator_mm !!! X_AXIS; actuator_mm !!! Y_AXIS; actuator_mm !!! Z_AXIS] ++ drop 3 cartesian_mm.
Definition transformed (b : Robot) (inverse : bool) (pos : list num) : list num := match compensationTransform b with Some f => f inverse pos | None => pos end.
Definition set_axes (pos : list num) : M unit := for_each [X_AXIS; Y_AXIS; Z_AXIS] (fun i => on_axis i (change_last_milestone (pos !!! i))).
(** [src/src/modules/robot/Robot.cpp:1576-1595] Robot::reset_axis_position *)
Definition reset_axis_positions (x y z : num) : M unit :=
  _ ← on_robot (fun b =>
    let b := b <| compensated_machine_position := [x; y; z] ++ drop 3 (compensated_machine_position b) |>
               <| machine_position := [x; y; z] ++ drop 3 (machine_position b) |> in
    let b := b <| machine_position := transformed b true (machine_position b) |> in
    b <| arc_milestone := take 3 (machine_position b) |>);
  b ← get robot; set_axes (cartesian_to_actuator (compensated_machine_position b)).
(** [src/src/modules/robot/Robot.cpp:1598-1611] Robot::reset_axis_position *)
Definition reset_axis_position (position : num) (axis : nat) : M unit :=
  _ ← on_robot (fun b => b <| compensated_machine_position := <[axis := position]> (compensated_machine_position b) |>);
  b ← get robot;
  if (axis <=? Z_AXIS)%nat then
    let c := compensated_machine_position b in reset_axis_positions (c !!! X_AXIS) (c !!! Y_AXIS) (c !!! Z_AXIS)
  else if (axis <? n_motors b)%nat then
    _ ← on_robot (fun b => b <| machine_position := <[axis := position]> (machine_position b) |> <| compensated_machine_position := <[axis := position]> (compensated_machine_position b) |>);
    on_axis axis (change_last_milestone position)
  else mret tt.
(** The positions the motors are at; no extruder scales its own on this machine
    ([get_e_scale_fnc] is never set).
    [src/src/modules/robot/Robot.cpp:1627-1674] Robot::reset_position_from_current_actuator_position *)
Definition reset_position_from_current_actuator_position : M unit :=
  w ← world;
  let b := robot w in
  let pos := map (fun i => axis i get_current_position zero w) (seq 0 (n_motors b)) in
  let c := actuator_to_cartesian pos (compensated_machine_position b) in
  _ ← on_robot (fun b =>
    let b := b <| compensated_machine_position := c |> <| machine_position := transformed b true c |> in
    b <| arc_milestone := take 3 (machine_position b) |>);
  _ ← set_axes (cartesian_to_actuator c);
  for_each (seq A_AXIS (n_motors b - A_AXIS)) (fun i =>
    let ap := pos !!! i in
    _ ← on_robot (fun b => b <| machine_position := <[i := ap]> (machine_position b) |> <| compensated_machine_position := <[i := ap]> (compensated_machine_position b) |>);
    on_axis i (change_last_milestone ap)).
(** [src/src/modules/robot/Robot.cpp:1615-1623] Robot::reset_actuator_position *)
Definition reset_actuator_position (ac : list num) : M unit :=
  _ ← for_each [X_AXIS; Y_AXIS; Z_AXIS] (fun i => if isnan (ac !!! i) then mret tt else on_axis i (change_last_milestone (ac !!! i)));
  reset_position_from_current_actuator_position.
(** [src/src/modules/robot/Robot.cpp:442-453] Robot::get_current_machine_position *)
Definition get_current_machine_position (w : World) : list num :=
  actuator_to_cartesian (map (fun i => axis i get_current_position zero w) [X_AXIS; Y_AXIS; Z_AXIS]) [].
(** [src/src/modules/robot/Robot.cpp:550-561] Robot::check_max_actuator_speeds *)
Definition check_max_actuator_speeds : M unit :=
  n ← get (fun w => n_motors (robot w));
  for_each (seq 0 n) (fun i => w ← world;
    match actuators w !! i with
    | Some m =>
        if is_extruder m then mret tt
        else
          let step_freq := get_max_rate m * get_steps_per_mm m in
          if base_stepping_frequency (env w) <? step_freq then
            let rate := n_floorf (base_stepping_frequency (env w) / get_steps_per_mm m) in
            _ ← on_axis i (set_max_rate rate);
            tell (say "WARNING: actuator %d rate exceeds base_stepping_frequency * ..._steps_per_mm: %f, setting to %f" [an_int (Z.of_nat i); a_num step_freq; a_num rate])
          else mret tt
    | None => mret tt
    end).

(** *** Start *)
(** [raw] is the memory the constructor runs on.
    [src/src/modules/robot/Robot.cpp:126-147] Robot::Robot *)
Definition new_robot (raw : Robot) : Robot :=
  select_plane X_AXIS Y_AXIS Z_AXIS
    (raw <| inch_mode := false |> <| absolute_mode := true |> <| e_absolute_mode := true |> <| inverse_time_mode := false |>
         <| machine_position := repeat zero k_max_actuators |> <| compensated_machine_position := repeat zero k_max_actuators |>
         <| seconds_per_minute := of_Z 60 |> <| compensationTransform := None |>
         <| wcs_offsets := repeat wcs_zero MAX_WCS |> <| g92_offset := wcs_zero |>
         <| next_command_is_MCS := false |> <| disable_segmentation := false |> <| disable_arm_solution := false |> <| n_motors := 0 |>
         <| sin_r := repeat zero MAX_WCS |> <| r_ := repeat zero MAX_WCS |> <| home_override := false |> <| current_wcs := 0%nat |> <| state_stack := [] |>).
(** One motor more, up to [k_max_actuators].
    [src/src/modules/robot/Robot.cpp:386-401] Robot::register_motor *)
Definition register_motor (m : Motor) : M nat :=
  b ← get robot;
  if (k_max_actuators <=? n_motors b)%nat then _ ← tell (say "FATAL: too many motors, increase k_max_actuators" []); mret 0%nat
  else
    _ ← modify (fun w => w <| actuators := actuators w ++ [m] |> <| robot := (robot w) <| n_motors := S (n_motors b) |> |>);
    mret (n_motors b).
(** A system as it was kept.
    [src/src/modules/robot/Robot.cpp:177-182] Robot::on_module_loaded *)
Definition restore_wcs (e : Eeprom) (n : nat) (b : Robot) : Robot :=
  let c := WCScoord e !!! n in let degrees := WCSrotation e !!! n in
  b <| wcs_offsets := <[n := mk_wcs (c !!! 0%nat) (c !!! 1%nat) (c !!! 2%nat) (c !!! 3%nat) zero]> (wcs_offsets b) |>
    <| r_ := <[n := degrees]> (r_ b) |> <| cos_r := <[n := cos_180 (degrees * n_pi)]> (cos_r b) |> <| sin_r := <[n := sin_180 (degrees * n_pi)]> (sin_r b) |>.
(** What was kept is taken up again, once the settings are read ([load_config] is not
    part of this); [load_last_wcs] is one of them.
    [src/src/modules/robot/Robot.cpp:157-182] Robot::on_module_loaded *)
Definition restore (load_last_wcs : bool) : M unit :=
  e ← get eeprom;
  _ ← loadToolOffset [zero; zero; TLO e];
  on_robot (fun b =>
    let b := b <| tool_not_calibrated := ee_not_calibrated e |>
               <| current_wcs := if load_last_wcs then Z.to_nat (u8 (ee_current_wcs e)) else 0%nat |>
               <| cos_r := repeat (of_Z 1) MAX_WCS |> in
    foldl (fun b n => restore_wcs e n b) b (seq 0 6)).

(** ** What is always true *)

(** The cosine and the sine of an angle, as the robot comes by them. *)
Definition is_rotation (c s : num) : Prop :=
  (c = of_Z 1 /\ s = zero) \/ (exists d, c = cos_degrees d /\ s = sin_degrees d) \/ (exists x, c = cos_180 x /\ s = sin_180 x).
Definition plane_ok (p0 p1 p2 : nat) : Prop := (p0, p1, p2) = (0, 1, 2)%nat \/ (p0, p1, p2) = (0, 2, 1)%nat \/ (p0, p1, p2) = (1, 2, 0)%nat.
(** Every index is within its array, every rotation is one. *)
Record robot_ok (b : Robot) : Prop := mk_robot_ok {
  ro_wcs : (current_wcs b < MAX_WCS)%nat;
  ro_stack : Forall (fun s => (sv_wcs s < MAX_WCS)%nat) (state_stack b);
  ro_offsets : length (wcs_offsets b) = MAX_WCS; ro_r : length (r_ b) = MAX_WCS; ro_cos : length (cos_r b) = MAX_WCS; ro_sin : length (sin_r b) = MAX_WCS;
  ro_rotations : forall n, (n < MAX_WCS)%nat -> is_rotation (cos_r b !!! n) (sin_r b !!! n);
  ro_plane : plane_ok (plane_axis_0 b) (plane_axis_1 b) (plane_axis_2 b);
  ro_position : length (machine_position b) = k_max_actuators; ro_compensated : length (compensated_machine_position b) = k_max_actuators;
  ro_arc : length (arc_milestone b) = 3%nat; ro_speeds : length (max_speeds b) = 3%nat;
  ro_transform : forall f, compensationTransform b = Some f -> forall i p, length (f i p) = length p
}.
Record eeprom_ok (e : Eeprom) : Prop := mk_eeprom_ok {
  eo_coord : length (WCScoord e) = 6%nat /\ Forall (fun c => length c = 4%nat) (WCScoord e); eo_rotation : length (WCSrotation e) = 6%nat
}.
(** The machine has its five motors. *)
Record world_ok (w : World) : Prop := mk_world_ok {
  wo_robot : robot_ok (robot w); wo_eeprom : eeprom_ok (eeprom w); wo_motors : n_motors (robot w) = k_max_actuators;
  wo_actuators : length (actuators w) = k_max_actuators
}.

(** *** Operations that keep it *)

(** The rest of the firmware keeps it. *)
Class MachineOk : Prop := mk_machine_ok {
  idle_ok : forall w, world_ok w -> world_ok (on_idle w);
  wait_ok : forall w, world_ok w -> world_ok (wait_for_idle w);
  halt_ok : forall w, world_ok w -> world_ok (on_halt w);
  reason_ok : forall x w, world_ok w -> world_ok (set_halt_reason x w);
  enable_ok : forall n w, world_ok w -> world_ok (on_enable n w);
  append_ok : forall m w, world_ok w -> world_ok (fst (append_block m w))
}.
Definition keeps {A} (m : M A) : Prop := forall w, world_ok w -> match m w with Some (_, w') => world_ok w' | None => True end.
Lemma keeps_ret {A} (x : A) : keeps (mret x).
Proof. by intros w Hw. Qed.
Lemma keeps_stuck {A} : keeps (stuck (A := A)).
Proof. done. Qed.
Lemma keeps_bind {A B} (m : M A) (k : A -> M B) : keeps m -> (forall x, keeps (k x)) -> keeps (m ≫= k).
Proof. intros Hm Hk w Hw. specialize (Hm w Hw). unfold mbind, M_bind. destruct (m w) as [[x w']|]; [|done]. exact (Hk x w' Hm). Qed.
(** What is read is read of a world that is right. *)
Lemma keeps_get {A B} (f : World -> A) (k : A -> M B) : (forall w, world_ok w -> keeps (k (f w))) -> keeps (get f ≫= k).
Proof. intros Hk w Hw. exact (Hk w Hw w Hw). Qed.
Lemma keeps_read {A} (f : World -> A) : keeps (get f).
Proof. by intros w Hw. Qed.
Lemma keeps_modify f : (forall w, world_ok w -> world_ok (f w)) -> keeps (modify f).
Proof. intros Hf w Hw. exact (Hf w Hw). Qed.
Definition robot_keeps (f : Robot -> Robot) : Prop := forall b, robot_ok b -> n_motors b = k_max_actuators -> robot_ok (f b) /\ n_motors (f b) = k_max_actuators.
Lemma keeps_robot f : robot_keeps f -> keeps (on_robot f).
Proof. intros Hf. apply keeps_modify. intros w [Hr He Hn Ha]. destruct (Hf _ Hr Hn) as [Hr' Hn']. by split. Qed.
Lemma keeps_tell o : keeps (tell o).
Proof. apply keeps_modify. by intros w []. Qed.
Lemma keeps_axis i f : keeps (on_axis i f).
Proof. apply keeps_modify. intros w [Hr He Hn Ha]. split; try done. recs. by rewrite length_alter. Qed.
Lemma keeps_eeprom f : (forall e, eeprom_ok e -> eeprom_ok (f e)) -> keeps (write_eeprom f).
Proof. intros Hf. apply keeps_bind; [|intros; apply keeps_tell]. apply keeps_modify. intros w [Hr He Hn Ha]. split; try done. by apply Hf. Qed.
Lemma keeps_for_each l f : (forall i, i ∈ l -> keeps (f i)) -> keeps (for_each l f).
Proof.
  induction l as [|i l IH]; intros Hf; [apply keeps_ret|]. cbn [for_each].
  apply keeps_bind; [apply Hf; apply list_elem_of_here|intros _; apply IH; intros j Hj; apply Hf; by apply list_elem_of_further].
Qed.
Context `{!MachineOk}.
Lemma keeps_idle : keeps (modify on_idle).
Proof. apply keeps_modify, idle_ok. Qed.
Lemma keeps_wait : keeps (modify wait_for_idle).
Proof. apply keeps_modify, wait_ok. Qed.
Lemma keeps_halt : keeps (modify on_halt).
Proof. apply keeps_modify, halt_ok. Qed.
Lemma keeps_reason x : keeps (modify (set_halt_reason x)).
Proof. apply keeps_modify, reason_ok. Qed.
Lemma keeps_enable n : keeps (modify (on_enable n)).
Proof. apply keeps_modify, enable_ok. Qed.
Lemma keeps_queue m : keeps (queue_block m).
Proof. intros w Hw. unfold queue_block. pose proof (append_ok m w Hw). by destruct (append_block m w). Qed.
Lemma keeps_env f : keeps (modify (fun w => w <| env := f (env w) |>)).
Proof. apply keeps_modify. by intros w []. Qed.
Lemma keeps_out f : keeps (modify (fun w => w <| out := f w |>)).
Proof. apply keeps_modify. by intros w []. Qed.
End Robot.
(** A change of the robot that leaves what must hold in sight. *)
Ltac robot_fields := cbv beta iota zeta delta [set_field
  r_ inch_mode absolute_mode e_absolute_mode inverse_time_mode next_command_is_MCS disable_segmentation disable_arm_solution
  segment_z_moves save_g92 save_g54 is_g123 soft_endstop_enabled soft_endstop_halt plane_axis_0 plane_axis_1 plane_axis_2 compensationTransform
  wcs_offsets current_wcs g92_offset tool_offset cos_r sin_r current_motion_mode state_stack machine_position
  compensated_machine_position seek_rate feed_rate mm_per_line_segment mm_per_arc_segment mm_max_arc_error delta_segments_per_second
  seconds_per_minute default_acceleration s_value arc_milestone laser_module_offset arc_correction max_speeds max_speed
  tool_not_calibrated home_override soft_endstop_min soft_endstop_max rotary_clearance_y_min n_motors] in *.
Ltac robot_step := intros [] [] ?; robot_fields; (split; [constructor; robot_fields; auto | done]).
Ltac keep_step :=
  lazymatch goal with
  | |- keeps (mret _) => apply keeps_ret
  | |- keeps (tell _) => apply keeps_tell
  | |- keeps (on_axis _ _) => apply keeps_axis
  | |- keeps (queue_block _) => apply keeps_queue
  | |- keeps stuck => apply keeps_stuck
  | |- keeps (modify on_idle) => apply keeps_idle
  | |- keeps (modify wait_for_idle) => apply keeps_wait
  | |- keeps (modify on_halt) => apply keeps_halt
  | |- keeps (modify (set_halt_reason _)) => apply keeps_reason
  | |- keeps (modify (on_enable _)) => apply keeps_enable
  | |- keeps (modify _) => first [apply keeps_env | apply keeps_out]
  | |- keeps (get _) => apply keeps_read
  | |- keeps (on_robot _) => apply keeps_robot; try solve [robot_step]
  | |- keeps (mbind _ (get _)) => apply keeps_get; intros ? ?
  | |- keeps (mbind _ world) => apply keeps_get; intros ? ?
  | |- keeps (mbind _ _) => apply keeps_bind; [|intros ?]
  | |- keeps (if ?c then _ else _) => destruct c
  | |- keeps (let '_ := ?c in _) => destruct c
  | |- keeps (match ?c with _ => _ end) => destruct c
  end.
Create HintDb robot.
#[export] Hint Unfold robot_keeps : robot.
Ltac keep := repeat first [solve [auto with robot nocore] | progress cbv zeta | keep_step].
Arguments Machine {H} Motor Env : rename.
Arguments World {H} Motor Env : rename.
Section Kept.
Context `{Arith} {Motor : Type} `{!Axis Motor} {Env : Type} `{!Machine Motor Env} `{!MachineOk}.
Abbreviation keeps := (keeps (Motor := Motor) (Env := Env)).
Lemma keeps_laser : keeps setLaserOffset.
Proof. unfold setLaserOffset. keep. Qed.
Lemma keeps_load_tool offset : keeps (loadToolOffset offset).
Proof. unfold loadToolOffset. keep. apply keeps_laser. Qed.
Lemma keeps_save_wcs n o d : keeps (save_wcs n o d).
Proof.
  unfold save_wcs. keep. apply keeps_eeprom. intros e [[Hc Hf] Hr]. split; recs; rewrite ?length_insert; [split; [done|]|done].
  by apply Forall_insert.
Qed.
Lemma set_rotation_ok n d b : robot_ok b -> robot_ok (set_rotation n d b).
Proof.
  intros []. unfold set_rotation. constructor; recs; rewrite ?length_insert; auto. intros m Hm.
  destruct (decide (n = m)) as [->|Hne].
  - rewrite !list_lookup_total_insert_eq by lia. right. left. by exists d.
  - rewrite !list_lookup_total_insert_ne by done. auto.
Qed.
Lemma set_rotation_keeps n d : robot_keeps (set_rotation n d).
Proof. intros b Hb Hn. split; [by apply set_rotation_ok|done]. Qed.
Lemma set_offset_keeps n o : robot_keeps (fun b => b <| wcs_offsets := <[n := o]> (wcs_offsets b) |>).
Proof. intros b [] Hn. split; [|done]. constructor; recs; rewrite ?length_insert; auto. Qed.
Lemma keeps_set_current_wcs x y z a c d : keeps (set_current_wcs_by_mpos x y z a c d).
Proof.
  unfold set_current_wcs_by_mpos. keep; [|apply keeps_save_wcs]. intros b Hb Hn. destruct (isnan d); [by apply set_offset_keeps|].
  destruct (set_rotation_keeps (current_wcs (robot w)) d b Hb Hn) as [Hb' Hn']. by apply (set_offset_keeps _ _ (set_rotation _ _ b)).
Qed.
Lemma keeps_set_axes pos : keeps (set_axes pos).
Proof. unfold set_axes. apply keeps_for_each. intros. keep. Qed.
Lemma transformed_length b i p : robot_ok b -> length (transformed b i p) = length p.
Proof. intros Hb. unfold transformed. destruct (compensationTransform b) eqn:E; [by eapply ro_transform|done]. Qed.
Lemma with_xyz x y z (l : list num) : length l = k_max_actuators -> length ([x; y; z] ++ drop 3 l) = k_max_actuators.
Proof. intros Hl. rewrite length_app, length_drop, Hl. done. Qed.
Lemma keeps_reset_positions x y z : keeps (reset_axis_positions x y z).
Proof.
  unfold reset_axis_positions. keep; [|apply keeps_set_axes]. intros b Hb Hn. pose proof Hb as []. split; [|done]. cbv zeta.
  assert (Hp : length ([x; y; z] ++ drop 3 (machine_position b)) = k_max_actuators) by (by apply with_xyz).
  set (b1 := b <| compensated_machine_position := _ |> <| machine_position := _ |>).
  assert (Hb1 : robot_ok b1) by (constructor; unfold b1; recs; auto; by apply with_xyz).
  constructor; recs; auto; try (by rewrite transformed_length by done).
  - by apply with_xyz.
  - rewrite length_take, transformed_length by done. unfold b1. recs. by rewrite Hp.
Qed.
Lemma keeps_reset_position p i : keeps (reset_axis_position p i).
Proof.
  unfold reset_axis_position. keep; try apply keeps_reset_positions; intros b [] Hn; split; try done; constructor; recs; rewrite ?length_insert; auto.
Qed.
Lemma keeps_reset_from_actuators : keeps reset_position_from_current_actuator_position.
Proof.
  unfold reset_position_from_current_actuator_position. apply keeps_get. intros w Hw. cbv zeta. keep.
  - intros b Hb Hn. pose proof Hb as []. split; [|done]. cbv zeta. unfold actuator_to_cartesian. pose proof (ro_compensated _ (wo_robot _ Hw)) as Hc.
    set (c := [_; _; _] ++ drop 3 (compensated_machine_position (robot w))). assert (Hp : length c = k_max_actuators) by (by apply with_xyz).
    set (b1 := b <| compensated_machine_position := c |>). assert (Hb1 : robot_ok b1) by (constructor; unfold b1; recs; auto).
    assert (Ht : length (transformed b1 true c) = k_max_actuators) by (by rewrite transformed_length).
    change (transformed b true c) with (transformed b1 true c).
    constructor; recs; auto. by rewrite length_take, Ht.
  - apply keeps_set_axes.
  - apply keeps_for_each. intros i _. keep. intros b [] Hn. split; try done; constructor; recs; rewrite ?length_insert; auto.
Qed.
Lemma keeps_check_speeds : keeps check_max_actuator_speeds.
Proof. unfold check_max_actuator_speeds. keep. apply keeps_for_each. intros. keep. Qed.
Lemma push_keeps : robot_keeps push_state.
Proof. unfold push_state. robot_step. Qed.
Lemma pop_keeps : robot_keeps pop_state.
Proof.
  intros b Hb Hn. unfold pop_state. destruct (state_stack b) as [|s stack] eqn:E; [by split|]. pose proof (ro_stack _ Hb) as Hst. rewrite E in Hst.
  apply Forall_cons_iff in Hst as [Hs Hst]. clear E. revert b Hb Hn. robot_step.
Qed.
End Kept.
#[export] Hint Resolve keeps_laser keeps_load_tool keeps_save_wcs set_rotation_keeps set_offset_keeps keeps_set_current_wcs keeps_set_axes keeps_reset_positions
  keeps_reset_position keeps_reset_from_actuators keeps_check_speeds push_keeps pop_keeps : robot.
