(* ===== verification/RobotAxis.v ===== *)
(** * The stepper motors as the robot's axes

    [StepperMotor] gives the robot the axes it asks for, in single precision; and
    a machine that does nothing of its own, to run examples on. *)
From S2P Require Import Prelude Binary32 StepperMotor Arith Robot.
#[local] Open Scope Z_scope.

Section Axes.
Context `{MathLib}.
#[local] Existing Instance binary32.
(** [src/src/libs/StepperMotor.h:46-46] StepperMotor::get_current_position *)
Definition get_current_position (m : StepperMotor) : Z := fdiv (float_of_int (current_position_steps m)) (steps_per_mm m).
(** [src/src/libs/StepperMotor.h:36-57] StepperMotor *)
Definition stepper_axis : Axis StepperMotor := {|
  Robot.get_last_milestone := last_milestone_mm; Robot.get_current_position := get_current_position; Robot.get_steps_per_mm := steps_per_mm;
  Robot.get_max_rate := max_rate; Robot.get_acceleration := StepperMotor.acceleration; Robot.is_selected := selected; Robot.is_extruder := extruder;
  Robot.change_last_milestone x m := StepperMotor.change_last_milestone fmul lroundf m x; Robot.change_steps_per_mm x m := StepperMotor.change_steps_per_mm fmul lroundf m x;
  Robot.set_max_rate x m := m <| max_rate := x |>; Robot.set_acceleration x m := m <| acceleration := x |>
|}.
#[export] Existing Instance stepper_axis.
(** What a motor is told of where it is, it says again; and it stands there, to the
    nearest step. *)
Lemma told_milestone (x : Z) m :
  let m' := Robot.change_last_milestone x m in
  Robot.get_last_milestone m' = x /\ current_position_steps m' = last_milestone_steps m' /\ last_milestone_steps m' = s32 (lroundf (fmul x (steps_per_mm m))).
Proof. done. Qed.
End Axes.

(** ** A machine at rest *)

(** It takes every block, is homed, and is not halted; over any arithmetic and any
    motors. *)
Record Rest `{Arith} := mk_rest { blocks : list Move; halted : bool; reason : option HaltReason }.
#[export] Instance still `{Arith} {Motor} `{!Axis Motor} : Machine Motor Rest := {|
  Robot.is_halted := halted; Robot.motion_abort_requested _ := false; Robot.get_feed_hold _ := false; Robot.is_zprobing _ := false;
  Robot.is_continuous_mode _ := false; Robot.is_grbl_mode _ := true; Robot.get_laser_mode _ := false; Robot.rotary_installed _ := false;
  Robot.homing_status _ := Some false; Robot.homed_status _ := Some [true; true; true];
  Robot.default_seek_rate _ := None; Robot.base_stepping_frequency _ := of_Z 100000; Robot.us_ticker_read _ := 0; Robot.modal_command _ := 0;
  Robot.on_idle w := w; Robot.wait_for_idle w := w;
  Robot.on_halt w := mk_world (robot w) (actuators w) (eeprom w) (out w) (mk_rest _ (blocks (env w)) true (reason (env w)));
  Robot.set_halt_reason x w := mk_world (robot w) (actuators w) (eeprom w) (out w) (mk_rest _ (blocks (env w)) (halted (env w)) (Some x));
  Robot.on_enable _ w := w;
  Robot.set_junction_deviation _ e := e; Robot.set_z_junction_deviation _ e := e; Robot.set_minimum_planner_speed _ e := e;
  Robot.junction_deviation _ := literal 5 (-2); Robot.z_junction_deviation _ := nan; Robot.minimum_planner_speed _ := zero;
  Robot.append_block m w := (mk_world (robot w) (actuators w) (eeprom w) (out w) (mk_rest _ (blocks (env w) ++ [m]) (halted (env w)) (reason (env w))), true)
|}.
Lemma still_ok `{Arith} {Motor} `{!Axis Motor} : MachineOk (Motor := Motor) (Env := Rest).
Proof. split; intros; try done; match goal with H : world_ok _ |- _ => by destruct H end. Qed.
(** A motor that is where it is told, in any arithmetic. *)
Record PlainMotor `{Arith} := mk_plain { pm_milestone : num; pm_steps : num; pm_rate : num; pm_acceleration : num }.
#[export] Instance plain_axis `{Arith} : Axis PlainMotor := {|
  Robot.get_last_milestone := pm_milestone; Robot.get_current_position := pm_milestone; Robot.get_steps_per_mm := pm_steps;
  Robot.get_max_rate := pm_rate; Robot.get_acceleration := pm_acceleration; Robot.is_selected _ := true; Robot.is_extruder _ := false;
  Robot.change_last_milestone x m := mk_plain _ x (pm_steps m) (pm_rate m) (pm_acceleration m);
  Robot.change_steps_per_mm x m := mk_plain _ (pm_milestone m) x (pm_rate m) (pm_acceleration m);
  Robot.set_max_rate x m := mk_plain _ (pm_milestone m) (pm_steps m) x (pm_acceleration m);
  Robot.set_acceleration x m := mk_plain _ (pm_milestone m) (pm_steps m) (pm_rate m) x
|}.
(** Five axes; soft endstops from 0 to 300. *)
Definition still_robot `{Arith} : Robot :=
  let zeros n := repeat zero n in
  let b := new_robot (mk_robot [] false false false false false false false false false false false true false 0%nat 0%nat 0%nat None [] 0%nat wcs_zero wcs_zero [] [] 0 [] [] []
    (of_Z 3000) (of_Z 600) zero zero (literal 1 (-2)) zero zero (of_Z 100) zero (zeros 3%nat) wcs_zero 5 (map of_Z [40; 40; 20]) zero
    false false (zeros 3%nat) (map of_Z [300; 300; 300]) nan 0%nat) in
  b <| n_motors := k_max_actuators |> <| cos_r := repeat (of_Z 1) MAX_WCS |>.
Lemma still_robot_ok `{Arith} : robot_ok still_robot.
Proof.
  split; try done; try (vm_compute; lia); try (by left). intros n Hn. left. unfold MAX_WCS in Hn.
  do 9 (destruct n as [|n]; [by split|]). lia.
Qed.
Definition still_eeprom `{Arith} : Eeprom := mk_eeprom (repeat (repeat zero 4%nat) 6%nat) (repeat zero 6%nat) 0 zero zero 1 false.
Definition still_world `{Arith} {Motor} (m : Motor) : World Motor Rest := mk_world still_robot (repeat m 5%nat) still_eeprom [] (mk_rest _ [] false None).
Lemma still_world_ok `{Arith} {Motor} (m : Motor) : world_ok (still_world m).
Proof. split; [apply still_robot_ok|by repeat constructor|done..]. Qed.
(** Motors of 200 steps a millimetre, 50 mm/s and 100 mm/s2 each. *)
Definition still_motor : StepperMotor :=
  mk_motor (Pin.mk false true false) (Pin.mk false true false) (Pin.mk false true false) (float_of_int 200) (float_of_int 50) (float_of_int 100)
    0 0 0 0 false false true false.
Definition plain_motor `{Arith} : PlainMotor := mk_plain _ zero (of_Z 200) (of_Z 50) (of_Z 100).
(** A library for examples that turn nothing; an arc's angle is a hundredth. *)
Definition no_library : MathLib := {|
  lib_cos_degrees _ := f1; lib_sin_degrees _ := 0; lib_cos_180 _ := f1; lib_sin_180 _ := 0; lib_cosf _ := f1; lib_sinf _ := 0;
  lib_atan2f _ _ := float_literal 1 (-2); lib_hypotf x y := fsqrt (fadd (fmul x x) (fmul y y))
|}.
