(* ===== verification/RobotMoves.v ===== *)
(** * The robot's moves ([src/src/modules/robot/Robot.cpp])

    A G-code becomes a target in machine coordinates, a line or an arc to it is cut
    into segments, and each segment's end is a milestone: compensated, checked
    against the soft endstops, slowed down to what the axes can do, and handed to
    the planner. *)
From S2P Require Import Prelude Binary32 StepperMotor RobotAxis Arith Robot.
#[local] Open Scope Z_scope.
#[local] Open Scope nat_scope.

Section Moves.
Context `{Arith} {Motor : Type} `{!Axis Motor} {Env : Type} `{!Machine Motor Env}.
#[local] Open Scope num_scope.
Abbreviation World := (World Motor Env).
Abbreviation M := (M (Motor := Motor) (Env := Env)).

(** ** A milestone *)

(** The least distance that counts. *)
Definition tiny : num := literal 1 (-5).
Definition counts (d : num) : bool := negb (nabs d <? tiny).
(** What each axis is to move.
    [src/src/modules/robot/Robot.cpp:1713-1722] Robot::append_milestone *)
Definition deltas_to (b : Robot) (target : list num) : list num := zip_with nsub target (take (n_motors b) (compensated_machine_position b)).
(** [src/src/modules/robot/Robot.cpp:1719-1721] Robot::append_milestone *)
Definition sum_of_squares (deltas : list num) : num :=
  fold_left (fun sos d => if counts d then sos + nsquare d else sos) (take N_PRIMARY_AXIS deltas) zero.
(** The lowest Y there may be, with the rotary axis in place.
    [src/src/modules/robot/Robot.cpp:1726-1731] Robot::append_milestone *)
Definition effective_y_min (b : Robot) (e : Env) : num :=
  let y := soft_endstop_min b !!! Y_AXIS in let c := rotary_clearance_y_min b in
  if rotary_installed e && negb (isnan c) && (isnan y || (y <? c)) then c else y.
(** [src/src/modules/robot/Robot.cpp:1733-1739] Robot::append_milestone *)
Definition outside (b : Robot) (e : Env) (target deltas : list num) (i : nat) : bool :=
  let minimum := if (i =? Y_AXIS)%nat then effective_y_min b e else soft_endstop_min b !!! i in
  let maximum := soft_endstop_max b !!! i in
  is_homed i e &&
  ((negb (isnan minimum) && (target !!! i <? minimum) && (deltas !!! i <? zero)) ||
   (negb (isnan maximum) && (maximum <? target !!! i) && (zero <? deltas !!! i))).
(** Whether the milestone is refused, for the first axis outside. In continuous mode
    none is: the jog is ended elsewhere.
    [src/src/modules/robot/Robot.cpp:1725-1757] Robot::append_milestone *)
Definition check_soft_endstops (target deltas : list num) : M bool :=
  b ← get robot; e ← get env;
  if soft_endstop_enabled b && negb (is_zprobing e) && negb (is_continuous_mode e) then
    match List.find (outside b e target deltas) [X_AXIS; Y_AXIS; Z_AXIS] with
    | None => mret false
    | Some i =>
        if soft_endstop_halt b then
          _ ← tell (say "ERROR: Soft Endstop %c was exceeded - reset or $X or M999 required" [a_letter (axis_letter i)]);
          _ ← modify (set_halt_reason SOFT_LIMIT); _ ← modify on_halt; mret true
        else _ ← tell (say "Soft Endstop %c was exceeded - entire move ignored" [a_letter (axis_letter i)]); mret true
    end
  else mret false.
(** No primary axis moves.
    [src/src/modules/robot/Robot.cpp:1763-1769] Robot::append_milestone *)
Definition auxilliary (deltas : list num) : bool := negb (existsb (fun d => tiny <=? nabs d) (take N_PRIMARY_AXIS deltas)).
(** [src/src/modules/robot/Robot.cpp:1779-1797] Robot::append_milestone *)
Definition actuator_target (b : Robot) (target : list num) : list num :=
  (if disable_arm_solution b then take 3 target else cartesian_to_actuator target) ++ drop A_AXIS target.
(** The distance of a move of the other axes alone.
    [src/src/modules/robot/Robot.cpp:1791-1808] Robot::append_milestone *)
Definition auxilliary_distance (w : World) (pos : list num) : num :=
  nsqrt (fold_left (fun sos i => sos + nsquare (pos !!! i - axis i get_last_milestone zero w)) (seq A_AXIS (n_motors (robot w) - A_AXIS)) zero).
(** The distance, or nothing when it is too small to plan.
    [src/src/modules/robot/Robot.cpp:1771-1813] Robot::append_milestone *)
Definition distance_of (w : World) (deltas pos : list num) : option num :=
  if auxilliary deltas then
    let distance := auxilliary_distance w pos in
    if (distance <? tiny) || ((tiny <=? nabs (deltas !!! A_AXIS)) && (distance <? literal 1 (-3))) then None else Some distance
  else
    let distance := nsqrt (sum_of_squares deltas) in if distance <? tiny then None else Some distance.
(** The rate brought down to one axis's speed.
    [src/src/modules/robot/Robot.cpp:1826-1838] Robot::append_milestone *)
Definition limit_axis (b : Robot) (unit_vec : list num) (rate_mm_s : num) (i : nat) : num :=
  let limit := max_speeds b !!! i in
  if zero <? limit then
    let axis_speed := nabs (unit_vec !!! i * rate_mm_s) in if limit <? axis_speed then rate_mm_s * (limit / axis_speed) else rate_mm_s
  else rate_mm_s.
(** [src/src/modules/robot/Robot.cpp:1824-1846] Robot::append_milestone *)
Definition limit_rate (b : Robot) (unit_vec : list num) (rate_mm_s : num) : num :=
  let rate_mm_s := fold_left (limit_axis b unit_vec) [X_AXIS; Y_AXIS; Z_AXIS] rate_mm_s in
  if (zero <? max_speed b) && (max_speed b <? rate_mm_s) then max_speed b else rate_mm_s.
(** What the loop over the motors adjusts. *)
Record Pace := mk_pace { rate_mm_s : num; isecs : num; acceleration : num }.
(** The way of the tool's point round the rotary axis, a turn of it.
    [src/src/modules/robot/Robot.cpp:1866-1877] Robot::append_milestone *)
Definition a_perimeter (b : Robot) (target : list num) : num :=
  let pos := mcs2wcs b (mk_wcs (target !!! X_AXIS) (target !!! Y_AXIS) (target !!! Z_AXIS) zero zero) in
  let y := nabs (wy pos) in let z := nabs (wz pos) in
  let radius := if over y 1 (-5) || over z 1 (-5) then nsqrt (nsquare y + nsquare z) else zero in
  if over radius 1 (-1) then n_pi * of_Z 2 * radius else n_pi * of_Z 2.
(** The motor slowed down to its rate.
    [src/src/modules/robot/Robot.cpp:1912-1920] Robot::append_milestone *)
Definition limit_speed (m : Motor) (i : nat) (aux : bool) (distance d actuator_rate : num) (p : Pace) : Pace :=
  if get_max_rate m <? actuator_rate then
    let rate := rate_mm_s p * (get_max_rate m / actuator_rate) in
    mk_pace rate (if (i =? A_AXIS)%nat && negb aux then d / rate else distance / rate) (acceleration p)
  else p.
(** The acceleration down to its own; a turn counts for a third.
    [src/src/modules/robot/Robot.cpp:1924-1938] Robot::append_milestone *)
Definition limit_acceleration (m : Motor) (i : nat) (distance d : num) (p : Pace) : Pace :=
  let ma := get_acceleration m in
  if isnan ma then p
  else
    let ca := d / distance * acceleration p in
    if ma <? ca then mk_pace (rate_mm_s p) (isecs p) (acceleration p * (if (i =? A_AXIS)%nat then ma * of_Z 3 / ca else ma / ca)) else p.
Definition limit_motor (m : Motor) (i : nat) (aux : bool) (distance d actuator_rate : num) (p : Pace) : Pace :=
  limit_acceleration m i distance d (limit_speed m i aux distance d actuator_rate p).
(** The rotary axis alone, on a cut: sped up to the surface's speed, and to its own
    rate at most.
    [src/src/modules/robot/Robot.cpp:1878-1891] Robot::append_milestone *)
Definition pace_of_turn (b : Robot) (m : Motor) (perimeter : num) (p : Pace) : Pace :=
  let rate := rate_mm_s p in
  let mm_per_sec := perimeter * (rate / of_Z 360) in
  let rate := if negb (inverse_time_mode b) && (mm_per_sec <? rate) then rate * (rate / mm_per_sec) else rate in
  let rate := if get_max_rate m <? rate then get_max_rate m else rate in
  mk_pace rate (isecs p) (if isnan (get_acceleration m) then acceleration p else get_acceleration m).
(** [src/src/modules/robot/Robot.cpp:1856-1939] Robot::append_milestone *)
Definition pace_motor (w : World) (target pos : list num) (aux : bool) (distance : num) (p : Pace) (i : nat) : Pace :=
  let b := robot w in
  match actuators w !! i with
  | None => p
  | Some m =>
      let d := nabs (pos !!! i - get_last_milestone m) in
      if (d <? tiny) || negb (is_selected m) then p
      else
        let actuator_rate := d / isecs p in
        if (i =? A_AXIS)%nat && is_g123 b then
          let perimeter := a_perimeter b target in
          if aux then pace_of_turn b m perimeter p
          else
            let mm_per_sec := actuator_rate * perimeter / of_Z 360 in
            if negb (inverse_time_mode b) && over (nabs (mm_per_sec - rate_mm_s p)) 1 (-3) && over mm_per_sec 1 (-5) then
              let ratio := rate_mm_s p / mm_per_sec in
              let rate := rate_mm_s p * ratio in
              limit_motor m i aux distance d (actuator_rate * ratio) (mk_pace rate (d / rate) (acceleration p))
            else limit_motor m i aux distance d actuator_rate p
        else limit_motor m i aux distance d actuator_rate p
  end.
(** The rate, the acceleration, and the direction of a move of primary axes.
    [src/src/modules/robot/Robot.cpp:1816-1939] Robot::append_milestone *)
Definition pace_of (w : World) (target deltas pos : list num) (distance feed_rate : num) : Pace * option (list num) :=
  let b := robot w in
  let aux := auxilliary deltas in
  let feed_rate := if inverse_time_mode b then feed_rate * distance else feed_rate in
  let rate := feed_rate / seconds_per_minute b in
  let unit_vec := map (fun d => d / distance) (take N_PRIMARY_AXIS deltas) in
  let rate := if aux then rate else limit_rate b unit_vec rate in
  (fold_left (pace_motor w target pos aux distance) (seq 0 (n_motors b)) (mk_pace rate (distance / rate) (default_acceleration b)),
   if aux then None else Some unit_vec).
(** While a hold lasts, up to [fuel] turns of the idle loop; [false] when it ended in
    a halt or an abort.
    [src/src/modules/robot/Robot.cpp:1942-1946] Robot::append_milestone *)
Fixpoint wait_feed_hold (fuel : nat) : M bool :=
  e ← get env;
  if negb (get_feed_hold e) then mret true
  else match fuel with
       | O => stuck
       | S fuel => _ ← modify on_idle; e ← get env; if is_halted e || motion_abort_requested e then mret false else wait_feed_hold fuel
       end.
(** [hold] bounds the turns of the idle loop in a feed hold.
    [src/src/modules/robot/Robot.cpp:1693-1961] Robot::append_milestone *)
Definition append_milestone (hold : nat) (target : list num) (feed_rate : num) (line : Z) : M bool :=
  e ← get env; b ← get robot;
  if motion_abort_requested e then mret false
  else
    let transformed_target := transformed b false (take (n_motors b) target) in
    let deltas := deltas_to b transformed_target in
    refused ← check_soft_endstops transformed_target deltas;
    if refused : bool then mret false
    else if negb (existsb counts deltas) then mret false
    else
      w ← world;
      let pos := actuator_target b transformed_target in
      match distance_of w deltas pos with
      | None => mret false
      | Some distance =>
          let '(p, unit_vec) := pace_of w target deltas pos distance feed_rate in
          free ← wait_feed_hold hold;
          if negb free then mret false
          else
            b ← get robot;
            moved ← queue_block (mk_move pos (rate_mm_s p) distance unit_vec (acceleration p) (s_value b) (is_g123 b) line);
            if moved : bool then
              _ ← on_robot (fun b => b <| compensated_machine_position := transformed_target ++ drop (n_motors b) (compensated_machine_position b) |>); mret true
            else mret false
      end.

(** ** Lines *)

(** What is read of a G-code; how, and what reading does besides, is in [Gcode]. A
    letter that is not there has the value zero.
    [src/src/modules/communication/utils/Gcode.h:30-65] Gcode *)
Record Words := mk_words {
  has_g : bool; gw : Z; has_m : bool; mw : Z; subcode : Z; wline : Z; has_letter : ascii -> bool;
  get_value : ascii -> num; get_int : ascii -> Z; get_uint : ascii -> Z; get_num_args : Z
}.
(** A move of the machine's own, as for homing and probing.
    [src/src/modules/robot/Robot.cpp:1964-1995] Robot::delta_move *)
Definition delta_move (hold : nat) (delta : list num) (rate : num) (naxis : nat) : M bool :=
  e ← get env; b ← get robot;
  if is_halted e || motion_abort_requested e then mret false
  else if rate <=? zero then mret false
  else
    let target := imap (fun i x => if (i <? naxis)%nat then x + delta !!! i else x) (take (n_motors b) (machine_position b)) in
    let saved_itm := inverse_time_mode b in
    _ ← on_robot (fun b => b <| is_g123 := false |> <| inverse_time_mode := false |>);
    moved ← append_milestone hold target (rate * seconds_per_minute b) 0;
    _ ← (if moved : bool then on_robot (fun b => b <| machine_position := target ++ drop (n_motors b) (machine_position b) |> <| arc_milestone := take 3 target |>) else mret tt);
    _ ← on_robot (fun b => b <| inverse_time_mode := saved_itm |>);
    mret moved.
(** The command's error, and what all are told.
    [src/src/modules/robot/Robot.cpp:2001-2006] Robot::append_line *)
Definition bad_feed_rate (feed_rate : num) : M unit :=
  let zero_rate := neqb feed_rate zero in
  _ ← tell (error_text (if zero_rate then "Undefined feed rate" else "feed rate < 0"));
  tell (say (if zero_rate then "ERROR: Undefined feed rate" else "ERROR: feed rate < 0") []).
(** [src/src/modules/robot/Robot.cpp:2033-2057] Robot::append_line *)
Definition line_segments (b : Robot) (g : Words) (feed_rate travel : num) : Z :=
  if disable_segmentation b || (negb (segment_z_moves b) && negb (has_letter g "X"%char) && negb (has_letter g "Y"%char)) then 1%Z
  else if of_Z 1 <? delta_segments_per_second b then
    let seconds := seconds_per_minute b / feed_rate in
    let seconds := if inverse_time_mode b then seconds else seconds * travel in
    let c := n_ceilf (delta_segments_per_second b * seconds) in
    to_u16 (if of_Z 1 <? c then c else of_Z 1)
  else if neqb (mm_per_line_segment b) zero then 1%Z
  else to_u16 (n_ceilf (travel / mm_per_line_segment b)).
(** The ends of the segments but the last, [n] of them; nothing when the machine
    halts or the motion is given up.
    [src/src/modules/robot/Robot.cpp:2078-2087] Robot::append_line *)
Fixpoint line_loop (hold n : nat) (segment_end segment_delta : list num) (feed_rate : num) (line : Z) (moved : bool) : M (option bool) :=
  match n with
  | O => mret (Some moved)
  | S n =>
      e ← get env;
      if is_halted e || motion_abort_requested e then mret None
      else
        let segment_end := zip_with nadd segment_end segment_delta in
        m ← append_milestone hold segment_end feed_rate line;
        line_loop hold n segment_end segment_delta feed_rate line (moved || m)
  end.
(** How far it is to the target, in space.
    [src/src/modules/robot/Robot.cpp:2009-2009] Robot::append_line *)
Definition travel_to (b : Robot) (target : list num) : num :=
  let d (i : nat) := nsquare (target !!! i - machine_position b !!! i) in nsqrt (d X_AXIS + d Y_AXIS + d Z_AXIS).
(** [src/src/modules/robot/Robot.cpp:1998-2096] Robot::append_line *)
Definition append_line (hold : nat) (g : Words) (target : list num) (feed_rate : num) : M bool :=
  if feed_rate <=? zero then _ ← bad_feed_rate feed_rate; mret false
  else
    b ← get robot;
    let travel := travel_to b target in
    if travel <? tiny then append_milestone hold target feed_rate (wline g)
    else
      let segments := line_segments b g feed_rate travel in
      let feed_rate := if inverse_time_mode b then feed_rate * of_Z segments else feed_rate in
      let start := take (n_motors b) (machine_position b) in
      let segment_delta := zip_with (fun t p => (t - p) / of_Z segments) target start in
      moved ← line_loop hold (Z.to_nat segments - 1) start segment_delta feed_rate (wline g) false;
      match moved with
      | None => mret false
      | Some moved =>
          last ← append_milestone hold target feed_rate (wline g);
          _ ← on_robot (fun b => b <| next_command_is_MCS := false |>);
          mret (moved || last)
      end.
(** Compensation turned off: the machine is moved to where it was told to be.
    [src/src/modules/robot/Robot.cpp:1677-1688] Robot::reset_compensated_machine_position *)
Definition reset_compensated_machine_position (hold : nat) : M unit :=
  b ← get robot;
  match compensationTransform b with
  | None => mret tt
  | Some _ =>
      _ ← on_robot (fun b => b <| compensationTransform := None |> <| is_g123 := false |>);
      moved ← append_milestone hold (machine_position b) (seek_rate b) 0;
      if moved : bool then mret tt
      else b ← get robot; let p := machine_position b in reset_axis_positions (p !!! X_AXIS) (p !!! Y_AXIS) (p !!! Z_AXIS)
  end.

(** ** Arcs *)

(** [src/src/modules/robot/Robot.cpp:2135-2155] Robot::append_arc *)
Definition angular_travel (b : Robot) (target start_vector target_vector : list num) (is_clockwise : bool) : num :=
  let p0 := plane_axis_0 b in let p1 := plane_axis_1 b in
  let turn := of_Z 2 * n_pi in
  if neqb (arc_milestone b !!! p0) (target !!! p0) && neqb (arc_milestone b !!! p1) (target !!! p1) then (if is_clockwise then of_Z (-2) * n_pi else turn)
  else
    let s0 := start_vector !!! p0 in let s1 := start_vector !!! p1 in let t0 := target_vector !!! p0 in let t1 := target_vector !!! p1 in
    let angle := n_atan2f (s0 * t1 - s1 * t0) (s0 * t0 + s1 * t1) in
    if (if (plane_axis_2 b =? Y_AXIS)%nat then negb is_clockwise else is_clockwise) then (if zero <? angle then angle - turn else angle)
    else (if angle <? zero then angle + turn else angle).
(** [src/src/modules/robot/Robot.cpp:2164-2180] Robot::append_arc *)
Definition arc_segments (b : Robot) (radius travel : num) : Z :=
  let arc_segment :=
    if (zero <? mm_max_arc_error b) && (mm_max_arc_error b <? of_Z 2 * radius) then
      let min_err_segment := of_Z 2 * nsqrt (mm_max_arc_error b * (of_Z 2 * radius - mm_max_arc_error b)) in
      if mm_per_arc_segment b <? min_err_segment then min_err_segment else mm_per_arc_segment b
    else mm_per_arc_segment b in
  let arc_segment := if arc_segment <? literal 1 (-4) then literal 5 (-1) else arc_segment in
  to_u16 (n_floorf (travel / arc_segment)).
Definition s8 (x : Z) : Z := let y := wrap 8 x in if (y <? 128)%Z then y else (y - 256)%Z.
(** The radius turned by one segment, exactly once in a while.
    [src/src/modules/robot/Robot.cpp:2243-2257] Robot::append_arc *)
Definition turn_radius (b : Robot) (offset v : list num) (theta_per_segment : num) (i : Z) (count : Z) : list num * Z :=
  let p0 := plane_axis_0 b in let p1 := plane_axis_1 b in
  if (count <? arc_correction b)%Z then
    let cos_T := of_Z 1 - literal 5 (-1) * theta_per_segment * theta_per_segment in
    let sin_T := theta_per_segment in
    let r_axisi := v !!! p0 * sin_T + v !!! p1 * cos_T in
    (<[p1 := r_axisi]> (<[p0 := v !!! p0 * cos_T - v !!! p1 * sin_T]> v), s8 (count + 1))
  else
    let cos_Ti := n_cosf (of_Z i * theta_per_segment) in let sin_Ti := n_sinf (of_Z i * theta_per_segment) in
    (<[p1 := - (offset !!! p0) * sin_Ti - offset !!! p1 * cos_Ti]> (<[p0 := - (offset !!! p0) * cos_Ti + offset !!! p1 * sin_Ti]> v), 0%Z).
(** [src/src/modules/robot/Robot.cpp:2259-2267] Robot::append_arc *)
Definition arc_point (b : Robot) (center v linear target : list num) (i segments : Z) : list num :=
  let '(x, y) := rotate b (v !!! 0%nat) (v !!! 1%nat) in
  let v := [x; y; v !!! 2%nat] in
  map (fun k => center !!! k + v !!! k + of_Z i * linear !!! k) [X_AXIS; Y_AXIS; Z_AXIS] ++
  map (fun j => machine_position b !!! j + of_Z i * (target !!! j - machine_position b !!! j) / of_Z segments) (seq A_AXIS (n_motors b - A_AXIS)).
(** [n] segments are left but the last.
    [src/src/modules/robot/Robot.cpp:2240-2272] Robot::append_arc *)
Fixpoint arc_loop (hold n : nat) (i segments : Z) (offset center v linear target : list num) (theta_per_segment rate : num) (count : Z) (line : Z) (moved : bool) : M (option bool) :=
  match n with
  | O => mret (Some moved)
  | S n =>
      e ← get env;
      if is_halted e || motion_abort_requested e then mret None
      else
        b ← get robot;
        let '(v, count) := turn_radius b offset v theta_per_segment i count in
        m ← append_milestone hold (arc_point b center v linear target i segments) rate line;
        arc_loop hold n (i + 1)%Z segments offset center v linear target theta_per_segment rate count line (moved || m)
  end.
Definition none : list num := [zero; zero; zero].
Definition rotated (b : Robot) (v : list num) : list num := let '(x, y) := rotate b (v !!! 0%nat) (v !!! 1%nat) in [x; y; v !!! 2%nat].
(** [src/src/modules/robot/Robot.cpp:2110-2123] Robot::append_arc *)
Definition arc_center (b : Robot) (offset : list num) : list num :=
  let o := rotated b offset in let from := arc_milestone b in
  let at_axis (p : nat) := from !!! p + o !!! p in
  <[plane_axis_2 b := at_axis (plane_axis_2 b)]> (<[plane_axis_1 b := at_axis (plane_axis_1 b)]> (<[plane_axis_0 b := at_axis (plane_axis_0 b)]> none)).
(** [src/src/modules/robot/Robot.cpp:2124-2127] Robot::append_arc *)
Definition arc_linear (b : Robot) (target : list num) : list num :=
  rotated b (<[plane_axis_2 b := target !!! plane_axis_2 b - arc_milestone b !!! plane_axis_2 b]> none).
(** [src/src/modules/robot/Robot.cpp:2128-2130] Robot::append_arc *)
Definition arc_start (b : Robot) (offset : list num) : list num :=
  <[plane_axis_1 b := - (offset !!! plane_axis_1 b)]> (<[plane_axis_0 b := - (offset !!! plane_axis_0 b)]> none).
(** [src/src/modules/robot/Robot.cpp:2131-2133] Robot::append_arc *)
Definition arc_end (b : Robot) (target offset : list num) : list num :=
  let at_axis (p : nat) := target !!! p - arc_milestone b !!! p - offset !!! p in
  <[plane_axis_1 b := at_axis (plane_axis_1 b)]> (<[plane_axis_0 b := at_axis (plane_axis_0 b)]> none).
(** The linear part of one segment.
    [src/src/modules/robot/Robot.cpp:2193-2197] Robot::append_arc *)
Definition arc_step (linear : list num) (segments : Z) : list num :=
  if (1 <? segments)%Z then map (fun k => linear !!! k / of_Z segments) [X_AXIS; Y_AXIS; Z_AXIS] else linear.
(** [target] is before the rotation of the system in use, [rotated_target] after.
    [src/src/modules/robot/Robot.cpp:2101-2279] Robot::append_arc *)
Definition append_arc (hold : nat) (g : Words) (target rotated_target offset : list num) (radius : num) (is_clockwise : bool) : M bool :=
  b ← get robot;
  if feed_rate b <=? zero then _ ← bad_feed_rate (feed_rate b); mret false
  else
    let linear := arc_linear b target in
    let start := arc_start b offset in
    let angle := angular_travel b target start (arc_end b target offset) is_clockwise in
    let travel := n_hypotf (angle * radius) (nabs (linear !!! plane_axis_2 b)) in
    if travel <? literal 1 (-6) then mret false
    else
      let segments := arc_segments b radius travel in
      let rate := if inverse_time_mode b then feed_rate b * of_Z segments else feed_rate b in
      moved ← arc_loop hold (Z.to_nat segments - 1) 1 segments offset (arc_center b offset) start (arc_step linear segments) target (angle / of_Z segments) rate 0 (wline g) false;
      match moved with
      | None => mret false
      | Some moved => last ← append_milestone hold rotated_target rate (wline g); mret (moved || last)
      end.
(** [enum MOTION_MODE_T].
    [src/src/modules/robot/Robot.h:143-149] Robot *)
Inductive MotionMode := NONE | SEEK | LINEAR | CW_ARC | CCW_ARC.
Definition mode_number (m : MotionMode) : Z := match m with NONE => 0 | SEEK => 1 | LINEAR => 2 | CW_ARC => 3 | CCW_ARC => 4 end.
(** [src/src/modules/robot/Robot.cpp:2282-2296] Robot::compute_arc *)
Definition compute_arc (hold : nat) (g : Words) (offset target rotated_target : list num) (motion_mode : MotionMode) : M bool :=
  b ← get robot;
  append_arc hold g target rotated_target offset (n_hypotf (offset !!! plane_axis_0 b) (offset !!! plane_axis_1 b)) (match motion_mode with CW_ARC => true | _ => false end).

(** ** G0 to G3 *)

(** A letter's value, where there is one.
    [src/src/modules/robot/Robot.cpp:1287-1292] Robot::process_move *)
Definition given (g : Words) (conv : num -> num) (i : nat) : option num :=
  if has_letter g (axis_letter i) then let v := conv (get_value g (axis_letter i)) in if isnan v then None else Some v else None.
(** The target in machine coordinates, and the same before the rotation, for arcs:
    where X, Y and Z are those of the coordinate system in use, steps from where
    the machine is, or the machine's own.
    [src/src/modules/robot/Robot.cpp:1301-1366] Robot::process_move *)
Definition target_xyz (b : Robot) (param : nat -> option num) : list num * list num :=
  let mp := machine_position b in
  if next_command_is_MCS b then (map (fun i => default (mp !!! i) (param i)) [X_AXIS; Y_AXIS; Z_AXIS], take 3 mp)
  else if absolute_mode b then
    let pos := mcs2wcs b (wcs_of mp) in
    let g := g92_offset b in let t := tool_offset b in let o := wcs_offsets b !!! current_wcs b in
    let x := default (wx pos) (param X_AXIS) - wx g + wx t in
    let y := default (wy pos) (param Y_AXIS) - wy g + wy t in
    let z := default (wz pos) (param Z_AXIS) - wz g + wz t in
    let '(x, y) := rotate b x y in
    let target := [wx o + x; wy o + y; wz o + z] in
    let '(ax, ay) := unrotate b (target !!! 0%nat - mp !!! 0%nat) (target !!! 1%nat - mp !!! 1%nat) in
    (target, [ax + mp !!! 0%nat; ay + mp !!! 1%nat; target !!! 2%nat - mp !!! 2%nat + mp !!! 2%nat])
  else
    let d (i : nat) := default zero (param i) in
    let '(x, y) := rotate b (d X_AXIS) (d Y_AXIS) in
    ([x + mp !!! 0%nat; y + mp !!! 1%nat; d Z_AXIS + mp !!! 2%nat], map (fun i => d i + mp !!! i) [X_AXIS; Y_AXIS; Z_AXIS]).
(** [src/src/modules/robot/Robot.cpp:1410-1432] Robot::process_move *)
Definition target_ab (b : Robot) (param : nat -> option num) (i : nat) : num :=
  let mp := machine_position b !!! i in
  match param i with
  | None => mp
  | Some p =>
      if next_command_is_MCS b then p
      else if absolute_mode b then
        let part (o : wcs_t) := if (i =? A_AXIS)%nat then wa o else wb o in
        p + part (wcs_offsets b !!! current_wcs b) - part (g92_offset b) + part (tool_offset b)
      else p + mp
  end.
(** Both targets, for every motor. With fewer than five motors the code reads and
    writes past its arrays where this ends.
    [src/src/modules/robot/Robot.cpp:1279-1432] Robot::process_move *)
Definition targets (b : Robot) (g : Words) : list num * list num :=
  let n := n_motors b in
  let '(xyz, unrotated) := target_xyz b (given g (to_millimeters b)) in
  let ab := map (fun i => if (i <=? B_AXIS)%nat then target_ab b (given g (fun v => v)) i else machine_position b !!! i) (seq A_AXIS (n - A_AXIS)) in
  (xyz ++ ab, unrotated ++ ab).
(** [src/src/modules/robot/Robot.cpp:1294-1299] Robot::process_move *)
Definition arc_offset (b : Robot) (g : Words) : list num :=
  map (fun l => if has_letter g l then to_millimeters b (get_value g l) else zero) ["I"; "J"; "K"]%char.
(** The feed rate of this move; [false] when the command is an error.
    [src/src/modules/robot/Robot.cpp:1436-1471] Robot::process_move *)
Definition take_feed_rate (g : Words) (motion_mode : MotionMode) : M bool :=
  e ← get env;
  let seek := match motion_mode with SEEK => true | _ => false end in
  _ ← (if seek then on_robot (fun b => b <| seek_rate := default (of_Z 3000) (default_seek_rate e) |>) else mret tt);
  b ← get robot;
  ok ← (if has_letter g "F"%char then
          let f_value := to_millimeters b (get_value g "F"%char) in
          if f_value <=? zero then _ ← bad_feed_rate f_value; mret false
          else _ ← on_robot (fun b => if seek then b <| seek_rate := f_value |> else b <| feed_rate := f_value |>); mret true
        else if negb seek && inverse_time_mode b then
          _ ← modify (set_halt_reason MANUAL);
          _ ← tell (say "ERROR: Inverse-time feed mode requires F parameter on every G01/G02/G03 line." []);
          _ ← modify on_halt; mret false
        else mret true);
  if negb ok then mret false
  else _ ← (if has_letter g "S"%char then on_robot (fun b => b <| s_value := get_value g "S"%char |>) else mret tt); mret true.
(** [src/src/modules/robot/Robot.cpp:1534-1557] Robot::process_move *)
Definition perform (hold : nat) (g : Words) (target unrotated offset : list num) (motion_mode : MotionMode) : M bool :=
  b ← get robot;
  match motion_mode with
  | NONE => mret false
  | SEEK =>
      let saved_itm := inverse_time_mode b in
      _ ← on_robot (fun b => b <| inverse_time_mode := false |>);
      moved ← append_line hold g target (seek_rate b);
      _ ← on_robot (fun b => b <| inverse_time_mode := saved_itm |>); mret moved
  | LINEAR => append_line hold g target (feed_rate b)
  | CW_ARC | CCW_ARC => compute_arc hold g offset unrotated target motion_mode
  end.
(** [src/src/modules/robot/Robot.cpp:1279-1568] Robot::process_move *)
Definition process_move (hold : nat) (g : Words) (motion_mode : MotionMode) : M unit :=
  b ← get robot;
  let '(target, unrotated) := targets b g in
  let offset := arc_offset b g in
  ok ← take_feed_rate g motion_mode;
  if negb ok then mret tt
  else
    moved ← perform hold g target unrotated offset motion_mode;
    e ← get env;
    if motion_abort_requested e then mret tt
    else
      _ ← on_robot (fun b => b <| arc_milestone := take 3 target |>);
      if moved : bool then on_robot (fun b => b <| machine_position := target ++ drop (n_motors b) (machine_position b) |>) else mret tt.

(** ** The other G-codes *)

(** [src/src/modules/robot/Robot.cpp:619-633] Robot::on_gcode_received *)
Definition dwell_ms (g : Words) (e : Env) : Z :=
  let p := if has_letter g "P"%char then (if is_grbl_mode e then to_u32 (get_value g "P"%char * of_Z 1000) else u32 (get_int g "P"%char)) else 0%Z in
  if has_letter g "S"%char then u32 (p + get_int g "S"%char * 1000) else p.
(** [src/src/modules/robot/Robot.cpp:638-642] Robot::on_gcode_received *)
Fixpoint dwell_loop (fuel : nat) (start delay : Z) : M bool :=
  e ← get env;
  if negb (u32 (us_ticker_read e - start) <? u32 (delay * 1000))%Z then mret true
  else match fuel with
       | O => stuck
       | S fuel => _ ← modify on_idle; e ← get env; if is_halted e then mret false else dwell_loop fuel start delay
       end.
(** G4; [false] when the machine halts.
    [src/src/modules/robot/Robot.cpp:618-645] Robot::on_gcode_received *)
Definition dwell (fuel : nat) (g : Words) : M bool :=
  e ← get env;
  let delay_ms := dwell_ms g e in
  if (0 <? delay_ms)%Z then _ ← modify wait_for_idle; e ← get env; dwell_loop fuel (us_ticker_read e) delay_ms else mret true.
(** The offsets that make the present position the one given (L20), or those given
    (L2).
    [src/src/modules/robot/Robot.cpp:654-722] Robot::on_gcode_received *)
Definition wcs_offset (b : Robot) (pos : wcs_t) (g : Words) (n : nat) : wcs_t :=
  let o := wcs_offsets b !!! n in
  let mm l := to_millimeters b (get_value g l) in
  let has := has_letter g in
  if (get_int g "L"%char =? 20)%Z then
    let c := cos_r b !!! n in let s := sin_r b !!! n in
    let mx := machine_position b !!! X_AXIS in let my := machine_position b !!! Y_AXIS in
    let '(x, y) :=
      if has "X"%char && has "Y"%char then (mx - c * mm "X"%char + s * mm "Y"%char, my - c * mm "Y"%char - s * mm "X"%char)
      else if has "X"%char then (mx - c * mm "X"%char + s * wy pos, my - c * wy pos - s * mm "X"%char)
      else if has "Y"%char then (mx - c * wx pos + s * mm "Y"%char, my - c * mm "Y"%char - s * wx pos)
      else (wx o, wy o) in
    mk_wcs x y
      (if has "Z"%char then machine_position b !!! Z_AXIS - mm "Z"%char - wz (tool_offset b) else wz o)
      (if has "A"%char then wa o - (get_value g "A"%char - wa pos) else wa o)
      (if has "B"%char then wb o - (get_value g "B"%char - wb pos) else wb o)
  else
    mk_wcs (if has "X"%char then mm "X"%char else wx o) (if has "Y"%char then mm "Y"%char else wy o) (if has "Z"%char then mm "Z"%char else wz o)
      (if has "A"%char then get_value g "A"%char else wa o) (if has "B"%char then get_value g "B"%char else wb o).
(** A probe that is not calibrated would be set by.
    [src/src/modules/robot/Robot.cpp:658-659] Robot::on_gcode_received *)
Definition uncalibrated (g : Words) (w : World) : bool :=
  let tool := TOOL (eeprom w) in
  has_letter g "Z"%char && (get_int g "L"%char =? 20)%Z && tool_not_calibrated (robot w) && ((tool =? 0) || (999990 <=? tool) || (tool =? 9999))%Z.
(** G10; [false] when the machine halts.
    [src/src/modules/robot/Robot.cpp:647-740] Robot::on_gcode_received *)
Definition set_wcs (g : Words) : M bool :=
  w ← world;
  let b := robot w in
  let l20 := (get_int g "L"%char =? 20)%Z in
  if has_letter g "L"%char && ((get_int g "L"%char =? 2)%Z || l20) && has_letter g "P"%char then
    let p := get_uint g "P"%char in
    let n := if (p =? 0)%Z then Z.of_nat (current_wcs b) else (p - 1)%Z in
    if negb (n <? Z.of_nat MAX_WCS)%Z then mret true
    else
      let n := Z.to_nat n in
      let pos := mcs2selected_wcs b (wcs_of (machine_position b)) n in
      if uncalibrated g w then
        _ ← tell (say "ERROR: Probe not calibrated. Please calibrate probe before probing." []);
        _ ← modify on_halt; _ ← modify (set_halt_reason CALIBRATE_FAIL); mret false
      else
        _ ← on_robot (fun b => if has_letter g "R"%char then set_rotation n (get_value g "R"%char) b else b);
        b ← get robot;
        let o := wcs_offset b pos g n in
        _ ← on_robot (fun b => b <| wcs_offsets := <[n := o]> (wcs_offsets b) |>);
        _ ← save_wcs n o (r_ b !!! n); mret true
  else mret true.
(** [src/src/modules/robot/Robot.cpp:755-769] Robot::on_gcode_received *)
Definition select_wcs (g : Words) : M unit :=
  let n := (gw g - 54)%Z in
  let n := if ((gw g =? 59) && (0 <? subcode g))%Z then Z.min (n + subcode g) (Z.of_nat MAX_WCS - 1) else n in
  _ ← on_robot (fun b => b <| current_wcs := Z.to_nat n |>);
  write_eeprom (fun e => e <| ee_current_wcs := if ((0 <? n) && (n <? 6))%Z then n else 0%Z |>).
(** G92.4 with A: the rotary axis's own ways to be set.
    [src/src/modules/robot/Robot.cpp:787-836] Robot::on_gcode_received *)
Definition set_a_axis (hold : nat) (g : Words) : M unit :=
  w ← world;
  let b := robot w in
  let ma := axis A_AXIS get_current_position zero w in
  if has_letter g "S"%char then
    let wa_ := wa (mcs2wcs b (mk_wcs zero zero zero ma zero)) in
    if of_Z 360 <? nabs wa_ then reset_axis_position (ma - (wa_ - n_fmodf wa_ (of_Z 360))) A_AXIS else mret tt
  else if has_letter g "R"%char then
    let o := wcs_offsets b !!! current_wcs b in
    let ma := n_fmodf ma (of_Z 360) in
    _ ← reset_axis_position ma A_AXIS;
    let mc := n_fmodf (get_value g "A"%char + wa o) (of_Z 360) in
    rate ← get (axis A_AXIS get_max_rate zero);
    _ ← delta_move hold [zero; zero; zero; mc - ma] rate (S A_AXIS);
    _ ← modify wait_for_idle;
    _ ← reset_axis_position (get_value g "A"%char + wa o) A_AXIS;
    b ← get robot;
    let n := current_wcs b in
    if (n <=? 5)%nat then write_eeprom (fun e => e <| WCScoord := <[n := [wx o; wy o; wz o; wa o]]> (WCScoord e) |>) else mret tt
  else reset_axis_position (get_value g "A"%char) A_AXIS.
(** [src/src/modules/robot/Robot.cpp:852-877] Robot::on_gcode_received *)
Definition set_g92 (g : Words) (b : Robot) : Robot :=
  let o := g92_offset b in
  let pos := mcs2wcs b (wcs_of (machine_position b)) in
  let adjust l conv (part : wcs_t -> num) := if has_letter g l then part o + (conv (get_value g l) - part pos) else part o in
  b <| g92_offset := mk_wcs (adjust "X"%char (to_millimeters b) wx) (adjust "Y"%char (to_millimeters b) wy) (adjust "Z"%char (to_millimeters b) wz)
                       (adjust "A"%char (fun v => v) wa) (adjust "B"%char (fun v => v) wb) |>.
(** [src/src/modules/robot/Robot.cpp:774-905] Robot::on_gcode_received *)
Definition handle_g92 (hold : nat) (g : Words) : M unit :=
  if ((subcode g =? 1) || (subcode g =? 2) || (get_num_args g =? 0))%Z then on_robot (fun b => b <| g92_offset := wcs_zero |>)
  else if (subcode g =? 4)%Z then
    _ ← modify wait_for_idle;
    _ ← for_each [X_AXIS; Y_AXIS; Z_AXIS] (fun i => if has_letter g (axis_letter i) then reset_axis_position (get_value g (axis_letter i)) i else mret tt);
    if has_letter g "A"%char then set_a_axis hold g else mret tt
  else if (subcode g =? 3)%Z then
    let v l := if has_letter g l then get_value g l else zero in
    on_robot (fun b => b <| g92_offset := mk_wcs (v "X"%char) (v "Y"%char) (v "Z"%char) (v "A"%char) (v "B"%char) |>)
  else if (subcode g =? 5)%Z then setLaserOffset
  else on_robot (set_g92 g).

(** ** The M-codes *)

(** For each motor that is not an extruder. *)
Definition for_each_axis (f : nat -> M unit) : M unit :=
  n ← get (fun w => n_motors (robot w));
  for_each (seq 0 n) (fun i => extruder ← get (axis i is_extruder true); if extruder : bool then mret tt else f i).
Definition when (c : bool) (m : M unit) : M unit := if c then m else mret tt.
(** [src/src/modules/robot/Robot.cpp:1253-1260] Robot::get_active_extruder *)
Definition get_active_extruder (w : World) : nat :=
  default 0%nat (List.find (fun i => axis i is_extruder false w && axis i is_selected false w) (seq A_AXIS (n_motors (robot w) - A_AXIS))).
(** M18 and M84.
    [src/src/modules/robot/Robot.cpp:930-956] Robot::on_gcode_received *)
Definition disable_motors (g : Words) : M unit :=
  w ← world;
  if (mw g =? 18)%Z && (0 <? get_num_args g)%Z then
    let named := filter (fun i => has_letter g (axis_letter i) = true) (seq 0 (n_motors (robot w))) in
    let bm := foldr (fun i bm => Z.lor bm (Z.shiftl 2 (Z.of_nat i))) 0%Z named in
    let e := get_active_extruder w in
    let bm := if has_letter g "E"%char && (0 <? e)%nat then Z.lor bm (Z.shiftl 2 (Z.of_nat e)) else bm in
    _ ← modify wait_for_idle; modify (on_enable bm)
  else _ ← modify wait_for_idle; modify (on_enable 0).
(** [src/src/modules/robot/Robot.cpp:961-979] Robot::on_gcode_received *)
Definition set_steps_per_mm (g : Words) : M unit :=
  _ ← for_each_axis (fun i =>
    b ← get robot;
    let l := axis_letter i in
    _ ← when (has_letter g l) (on_axis i (change_steps_per_mm (if (i <=? Z_AXIS)%nat then to_millimeters b (get_value g l) else get_value g l)));
    s ← get (axis i get_steps_per_mm zero); tell (answer "%c:%f " [a_letter l; a_num s]));
  check_max_actuator_speeds.
(** M114: where the machine was told to be, where it is.
    [src/src/modules/robot/Robot.cpp:455-522] Robot::print_position *)
Definition print_position (sub : Z) (ignore_extruders : bool) (w : World) : list Out :=
  let b := robot w in
  let three (fmt : string) (p : list num) := [answer fmt (map a_num (take 3 p))] in
  let in_wcs (fmt : string) (p : list num) := let pos := mcs2wcs b (wcs_of p) in three fmt (map (from_millimeters b) [wx pos; wy pos; wz pos]) in
  let mpos := transformed b true (get_current_machine_position w) in
  (if sub =? 0 then in_wcs "C: X:%1.4f Y:%1.4f Z:%1.4f"%string (machine_position b)
   else if sub =? 4 then three "MP: X:%1.4f Y:%1.4f Z:%1.4f"%string (machine_position b)
   else if sub =? 5 then three "CMP: X:%1.4f Y:%1.4f Z:%1.4f"%string (compensated_machine_position b)
   else if sub =? 1 then in_wcs "WCS: X:%1.4f Y:%1.4f Z:%1.4f"%string mpos
   else if sub =? 2 then three "MCS: X:%1.4f Y:%1.4f Z:%1.4f"%string mpos
   else if sub =? 3 then three "APOS: X:%1.4f Y:%1.4f Z:%1.4f"%string (map (fun i => axis i get_current_position zero w) [X_AXIS; Y_AXIS; Z_AXIS])
   else [])%Z ++
  flat_map (fun i =>
    if ignore_extruders && axis i is_extruder false w then []
    else if (sub =? 4)%Z then [answer " %c:%1.4f" [a_letter (axis_letter i); a_num (machine_position b !!! i)]]
    else if ((sub =? 2) || (sub =? 3))%Z then [answer " %c:%1.4f" [a_letter (axis_letter i); a_num (axis i get_current_position zero w)]]
    else []) (seq A_AXIS (n_motors b - A_AXIS)).
(** M203, on its letters.
    [src/src/modules/robot/Robot.cpp:1012-1049] Robot::on_gcode_received *)
Definition set_max_speeds (g : Words) : M unit :=
  let v i := get_value g (axis_letter i) in
  _ ← for_each [X_AXIS; Y_AXIS; Z_AXIS] (fun i => when (has_letter g (axis_letter i))
    (if (subcode g =? 0)%Z then on_robot (fun b => b <| max_speeds := <[i := v i]> (max_speeds b) |>)
     else when (subcode g =? 1)%Z (on_axis i (set_max_rate (v i)))));
  _ ← (if (subcode g =? 1)%Z then
         for_each_axis (fun i => when ((A_AXIS <=? i)%nat && has_letter g (axis_letter i)) (on_axis i (set_max_rate (v i))))
       else when (has_letter g "S"%char) (on_robot (fun b => b <| max_speed := get_value g "S"%char |>)));
  let abc := ["A"; "B"; "C"]%char in
  _ ← when ((subcode g =? 0)%Z && existsb (has_letter g) abc)
        (_ ← tell (answer "NOTE this format is deprecated, Use M203.1 instead" []);
         for_each [X_AXIS; Y_AXIS; Z_AXIS] (fun i => let l := nth i abc "A"%char in when (has_letter g l) (on_axis i (set_max_rate (get_value g l)))));
  when (subcode g =? 1)%Z check_max_actuator_speeds.
(** [src/src/modules/robot/Robot.cpp:997-1010] Robot::on_gcode_received *)
Definition show_max_speeds (g : Words) (w : World) : list Out :=
  let line i x := answer " %c: %g " [a_letter (axis_letter i); a_num x] in
  map (fun i => line i (if (subcode g =? 0)%Z then max_speeds (robot w) !!! i else axis i get_max_rate zero w)) [X_AXIS; Y_AXIS; Z_AXIS] ++
  (if (subcode g =? 1)%Z then
     flat_map (fun i => if axis i is_extruder true w then [] else [line i (axis i get_max_rate zero w)]) (seq A_AXIS (n_motors (robot w) - A_AXIS))
   else [answer " S: %g " [a_num (max_speed (robot w))]]).
(** M204.
    [src/src/modules/robot/Robot.cpp:1052-1069] Robot::on_gcode_received *)
Definition set_accelerations (g : Words) : M unit :=
  _ ← when (has_letter g "S"%char)
        (let acc := get_value g "S"%char in on_robot (fun b => b <| default_acceleration := if acc <? of_Z 1 then of_Z 1 else acc |>));
  for_each_axis (fun i => let acc := get_value g (axis_letter i) in
    when (has_letter g (axis_letter i)) (on_axis i (set_acceleration (if acc <=? zero then nan else acc)))).
(** M205.
    [src/src/modules/robot/Robot.cpp:1071-1093] Robot::on_gcode_received *)
Definition set_junctions (g : Words) : M unit :=
  let set l (f : num -> Env -> Env) (fix_value : num -> num) := when (has_letter g l) (modify (fun w => w <| env := f (fix_value (get_value g l)) (env w) |>)) in
  _ ← set "X"%char set_junction_deviation (fun v => if v <? zero then zero else v);
  _ ← set "Z"%char set_z_junction_deviation (fun v => if v <=? of_Z (-1) then nan else v);
  set "S"%char set_minimum_planner_speed (fun v => if v <? zero then zero else v).
(** M211.
    [src/src/modules/robot/Robot.cpp:1095-1116] Robot::on_gcode_received *)
Definition soft_endstops (g : Words) : M unit :=
  if has_letter g "S"%char then on_robot (fun b => b <| soft_endstop_enabled := (get_uint g "S"%char =? 1)%Z |>)
  else
    w ← world;
    let b := robot w in
    let limit (off on : string) i x := if isnan x then [answer off [a_letter (axis_letter i)]] else [answer on [a_letter (axis_letter i); a_num x]] in
    _ ← tell (answer (if soft_endstop_enabled b then "Soft endstops are Enabled" else "Soft endstops are Disabled") []);
    for_each [X_AXIS; Y_AXIS; Z_AXIS] (fun i => modify (fun w => w <| out := out w ++
      limit ",%c min is disabled"%string ",%c min = %1.3f"%string i (soft_endstop_min b !!! i) ++ limit ",%c max is disabled"%string ",%c max = %1.3f"%string i (soft_endstop_max b !!! i) ++
      (if is_homed i (env w) then [] else [answer ",%c axis is not homed" [a_letter (axis_letter i)]]) |>)).
(** M220.
    [src/src/modules/robot/Robot.cpp:1118-1132] Robot::on_gcode_received *)
Definition speed_override (g : Words) : M unit :=
  if has_letter g "S"%char then
    let factor := get_value g "S"%char in
    let factor := if factor <? of_Z 10 then of_Z 10 else factor in
    let factor := if of_Z 1000 <? factor then of_Z 1000 else factor in
    on_robot (fun b => b <| seconds_per_minute := of_Z 6000 / factor |>)
  else s ← get (fun w => seconds_per_minute (robot w)); tell (answer "Speed factor at %6.2f %%" [a_num (of_Z 6000 / s)]).
(** M665; the cartesian arm has no settings of its own.
    [src/src/modules/robot/Robot.cpp:1206-1236] Robot::on_gcode_received *)
Definition set_segments (g : Words) : M unit :=
  if has_letter g "S"%char then
    let v := get_value g "S"%char in
    _ ← on_robot (fun b => b <| delta_segments_per_second := v |>); tell (answer "Delta segments set to %8.4f segs/sec" [a_num v])
  else when (has_letter g "U"%char)
    (let v := get_value g "U"%char in
     _ ← on_robot (fun b => b <| mm_per_line_segment := v |> <| delta_segments_per_second := zero |>);
     tell (answer "mm per line segment set to %8.4f" [a_num v])).
(** [src/src/libs/utils.cpp:431-438] wcs2gcode *)
Definition wcs2gcode (wcs : nat) : string :=
  let digit (n : nat) := String (ascii_of_nat n) EmptyString in
  ("G5" ++ digit (Nat.min wcs 5 + 52)%nat ++ (if (6 <=? wcs)%nat then "." ++ digit (49 + (wcs - 6))%nat else ""))%string.
Definition wcs_is_zero (o : wcs_t) : bool := forallb (fun x => neqb x zero) [wx o; wy o; wz o; wa o; wb o].
(** M500 and M503; what is saved is what is printed.
    [src/src/modules/robot/Robot.cpp:1138-1204] Robot::on_gcode_received *)
Definition list_settings (w : World) : list Out :=
  let b := robot w in let e := env w in
  let parts (o : wcs_t) := map a_num [wx o; wy o; wz o; wa o; wb o] in
  let each (fmt : string) (f : Motor -> num) (shown : num -> bool) :=
    flat_map (fun i => if axis i is_extruder true w then [] else let x := axis i f zero w in if shown x then [answer fmt [a_letter (axis_letter i); a_num x]] else []) (seq 0 (n_motors b)) in
  let all (x : num) := true in
  [answer ";Steps per unit:\nM92 " []] ++ each "%c%1.5f "%string get_steps_per_mm all ++ [answer "\n" []] ++
  [answer ";Acceleration mm/sec^2:\nM204 S%1.5f " [a_num (default_acceleration b)]] ++ each "%c%1.5f "%string get_acceleration (fun x => negb (isnan x)) ++ [answer "\n" []] ++
  [answer ";X- Junction Deviation, Z- Z junction deviation, S - Minimum Planner speed mm/sec:\nM205 X%1.5f Z%1.5f S%1.5f\n"
     [a_num (junction_deviation e); a_num (if isnan (z_junction_deviation e) then of_Z (-1) else z_junction_deviation e); a_num (minimum_planner_speed e)]] ++
  [answer ";Max cartesian feedrates in mm/sec:\nM203 X%1.5f Y%1.5f Z%1.5f S%1.5f\n" (map a_num (max_speeds b ++ [max_speed b]))] ++
  [answer ";Max actuator feedrates in mm/sec:\nM203.1 " []] ++ each "%c%1.5f "%string get_max_rate all ++ [answer "\n" []] ++
  (if save_g54 b then
     [answer ";WCS settings\n" []; answer "%s\n" [a_text (wcs2gcode (current_wcs b))]] ++
     flat_map (fun '(n, o) => if wcs_is_zero o then []
       else [answer "G10 L2 P%d X%f Y%f Z%f A%f B%f ; %s\n" (an_int (Z.of_nat (S n)) :: parts o ++ [a_text (wcs2gcode n)])]) (imap (fun n o => (n, o)) (wcs_offsets b))
   else []) ++
  (if save_g92 b && negb (wcs_is_zero (g92_offset b)) then [answer "G92.3 X%f Y%f Z%f A%f B%f\n" (parts (g92_offset b))] else []).
(** [src/src/modules/robot/Robot.cpp:920-925] Robot::on_gcode_received *)
Definition end_of_program (b : Robot) : Robot := b <| absolute_mode := true |> <| inverse_time_mode := false |> <| seconds_per_minute := of_Z 60 |>.
(** Whether the handler goes on to its end.
    [src/src/modules/robot/Robot.cpp:911-1237] Robot::on_gcode_received *)
Definition handle_m (g : Words) : M bool :=
  w ← world;
  let go m := _ ← m; mret true in
  match mw g with
  | 30 => if is_grbl_mode (env w) then go (on_robot end_of_program) else mret true
  | 2 => go (on_robot end_of_program)
  | 17 => go (modify (on_enable 1))
  | 18 | 84 => go (disable_motors g)
  | 82 => go (on_robot (fun b => b <| e_absolute_mode := true |>))
  | 83 => go (on_robot (fun b => b <| e_absolute_mode := false |>))
  | 92 => _ ← set_steps_per_mm g; mret false
  | 114 => _ ← modify (fun w => w <| out := out w ++ print_position (subcode g) true w |>); mret false
  | 120 => go (on_robot push_state)
  | 121 => go (on_robot pop_state)
  | 203 => go (if (get_num_args g =? 0)%Z then modify (fun w => w <| out := out w ++ show_max_speeds g w |>) else set_max_speeds g)
  | 204 => go (set_accelerations g)
  | 205 => go (set_junctions g)
  | 211 => go (soft_endstops g)
  | 220 => go (speed_override g)
  | 400 => go (modify wait_for_idle)
  | 500 | 503 => go (modify (fun w => w <| out := out w ++ list_settings w |>))
  | 665 => go (set_segments g)
  | _ => mret true
  end%Z.
(** The motion the command asks for, or nothing when the handler ends at once.
    [src/src/modules/robot/Robot.cpp:612-908] Robot::on_gcode_received *)
Definition handle_g (hold : nat) (g : Words) : M (option MotionMode) :=
  let go m := _ ← m; mret (Some NONE) in
  let goes (m : M bool) := ok ← m; mret (if ok : bool then Some NONE else None) in
  match gw g with
  | 0 => mret (Some SEEK)
  | 1 => mret (Some LINEAR)
  | 2 => mret (Some CW_ARC)
  | 3 => mret (Some CCW_ARC)
  | 4 => goes (dwell hold g)
  | 10 => goes (set_wcs g)
  | 17 => go (on_robot (select_plane X_AXIS Y_AXIS Z_AXIS))
  | 18 => go (on_robot (select_plane X_AXIS Z_AXIS Y_AXIS))
  | 19 => go (on_robot (select_plane Y_AXIS Z_AXIS X_AXIS))
  | 20 => _ ← tell (say "ERROR: Imperial Units are unsupported" []); _ ← modify on_halt; _ ← modify (set_halt_reason MANUAL); mret None
  | 21 => go (on_robot (fun b => b <| inch_mode := false |>))
  | 54 | 55 | 56 | 57 | 58 | 59 => go (select_wcs g)
  | 90 => go (on_robot (fun b => b <| absolute_mode := true |> <| e_absolute_mode := true |>))
  | 91 => go (on_robot (fun b => b <| absolute_mode := false |> <| e_absolute_mode := false |>))
  | 92 => _ ← handle_g92 hold g; mret None
  | 93 => go (on_robot (fun b => b <| inverse_time_mode := true |>))
  | 94 => go (on_robot (fun b => b <| inverse_time_mode := false |>))
  | _ => mret (Some NONE)
  end%Z.
(** [hold] bounds the turns of the idle loop in a feed hold or a dwell.
    [src/src/modules/robot/Robot.cpp:606-1251] Robot::on_gcode_received *)
Definition on_gcode_received (hold : nat) (g : Words) : M unit :=
  mode ← (if has_g g then handle_g hold g else if has_m g then (goes_on ← handle_m g; mret (if goes_on : bool then Some NONE else None)) else mret (Some NONE));
  match mode with
  | None => mret tt
  | Some motion_mode =>
      _ ← (match motion_mode with
           | NONE => on_robot (fun b => b <| is_g123 := false |>)
           | _ => _ ← on_robot (fun b => b <| is_g123 := match motion_mode with SEEK => false | _ => true end |>); process_move hold g motion_mode
           end);
      on_robot (fun b => b <| current_motion_mode := mode_number motion_mode |> <| next_command_is_MCS := false |>)
  end.

(** ** Every command keeps what must hold *)

Context `{!MachineOk}.
Abbreviation keeps := (keeps (Motor := Motor) (Env := Env)).
Definition target_ok (target : list num) : Prop := length target = k_max_actuators.
Lemma keeps_soft_endstops_check target deltas : keeps (check_soft_endstops target deltas).
Proof. unfold check_soft_endstops. keep. Qed.
Lemma keeps_feed_hold fuel : keeps (wait_feed_hold fuel).
Proof. induction fuel as [|fuel IH]; cbn [wait_feed_hold]; keep; exact IH. Qed.
Lemma sent_length b i target : robot_ok b -> n_motors b = k_max_actuators -> target_ok target -> length (transformed b i (take (n_motors b) target)) = k_max_actuators.
Proof. intros Hb Hn Ht. rewrite transformed_length by done. by rewrite length_take, Hn, Ht. Qed.
Lemma keeps_milestone hold target rate line : target_ok target -> keeps (append_milestone hold target rate line).
Proof.
  intros Ht. unfold append_milestone. apply keeps_get; intros w Hw. apply keeps_get; intros w1 Hw1. destruct (motion_abort_requested (env w)); [keep|]. cbv zeta.
  pose proof (sent_length _ false target (wo_robot _ Hw1) (wo_motors _ Hw1) Ht) as Hl. set (t := transformed _ _ _) in *. clearbody t.
  apply keeps_bind; [apply keeps_soft_endstops_check|]. intros refused. keep; try apply keeps_feed_hold.
  intros b [] Hn. split; [|done]. constructor; recs; auto. rewrite length_app, length_drop, Hl, Hn. lia.
Qed.
Lemma keeps_line_loop hold n s d rate line moved : target_ok s -> target_ok d -> keeps (line_loop hold n s d rate line moved).
Proof.
  revert s moved. induction n as [|n IH]; intros s moved Hs Hd; cbn [line_loop]; [keep|].
  assert (Hz : target_ok (zip_with nadd s d)) by (unfold target_ok in *; rewrite length_zip_with; lia). keep. by apply keeps_milestone.
Qed.
Lemma keeps_bad_rate f : keeps (bad_feed_rate f).
Proof. unfold bad_feed_rate. keep. Qed.
Lemma start_ok (w : World) : world_ok w -> target_ok (take (n_motors (robot w)) (machine_position (robot w))).
Proof. intros Hw. unfold target_ok. rewrite length_take, (wo_motors _ Hw), (ro_position _ (wo_robot _ Hw)). done. Qed.
Lemma keeps_line hold g target rate : target_ok target -> keeps (append_line hold g target rate).
Proof.
  intros Ht. unfold append_line. destruct (rate <=? zero); [keep; apply keeps_bad_rate|]. apply keeps_get. intros w Hw. cbv zeta. keep; try (by apply keeps_milestone).
  apply keeps_line_loop; [by apply start_ok|]. pose proof (start_ok w Hw). unfold target_ok in *. rewrite length_zip_with. lia.
Qed.
Lemma plane_bounds p0 p1 p2 : plane_ok p0 p1 p2 -> (p0 < 3 /\ p1 < 3 /\ p2 < 3)%nat.
Proof. intros [[= -> -> ->]|[[= -> -> ->]|[= -> -> ->]]]; lia. Qed.
Lemma arc_point_ok b center v linear target i segments : n_motors b = k_max_actuators -> target_ok (arc_point b center v linear target i segments).
Proof. intros Hn. unfold arc_point, target_ok. destruct (rotate _ _ _). rewrite length_app, !length_map, length_seq, Hn. done. Qed.
Lemma keeps_arc_loop hold n i segments offset center v linear target theta rate count line moved :
  keeps (arc_loop hold n i segments offset center v linear target theta rate count line moved).
Proof.
  revert i v count moved. induction n as [|n IH]; intros i v count moved; cbn [arc_loop]; [keep|].
  apply keeps_get. intros w Hw. destruct (_ || _); [keep|]. apply keeps_get. intros w1 Hw1. destruct (turn_radius _ _ _ _ _ _).
  apply keeps_bind; [|intros m; apply IH]. apply keeps_milestone, arc_point_ok. apply Hw1.
Qed.
Lemma keeps_arc hold g target rotated offset radius cw : target_ok rotated -> keeps (append_arc hold g target rotated offset radius cw).
Proof.
  intros Hr. unfold append_arc. apply keeps_get. intros w Hw. destruct (feed_rate (robot w) <=? zero); [keep; apply keeps_bad_rate|].
  cbv zeta. case_match; [apply keeps_ret|].
  apply keeps_bind; [apply keeps_arc_loop|]. intros [moved|]; keep. by apply keeps_milestone.
Qed.
Lemma xyz_lengths b param : robot_ok b -> length (fst (target_xyz b param)) = 3%nat /\ length (snd (target_xyz b param)) = 3%nat.
Proof.
  intros Hb. unfold target_xyz. pose proof (ro_position _ Hb) as Hp. assert (Ht : length (take 3 (machine_position b)) = 3%nat) by (rewrite length_take, Hp; done).
  destruct (next_command_is_MCS b); [by split|]. destruct (absolute_mode b); cbv zeta; repeat destruct (rotate _ _ _); repeat destruct (unrotate _ _ _); by split.
Qed.
Lemma targets_ok b g : robot_ok b -> n_motors b = k_max_actuators -> target_ok (fst (targets b g)) /\ target_ok (snd (targets b g)).
Proof.
  intros Hb Hn. unfold targets. pose proof (xyz_lengths b (given g (to_millimeters b)) Hb) as [H1 H2]. destruct (target_xyz _ _) as [xyz u]. cbn [fst snd] in *.
  unfold target_ok. rewrite !length_app, !length_map, length_seq, H1, H2, Hn. done.
Qed.
Lemma keeps_take_feed_rate g mode : keeps (take_feed_rate g mode).
Proof. unfold take_feed_rate. keep; try apply keeps_bad_rate. all: destruct mode; cbv iota; robot_step. Qed.
Lemma keeps_perform hold g target u offset mode : target_ok target -> target_ok u -> keeps (perform hold g target u offset mode).
Proof.
  intros Ht Hu. unfold perform. apply keeps_get. intros w Hw. destruct mode; keep; try (by apply keeps_line).
  all: unfold compute_arc; keep; by apply keeps_arc.
Qed.
Lemma arc_start_keeps target : target_ok target -> robot_keeps (fun b => b <| arc_milestone := take 3 target |>).
Proof. intros Ht b [] Hn. split; [|done]. constructor; recs; auto. by rewrite length_take, Ht. Qed.
Lemma arrival_keeps target : target_ok target -> robot_keeps (fun b => b <| machine_position := target ++ drop (n_motors b) (machine_position b) |>).
Proof. intros Ht b [] Hn. split; [|done]. constructor; recs; auto. rewrite length_app, length_drop, Ht, Hn. lia. Qed.
Lemma keeps_process_move hold g mode : keeps (process_move hold g mode).
Proof.
  unfold process_move. apply keeps_get. intros w Hw. pose proof (targets_ok (robot w) g (wo_robot _ Hw) (wo_motors _ Hw)) as [H1 H2].
  destruct (targets (robot w) g) as [target u]. cbn [fst snd] in *. cbv zeta. apply keeps_bind; [apply keeps_take_feed_rate|]. intros ok. destruct ok; [cbn [negb]|apply keeps_ret].
  apply keeps_bind; [by apply keeps_perform|]. intros moved. keep.
  - by apply arc_start_keeps.
  - by apply arrival_keeps.
Qed.
Lemma keeps_dwell fuel g : keeps (dwell fuel g).
Proof.
  assert (Hl : forall start delay, keeps (dwell_loop fuel start delay)).
  { intros start delay. induction fuel as [|fuel IH]; cbn [dwell_loop]; keep; exact IH. }
  unfold dwell. keep.
Qed.
Lemma keeps_set_wcs g : keeps (set_wcs g).
Proof.
  unfold set_wcs. apply keeps_get. intros w Hw. cbv zeta. keep.
  intros b Hb Hn. destruct (has_letter g "R"); [by apply set_rotation_keeps|done].
Qed.
Lemma keeps_select_wcs g : (54 <= gw g <= 59)%Z -> keeps (select_wcs g).
Proof.
  intros Hg. unfold select_wcs. cbv zeta. apply keeps_bind; [|intros _; by apply keeps_eeprom; intros e []]. apply keeps_robot.
  intros b [] Hn. split; [|done]. constructor; recs; auto. unfold MAX_WCS in *. destruct (_ && _); lia.
Qed.
Lemma keeps_delta_move hold delta rate naxis : keeps (delta_move hold delta rate naxis).
Proof.
  unfold delta_move. apply keeps_get. intros w Hw. apply keeps_get. intros w1 Hw1. cbv zeta.
  assert (Ht : forall f : nat -> num -> num, target_ok (imap f (take (n_motors (robot w1)) (machine_position (robot w1))))).
  { intros f. unfold target_ok. rewrite length_imap. by apply start_ok. }
  set (t := imap _ _). assert (Htt : target_ok t) by apply Ht. clearbody t. keep; [by apply keeps_milestone|].
  intros b [] Hn. split; [|done]. constructor; recs; auto; [|by rewrite length_take, Htt]. rewrite length_app, length_drop, Htt, Hn. lia.
Qed.
Lemma keeps_set_a_axis hold g : keeps (set_a_axis hold g).
Proof.
  unfold set_a_axis. keep; [apply keeps_delta_move|]. apply keeps_eeprom. intros e [[Hc Hf] Hr]. split; recs; rewrite ?length_insert; [split; [done|]|done]. by apply Forall_insert.
Qed.
Lemma keeps_g92 hold g : keeps (handle_g92 hold g).
Proof.
  unfold handle_g92. keep. all: try apply keeps_set_a_axis. all: try (apply keeps_for_each; intros; keep). all: unfold set_g92; robot_step.
Qed.
Lemma keeps_for_each_axis f : (forall i, keeps (f i)) -> keeps (for_each_axis f).
Proof. intros Hf. unfold for_each_axis. keep. apply keeps_for_each. intros. keep. Qed.
Lemma keeps_when c m : keeps m -> keeps (when c m).
Proof. intros Hm. unfold when. keep. Qed.
Lemma set_speed_keeps i v : robot_keeps (fun b => b <| max_speeds := <[i := v]> (max_speeds b) |>).
Proof. intros b [] Hn. split; [|done]. constructor; recs; rewrite ?length_insert; auto. Qed.
#[local] Hint Resolve set_speed_keeps keeps_dwell keeps_set_wcs keeps_g92 keeps_set_a_axis : robot.
Ltac keep_more := repeat first [apply keeps_when | apply keeps_for_each_axis; intros ? | apply keeps_for_each; intros ? ? | progress keep].
Lemma keeps_handle_m g : keeps (handle_m g).
Proof.
  unfold handle_m. apply keeps_get. intros w Hw. cbv zeta. repeat case_match; keep.
  all: try (unfold end_of_program; robot_step).
  all: unfold disable_motors, set_steps_per_mm, set_max_speeds, set_accelerations, set_junctions, soft_endstops, speed_override, set_segments; keep_more.
Qed.
Lemma plane_keeps p0 p1 p2 : plane_ok p0 p1 p2 -> robot_keeps (select_plane p0 p1 p2).
Proof. intros Hp. unfold select_plane. robot_step. Qed.
Lemma keeps_handle_g hold g : keeps (handle_g hold g).
Proof.
  unfold handle_g. cbv zeta. repeat case_match; keep.
  all: try (apply plane_keeps; unfold plane_ok; by auto).
  all: apply keeps_select_wcs; lia.
Qed.
(** C12: The robot's state stays well formed. On a machine with its five motors,
    whatever the rest of the firmware does that keeps it so while the robot waits,
    every command leaves the coordinate system in use, and every one saved, among
    the nine there are, every offset, rotation and position in an array of its
    length, every rotation the cosine and sine of one angle, the plane of arcs made
    of three axes, and the memory kept over power with its six systems. So do the
    moves and the resets the other modules ask for. *)
Theorem command_keeps_robot hold g : keeps (on_gcode_received hold g) /\
  (forall delta rate naxis, keeps (delta_move hold delta rate naxis)) /\ keeps reset_position_from_current_actuator_position /\
  (forall x y z a b d, keeps (set_current_wcs_by_mpos x y z a b d)) /\ robot_keeps push_state /\ robot_keeps pop_state.
Proof.
  split; [|by auto using keeps_delta_move, keeps_reset_from_actuators, keeps_set_current_wcs, push_keeps, pop_keeps].
  unfold on_gcode_received. apply keeps_bind; [|intros [mode|]; [|apply keeps_ret]].
  - destruct (has_g g); [apply keeps_handle_g|]. destruct (has_m g); [|apply keeps_ret]. apply keeps_bind; [apply keeps_handle_m|intros; keep].
  - apply keeps_bind; [|intros _; keep]. destruct mode; keep; try apply keeps_process_move.
Qed.
End Moves.

(** *** An example *)
Section Examples.
#[local] Open Scope Z_scope.
(** A command of one G-code and some words. *)
Definition words `{Arith} (g : Z) (l : list (ascii * Z)) : Words :=
  let v c := snd <$> List.find (fun x => Ascii.eqb (fst x) c) l in
  mk_words true g false 0 0 1 (fun c => match v c with Some _ => true | None => false end)
    (fun c => of_Z (default 0%Z (v c))) (fun c => default 0%Z (v c)) (fun c => default 0%Z (v c)) (Z.of_nat (length l)).
#[local] Existing Instances no_library binary32.
Definition after (m : M unit) (w : World StepperMotor Rest) : World StepperMotor Rest := match m w with Some (_, w') => w' | None => w end.
(** To X10 of the second system, quickly. *)
Definition at_x10 : list Z * nat * list Z :=
  let w := after (on_gcode_received 0 (words 0 [("X"%char, 10%Z)])) (after (on_gcode_received 0 (words 55 [])) (still_world still_motor)) in
  (machine_position (robot w), current_wcs (robot w), map mv_rate (blocks (env w))).
Example moved_to_x10 : at_x10 = (float_of_int 10 :: repeat 0%Z 4, 1%nat, [float_of_int 40]).
Proof. by vm_compute. Qed.
Definition start : World StepperMotor Rest := still_world still_motor.
Definition does (g : Z) (l : list (ascii * Z)) (w : World StepperMotor Rest) : World StepperMotor Rest := after (on_gcode_received 0 (words g l)) w.
Definition plans (w : World StepperMotor Rest) : list (Z * Z * Z) := map (fun m => (mv_rate m, mv_distance m, mv_acceleration m)) (blocks (env w)).
(** A cut of 10 mm in X is slowed down to X's 40 mm/s; with a degree of A it runs at 500 mm/s: the rate
    is raised for the rotary axis after X was seen to. *)
Example turn_outruns_x :
  plans (does 1 [("X", 10); ("F", 2400)]%char start) = [(float_of_int 40, float_of_int 10, float_of_int 100)] /\
  plans (does 1 [("X", 10); ("A", 1); ("F", 2400)]%char start) = [(float_of_int 500, float_of_int 10, float_of_int 100)].
Proof. by vm_compute. Qed.
(** 15 degrees over 10 mm: half again as much as the rotary axis's acceleration, and the block's
    is doubled, to twice that of X. *)
Example turn_raises_acceleration : map mv_acceleration (blocks (env (does 1 [("X", 10); ("A", 15); ("F", 2400)]%char start))) = [float_of_int 200].
Proof. by vm_compute. Qed.
(** 10 degrees of A and 20 of B over 1 mm: slowed down for A to 5 mm/s, where B makes
    100 degrees a second, and may make 50. *)
Example b_outruns_itself : plans (does 0 [("X", 1); ("A", 10); ("B", 20)]%char start) = [(float_of_int 5, float_of_int 1, float_of_int 5)].
Proof. by vm_compute. Qed.
(** An arc shorter than its segments, in inverse time mode: the rate is times no
    segments. *)
Example short_arc_has_no_rate :
  plans (does 3 [("Y", 1); ("I", -100); ("F", 60)]%char start) = [(float_of_int 1, float_of_int 1, float_of_int 100)] /\
  plans (does 3 [("Y", 1); ("I", -100); ("F", 60)]%char (does 93 [] start)) = [(0, float_of_int 1, float_of_int 100)].
Proof. by vm_compute. Qed.
(** Told to be at X7 with a G92 offset of 5, the machine reads X12; told only its X,
    it reads another Y too. *)
Example offset_counts_twice :
  let g10 := does 10 [("L", 20); ("P", 1); ("X", 7)]%char in
  wx (mcs2wcs (robot (g10 (does 92 [("X"%char, 5)] start))) wcs_zero) = float_of_int 12 /\
  wy (mcs2wcs (robot (does 92 [("Y"%char, 5)] start)) wcs_zero) = float_of_int 5 /\ wy (mcs2wcs (robot (g10 (does 92 [("Y"%char, 5)] start))) wcs_zero) = float_of_int 10.
Proof. by vm_compute. Qed.
Lemma command_keeps_robot_witness : MachineOk (Motor := StepperMotor) (Env := Rest) /\ world_ok (still_world still_motor) /\
  exists w, on_gcode_received 0 (words 55 []) (still_world still_motor) = Some (tt, w) /\ current_wcs (robot w) = 1%nat /\ world_ok w.
Proof.
  split; [apply still_ok|]. split; [apply (still_world_ok still_motor)|].
  pose proof (proj1 (command_keeps_robot (H0 := still_ok) 0 (words 55 [])) (still_world still_motor) (still_world_ok still_motor)) as Hk.
  assert (E : option_map (fun x => current_wcs (robot x.2)) (on_gcode_received 0 (words 55 []) (still_world still_motor)) = Some 1%nat) by by vm_compute.
  destruct (on_gcode_received 0 (words 55 []) (still_world still_motor)) as [[[] w]|]; [|done]. injection E as E. by exists w.
Defined.
End Examples.
