(* ===== verification/RobotConfig.v ===== *)
(** * The robot's settings ([Robot::load_config])

    What the robot takes from the configuration when it starts, the motors it makes,
    and that it then starts well formed. *)
From S2P Require Import Prelude Binary32 StepperMotor RobotAxis Arith Robot RobotMoves.
#[local] Open Scope Z_scope.
#[local] Open Scope nat_scope.

Section Config.
Context `{Arith} {Motor : Type} `{!Axis Motor} {Env : Type} `{!Machine Motor Env}.
#[local] Open Scope num_scope.
Abbreviation World := (World Motor Env).
Abbreviation M := (M (Motor := Motor) (Env := Env)).
(** The configuration, by the words a setting's checksums are taken of, with a value
    for a setting that is not there; the pins' motors, where both the step and
    the direction pin are connected; and the factory's settings. *)
Class Settings := mk_settings {
  is_config_cache_loaded : bool;
  as_number : list string -> num -> num; as_bool : list string -> bool -> bool; as_string : list string -> string -> string;
  parse_number_list : string -> list num; motor_on_pins : nat -> option Motor;
  factory_a_axis : bool; is_carvera : bool
}.
Context `{Settings}.
(** The words of a motor's settings.
    [src/src/modules/robot/Robot.cpp:185-192] ACTUATOR_CHECKSUMS *)
Definition motor_key (a : nat) (setting : string) : list string :=
  [(nth a ["alpha"; "beta"; "gamma"; "delta"; "epsilon"] "" ++ setting)%string].
(** An offset for G92, of three, four or five numbers.
    [src/src/modules/robot/Robot.cpp:253-265] Robot::load_config *)
Definition fixed_g92 (text : string) (old : wcs_t) : wcs_t :=
  if String.eqb text "" then old
  else match parse_number_list text with
       | [x; y; z] => mk_wcs x y z zero zero
       | [x; y; z; a] => mk_wcs x y z a zero
       | [x; y; z; a; b] => mk_wcs x y z a b
       | _ => old
       end.
(** [src/src/modules/robot/Robot.cpp:236-279] Robot::load_config *)
Definition read_settings (grbl : bool) (b : Robot) : Robot :=
  let n key d := as_number [key] d in
  let per_minute (key : string) (d : Z) := n key (of_Z d) / of_Z 60 in
  b <| feed_rate := n "default_feed_rate"%string (of_Z 1000) |> <| seek_rate := n "default_seek_rate"%string (of_Z 3000) |>
    <| mm_per_line_segment := n "mm_per_line_segment"%string (of_Z 5) |> <| delta_segments_per_second := n "delta_segments_per_second"%string zero |>
    <| mm_per_arc_segment := n "mm_per_arc_segment"%string zero |> <| mm_max_arc_error := n "mm_max_arc_error"%string (literal 2 (-3)) |>
    <| arc_correction := to_int (n "arc_correction"%string (of_Z 5)) |>
    <| max_speeds := [per_minute "x_axis_max_speed"%string 4000%Z; per_minute "y_axis_max_speed"%string 4000%Z; per_minute "z_axis_max_speed"%string 3000%Z] |>
    <| max_speed := per_minute "max_speed"%string (-60)%Z |>
    <| segment_z_moves := as_bool ["segment_z_moves"%string] true |> <| save_g92 := as_bool ["save_g92"%string] false |> <| save_g54 := as_bool ["save_g54"%string] grbl |>
    <| g92_offset := fixed_g92 (as_string ["set_g92"%string] "") (g92_offset b) |>
    <| s_value := n "laser_module_default_power"%string (of_Z 1) * n "laser_module_maximum_s_value"%string (of_Z 1) |>
    <| laser_module_offset := mk_wcs (n "laser_module_offset_x"%string (of_Z (-38))) (n "laser_module_offset_y"%string (of_Z 5)) (n "laser_module_offset_z"%string (of_Z (-40))) zero zero |>.
(** A new motor's steps, rate and acceleration. The rotary axis of the factory's
    setting has its rate cut to sixteen bits, and on one model a gear.
    [src/src/modules/robot/Robot.cpp:326-343] Robot::load_config *)
Definition set_up_motor (a : nat) : M unit :=
  let steps := as_number (motor_key a "_steps_per_mm") (of_Z (if (a =? 2)%nat then 2560 else 80)) in
  let rate := as_number (motor_key a "_max_rate") (of_Z 3000) in
  _ ← (if factory_a_axis && (a =? 3)%nat then
         _ ← on_axis a (set_max_rate (of_Z (to_u16 rate) / of_Z 60));
         on_axis a (change_steps_per_mm (if is_carvera then times steps 16666666 (-6) else steps))
       else
         _ ← on_axis a (change_steps_per_mm steps); _ ← on_axis a (change_steps_per_mm steps);
         on_axis a (set_max_rate (rate / of_Z 60)));
  on_axis a (set_acceleration (as_number (motor_key a "_acceleration") nan)).
(** The motors from [a] on, [n] of them at most; [false] when one that is needed is
    missing.
    [src/src/modules/robot/Robot.cpp:301-344] Robot::load_config *)
Fixpoint make_motors (n a : nat) : M bool :=
  match n with
  | O => mret true
  | S n =>
      match motor_on_pins a with
      | None =>
          if (a <=? Z_AXIS)%nat then
            _ ← tell (say "FATAL: motor %c is not defined in config" [a_letter (axis_letter a)]);
            _ ← on_robot (fun b => b <| n_motors := a |>); mret false
          else mret true
      | Some sm =>
          i ← register_motor sm;
          if negb (i =? a)%nat then _ ← tell (say "FATAL: motor %d does not match index %d" [an_int (Z.of_nat i); an_int (Z.of_nat a)]); mret false
          else _ ← set_up_motor a; make_motors n (S a)
      end
  end.
(** The older setting for Z's acceleration.
    [src/src/modules/robot/Robot.cpp:348-354] Robot::load_config *)
Definition legacy_z_acceleration : M unit :=
  ma ← get (axis Z_AXIS get_acceleration nan);
  let acc := as_number ["z_acceleration"%string] nan in
  if isnan ma && negb (isnan acc) then on_axis Z_AXIS (set_acceleration acc) else mret tt.
(** [src/src/modules/robot/Robot.cpp:373-383] Robot::load_config *)
Definition read_soft_endstops (b : Robot) : Robot :=
  let minimum (key : string) d := as_number ["soft_endstop"%string; key] d in
  b <| soft_endstop_enabled := as_bool ["soft_endstop"%string; "enable"%string] true |> <| soft_endstop_halt := as_bool ["soft_endstop"%string; "halt"%string] true |>
    <| soft_endstop_max := [of_Z (-1); of_Z (-1); of_Z (-1)] |>
    <| soft_endstop_min := [minimum "x_min"%string (of_Z (-371)); minimum "y_min"%string (of_Z (-250)); minimum "z_min"%string (of_Z (-135))] |>
    <| rotary_clearance_y_min := minimum "rotary_y_min"%string nan |>.
(** The arm is cartesian, as the firmware is built.
    [src/src/modules/robot/Robot.cpp:194-384] Robot::load_config *)
Definition load_config : M unit :=
  if negb is_config_cache_loaded then mret tt
  else
    grbl ← get (fun w => is_grbl_mode (env w));
    _ ← on_robot (read_settings grbl);
    _ ← on_robot (fun b => b <| default_acceleration := as_number ["acceleration"%string] (of_Z 100) |>);
    made ← make_motors k_max_actuators 0;
    if negb made then mret tt
    else
      _ ← check_max_actuator_speeds;
      _ ← legacy_z_acceleration;
      b ← get robot;
      _ ← set_axes (cartesian_to_actuator (machine_position b));
      _ ← for_each (seq A_AXIS (n_motors b - A_AXIS)) (fun i => on_axis i (change_last_milestone (machine_position b !!! i)));
      on_robot read_soft_endstops.
(** The laser mode's own settings apart, the robot's start.
    [src/src/modules/robot/Robot.cpp:150-183] Robot::on_module_loaded *)
Definition on_module_loaded : M unit := _ ← load_config; restore (as_bool ["load_last_wcs"%string] false).

(** ** The start *)

(** What holds on the way, with [k] motors made so far. *)
Record starting (e : Eeprom) (k : nat) (w : World) : Prop := mk_starting {
  st_eeprom : eeprom w = e; st_motors : n_motors (robot w) = k; st_actuators : length (actuators w) = k;
  st_stack : state_stack (robot w) = []; st_offsets : length (wcs_offsets (robot w)) = MAX_WCS; st_r : length (r_ (robot w)) = MAX_WCS;
  st_sin : sin_r (robot w) = repeat zero MAX_WCS; st_plane : plane_ok (plane_axis_0 (robot w)) (plane_axis_1 (robot w)) (plane_axis_2 (robot w));
  st_position : length (machine_position (robot w)) = k_max_actuators; st_compensated : length (compensated_machine_position (robot w)) = k_max_actuators;
  st_arc : length (arc_milestone (robot w)) = 3; st_speeds : length (max_speeds (robot w)) = 3; st_transform : compensationTransform (robot w) = None
}.
(** A computation that ends, with something true of where. *)
Definition ends {A} (P : World -> Prop) (m : M A) (Q : A -> World -> Prop) : Prop := forall w, P w -> exists x w', m w = Some (x, w') /\ Q x w'.
Lemma ends_bind {A B} P (m : M A) Q (k : A -> M B) R : ends P m Q -> (forall x, ends (Q x) (k x) R) -> ends P (m ≫= k) R.
Proof. intros Hm Hk w Hw. destruct (Hm w Hw) as (x & w' & E & Hq). destruct (Hk x w' Hq) as (y & w2 & E2 & Hr). exists y, w2. unfold mbind, M_bind. by rewrite E. Qed.
Lemma ends_ret {A} P (x : A) (Q : A -> World -> Prop) : (forall w, P w -> Q x w) -> ends P (mret x) Q.
Proof. intros HQ w Hw. exists x, w. split; [done|by apply HQ]. Qed.
Lemma ends_get {A B} P (f : World -> A) (k : A -> M B) R : (forall w, P w -> ends P (k (f w)) R) -> ends P (get f ≫= k) R.
Proof. intros Hk w Hw. exact (Hk w Hw w Hw). Qed.
Lemma ends_modify P f (Q : unit -> World -> Prop) : (forall w, P w -> Q tt (f w)) -> ends P (modify f) Q.
Proof. intros HQ w Hw. exists tt, (f w). split; [done|by apply HQ]. Qed.
Definition onward {A} (e : Eeprom) (k : nat) (m : M A) : Prop := ends (starting e k) m (fun _ => starting e k).
Lemma onward_axis e k i f : onward e k (on_axis i f).
Proof. apply ends_modify. intros w []. split; recs; auto. by rewrite length_alter. Qed.
Lemma onward_tell e k o : onward e k (tell o).
Proof. apply ends_modify. by intros w []. Qed.
Lemma onward_ret e k {A} (x : A) : onward e k (mret x).
Proof. by apply ends_ret. Qed.
Lemma onward_bind e k {A B} (m : M A) (f : A -> M B) : onward e k m -> (forall x, onward e k (f x)) -> onward e k (m ≫= f).
Proof. intros Hm Hf. by eapply ends_bind. Qed.
Lemma onward_get e k {A B} (g : World -> A) (f : A -> M B) : (forall x, onward e k (f x)) -> onward e k (get g ≫= f).
Proof. intros Hf. apply ends_get. intros w _. apply Hf. Qed.
Lemma onward_then e k {A B} (m : M A) (f : A -> M B) R : onward e k m -> (forall x, ends (starting e k) (f x) R) -> ends (starting e k) (m ≫= f) R.
Proof. apply ends_bind. Qed.
Lemma onward_for_each e k l f : (forall i, onward e k (f i)) -> onward e k (for_each l f).
Proof. intros Hf. induction l as [|i l IH]; cbn [for_each]; [apply onward_ret|]. by eapply ends_bind; [apply Hf|intros]. Qed.
(** A setting leaves what the start needs. *)
Definition only_settings (f : Robot -> Robot) : Prop := forall b, let b' := f b in
  (n_motors b', state_stack b', wcs_offsets b', r_ b', sin_r b', plane_axis_0 b', plane_axis_1 b', plane_axis_2 b') =
  (n_motors b, state_stack b, wcs_offsets b, r_ b, sin_r b, plane_axis_0 b, plane_axis_1 b, plane_axis_2 b) /\
  (machine_position b', compensated_machine_position b', arc_milestone b', compensationTransform b') =
  (machine_position b, compensated_machine_position b, arc_milestone b, compensationTransform b) /\ (length (max_speeds b) = 3 -> length (max_speeds b') = 3)%nat.
Lemma onward_robot e k f : only_settings f -> onward e k (on_robot f).
Proof.
  intros Hf. apply ends_modify. intros w []. destruct (Hf (robot w)) as (E1 & E2 & E3). injection E1 as F1 F2 F3 F4 F5 F6 F7 F8. injection E2 as G1 G2 G3 G4.
  split; recs; rewrite ?F1, ?F2, ?F3, ?F4, ?F5, ?F6, ?F7, ?F8, ?G1, ?G2, ?G3, ?G4; auto.
Qed.
Lemma reads_settings grbl : only_settings (read_settings grbl).
Proof. intros []. unfold read_settings. generalize fixed_g92. intros g. robot_fields. done. Qed.
Lemma reads_endstops : only_settings read_soft_endstops.
Proof. intros []. unfold read_soft_endstops. robot_fields. done. Qed.
Ltac go_step :=
  lazymatch goal with
  | |- onward _ _ (mret _) => apply onward_ret
  | |- onward _ _ (tell _) => apply onward_tell
  | |- onward _ _ (on_axis _ _) => apply onward_axis
  | |- onward _ _ (for_each _ _) => apply onward_for_each; intros ?
  | |- onward _ _ (on_robot read_soft_endstops) => apply onward_robot, reads_endstops
  | |- onward _ _ (mbind _ (get _)) => apply onward_get; intros ?
  | |- onward _ _ (mbind _ world) => apply onward_get; intros ?
  | |- onward _ _ (mbind _ _) => apply onward_bind; [|intros ?]
  | |- onward _ _ (if ?c then _ else _) => destruct c
  | |- onward _ _ (match ?c with _ => _ end) => destruct c
  end.
Ltac onward := repeat first [progress cbv zeta | go_step].
Lemma onward_set_up e k a : onward e k (set_up_motor a).
Proof. unfold set_up_motor. onward. Qed.
Lemma registers e k sm : (k < k_max_actuators)%nat -> ends (starting e k) (register_motor sm) (fun i w => i = k /\ starting e (S k) w).
Proof.
  intros Hk w []. unfold register_motor, mbind, M_bind, get. rewrite st_motors0. rewrite (proj2 (Nat.leb_gt _ _) Hk). eexists _, _. split; [reflexivity|]. split; [done|].
  split; recs; auto. rewrite length_app. cbn. lia.
Qed.
Lemma makes e n a : (n + a = k_max_actuators)%nat -> (forall i, (i < k_max_actuators)%nat -> motor_on_pins i <> None) ->
  ends (starting e a) (make_motors n a) (fun made w => made = true /\ starting e k_max_actuators w).
Proof.
  revert a. induction n as [|n IH]; intros a Ha Hm; cbn [make_motors]; [apply ends_ret; intros w Hw; cbn in Ha; by subst|].
  pose proof (Hm a ltac:(lia)) as Hs. destruct (motor_on_pins a) as [sm|]; [|done].
  eapply ends_bind; [apply registers; lia|]. intros i. intros w [-> Hw]. revert w Hw. rewrite Nat.eqb_refl. cbn [negb].
  exact (ends_bind _ _ _ _ _ (onward_set_up e (S a) a) (fun _ => IH (S a) ltac:(lia) Hm)).
Qed.
Lemma loads e : is_config_cache_loaded = true -> (forall i, (i < k_max_actuators)%nat -> motor_on_pins i <> None) ->
  ends (starting e 0) load_config (fun _ => starting e k_max_actuators).
Proof.
  intros Hc Hm. unfold load_config. rewrite Hc. cbn [negb]. apply ends_get. intros w0 _.
  apply onward_then; [apply onward_robot, reads_settings|intros _].
  apply onward_then; [apply onward_robot; by intros []|intros _].
  eapply ends_bind; [by apply makes|]. intros made w [-> Hw]. revert w Hw. cbn [negb].
  match goal with |- forall w, _ -> exists x w', ?m w = _ /\ _ => change (onward e k_max_actuators m) end.
  unfold check_max_actuator_speeds, legacy_z_acceleration, set_axes. onward.
Qed.
Lemma restore_wcs_ok e n b : (n < MAX_WCS)%nat -> robot_ok b -> robot_ok (restore_wcs e n b) /\ n_motors (restore_wcs e n b) = n_motors b.
Proof.
  intros Hn []. unfold restore_wcs. split; [|done]. constructor; recs; rewrite ?length_insert; auto. intros m Hm. destruct (decide (n = m)) as [->|Hne].
  - rewrite !list_lookup_total_insert_eq by lia. right. right. by eexists.
  - rewrite !list_lookup_total_insert_ne by done. auto.
Qed.
Lemma restores_ok e l b : Forall (fun n => (n < MAX_WCS)%nat) l -> robot_ok b -> robot_ok (foldl (fun b n => restore_wcs e n b) b l) /\ n_motors (foldl (fun b n => restore_wcs e n b) b l) = n_motors b.
Proof.
  revert b. induction l as [|n l IH]; intros b Hl Hb; [done|]. apply Forall_cons_iff in Hl as [Hn Hl]. cbn [foldl].
  destruct (restore_wcs_ok e n b Hn Hb) as [H1 H2]. destruct (IH _ Hl H1) as [H3 H4]. by rewrite H4.
Qed.
Lemma restores e l : eeprom_ok e -> (0 <= ee_current_wcs e < 6)%Z -> ends (starting e k_max_actuators) (restore l) (fun _ w => world_ok w).
Proof.
  intros He Hc w Hw. pose proof (st_eeprom _ _ _ Hw) as Ee.
  assert (Hl : onward e k_max_actuators (loadToolOffset [zero; zero; TLO (eeprom w)])).
  { unfold loadToolOffset, setLaserOffset. apply onward_bind; [apply onward_robot; by intros []|intros _]. apply onward_get. intros [|]; [|apply onward_ret].
    apply onward_get. intros o. apply onward_bind; [apply onward_robot; by intros []|intros _; apply onward_tell]. }
  destruct (Hl w Hw) as ([] & w1 & E1 & Hw1). unfold restore. unfold mbind, M_bind, get. rewrite E1. eexists tt, _. split; [reflexivity|].
  destruct Hw1. rewrite Ee in *. set (b := foldl _ _ _).
  assert (Hb : robot_ok b /\ n_motors b = n_motors (robot w1)).
  { unfold b. match goal with |- context [foldl _ ?x _] => set (b0 := x) end. change (n_motors (robot w1)) with (n_motors b0). apply restores_ok.
    - unfold MAX_WCS. repeat constructor; lia.
    - unfold b0. constructor; recs; rewrite ?st_stack0, ?st_sin0, ?st_transform0; auto; try done.
      + destruct l; [|unfold MAX_WCS; lia]. unfold u8, wrap, MAX_WCS. rewrite Z.mod_small by lia. lia.
      + intros n Hn. left. unfold MAX_WCS in Hn. do 9 (destruct n as [|n]; [by split|]). lia. }
  clearbody b. destruct Hb as [Hb Hn]. split; recs; [done|by rewrite st_eeprom0|by rewrite Hn|done].
Qed.
(** C21: The robot starts well formed. From memory whose arrays have their sizes, with the five
    motors on their pins, the configuration read, and the memory kept over power
    in order: loading the module ends, and all that must hold of the robot, its
    motors and that memory holds. *)
Theorem starts_well_formed raw (w : World) :
  is_config_cache_loaded = true -> (forall i, (i < k_max_actuators)%nat -> motor_on_pins i <> None) ->
  length (arc_milestone raw) = 3%nat -> length (max_speeds raw) = 3%nat ->
  robot w = new_robot raw -> actuators w = [] -> eeprom_ok (eeprom w) -> (0 <= ee_current_wcs (eeprom w) < 6)%Z ->
  exists w', on_module_loaded w = Some (tt, w') /\ world_ok w'.
Proof.
  intros Hc Hm Ha Hs Hr Hact He Hw. unfold on_module_loaded.
  assert (H0' : starting (eeprom w) 0 w) by (split; rewrite ?Hr, ?Hact; try done; by left).
  destruct (ends_bind _ _ _ _ (fun _ w => world_ok w) (loads (eeprom w) Hc Hm) (fun _ => restores (eeprom w) (as_bool ["load_last_wcs"%string] false) He Hw) w H0') as ([] & w' & E & Hk).
  by exists w'.
Qed.
End Config.

(** *** An example *)
Section Examples.
#[local] Existing Instances no_library binary32.
(** A configuration with nothing in it but the pins. *)
Definition defaults : Settings (Motor := StepperMotor) := {|
  is_config_cache_loaded := true; as_number _ d := d; as_bool _ d := d; as_string _ d := d; parse_number_list _ := [];
  motor_on_pins _ := Some still_motor; factory_a_axis := true; is_carvera := true
|}.
Definition switched_on : World StepperMotor Rest := mk_world (new_robot still_robot) [] still_eeprom [] (mk_rest _ [] false None).
Lemma starts_well_formed_witness : exists w, on_module_loaded (H0 := defaults) switched_on = Some (tt, w) /\ world_ok w.
Proof.
  apply (starts_well_formed (H0 := defaults) still_robot switched_on); try done. by repeat constructor.
Defined.
(** The rotary axis of that model takes 80 * 16.666666 steps a degree. *)
Example rotary_steps : option_map (fun x => map steps_per_mm (actuators (snd x))) (on_module_loaded (H0 := defaults) switched_on) =
  Some [float_of_int 80; float_of_int 80; float_of_int 2560; 0x44A6AAAA; float_of_int 80]%Z.
Proof. by vm_compute. Qed.
End Examples.
