(* ===== verification/RobotGeometry.v ===== *)
(** * What the robot's formulas mean

    In real numbers: coordinates go there and back, a G-code's target is the one
    its words ask for, and an axis set to a position reads as told. *)
From Stdlib Require Import Reals Lra.
From S2P Require Import Prelude Binary32 StepperMotor RobotAxis Arith Robot RobotMoves.
#[local] Open Scope Z_scope.
#[local] Open Scope nat_scope.
#[local] Existing Instance real.

(** ** Work coordinates *)

Definition axis_of (o : wcs_t) (i : nat) : R := match i with 0%nat => wx o | 1%nat => wy o | 2%nat => wz o | 3%nat => wa o | _ => wb o end.
Definition unit_vector (c s : num) : Prop := (c * c + s * s = 1)%R.
Lemma rotation_unit c s : is_rotation c s -> unit_vector c s.
Proof.
  unfold unit_vector.
  assert (Hu : forall x, (cos x * cos x + sin x * sin x = 1)%R) by (intros x; pose proof (sin2_cos2 x) as Hx; unfold Rsqr in Hx; lra).
  intros [[-> ->]|[[d [-> ->]]|[x [-> ->]]]]; unfold zero; reals; [lra|apply Hu..].
Qed.
Lemma system_unit b n : robot_ok b -> (n < MAX_WCS)%nat -> unit_vector (cos_r b !!! n) (sin_r b !!! n).
Proof. intros Hb Hn. apply rotation_unit. by apply ro_rotations. Qed.
(** A vector turned one way and back. *)
Lemma turned_back (c s x y : R) : (c * c + s * s = 1 -> c * (c * x - s * y) + s * (c * y + s * x) = x /\ c * (c * y + s * x) - s * (c * x - s * y) = y)%R.
Proof. intros Hu. split; [transitivity ((c * c + s * s) * x)%R|transitivity ((c * c + s * s) * y)%R]; try ring; by rewrite Hu, Rmult_1_l. Qed.
Lemma turned_forth (c s x y : R) : (c * c + s * s = 1 -> c * (c * x + s * y) - s * (c * y - s * x) = x /\ c * (c * y - s * x) + s * (c * x + s * y) = y)%R.
Proof. intros Hu. split; [transitivity ((c * c + s * s) * x)%R|transitivity ((c * c + s * s) * y)%R]; try ring; by rewrite Hu, Rmult_1_l. Qed.
(** C20: Machine and work coordinates are the same thing said in two ways. Whatever
    system is in use, with its offset and rotation, the offset of G92 and that of the
    tool: a work position sent through machine coordinates comes back, and so does
    a machine position through work coordinates, on all five axes. *)
Theorem coordinates_roundtrip b p i : robot_ok b -> axis_of (mcs2wcs b (wcs2mcs b p)) i = axis_of p i /\ axis_of (wcs2mcs b (mcs2wcs b p)) i = axis_of p i.
Proof.
  intros Hb. enough (H : mcs2wcs b (wcs2mcs b p) = p /\ wcs2mcs b (mcs2wcs b p) = p) by (by destruct H as [-> ->]). pose proof (system_unit b _ Hb (ro_wcs _ Hb)) as Hu. unfold mcs2wcs, mcs2selected_wcs, wcs2mcs.
  set (c := cos_r b !!! current_wcs b) in *. set (s := sin_r b !!! current_wcs b) in *. set (o := wcs_offsets b !!! current_wcs b).
  unfold unit_vector in Hu. clearbody c s o. destruct (g92_offset b) as [gx gy gz ga gb], (tool_offset b) as [tx ty tz ta tb], o as [ox oy oz oa ob], p as [px py pz pa pb]. reals. recs.
  destruct (turned_back c s (px - gx + tx) (py - gy + ty) Hu) as [B1 B2]. destruct (turned_forth c s (px - ox) (py - oy) Hu) as [F1 F2].
  cbn in *. split; f_equal; lra.
Qed.
(** A quarter turn, an offset in X and one of the tool. *)
Definition shifted (b : Robot) (o t : wcs_t) : Robot := b <| wcs_offsets := <[0%nat := o]> (wcs_offsets b) |> <| tool_offset := t |>.
Lemma shifted_ok b o t : robot_ok b -> robot_ok (shifted b o t).
Proof. intros []. unfold shifted. constructor; recs; rewrite ?length_insert; auto. Qed.
Definition turned_robot : Robot :=
  shifted (set_rotation 0 (IZR 90) still_robot) (mk_wcs (IZR 10) (IZR 0) (IZR 0) (IZR 0) (IZR 0)) (mk_wcs (IZR 0) (IZR 0) (IZR 5) (IZR 0) (IZR 0)).
Lemma turned_robot_ok : robot_ok turned_robot.
Proof. apply shifted_ok. by apply (set_rotation_keeps (H := real) 0 (IZR 90) still_robot still_robot_ok). Qed.
Definition somewhere : wcs_t := mk_wcs (IZR 1) (IZR 2) (IZR 3) (IZR 4) (IZR 5).
Lemma coordinates_roundtrip_witness : robot_ok turned_robot /\ axis_of (wcs2mcs turned_robot (mcs2wcs turned_robot somewhere)) 1 = 2%R.
Proof. split; [apply turned_robot_ok|]. apply (coordinates_roundtrip turned_robot somewhere 1 turned_robot_ok). Defined.

(** ** What a move means *)

Definition work (b : Robot) (pos : list R) : wcs_t := mcs2wcs b (wcs_of pos).
(** The value a word gives an axis; X, Y and Z may be in inches. *)
Definition word_of (b : Robot) (g : Words) (i : nat) : option R := given g (if (i <=? 2)%nat then to_millimeters b else fun v => v) i.
(** The position the words ask for, in work coordinates: theirs, or as far from
    where the machine is. *)
Definition meant (b : Robot) (g : Words) (i : nat) : R :=
  let now := axis_of (work b (machine_position b)) i in
  match word_of b g i with None => now | Some v => if absolute_mode b then v else (now + v)%R end.
Lemma five {A} (l : list A) : length l = k_max_actuators -> exists x y z a b, l = [x; y; z; a; b].
Proof. destruct l as [|x [|y [|z [|a [|b [|]]]]]]; try done. intros _. by exists x, y, z, a, b. Qed.
Lemma each_axis (P : nat -> Prop) : P 0%nat -> P 1%nat -> P 2%nat -> P 3%nat -> P 4%nat -> forall i, (i < k_max_actuators)%nat -> P i.
Proof. intros ????? i Hi. unfold k_max_actuators in Hi. do 5 (destruct i as [|i]; [done|]). lia. Qed.
Lemma each_xy (P : nat -> Prop) : P 0%nat -> P 1%nat -> forall i, (i < 2)%nat -> P i.
Proof. intros ?? i Hi. do 2 (destruct i as [|i]; [done|]). lia. Qed.
(** C8: A move goes where its words say. G0 to G3 without G53: in work coordinates,
    the target is on each axis the value given, or with G91 as far from the present
    position as the value given, and the present position where none is. The arc's own target is in X and Y the present machine position plus the
    same move, not yet turned into the machine's directions. With G53 the target is
    on each axis the value given, in machine coordinates. *)
Theorem target_is_meant b g : robot_ok b -> n_motors b = k_max_actuators ->
  let '(target, unrotated) := targets b g in
  if next_command_is_MCS b then forall i, (i < k_max_actuators)%nat -> target !!! i = default (machine_position b !!! i) (word_of b g i)
  else
    (forall i, (i < k_max_actuators)%nat -> axis_of (work b target) i = meant b g i) /\
    (forall i, (i < 2)%nat -> unrotated !!! i = (machine_position b !!! i + (meant b g i - axis_of (work b (machine_position b)) i))%R).
Proof.
  intros Hb Hn. pose proof (system_unit b _ Hb (ro_wcs _ Hb)) as Hu. destruct (five _ (ro_position _ Hb)) as (mx & my & mz & ma & mb & Hm).
  unfold meant, work. rewrite Hm.
  unfold targets, target_xyz, target_ab, mcs2wcs, mcs2selected_wcs, rotate, unrotate. rewrite Hn, Hm. unfold wcs_of, zero, X_AXIS, Y_AXIS, Z_AXIS, A_AXIS, B_AXIS. cbv beta zeta.
  revert Hu. generalize (cos_r b !!! current_wcs b), (sin_r b !!! current_wcs b). refine (fun (c s : R) Hu => _). unfold unit_vector in Hu.
  assert (Hs : (s * s = 1 - c * c)%R) by lra.
  cbn [seq map k_max_actuators Nat.sub Nat.leb Nat.eqb app take].
  change (given g (to_millimeters b) 0) with (word_of b g 0). change (given g (to_millimeters b) 1) with (word_of b g 1). change (given g (to_millimeters b) 2) with (word_of b g 2).
  change (given g (fun v => v) 3) with (word_of b g 3). change (given g (fun v => v) 4) with (word_of b g 4).
  generalize (word_of b g). intros word.
  destruct (next_command_is_MCS b); [cbv beta iota zeta; by apply each_axis|].
  destruct (wcs_offsets b !!! current_wcs b) as [ox oy oz oa ob], (g92_offset b) as [gx gy gz ga gb], (tool_offset b) as [tx ty tz ta tb].
  destruct (absolute_mode b); cbv beta iota zeta; (split; [apply each_axis|apply each_xy]); cbn.
  all: destruct (word 0%nat), (word 1%nat), (word 2%nat), (word 3%nat), (word 4%nat); cbn; ring [Hs].
Qed.
Lemma target_is_meant_witness : robot_ok turned_robot /\ n_motors turned_robot = k_max_actuators /\
  axis_of (work turned_robot (fst (targets turned_robot (words 1 [("X"%char, 7%Z)])))) 0 = IZR 7.
Proof.
  split; [apply turned_robot_ok|]. split; [done|]. pose proof (target_is_meant turned_robot (words 1 [("X"%char, 7%Z)]) turned_robot_ok eq_refl) as Ht.
  destruct (targets _ _) as [target unrotated]. destruct Ht as [Ht _]. exact (Ht 0%nat ltac:(unfold k_max_actuators; lia)).
Defined.

(** ** A position the machine is told *)

Section Told.
Context {Motor : Type} `{!Axis (H := real) Motor} {Env : Type} `{!Machine (H := real) Motor Env}.
Abbreviation World := (World (H := real) Motor Env).
(** The system of a G10, when it is one the command may set. *)
Definition named_system (b : Robot) (g : Words) : option nat :=
  let p := get_uint g "P"%char in let n := if (p =? 0)%Z then Z.of_nat (current_wcs b) else (p - 1)%Z in
  if has_letter g "P"%char && (n <? Z.of_nat MAX_WCS)%Z then Some (Z.to_nat n) else None.
Definition read_in (b : Robot) (n i : nat) : R := axis_of (mcs2selected_wcs b (wcs_of (machine_position b)) n) i.
(** The offset G10 L20 computes makes the position read as told. *)
Lemma offset_reads (b b' : Robot) g n i : (i < k_max_actuators)%nat -> (n < MAX_WCS)%nat -> length (wcs_offsets b') = MAX_WCS ->
  get_int g "L"%char = 20%Z ->
  unit_vector (cos_r b' !!! n) (sin_r b' !!! n) ->
  (has_letter g "X"%char || has_letter g "Y"%char = false -> cos_r b' !!! n = cos_r b !!! n /\ sin_r b' !!! n = sin_r b !!! n) ->
  machine_position b' = machine_position b -> wcs_offsets b' = wcs_offsets b -> g92_offset b' = g92_offset b -> tool_offset b' = tool_offset b -> inch_mode b' = inch_mode b ->
  wx (g92_offset b) = wx (tool_offset b) -> wy (g92_offset b) = wy (tool_offset b) -> wz (g92_offset b) = zero ->
  read_in (b' <| wcs_offsets := <[n := wcs_offset b' (mcs2selected_wcs b (wcs_of (machine_position b)) n) g n]> (wcs_offsets b') |>) n i = default (read_in b n i) (word_of b g i).
Proof.
  intros Hi Hn Hl HL Hu Hr Hm Ho Hg Ht Hin Hx Hy Hz. unfold read_in, mcs2selected_wcs, wcs_offset. rewrite HL. cbn [Z.eqb Pos.eqb].
  cbn beta. recs. rewrite list_lookup_total_insert_eq by lia.
  unfold word_of, given. assert (Hc : to_millimeters b' = to_millimeters b) by (unfold to_millimeters; by rewrite Hin). rewrite Hm, Ho, Hg, Ht, Hc.
  unfold zero in *. cbn [axis_letter nth].
  revert Hu Hr. generalize (cos_r b' !!! n), (sin_r b' !!! n), (cos_r b !!! n), (sin_r b !!! n). refine (fun (c s c0 s0 : R) Hu Hr => _). unfold unit_vector in Hu.
  assert (Hs : (s * s = 1 - c * c)%R) by lra. clear Hu.
  change (wz (g92_offset b) = 0%R) in Hz. unfold X_AXIS, Y_AXIS, Z_AXIS.
  destruct (has_letter g "X"%char) eqn:HX, (has_letter g "Y"%char) eqn:HY; try (destruct (Hr eq_refl) as [Ec Es]; rewrite Ec, Es in * ); clear Hr.
  all: revert i Hi; apply each_axis; cbn; rewrite ?HX, ?HY, ?Hx, ?Hy, ?Hz; cbn.
  all: try (by ring [Hs]); match goal with |- context [if ?h then _ else _] => destruct h end; cbn; ring [Hs].
Qed.
Definition turned (g : Words) (n : nat) (b : Robot) : Robot := if has_letter g "R"%char then set_rotation n (get_value g "R"%char) b else b.
Lemma set_wcs_robot g (w : World) n : has_letter g "L"%char = true -> get_int g "L"%char = 20%Z -> named_system (robot w) g = Some n -> uncalibrated g w = false ->
  exists w', set_wcs g w = Some (true, w') /\
    robot w' = let b := turned g n (robot w) in
      b <| wcs_offsets := <[n := wcs_offset b (mcs2selected_wcs (robot w) (wcs_of (machine_position (robot w))) n) g n]> (wcs_offsets b) |>.
Proof.
  intros HL H20 Hn Hc. unfold set_wcs, named_system, world, get, mbind, M_bind in *. cbv beta iota zeta in *. rewrite HL, H20. cbn [andb orb Z.eqb Pos.eqb] in *.
  destruct (has_letter g "P"%char); [|done]. cbn [andb] in *. set (k := if (get_uint g "P"%char =? 0)%Z then _ else _) in *.
  destruct (k <? Z.of_nat MAX_WCS)%Z; [|done]. injection Hn as Hn. cbn [negb]. rewrite Hc, Hn.
  unfold on_robot, modify, save_wcs. fold (turned g n (robot w)).
  destruct (n <=? 5)%nat; eexists; (split; [reflexivity|]); cbn; unfold turned; by destruct (has_letter g "R"%char).
Qed.
Lemma named_system_lt b g n : named_system b g = Some n -> (n < MAX_WCS)%nat.
Proof. unfold named_system. cbv zeta. intros E. case_match eqn:Hc; [|done]. injection E as <-. apply andb_true_iff in Hc as [_ Hc%Z.ltb_lt]. unfold MAX_WCS in *. lia. Qed.
Lemma turned_ok g n b : robot_ok b -> robot_ok (turned g n b).
Proof. intros Hb. unfold turned. case_match; [|done]. by apply set_rotation_ok. Qed.
(** C19: A position the machine is told is the one it reads. After G92 with some axes
    given, the present position reads in work coordinates as given on those, and as
    before on the others. After G10 L20 for a system, so it does in that system,
    unless a rotation is given with neither X nor Y (which turns the position about
    the system's origin); there, the offset of G92 has to be that of the tool in X and Y,
    and zero in Z; and the command is not refused for a tool that is not calibrated. The
    machine position stays what it was. *)
Theorem told_position_is_read :
  (forall b g i, (i < k_max_actuators)%nat -> length (machine_position b) = k_max_actuators ->
     axis_of (work (set_g92 g b) (machine_position b)) i = default (axis_of (work b (machine_position b)) i) (word_of b g i)) /\
  (forall g (w : World) n, robot_ok (robot w) -> has_letter g "L"%char = true -> get_int g "L"%char = 20%Z -> named_system (robot w) g = Some n -> uncalibrated g w = false ->
     has_letter g "X"%char || has_letter g "Y"%char || negb (has_letter g "R"%char) = true ->
     wx (g92_offset (robot w)) = wx (tool_offset (robot w)) -> wy (g92_offset (robot w)) = wy (tool_offset (robot w)) -> wz (g92_offset (robot w)) = zero ->
     exists w', set_wcs g w = Some (true, w') /\ machine_position (robot w') = machine_position (robot w) /\
       forall i, (i < k_max_actuators)%nat -> read_in (robot w') n i = default (read_in (robot w) n i) (word_of (robot w) g i)).
Proof.
  split.
  - intros b g i Hi Hm. unfold work, mcs2wcs, mcs2selected_wcs, set_g92. recs. revert i Hi. unfold word_of, given. cbn [axis_letter nth].
    apply each_axis; cbn; match goal with |- context [if ?h then _ else _] => destruct h end; cbn; ring.
  - intros g w n Hb HL H20 Hn Hc Hl Hx Hy Hz. 
    assert (Hlt : (n < MAX_WCS)%nat) by by eapply named_system_lt.
    destruct (set_wcs_robot g w n HL H20 Hn Hc) as (w' & Hw & Hr). exists w'. split; [done|].
    assert (Hk : robot_ok (turned g n (robot w))) by by apply turned_ok.
    assert (Hm : machine_position (turned g n (robot w)) = machine_position (robot w) /\ wcs_offsets (turned g n (robot w)) = wcs_offsets (robot w) /\
      g92_offset (turned g n (robot w)) = g92_offset (robot w) /\ tool_offset (turned g n (robot w)) = tool_offset (robot w) /\ inch_mode (turned g n (robot w)) = inch_mode (robot w))
      by (unfold turned; by case_match).
    destruct Hm as (Hm & Ho & Hg & Ht & Hi). rewrite Hr. split; [done|]. intros i Hii.
    apply offset_reads; try done; [by apply ro_offsets|by apply system_unit|]. intros Hxy. rewrite Hxy in Hl. unfold turned. by destruct (has_letter g "R"%char).
Qed.
End Told.
Lemma told_position_is_read_witness :
  let g := words 10 [("L"%char, 20%Z); ("P"%char, 1%Z); ("X"%char, 7%Z)] in
  exists w', set_wcs g (still_world plain_motor) = Some (true, w') /\ read_in (robot w') 0 0 = IZR 7.
Proof.
  destruct (told_position_is_read (Env := Rest)) as [_ Ht].
  destruct (Ht (words 10 [("L"%char, 20%Z); ("P"%char, 1%Z); ("X"%char, 7%Z)]) (still_world plain_motor) 0%nat still_robot_ok) as (w' & Hw & _ & Hr); try done.
  exists w'. split; [done|]. rewrite (Hr 0%nat) by (unfold k_max_actuators; lia). done.
Defined.
