(* ===== verification/RobotLimits.v ===== *)
(** * The robot's speeds and lines

    In real numbers: the rate and the acceleration of a milestone are within what
    each axis can do, and a line is cut into equal pieces of the straight way to its
    target. *)
From Stdlib Require Import Reals Lra.
From S2P Require Import Prelude Binary32 StepperMotor RobotAxis Arith Robot RobotMoves.
#[local] Open Scope Z_scope.
#[local] Open Scope nat_scope.
#[local] Existing Instance real.

(** ** What the axes can do *)

Section Limits.
Context {Motor : Type} `{!Axis (H := real) Motor} {Env : Type} `{!Machine (H := real) Motor Env}.
Abbreviation World := (World (H := real) Motor Env).
Definition Motor_ok (m : Motor) : Prop := (0 < get_max_rate m)%R /\ (0 < get_acceleration m)%R.
(** How far a motor is to go. *)
Definition way (pos : list num) (i : nat) (m : Motor) : R := Rabs ((pos !!! i) - get_last_milestone m)%R.
Definition takes_part (pos : list num) (i : nat) (m : Motor) : Prop := (tiny <= way pos i m)%R /\ is_selected m = true.
Lemma tiny_positive : (0 < tiny)%R.
Proof. change tiny with (IZR 1 / IZR 100000)%R. lra. Qed.
(** A pace scaled down from another. *)
Record slower (distance : R) (p p' : Pace) : Prop := mk_slower {
  sl_rate : (0 < rate_mm_s p' <= rate_mm_s p)%R; sl_isecs : isecs p' = (distance / rate_mm_s p')%R; sl_acceleration : (0 < acceleration p' <= acceleration p)%R
}.
Lemma slower_refl distance p : (0 < rate_mm_s p)%R -> isecs p = (distance / rate_mm_s p)%R -> (0 < acceleration p)%R -> slower distance p p.
Proof. intros. split; auto; lra. Qed.
Lemma slower_trans distance p q r : slower distance p q -> slower distance q r -> slower distance p r.
Proof. intros [] []. split; auto; lra. Qed.
(** Within its rate and its acceleration, for its share of the distance. *)
Definition within (distance d : R) (m : Motor) (p : Pace) : Prop :=
  (d / distance * rate_mm_s p <= get_max_rate m)%R /\ (d / distance * acceleration p <= get_acceleration m)%R.
Lemma within_slower distance d m p q : (0 < distance)%R -> (0 <= d)%R -> slower distance p q -> within distance d m p -> within distance d m q.
Proof.
  intros Hd H0 [Hr _ Ha] [H1 H2]. assert (Hq : (0 <= d / distance)%R) by (apply Rle_mult_inv_pos; lra).
  split; (eapply Rle_trans; [|eassumption]); apply Rmult_le_compat_l; lra.
Qed.
(** Brought down to a limit. *)
Lemma scaled_down (x v limit : R) : (0 < limit < v -> 0 < x -> 0 < x * (limit / v) < x)%R.
Proof.
  intros [Hl Hv] Hx. assert (Hq : (0 < limit / v < 1)%R).
  { split; [apply Rdiv_lt_0_compat; lra|]. apply (Rmult_lt_reg_r v); [lra|]. unfold Rdiv. rewrite Rmult_assoc, Rinv_l by lra. lra. }
  split; [apply Rmult_lt_0_compat; lra|]. rewrite <- (Rmult_1_r x) at 2. apply Rmult_lt_compat_l; lra.
Qed.
Lemma limit_speed_slows m i aux (distance d : R) p :
  i <> A_AXIS -> (0 < distance)%R -> (0 < d)%R -> Motor_ok m -> slower distance p p ->
  let q := limit_speed m i aux distance d (d / isecs p)%R p in slower distance p q /\ (d / distance * rate_mm_s q <= get_max_rate m)%R.
Proof.
  intros Hi Hd H0 [Hm Ha] [Hr His Hac]. unfold limit_speed. rewrite (proj2 (Nat.eqb_neq i A_AXIS) Hi). cbn [andb]. reals.
  assert (Hs : (d / isecs p = d / distance * rate_mm_s p)%R) by (rewrite His; field; lra).
  real_case Hlt.
  - pose proof (scaled_down (rate_mm_s p) (d / isecs p) (get_max_rate m) (conj Hm Hlt) (proj1 Hr)) as Hsc.
    split; [split; cbn; [lra|done|lra]|]. cbn. right. rewrite Hs. field. lra.
  - split; [by split|]. lra.
Qed.
Lemma limit_acceleration_slows m i (distance d : R) p :
  i <> A_AXIS -> (0 < distance)%R -> (0 < d)%R -> Motor_ok m -> slower distance p p ->
  let q := limit_acceleration m i distance d p in slower distance p q /\ rate_mm_s q = rate_mm_s p /\ (d / distance * acceleration q <= get_acceleration m)%R.
Proof.
  intros Hi Hd H0 [Hm Ha] [Hr His Hac]. unfold limit_acceleration. rewrite (proj2 (Nat.eqb_neq i A_AXIS) Hi). reals.
  assert (Hq : (0 < d / distance)%R) by (apply Rdiv_lt_0_compat; lra).
  real_case Hlt; [|by split; [|split; [|lra]]].
  assert (Hsc : (0 < acceleration p * (get_acceleration m / (d / distance * acceleration p)) < acceleration p)%R) by (apply scaled_down; lra).
  split; [split; cbn; [lra|done|lra]|split; [done|]]. cbn. right. field. lra.
Qed.
Lemma limit_motor_slows m i aux (distance d : R) p :
  i <> A_AXIS -> (0 < distance)%R -> (0 < d)%R -> Motor_ok m -> slower distance p p ->
  let q := limit_motor m i aux distance d (d / isecs p)%R p in slower distance p q /\ within distance d m q.
Proof.
  intros Hi Hd H0 Hm Hp. unfold limit_motor. destruct (limit_speed_slows m i aux distance d p Hi Hd H0 Hm Hp) as [H1 Hw1].
  set (q := limit_speed _ _ _ _ _ _ _) in *. clearbody q. assert (Hq : slower distance q q) by (destruct H1; split; auto; lra).
  destruct (limit_acceleration_slows m i distance d q Hi Hd H0 Hm Hq) as (H2 & Hr & Hw2). split; [by eapply slower_trans|]. split; [by rewrite Hr|done].
Qed.
(** The rotary axis stays where it is. *)
Definition a_quiet (w : World) (pos : list num) : Prop := forall m, actuators w !! A_AXIS = Some m -> ~ takes_part pos A_AXIS m.
Definition idles (pos : list num) (i : nat) (m : Motor) : bool := (way pos i m <? tiny)%num || negb (is_selected m).
Lemma idles_spec pos i m : idles pos i m = false <-> takes_part pos i m.
Proof.
  unfold idles, takes_part. generalize (way pos i m). intros d. reals. real_case Hlt; cbn [orb].
  - split; [done|]. intros [Hc _]. lra.
  - rewrite negb_false_iff. split; [intros; split; [lra|done]|by intros []].
Qed.
Lemma pace_motor_slows w target pos aux (distance : R) p i :
  (0 < distance)%R -> (forall m, m ∈ actuators w -> Motor_ok m) -> a_quiet w pos -> slower distance p p ->
  let q := pace_motor w target pos aux distance p i in
  slower distance p q /\ forall m, actuators w !! i = Some m -> takes_part pos i m -> within distance (way pos i m) m q.
Proof.
  intros Hd Hm Hq Hp. unfold pace_motor. destruct (actuators w !! i) as [m|] eqn:E; [|by split]. cbv zeta.
  change ((_ <? tiny)%num || _) with (idles pos i m). destruct (idles pos i m) eqn:Ei.
  - split; [done|]. intros m' [= <-] Htp%idles_spec. congruence.
  - apply idles_spec in Ei. destruct (Nat.eqb_spec i A_AXIS) as [->|Hi]; [by destruct (Hq m E)|]. cbn [andb].
    assert (H0 : (0 < way pos i m)%R) by (pose proof tiny_positive; destruct Ei; lra).
    destruct (limit_motor_slows m i aux distance (way pos i m) p Hi Hd H0 (Hm m (list_elem_of_lookup_2 _ _ _ E)) Hp) as [H1 H2].
    split; [done|]. by intros m' [= <-] _.
Qed.
Lemma pace_motors_slow w target pos aux (distance : R) l p :
  (0 < distance)%R -> (forall m, m ∈ actuators w -> Motor_ok m) -> a_quiet w pos -> slower distance p p ->
  let q := fold_left (pace_motor w target pos aux distance) l p in
  slower distance p q /\ forall i m, i ∈ l -> actuators w !! i = Some m -> takes_part pos i m -> within distance (way pos i m) m q.
Proof.
  intros Hd Hm Hq. revert p. induction l as [|i l IH]; intros p Hp; cbn [fold_left]; [split; [done|]; intros i m Hi; by apply not_elem_of_nil in Hi|].
  destruct (pace_motor_slows w target pos aux distance p i Hd Hm Hq Hp) as [H1 H2]. set (q := pace_motor _ _ _ _ _ _ _) in *. clearbody q.
  assert (Hqq : slower distance q q) by (destruct H1; split; auto; lra). destruct (IH q Hqq) as [H3 H4]. split; [by eapply slower_trans|].
  intros j m [->|Hj]%elem_of_cons Em Htp; [|by apply (H4 j)]. eapply within_slower; [done|apply Rabs_pos|exact H3|by apply H2].
Qed.
Definition speed_limit (b : Robot) (i : nat) : num := max_speeds b !!! i.
Definition share (u : list num) (i : nat) : num := u !!! i.
Lemma limit_axis_slows b u (rate : R) i : (0 < rate)%R ->
  let r := limit_axis b u rate i in (0 < r <= rate)%R /\ ((0 < speed_limit b i)%R -> (Rabs (share u i * r) <= speed_limit b i)%R).
Proof.
  intros Hr. unfold limit_axis, zero. cbv zeta. fold (speed_limit b i). fold (share u i). generalize (speed_limit b i), (share u i). refine (fun l x : R => _). reals.
  real_case Hl; [|split; [lra|intros; lra]]. real_case Hlt; [|split; [lra|intros; lra]].
  pose proof (scaled_down rate (Rabs (x * rate)) l (conj Hl Hlt) Hr) as Hs. split; [lra|]. intros _. right.
  rewrite <- Rmult_assoc, Rabs_mult, (Rabs_pos_eq (l / _)) by (apply Rlt_le, Rdiv_lt_0_compat; lra). field. lra.
Qed.
Lemma rate_bound (x r r' l : R) : (0 < r' <= r -> Rabs (x * r) <= l -> Rabs (x * r') <= l)%R.
Proof. intros Hr Hl. rewrite Rabs_mult in *. rewrite (Rabs_pos_eq r) in Hl by lra. rewrite (Rabs_pos_eq r') by lra. eapply Rle_trans; [|exact Hl]. apply Rmult_le_compat_l; [apply Rabs_pos|lra]. Qed.
(** No axis faster than it may move, nor the whole. *)
Definition speeds_ok (b : Robot) (u : list num) (rate : R) : Prop :=
  (forall i, (i < 3)%nat -> (0 < speed_limit b i)%R -> (Rabs (share u i * rate) <= speed_limit b i)%R) /\ ((0 < max_speed b)%R -> (rate <= max_speed b)%R).
Lemma speeds_slower b u (r r' : R) : (0 < r' <= r)%R -> speeds_ok b u r -> speeds_ok b u r'.
Proof. intros Hr [H1 H2]. split; [|intros Hm; specialize (H2 Hm); lra]. intros i Hi Hm. apply (rate_bound _ r); [done|]. by apply H1. Qed.
Lemma limit_rate_slows b u (rate : R) : (0 < rate)%R -> let r := limit_rate b u rate in (0 < r <= rate)%R /\ speeds_ok b u r.
Proof.
  intros Hr. unfold limit_rate. cbn [fold_left]. destruct (limit_axis_slows b u rate X_AXIS Hr) as [H0 L0]. set (r0 := limit_axis b u rate X_AXIS) in *. clearbody r0.
  destruct (limit_axis_slows b u r0 Y_AXIS (proj1 H0)) as [H1 L1]. set (r1 := limit_axis b u r0 Y_AXIS) in *. clearbody r1.
  destruct (limit_axis_slows b u r1 Z_AXIS (proj1 H1)) as [H2 L2]. set (r2 := limit_axis b u r1 Z_AXIS) in *. clearbody r2.
  assert (Hs : forall i, (i < 3)%nat -> (0 < speed_limit b i)%R -> (Rabs (share u i * r2) <= speed_limit b i)%R).
  { intros i Hi Hm. destruct i as [|[|[|]]]; [| |by apply L2|lia]; (apply (rate_bound _ r1); [done|]); [apply (rate_bound _ r0); [done|]; by apply L0|by apply L1]. }
  change R with (num (Arith := real)) in r0, r1, r2. unfold speeds_ok, zero. generalize (max_speed b). refine (fun m : R => _). reals.
  real_case Hm; cbn [andb]; [real_case Hlt|].
  - split; [lra|]. split; [|intros; lra]. intros i Hi Hl. apply (rate_bound _ r2); [lra|]. by apply Hs.
  - split; [lra|]. split; [done|intros; lra].
  - split; [lra|]. split; [done|intros; lra].
Qed.
(** C9: No axis is asked for more than it can do. For a milestone planned at a positive
    feed rate, over a positive distance, in which the rotary axis takes no part: the
    rate is positive and no more than asked for, the acceleration positive and no
    more than the default; a move of primary axes has each of X, Y and Z within its
    largest speed, and the whole within the largest of all; and each motor that
    takes part is within its own rate and its own acceleration. *)
Theorem axes_within_limits (w : World) target deltas pos (distance feed : R) :
  (0 < distance)%R -> (0 < feed)%R -> (0 < seconds_per_minute (robot w))%R -> (0 < default_acceleration (robot w))%R ->
  (forall m, m ∈ actuators w -> Motor_ok m) -> a_quiet w pos ->
  let asked := ((if inverse_time_mode (robot w) then feed * distance else feed) / seconds_per_minute (robot w))%R in
  let '(p, unit_vec) := pace_of w target deltas pos distance feed in
  (0 < rate_mm_s p <= asked)%R /\ (0 < acceleration p <= default_acceleration (robot w))%R /\
  (forall u, unit_vec = Some u -> speeds_ok (robot w) u (rate_mm_s p)) /\
  forall i m, (i < n_motors (robot w))%nat -> actuators w !! i = Some m -> takes_part pos i m -> within distance (way pos i m) m p.
Proof.
  intros Hd Hf Hs Ha Hm Hq. unfold pace_of. cbv zeta. set (asked := ((if inverse_time_mode _ then _ else feed) / _)%R).
  assert (Hk : (0 < asked)%R) by (unfold asked; apply Rdiv_lt_0_compat; [case_match; [apply Rmult_lt_0_compat|]|]; done).
  set (u := map _ _). change (ndiv _ (seconds_per_minute (robot w))) with asked. clearbody asked.
  match goal with |- context [@mk_pace real ?x] => set (r := x : R) end.
  assert (Hr : (0 < r <= asked)%R /\ (auxilliary deltas = false -> speeds_ok (robot w) u r)).
  { unfold r. destruct (auxilliary deltas); [split; [lra|done]|]. destruct (limit_rate_slows (robot w) u asked Hk). by split. }
  destruct Hr as [Hr Hu]. clearbody r.
  destruct (pace_motors_slow w target pos (auxilliary deltas) distance (seq 0 (n_motors (robot w))) (@mk_pace real r (@ndiv real distance r) (default_acceleration (robot w))) Hd Hm Hq
    ltac:(split; cbn; [lra|done|lra])) as [Hp Hw].
  set (p := fold_left _ _ _) in *. clearbody p. destruct Hp as [Hp1 _ Hp2]. cbn in Hp1, Hp2. split; [lra|]. split; [lra|]. split.
  - intros u' Hu'. destruct (auxilliary deltas); [done|]. injection Hu' as <-. apply (speeds_slower _ _ r); [done|]. by apply Hu.
  - intros i m Hi. apply Hw. apply elem_of_seq. lia.
Qed.
End Limits.
(** 10 mm in X at 6000 mm/min. *)
Lemma axes_within_limits_witness :
  let to_x10 : list num := [IZR 10; zero; zero; zero; zero] in
  let '(p, _) := pace_of (still_world plain_motor) to_x10 to_x10 to_x10 (IZR 10) (IZR 6000) in (0 < rate_mm_s p <= 6000 / 60)%R.
Proof.
  pose proof (axes_within_limits (still_world plain_motor) [IZR 10; zero; zero; zero; zero] [IZR 10; zero; zero; zero; zero] [IZR 10; zero; zero; zero; zero] (IZR 10) (IZR 6000)) as Hw.
  cbv zeta. destruct (pace_of _ _ _ _ _ _) as [p u]. change (seconds_per_minute (robot (still_world plain_motor))) with (IZR 60) in Hw.
  change (default_acceleration (robot (still_world plain_motor))) with (IZR 100) in Hw. change (inverse_time_mode (robot (still_world plain_motor))) with false in Hw.
  apply Hw; try lra.
  - intros m Hm. cbn in Hm. repeat (apply elem_of_cons in Hm as [->|Hm]; [split; cbn; lra|]). by apply not_elem_of_nil in Hm.
  - intros m [= <-] [Hc _]. unfold way in Hc. cbn in Hc. rewrite Rminus_0_r, Rabs_R0 in Hc. pose proof tiny_positive as Ht. cbn in Ht. lra.
Defined.

(** ** Lines *)

Section Lines.
Context {Motor : Type} `{!Axis (H := real) Motor} {Env : Type} `{!Machine (H := real) Motor Env}.
Abbreviation World := (World (H := real) Motor Env).
Abbreviation M := (M (Motor := Motor) (Env := Env)).
(** A part of the way from one place to another. *)
Definition between (from to : list num) (f : R) : list num := zip_with (fun x y : R => (x + f * (y - x))%R) from to.
(** To each of some places in turn, unless the machine halts or the motion is given
    up. *)
Fixpoint walk (hold : nat) (places : list (list num)) (rate : num) (line : Z) (moved : bool) : M (option bool) :=
  match places with
  | [] => mret (Some moved)
  | place :: places =>
      e ← get env;
      if is_halted e || motion_abort_requested e then mret None
      else m ← append_milestone hold place rate line; walk hold places rate line (moved || m)
  end.
Lemma between_next from to (i n : Z) : n <> 0%Z ->
  zip_with nadd (between from to (IZR i / IZR n)) (zip_with (fun t p : R => ((t - p) / IZR n)%R) to from) = between from to (IZR (i + 1) / IZR n).
Proof.
  intros Hn. assert (Hr : IZR n <> 0%R) by by apply not_0_IZR. revert to. induction from as [|x from IH]; intros [|y to]; try done.
  unfold between in *. cbn [zip_with]. f_equal; [|apply IH]. reals. rewrite plus_IZR. field. done.
Qed.
Lemma loop_walks hold from to N rate line n i moved w : N <> 0%Z ->
  line_loop hold n (between from to (IZR i / IZR N)) (zip_with (fun t p : R => ((t - p) / IZR N)%R) to from) rate line moved w =
  walk hold (map (fun k => between from to (IZR k / IZR N)) (seqZ (i + 1) (Z.of_nat n))) rate line moved w.
Proof.
  intros HN. revert i moved w. induction n as [|n IH]; intros i moved w; [done|].
  rewrite seqZ_cons by lia. cbn [line_loop map walk]. rewrite between_next by done. unfold mbind, M_bind, get.
  destruct (_ || _); [done|]. destruct (append_milestone _ _ _ _ _) as [[m w']|]; [|done]. rewrite IH. do 3 f_equal. lia.
Qed.
Lemma between_start from to n : length to = length from -> between from to (IZR 0 / n) = from.
Proof.
  revert to. induction from as [|x from IH]; intros [|y to] Hl; try done. unfold between in *. cbn [zip_with]. f_equal; [|apply IH; by injection Hl].
  unfold Rdiv. ring.
Qed.
(** Rounded up. *)
Lemma rounded_up (x : R) : (0 < x)%R -> (x <= IZR (2 ^ 16 - 1))%R -> let n := to_u16 (n_ceilf x) in (IZR n - 1 < x <= IZR n)%R /\ (1 <= n < 2 ^ 16)%Z.
Proof.
  intros H0 Hx. cbv zeta. reals. set (c := (- Int_part (- x))%Z). destruct (base_Int_part (- x)) as [H1 H2].
  assert (Hc : (IZR c - 1 < x <= IZR c)%R) by (unfold c; rewrite opp_IZR; lra).
  assert (Hb : (1 <= c <= 2 ^ 16 - 1)%Z).
  { assert (H01 : (0 < c)%Z) by (apply lt_IZR; lra). assert (H02 : (c < 2 ^ 16 - 1 + 1)%Z) by (apply lt_IZR; rewrite plus_IZR; lra). lia. }
  replace (- IZR (Int_part (- x)))%R with (IZR c) by (unfold c; by rewrite opp_IZR).
  assert (Ht : truncated (IZR c) = c).
  { unfold truncated. destruct (Rlt_dec (IZR c) 0) as [Hn|Hn]; [apply lt_IZR in Hn; lia|]. symmetry. apply Int_part_spec. lra. }
  rewrite Ht. assert (Hu : u16 (Z.max 0 c) = c) by (unfold u16, wrap; rewrite Z.mod_small; lia). rewrite Hu. split; [done|lia].
Qed.
(** Cut by length, and not along Z alone when that is not cut. *)
Definition cut_by_length (b : Robot) (g : Words) : Prop :=
  disable_segmentation b = false /\ (segment_z_moves b = true \/ has_letter g "X"%char = true \/ has_letter g "Y"%char = true) /\
  (delta_segments_per_second b <= 1)%R /\ (0 < mm_per_line_segment b)%R.
Lemma cut_lines b g (feed travel : R) : cut_by_length b g -> (0 < travel)%R -> (travel / mm_per_line_segment b <= IZR (2 ^ 16 - 1))%R ->
  let n := line_segments b g feed travel in (1 <= n < 2 ^ 16)%Z /\ (travel / IZR n <= mm_per_line_segment b)%R.
Proof.
  intros (Hd & Hl & Hs & Hm) Ht Hx. unfold line_segments. rewrite Hd. cbn [orb].
  replace (negb (segment_z_moves b) && _ && _) with false by (destruct Hl as [->|[->| ->]]; [done|by rewrite andb_false_r|by rewrite andb_false_r]).
  assert (E1 : (of_Z 1 <? delta_segments_per_second b)%num = false) by (reals; real_case Hc; [lra|done]). rewrite E1.
  assert (E2 : neqb (mm_per_line_segment b) zero = false) by (unfold zero; reals; unfold real_eqb; destruct (Req_dec_T _ _); [lra|done]). rewrite E2.
  destruct (rounded_up (travel / mm_per_line_segment b)) as [Hn Hb]; [by apply Rdiv_lt_0_compat|done|].
  set (n := to_u16 _) in Hn, Hb. match goal with |- context [to_u16 ?c] => change (to_u16 c) with n end. clearbody n. split; [done|]. assert (Hn0 : (0 < IZR n)%R) by (apply IZR_lt; lia).
  apply (Rmult_le_reg_r (IZR n)); [done|]. unfold Rdiv at 1. rewrite Rmult_assoc, Rinv_l, Rmult_1_r by lra.
  apply (Rmult_le_reg_l (/ mm_per_line_segment b)); [by apply Rinv_0_lt_compat|]. rewrite <- Rmult_assoc, Rinv_l, Rmult_1_l by lra. unfold Rdiv in Hn. lra.
Qed.
(** C11: A line is the straight way to its target. With a positive feed rate and a target
    that is not where the machine is, [append_line] goes, one after the other, to the places at 1/n, 2/n, ... of
    the straight way from where the machine is, on all its axes at once, then to the
    target itself, unless the machine halts or the motion is given up: n is the
    number of segments. Where lines are cut by length, and need no more than
    2^16 - 1 segments, no segment is longer than [mm_per_line_segment]. *)
Theorem line_is_straight hold g target (feed : R) (w : World) :
  let b := robot w in let travel : R := travel_to b target in let n := line_segments b g feed travel in
  let from := take (n_motors b) (machine_position b) in
  length target = length from -> (0 < feed)%R -> (tiny <= travel)%R ->
  (n <> 0%Z ->
   append_line hold g target feed w =
   let rate := if inverse_time_mode b then (feed * of_Z n)%num else feed in
   (moved ← walk hold (map (fun k => between from target (IZR k / IZR n)) (seqZ 1 (Z.of_nat (Z.to_nat n - 1)))) rate (wline g) false;
    match moved with
    | None => mret false
    | Some moved =>
        last ← append_milestone hold target rate (wline g);
        _ ← on_robot (fun b => b <| next_command_is_MCS := false |>); mret (moved || last)
    end) w) /\
  (cut_by_length b g -> (travel / mm_per_line_segment b <= IZR (2 ^ 16 - 1))%R -> (1 <= n < 2 ^ 16)%Z /\ (travel / IZR n <= mm_per_line_segment b)%R).
Proof.
  intros b travel n from Hlen Hf Ht. split; [|intros Hc Hx; apply cut_lines; [done| |done]; pose proof tiny_positive; lra].
  intros Hn. unfold append_line. assert (E1 : (feed <=? zero)%num = false) by (unfold zero; reals; real_case Hc; [lra|done]). rewrite E1.
  unfold mbind at 1, M_bind at 1, get at 1. fold b travel. assert (E2 : (travel <? tiny)%num = false) by (reals; real_case Hc; [lra|done]). rewrite E2. cbv zeta. fold n from.
  unfold mbind, M_bind. match goal with |- match line_loop _ ?k _ _ ?r ?l ?m w with _ => _ end = _ => pose proof (loop_walks hold from target n r l k 0 m w Hn) as Hl end.
  rewrite between_start in Hl by done. 
  change (zip_with _ target from) with (zip_with (fun t p : R => ((t - p) / IZR n)%R) target from).
  by rewrite Hl.
Qed.
End Lines.
(** 20 mm in X, in pieces of 5 mm. *)
Definition pieces_world : World PlainMotor Rest := (still_world plain_motor) <| robot := still_robot <| mm_per_line_segment := IZR 5 |> |>.
Lemma line_is_straight_witness :
  let target : list num := map IZR [20; 0; 0; 0; 0]%Z in let g := words 1 [("X"%char, 20%Z)] in
  let n := line_segments (robot pieces_world) g (IZR 600) (travel_to (robot pieces_world) target) in (1 <= n < 2 ^ 16)%Z.
Proof.
  cbv zeta. assert (Ht : travel_to (robot pieces_world) (map IZR [20; 0; 0; 0; 0]%Z) = (20%R : num)).
  { change (sqrt ((20 - 0)² + (0 - 0)² + (0 - 0)²) = 20)%R. transitivity (sqrt (Rsqr 20)); [f_equal; unfold Rsqr; ring|apply sqrt_Rsqr; lra]. }
  destruct (line_is_straight 0 (words 1 [("X"%char, 20%Z)]) (map IZR [20; 0; 0; 0; 0]%Z) (IZR 600) pieces_world) as [_ Hn].
  - done.
  - lra.
  - rewrite Ht. change (IZR 1 / IZR 100000 <= 20)%R. lra.
  - apply Hn; [split; [done|split; [by right; left|split; [change (0 <= 1)%R; lra|change (0 < 5)%R; lra]]]|]. rewrite Ht. change (20 / 5 <= IZR 65535)%R. lra.
Defined.
(** One segment too many, and there is none. *)
Lemma segments_wrap : u16 (2 ^ 16) = 0%Z.
Proof. done. Qed.
