(* ===== verification/RobotArcs.v ===== *)
(** * The robot's arcs

    In real numbers: the angle an arc turns brings its beginning to its end, and the
    ends of its segments lie on the circle, but for what turning by the first terms
    of a small angle's sine and cosine adds. *)
From Stdlib Require Import Reals Lra.
From S2P Require Import Prelude Binary32 StepperMotor RobotAxis Arith Robot RobotMoves RobotGeometry RobotLimits.
#[local] Open Scope Z_scope.
#[local] Open Scope nat_scope.
#[local] Existing Instance real.

(** ** Arcs *)

(** The angle of a vector. *)
Lemma length_over (x y : R) : (x <> 0 -> sqrt (x * x + y * y) = Rabs x * sqrt (1 + Rsqr (y / x)))%R.
Proof.
  intros Hx. assert (H1 : (0 <= 1 + (y / x)²)%R) by (pose proof (Rle_0_sqr (y / x)); lra).
  rewrite <- sqrt_Rsqr_abs, <- sqrt_mult by (try apply Rle_0_sqr; done). f_equal. unfold Rsqr. field. done.
Qed.
Lemma atan2_is_angle (x y : R) : (0 < x * x + y * y -> let a := real_atan2 y x in let h := sqrt (x * x + y * y) in
  cos a * h = x /\ sin a * h = y /\ - PI <= a <= PI)%R.
Proof.
  intros Hp. pose proof PI_RGT_0 as Hpi. cbv zeta. unfold real_atan2. set (t := atan (y / x)). pose proof (atan_bound (y / x)) as Hb. fold t in Hb.
  assert (Hq : (0 < sqrt (1 + (y / x)²))%R) by (apply sqrt_lt_R0; pose proof (Rle_0_sqr (y / x)); lra).
  pose proof (cos_atan (y / x)) as Hc. pose proof (sin_atan (y / x)) as Hs. fold t in Hc, Hs. set (q := sqrt (1 + (y / x)²)) in *.
  destruct (Rlt_dec 0 x) as [Hx|Hx]; [|destruct (Rlt_dec x 0) as [Hx'|Hx']].
  - rewrite length_over by lra. fold q. rewrite Hc, Hs, Rabs_pos_eq by lra. repeat split; try lra; field; lra.
  - assert (Hsgn : (y < 0 -> 0 < t)%R /\ (0 <= y -> t <= 0)%R).
    { unfold t. assert (Hi : (/ x < 0)%R) by by apply Rinv_lt_0_compat. split; intros Hy.
      - pose proof (atan_increasing 0 (y / x) ltac:(unfold Rdiv; nra)) as Ha. by rewrite atan_0 in Ha.
      - destruct (Rle_lt_or_eq_dec 0 y Hy) as [Hlt|<-]; [|unfold Rdiv; rewrite Rmult_0_l, atan_0; lra].
        pose proof (atan_increasing (y / x) 0 ltac:(unfold Rdiv; nra)) as Ha. rewrite atan_0 in Ha. lra. }
    rewrite length_over by lra. fold q. rewrite Rabs_left by lra.
    destruct (Rlt_dec y 0) as [Hy|Hy].
    + replace (t - PI)%R with (- (PI - t))%R by lra. rewrite cos_neg, sin_neg, Rtrigo_facts.cos_pi_minus, Rtrigo_facts.sin_pi_minus, Hc, Hs.
      pose proof (proj1 Hsgn Hy). repeat split; try lra; field; lra.
    + rewrite neg_cos, neg_sin, Hc, Hs. pose proof (proj2 Hsgn ltac:(lra)). repeat split; try lra; field; lra.
  - assert (x = 0)%R as -> by lra. rewrite Rmult_0_l, Rplus_0_l. destruct (Rlt_dec 0 y) as [Hy|Hy]; [|destruct (Rlt_dec y 0) as [Hy'|Hy']; [|exfalso]].
    + rewrite cos_PI2, sin_PI2, sqrt_square by lra. repeat split; lra.
    + replace (- PI / 2)%R with (- (PI / 2))%R by lra. rewrite cos_neg, sin_neg, cos_PI2, sin_PI2.
      replace (y * y)%R with ((- y) * (- y))%R by lra. rewrite sqrt_square by lra. repeat split; lra.
    + assert (y = 0)%R as -> by lra. lra.
Qed.
(** A vector turned by an angle, counted from the plane's first axis to its
    second. *)
Definition rotated_by (angle : R) (v : R * R) : R * R := (v.1 * cos angle - v.2 * sin angle, v.1 * sin angle + v.2 * cos angle)%R.
Lemma rotated_turns angle v : rotated_by (angle + 2 * PI)%R v = rotated_by angle v /\ rotated_by (angle - 2 * PI)%R v = rotated_by angle v.
Proof.
  unfold rotated_by. unfold Rminus. rewrite !cos_plus, !sin_plus, !cos_neg, !sin_neg, !cos_2PI, !sin_2PI. by split; f_equal; lra.
Qed.
Lemma angle_between (s t : R * R) : (0 < s.1 * s.1 + s.2 * s.2 -> t.1 * t.1 + t.2 * t.2 = s.1 * s.1 + s.2 * s.2 ->
  let a := real_atan2 (s.1 * t.2 - s.2 * t.1) (s.1 * t.1 + s.2 * t.2) in rotated_by a s = t /\ - PI <= a <= PI)%R.
Proof.
  destruct s as [s0 s1], t as [t0 t1]. cbn [fst snd]. intros Hs Ht. set (r2 := (s0 * s0 + s1 * s1)%R) in *.
  set (x := (s0 * t0 + s1 * t1)%R). set (y := (s0 * t1 - s1 * t0)%R).
  assert (Hxy : (x * x + y * y = r2 * r2)%R) by (rewrite <- Ht at 2; unfold x, y, r2; ring).
  destruct (atan2_is_angle x y) as (Hc & Hsn & Hb); [rewrite Hxy; nra|]. rewrite Hxy, sqrt_square in Hc, Hsn by lra.
  cbv zeta. split; [|exact Hb]. unfold rotated_by. cbn [fst snd]. set (a := real_atan2 y x) in *. clearbody a.
  f_equal; apply (Rmult_eq_reg_r r2); try lra.
  - transitivity (s0 * x - s1 * y)%R; [rewrite <- Hc, <- Hsn; ring|]. unfold x, y, r2. ring.
  - transitivity (s0 * y + s1 * x)%R; [rewrite <- Hc, <- Hsn; ring|]. unfold x, y, r2. ring.
Qed.

Definition in_plane (b : Robot) (v : list num) : R * R := ((v !!! plane_axis_0 b : num), (v !!! plane_axis_1 b : num)).
Definition squared (v : R * R) : R := (v.1 * v.1 + v.2 * v.2)%R.
(** Whether the arc ends where it begins, in the plane. *)
Definition full_circle (b : Robot) (target : list num) : bool :=
  real_eqb (arc_milestone b !!! plane_axis_0 b) (target !!! plane_axis_0 b) && real_eqb (arc_milestone b !!! plane_axis_1 b) (target !!! plane_axis_1 b).
(** Whether the angle is to be negative: in the plane of X and Z it is counted the
    other way, but not for a full circle. *)
Definition backwards (b : Robot) (target : list num) (is_clockwise : bool) : bool :=
  if full_circle b target then is_clockwise else if (plane_axis_2 b =? Y_AXIS)%nat then negb is_clockwise else is_clockwise.
Lemma travel_turns b target start target_vector is_clockwise :
  let s := in_plane b start in let t := in_plane b target_vector in let a := angular_travel b target start target_vector is_clockwise in
  (0 < squared s)%R -> squared t = squared s ->
  (if full_circle b target then Rabs a = (2 * PI)%R else rotated_by a s = t) /\
  if backwards b target is_clockwise then (- (2 * PI) <= a <= 0)%R else (0 <= a <= 2 * PI)%R.
Proof.
  cbv zeta. intros Hs Ht. unfold angular_travel. cbv zeta. change (neqb _ _ && neqb _ _) with (full_circle b target). unfold backwards.
  pose proof PI_RGT_0 as Hpi. destruct (full_circle b target).
  - destruct is_clockwise; reals; [split; [rewrite Rabs_left; lra|lra]|split; [rewrite Rabs_pos_eq; lra|lra]].
  - set (back := if (plane_axis_2 b =? Y_AXIS)%nat then _ else _). clearbody back.
    destruct (angle_between (in_plane b start) (in_plane b target_vector) Hs Ht) as [Ha Hb].
    set (a := real_atan2 _ _) in Ha, Hb.
    match goal with |- context [n_atan2f ?y ?x] => change (n_atan2f y x) with a end.
    clearbody a. unfold zero. reals.
    destruct (rotated_turns a (in_plane b start)) as [Hp Hm].
    destruct back; real_case Hl; rewrite ?Hp, ?Hm; (split; [done|lra]).
Qed.
(** The radius vector after some segments, while the robot's settings stay. *)
Fixpoint arc_vector (b : Robot) (offset start : list num) (theta : R) (k : nat) : list num * Z :=
  match k with O => (start, 0%Z) | S k' => let '(v, count) := arc_vector b offset start theta k' in turn_radius b offset v theta (Z.of_nat k) count end.
(** What a turn by the small angle's first terms adds to the square. *)
Definition growth (theta : R) : R := (1 + theta ^ 4 / 4)%R.
Lemma turned_in_plane b (v : list num) (x y : num) : plane_ok (plane_axis_0 b) (plane_axis_1 b) (plane_axis_2 b) -> length v = 3%nat ->
  in_plane b (<[plane_axis_1 b := y]> (<[plane_axis_0 b := x]> v)) = ((x : R), (y : R)) /\ (<[plane_axis_1 b := y]> (<[plane_axis_0 b := x]> v)) !!! plane_axis_2 b = v !!! plane_axis_2 b.
Proof.
  intros Hp Hv. destruct v as [|v0 [|v1 [|v2 [|]]]]; try done. unfold in_plane.
  destruct Hp as [Hp|[Hp|Hp]]; injection Hp as E0 E1 E2; rewrite E0, E1, E2; done.
Qed.
Lemma s8_small x : (0 <= x <= 127)%Z -> s8 x = x.
Proof. intros Hx. unfold s8, wrap. rewrite Z.mod_small by lia. by destruct (Z.ltb_spec x 128); [|lia]. Qed.
Lemma small_turn (theta : R) (v : R * R) :
  let c := (1 - real_literal 5 (-1) * theta * theta)%R in
  squared (v.1 * c - v.2 * theta, v.1 * theta + v.2 * c)%R = (squared v * growth theta)%R.
Proof. cbv zeta. change (real_literal 5 (-1)) with (5 / 10)%R. unfold squared, growth. cbn [fst snd]. field. Qed.
Lemma exact_turn (a : R) (o : R * R) : squared (- o.1 * cos a + o.2 * sin a, - o.1 * sin a - o.2 * cos a)%R = squared o /\
  (- o.1 * cos a + o.2 * sin a, - o.1 * sin a - o.2 * cos a)%R = rotated_by a (- o.1, - o.2)%R.
Proof.
  unfold squared, rotated_by. cbn [fst snd]. split; [|f_equal; ring]. pose proof (sin2_cos2 a) as Hu. unfold Rsqr in Hu.
  transitivity ((o.1 * o.1 + o.2 * o.2) * (sin a * sin a + cos a * cos a))%R; [ring|]. rewrite Hu. ring.
Qed.
Lemma arc_vector_keeps b offset start (theta : R) k :
  plane_ok (plane_axis_0 b) (plane_axis_1 b) (plane_axis_2 b) -> length start = 3%nat -> (arc_correction b <= 127)%Z ->
  in_plane b start = (- (in_plane b offset).1, - (in_plane b offset).2)%R ->
  let '(v, count) := arc_vector b offset start theta k in
  length v = 3%nat /\ (0 <= count <= Z.max 0 (arc_correction b))%Z /\ v !!! plane_axis_2 b = start !!! plane_axis_2 b /\
  squared (in_plane b v) = (squared (in_plane b offset) * growth theta ^ Z.to_nat count)%R /\
  (count = 0%Z -> in_plane b v = rotated_by (IZR (Z.of_nat k) * theta) (in_plane b start)).
Proof.
  intros Hp Hs Ha H0. induction k as [|k IH]; cbn [arc_vector].
  - split; [done|]. split; [lia|]. split; [done|]. rewrite H0. generalize (in_plane b offset). intros [o0 o1]. unfold squared, rotated_by. change (Z.to_nat 0) with 0%nat. cbn [fst snd pow Z.of_nat].
    rewrite Rmult_0_l, cos_0, sin_0. split; [ring|]. intros _. f_equal; ring.
  - destruct (arc_vector b offset start theta k) as [v count]. destruct IH as (Hl & Hc & H2 & Hq & _). unfold turn_radius. cbv zeta.
    destruct (Z.ltb_spec count (arc_correction b)) as [Hlt|Hge].
    + match goal with |- context [<[plane_axis_1 b := ?y]> (<[plane_axis_0 b := ?x]> v)] => destruct (turned_in_plane b v x y Hp Hl) as [Hx Hy] end.
      rewrite Hx, Hy, s8_small by lia. split; [by rewrite !length_insert|]. split; [lia|]. split; [done|]. split; [|lia].
      transitivity (squared (in_plane b v) * growth theta)%R; [exact (small_turn theta (in_plane b v))|].
      rewrite Hq. replace (Z.to_nat (count + 1)) with (S (Z.to_nat count)) by lia. cbn [pow]. ring.
    + match goal with |- context [<[plane_axis_1 b := ?y]> (<[plane_axis_0 b := ?x]> v)] => destruct (turned_in_plane b v x y Hp Hl) as [Hx Hy] end.
      rewrite Hx, Hy. split; [by rewrite !length_insert|]. split; [lia|]. split; [done|]. change (Z.to_nat 0) with 0%nat. rewrite H0.
      destruct (exact_turn (IZR (Z.of_nat (S k)) * theta) (in_plane b offset)) as [E1 E2].
      split; [etransitivity; [exact E1|]; cbn [pow]; ring|]. intros _. exact E2.
Qed.
Definition in_xy_plane (b : Robot) : Prop := plane_axis_0 b = X_AXIS /\ plane_axis_1 b = Y_AXIS /\ plane_axis_2 b = Z_AXIS.
Definition at_axis (v : list num) (i : nat) : num := v !!! i.
(** Where a point of an arc is, from the centre: the radius vector in the machine's
    directions, and its part of the way in Z. *)
Lemma point_from_center b offset target (x y : num) i segments (c := cos_r b !!! current_wcs b) (s := sin_r b !!! current_wcs b) :
  in_xy_plane b -> (1 < segments)%Z -> length offset = 3%nat ->
  let point := arc_point b (arc_center b offset) [x; y; (0%R : num)] (arc_step (arc_linear b target) segments) target i segments in
  let from_center j := (at_axis point j - at_axis (arc_center b offset) j)%R in
  from_center 0%nat = (x * c - y * s)%R /\ from_center 1%nat = (x * s + y * c)%R /\
  from_center 2%nat = (IZR i * ((at_axis target 2 - at_axis (arc_milestone b) 2) / IZR segments))%R.
Proof.
  intros (P0 & P1 & P2) Hseg Hl. assert (Hs0 : IZR segments <> 0%R) by (apply not_0_IZR; lia). destruct offset as [|o0 [|o1 [|o2 [|]]]]; try done.
  unfold arc_point, arc_step, arc_linear, arc_center, rotated, rotate, at_axis. rewrite P0, P1, P2. rewrite (proj2 (Z.ltb_lt _ _) Hseg).
  fold c s. clearbody c s. unfold X_AXIS, Y_AXIS, Z_AXIS. cbn. repeat split; field; done.
Qed.
(** The turns made by the small angle since the last exact one. *)
Definition turns_since (b : Robot) (k : nat) : nat := (k mod S (Z.to_nat (arc_correction b)))%nat.
Lemma turns_next (c count : Z) (k : nat) : (0 <= count <= Z.max 0 c)%Z -> count = Z.of_nat (k mod S (Z.to_nat c)) ->
  (if (count <? c)%Z then count + 1 else 0)%Z = Z.of_nat (S k mod S (Z.to_nat c)).
Proof.
  intros Hr Hc. set (m := Z.to_nat c) in *. pose proof (Nat.mod_upper_bound k (S m) ltac:(lia)) as Hb.
  replace (S k mod S m)%nat with (S (k mod S m) mod S m)%nat by (rewrite <- Nat.add_1_r, Nat.Div0.add_mod_idemp_l; f_equal; lia).
  destruct (Z.ltb_spec count c) as [Hlt|Hge].
  - rewrite Nat.mod_small by lia. lia.
  - assert (k mod S m = m)%nat as -> by lia. by rewrite Nat.Div0.mod_same.
Qed.
Lemma arc_vector_turns b offset start (theta : R) k : (arc_correction b <= 127)%Z -> (arc_vector b offset start theta k).2 = Z.of_nat (turns_since b k).
Proof.
  intros Ha. unfold turns_since. assert (Hall : (0 <= (arc_vector b offset start theta k).2 <= Z.max 0 (arc_correction b))%Z /\ (arc_vector b offset start theta k).2 = Z.of_nat (k mod S (Z.to_nat (arc_correction b)))); [|apply Hall].
  induction k as [|k [Hr Hc]]; [cbn [arc_vector snd]; rewrite Nat.Div0.mod_0_l; lia|]. pose proof (turns_next _ _ _ Hr Hc) as Hn. cbn [arc_vector].
  destruct (arc_vector b offset start theta k) as [v count]. cbn [snd] in *. unfold turn_radius. cbv zeta.
  destruct (Z.ltb_spec count (arc_correction b)); cbn [snd]; [rewrite s8_small by lia|]; split; (done || lia).
Qed.

(** ** The segments the machine is given *)

Section Segments.
Context {Motor : Type} `{!Axis (H := real) Motor} {Env : Type} `{!Machine (H := real) Motor Env}.
Abbreviation World := (World (H := real) Motor Env).
(** What the segments of an arc are computed from stays as it is. *)
Record same_arc (b b' : Robot) : Prop := mk_same_arc {
  sa_axis_0 : plane_axis_0 b' = plane_axis_0 b; sa_axis_1 : plane_axis_1 b' = plane_axis_1 b; sa_axis_2 : plane_axis_2 b' = plane_axis_2 b;
  sa_correction : arc_correction b' = arc_correction b; sa_wcs : current_wcs b' = current_wcs b; sa_cos : cos_r b' = cos_r b; sa_sin : sin_r b' = sin_r b;
  sa_motors : n_motors b' = n_motors b; sa_position : machine_position b' = machine_position b
}.
Definition given_up (w : World) : bool := is_halted (env w) || motion_abort_requested (env w).
(** The machine is halted, its motion given up, or the arc as it was. *)
Definition goes_on (w w' : World) : Prop := given_up w' = true \/ same_arc (robot w) (robot w').
(** While the robot waits, and as it queues a block, the rest of the firmware does
    not change an arc under way unless it stops it; a halt halts. *)
Class MachineSteady : Prop := mk_machine_steady {
  steady_idle : forall w, goes_on w (on_idle w);
  steady_append : forall m w, goes_on w (fst (append_block m w));
  steady_halt : forall x w, given_up (on_halt (set_halt_reason x w)) = true
}.
Context `{!MachineSteady}.
Lemma same_arc_refl b : same_arc b b.
Proof. done. Qed.
Lemma same_arc_trans b1 b2 b3 : same_arc b1 b2 -> same_arc b2 b3 -> same_arc b1 b3.
Proof. intros [] []. split; congruence. Qed.
Lemma check_goes_on t d w : match check_soft_endstops t d w with Some (refused, w') => goes_on w w' /\ (refused = false -> w' = w) | None => True end.
Proof.
  unfold check_soft_endstops, get, mbind, M_bind. destruct (_ && _); [|by split; [right|]]. destruct (List.find _ _) as [i|]; [|by split; [right|]].
  destruct (soft_endstop_halt _); cbn; (split; [|done]); [left; apply steady_halt|by right].
Qed.
(** A hold that ends otherwise than in a halt leaves the arc. *)
Lemma hold_goes_on fuel w : match wait_feed_hold fuel w with
  | Some (free, w') => if free : bool then same_arc (robot w) (robot w') else given_up w' = true
  | None => True
  end.
Proof.
  revert w. induction fuel as [|fuel IH]; intros w; cbn [wait_feed_hold]; unfold mbind, M_bind, get, modify; destruct (negb _); try done.
  pose proof (steady_idle w) as Hi. fold (given_up (on_idle w)). destruct (given_up (on_idle w)) eqn:Eg; [exact Eg|].
  specialize (IH (on_idle w)). destruct (wait_feed_hold fuel (on_idle w)) as [[[|] w']|]; [|done..].
  destruct Hi as [Hi|Hi]; [congruence|]. by eapply same_arc_trans.
Qed.
Lemma milestone_goes_on hold target rate line w : match append_milestone hold target rate line w with Some (_, w') => goes_on w w' | None => True end.
Proof.
  unfold append_milestone, get, mbind, M_bind. destruct (motion_abort_requested (env w)); [by right|]. cbv zeta.
  match goal with |- context [check_soft_endstops ?t ?d w] => pose proof (check_goes_on t d w) as Hc; destruct (check_soft_endstops t d w) as [[[|] w1]|] end; [apply Hc| |done].
  destruct Hc as [_ Hc]. rewrite (Hc eq_refl). clear Hc w1. destruct (negb _); [by right|]. unfold world, get.
  destruct (distance_of _ _ _) as [distance|]; [|by right]. destruct (pace_of _ _ _ _ _ _) as [p u].
  pose proof (hold_goes_on hold w) as Hh. destruct (wait_feed_hold hold w) as [[[|] w1]|]; cbn [negb]; [|by left|done].
  unfold queue_block. match goal with |- context [append_block ?m w1] => pose proof (steady_append m w1) as Ha; destruct (append_block m w1) as [w2 moved] end. cbn [fst] in Ha.
  assert (Hw : goes_on w w2) by (destruct Ha as [Ha|Ha]; [by left|right; by eapply same_arc_trans]).
  destruct moved; [|exact Hw]. destruct Hw as [Hw|Hw]; [left; exact Hw|right]. destruct Hw. by split.
Qed.
(** The places the loop goes to. *)
Definition arc_places (b : Robot) (offset center start linear target : list num) (theta : num) (segments : Z) (i n : nat) : list (list num) :=
  map (fun k => arc_point b center (arc_vector b offset start theta k).1 linear target (Z.of_nat k) segments) (seq i n).
Lemma same_turn b b' offset v theta i count : same_arc b b' -> turn_radius b' offset v theta i count = turn_radius b offset v theta i count.
Proof. intros []. unfold turn_radius. by rewrite sa_axis_3, sa_axis_4, sa_correction0. Qed.
Lemma same_point b b' center v linear target i segments : same_arc b b' -> arc_point b' center v linear target i segments = arc_point b center v linear target i segments.
Proof. intros []. unfold arc_point, rotate. by rewrite sa_wcs0, sa_cos0, sa_sin0, sa_motors0, sa_position0. Qed.
Lemma arc_loop_walks hold b offset center start linear target (theta rate : num) segments line n k moved (w : World) :
  given_up w = true \/ same_arc b (robot w) ->
  arc_loop hold n (Z.of_nat (S k)) segments offset center (arc_vector b offset start theta k).1 linear target theta rate (arc_vector b offset start theta k).2 line moved w =
  walk hold (arc_places b offset center start linear target theta segments (S k) n) rate line moved w.
Proof.
  revert k moved w. induction n as [|n IH]; intros k moved w Hw; [done|]. unfold arc_places. cbn [seq map arc_loop walk]. unfold mbind, M_bind, get.
  fold (given_up w). destruct (given_up w) eqn:Eg; [done|]. destruct Hw as [Hw|Hw]; [congruence|].
  rewrite (same_turn b) by done. cbn [arc_vector]. destruct (arc_vector b offset start theta k) as [v count] eqn:Ev. cbn [fst snd].
  destruct (turn_radius b offset v theta (Z.of_nat (S k)) count) as [v' count'] eqn:Et. rewrite (same_point b) by done. cbn [fst].
  match goal with |- context [append_milestone hold ?t rate line w] => pose proof (milestone_goes_on hold t rate line w) as Hm; destruct (append_milestone hold t rate line w) as [[m w']|] end; [|done].
  assert (Ek : arc_vector b offset start theta (S k) = (v', count')) by (cbn [arc_vector]; by rewrite Ev).
  specialize (IH (S k) (moved || m) w'). rewrite Ek in IH. cbn [fst snd] in IH. replace (Z.of_nat (S k) + 1)%Z with (Z.of_nat (S (S k))) by lia.
  apply IH. destruct Hm as [Hm|Hm]; [by left|right; by eapply same_arc_trans].
Qed.
(** A vector in the system in use, in the machine's directions. *)
Definition in_machine (b : Robot) (v : R * R) : R * R :=
  let c : R := cos_r b !!! current_wcs b in let s : R := sin_r b !!! current_wcs b in (v.1 * c - v.2 * s, v.1 * s + v.2 * c)%R.
Lemma turned_squared (c s : R) v : (c * c + s * s = 1 -> squared (v.1 * c - v.2 * s, v.1 * s + v.2 * c) = squared v)%R.
Proof. intros Hu. unfold squared. cbn [fst snd]. transitivity ((v.1 * v.1 + v.2 * v.2) * (c * c + s * s))%R; [ring|]. rewrite Hu. ring. Qed.
Lemma in_machine_squared b v : robot_ok b -> squared (in_machine b v) = squared v.
Proof. intros Hb. exact (turned_squared _ _ v (system_unit b _ Hb (ro_wcs _ Hb))). Qed.
(** One place of an arc, from its centre. *)
Definition from_center (b : Robot) (offset point : list num) (i : nat) : R := (at_axis point i - at_axis (arc_center b offset) i)%R.
Lemma place_from_center b offset target (theta : R) segments k :
  robot_ok b -> in_xy_plane b -> (arc_correction b <= 127)%Z -> length offset = 3%nat -> (1 < segments)%Z ->
  let point := arc_point b (arc_center b offset) (arc_vector b offset (arc_start b offset) theta k).1 (arc_step (arc_linear b target) segments) target (Z.of_nat k) segments in
  squared (from_center b offset point 0, from_center b offset point 1) = (squared (in_plane b offset) * growth theta ^ turns_since b k)%R /\
  (turns_since b k = 0%nat ->
   (from_center b offset point 0, from_center b offset point 1) = in_machine b (rotated_by (IZR (Z.of_nat k) * theta) (in_plane b (arc_start b offset)))) /\
  from_center b offset point 2 = (IZR (Z.of_nat k) * ((at_axis target 2 - at_axis (arc_milestone b) 2) / IZR segments))%R.
Proof.
  intros Hb (P0 & P1 & P2) Hc Hl Hseg. set (start := arc_start b offset).
  assert (Hs : in_plane b start = (- (in_plane b offset).1, - (in_plane b offset).2)%R) by (unfold start, in_plane, arc_start; by rewrite P0, P1).
  assert (Hls : length start = 3%nat) by (unfold start, arc_start; by rewrite !length_insert).
  assert (Hs2 : start !!! plane_axis_2 b = (0%R : num)) by (unfold start, arc_start; by rewrite P0, P1, P2).
  pose proof (arc_vector_keeps b offset start theta k (ro_plane _ Hb) Hls Hc Hs) as Hv. rewrite Hs2, P2 in Hv.
  pose proof (arc_vector_turns b offset start theta k Hc) as Ht. destruct (arc_vector b offset start theta k) as [v count]. cbn [fst snd] in *. subst count.
  destruct Hv as (Hv & _ & H2 & Hsq & Hex). rewrite Nat2Z.id in Hsq. destruct v as [|v0 [|v1 [|v2 [|]]]]; try done. change (v2 = 0%R) in H2. subst v2.
  destruct (point_from_center b offset target v0 v1 (Z.of_nat k) segments (conj P0 (conj P1 P2)) Hseg Hl) as (F0 & F1 & F2).
  assert (Hp : in_plane b [v0; v1; (0%R : num)] = ((v0 : R), (v1 : R))) by (unfold in_plane; by rewrite P0, P1). rewrite Hp in Hsq, Hex.
  assert (Hm : forall point, from_center b offset point 0 = (v0 * cos_r b !!! current_wcs b - v1 * sin_r b !!! current_wcs b)%num ->
    from_center b offset point 1 = (v0 * sin_r b !!! current_wcs b + v1 * cos_r b !!! current_wcs b)%num ->
    (from_center b offset point 0, from_center b offset point 1) = in_machine b ((v0 : R), (v1 : R))) by (intros point -> ->; done).
  specialize (Hm _ F0 F1). rewrite Hm, in_machine_squared by done. split; [exact Hsq|]. split; [|exact F2].
  intros Hz. rewrite <- Hex; [done|]. by rewrite Hz.
Qed.
(** The other axes. *)
Lemma place_of_axis (b : Robot) center v linear target i segments j : (A_AXIS <= j < n_motors b)%nat ->
  at_axis (arc_point b center v linear target i segments) j =
  (at_axis (machine_position b) j + IZR i * (at_axis target j - at_axis (machine_position b) j) / IZR segments)%R.
Proof.
  unfold A_AXIS. intros Hj. unfold arc_point, at_axis. destruct (rotate _ _ _) as [x y]. rewrite lookup_total_app_r by (cbn; lia). rewrite list_lookup_total_alt.
  rewrite (list_lookup_fmap _ (seq _ _)). match goal with |- context [length ?l] => change (length l) with 3 end. unfold A_AXIS.
  rewrite lookup_seq_lt by lia. cbn [fmap option_fmap option_map default]. by replace (3 + (j - 3))%nat with j by lia.
Qed.
(** C10: An arc is the arc it names. In the plane of X and Y (G17), with a centre
    away from the beginning, an end as far from it, a positive feed rate and 1e-6 mm
    or more to go: the angle turned brings the beginning exactly to the end, or is
    a full turn where they are the same; negative for G2, positive for G3.
    [append_arc] sends the machine to one place for each segment but the last, in
    order, then to the target, unless it halts or gives up. The place of number k is
    from the centre at a distance whose square is the radius's times 1 + theta^4/4
    (theta: a segment's angle) to the power k modulo [arc_correction] + 1; where that
    is zero it is k theta on along the circle, in the system in use. Z and the rotary
    axes are in proportion. Supposed: while the robot waits the rest of the firmware
    changes its plane, system and position only when it stops the motion. *)
Theorem arc_is_meant hold g target rotated_target offset (radius : R) is_clockwise (w : World) :
  let b := robot w in let start := arc_start b offset in
  let angle : R := angular_travel b target start (arc_end b target offset) is_clockwise in
  let travel : R := n_hypotf (angle * radius)%num (nabs (arc_linear b target !!! plane_axis_2 b)) in
  let segments := arc_segments b radius travel in let theta := (angle / IZR segments)%R in
  robot_ok b -> in_xy_plane b -> (arc_correction b <= 127)%Z -> length offset = 3%nat -> (0 < feed_rate b)%R -> (real_literal 1 (-6) <= travel)%R ->
  (0 < squared (in_plane b offset))%R -> squared (in_plane b (arc_end b target offset)) = squared (in_plane b offset) ->
  (if full_circle b target then Rabs angle = (2 * PI)%R else rotated_by angle (in_plane b start) = in_plane b (arc_end b target offset)) /\
  (if is_clockwise then (- (2 * PI) <= angle <= 0)%R else (0 <= angle <= 2 * PI)%R) /\
  exists places, length places = (Z.to_nat segments - 1)%nat /\
    append_arc hold g target rotated_target offset radius is_clockwise w =
    (let rate := if inverse_time_mode b then (feed_rate b * of_Z segments)%num else feed_rate b in
     moved ← walk hold places rate (wline g) false;
     match moved with
     | None => mret false
     | Some moved => last ← append_milestone hold rotated_target rate (wline g); mret (moved || last)
     end) w /\
    forall j point, places !! j = Some point -> let k := S j in
      squared (from_center b offset point 0, from_center b offset point 1) = (squared (in_plane b offset) * growth theta ^ turns_since b k)%R /\
      (turns_since b k = 0%nat ->
       (from_center b offset point 0, from_center b offset point 1) = in_machine b (rotated_by (IZR (Z.of_nat k) * theta) (in_plane b start))) /\
      from_center b offset point 2 = (IZR (Z.of_nat k) * ((at_axis target 2 - at_axis (arc_milestone b) 2) / IZR segments))%R /\
      (forall i, (A_AXIS <= i < n_motors b)%nat ->
       at_axis point i = (at_axis (machine_position b) i + IZR (Z.of_nat k) * (at_axis target i - at_axis (machine_position b) i) / IZR segments)%R).
Proof.
  intros b start angle travel segments theta Hb Hxy Hc Hl Hf Ht Hr He. pose proof Hxy as (P0 & P1 & P2).
  assert (Hq : squared (in_plane b start) = squared (in_plane b offset)) by (unfold start, in_plane, arc_start; rewrite P0, P1; unfold squared; cbn; ring).
  destruct (travel_turns b target start (arc_end b target offset) is_clockwise) as [Hturn Hd]; [by rewrite Hq|by rewrite He, Hq|].
  split; [exact Hturn|]. split; [unfold backwards in Hd; rewrite P2 in Hd; cbn in Hd; by destruct (full_circle b target), is_clockwise|].
  exists (arc_places b offset (arc_center b offset) start (arc_step (arc_linear b target) segments) target theta segments 1 (Z.to_nat segments - 1)).
  unfold arc_places. split; [by rewrite length_map, length_seq|]. split.
  - unfold append_arc. cbv zeta. unfold mbind at 1, M_bind at 1, get at 1. fold b.
    assert (E1 : (feed_rate b <=? zero)%num = false) by (unfold zero; reals; real_case Hcs; [lra|done]). rewrite E1.
    change (arc_start b offset) with start. change (angular_travel b target start (arc_end b target offset) is_clockwise) with (angle : num). change (@n_hypotf real _ _) with (travel : num).
    assert (E2 : (travel <? literal 1 (-6))%num = false) by (reals; real_case Hcs; [lra|done]). rewrite E2.
    change (arc_segments b radius travel) with segments. unfold mbind, M_bind.
    pose proof (arc_loop_walks hold b offset (arc_center b offset) start (arc_step (arc_linear b target) segments) target theta
      (if inverse_time_mode b then (feed_rate b * of_Z segments)%num else feed_rate b) segments (wline g) (Z.to_nat segments - 1) 0 false w (or_intror (same_arc_refl b))) as Hw.
    cbn [arc_vector fst snd] in Hw. unfold arc_places in Hw. rewrite <- Hw. reflexivity.
  - intros j point Hp. change (map ?f ?l) with (f <$> l) in Hp. apply list_lookup_fmap_Some in Hp as (k & -> & Hk). apply lookup_seq in Hk as [-> Hk].
    destruct (place_from_center b offset target theta segments (1 + j) Hb Hxy Hc Hl ltac:(lia)) as (H1 & H2 & H3).
    split; [exact H1|]. split; [exact H2|]. split; [exact H3|]. intros i Hi. by apply place_of_axis.
Qed.
End Segments.
Lemma still_steady : MachineSteady (Motor := PlainMotor) (Env := Rest).
Proof. split; intros; (by right) || done. Qed.
(** Half a circle from X0 to X2 about X1, clockwise. *)
Definition half_target : list num := map IZR [2; 0; 0; 0; 0]%Z.
Definition half_offset : list num := map IZR [1; 0; 0]%Z.
Definition half_angle : R := angular_travel still_robot half_target (arc_start still_robot half_offset) (arc_end still_robot half_target half_offset) true.
Lemma arc_ends_meet : (0 < squared (in_plane still_robot half_offset))%R /\ squared (in_plane still_robot (arc_end still_robot half_target half_offset)) = squared (in_plane still_robot half_offset).
Proof. split; [change (0 < 1 * 1 + 0 * 0)%R; lra|change ((2 - 0 - 1) * (2 - 0 - 1) + (0 - 0 - 0) * (0 - 0 - 0) = 1 * 1 + 0 * 0)%R; lra]. Qed.
Lemma arc_is_long : (real_literal 1 (-6) <= (n_hypotf (half_angle * (1%R : num))%num (nabs (arc_linear still_robot half_target !!! plane_axis_2 still_robot)) : num))%R.
Proof.
  destruct arc_ends_meet as [Hr He]. destruct (travel_turns still_robot half_target (arc_start still_robot half_offset) (arc_end still_robot half_target half_offset) true) as [Ha _].
  { change (0 < (- (1)) * (- (1)) + (- 0) * (- 0))%R. lra. }
  { rewrite He. change (1 * 1 + 0 * 0 = (- (1)) * (- (1)) + (- 0) * (- 0))%R. lra. }
  fold half_angle in Ha. assert (Hfull : full_circle still_robot half_target = false).
  { unfold full_circle. change (real_eqb 0 2 && real_eqb 0 0 = false). unfold real_eqb. destruct (Req_dec_T 0 2); [lra|done]. }
  rewrite Hfull in Ha. apply (f_equal fst) in Ha. change (((- (1)) * cos half_angle - (- 0) * sin half_angle)%R = (2 - 0 - 1)%R) in Ha.
  assert (Hcos : (cos half_angle < 0)%R) by lra. clear - Hcos. generalize dependent half_angle. intros a Hcos.
  set (z := arc_linear _ _ !!! _). change (real_literal 1 (-6) <= sqrt ((a * 1) * (a * 1) + Rabs z * Rabs z))%R. generalize (Rabs z : R). intros z'.
  change (real_literal 1 (-6)) with (1 / 1000000)%R. destruct (Rle_dec (1 / 1000000) (sqrt (a * 1 * (a * 1) + z' * z'))) as [H|H]; [done|exfalso].
  apply Rnot_le_lt in H. assert (Hq : (a * 1 * (a * 1) + z' * z' < 1)%R).
  { apply (sqrt_lt_0_alt). rewrite sqrt_1. lra. }
  assert (Ha : (- PI / 2 < a < PI / 2)%R) by (pose proof PI2_1; split; nra).
  pose proof (cos_gt_0 a ltac:(lra) ltac:(lra)). lra.
Qed.
Lemma arc_is_meant_witness :
  let b := still_robot in let theta := (half_angle / IZR (arc_segments b (1%R : num) (n_hypotf (half_angle * (1%R : num))%num (nabs (arc_linear b half_target !!! plane_axis_2 b)))))%R in
  (- (2 * PI) <= half_angle <= 0)%R /\
  exists places, append_arc 0 (words 2 []) half_target half_target half_offset (1%R : num) true (still_world plain_motor) =
    (moved ← walk 0 places (IZR 600) 1 false;
     match moved with None => mret false | Some moved => last ← append_milestone 0 half_target (IZR 600) 1; mret (moved || last) end) (still_world plain_motor) /\
  forall j point, places !! j = Some point ->
    squared (from_center b half_offset point 0, from_center b half_offset point 1) = (1 * growth theta ^ turns_since b (S j))%R.
Proof.
  cbv zeta. destruct arc_ends_meet as [Hr He].
  destruct (arc_is_meant (H := still_steady) 0 (words 2 []) half_target half_target half_offset 1%R true (still_world plain_motor)) as (_ & Hd & places & _ & Hw & Hp).
  - apply still_robot_ok.
  - done.
  - done.
  - done.
  - change (0 < 600)%R. lra.
  - exact arc_is_long.
  - exact Hr.
  - exact He.
  - split; [exact Hd|]. exists places. split; [exact Hw|]. intros j point Hj. destruct (Hp j point Hj) as [Hq _].
    refine (eq_trans Hq _). apply Rmult_eq_compat_r. change (1 * 1 + 0 * 0 = 1)%R. lra.
Defined.
(** In the plane of X and Z, G2 turns one way for a full circle and the other for a
    part of one. *)
Lemma full_circle_turns_other_way b target start target_vector :
  plane_axis_2 b = Y_AXIS -> (0 < squared (in_plane b start))%R -> squared (in_plane b target_vector) = squared (in_plane b start) ->
  let angle : R := angular_travel b target start target_vector true in
  if full_circle b target then (angle <= 0)%R else (0 <= angle)%R.
Proof.
  intros Hp Hs Ht angle. destruct (travel_turns b target start target_vector true Hs Ht) as [_ Hd]. unfold backwards in Hd. rewrite Hp in Hd. cbn in Hd.
  destruct (full_circle b target); tauto.
Qed.
(** Counted in eight bits, the turns since the last exact one never reach a number
    over 127. *)
Lemma turns_wrap c : (127 < c)%Z -> (s8 (127 + 1) <? c)%Z = true.
Proof. intros Hc. change (s8 (127 + 1)) with (-128)%Z. lia. Qed.
