(* ===== verification/SoftEndstops.v ===== *)
(** * The robot keeps within its soft endstops

    A machine that is homed, stands inside its soft endstops and has them enabled is
    only ever sent to places inside them, by any G0 to G3, whatever their words: in
    real numbers, and with any compensation of the bed. *)
From Stdlib Require Import Reals Lra.
From S2P Require Import Prelude Binary32 StepperMotor RobotAxis Arith Robot RobotMoves.
#[local] Open Scope Z_scope.
#[local] Open Scope nat_scope.
#[local] Existing Instance real.

Section Inside.
Context {Motor : Type} `{!Axis (H := real) Motor} {Env : Type} `{!Machine (H := real) Motor Env}.
Abbreviation World := (World (H := real) Motor Env).
Abbreviation M := (M (Motor := Motor) (Env := Env)).
Definition lowest (b : Robot) (e : Env) (i : nat) : num := if (i =? Y_AXIS)%nat then effective_y_min b e else soft_endstop_min b !!! i.
Definition highest (b : Robot) (i : nat) : num := soft_endstop_max b !!! i.
Definition at_axis (pos : list num) (i : nat) : num := pos !!! i.
(** Within the endstops on X, Y and Z, and clear of the rotary axis where there is
    one. *)
Definition inside (w : World) (pos : list num) : Prop :=
  forall i, (i < 3)%nat -> (lowest (robot w) (env w) i <= at_axis pos i <= highest (robot w) i)%R.
(** The blocks the machine holds. *)
Context (queued : Env -> list Move).
Record guarded (w : World) : Prop := mk_guarded {
  gd_world : world_ok w; gd_enabled : soft_endstop_enabled (robot w) = true;
  gd_probing : is_zprobing (env w) = false; gd_jog : is_continuous_mode (env w) = false; gd_homed : forall i, (i < 3)%nat -> is_homed i (env w) = true;
  gd_position : inside w (compensated_machine_position (robot w)); gd_blocks : forall m, m ∈ queued (env w) -> inside w (mv_pos m)
}.
(** What was guarded still is, and the endstops have not closed in. *)
Definition follows (w w' : World) : Prop := guarded w' /\ forall pos, inside w pos -> inside w' pos.
(** The rest of the firmware moves nothing, opens no endstop, and queues what it is
    given. *)
Class MachineGuarded : Prop := mk_machine_guarded {
  guarded_idle : forall w, guarded w -> follows w (on_idle w);
  guarded_halt : forall w, guarded w -> follows w (on_halt w);
  guarded_reason : forall x w, guarded w -> follows w (set_halt_reason x w);
  guarded_append : forall m w, guarded w -> inside w (mv_pos m) -> follows w (fst (append_block m w))
}.
Context `{!MachineGuarded}.
Lemma follows_refl w : guarded w -> follows w w.
Proof. by split. Qed.
Lemma follows_trans w w1 w2 : follows w w1 -> follows w1 w2 -> follows w w2.
Proof. intros [_ H1] [H2 H3]. split; auto. Qed.
Definition lands {A} (w : World) (r : option (A * World)) : Prop := match r with Some (_, w') => follows w w' | None => True end.
Lemma lands_trans {A} w w1 (r : option (A * World)) : follows w w1 -> lands w1 r -> lands w r.
Proof. destruct r as [[x w2]|]; [apply follows_trans|done]. Qed.
Definition stays {A} (m : M A) : Prop := forall w, guarded w -> lands w (m w).
Lemma stays_ret {A} (x : A) : stays (mret x).
Proof. intros w Hw. by apply follows_refl. Qed.
Lemma stays_stuck {A} : stays (stuck (A := A)).
Proof. done. Qed.
Lemma stays_bind {A B} (m : M A) (k : A -> M B) : stays m -> (forall x, stays (k x)) -> stays (m ≫= k).
Proof.
  intros Hm Hk w Hw. specialize (Hm w Hw). unfold mbind, M_bind. destruct (m w) as [[x w1]|]; [|done].
  exact (lands_trans _ _ _ Hm (Hk x w1 (proj1 Hm))).
Qed.
Lemma stays_get {A B} (f : World -> A) (k : A -> M B) : (forall w, guarded w -> stays (k (f w))) -> stays (get f ≫= k).
Proof. intros Hk w Hw. exact (Hk w Hw w Hw). Qed.
Lemma stays_read {A} (f : World -> A) : stays (get f).
Proof. intros w Hw. by apply follows_refl. Qed.
Lemma stays_idle : stays (modify on_idle).
Proof. intros w Hw. by apply guarded_idle. Qed.
Lemma stays_halt : stays (modify on_halt).
Proof. intros w Hw. by apply guarded_halt. Qed.
Lemma stays_reason x : stays (modify (set_halt_reason x)).
Proof. intros w Hw. by apply guarded_reason. Qed.
Lemma follows_tell o w : guarded w -> follows w (w <| out := out w ++ [o] |>).
Proof. intros [[] ? ? ? ? ? ?]. by split. Qed.
Lemma stays_tell o : stays (tell o).
Proof. intros w. apply follows_tell. Qed.
(** A change of the robot that touches neither the endstops nor the place it is at. *)
Record harmless (f : Robot -> Robot) : Prop := mk_harmless {
  hl_keeps : robot_keeps f; hl_enabled b : soft_endstop_enabled (f b) = soft_endstop_enabled b; hl_min b : soft_endstop_min (f b) = soft_endstop_min b;
  hl_max b : soft_endstop_max (f b) = soft_endstop_max b; hl_clearance b : rotary_clearance_y_min (f b) = rotary_clearance_y_min b;
  hl_position b : compensated_machine_position (f b) = compensated_machine_position b
}.
Lemma same_endstops (w w' : World) pos : env w' = env w -> soft_endstop_min (robot w') = soft_endstop_min (robot w) -> soft_endstop_max (robot w') = soft_endstop_max (robot w) ->
  rotary_clearance_y_min (robot w') = rotary_clearance_y_min (robot w) -> inside w pos -> inside w' pos.
Proof. intros He Hn Hm Hc Hi i Hlt. specialize (Hi i Hlt). unfold lowest, highest, effective_y_min in *. by rewrite He, Hn, Hm, Hc. Qed.
Lemma stays_robot f : harmless f -> stays (on_robot f).
Proof.
  intros [Hk He Hn Hm Hc Hp] w Hg. pose proof Hg as []. 
  assert (Hi : forall pos, inside w pos -> inside (w <| robot := f (robot w) |>) pos) by (intros pos; apply same_endstops; recs; auto).
  split; [|done]. split; recs; auto; [|by rewrite He|by rewrite Hp; auto].
  pose proof (keeps_robot f Hk w gd_world0) as Hw. exact Hw.
Qed.

(** ** A milestone *)

Lemma find_none {A} (f : A -> bool) l x : List.find f l = None -> x ∈ l -> f x = false.
Proof.
  induction l as [|y l IH]; intros Hf Hx; [by apply not_elem_of_nil in Hx|]. cbn [List.find] in Hf. destruct (f y) eqn:E; [done|].
  apply elem_of_cons in Hx as [->|Hx]; [done|by apply IH].
Qed.
Lemma deltas_at b t i : (i < 3)%nat -> length t = k_max_actuators -> length (compensated_machine_position b) = k_max_actuators -> n_motors b = k_max_actuators ->
  at_axis (deltas_to b t) i = (at_axis t i - at_axis (compensated_machine_position b) i)%R.
Proof.
  unfold deltas_to, at_axis. intros Hi Ht Hc ->. destruct t as [|t0 [|t1 [|t2 t]]]; [done..|]. unfold k_max_actuators in *.
  destruct (compensated_machine_position b) as [|c0 [|c1 [|c2 c]]]; [done..|]. destruct i as [|[|[|i]]]; [done..|lia].
Qed.
Lemma outside_is (b : Robot) (e : Env) t d i : outside b e t d i = is_homed i e &&
  ((real_lt (at_axis t i) (lowest b e i) && real_lt (at_axis d i) 0) || (real_lt (highest b i) (at_axis t i) && real_lt 0 (at_axis d i))).
Proof. done. Qed.
(** A target that is not outside for the check is inside, as the move starts
    inside. *)
Lemma not_outside w t : guarded w -> length t = k_max_actuators ->
  (forall i, (i < 3)%nat -> outside (robot w) (env w) t (deltas_to (robot w) t) i = false) -> inside w t.
Proof.
  intros [[Hr _ Hn _] _ _ _ Hh Hp _] Ht Ho i Hi. specialize (Ho i Hi). specialize (Hp i Hi). rewrite outside_is, (Hh i Hi) in Ho.
  rewrite (deltas_at (robot w) t i Hi Ht (ro_compensated _ Hr) Hn) in Ho. revert Ho Hp. generalize (at_axis t i) (at_axis (compensated_machine_position (robot w)) i) (lowest (robot w) (env w) i) (highest (robot w) i).
  refine (fun x c l h : R => _). cbn [andb]. intros Ho Hp. apply orb_false_iff in Ho as [H1 H2].
  split; apply Rnot_lt_le; intros Hlt.
  - destruct (real_ltP x l); [|done]. destruct (real_ltP (x - c) 0); [done|lra].
  - destruct (real_ltP h x); [|done]. destruct (real_ltP 0 (x - c)); [done|lra].
Qed.
(** The check lets pass what is inside; otherwise the machine stays as it is. *)
Lemma check_guards t w : guarded w -> length t = k_max_actuators ->
  match check_soft_endstops t (deltas_to (robot w) t) w with
  | Some (refused, w') => follows w w' /\ (refused = false -> w' = w /\ inside w t)
  | None => True
  end.
Proof.
  intros Hw Ht. unfold check_soft_endstops, get, mbind, M_bind. rewrite (gd_enabled _ Hw), (gd_probing _ Hw), (gd_jog _ Hw). cbn [negb andb].
  destruct (List.find _ _) as [i|] eqn:E.
  - destruct (soft_endstop_halt (robot w)); (split; [|done]).
    + pose proof (follows_tell (say "ERROR: Soft Endstop %c was exceeded - reset or $X or M999 required" [a_letter (axis_letter i)]) w Hw) as H1.
      pose proof (guarded_reason SOFT_LIMIT _ (proj1 H1)) as H2. pose proof (guarded_halt _ (proj1 H2)) as H3. exact (follows_trans _ _ _ H1 (follows_trans _ _ _ H2 H3)).
    + by apply follows_tell.
  - cbn. split; [by apply follows_refl|]. intros _. split; [done|]. apply not_outside; [done..|]. intros i Hi. apply (find_none _ _ _ E).
    destruct i as [|[|[|i]]]; [..|lia]; repeat first [apply elem_of_list_here|apply elem_of_list_further|apply list_elem_of_here|apply list_elem_of_further].
Qed.
Lemma stays_feed_hold fuel : stays (wait_feed_hold fuel).
Proof.
  induction fuel as [|fuel IH]; cbn [wait_feed_hold]; apply stays_get; intros w Hw; destruct (negb _); try apply stays_ret; [apply stays_stuck|].
  apply stays_bind; [apply stays_idle|]. intros _. apply stays_get. intros w1 Hw1. destruct (_ || _); [apply stays_ret|exact IH].
Qed.
(** The block asked for ends where the target is. *)
Lemma actuator_inside w t : inside w t -> length t = k_max_actuators -> inside w (actuator_target (robot w) t).
Proof.
  intros Hi Ht i Hlt. specialize (Hi i Hlt). unfold actuator_target, cartesian_to_actuator, at_axis in *.
  destruct t as [|x [|y [|z t]]]; [done..|]. destruct (disable_arm_solution _); destruct i as [|[|[|i]]]; try done; lia.
Qed.
Lemma run_get {A B} (f : World -> A) (k : A -> M B) w : (get f ≫= k) w = k (f w) w.
Proof. done. Qed.
Lemma run_bind {A B} (m : M A) (k : A -> M B) w : (m ≫= k) w = match m w with Some (x, w') => k x w' | None => None end.
Proof. done. Qed.
Lemma arrive_guards t w : guarded w -> inside w t -> length t = k_max_actuators ->
  follows w (w <| robot := (robot w) <| compensated_machine_position := t ++ drop (n_motors (robot w)) (compensated_machine_position (robot w)) |> |>).
Proof.
  intros [[Hr He Hn Ha] ? ? ? ? ? ?] Hi Ht. pose proof Hr as [].
  assert (Hd : t ++ drop (n_motors (robot w)) (compensated_machine_position (robot w)) = t) by (by rewrite Hn, drop_ge, app_nil_r by (rewrite ro_compensated; lia)).
  rewrite Hd. assert (Hs : forall pos, inside w pos -> inside (w <| robot := (robot w) <| compensated_machine_position := t |> |>) pos)
    by (intros pos; by apply same_endstops).
  split; [|done]. split; recs; auto. split; recs; auto. constructor; recs; auto.
Qed.
Lemma queue_guards m t w : guarded w -> inside w (mv_pos m) -> inside w t -> length t = k_max_actuators ->
  lands w ((moved ← queue_block m;
            if moved : bool then
              _ ← on_robot (fun b => b <| compensated_machine_position := t ++ drop (n_motors b) (compensated_machine_position b) |>); mret true
            else mret false) w).
Proof.
  intros Hw Hm Hi Ht. unfold mbind, M_bind, queue_block. pose proof (guarded_append m w Hw Hm) as Ha. destruct (append_block m w) as [w1 moved]. cbn in Ha.
  destruct moved; [|exact Ha]. eapply follows_trans; [exact Ha|]. apply arrive_guards; [apply Ha|by apply Ha|done].
Qed.
Lemma stays_milestone hold target rate line : target_ok target -> stays (append_milestone hold target rate line).
Proof.
  intros Ht w Hw. unfold append_milestone. rewrite run_get, run_get. destruct (motion_abort_requested (env w)); [by apply follows_refl|].
  pose proof (gd_world _ Hw) as [Hr _ Hn _]. pose proof (sent_length _ false target Hr Hn Ht) as Hl. set (t := transformed _ _ _) in *. clearbody t. cbv zeta.
  pose proof (check_guards t w Hw Hl) as Hc. rewrite run_bind. destruct (check_soft_endstops _ _ w) as [[[|] w']|]; [apply Hc| |done].
  destruct Hc as [_ Hc]. destruct (Hc eq_refl) as [-> Hi]. clear Hc. destruct (negb _); [by apply follows_refl|].
  unfold world. rewrite run_get. destruct (distance_of _ _ _) as [distance|]; [|by apply follows_refl]. destruct (pace_of _ _ _ _ _ _) as [p u].
  rewrite run_bind. pose proof (stays_feed_hold hold w Hw) as Hf. destruct (wait_feed_hold hold w) as [[free w1]|]; [|done].
  destruct free; cbn [negb]; [|exact Hf]. rewrite run_get.
  set (m := mk_move _ _ _ _ _ _ _ _). destruct Hf as [Hw1 Hm].
  pose proof (queue_guards m t w1 Hw1 (Hm _ (actuator_inside w t Hi Hl)) (Hm _ Hi) Hl) as Hq.
  exact (lands_trans _ _ _ (conj Hw1 Hm) Hq).
Qed.

(** ** Lines, arcs, G0 to G3 *)
Ltac stay_step :=
  lazymatch goal with
  | |- stays (mret _) => apply stays_ret
  | |- stays (tell _) => apply stays_tell
  | |- stays (modify on_halt) => apply stays_halt
  | |- stays (modify (set_halt_reason _)) => apply stays_reason
  | |- stays (get _) => apply stays_read
  | |- stays (on_robot _) => apply stays_robot; split; [try solve [robot_step]|try done..]
  | |- stays (mbind _ (get _)) => apply stays_get; intros ? ?
  | |- stays (mbind _ _) => apply stays_bind; [|intros ?]
  | |- stays (if ?c then _ else _) => destruct c
  | |- stays (match ?c with _ => _ end) => destruct c
  end.
Ltac stay := repeat first [progress cbv zeta | stay_step].
Lemma stays_bad_rate f : stays (bad_feed_rate f).
Proof. unfold bad_feed_rate. stay. Qed.
Lemma stays_line_loop hold n s d rate line moved : target_ok s -> target_ok d -> stays (line_loop hold n s d rate line moved).
Proof.
  revert s moved. induction n as [|n IH]; intros s moved Hs Hd; cbn [line_loop]; [stay|].
  assert (Hz : target_ok (zip_with nadd s d)) by (unfold target_ok in *; rewrite length_zip_with; lia). stay; [by apply stays_milestone|by apply IH].
Qed.
Lemma stays_line hold g target rate : target_ok target -> stays (append_line hold g target rate).
Proof.
  intros Ht. unfold append_line. destruct (rate <=? zero)%num; [stay; apply stays_bad_rate|]. apply stays_get. intros w Hw. stay; try (by apply stays_milestone).
  apply stays_line_loop; [by apply start_ok, gd_world|]. pose proof (start_ok w (gd_world _ Hw)). unfold target_ok in *. rewrite length_zip_with. lia.
Qed.
Lemma stays_arc_loop hold n i segments offset center v linear target theta rate count line moved :
  stays (arc_loop hold n i segments offset center v linear target theta rate count line moved).
Proof.
  revert i v count moved. induction n as [|n IH]; intros i v count moved; cbn [arc_loop]; [stay|].
  apply stays_get. intros w Hw. destruct (_ || _); [stay|]. apply stays_get. intros w1 Hw1. destruct (turn_radius _ _ _ _ _ _).
  apply stays_bind; [|intros m; apply IH]. apply stays_milestone, arc_point_ok. apply Hw1.
Qed.
Lemma stays_arc hold g target rotated offset radius cw : target_ok rotated -> stays (append_arc hold g target rotated offset radius cw).
Proof.
  intros Hr. unfold append_arc. apply stays_get. intros w Hw. destruct (feed_rate (robot w) <=? zero)%num; [stay; apply stays_bad_rate|].
  cbv zeta. case_match; [apply stays_ret|].
  apply stays_bind; [apply stays_arc_loop|]. intros [moved|]; stay. by apply stays_milestone.
Qed.
Lemma stays_take_feed_rate g mode : stays (take_feed_rate g mode).
Proof. unfold take_feed_rate. stay; try apply stays_bad_rate; destruct mode; try done; cbv iota; robot_step. Qed.
Lemma stays_perform hold g target u offset mode : target_ok target -> target_ok u -> stays (perform hold g target u offset mode).
Proof.
  intros Ht Hu. unfold perform. apply stays_get. intros w Hw. destruct mode; stay; try (by apply stays_line).
  all: unfold compute_arc; stay; by apply stays_arc.
Qed.
(** C7: A machine inside its soft endstops stays there. Homed on X, Y and Z, with its
    soft endstops enabled, not probing and not jogging, standing inside them (and
    clear of the rotary axis where one is fitted): whatever G0 to G3 comes, with
    whatever words, in any mode and coordinate system, lines and arcs with all
    their segments, the place it is at afterwards is inside, and so is the end of
    every block it gave the planner. *)
Theorem moves_stay_inside hold g mode : stays (process_move hold g mode).
Proof.
  unfold process_move. apply stays_get. intros w Hw. pose proof (gd_world _ Hw) as [Hr _ Hn _]. pose proof (targets_ok (robot w) g Hr Hn) as [H1 H2].
  destruct (targets (robot w) g) as [target u]. cbn [fst snd] in *. cbv zeta. apply stays_bind; [apply stays_take_feed_rate|]. intros ok. destruct ok; [cbn [negb]|apply stays_ret].
  apply stays_bind; [by apply stays_perform|]. intros moved. stay; [by apply arc_start_keeps|by apply arrival_keeps].
Qed.
End Inside.

(** *** An example *)
Lemma still_guarded : MachineGuarded (Motor := PlainMotor) (Env := Rest) blocks.
Proof.
  split; [intros w Hw; by apply follows_refl|intros w [[] ? ? ? ? ? ?]; by split|intros x w [[] ? ? ? ? ? ?]; by split|].
  intros m w [[] ? ? ? ? ? Hb] Hm. split; [|done]. split; try done. cbn. intros m' [Hin|Hin]%elem_of_app; [by apply Hb|].
  apply elem_of_cons in Hin as [->|Hin]; [done|by apply not_elem_of_nil in Hin].
Qed.
Lemma still_world_guarded : guarded (Env := Rest) blocks (still_world plain_motor).
Proof.
  split; [apply still_world_ok|done..| | |].
  - intros i Hi. do 3 (destruct i as [|i]; [done|]). lia.
  - intros i Hi. do 3 (destruct i as [|i]; [split; [change (0 <= 0)%R|change (0 <= 300)%R]; lra|]). lia.
  - intros m Hm. by apply not_elem_of_nil in Hm.
Qed.
Lemma moves_stay_inside_witness :
  MachineGuarded (Motor := PlainMotor) (Env := Rest) blocks /\ guarded (Env := Rest) blocks (still_world plain_motor) /\
  match process_move 0 (words 1 [("X"%char, 20%Z); ("Z"%char, (-5)%Z)]) LINEAR (still_world plain_motor) with
  | Some (_, w) => forall m, m ∈ blocks (env w) -> inside w (mv_pos m)
  | None => True
  end.
Proof.
  split; [apply still_guarded|]. split; [apply still_world_guarded|].
  pose proof (moves_stay_inside (H := still_guarded) blocks 0 (words 1 [("X"%char, 20%Z); ("Z"%char, (-5)%Z)]) LINEAR _ still_world_guarded) as Hs.
  destruct (process_move _ _ _ _) as [[x w]|]; [|done]. intros m. apply (gd_blocks _ _ (proj1 Hs)).
Defined.
