(* ===== verification/CString.v ===== *)
(** * Characters and C strings

    What the firmware uses of the C library and of [std::string] on text: classes
    of characters, numerals, prefixes, searches. A string is the list of its
    characters; a pointer into a C string is what it points to up to the final
    NUL, so that [*p == '\0'] reads [[]] and [p++] is the tail. *)
From S2P Require Import Prelude.

(** What a buffer holds as a C string. *)
Fixpoint c_string (l : list Z) : list Z := match l with [] => [] | c :: l => if c =? 0 then [] else c :: c_string l end.
Definition isspace (c : Z) : bool := (c =? 32) || ((9 <=? c) && (c <=? 13)).
Definition isdigit (c : Z) : bool := (48 <=? c) && (c <=? 57).
Definition islower (c : Z) : bool := (97 <=? c) && (c <=? 122).
Definition tolower (c : Z) : Z := if (65 <=? c) && (c <=? 90) then c + 32 else c.
(** [src/src/libs/utils.cpp:480-484] ltrim_cstr *)
Fixpoint ltrim_cstr (s : list Z) : list Z := match s with c :: s' => if isspace c then ltrim_cstr s' else s | [] => [] end.
(** [src/src/libs/utils.cpp:114-121] lc *)
Definition lc (s : list Z) : list Z := map tolower s.

(** ** Numerals *)

(** The digits [strtol] reads, and what follows them. *)
Fixpoint digits (acc : Z) (s : list Z) : Z * list Z :=
  match s with c :: s' => if isdigit c then digits (acc * 10 + (c - 48)) s' else (acc, s) | [] => (acc, []) end.
Definition sign_of (s : list Z) : bool * list Z :=
  match s with c :: s' => if c =? 45 then (true, s') else if c =? 43 then (false, s') else (false, s) | [] => (false, []) end.
(** The C library's [strtol] in base ten, [long] of 32 bits; [None] when there is
    no number. *)
Definition strtol (s : list Z) : option (Z * list Z) :=
  let '(neg, s) := sign_of (ltrim_cstr s) in
  match s with
  | c :: _ => if isdigit c then let '(n, r) := digits 0 s in
                Some (Z.max (- 2 ^ 31) (Z.min (2 ^ 31 - 1) (if neg : bool then - n else n)), r)
              else None
  | [] => None
  end.
(** [strtoul] in base ten, [unsigned long] of 32 bits: what does not fit is the
    largest value, a sign negates modulo 2^32. *)
Definition strtoul (s : list Z) : option (Z * list Z) :=
  let '(neg, s) := sign_of (ltrim_cstr s) in
  match s with
  | c :: _ => if isdigit c then let '(n, r) := digits 0 s in
                Some (if 2 ^ 32 <=? n then 2 ^ 32 - 1 else if neg : bool then u32 (- n) else n, r)
              else None
  | [] => None
  end.

(** *** [strtof]

    The text a number is read from, as the standard lays it down; its value is
    the library's. *)
Fixpoint span (f : Z -> bool) (s : list Z) : list Z * list Z :=
  match s with c :: s' => if f c then let '(a, b) := span f s' in (c :: a, b) else ([], s) | [] => ([], []) end.
Definition isxdigit (c : Z) : bool := isdigit c || ((65 <=? c) && (c <=? 70)) || ((97 <=? c) && (c <=? 102)).
(** Whether [s] begins with [p], which is how [strncmp(s, p, strlen(p)) == 0] reads. *)
Fixpoint starts (p s : list Z) : bool :=
  match p, s with [], _ => true | c :: p, d :: s => (c =? d) && starts p s | _, _ => false end.
(** [*s == c]. *)
Definition points_at (c : Z) (s : list Z) : bool := match s with d :: _ => d =? c | [] => false end.
(** Digits with at most one point among them, at least one digit. *)
Definition significand (digit : Z -> bool) (s : list Z) : option (list Z * list Z) :=
  let '(i, s1) := span digit s in
  let '(f, s2) := match s1 with c :: s1' => if c =? 46 then let '(f, r) := span digit s1' in (c :: f, r) else ([], s1) | [] => ([], s1) end in
  if existsb digit (i ++ f) then Some (i ++ f, s2) else None.
(** An exponent, taken only when it has digits. *)
Definition exponent_part (letter : Z -> bool) (s : list Z) : list Z * list Z :=
  match s with
  | e :: s1 =>
      if letter e then
        let '(sg, s2) := match s1 with c :: s1' => if (c =? 43) || (c =? 45) then ([c], s1') else ([], s1) | [] => ([], s1) end in
        let '(d, s3) := span isdigit s2 in
        match d with [] => ([], s) | _ => (e :: sg ++ d, s3) end
      else ([], s)
  | [] => ([], [])
  end.
Definition with_exponent (letter : Z -> bool) (m : list Z * list Z) : list Z * list Z :=
  let '(e, r) := exponent_part letter (snd m) in (fst m ++ e, r).
(** [inf], [infinity] and [nan], with or without a sequence in brackets. *)
Definition special (s : list Z) : option (list Z * list Z) :=
  if starts (chars "infinity") (lc (take 8 s)) then Some (take 8 s, drop 8 s)
  else if starts (chars "inf") (lc (take 3 s)) then Some (take 3 s, drop 3 s)
  else if starts (chars "nan") (lc (take 3 s)) then
    match drop 3 s with
    | p :: s' => if p =? 40 then
        let '(w, r) := span (fun c => isdigit c || islower (tolower c) || (c =? 95)) s' in
        match r with q :: r' => if q =? 41 then Some (take 3 s ++ p :: w ++ [q], r') else Some (take 3 s, drop 3 s) | [] => Some (take 3 s, drop 3 s) end
      else Some (take 3 s, drop 3 s)
    | [] => Some (take 3 s, drop 3 s)
    end
  else None.
(** The text of the number, its sign apart, and what follows. *)
Definition unsigned_numeral (s : list Z) : option (list Z * list Z) :=
  match special s with
  | Some r => Some r
  | None =>
      let hex := match s with z :: x :: s' => if (z =? 48) && (tolower x =? 120)
                   then option_map (fun m => (z :: x :: fst m, snd m)) (option_map (with_exponent (fun c => tolower c =? 112)) (significand isxdigit s'))
                   else None | _ => None end in
      match hex with
      | Some r => Some r
      | None => option_map (with_exponent (fun c => tolower c =? 101)) (significand isdigit s)
      end
  end.
(** Negated or not, the text, and what follows; [None] when no number is read. *)
Definition numeral (s : list Z) : option (bool * list Z * list Z) :=
  let '(neg, s) := sign_of (ltrim_cstr s) in
  match unsigned_numeral s with Some (t, r) => Some (neg, t, r) | None => None end.

(** ** [std::string] *)

Definition elem (set : list Z) (c : Z) : bool := existsb (Z.eqb c) set.
(** The place of the first character for which [f] holds, from [pos] on;
    [None] for [npos]. *)
Fixpoint find_from (f : Z -> bool) (s : list Z) : option nat :=
  match s with c :: s' => if f c then Some O else option_map S (find_from f s') | [] => None end.
Definition find_first_of (set s : list Z) (pos : nat) : option nat :=
  option_map (fun i => pos + i)%nat (find_from (elem set) (drop pos s)).
Definition find_first_not_of (set s : list Z) : option nat := find_from (fun c => negb (elem set c)) s.
Fixpoint find (p s : list Z) : option nat :=
  if starts p s then Some O else match s with _ :: s' => option_map S (find p s') | [] => None end.
Definition erase (pos n : nat) (s : list Z) : list Z := take pos s ++ drop (pos + n) s.
(** [substr(pos)]; [None] for [std::out_of_range]. *)
Definition substr (pos : nat) (s : list Z) : option (list Z) := if (length s <? pos)%nat then None else Some (drop pos s).
(** [src/src/libs/utils.cpp:474-477] ltrim *)
Definition ltrim (s : list Z) : list Z := match find_first_not_of [32; 9; 10; 13; 12; 11] s with Some i => drop i s | None => [] end.
(** [src/src/libs/utils.cpp:107-111] is_whitespace *)
Definition is_whitespace (c : Z) : bool := (c =? 32) || (c =? 9).

(** ** Parameters of a command line *)

(** Characters the controller sends for those a command line may not hold.
    [src/src/libs/utils.cpp:171-184] shift_parameter *)
Definition decoded (c : Z) : Z := if c =? 1 then 32 else if c =? 2 then 63 else if c =? 3 then 42 else if c =? 4 then 33 else if c =? 5 then 126 else c.
Definition skip_blanks (s : list Z) : list Z := match find_first_not_of [32; 9] s with Some i => drop i s | None => [] end.
(** The first parameter and the others.
    [src/src/libs/utils.cpp:138-227] shift_parameter *)
Definition shift_parameter (parameters : list Z) : list Z * list Z :=
  match skip_blanks parameters with
  | [] => ([], [])
  | q :: s =>
      let quoted := if (q =? 34) || (q =? 39) then find_from (Z.eqb q) s else None in
      match quoted with
      | Some e => (map decoded (take e s), skip_blanks (drop (S e) s))
      | None => match find_first_of [32] parameters 0 with
                | None => (map decoded parameters, [])
                | Some b => (map decoded (take b parameters), drop (S b) parameters)
                end
      end
  end.
(** [src/src/libs/utils.cpp:230-237] get_arguments *)
Definition get_arguments (s : list Z) : list Z := match find_first_of [32] s 0 with Some b => drop (S b) s | None => [] end.

(** ** Lemmas *)

Lemma ltrim_suffix s : ltrim_cstr s `suffix_of` s.
Proof. induction s as [|c s IH]; cbn; [done|]. destruct (isspace c); [by apply suffix_cons_r|done]. Qed.
Lemma digits_suffix acc s : snd (digits acc s) `suffix_of` s.
Proof. revert acc. induction s as [|c s IH]; intros acc; cbn; [done|]. destruct (isdigit c); [by apply suffix_cons_r|done]. Qed.
Lemma sign_suffix s : snd (sign_of s) `suffix_of` s.
Proof. destruct s as [|c s]; [done|]. cbn. repeat case_match; cbn; try done; by apply suffix_cons_r. Qed.
Lemma span_app f s : fst (span f s) ++ snd (span f s) = s.
Proof. induction s as [|c s IH]; [done|]. cbn. destruct (f c); [|done]. destruct (span f s). cbn in *. by rewrite IH. Qed.
Lemma find_from_bound f s i : find_from f s = Some i -> (i < length s)%nat.
Proof.
  revert i. induction s as [|c s IH]; intros i; cbn; [done|]. destruct (f c); [intros [= <-]; lia|].
  destruct (find_from f s); [|done]. cbn. intros [= <-]. specialize (IH n eq_refl). lia.
Qed.
Lemma find_first_of_bound set s pos i : find_first_of set s pos = Some i -> (pos <= i < length s)%nat.
Proof.
  unfold find_first_of. destruct (find_from _ _) eqn:E; [|done]. intros [= <-]. apply find_from_bound in E. rewrite length_drop in E. lia.
Qed.
Lemma span_suffix f s : snd (span f s) `suffix_of` s.
Proof. exists (fst (span f s)). by rewrite span_app. Qed.
Lemma suffix_drop {A} n (s : list A) : drop n s `suffix_of` s.
Proof. exists (take n s). by rewrite take_drop. Qed.
Lemma points_at_cons c s : points_at c s = true -> s = c :: tail s.
Proof. destruct s as [|d s]; [done|]. cbn. intros ->%Z.eqb_eq. done. Qed.
Lemma suffix_tail {A} (s : list A) : tail s `suffix_of` s.
Proof. destruct s; [done|by apply suffix_cons_r]. Qed.
Lemma points_at_shorter c s : points_at c s = true -> (length (tail s) < length s)%nat.
Proof. intros ->%points_at_cons. cbn. lia. Qed.
#[export] Hint Resolve suffix_tail : core.
#[export] Hint Resolve suffix_drop ltrim_suffix span_suffix : core.
Lemma strtol_suffix s n r : strtol s = Some (n, r) -> r `suffix_of` s /\ (length r < length s)%nat.
Proof.
  unfold strtol. pose proof (sign_suffix (ltrim_cstr s)) as Hs. destruct (sign_of (ltrim_cstr s)) as [neg s1]. cbn in Hs.
  assert (Hs1 : s1 `suffix_of` s) by (etrans; [exact Hs|apply ltrim_suffix]). apply suffix_length in Hs1 as Hl.
  destruct s1 as [|d s1]; [done|]. destruct (isdigit d) eqn:Ed; [|done].
  cbn [digits]. rewrite Ed. pose proof (digits_suffix (0 * 10 + (d - 48)) s1) as Hd. destruct (digits _ s1). intros [= _ <-].
  cbn in Hd. split; [etrans; [exact Hd|]; etrans; [|exact Hs1]; by apply suffix_cons_r|]. apply suffix_length in Hd. cbn in Hl. lia.
Qed.
Lemma significand_suffix digit s m r : significand digit s = Some (m, r) -> r `suffix_of` s.
Proof.
  unfold significand. pose proof (span_suffix digit s) as Hs. destruct (span digit s) as [i s1]. cbn in Hs.
  destruct s1 as [|c s1]; [case_match; [intros [= _ <-]; done|done]|].
  destruct (c =? 46); [|case_match; [intros [= _ <-]; done|done]].
  pose proof (span_suffix digit s1) as H1. destruct (span digit s1) as [f s2]. cbn in H1. case_match; [|done]. intros [= _ <-].
  etrans; [exact H1|]. etrans; [|exact Hs]. by apply suffix_cons_r.
Qed.
Lemma exponent_suffix letter s : snd (exponent_part letter s) `suffix_of` s.
Proof.
  unfold exponent_part. destruct s as [|e s]; [done|]. destruct (letter e); [|done].
  destruct (match s with c :: s1' => if (c =? 43) || (c =? 45) then ([c], s1') else ([], s) | [] => ([], s) end) as [sg s2] eqn:E.
  assert (Hs2 : s2 `suffix_of` s).
  { destruct s as [|c s]; [by injection E as _ <-|]. destruct ((c =? 43) || (c =? 45)); injection E as _ <-; [by apply suffix_cons_r|done]. }
  pose proof (span_suffix isdigit s2) as H3. destruct (span isdigit s2) as [d s3]. destruct d; [done|]. cbn in *.
  apply suffix_cons_r. by etrans.
Qed.
Lemma special_suffix s t r : special s = Some (t, r) -> r `suffix_of` s.
Proof.
  unfold special. do 2 (case_match; [by intros [= _ <-]|]). case_match; [|done].
  destruct (drop 3 s) as [|p s'] eqn:E; [intros [= _ <-]; apply suffix_nil|]. assert (Hp : p :: s' `suffix_of` s) by (rewrite <- E; done).
  case_match; [|by intros [= _ <-]]. pose proof (span_suffix (fun c => isdigit c || islower (tolower c) || (c =? 95)) s') as Hw.
  destruct (span _ s') as [w q]. cbn in Hw. destruct q as [|q r']; [by intros [= _ <-]|].
  case_match; [|by intros [= _ <-]]. intros [= _ <-]. etrans; [|exact Hp]. apply suffix_cons_r. etrans; [|exact Hw]. by apply suffix_cons_r.
Qed.
Lemma with_exponent_suffix letter o t r s :
  option_map (with_exponent letter) o = Some (t, r) -> (forall m q, o = Some (m, q) -> q `suffix_of` s) -> r `suffix_of` s.
Proof.
  destruct o as [[m q]|]; [|done]. cbn. unfold with_exponent. cbn. pose proof (exponent_suffix letter q) as He.
  destruct (exponent_part letter q). intros [= _ <-] Hq. etrans; [exact He|by eapply Hq].
Qed.
Lemma numeral_suffix s neg t r : numeral s = Some (neg, t, r) -> r `suffix_of` s.
Proof.
  unfold numeral. pose proof (sign_suffix (ltrim_cstr s)) as Hs. destruct (sign_of (ltrim_cstr s)) as [neg' s1]. cbn in Hs.
  destruct (unsigned_numeral s1) as [[t' r']|] eqn:E; [|done]. intros [= _ _ <-].
  etrans; [|etrans; [exact Hs|apply ltrim_suffix]]. revert E. unfold unsigned_numeral.
  destruct (special s1) as [[a b]|] eqn:Esp; [intros [= _ <-]; by eapply special_suffix|].
  assert (Hdec : option_map (with_exponent (fun c => tolower c =? 101)) (significand isdigit s1) = Some (t', r') -> r' `suffix_of` s1).
  { intros Ed. eapply with_exponent_suffix; [exact Ed|]. intros m q. apply significand_suffix. }
  destruct s1 as [|z [|x s2]]; [exact Hdec..|]. destruct ((z =? 48) && (tolower x =? 120)); [|exact Hdec].
  destruct (option_map (with_exponent _) (significand isxdigit s2)) as [[m q]|] eqn:Eh; [|exact Hdec].
  cbn. intros [= _ <-]. do 2 apply suffix_cons_r. eapply with_exponent_suffix; [exact Eh|]. intros a b. apply significand_suffix.
Qed.
