(* ===== verification/Files.v ===== *)
(** * Streams of the C library ([src/src/libs/FirmwareFileSystem.cpp])

    A file open for reading, and the lines read from it. *)
From S2P Require Import Prelude.
#[local] Open Scope Z_scope.

(** A stream open for reading, with its end-of-file mark. *)
Record File := mk_file { content : list Z; fpos : nat; eof : bool }.
#[export] Instance eta_File : Eta File := fun f => mk_file (content f) (fpos f) (eof f).

(** Up to the end of the line, at most [n] characters; the flag says whether the
    end of the file was met. *)
Fixpoint take_to_newline (n : nat) (l : list Z) : list Z * bool :=
  match n, l with
  | O, _ => ([], false)
  | S n, c :: l => if c =? 10 then ([c], false) else let '(r, e) := take_to_newline n l in (c :: r, e)
  | S _, [] => ([], true)
  end.
(** The C library's [fgets] with a buffer of [size].
    [src/src/libs/FirmwareFileSystem.cpp:45-48] fwfs::fgets *)
Definition fgets (size : nat) (f : File) : File * option (list Z) :=
  let '(l, e) := take_to_newline (size - 1) (drop (fpos f) (content f)) in
  match l with
  | [] => (f <| eof := e |>, None)
  | _ => (f <| fpos := fpos f + length l |>%nat <| eof := e |>, Some l)
  end.
(** A negative offset is refused.
    [src/src/libs/FirmwareFileSystem.cpp:55-58] fwfs::fseek *)
Definition fseek (f : File) (offset : Z) : File :=
  if offset <? 0 then f else f <| fpos := Z.to_nat offset |> <| eof := false |>.
(** [src/src/libs/FirmwareFileSystem.cpp:60-63] fwfs::ftell *)
Definition ftell (f : File) : Z := Z.of_nat (fpos f).

(** ** Lines *)

(** The lines of a text, each with its end. *)
Fixpoint split_lines (n : nat) (text : list Z) : list (list Z) :=
  match n, text with
  | O, _ | _, [] => []
  | S n, _ => let '(l, _) := take_to_newline (length text) text in l :: split_lines n (drop (length l) text)
  end.
Definition lines_of (text : list Z) : list (list Z) := split_lines (length text) text.
(** A line without its end; a line; lines of which only the last may lack it. *)
Definition plain_text (t : list Z) : Prop := Forall (fun c => c <> 10 /\ c <> 0) t.
Definition ended (l : list Z) : Prop := exists t, l = t ++ [10] /\ plain_text t.
Definition open_line (l : list Z) : Prop := plain_text l /\ l <> [].
Fixpoint lines_ok (ls : list (list Z)) : Prop :=
  match ls with [] => True | [l] => ended l \/ open_line l | l :: ls => ended l /\ lines_ok ls end.
(** The first line of a text, when [n] characters are enough and when not. *)
Lemma take_line t r n : plain_text t -> take_to_newline n (t ++ 10 :: r) = if (length t <? n)%nat then (t ++ [10], false) else (take n t, false).
Proof.
  revert n. induction t as [|c t IH]; intros n Ht; [by destruct n|]. apply Forall_cons_iff in Ht as [[Hc _] Ht].
  destruct n as [|n]; [done|]. cbn [app take_to_newline length take]. apply Z.eqb_neq in Hc as ->. rewrite IH by done.
  change (S (length t) <? S n)%nat with (length t <? n)%nat. by destruct (length t <? n)%nat.
Qed.
Lemma take_open t n : plain_text t -> take_to_newline n t = (take n t, (length t <? n)%nat).
Proof.
  revert n. induction t as [|c t IH]; intros n Ht; [by destruct n|]. apply Forall_cons_iff in Ht as [[Hc _] Ht].
  destruct n as [|n]; [done|]. cbn [take_to_newline take length]. apply Z.eqb_neq in Hc as ->. by rewrite IH.
Qed.
Lemma lines_ok_cons l ls : lines_ok (l :: ls) -> ls <> [] -> ended l /\ lines_ok ls.
Proof. by destruct ls. Qed.
Lemma lines_ok_tail l ls : lines_ok (l :: ls) -> lines_ok ls.
Proof. destruct ls; [done|]. by intros [_ ?]. Qed.
Lemma lines_ok_head l ls : lines_ok (l :: ls) -> ended l \/ (open_line l /\ ls = []).
Proof. destruct ls; cbn [lines_ok]; [|by intros [? _]; left]. intros [?|?]; [by left|by right]. Qed.
Lemma line_nonempty l ls : lines_ok (l :: ls) -> l <> [].
Proof. intros [(t & -> & _)|[[_ ?] _]]%lines_ok_head; [by destruct t|done]. Qed.
Lemma first_line l ls n : lines_ok (l :: ls) -> (length l < n)%nat -> take_to_newline n (concat (l :: ls)) = (l, bool_decide (open_line l)).
Proof.
  intros Hl Hn. apply lines_ok_head in Hl as [(t & -> & Ht)|[[Ht Hne] ->]]; cbn [concat].
  - rewrite <- app_assoc. cbn [app]. rewrite length_app in Hn. cbn in Hn. rewrite take_line by done. rewrite (proj2 (Nat.ltb_lt _ _)) by lia.
    rewrite bool_decide_false; [done|]. intros [Hp _]. apply Forall_app in Hp as [_ Hp]. by apply Forall_cons_iff in Hp as [[? _] _].
  - rewrite app_nil_r, take_open by done. rewrite firstn_all2 by lia. rewrite (proj2 (Nat.ltb_lt _ _)) by lia. by rewrite bool_decide_true.
Qed.
Lemma take_to_newline_app n l : fst (take_to_newline n l) ++ drop (length (fst (take_to_newline n l))) l = l.
Proof.
  revert l. induction n as [|n IH]; intros [|c l]; cbn [take_to_newline]; [done|done|done|]. destruct (c =? 10); [done|]. specialize (IH l).
  destruct (take_to_newline n l) as [r e]. cbn [fst length drop app] in *. by rewrite IH.
Qed.
Lemma take_to_newline_shape n l : (length l <= n)%nat -> l <> [] -> 0 ∉ l ->
  let p := take_to_newline n l in ended (fst p) \/ (open_line (fst p) /\ drop (length (fst p)) l = []).
Proof.
  revert l. induction n as [|n IH]; intros [|c l] Hn Hl H0; cbn [length] in Hn; try done; [lia|]. cbn [take_to_newline]. apply not_elem_of_cons in H0 as [Hc0 H0].
  destruct (Z.eqb_spec c 10) as [->|Hc]; [left; exists []; split; [done|by apply Forall_nil_2]|].
  assert (Hp : c <> 10 /\ c <> 0) by lia. destruct l as [|d l].
  { destruct n; cbn; (right; split; [split; [by apply Forall_cons_2; [|apply Forall_nil_2]|done]|done]). }
  specialize (IH (d :: l) ltac:(lia) ltac:(done) H0). destruct (take_to_newline n (d :: l)) as [r e]. cbn [fst snd length drop] in *.
  destruct IH as [(t & -> & Ht)|[[Ht Hne] Hd]]; [left; exists (c :: t); split; [done|by apply Forall_cons_2]|right; split; [split; [by apply Forall_cons_2|done]|done]].
Qed.
Lemma split_lines_spec n text : (length text <= n)%nat -> 0 ∉ text -> concat (split_lines n text) = text /\ lines_ok (split_lines n text).
Proof.
  revert text. induction n as [|n IH]; intros [|c text] Hn H0; cbn [length] in Hn; try done; [lia|]. cbn [split_lines]. set (s := c :: text) in *.
  pose proof (take_to_newline_app (length s) s) as Ha. pose proof (take_to_newline_shape (length s) s (le_n _) ltac:(done) H0) as Hs. cbv zeta in Hs.
  destruct (take_to_newline (length s) s) as [l e]. cbn [fst] in *.
  assert (Hl : (1 <= length l)%nat) by (destruct Hs as [(t & -> & _)|[[_ ?] _]]; [rewrite length_app; cbn; lia|by destruct l; [|cbn; lia]]).
  assert (Hd : (length (drop (length l) s) <= n)%nat) by (rewrite length_drop; unfold s; cbn [length]; lia).
  assert (H0' : 0 ∉ drop (length l) s) by (intros Hin; apply H0; rewrite <- Ha; apply elem_of_app; by right).
  destruct (IH _ Hd H0') as [Hc Hok]. cbn [concat]. rewrite Hc, Ha. split; [done|].
  destruct Hs as [He|[Ho Hnil]].
  - cbn [lines_ok]. destruct (split_lines n (drop (length l) s)); [by left|done].
  - rewrite Hnil. destruct n; cbn [split_lines lines_ok]; by right.
Qed.
Lemma lines_of_spec text : 0 ∉ text -> concat (lines_of text) = text /\ lines_ok (lines_of text).
Proof. by apply split_lines_spec. Qed.
Lemma split_lines_step n s : s <> [] -> split_lines (S n) s = let '(l, _) := take_to_newline (length s) s in l :: split_lines n (drop (length l) s).
Proof. by destruct s. Qed.
Lemma split_concat n ls : lines_ok ls -> (length (concat ls) <= n)%nat -> split_lines n (concat ls) = ls.
Proof.
  revert n. induction ls as [|l ls IH]; intros n Hok Hn; [by destruct n|]. pose proof (line_nonempty l ls Hok) as Hne.
  assert (Hl : (1 <= length l)%nat) by (destruct l; [done|cbn; lia]).
  assert (Hex : exists e, take_to_newline (length (concat (l :: ls))) (concat (l :: ls)) = (l, e)).
  { cbn [concat]. rewrite length_app. pose proof (lines_ok_head _ _ Hok) as [(t & -> & Ht)|[[Ht _] ->]].
    - rewrite <- app_assoc. cbn [app]. rewrite take_line by done. rewrite length_app. cbn [length]. rewrite (proj2 (Nat.ltb_lt _ _)) by lia. by eexists.
    - cbn [concat length]. rewrite app_nil_r, Nat.add_0_r, take_open by done. rewrite firstn_all. by eexists. }
  destruct Hex as [e E]. assert (Hs : concat (l :: ls) <> []) by (cbn [concat]; intros Hs; by apply app_eq_nil in Hs as [-> _]).
  assert (Hlen : length (concat (l :: ls)) = (length l + length (concat ls))%nat) by (cbn [concat]; by rewrite length_app).
  destruct n as [|n]; [lia|]. rewrite split_lines_step, E by done. cbn [concat]. rewrite drop_app_length. f_equal. apply IH; [by eapply lines_ok_tail|lia].
Qed.
Lemma lines_of_concat ls : lines_ok ls -> lines_of (concat ls) = ls.
Proof. intros Hok. by apply split_concat. Qed.
