(* ===== verification/OCode.v ===== *)
(** * O-code flow control ([src/src/modules/utils/player/OCodeHandler.h],
    [OCodeHandler.cpp])

    Lines [Onnn keyword ...] of a file being played steer which lines are run:
    conditionals, three kinds of loop, subroutines. The handler keeps a stack of
    open blocks and moves the file's position; the player gives it every line it
    reads. The kernel's parameters and the evaluation of expressions are an
    interface. *)
From S2P Require Import Prelude CString Files.
From stdpp Require Import gmap.
#[local] Open Scope Z_scope.

(** ** Text *)

(** The keyword: up to a blank or a bracket.
    [src/src/modules/utils/player/OCodeHandler.cpp:143-143] OCodeHandler::parse_ocode *)
Fixpoint keyword_of (s : list Z) : list Z * list Z :=
  match s with
  | c :: s' => if isspace c || (c =? 91) then ([], s) else let '(k, r) := keyword_of s' in (c :: k, r)
  | [] => ([], [])
  end.
(** [src/src/modules/utils/player/OCodeHandler.cpp:148-149] OCodeHandler::parse_ocode *)
Fixpoint strip_line_end (s : list Z) : list Z :=
  match s with
  | [] => []
  | c :: s' => match strip_line_end s' with
               | [] => if (c =? 10) || (c =? 13) then [] else [c]
               | r => c :: r
               end
  end.
(** The number, the keyword and the rest; [None] for a line that is no O-code.
    [src/src/modules/utils/player/OCodeHandler.cpp:127-152] OCodeHandler::parse_ocode *)
Definition parse_ocode (line : list Z) : option (Z * list Z * list Z) :=
  match ltrim_cstr (c_string line) with
  | c :: p =>
      if c =? 79 then
        '(n, p) ← strtol p;
        match ltrim_cstr p with
        | [] => None
        | p => let '(kw, p) := keyword_of p in
               let rest := strip_line_end (ltrim_cstr p) in
               match kw with [] => None | _ => Some (n, lc kw, rest) end
        end
      else None
  | [] => None
  end.

(** ** State *)
(** [src/src/modules/utils/player/OCodeHandler.h:52-52] OCodeHandler::BlockType *)
Inductive BlockType := IF | WHILE | DO | REPEAT | SUB.
#[export] Instance BlockType_eq_dec : EqDecision BlockType.
Proof. solve_decision. Defined.
(** [saved_params] means something only in a subroutine's frame.
    [src/src/modules/utils/player/OCodeHandler.h:54-64] OCodeHandler::Frame *)
Record Frame := mk_frame {
  num : Z; type_ : BlockType; loop_offset : Z; executing : bool; branch_taken : bool; repeat_count : Z;
  saved_params : list Z; return_offset : Z; jump_line : Z
}.
#[export] Instance eta_Frame : Eta Frame := fun f =>
  mk_frame (num f) (type_ f) (loop_offset f) (executing f) (branch_taken f) (repeat_count f) (saved_params f)
    (return_offset f) (jump_line f).
(** [src/src/modules/utils/player/OCodeHandler.h:85-88] OCodeHandler::SubEntry *)
Record SubEntry := mk_sub { sub_offset : Z; sub_line : Z }.
(** [src/src/modules/utils/player/OCodeHandler.h:10-10] OCODE_MAX_STACK_DEPTH *)
Definition OCODE_MAX_STACK_DEPTH : nat := 10.
(** The stack's bottom comes first.
    [src/src/modules/utils/player/OCodeHandler.h:90-95] OCodeHandler *)
Record OCodeHandler := mk_ocode {
  stack_ : list Frame; sub_table_ : gmap Z SubEntry; pre_scanned_ : bool; pre_scan_failed_ : bool;
  tolerant_after_jump_ : bool
}.
#[export] Instance eta_OCodeHandler : Eta OCodeHandler := fun o =>
  mk_ocode (stack_ o) (sub_table_ o) (pre_scanned_ o) (pre_scan_failed_ o) (tolerant_after_jump_ o).
(** [src/src/modules/utils/player/OCodeHandler.cpp:22-26] OCodeHandler::OCodeHandler *)
Definition new_ocode : OCodeHandler := mk_ocode [] ∅ false false false.
(** [src/src/modules/utils/player/OCodeHandler.cpp:28-35] OCodeHandler::reset *)
Definition reset (o : OCodeHandler) : OCodeHandler := mk_ocode [] ∅ false false false.

(** What the handler needs of the kernel: the thirty local parameters, and the
    value of an expression (a [float], as its bits) with how much of the text it
    took; the evaluation may set parameters and print. *)
Class Kernel (K : Type) := mk_kernel {
  local_params : K -> list Z;
  set_local_params : list Z -> K -> K;
  evaluate : K -> list Z -> K * Z * nat
}.
(** What the handler tells: an error that halts the machine, or a warning. *)
Inductive Note := halt_error (num : Z) (m : string) | warn (num : Z) (m : string).

Section Handler.
Context {K : Type} `{Kernel K}.
(** The handler with the file, the player's line counter, the kernel, and what
    was told. *)
Record World := mk_world { oc : OCodeHandler; fh : File; file_line : Z; kernel : K; notes : list Note }.
#[global] Instance eta_World : Eta World := fun w => mk_world (oc w) (fh w) (file_line w) (kernel w) (notes w).
Definition told (w : World) (n : Note) : World := w <| notes := notes w ++ [n] |>.
(** [src/src/modules/utils/player/OCodeHandler.cpp:189-200] OCodeHandler::label_error *)
Definition label_error (w : World) (n : Z) (m : string) : World :=
  if tolerant_after_jump_ (oc w) then told w (warn n m) else told w (halt_error n m).
Definition set_stack (w : World) (s : list Frame) : World := w <| oc := (oc w) <| stack_ := s |> |>.
Definition stack (w : World) : list Frame := stack_ (oc w).

(** ** Floats

    Truth of a value: neither zero nor a NaN.
    [src/src/modules/utils/player/OCodeHandler.cpp:408-408] OCodeHandler::process_line *)
Definition is_true (v : Z) : bool :=
  negb (Z.land v 0x7FFFFFFF =? 0) && (Z.land v 0x7FFFFFFF <=? 0x7F800000).
(** Towards zero, saturating as the processor does, zero for a NaN.
    [src/src/modules/utils/player/OCodeHandler.cpp:570-570] OCodeHandler::process_line *)
Definition float_to_int (v : Z) : Z :=
  let a := Z.land v 0x7FFFFFFF in
  if 0x7F800000 <? a then 0
  else let e := Z.shiftr a 23 in let m := Z.lor (Z.land a 0x7FFFFF) 0x800000 in
  let n := if e <? 127 then 0 else Z.shiftl m (e - 150) in
  if Z.testbit v 31 then Z.max (- 2 ^ 31) (- n) else Z.min (2 ^ 31 - 1) n.
(** [src/src/modules/utils/player/OCodeHandler.cpp:154-159] OCodeHandler::eval_expr *)
Definition eval_expr (w : World) (expr : list Z) : World * Z :=
  let '(k, v, _) := evaluate (kernel w) expr in (w <| kernel := k |>, v).

(** ** The stack *)
(** [src/src/modules/utils/player/OCodeHandler.cpp:202-208] OCodeHandler::any_frame_skipping *)
Definition any_frame_skipping (w : World) : bool := existsb (fun f => negb (executing f)) (stack w).
(** [src/src/modules/utils/player/OCodeHandler.cpp:210-213] OCodeHandler::is_skipping *)
Definition is_skipping (w : World) : bool := any_frame_skipping w.
(** The topmost frame that satisfies a test, as the loops over the stack find it. *)
Fixpoint find_top (p : Frame -> bool) (s : list Frame) : option nat :=
  match s with
  | [] => None
  | f :: s => match find_top p s with
              | Some i => Some (S i)
              | None => if p f then Some O else None
              end
  end.
Definition is_block (t : BlockType) (n : Z) (f : Frame) : bool := bool_decide (type_ f = t) && (num f =? n).
(** [src/src/modules/utils/player/OCodeHandler.cpp:215-223] OCodeHandler::find_loop_frame *)
Definition find_loop_frame (w : World) (n : Z) : option nat :=
  find_top (fun f => (bool_decide (type_ f = WHILE) || bool_decide (type_ f = DO) || bool_decide (type_ f = REPEAT)) && (num f =? n))
    (stack w).

(** ** Skipping ahead *)
(** The topmost [do] of that number leaves the list, the last one takes its place.
    [src/src/modules/utils/player/OCodeHandler.cpp:266-273] OCodeHandler::skip_to *)
Definition close_do (do_nums : list Z) (n : Z) : option (list Z) :=
  match List.find (fun i => List.nth i do_nums 0 =? n) (rev (seq 0 (length do_nums))) with
  | Some i => Some (take (length do_nums - 1) (<[i := List.last do_nums 0]> do_nums))
  | None => None
  end.
(** The outer [None] is for fuel, which the length of the file bounds
    ([skip_loop_total]); the inner one for a file that ends first.
    [src/src/modules/utils/player/OCodeHandler.cpp:243-291] OCodeHandler::skip_to *)
Fixpoint skip_loop (fuel : nat) (f : File) (open_kw close_kw : list Z) (target_num : Z) (depth : Z) (do_nums : list Z)
    (lines_read : Z) : option (File * Z * option (list Z)) :=
  match fuel with
  | O => None
  | S fuel =>
      match fgets 130 f with
      | (f, None) => Some (f, lines_read, None)
      | (f, Some buf) =>
          let lines_read := lines_read + 1 in
          let track_do := bool_decide (open_kw = chars "while") in
          match parse_ocode buf with
          | None => skip_loop fuel f open_kw close_kw target_num depth do_nums lines_read
          | Some (n, kw, rest) =>
              if track_do && bool_decide (kw = chars "do") then
                let do_nums := if (length do_nums <? OCODE_MAX_STACK_DEPTH)%nat then do_nums ++ [n] else do_nums in
                skip_loop fuel f open_kw close_kw target_num depth do_nums lines_read
              else if bool_decide (kw = open_kw) then
                match (if track_do then close_do do_nums n else None) with
                | Some do_nums => skip_loop fuel f open_kw close_kw target_num depth do_nums lines_read
                | None => skip_loop fuel f open_kw close_kw target_num (depth + 1) do_nums lines_read
                end
              else if bool_decide (kw = close_kw) then
                if depth =? 0 then
                  if (target_num <? 0) || (n =? target_num) then Some (f, lines_read, Some rest)
                  else skip_loop fuel f open_kw close_kw target_num depth do_nums lines_read
                else skip_loop fuel f open_kw close_kw target_num (depth - 1) do_nums lines_read
              else skip_loop fuel f open_kw close_kw target_num depth do_nums lines_read
          end
      end
  end.
(** [src/src/modules/utils/player/OCodeHandler.cpp:228-292] OCodeHandler::skip_to *)
Definition skip_to (f : File) (open_kw close_kw : string) (target_num : Z) : option (File * Z * option (list Z)) :=
  skip_loop (S (length (content f))) f (chars open_kw) (chars close_kw) target_num 0 [] 0.

(** ** Scanning for subroutines *)

(** [halts i] says whether the idle event after line [i] found the machine halted.
    [src/src/modules/utils/player/OCodeHandler.cpp:61-101] OCodeHandler::pre_scan *)
Fixpoint scan_subs (fuel : nat) (halts : nat -> bool) (f : File) (line_num : nat) (o : OCodeHandler) (k : list Note)
    : option (OCodeHandler * list Note) :=
  match fuel with
  | O => None
  | S fuel =>
      match fgets 130 f with
      | (_, None) => Some (o, k)
      | (f, Some buf) =>
          if halts line_num then Some (o <| pre_scanned_ := false |> <| pre_scan_failed_ := true |>, k)
          else let line_num := S line_num in
          match parse_ocode buf with
          | Some (n, kw, _) =>
              if bool_decide (kw = chars "sub") then
                match sub_table_ o !! n with
                | Some _ => scan_subs fuel halts f line_num (o <| pre_scan_failed_ := true |>) (k ++ [warn n "sub defined more than once"])
                | None => scan_subs fuel halts f line_num
                            (o <| sub_table_ := <[n := mk_sub (ftell f) (Z.of_nat line_num + 1)]> (sub_table_ o) |>) k
                end
              else scan_subs fuel halts f line_num o k
          | None => scan_subs fuel halts f line_num o k
          end
      end
  end.
(** The file keeps its position; the messages of progress are left out.
    [src/src/modules/utils/player/OCodeHandler.cpp:39-112] OCodeHandler::pre_scan *)
Definition pre_scan (halts : nat -> bool) (w : World) : option World :=
  let o := (oc w) <| pre_scanned_ := true |> <| sub_table_ := ∅ |> in
  '(o, k) ← scan_subs (S (length (content (fh w)))) halts (fseek (fh w) 0) 0 o (notes w);
  Some (w <| oc := o |> <| notes := k |> <| fh := fseek (fh w) (ftell (fh w)) |>).
(** [src/src/modules/utils/player/OCodeHandler.cpp:118-123] OCodeHandler::prepare_jump *)
Definition prepare_jump (halts : nat -> bool) (w : World) : option World :=
  let w := w <| oc := (oc w) <| stack_ := [] |> <| tolerant_after_jump_ := true |> |> in
  if pre_scanned_ (oc w) then Some w else pre_scan halts w.

(** ** The keywords

    Each returns the new state; all of them consume the line. *)

(** Skips to a closing keyword and counts the lines; halts with [m] if the file
    ends first.
    [src/src/modules/utils/player/OCodeHandler.cpp:307-311] OCodeHandler::process_line *)
Definition skip_block (w : World) (open_kw close_kw : string) (n : Z) (m : option string) : option (World * option (list Z)) :=
  '(f, lines, r) ← skip_to (fh w) open_kw close_kw n;
  let w := w <| fh := f |> in
  let w := match r, m with None, Some m => told w (halt_error n m) | _, _ => w end in
  Some (w <| file_line := u32 (file_line w + lines) |>, r).
(** Back to where a loop's frame says.
    [src/src/modules/utils/player/OCodeHandler.cpp:528-529] OCodeHandler::process_line *)
Definition jump_back (w : World) (f : Frame) : World :=
  w <| file_line := u32 (jump_line f - 1) |> <| fh := fseek (fh w) (loop_offset f) |>.
Definition push (w : World) (f : Frame) : World :=
  w <| oc := (oc w) <| tolerant_after_jump_ := false |> <| stack_ := stack_ (oc w) ++ [f] |> |>.
Definition erase (w : World) (i : nat) : World := set_stack w (delete i (stack w)).
Definition stack_full (w : World) : bool := (OCODE_MAX_STACK_DEPTH <=? length (stack w))%nat.

(** [src/src/modules/utils/player/OCodeHandler.cpp:305-314] OCodeHandler::process_line *)
Definition do_sub (w : World) (n : Z) : option World :=
  if any_frame_skipping w then Some w
  else '(w, _) ← skip_block w "sub" "endsub" n (Some "sub has no matching endsub"%string); Some w.
(** [src/src/modules/utils/player/OCodeHandler.cpp:317-333] OCodeHandler::process_line *)
Definition do_endsub (w : World) : option World :=
  if any_frame_skipping w then Some w
  else match find_top (fun f => bool_decide (type_ f = SUB)) (stack w) with
  | Some i =>
      f ← stack w !! i;
      let w := w <| kernel := set_local_params (saved_params f) (kernel w) |> in
      let w := w <| file_line := u32 (jump_line f - 1) |> in
      Some ((set_stack w (take i (stack w))) <| fh := fseek (fh w) (return_offset f) |>)
  | None => Some w
  end.
(** The bracketed arguments: at most thirty. [fuel] is the number of parameters.
    [src/src/modules/utils/player/OCodeHandler.cpp:375-382] OCodeHandler::process_line *)
Fixpoint pass_arguments (fuel : nat) (p : nat) (k : K) (rp : list Z) : K :=
  match fuel with
  | O => k
  | S fuel =>
      match ltrim_cstr rp with
      | (c :: _) as rp =>
          if c =? 91 then
            let '(k, v, n) := evaluate k rp in
            pass_arguments fuel (S p) (set_local_params (<[p := v]> (local_params k)) k) (drop n rp)
          else k
      | [] => k
      end
  end.
(** The second half, once the subroutine is known to exist.
    [src/src/modules/utils/player/OCodeHandler.cpp:358-388] OCodeHandler::process_line *)
Definition enter_sub (w : World) (n : Z) (rest : list Z) (e : SubEntry) : World :=
  let f := mk_frame n SUB 0 true false 0 (take 30 (local_params (kernel w))) (ftell (fh w)) (s32 (file_line w + 1)) in
  let w := w <| kernel := pass_arguments 30 0 (kernel w) rest |> in
  let w := push w f in
  w <| file_line := u32 (sub_line e - 1) |> <| fh := fseek (fh w) (sub_offset e) |>.
(** [src/src/modules/utils/player/OCodeHandler.cpp:336-389] OCodeHandler::process_line *)
Definition do_call (halts : nat -> bool) (w : World) (n : Z) (rest : list Z) : option World :=
  if any_frame_skipping w then Some w
  else if stack_full w then Some (told w (halt_error n "call exceeded max nesting depth"))
  else
    w' ← (if pre_scanned_ (oc w) then Some w else pre_scan halts w);
    if negb (pre_scanned_ (oc w)) && pre_scan_failed_ (oc w') then Some (told w' (halt_error n "call: O-code pre-scan failed"))
    else match sub_table_ (oc w') !! n with
    | None => Some (told w' (halt_error n "call: subroutine not found"))
    | Some e => Some (enter_sub w' n rest e)
    end.
(** [src/src/modules/utils/player/OCodeHandler.cpp:392-417] OCodeHandler::process_line *)
Definition do_if (w : World) (n : Z) (rest : list Z) : option World :=
  if stack_full w then Some (told w (halt_error n "if exceeded max nesting depth"))
  else if any_frame_skipping w then Some (push w (mk_frame n IF 0 false true 0 [] 0 0))
  else let '(w, v) := eval_expr w rest in Some (push w (mk_frame n IF 0 (is_true v) (is_true v) 0 [] 0 0)).
(** [src/src/modules/utils/player/OCodeHandler.cpp:420-436] OCodeHandler::process_line *)
Definition do_elseif (w : World) (n : Z) (rest : list Z) : option World :=
  match find_top (is_block IF n) (stack w) with
  | Some i =>
      f ← stack w !! i;
      if branch_taken f
      then Some (set_stack w (alter (fun f => f <| executing := false |>) i (stack w)))
      else let '(w, v) := eval_expr w rest in
           Some (set_stack w (alter (fun f => f <| executing := is_true v |> <| branch_taken := is_true v |>) i (stack w)))
  | None => Some (label_error w n "elseif without matching if")
  end.
(** [src/src/modules/utils/player/OCodeHandler.cpp:439-449] OCodeHandler::process_line *)
Definition do_else (w : World) (n : Z) : option World :=
  match find_top (is_block IF n) (stack w) with
  | Some i => Some (set_stack w (alter (fun f => f <| executing := negb (branch_taken f) |> <| branch_taken := true |>) i (stack w)))
  | None => Some (label_error w n "else without matching if")
  end.
(** [src/src/modules/utils/player/OCodeHandler.cpp:452-461] OCodeHandler::process_line *)
Definition do_endif (w : World) (n : Z) : option World :=
  match find_top (is_block IF n) (stack w) with
  | Some i => Some (erase w i)
  | None => Some (label_error w n "endif without matching if")
  end.
(** The end of a do-while.
    [src/src/modules/utils/player/OCodeHandler.cpp:468-478] OCodeHandler::process_line *)
Definition close_do_while (w : World) (i : nat) (f : Frame) (rest : list Z) : option World :=
  if any_frame_skipping w then Some (erase w i)
  else let '(w, v) := eval_expr w rest in
       if is_true v then Some (jump_back w f) else Some (erase w i).
(** [src/src/modules/utils/player/OCodeHandler.cpp:464-519] OCodeHandler::process_line *)
Definition do_while (w : World) (line : list Z) (n : Z) (rest : list Z) : option World :=
  match find_top (is_block DO n) (stack w) with
  | Some i => f ← stack w !! i; close_do_while w i f rest
  | None =>
      if stack_full w then Some (told w (halt_error n "while exceeded max nesting depth"))
      else
        let f := mk_frame n WHILE (ftell (fh w) - Z.of_nat (length (c_string line))) false false 0 [] 0 (s32 (file_line w)) in
        if any_frame_skipping w then Some (push w f)
        else let '(w, v) := eval_expr w rest in
             if is_true v then Some (push w (f <| executing := true |>))
             else '(w, _) ← skip_block w "while" "endwhile" n (Some "while has no matching endwhile"%string); Some w
  end.
(** [src/src/modules/utils/player/OCodeHandler.cpp:522-537] OCodeHandler::process_line *)
Definition do_endwhile (w : World) (n : Z) : option World :=
  match find_top (is_block WHILE n) (stack w) with
  | Some i =>
      f ← stack w !! i;
      Some (erase (if any_frame_skipping w then w else jump_back w f) i)
  | None => Some (label_error w n "endwhile without matching while")
  end.
(** [src/src/modules/utils/player/OCodeHandler.cpp:540-558] OCodeHandler::process_line *)
Definition do_do (w : World) (n : Z) : option World :=
  if stack_full w then Some (told w (halt_error n "do exceeded max nesting depth"))
  else Some (push w (mk_frame n DO (ftell (fh w)) (negb (any_frame_skipping w)) false 0 [] 0 (s32 (file_line w + 1)))).
(** [src/src/modules/utils/player/OCodeHandler.cpp:561-595] OCodeHandler::process_line *)
Definition do_repeat (w : World) (n : Z) (rest : list Z) : option World :=
  if stack_full w then Some (told w (halt_error n "repeat exceeded max nesting depth"))
  else
    let '(w, count) := if any_frame_skipping w then (w, 0)
                       else let '(w, v) := eval_expr w rest in (w, float_to_int v) in
    if negb (any_frame_skipping w) && (0 <? count)
    then Some (push w (mk_frame n REPEAT (ftell (fh w)) true false count [] 0 (s32 (file_line w + 1))))
    else '(w, _) ← skip_block w "repeat" "endrepeat" n (Some "repeat has no matching endrepeat"%string); Some w.
Definition count_down (w : World) (i : nat) : World :=
  set_stack w (alter (fun f => f <| repeat_count := s32 (repeat_count f - 1) |>) i (stack w)).
(** [src/src/modules/utils/player/OCodeHandler.cpp:598-617] OCodeHandler::process_line *)
Definition do_endrepeat (w : World) (n : Z) : option World :=
  match find_top (is_block REPEAT n) (stack w) with
  | Some i =>
      if any_frame_skipping w then Some (erase w i)
      else
        let w := count_down w i in
        f ← stack w !! i;
        if 0 <? repeat_count f then Some (jump_back w f) else Some (erase w i)
  | None => Some (label_error w n "endrepeat without matching repeat")
  end.
(** [src/src/modules/utils/player/OCodeHandler.cpp:620-643] OCodeHandler::process_line *)
Definition do_break (w : World) (n : Z) : option World :=
  if any_frame_skipping w then Some w
  else match find_loop_frame w n with
  | None => Some (label_error w n "break does not point to a matching loop")
  | Some i =>
      f ← stack w !! i;
      let w := set_stack w (take i (stack w)) in
      let '(open_kw, close_kw) := match type_ f with
        | WHILE => ("while", "endwhile") | DO => ("do", "while") | _ => ("repeat", "endrepeat") end%string in
      '(w, _) ← skip_block w open_kw close_kw n (Some "break: could not find end of loop"%string); Some w
  end.
(** [src/src/modules/utils/player/OCodeHandler.cpp:646-698] OCodeHandler::process_line *)
Definition do_continue (w : World) (n : Z) : option World :=
  if any_frame_skipping w then Some w
  else match find_loop_frame w n with
  | None => Some (label_error w n "continue does not point to a matching loop")
  | Some i =>
      f ← stack w !! i;
      match type_ f with
      | WHILE => Some (jump_back (set_stack w (take i (stack w))) f)
      | DO =>
          let w := set_stack w (take (S i) (stack w)) in
          '(w, r) ← skip_block w "do" "while" n (Some "continue: could not find end of do-while"%string);
          let '(w, v) := eval_expr w (default [] r) in
          if is_true v then Some (jump_back w f) else Some (erase w i)
      | _ =>
          let w := count_down (set_stack w (take (S i) (stack w))) i in
          f ← stack w !! i;
          if 0 <? repeat_count f then Some (jump_back w f)
          else '(w, _) ← skip_block w "repeat" "endrepeat" n None; Some (erase w i)
      end
  end.
(** [None] for fuel, which is enough ([process_line_total]); the flag says
    whether the line was an O-code.
    [src/src/modules/utils/player/OCodeHandler.cpp:296-702] OCodeHandler::process_line *)
Definition process_line (halts : nat -> bool) (line : list Z) (w : World) : option (World * bool) :=
  match parse_ocode line with
  | None => Some (w, false)
  | Some (n, kw, rest) =>
      let kwd s := bool_decide (kw = chars s) in
      w ← (if kwd "sub"%string then do_sub w n
           else if kwd "endsub"%string || kwd "return"%string then do_endsub w
           else if kwd "call"%string then do_call halts w n rest
           else if kwd "if"%string then do_if w n rest
           else if kwd "elseif"%string then do_elseif w n rest
           else if kwd "else"%string then do_else w n
           else if kwd "endif"%string then do_endif w n
           else if kwd "while"%string then do_while w line n rest
           else if kwd "endwhile"%string then do_endwhile w n
           else if kwd "do"%string then do_do w n
           else if kwd "repeat"%string then do_repeat w n rest
           else if kwd "endrepeat"%string then do_endrepeat w n
           else if kwd "break"%string then do_break w n
           else if kwd "continue"%string then do_continue w n
           else Some (told w (halt_error n "unknown O-code keyword")));
      Some (w, true)
  end.
End Handler.

(** ** The player's loop over the lines of a file *)
Section Playing.
Context {K : Type} `{Kernel K} (dispatch : K -> list Z -> K) (halts : nat -> bool).

(** How one turn round the loop ends: with the next line, out of the loop (a line
    dispatched, or an O-code obeyed), or at the end of the file. *)
Inductive Outcome := goes_on | returns (dispatched : option (list Z)) | source_ended.
(** [discard] is set while a line too long for the buffer is read.
    [src/src/modules/utils/player/Player.cpp:1665-1813] Player::on_main_loop *)
Definition line_iteration (w : World) (discard : bool) : option (World * bool * Outcome) :=
  match fgets 130 (fh w) with
  | (f, None) => Some (w <| fh := f |>, discard, source_ended)
  | (f, Some buf) =>
      let w := w <| fh := f |> in
      let len := length (c_string buf) in
      if (len =? 0)%nat then Some (w, discard, goes_on)
      else if (List.last (c_string buf) 0 =? 10) || eof f then
        if discard then Some (w, false, goes_on)
        else
          let w := w <| file_line := u32 (file_line w + 1) |> in
          if (len =? 1)%nat then Some (w, false, goes_on)
          else
            '(w, consumed) ← process_line halts (c_string buf) w;
            if consumed : bool then Some (w, false, if is_skipping w then goes_on else returns None)
            else if is_skipping w then Some (w, false, goes_on)
            else Some (w <| kernel := dispatch (kernel w) (c_string buf) |>, false, returns (Some (c_string buf)))
      else Some (w, true, goes_on)
  end.
(** One call of the main loop, up to [fuel] lines.
    [src/src/modules/utils/player/Player.cpp:1665-1813] Player::on_main_loop *)
Fixpoint play_turn (fuel : nat) (w : World) (discard : bool) : option (World * Outcome) :=
  match fuel with
  | O => None
  | S fuel =>
      '(w, discard, o) ← line_iteration w discard;
      match o with goes_on => play_turn fuel w discard | _ => Some (w, o) end
  end.
(** The lines dispatched along a run of such turns. *)
Inductive runs (w : World) : list (list Z) -> World -> Prop :=
| runs_here : runs w [] w
| runs_on w1 o ls w2 :
    line_iteration w false = Some (w1, false, o) -> o <> source_ended -> runs w1 ls w2 ->
    runs w (match o with returns (Some l) => l :: ls | _ => ls end) w2.
Lemma runs_trans w1 l1 w2 l2 w3 : runs w1 l1 w2 -> runs w2 l2 w3 -> runs w1 (l1 ++ l2) w3.
Proof.
  induction 1 as [|w1 wa o ls wb Hi Ho Hr IH]; [done|]. intros H2. specialize (IH H2).
  replace ((match o with returns (Some l) => l :: ls | _ => ls end) ++ l2)
    with (match o with returns (Some l) => l :: (ls ++ l2) | _ => ls ++ l2 end) by (by destruct o as [|[]|]).
  by eapply runs_on.
Qed.

(** ** Structured programs

    A file as its author means it: lines, conditionals and loops, each with the
    text of its own lines. *)
Inductive prog :=
| p_end
| p_line (l : list Z) (p : prog)
| p_if (n : Z) (hd c : list Z) (b : prog) (e : clauses) (p : prog)
| p_while (n : Z) (hd c : list Z) (b : prog) (tl : list Z) (p : prog)
| p_do (n : Z) (hd : list Z) (b : prog) (tl c : list Z) (p : prog)
| p_repeat (n : Z) (hd c : list Z) (b : prog) (tl : list Z) (p : prog)
with clauses :=
| c_end (tl : list Z)
| c_elseif (hd c : list Z) (b : prog) (e : clauses)
| c_else (hd : list Z) (b : prog) (tl : list Z).
Scheme prog_mut := Induction for prog Sort Prop with clauses_mut := Induction for clauses Sort Prop.
Combined Scheme prog_clauses_ind from prog_mut, clauses_mut.

Fixpoint text (p : prog) : list (list Z) :=
  match p with
  | p_end => []
  | p_line l p => l :: text p
  | p_if _ hd _ b e p => hd :: text b ++ clauses_text e ++ text p
  | p_while _ hd _ b tl p => hd :: text b ++ tl :: text p
  | p_do _ hd b tl _ p => hd :: text b ++ tl :: text p
  | p_repeat _ hd _ b tl p => hd :: text b ++ tl :: text p
  end
with clauses_text (e : clauses) : list (list Z) :=
  match e with
  | c_end tl => [tl]
  | c_elseif hd _ b e => hd :: text b ++ clauses_text e
  | c_else hd b tl => hd :: text b ++ [tl]
  end.

(** A line the player's buffer takes whole. *)
Definition proper (l : list Z) : Prop :=
  exists t, l = t ++ [10] /\ Forall (fun c => c <> 10 /\ c <> 0) t /\ (length t <= 128)%nat.
Definition reads (l : list Z) (n : Z) (kw : string) (c : list Z) : Prop := proper l /\ parse_ocode l = Some (n, chars kw, c).
(** At depth [d], inside [do]s numbered [dos]: blocks are nested ten deep at most,
    each line is what its block says, and a [while] does not bear the number of a
    [do] around it, which it would close. *)
Fixpoint well_formed (d : nat) (dos : list Z) (p : prog) : Prop :=
  match p with
  | p_end => True
  | p_line l p => proper l /\ parse_ocode l = None /\ well_formed d dos p
  | p_if n hd c b e p =>
      reads hd n "if" c /\ (d < OCODE_MAX_STACK_DEPTH)%nat /\ well_formed (S d) dos b /\ well_formed_clauses (S d) dos n e /\
      well_formed d dos p
  | p_while n hd c b tl p =>
      reads hd n "while" c /\ (n ∉ dos) /\ (d < OCODE_MAX_STACK_DEPTH)%nat /\ well_formed (S d) dos b /\
      (exists r, reads tl n "endwhile" r) /\ well_formed d dos p
  | p_do n hd b tl c p =>
      (exists r, reads hd n "do" r) /\ (d < OCODE_MAX_STACK_DEPTH)%nat /\ well_formed (S d) (dos ++ [n]) b /\
      reads tl n "while" c /\ well_formed d dos p
  | p_repeat n hd c b tl p =>
      reads hd n "repeat" c /\ (d < OCODE_MAX_STACK_DEPTH)%nat /\ well_formed (S d) dos b /\
      (exists r, reads tl n "endrepeat" r) /\ well_formed d dos p
  end
with well_formed_clauses (d : nat) (dos : list Z) (n : Z) (e : clauses) : Prop :=
  match e with
  | c_end tl => exists r, reads tl n "endif" r
  | c_elseif hd c b e => reads hd n "elseif" c /\ well_formed d dos b /\ well_formed_clauses d dos n e
  | c_else hd b tl => (exists r, reads hd n "else" r) /\ well_formed d dos b /\ exists r, reads tl n "endif" r
  end.

(** What a program means: the lines dispatched, from one state of the kernel to
    another. Blank lines are not dispatched. *)
Definition value (k : K) (c : list Z) : K * Z := fst (evaluate k c).
Inductive exec : prog -> K -> list (list Z) -> K -> Prop :=
| x_end k : exec p_end k [] k
| x_line l p k o k' : length l <> 1%nat -> exec p (dispatch k l) o k' -> exec (p_line l p) k (l :: o) k'
| x_blank l p k o k' : length l = 1%nat -> exec p k o k' -> exec (p_line l p) k o k'
| x_if_true n hd c b e p k k1 v o1 k2 o2 k3 :
    value k c = (k1, v) -> is_true v = true -> exec b k1 o1 k2 -> exec p k2 o2 k3 ->
    exec (p_if n hd c b e p) k (o1 ++ o2) k3
| x_if_false n hd c b e p k k1 v o1 k2 o2 k3 :
    value k c = (k1, v) -> is_true v = false -> exec_clauses e k1 o1 k2 -> exec p k2 o2 k3 ->
    exec (p_if n hd c b e p) k (o1 ++ o2) k3
| x_while_again n hd c b tl p k k1 v o1 k2 o2 k3 :
    value k c = (k1, v) -> is_true v = true -> exec b k1 o1 k2 -> exec (p_while n hd c b tl p) k2 o2 k3 ->
    exec (p_while n hd c b tl p) k (o1 ++ o2) k3
| x_while_done n hd c b tl p k k1 v o k2 :
    value k c = (k1, v) -> is_true v = false -> exec p k1 o k2 -> exec (p_while n hd c b tl p) k o k2
| x_do n hd b tl c p k o1 k1 o2 k2 : exec_do b c k o1 k1 -> exec p k1 o2 k2 -> exec (p_do n hd b tl c p) k (o1 ++ o2) k2
| x_repeat n hd c b tl p k k1 v o1 k2 o2 k3 :
    value k c = (k1, v) -> exec_times (Z.to_nat (float_to_int v)) b k1 o1 k2 -> exec p k2 o2 k3 ->
    exec (p_repeat n hd c b tl p) k (o1 ++ o2) k3
with exec_clauses : clauses -> K -> list (list Z) -> K -> Prop :=
| x_none tl k : exec_clauses (c_end tl) k [] k
| x_elseif_true hd c b e k k1 v o k2 :
    value k c = (k1, v) -> is_true v = true -> exec b k1 o k2 -> exec_clauses (c_elseif hd c b e) k o k2
| x_elseif_false hd c b e k k1 v o k2 :
    value k c = (k1, v) -> is_true v = false -> exec_clauses e k1 o k2 -> exec_clauses (c_elseif hd c b e) k o k2
| x_else hd b tl k o k' : exec b k o k' -> exec_clauses (c_else hd b tl) k o k'
with exec_do : prog -> list Z -> K -> list (list Z) -> K -> Prop :=
| x_do_again b c k o1 k1 k2 v o2 k3 :
    exec b k o1 k1 -> value k1 c = (k2, v) -> is_true v = true -> exec_do b c k2 o2 k3 -> exec_do b c k (o1 ++ o2) k3
| x_do_done b c k o1 k1 k2 v : exec b k o1 k1 -> value k1 c = (k2, v) -> is_true v = false -> exec_do b c k o1 k2
with exec_times : nat -> prog -> K -> list (list Z) -> K -> Prop :=
| x_times_0 b k : exec_times 0 b k [] k
| x_times_S m b k o1 k1 o2 k2 : exec b k o1 k1 -> exec_times m b k1 o2 k2 -> exec_times (S m) b k (o1 ++ o2) k2.
Scheme exec_mut := Minimality for exec Sort Prop with exec_clauses_mut := Minimality for exec_clauses Sort Prop
  with exec_do_mut := Minimality for exec_do Sort Prop with exec_times_mut := Minimality for exec_times Sort Prop.
Combined Scheme exec_all_ind from exec_mut, exec_clauses_mut, exec_do_mut, exec_times_mut.

(** ** Reading a file of proper lines *)

Lemma take_to_newline_line t r n :
  Forall (fun c => c <> 10 /\ c <> 0) t -> (length t < n)%nat -> take_to_newline n (t ++ 10 :: r) = (t ++ [10], false).
Proof.
  revert n. induction t as [|c t IH]; intros [|n] Ht Hn; cbn [length] in Hn; try lia; cbn [app take_to_newline]; [done|].
  apply Forall_cons_iff in Ht as [[Hc _] Ht]. apply Z.eqb_neq in Hc as ->. rewrite IH by (done || lia). done.
Qed.
Lemma c_string_proper l : proper l -> c_string l = l.
Proof.
  intros (t & -> & Ht & _). induction Ht as [|c t [_ Hc] _ IH]; [done|]. cbn [app c_string].
  apply Z.eqb_neq in Hc as ->. by rewrite IH.
Qed.
Lemma proper_shape l : proper l -> l <> [] /\ List.last l 0 = 10 /\ (1 <= length l <= 129)%nat.
Proof. intros (t & -> & _ & Hl). rewrite last_last, length_app. cbn [length]. split; [by destruct t|]. split; [done|lia]. Qed.

(** The file's lines, and where line [i] starts. *)
Section Lines.
Context (ls : list (list Z)) (Hls : Forall proper ls) (subs : gmap Z SubEntry) (ps pf : bool) (nt : list Note).
Definition offset (i : nat) : nat := length (concat (take i ls)).
(** The handler about to read line [i], its counter up to date. *)
Definition at_line (i : nat) (tol : bool) (s : list Frame) (k : K) : World :=
  mk_world (mk_ocode s subs ps pf tol) (mk_file (concat ls) (offset i) false) (u32 (Z.of_nat i)) k nt.

Lemma offset_next i l : ls !! i = Some l -> offset (S i) = (offset i + length l)%nat.
Proof. intros Hi. unfold offset. rewrite (take_S_r _ _ _ Hi), concat_app, length_app. cbn [concat]. by rewrite app_nil_r. Qed.
Lemma drop_offset i l : ls !! i = Some l -> drop (offset i) (concat ls) = l ++ concat (drop (S i) ls).
Proof.
  intros Hi. rewrite <- (take_drop_middle _ _ _ Hi) at 1. rewrite concat_app. unfold offset. rewrite drop_app_length. done.
Qed.
Lemma fgets_line i l :
  ls !! i = Some l ->
  fgets 130 (mk_file (concat ls) (offset i) false) = (mk_file (concat ls) (offset (S i)) false, Some l).
Proof.
  intros Hi. assert (Hp : proper l) by exact (Forall_lookup_1 _ _ _ _ Hls Hi). unfold fgets. cbn [content fpos].
  rewrite (drop_offset _ _ Hi). destruct Hp as (t & -> & Ht & Hl). rewrite <- app_assoc. cbn [app].
  rewrite take_to_newline_line by (done || lia). rewrite (offset_next _ _ Hi). by destruct t.
Qed.
Lemma fgets_end : fgets 130 (mk_file (concat ls) (offset (length ls)) false) =
  (mk_file (concat ls) (offset (length ls)) true, None).
Proof. unfold fgets, offset. cbn [content fpos]. rewrite firstn_all, drop_all. done. Qed.
Lemma fseek_offset f i : content f = concat ls -> fseek f (Z.of_nat (offset i)) = mk_file (concat ls) (offset i) false.
Proof. intros Hc. unfold fseek. destruct (Z.ltb_spec (Z.of_nat (offset i)) 0); [lia|]. rewrite Nat2Z.id. destruct f. cbn in Hc. by subst. Qed.

Lemma u32_next i : u32 (u32 (Z.of_nat i) + 1) = u32 (Z.of_nat (S i)).
Proof. ints. Qed.
Lemma u32_skip i j : u32 (u32 (Z.of_nat i) + Z.of_nat j) = u32 (Z.of_nat (i + j)).
Proof. rewrite Nat2Z.inj_add. unfold wrap. by rewrite Zplus_mod_idemp_l. Qed.
Lemma u32_back i : u32 (s32 (u32 (Z.of_nat i)) - 1) = u32 (Z.of_nat i - 1).
Proof. ints. Qed.

(** A line read, and given to the handler if it is not blank. *)
Lemma iteration_reads i l tol s k :
  ls !! i = Some l ->
  line_iteration (at_line i tol s k) false =
    if (length l =? 1)%nat then Some (at_line (S i) tol s k, false, goes_on)
    else '(w, consumed) ← process_line halts l (at_line (S i) tol s k);
         if consumed : bool then Some (w, false, if is_skipping w then goes_on else returns None)
         else if is_skipping w then Some (w, false, goes_on)
         else Some (w <| kernel := dispatch (kernel w) l |>, false, returns (Some l)).
Proof.
  intros Hi. assert (Hp : proper l) by exact (Forall_lookup_1 _ _ _ _ Hls Hi). unfold line_iteration, at_line. cbn [fh].
  rewrite (fgets_line _ _ Hi), (c_string_proper _ Hp). destruct (proper_shape _ Hp) as (Hne & Hl & Hlen).
  destruct (Nat.eqb_spec (length l) 0); [lia|]. rewrite Hl. cbn [Z.eqb orb].
  change (10 =? 10) with true. cbn [orb]. rewrite <- !(u32_next i). reflexivity.
Qed.

(** *** Segments of the file *)
Definition holds_at (i : nat) (t : list (list Z)) : Prop := forall j l, t !! j = Some l -> ls !! (i + j)%nat = Some l.
Lemma holds_at_cons i l t : holds_at i (l :: t) <-> ls !! i = Some l /\ holds_at (S i) t.
Proof.
  split.
  - intros H0. split; [specialize (H0 0%nat l eq_refl); by rewrite Nat.add_0_r in H0|].
    intros j m Hj. replace (S i + j)%nat with (i + S j)%nat by lia. by apply H0.
  - intros [Hl Ht] [|j] m Hj; cbn in Hj; [injection Hj as <-; by rewrite Nat.add_0_r|].
    replace (i + S j)%nat with (S i + j)%nat by lia. by apply Ht.
Qed.
Lemma holds_at_app i t u : holds_at i (t ++ u) <-> holds_at i t /\ holds_at (i + length t) u.
Proof.
  revert i. induction t as [|l t IH]; intros i; cbn [app length].
  - rewrite Nat.add_0_r. split; [intros H0; split; [by intros j m Hj|done]|by intros [_ ?]].
  - rewrite !holds_at_cons, IH. replace (i + S (length t))%nat with (S i + length t)%nat by lia. tauto.
Qed.

(** A line that is an O-code is given to the handler. *)
Lemma reads_length l n kw c : reads l n kw c -> length l <> 1%nat.
Proof.
  intros [(t & -> & _ & _) Hp] Hl. rewrite length_app in Hl. cbn [length] in Hl. destruct t; cbn [length] in Hl; [|lia].
  vm_compute in Hp. discriminate.
Qed.
Lemma run_code i l n kw c tol s k w' :
  ls !! i = Some l -> reads l n kw c -> process_line halts l (at_line (S i) tol s k) = Some (w', true) ->
  runs (at_line i tol s k) [] w'.
Proof.
  intros Hi Hr Hp. pose proof (iteration_reads i l tol s k Hi) as Hit.
  destruct (Nat.eqb_spec (length l) 1) as [Hl|_]; [by apply reads_length in Hr|]. rewrite Hp in Hit. cbn [mbind option_bind] in Hit.
  replace (@nil (list Z)) with (match (if is_skipping w' then goes_on else returns None) with returns (Some l) => [l] | _ => [] end)
    by (by destruct (is_skipping w')).
  eapply runs_on; [exact Hit|by destruct (is_skipping w')|apply runs_here].
Qed.
Lemma run_plain i l tol s k :
  ls !! i = Some l -> parse_ocode l = None ->
  runs (at_line i tol s k) (if (length l =? 1)%nat || existsb (fun f => negb (executing f)) s then [] else [l])
    (at_line (S i) tol s (if (length l =? 1)%nat || existsb (fun f => negb (executing f)) s then k else dispatch k l)).
Proof.
  intros Hi Hp. pose proof (iteration_reads i l tol s k Hi) as Hit. unfold process_line in Hit. rewrite Hp in Hit.
  cbn [mbind option_bind] in Hit. change (is_skipping (at_line (S i) tol s k)) with (existsb (fun f => negb (executing f)) s) in Hit.
  destruct (length l =? 1)%nat; cbn [orb]; [by eapply (runs_on _ _ goes_on); [exact Hit|done|apply runs_here]|].
  destruct (existsb _ s); [by eapply (runs_on _ _ goes_on); [exact Hit|done|apply runs_here]|].
  by eapply (runs_on _ _ (returns (Some l))); [exact Hit|done|apply runs_here].
Qed.
(** Gives the handler's branch for a line whose keyword is known. *)
Ltac keyword Hr := unfold process_line; rewrite (proj2 Hr); cbv beta zeta; decides; cbn [orb andb].

(** *** The stack *)
Lemma find_top_last p s f : p f = true -> find_top p (s ++ [f]) = Some (length s).
Proof. intros Hp. induction s as [|g s IH]; cbn [app find_top length]; [by rewrite Hp|by rewrite IH]. Qed.
Lemma find_top_none p s : Forall (fun f => p f = false) s -> find_top p s = None.
Proof. induction 1 as [|f s Hf _ IH]; [done|]. cbn [find_top]. by rewrite IH, Hf. Qed.
Lemma delete_last (s : list Frame) f : delete (length s) (s ++ [f]) = s.
Proof. induction s as [|g s IH]; [done|]. cbn. f_equal. exact IH. Qed.
Lemma alter_last g (s : list Frame) f : alter g (length s) (s ++ [f]) = s ++ [g f].
Proof. induction s as [|h s IH]; [done|]. cbn. f_equal. exact IH. Qed.
Lemma lookup_last (s : list Frame) f : (s ++ [f]) !! length s = Some f.
Proof. by apply list_lookup_middle. Qed.

(** The [do]s on the stack bear numbers of the list. *)
Definition stack_dos (s : list Frame) (dos : list Z) : Prop := Forall (fun f => type_ f = DO -> num f ∈ dos) s.
Lemma stack_dos_push s dos f : stack_dos s dos -> type_ f <> DO -> stack_dos (s ++ [f]) dos.
Proof. intros Hs Hf. apply Forall_app_2; [done|]. by apply Forall_singleton. Qed.
Lemma stack_dos_do s dos f : stack_dos s dos -> stack_dos (s ++ [f]) (dos ++ [num f]).
Proof.
  intros Hs. apply Forall_app_2; [eapply Forall_impl; [exact Hs|]; intros g Hg Ht; apply elem_of_app; left; by apply Hg|].
  apply Forall_singleton. intros _. apply elem_of_app. right. left.
Qed.
Lemma no_do s dos n : stack_dos s dos -> n ∉ dos -> find_top (is_block DO n) s = None.
Proof.
  intros Hs Hn. apply find_top_none. eapply Forall_impl; [exact Hs|]. intros f Hf. unfold is_block.
  destruct (bool_decide_reflect (type_ f = DO)) as [Ht|]; [|done]. cbn [andb]. apply Z.eqb_neq. intros <-. by apply Hn, Hf.
Qed.
Abbreviation skipping := (fun s : list Frame => existsb (fun f => negb (executing f)) s).
Lemma skipping_push s f : skipping (s ++ [f]) = skipping s || negb (executing f).
Proof. rewrite existsb_app. cbn [existsb]. by rewrite orb_false_r. Qed.
Lemma not_full i tol s k d : (length s <= d)%nat -> (d < OCODE_MAX_STACK_DEPTH)%nat -> stack_full (at_line i tol s k) = false.
Proof. intros Hs Hd. unfold stack_full. apply Nat.leb_gt. change (stack (at_line i tol s k)) with s. lia. Qed.

(** *** Skipping over a segment *)
Definition open_of (w : bool) : string := if w then "while" else "repeat".
Definition close_of (w : bool) : string := if w then "endwhile" else "endrepeat".
Definition file_at (i : nat) : File := mk_file (concat ls) (offset i) false.

Lemma skip_line fuel i l wh tgt depth ds lines :
  ls !! i = Some l ->
  skip_loop (S fuel) (file_at i) (chars (open_of wh)) (chars (close_of wh)) tgt depth ds lines =
  match parse_ocode l with
  | None => skip_loop fuel (file_at (S i)) (chars (open_of wh)) (chars (close_of wh)) tgt depth ds (lines + 1)
  | Some (n, kw, rest) =>
      if wh && bool_decide (kw = chars "do") then
        let ds := if (length ds <? OCODE_MAX_STACK_DEPTH)%nat then ds ++ [n] else ds in
        skip_loop fuel (file_at (S i)) (chars (open_of wh)) (chars (close_of wh)) tgt depth ds (lines + 1)
      else if bool_decide (kw = chars (open_of wh)) then
        match (if wh then close_do ds n else None) with
        | Some ds => skip_loop fuel (file_at (S i)) (chars (open_of wh)) (chars (close_of wh)) tgt depth ds (lines + 1)
        | None => skip_loop fuel (file_at (S i)) (chars (open_of wh)) (chars (close_of wh)) tgt (depth + 1) ds (lines + 1)
        end
      else if bool_decide (kw = chars (close_of wh)) then
        if depth =? 0 then
          if (tgt <? 0) || (n =? tgt) then Some (file_at (S i), lines + 1, Some rest)
          else skip_loop fuel (file_at (S i)) (chars (open_of wh)) (chars (close_of wh)) tgt depth ds (lines + 1)
        else skip_loop fuel (file_at (S i)) (chars (open_of wh)) (chars (close_of wh)) tgt (depth - 1) ds (lines + 1)
      else skip_loop fuel (file_at (S i)) (chars (open_of wh)) (chars (close_of wh)) tgt depth ds (lines + 1)
  end.
Proof.
  intros Hi. cbn [skip_loop]. unfold file_at at 1. rewrite (fgets_line _ _ Hi).
  destruct wh; cbn [open_of close_of]; decides; cbn [andb]; by destruct (parse_ocode l) as [[[? ?] ?]|].
Qed.

Lemma close_do_last ds n : close_do (ds ++ [n]) n = Some ds.
Proof.
  unfold close_do. rewrite length_app, Nat.add_1_r, seq_S, rev_unit. cbn [List.find Nat.add].
  rewrite app_nth2, Nat.sub_diag by lia. cbn [List.nth]. rewrite Z.eqb_refl. f_equal.
  rewrite Nat.sub_succ, Nat.sub_0_r, last_last, take_insert_ge by lia. by rewrite take_app_length.
Qed.
Lemma close_do_none ds n : n ∉ ds -> close_do ds n = None.
Proof.
  intros Hn. unfold close_do. destruct (List.find _ _) as [j|] eqn:Hf; [|done]. exfalso.
  apply List.find_some in Hf as [Hin He]. apply in_rev, in_seq in Hin. apply Z.eqb_eq in He. apply Hn. rewrite <- He.
  apply list_elem_of_In, nth_In. lia.
Qed.

(** What each kind of line does to a search, for [endwhile] ([wh]) or [endrepeat]. *)
Definition neutral (kw : string) : bool :=
  forallb (fun o => negb (bool_decide (chars kw = chars o))) ["do"; "while"; "endwhile"; "repeat"; "endrepeat"]%string.
Abbreviation search wh tgt := (fun fuel i depth ds lines =>
  skip_loop fuel (file_at i) (chars (open_of wh)) (chars (close_of wh)) tgt depth ds lines).
Lemma skip_neutral wh tgt fuel i l n kw c depth ds lines :
  ls !! i = Some l -> reads l n kw c -> neutral kw = true ->
  search wh tgt (S fuel) i depth ds lines = search wh tgt fuel (S i) depth ds (lines + 1).
Proof.
  intros Hi Hr Hn. cbv beta. rewrite (skip_line _ _ _ _ _ _ _ _ Hi), (proj2 Hr). unfold neutral in Hn. cbn [forallb] in Hn.
  rewrite !andb_true_iff, !negb_true_iff in Hn. destruct Hn as (H1 & H2 & H3 & H4 & H5 & _).
  destruct wh; cbn [open_of close_of andb]; by rewrite ?H1, ?H2, ?H3, ?H4, ?H5.
Qed.
Ltac searched Hi Hr := cbv beta; rewrite (skip_line _ _ _ _ _ _ _ _ Hi), (proj2 Hr); cbv beta zeta; cbn [open_of close_of andb]; decides.
Lemma skip_open wh kw tgt fuel i l n c depth ds lines :
  ls !! i = Some l -> reads l n (open_of kw) c -> n ∉ ds ->
  search wh tgt (S fuel) i depth ds lines = search wh tgt fuel (S i) (if eqb wh kw then depth + 1 else depth) ds (lines + 1).
Proof. intros Hi Hr Hn. destruct wh, kw; cbn [open_of] in Hr; searched Hi Hr; by rewrite ?(close_do_none _ _ Hn). Qed.
Lemma skip_close wh kw tgt fuel i l n c depth ds lines :
  ls !! i = Some l -> reads l n (close_of kw) c -> 0 <= depth ->
  search wh tgt (S fuel) i (if eqb wh kw then depth + 1 else depth) ds lines = search wh tgt fuel (S i) depth ds (lines + 1).
Proof.
  intros Hi Hr Hd. destruct wh, kw; cbn [close_of] in Hr; cbn [eqb]; searched Hi Hr; try done;
    (destruct (Z.eqb_spec (depth + 1) 0); [lia|]); by rewrite Z.add_simpl_r.
Qed.
Lemma skip_do wh tgt fuel i l n c depth ds lines :
  ls !! i = Some l -> reads l n "do" c -> (length ds < OCODE_MAX_STACK_DEPTH)%nat ->
  search wh tgt (S fuel) i depth ds lines = search wh tgt fuel (S i) depth (if wh then ds ++ [n] else ds) (lines + 1).
Proof. intros Hi Hr Hd. apply Nat.ltb_lt in Hd. destruct wh; searched Hi Hr; by rewrite ?Hd. Qed.
Lemma skip_do_while wh tgt fuel i l n c depth ds lines :
  ls !! i = Some l -> reads l n "while" c ->
  search wh tgt (S fuel) i depth (if wh then ds ++ [n] else ds) lines = search wh tgt fuel (S i) depth ds (lines + 1).
Proof. intros Hi Hr. destruct wh; searched Hi Hr; by rewrite ?close_do_last. Qed.

(** A well-formed segment is passed over without a trace, whatever is skipped. *)
Definition passed (wh : bool) (tgt : Z) (t : list (list Z)) (d : nat) (dos : list Z) : Prop :=
  forall i ds depth lines fuel, holds_at i t -> (length ds <= d)%nat -> ds ⊆ dos -> 0 <= depth ->
  search wh tgt (length t + fuel)%nat i depth ds lines = search wh tgt fuel (i + length t)%nat depth ds (lines + Z.of_nat (length t)).
Lemma passed_app wh tgt t u d dos : passed wh tgt t d dos -> passed wh tgt u d dos -> passed wh tgt (t ++ u) d dos.
Proof.
  intros Ht Hu i ds depth lines fuel Hi Hd Hs Hz. apply holds_at_app in Hi as [Hi1 Hi2].
  cbv beta. rewrite length_app, <- Nat.add_assoc. rewrite (Ht i ds depth lines (length u + fuel)%nat) by done.
  rewrite (Hu _ ds depth _ fuel) by done. rewrite Nat2Z.inj_add, Nat.add_assoc, Z.add_assoc. done.
Qed.
Lemma passed_line wh tgt l d dos :
  (forall fuel i depth ds lines, ls !! i = Some l -> (length ds <= d)%nat -> ds ⊆ dos -> 0 <= depth ->
     search wh tgt (S fuel) i depth ds lines = search wh tgt fuel (S i) depth ds (lines + 1)) ->
  passed wh tgt [l] d dos.
Proof.
  intros Hl i ds depth lines fuel Hi Hd Hs Hz. apply holds_at_cons in Hi as [Hi _]. cbn [length Nat.add].
  rewrite Hl by done. by rewrite Nat.add_1_r.
Qed.
Lemma passed_neutral wh tgt l n kw c d dos : reads l n kw c -> neutral kw = true -> passed wh tgt [l] d dos.
Proof. intros Hr Hn. apply passed_line. intros. by eapply skip_neutral. Qed.
(** A block's opening and closing lines cancel. *)
Lemma passed_block wh kw tgt hd n c b tl m r d dos :
  reads hd n (open_of kw) c -> reads tl m (close_of kw) r -> n ∉ dos \/ kw = false ->
  passed wh tgt b d dos -> passed wh tgt (hd :: b ++ [tl]) d dos.
Proof.
  intros Hh Ht Hn Hb i ds depth lines fuel Hi Hd Hs Hz. apply holds_at_cons in Hi as [Hi1 Hi2]. apply holds_at_app in Hi2 as [Hi2 Hi3].
  apply holds_at_cons in Hi3 as [Hi3 _]. cbn [length]. rewrite length_app. cbn [length].
  replace (S (length b + 1) + fuel)%nat with (S (length b + S fuel)) by lia.
  assert (Hop : search wh tgt (S (length b + S fuel)) i depth ds lines =
    search wh tgt (length b + S fuel)%nat (S i) (if eqb wh kw then depth + 1 else depth) ds (lines + 1)).
  { destruct Hn as [Hn| ->]; [by eapply skip_open; [done|done|intros Hx; by apply Hn, Hs]|].
    cbn [open_of] in Hh; destruct wh; cbn [eqb]; searched Hi1 Hh; done. }
  cbv beta in *. rewrite Hop. rewrite Hb by (done || (destruct (eqb wh kw); lia)).
  rewrite (skip_close _ _ _ _ _ _ _ _ _ _ _ Hi3 Ht Hz). f_equal; [f_equal|]; lia.
Qed.
Lemma passed_do wh tgt hd n c b tl r d dos :
  reads hd n "do" c -> reads tl n "while" r -> (d < OCODE_MAX_STACK_DEPTH)%nat ->
  passed wh tgt b (S d) (dos ++ [n]) -> passed wh tgt (hd :: b ++ [tl]) d dos.
Proof.
  intros Hh Ht Hdm Hb i ds depth lines fuel Hi Hd Hs Hz. apply holds_at_cons in Hi as [Hi1 Hi2]. apply holds_at_app in Hi2 as [Hi2 Hi3].
  apply holds_at_cons in Hi3 as [Hi3 _]. cbn [length]. rewrite length_app. cbn [length].
  replace (S (length b + 1) + fuel)%nat with (S (length b + S fuel)) by lia.
  pose proof (skip_do wh tgt (length b + S fuel) i hd n c depth ds lines Hi1 Hh ltac:(lia)) as Ho. cbv beta in Ho |- *. rewrite Ho.
  pose proof (Hb (S i) (if wh then ds ++ [n] else ds) depth (lines + 1) (S fuel) Hi2) as Hm. cbv beta in Hm. rewrite Hm; [|..|done].
  - pose proof (skip_do_while wh tgt fuel (S i + length b) tl n r depth ds (lines + 1 + Z.of_nat (length b)) Hi3 Ht) as Hc.
    cbv beta in Hc. rewrite Hc. f_equal; [f_equal|]; lia.
  - destruct wh; rewrite ?length_app; cbn [length]; lia.
  - intros x Hx. destruct wh; [apply elem_of_app in Hx as [Hx|Hx]|]; apply elem_of_app; [left; by apply Hs|by right|left; by apply Hs].
Qed.
Lemma passed_deeper wh tgt t d dos : passed wh tgt t (S d) dos -> passed wh tgt t d dos.
Proof. intros Ht i ds depth lines fuel Hi Hd Hs Hz. apply Ht; try done. lia. Qed.

Lemma segment_passed wh tgt :
  (forall p d dos, well_formed d dos p -> passed wh tgt (text p) d dos) /\
  (forall e d dos n, well_formed_clauses d dos n e -> passed wh tgt (clauses_text e) d dos).
Proof.
  apply prog_clauses_ind; cbn [text clauses_text well_formed well_formed_clauses].
  - intros d dos _ i ds depth lines fuel _ _ _ _. cbn [length Nat.add]. by rewrite Nat.add_0_r, Z.add_0_r.
  - intros l p IH d dos (Hl & Hp & Hw). apply (passed_app _ _ [l]); [|by apply IH].
    apply passed_line. intros fuel i depth ds lines Hi _ _ _. cbv beta. by rewrite (skip_line _ _ _ _ _ _ _ _ Hi), Hp.
  - intros n hd c b IHb e IHe p IHp d dos (Hr & Hd & Hwb & Hwe & Hwp).
    apply (passed_app _ _ [hd]); [by eapply passed_neutral|].
    apply passed_app; [by apply passed_deeper, IHb|]. apply passed_app; [by eapply passed_deeper, IHe|by apply IHp].
  - intros n hd c b IHb tl p IHp d dos (Hr & Hn & Hd & Hwb & (r & Ht) & Hwp).
    change (hd :: text b ++ tl :: text p) with ((hd :: text b) ++ ([tl] ++ text p)). rewrite app_assoc.
    apply passed_app; [|by apply IHp]. eapply (passed_block wh true); [exact Hr|exact Ht|by left|by apply passed_deeper, IHb].
  - intros n hd b IHb tl c p IHp d dos ((r & Hr) & Hd & Hwb & Ht & Hwp).
    change (hd :: text b ++ tl :: text p) with ((hd :: text b) ++ ([tl] ++ text p)). rewrite app_assoc.
    apply passed_app; [|by apply IHp]. by eapply passed_do; [exact Hr|exact Ht|done|apply IHb].
  - intros n hd c b IHb tl p IHp d dos (Hr & Hd & Hwb & (r & Ht) & Hwp).
    change (hd :: text b ++ tl :: text p) with ((hd :: text b) ++ ([tl] ++ text p)). rewrite app_assoc.
    apply passed_app; [|by apply IHp]. eapply (passed_block wh false); [exact Hr|exact Ht|by right|by apply passed_deeper, IHb].
  - intros tl d dos n (r & Hr). by eapply passed_neutral.
  - intros hd c b IHb e IHe d dos n (Hr & Hwb & Hwe). apply (passed_app _ _ [hd]); [by eapply passed_neutral|].
    apply passed_app; [by apply IHb|by eapply IHe].
  - intros hd b IHb tl d dos n ((r & Hr) & Hwb & (r' & Ht)). apply (passed_app _ _ [hd]); [by eapply passed_neutral|].
    apply passed_app; [by apply IHb|by eapply passed_neutral].
Qed.

(** *** What each keyword does *)
Definition ran (i : nat) (s : list Frame) (k : K) (o : list (list Z)) (j : nat) (s' : list Frame) (k' : K) : Prop :=
  forall tol, exists tol', runs (at_line i tol s k) o (at_line j tol' s' k').
Lemma ran_trans i s k o j s' k' o' l s'' k'' :
  ran i s k o j s' k' -> ran j s' k' o' l s'' k'' -> ran i s k (o ++ o') l s'' k''.
Proof. intros H1 H2 tol. destruct (H1 tol) as [t1 R1]. destruct (H2 t1) as [t2 R2]. exists t2. by eapply runs_trans. Qed.
Lemma ran_after i s k j s' k' o' l s'' k'' : ran i s k [] j s' k' -> ran j s' k' o' l s'' k'' -> ran i s k o' l s'' k''.
Proof. intros H1 H2. exact (ran_trans _ _ _ [] _ _ _ _ _ _ _ H1 H2). Qed.
Lemma ran_before i s k o j s' k' l s'' k'' : ran i s k o j s' k' -> ran j s' k' [] l s'' k'' -> ran i s k o l s'' k''.
Proof. intros H1 H2. rewrite <- (app_nil_r o). by eapply ran_trans. Qed.
Lemma ran_code i l n kw c s k j s' k' :
  ls !! i = Some l -> reads l n kw c ->
  (forall tol, exists tol', process_line halts l (at_line (S i) tol s k) = Some (at_line j tol' s' k', true)) -> ran i s k [] j s' k'.
Proof. intros Hi Hr Hp tol. destruct (Hp tol) as [tol' H']. exists tol'. by eapply run_code. Qed.

Lemma eval_at i tol s k c k1 v : value k c = (k1, v) -> eval_expr (at_line i tol s k) c = (at_line i tol s k1, v).
Proof. intros Hv. unfold eval_expr, value in *. cbn [kernel at_line]. destruct (evaluate k c) as [[k2 v2] m]. cbn in Hv. by simplify_eq. Qed.
Lemma jump_back_at i j tol s k f :
  loop_offset f = Z.of_nat (offset i) -> u32 (jump_line f - 1) = u32 (Z.of_nat i) ->
  jump_back (at_line j tol s k) f = at_line i tol s k.
Proof.
  intros Ho Hj. unfold jump_back. rewrite Ho, Hj.
  change (fh (at_line j tol s k)) with (mk_file (concat ls) (offset j) false). by rewrite fseek_offset.
Qed.
Lemma lines_fit : (length ls <= length (concat ls))%nat.
Proof.
  assert (Hall : forall t, Forall proper t -> (length t <= length (concat t))%nat); [|by apply Hall].
  induction 1 as [|l t Hl _ IH]; [done|]. cbn [concat length]. rewrite length_app.
  destruct (proper_shape _ Hl) as (_ & _ & ?). lia.
Qed.
Lemma skip_block_at wh i tol s k b d dos tl n r m :
  well_formed d dos b -> holds_at i (text b ++ [tl]) -> reads tl n (close_of wh) r ->
  skip_block (at_line i tol s k) (open_of wh) (close_of wh) n m = Some (at_line (i + length (text b) + 1) tol s k, Some r).
Proof.
  intros Hw Hi Hr. apply holds_at_app in Hi as [Hi1 Hi2]. apply holds_at_cons in Hi2 as [Hi2 _].
  unfold skip_block, skip_to. cbn [fh at_line content].
  pose proof lines_fit as Hf. pose proof (lookup_lt_Some _ _ _ Hi2) as Hlt.
  replace (S (length (concat ls))) with (length (text b) + S (length (concat ls) - length (text b)))%nat by lia.
  pose proof (proj1 (segment_passed wh n) b d dos Hw i [] 0 0 (S (length (concat ls) - length (text b))) Hi1 ltac:(cbn; lia)
    ltac:(intros x Hx; by apply not_elem_of_nil in Hx) ltac:(lia)) as Hp.
  unfold file_at in Hp at 1. rewrite Hp. cbv beta. rewrite (skip_line _ _ _ _ _ _ _ _ Hi2), (proj2 Hr).
  assert (Hu : u32 (u32 (Z.of_nat i) + (0 + Z.of_nat (length (text b)) + 1)) = u32 (Z.of_nat (i + length (text b) + 1))).
  { replace (0 + Z.of_nat (length (text b)) + 1) with (Z.of_nat (length (text b) + 1)) by lia. by rewrite u32_skip, Nat.add_assoc. }
  replace (i + length (text b) + 1)%nat with (S (i + length (text b))) in Hu |- * by lia.
  assert (He : at_line (S (i + length (text b))) tol s k = (at_line i tol s k) <| fh := file_at (S (i + length (text b))) |>
    <| file_line := u32 (u32 (Z.of_nat i) + (0 + Z.of_nat (length (text b)) + 1)) |>) by by rewrite Hu.
  rewrite He.
  destruct wh; cbn [open_of close_of andb]; decides; by rewrite !Z.eqb_refl, orb_true_r.
Qed.

Definition if_frame n e b := mk_frame n IF 0 e b 0 [] 0 0.
Definition while_frame n i e := mk_frame n WHILE (Z.of_nat (offset i)) e false 0 [] 0 (s32 (u32 (Z.of_nat (S i)))).
Definition do_frame n i e := mk_frame n DO (Z.of_nat (offset i)) e false 0 [] 0 (s32 (u32 (Z.of_nat i) + 1)).
Definition repeat_frame n i c := mk_frame n REPEAT (Z.of_nat (offset i)) true false c [] 0 (s32 (u32 (Z.of_nat i) + 1)).
Lemma is_block_same t n f : type_ f = t -> num f = n -> is_block t n f = true.
Proof. intros <- <-. unfold is_block. by rewrite bool_decide_true, Z.eqb_refl. Qed.
Lemma top_block i tol s k f t n :
  type_ f = t -> num f = n -> find_top (is_block t n) (stack (at_line i tol (s ++ [f]) k)) = Some (length s).
Proof. intros Ht Hn. apply find_top_last. by apply is_block_same. Qed.
Lemma any_skipping i tol s k : any_frame_skipping (at_line i tol s k) = skipping s.
Proof. done. Qed.
Lemma push_at i tol s k f : push (at_line i tol s k) f = at_line i false (s ++ [f]) k.
Proof. done. Qed.
Lemma erase_at i tol s k f : erase (at_line i tol (s ++ [f]) k) (length s) = at_line i tol s k.
Proof. unfold erase. change (stack (at_line i tol (s ++ [f]) k)) with (s ++ [f]). by rewrite delete_last. Qed.
Lemma alter_at i tol s k f g :
  set_stack (at_line i tol (s ++ [f]) k) (alter g (length s) (stack (at_line i tol (s ++ [f]) k))) = at_line i tol (s ++ [g f]) k.
Proof. change (stack (at_line i tol (s ++ [f]) k)) with (s ++ [f]). by rewrite alter_last. Qed.
Lemma top_at i tol s k f : stack (at_line i tol (s ++ [f]) k) !! length s = Some f.
Proof. apply lookup_last. Qed.

Ltac coded Hi Hr := eapply ran_code; [exact Hi|exact Hr|]; intros tol; keyword Hr.

Lemma ran_if i l n c s k k1 v d :
  ls !! i = Some l -> reads l n "if" c -> (length s <= d)%nat -> (d < OCODE_MAX_STACK_DEPTH)%nat -> skipping s = false ->
  value k c = (k1, v) -> ran i s k [] (S i) (s ++ [if_frame n (is_true v) (is_true v)]) k1.
Proof.
  intros Hi Hr Hs Hd Hsk Hv. coded Hi Hr. exists false. unfold do_if. rewrite (not_full _ _ _ _ _ Hs Hd), any_skipping, Hsk.
  by rewrite (eval_at _ _ _ _ _ _ _ Hv).
Qed.
Lemma ran_if_skipped i l n c s k d :
  ls !! i = Some l -> reads l n "if" c -> (length s <= d)%nat -> (d < OCODE_MAX_STACK_DEPTH)%nat -> skipping s = true ->
  ran i s k [] (S i) (s ++ [if_frame n false true]) k.
Proof. intros Hi Hr Hs Hd Hsk. coded Hi Hr. exists false. unfold do_if. by rewrite (not_full _ _ _ _ _ Hs Hd), any_skipping, Hsk. Qed.
Lemma ran_elseif_taken i l n c s k e :
  ls !! i = Some l -> reads l n "elseif" c -> ran i (s ++ [if_frame n e true]) k [] (S i) (s ++ [if_frame n false true]) k.
Proof. intros Hi Hr. coded Hi Hr. exists tol. unfold do_elseif. rewrite top_block by done. rewrite top_at. cbn [mbind option_bind branch_taken if_frame]. by rewrite alter_at. Qed.
Lemma ran_elseif i l n c s k k1 v e :
  ls !! i = Some l -> reads l n "elseif" c -> value k c = (k1, v) ->
  ran i (s ++ [if_frame n e false]) k [] (S i) (s ++ [if_frame n (is_true v) (is_true v)]) k1.
Proof.
  intros Hi Hr Hv. coded Hi Hr. exists tol. unfold do_elseif. rewrite top_block by done. rewrite top_at.
  cbn [mbind option_bind branch_taken if_frame]. rewrite (eval_at _ _ _ _ _ _ _ Hv). by rewrite alter_at.
Qed.
Lemma ran_else i l n c s k e b :
  ls !! i = Some l -> reads l n "else" c -> ran i (s ++ [if_frame n e b]) k [] (S i) (s ++ [if_frame n (negb b) true]) k.
Proof. intros Hi Hr. coded Hi Hr. exists tol. unfold do_else. rewrite top_block by done. by rewrite alter_at. Qed.
Lemma ran_endif i l n c s k e b : ls !! i = Some l -> reads l n "endif" c -> ran i (s ++ [if_frame n e b]) k [] (S i) s k.
Proof. intros Hi Hr. coded Hi Hr. exists tol. unfold do_endif. rewrite top_block by done. by rewrite erase_at. Qed.

Lemma while_frame_made i l tol s k n e :
  ls !! i = Some l -> proper l ->
  mk_frame n WHILE (ftell (fh (at_line (S i) tol s k)) - Z.of_nat (length (c_string l))) e false 0 [] 0
    (s32 (file_line (at_line (S i) tol s k))) = while_frame n i e.
Proof.
  intros Hi Hp. rewrite (c_string_proper _ Hp). unfold ftell. cbn [fh at_line fpos file_line]. rewrite (offset_next _ _ Hi).
  unfold while_frame. f_equal. lia.
Qed.
Lemma ran_while_open i l n c s k k1 v d dos :
  ls !! i = Some l -> reads l n "while" c -> (length s <= d)%nat -> (d < OCODE_MAX_STACK_DEPTH)%nat -> stack_dos s dos -> n ∉ dos ->
  (if skipping s then k1 = k /\ v = 0 else value k c = (k1, v) /\ is_true v = true) ->
  ran i s k [] (S i) (s ++ [while_frame n i (negb (skipping s))]) k1.
Proof.
  intros Hi Hr Hs Hd Hdos Hn Hv. coded Hi Hr. exists false. unfold do_while.
  change (stack (at_line (S i) tol s k)) with s. rewrite (no_do _ _ _ Hdos Hn), (not_full _ _ _ _ _ Hs Hd).
  rewrite (while_frame_made _ _ _ _ _ _ _ Hi (proj1 Hr)), any_skipping.
  destruct (skipping s); [by destruct Hv as [-> _]|]. destruct Hv as [Hv Ht]. by rewrite (eval_at _ _ _ _ _ _ _ Hv), Ht.
Qed.
Lemma ran_while_false i l n c s k k1 v d d' dos b tl r :
  ls !! i = Some l -> reads l n "while" c -> (length s <= d)%nat -> (d < OCODE_MAX_STACK_DEPTH)%nat -> stack_dos s dos -> n ∉ dos ->
  skipping s = false -> value k c = (k1, v) -> is_true v = false ->
  well_formed d' dos b -> holds_at (S i) (text b ++ [tl]) -> reads tl n "endwhile" r ->
  ran i s k [] (S i + length (text b) + 1) s k1.
Proof.
  intros Hi Hr Hs Hd Hdos Hn Hsk Hv Ht Hw Hb Htl. coded Hi Hr. exists tol. unfold do_while.
  change (stack (at_line (S i) tol s k)) with s. rewrite (no_do _ _ _ Hdos Hn), (not_full _ _ _ _ _ Hs Hd), any_skipping, Hsk.
  cbv zeta. rewrite (eval_at _ _ _ _ _ _ _ Hv), Ht. pose proof (skip_block_at true (S i) tol s k1 _ _ _ _ _ _ (Some "while has no matching endwhile"%string) Hw Hb Htl) as Hsb.
  cbn [open_of close_of] in Hsb. by rewrite Hsb.
Qed.
Lemma ran_endwhile_skipped i l n c s k i0 e :
  ls !! i = Some l -> reads l n "endwhile" c -> skipping (s ++ [while_frame n i0 e]) = true ->
  ran i (s ++ [while_frame n i0 e]) k [] (S i) s k.
Proof.
  intros Hi Hr Hsk. coded Hi Hr. exists tol. unfold do_endwhile. rewrite top_block by done. rewrite top_at. cbn [mbind option_bind].
  rewrite any_skipping, Hsk. by rewrite erase_at.
Qed.
Lemma ran_endwhile i l n c s k i0 :
  ls !! i = Some l -> reads l n "endwhile" c -> skipping s = false -> ran i (s ++ [while_frame n i0 true]) k [] i0 s k.
Proof.
  intros Hi Hr Hsk. coded Hi Hr. exists tol. unfold do_endwhile. rewrite top_block by done. rewrite top_at. cbn [mbind option_bind].
  rewrite any_skipping, skipping_push, Hsk. cbn [orb executing while_frame negb]. rewrite (jump_back_at i0); [by rewrite erase_at|done|].
  cbn [jump_line while_frame]. rewrite u32_back. f_equal. lia.
Qed.
Lemma loop_line i : u32 (s32 (u32 (Z.of_nat i) + 1) - 1) = u32 (Z.of_nat i).
Proof. ints. Qed.
Lemma ran_do i l n c s k d :
  ls !! i = Some l -> reads l n "do" c -> (length s <= d)%nat -> (d < OCODE_MAX_STACK_DEPTH)%nat ->
  ran i s k [] (S i) (s ++ [do_frame n (S i) (negb (skipping s))]) k.
Proof. intros Hi Hr Hs Hd. coded Hi Hr. exists false. unfold do_do. by rewrite (not_full _ _ _ _ _ Hs Hd). Qed.
Lemma ran_do_close i l n c s k k1 v i0 e j s' :
  ls !! i = Some l -> reads l n "while" c ->
  (if skipping (s ++ [do_frame n i0 e]) then k1 = k /\ j = S i /\ s' = s
   else value k c = (k1, v) /\ if is_true v then j = i0 /\ s' = s ++ [do_frame n i0 e] else j = S i /\ s' = s) ->
  ran i (s ++ [do_frame n i0 e]) k [] j s' k1.
Proof.
  intros Hi Hr Hv. coded Hi Hr. exists tol. unfold do_while. rewrite top_block by done. rewrite top_at. cbn [mbind option_bind].
  unfold close_do_while. rewrite any_skipping. destruct (skipping _); [destruct Hv as (-> & -> & ->); by rewrite erase_at|].
  destruct Hv as [Hv Hj]. rewrite (eval_at _ _ _ _ _ _ _ Hv). destruct (is_true v); destruct Hj as [-> ->].
  - rewrite (jump_back_at i0); [done|done|apply loop_line].
  - by rewrite erase_at.
Qed.
Lemma ran_repeat i l n c s k k1 v d :
  ls !! i = Some l -> reads l n "repeat" c -> (length s <= d)%nat -> (d < OCODE_MAX_STACK_DEPTH)%nat -> skipping s = false ->
  value k c = (k1, v) -> 0 < float_to_int v -> ran i s k [] (S i) (s ++ [repeat_frame n (S i) (float_to_int v)]) k1.
Proof.
  intros Hi Hr Hs Hd Hsk Hv Hc. coded Hi Hr. exists false. unfold do_repeat. rewrite (not_full _ _ _ _ _ Hs Hd), any_skipping, Hsk.
  rewrite (eval_at _ _ _ _ _ _ _ Hv). rewrite any_skipping, Hsk. apply Z.ltb_lt in Hc as ->. done.
Qed.
Lemma ran_repeat_none i l n c s k k1 v d d' dos b tl r :
  ls !! i = Some l -> reads l n "repeat" c -> (length s <= d)%nat -> (d < OCODE_MAX_STACK_DEPTH)%nat ->
  (if skipping s then k1 = k else value k c = (k1, v) /\ float_to_int v <= 0) ->
  well_formed d' dos b -> holds_at (S i) (text b ++ [tl]) -> reads tl n "endrepeat" r ->
  ran i s k [] (S i + length (text b) + 1) s k1.
Proof.
  intros Hi Hr Hs Hd Hv Hw Hb Htl. coded Hi Hr. exists tol. unfold do_repeat. rewrite (not_full _ _ _ _ _ Hs Hd), any_skipping.
  pose proof (skip_block_at false (S i) tol s k1 _ _ _ _ _ _ (Some "repeat has no matching endrepeat"%string) Hw Hb Htl) as Hsb.
  cbn [open_of close_of] in Hsb. destruct (skipping s) eqn:Hsk.
  - subst k1. rewrite any_skipping, Hsk. cbn [negb andb]. by rewrite Hsb.
  - destruct Hv as [Hv Hc]. rewrite (eval_at _ _ _ _ _ _ _ Hv). rewrite any_skipping, Hsk.
    destruct (Z.ltb_spec 0 (float_to_int v)); [lia|]. cbn [negb andb]. by rewrite Hsb.
Qed.
Lemma ran_endrepeat i l n c s k i0 m :
  ls !! i = Some l -> reads l n "endrepeat" c -> skipping s = false -> 0 < m < 2 ^ 31 ->
  if 1 <? m then ran i (s ++ [repeat_frame n i0 m]) k [] i0 (s ++ [repeat_frame n i0 (m - 1)]) k
  else ran i (s ++ [repeat_frame n i0 m]) k [] (S i) s k.
Proof.
  intros Hi Hr Hsk Hm.
  assert (Hp : forall tol, process_line halts l (at_line (S i) tol (s ++ [repeat_frame n i0 m]) k) =
    Some (if 0 <? m - 1 then at_line i0 tol (s ++ [repeat_frame n i0 (m - 1)]) k else at_line (S i) tol s k, true)).
  { intros tol. keyword Hr. unfold do_endrepeat. rewrite top_block by done. rewrite any_skipping, skipping_push, Hsk.
    cbn [orb executing repeat_frame negb]. unfold count_down. rewrite alter_at.
    change ((repeat_frame n i0 m) <| repeat_count := s32 (repeat_count (repeat_frame n i0 m) - 1) |>) with (repeat_frame n i0 (s32 (m - 1))). rewrite s32_small by lia.
    rewrite top_at. cbn [mbind option_bind repeat_count repeat_frame].
    change (mk_frame n REPEAT (Z.of_nat (offset i0)) true false (m - 1) [] 0 (s32 (u32 (Z.of_nat i0) + 1))) with (repeat_frame n i0 (m - 1)).
    destruct (0 <? m - 1); [rewrite (jump_back_at i0); [done|done|apply loop_line]|by rewrite erase_at]. }
  destruct (Z.ltb_spec 1 m), (Z.ltb_spec 0 (m - 1)); try lia; (eapply ran_code; [exact Hi|exact Hr|]); intros tol; exists tol; by rewrite Hp.
Qed.

(** *** Blocks that are not run *)
Lemma segment_skipped :
  (forall p d dos i s k, well_formed d dos p -> holds_at i (text p) -> (length s <= d)%nat -> stack_dos s dos -> skipping s = true ->
     ran i s k [] (i + length (text p)) s k) /\
  (forall e d dos n i s k x, well_formed_clauses d dos n e -> holds_at i (clauses_text e) -> (length s < d)%nat -> stack_dos s dos ->
     ran i (s ++ [if_frame n x true]) k [] (i + length (clauses_text e)) s k).
Proof.
  apply prog_clauses_ind; cbn [text clauses_text well_formed well_formed_clauses].
  - intros d dos i s k _ _ _ _ _ tol. exists tol. cbn [length]. rewrite Nat.add_0_r. apply runs_here.
  - intros l p IH d dos i s k (Hl & Hp & Hw) Hi Hs Hdos Hsk. apply holds_at_cons in Hi as [Hi Hi']. cbn [length].
    rewrite <- Nat.add_succ_comm. eapply ran_after; [|by eapply IH]. intros tol. exists tol.
    pose proof (run_plain i l tol s k Hi Hp) as Hr. cbv beta in Hsk. by rewrite Hsk, orb_true_r in Hr.
  - intros n hd c b IHb e IHe p IHp d dos i s k (Hr & Hd & Hwb & Hwe & Hwp) Hi Hs Hdos Hsk.
    apply holds_at_cons in Hi as [Hi Hi']. apply holds_at_app in Hi' as [Hib Hi']. apply holds_at_app in Hi' as [Hie Hip].
    cbn [length]. rewrite !length_app.
    eapply ran_after; [by eapply ran_if_skipped|].
    eapply ran_after; [eapply (IHb (S d)); [done|done|rewrite length_app; cbn; lia|by apply stack_dos_push|by rewrite skipping_push, orb_true_r]|].
    eapply ran_after; [by eapply (IHe (S d) dos n); [done|done|lia|done]|].
    replace (i + S (length (text b) + (length (clauses_text e) + length (text p))))%nat
      with (S i + length (text b) + length (clauses_text e) + length (text p))%nat by lia. by eapply IHp.
  - intros n hd c b IHb tl p IHp d dos i s k (Hr & Hn & Hd & Hwb & (r & Ht) & Hwp) Hi Hs Hdos Hsk.
    apply holds_at_cons in Hi as [Hi Hi']. apply holds_at_app in Hi' as [Hib Hi']. apply holds_at_cons in Hi' as [Hit Hip].
    cbn [length]. rewrite length_app. cbn [length].
    eapply ran_after; [eapply (ran_while_open i hd n c s k k 0); [done|done|done|done|done|done|by rewrite Hsk]|].
    assert (Hsk' : skipping (s ++ [while_frame n i (negb (skipping s))]) = true) by (rewrite skipping_push, Hsk; done).
    eapply ran_after; [eapply (IHb (S d)); [done|done|rewrite length_app; cbn; lia|by apply stack_dos_push|exact Hsk']|].
    eapply ran_after; [by eapply ran_endwhile_skipped|].
    replace (i + S (length (text b) + S (length (text p))))%nat with (S (S i + length (text b)) + length (text p))%nat by lia.
    by eapply IHp.
  - intros n hd b IHb tl c p IHp d dos i s k ((r & Hr) & Hd & Hwb & Ht & Hwp) Hi Hs Hdos Hsk.
    apply holds_at_cons in Hi as [Hi Hi']. apply holds_at_app in Hi' as [Hib Hi']. apply holds_at_cons in Hi' as [Hit Hip].
    cbn [length]. rewrite length_app. cbn [length].
    eapply ran_after; [by eapply ran_do|].
    assert (Hsk' : skipping (s ++ [do_frame n (S i) (negb (skipping s))]) = true) by (rewrite skipping_push, Hsk; done).
    eapply ran_after; [eapply (IHb (S d)); [done|done|rewrite length_app; cbn; lia|by apply (stack_dos_do s dos (do_frame n (S i) _))|exact Hsk']|].
    eapply ran_after; [eapply (ran_do_close _ tl n c s k k 0); [done|done|by rewrite Hsk']|].
    replace (i + S (length (text b) + S (length (text p))))%nat with (S (S i + length (text b)) + length (text p))%nat by lia.
    by eapply IHp.
  - intros n hd c b IHb tl p IHp d dos i s k (Hr & Hd & Hwb & (r & Ht) & Hwp) Hi Hs Hdos Hsk.
    apply holds_at_cons in Hi as [Hi Hi']. change (tl :: text p) with ([tl] ++ text p) in Hi'. rewrite app_assoc in Hi'.
    apply holds_at_app in Hi' as [Hib Hip]. rewrite length_app in Hip.
    cbn [length]. rewrite length_app. cbn [length] in *.
    eapply ran_after; [eapply (ran_repeat_none i hd n c s k k 0); [done|done|exact Hs|done|by rewrite Hsk|exact Hwb|exact Hib|exact Ht]|].
    replace (i + S (length (text b) + S (length (text p))))%nat with (S i + length (text b) + 1 + length (text p))%nat by lia.
    eapply IHp; try done. by rewrite <- Nat.add_assoc.
  - intros tl d dos n i s k x (r & Hr) Hi Hs Hdos. apply holds_at_cons in Hi as [Hi _]. cbn [length]. rewrite Nat.add_1_r.
    by eapply ran_endif.
  - intros hd c b IHb e IHe d dos n i s k x (Hr & Hwb & Hwe) Hi Hs Hdos.
    apply holds_at_cons in Hi as [Hi Hi']. apply holds_at_app in Hi' as [Hib Hie]. cbn [length]. rewrite length_app.
    eapply ran_after; [by eapply ran_elseif_taken|].
    eapply ran_after; [eapply (IHb d); [done|done|rewrite length_app; cbn; lia|by apply stack_dos_push|by rewrite skipping_push, orb_true_r]|].
    replace (i + S (length (text b) + length (clauses_text e)))%nat with (S i + length (text b) + length (clauses_text e))%nat by lia.
    by eapply (IHe d dos n).
  - intros hd b IHb tl d dos n i s k x ((r & Hr) & Hwb & (r' & Ht)) Hi Hs Hdos.
    apply holds_at_cons in Hi as [Hi Hi']. apply holds_at_app in Hi' as [Hib Hi']. apply holds_at_cons in Hi' as [Hit _].
    cbn [length]. rewrite length_app. cbn [length].
    eapply ran_after; [by eapply ran_else|].
    eapply ran_after; [eapply (IHb d); [done|done|rewrite length_app; cbn; lia|by apply stack_dos_push|by rewrite skipping_push, orb_true_r]|].
    replace (i + S (length (text b) + 1))%nat with (S (S i + length (text b))) by lia. by eapply ran_endif.
Qed.

(** *** Blocks that are run *)
Definition sim (p : prog) (k : K) (o : list (list Z)) (k' : K) : Prop :=
  forall d dos i s, well_formed d dos p -> holds_at i (text p) -> (length s <= d)%nat -> stack_dos s dos -> skipping s = false ->
  ran i s k o (i + length (text p)) s k'.
Definition sim_clauses (e : clauses) (k : K) (o : list (list Z)) (k' : K) : Prop :=
  forall d dos n i s x, well_formed_clauses d dos n e -> holds_at i (clauses_text e) -> (length s < d)%nat -> stack_dos s dos ->
  skipping s = false -> x = false -> ran i (s ++ [if_frame n x false]) k o (i + length (clauses_text e)) s k'.
Definition sim_do (b : prog) (c : list Z) (k : K) (o : list (list Z)) (k' : K) : Prop :=
  forall d dos n tl i s, well_formed (S d) (dos ++ [n]) b -> reads tl n "while" c -> holds_at i (text b ++ [tl]) -> (length s <= d)%nat ->
  stack_dos s dos -> skipping s = false -> ran i (s ++ [do_frame n i true]) k o (i + length (text b) + 1) s k'.
Definition sim_times (m : nat) (b : prog) (k : K) (o : list (list Z)) (k' : K) : Prop :=
  match m with
  | O => o = [] /\ k' = k
  | S _ =>
      forall d dos n tl r i s, well_formed (S d) dos b -> reads tl n "endrepeat" r -> holds_at i (text b ++ [tl]) -> (length s <= d)%nat ->
      stack_dos s dos -> skipping s = false -> Z.of_nat m < 2 ^ 31 ->
      ran i (s ++ [repeat_frame n i (Z.of_nat m)]) k o (i + length (text b) + 1) s k'
  end.

Lemma float_to_int_range v : - 2 ^ 31 <= float_to_int v < 2 ^ 31.
Proof.
  unfold float_to_int. cbv zeta. destruct (_ <? _); [lia|].
  assert (Hn : 0 <= (if Z.shiftr (Z.land v 2147483647) 23 <? 127 then 0
    else Z.shiftl (Z.lor (Z.land (Z.land v 2147483647) 8388607) 8388608) (Z.shiftr (Z.land v 2147483647) 23 - 150))).
  { destruct (_ <? _); [lia|]. apply Z.shiftl_nonneg, Z.lor_nonneg. split; [|lia]. apply Z.land_nonneg. by right. }
  revert Hn. generalize (if Z.shiftr (Z.land v 2147483647) 23 <? 127 then 0
    else Z.shiftl (Z.lor (Z.land (Z.land v 2147483647) 8388607) 8388608) (Z.shiftr (Z.land v 2147483647) 23 - 150)).
  intros x Hx. destruct (Z.testbit v 31); lia.
Qed.
Lemma sim_end k : sim p_end k [] k.
Proof.
  unfold sim, sim_clauses, sim_do; cbn [text clauses_text well_formed well_formed_clauses].
  intros d dos i s _ _ _ _ _ tol.
  exists tol. cbn [length]. rewrite Nat.add_0_r. apply runs_here.
Qed.
Lemma sim_line l p k o k' : length l <> 1%nat -> sim p (dispatch k l) o k' -> sim (p_line l p) k (l :: o) k'.
Proof.
  unfold sim, sim_clauses, sim_do; cbn [text clauses_text well_formed well_formed_clauses].
  intros Hlen IH d dos i s (Hl & Hp & Hw) Hi Hs Hdos Hsk.
  apply holds_at_cons in Hi as [Hi Hi']. cbn [length].
  rewrite <- Nat.add_succ_comm. apply (ran_trans _ _ _ [l] (S i) s (dispatch k l)); [|by eapply IH]. intros tol. exists tol.
  pose proof (run_plain i l tol s k Hi Hp) as Hr. cbv beta in Hsk. rewrite Hsk, orb_false_r in Hr.
  by destruct (Nat.eqb_spec (length l) 1).
Qed.
Lemma sim_blank l p k o k' : length l = 1%nat -> sim p k o k' -> sim (p_line l p) k o k'.
Proof.
  unfold sim, sim_clauses, sim_do; cbn [text clauses_text well_formed well_formed_clauses].
  intros Hlen IH d dos i s (Hl & Hp & Hw) Hi Hs Hdos Hsk.
  apply holds_at_cons in Hi as [Hi Hi']. cbn [length].
  rewrite <- Nat.add_succ_comm. eapply ran_after; [|by eapply IH]. intros tol. exists tol.
  pose proof (run_plain i l tol s k Hi Hp) as Hr. by rewrite Hlen in Hr.
Qed.
Lemma sim_if_true n hd c b e p k k1 v o1 k2 o2 k3 : value k c = (k1, v) -> is_true v = true -> sim b k1 o1 k2 -> sim p k2 o2 k3 ->
  sim (p_if n hd c b e p) k (o1 ++ o2) k3.
Proof.
  unfold sim, sim_clauses, sim_do; cbn [text clauses_text well_formed well_formed_clauses].
  intros Hv Ht IHb IHp d dos i s (Hr & Hd & Hwb & Hwe & Hwp) Hi Hs Hdos Hsk.
  apply holds_at_cons in Hi as [Hi Hi']. apply holds_at_app in Hi' as [Hib Hi']. apply holds_at_app in Hi' as [Hie Hip].
  cbn [length]. rewrite !length_app. eapply ran_after; [by eapply ran_if|]. rewrite Ht.
  eapply ran_trans; [eapply (IHb (S d)); [done|done|rewrite length_app; cbn; lia|by apply stack_dos_push|by rewrite skipping_push, Hsk]|].
  eapply ran_after; [by eapply (proj2 segment_skipped e (S d) dos n); [done|done|lia|done]|].
  replace (i + S (length (text b) + (length (clauses_text e) + length (text p))))%nat
    with (S i + length (text b) + length (clauses_text e) + length (text p))%nat by lia. by eapply IHp.
Qed.
Lemma sim_if_false n hd c b e p k k1 v o1 k2 o2 k3 : value k c = (k1, v) -> is_true v = false -> sim_clauses e k1 o1 k2 -> sim p k2 o2 k3 ->
  sim (p_if n hd c b e p) k (o1 ++ o2) k3.
Proof.
  unfold sim, sim_clauses, sim_do; cbn [text clauses_text well_formed well_formed_clauses].
  intros Hv Ht IHe IHp d dos i s (Hr & Hd & Hwb & Hwe & Hwp) Hi Hs Hdos Hsk.
  apply holds_at_cons in Hi as [Hi Hi']. apply holds_at_app in Hi' as [Hib Hi']. apply holds_at_app in Hi' as [Hie Hip].
  cbn [length]. rewrite !length_app. eapply ran_after; [by eapply ran_if|]. rewrite Ht.
  eapply ran_after; [eapply (proj1 segment_skipped b (S d)); [done|done|rewrite length_app; cbn; lia|by apply stack_dos_push|by rewrite skipping_push, orb_true_r]|].
  eapply ran_trans; [by eapply (IHe (S d) dos n); [done|done|lia|done|done|done]|].
  replace (i + S (length (text b) + (length (clauses_text e) + length (text p))))%nat
    with (S i + length (text b) + length (clauses_text e) + length (text p))%nat by lia. by eapply IHp.
Qed.
Lemma sim_while_again n hd c b tl p k k1 v o1 k2 o2 k3 : value k c = (k1, v) -> is_true v = true -> sim b k1 o1 k2 ->
  sim (p_while n hd c b tl p) k2 o2 k3 -> sim (p_while n hd c b tl p) k (o1 ++ o2) k3.
Proof.
  unfold sim, sim_clauses, sim_do; cbn [text clauses_text well_formed well_formed_clauses].
  intros Hv Ht IHb IHw d dos i s (Hr & Hn & Hd & Hwb & (r & Htl) & Hwp) Hi0 Hs Hdos Hsk.
  pose proof Hi0 as Hi. apply holds_at_cons in Hi as [Hi Hi']. apply holds_at_app in Hi' as [Hib Hi']. apply holds_at_cons in Hi' as [Hit Hip].
  eapply ran_after; [eapply (ran_while_open i hd n c s k k1 v); [done|done|exact Hs|done|done|done|by rewrite Hsk]|].
  assert (Hng : negb (skipping s) = true) by by rewrite Hsk. cbv beta in Hng. rewrite Hng.
  eapply ran_trans; [eapply (IHb (S d)); [done|done|rewrite length_app; cbn; lia|by apply stack_dos_push|by rewrite skipping_push, Hsk]|].
  eapply ran_after; [by eapply ran_endwhile|]. eapply (IHw d dos); try done. split; [done|]. do 3 (split; [done|]). split; [by exists r|done].
Qed.
Lemma sim_while_done n hd c b tl p k k1 v o k2 : value k c = (k1, v) -> is_true v = false -> sim p k1 o k2 -> sim (p_while n hd c b tl p) k o k2.
Proof.
  unfold sim, sim_clauses, sim_do; cbn [text clauses_text well_formed well_formed_clauses].
  intros Hv Ht IHp d dos i s (Hr & Hn & Hd & Hwb & (r & Htl) & Hwp) Hi Hs Hdos Hsk.
  apply holds_at_cons in Hi as [Hi Hi']. change (tl :: text p) with ([tl] ++ text p) in Hi'. rewrite app_assoc in Hi'.
  apply holds_at_app in Hi' as [Hib Hip]. rewrite length_app in Hip. cbn [length]. rewrite length_app. cbn [length] in *.
  eapply ran_after; [by eapply (ran_while_false i hd n c s k k1 v d (S d) dos b tl r)|].
  replace (i + S (length (text b) + S (length (text p))))%nat with (S i + length (text b) + 1 + length (text p))%nat by lia.
  eapply IHp; try done. by rewrite <- Nat.add_assoc.
Qed.
Lemma sim_do_block n hd b tl c p k o1 k1 o2 k2 : sim_do b c k o1 k1 -> sim p k1 o2 k2 -> sim (p_do n hd b tl c p) k (o1 ++ o2) k2.
Proof.
  unfold sim, sim_clauses, sim_do; cbn [text clauses_text well_formed well_formed_clauses].
  intros IHd IHp d dos i s ((r & Hr) & Hd & Hwb & Ht & Hwp) Hi Hs Hdos Hsk.
  apply holds_at_cons in Hi as [Hi Hi']. change (tl :: text p) with ([tl] ++ text p) in Hi'. rewrite app_assoc in Hi'.
  apply holds_at_app in Hi' as [Hib Hip]. rewrite length_app in Hip. cbn [length]. rewrite length_app. cbn [length] in *.
  eapply ran_after; [by eapply ran_do|]. assert (Hng : negb (skipping s) = true) by by rewrite Hsk. cbv beta in Hng. rewrite Hng.
  eapply ran_trans; [by eapply (IHd d dos n tl)|].
  replace (i + S (length (text b) + S (length (text p))))%nat with (S i + length (text b) + 1 + length (text p))%nat by lia.
  eapply IHp; try done. by rewrite <- Nat.add_assoc.
Qed.
Lemma sim_repeat n hd c b tl p k k1 v o1 k2 o2 k3 : value k c = (k1, v) -> sim_times (Z.to_nat (float_to_int v)) b k1 o1 k2 -> sim p k2 o2 k3 ->
  sim (p_repeat n hd c b tl p) k (o1 ++ o2) k3.
Proof.
  unfold sim, sim_clauses, sim_do; cbn [text clauses_text well_formed well_formed_clauses].
  intros Hv IHt IHp d dos i s (Hr & Hd & Hwb & (r & Htl) & Hwp) Hi Hs Hdos Hsk.
  apply holds_at_cons in Hi as [Hi Hi']. change (tl :: text p) with ([tl] ++ text p) in Hi'. rewrite app_assoc in Hi'.
  apply holds_at_app in Hi' as [Hib Hip]. rewrite length_app in Hip. cbn [length]. rewrite length_app. cbn [length] in *.
  replace (i + S (length (text b) + S (length (text p))))%nat with (S i + length (text b) + 1 + length (text p))%nat by lia.
  assert (Hp : ran (S i + length (text b) + 1) s k2 o2 (S i + length (text b) + 1 + length (text p)) s k3)
    by (eapply IHp; try done; by rewrite <- Nat.add_assoc).
  pose proof (float_to_int_range v) as Hfr.
  destruct (Z.to_nat (float_to_int v)) as [|m] eqn:Hm; cbn [sim_times] in IHt.
  - destruct IHt as [-> ->]. cbn [app]. eapply ran_after; [|exact Hp].
    eapply (ran_repeat_none i hd n c s k k1 v); [done|done|exact Hs|done|rewrite Hsk; split; [done|lia]|exact Hwb|exact Hib|exact Htl].
  - eapply ran_after; [eapply (ran_repeat i hd n c s k k1 v); [done|done|exact Hs|done|done|done|lia]|].
    eapply ran_trans; [|exact Hp]. replace (float_to_int v) with (Z.of_nat (S m)) by lia.
    eapply (IHt d dos n tl r); try done. lia.
Qed.
Lemma sim_none tl k : sim_clauses (c_end tl) k [] k.
Proof.
  unfold sim, sim_clauses, sim_do; cbn [text clauses_text well_formed well_formed_clauses].
  intros d dos n i s x (r & Hr) Hi Hs Hdos Hsk ->.
  apply holds_at_cons in Hi as [Hi _]. cbn [length]. rewrite Nat.add_1_r.
  by eapply ran_endif.
Qed.
Lemma sim_elseif_true hd c b e k k1 v o k2 : value k c = (k1, v) -> is_true v = true -> sim b k1 o k2 -> sim_clauses (c_elseif hd c b e) k o k2.
Proof.
  unfold sim, sim_clauses, sim_do; cbn [text clauses_text well_formed well_formed_clauses].
  intros Hv Ht IHb d dos n i s x (Hr & Hwb & Hwe) Hi Hs Hdos Hsk ->.
  apply holds_at_cons in Hi as [Hi Hi']. apply holds_at_app in Hi' as [Hib Hie]. cbn [length]. rewrite length_app.
  eapply ran_after; [by eapply ran_elseif|]. rewrite Ht.
  eapply ran_before; [eapply (IHb d); [done|done|rewrite length_app; cbn; lia|by apply stack_dos_push|by rewrite skipping_push, Hsk]|].
  replace (i + S (length (text b) + length (clauses_text e)))%nat with (S i + length (text b) + length (clauses_text e))%nat by lia.
  by eapply (proj2 segment_skipped e d dos n).
Qed.
Lemma sim_elseif_false hd c b e k k1 v o k2 : value k c = (k1, v) -> is_true v = false -> sim_clauses e k1 o k2 -> sim_clauses (c_elseif hd c b e) k o k2.
Proof.
  unfold sim, sim_clauses, sim_do; cbn [text clauses_text well_formed well_formed_clauses].
  intros Hv Ht IHe d dos n i s x (Hr & Hwb & Hwe) Hi Hs Hdos Hsk ->.
  apply holds_at_cons in Hi as [Hi Hi']. apply holds_at_app in Hi' as [Hib Hie]. cbn [length]. rewrite length_app.
  eapply ran_after; [by eapply ran_elseif|]. rewrite Ht.
  eapply ran_after; [eapply (proj1 segment_skipped b d); [done|done|rewrite length_app; cbn; lia|by apply stack_dos_push|by rewrite skipping_push, orb_true_r]|].
  replace (i + S (length (text b) + length (clauses_text e)))%nat with (S i + length (text b) + length (clauses_text e))%nat by lia.
  by eapply (IHe d dos n).
Qed.
Lemma sim_else hd b tl k o k' : sim b k o k' -> sim_clauses (c_else hd b tl) k o k'.
Proof.
  unfold sim, sim_clauses, sim_do; cbn [text clauses_text well_formed well_formed_clauses].
  intros IHb d dos n i s x ((r & Hr) & Hwb & (r' & Ht)) Hi Hs Hdos Hsk ->.
  apply holds_at_cons in Hi as [Hi Hi']. apply holds_at_app in Hi' as [Hib Hi']. apply holds_at_cons in Hi' as [Hit _].
  cbn [length]. rewrite length_app. cbn [length].
  eapply ran_after; [by eapply ran_else|].
  eapply ran_before; [eapply (IHb d); [done|done|rewrite length_app; cbn; lia|by apply stack_dos_push|by rewrite skipping_push, Hsk]|].
  replace (i + S (length (text b) + 1))%nat with (S (S i + length (text b))) by lia. by eapply ran_endif.
Qed.
Lemma sim_do_again b c k o1 k1 k2 v o2 k3 : sim b k o1 k1 -> value k1 c = (k2, v) -> is_true v = true -> sim_do b c k2 o2 k3 -> sim_do b c k (o1 ++ o2) k3.
Proof.
  unfold sim, sim_clauses, sim_do; cbn [text clauses_text well_formed well_formed_clauses].
  intros IHb Hv Ht IHd d dos n tl i s Hwb Htl Hi Hs Hdos Hsk.
  pose proof Hi as Hi0. apply holds_at_app in Hi as [Hib Hi]. apply holds_at_cons in Hi as [Hit _].
  assert (Hsk' : skipping (s ++ [do_frame n i true]) = false) by by rewrite skipping_push, Hsk.
  eapply ran_trans; [eapply (IHb (S d)); [done|done|rewrite length_app; cbn; lia|by apply (stack_dos_do s dos (do_frame n i true))|done]|].
  eapply ran_after; [eapply (ran_do_close _ tl n c s k1 k2 v i true i); [done|done|rewrite Hsk', Ht; done]|].
  by eapply (IHd d dos n tl).
Qed.
Lemma sim_do_done b c k o1 k1 k2 v : sim b k o1 k1 -> value k1 c = (k2, v) -> is_true v = false -> sim_do b c k o1 k2.
Proof.
  unfold sim, sim_clauses, sim_do; cbn [text clauses_text well_formed well_formed_clauses].
  intros IHb Hv Ht d dos n tl i s Hwb Htl Hi Hs Hdos Hsk.
  apply holds_at_app in Hi as [Hib Hi]. apply holds_at_cons in Hi as [Hit _].
  assert (Hsk' : skipping (s ++ [do_frame n i true]) = false) by by rewrite skipping_push, Hsk.
  eapply ran_before; [eapply (IHb (S d)); [done|done|rewrite length_app; cbn; lia|by apply (stack_dos_do s dos (do_frame n i true))|done]|].
  rewrite Nat.add_1_r. eapply (ran_do_close _ tl n c s k1 k2 v i true); [done|done|]. by rewrite Hsk', Ht.
Qed.
Lemma sim_times_S m b k o1 k1 o2 k2 : sim b k o1 k1 -> sim_times m b k1 o2 k2 -> sim_times (S m) b k (o1 ++ o2) k2.
Proof.
  unfold sim at 1. cbn [sim_times].
  intros IHb IHt d dos n tl r i s Hwb Htl Hi Hs Hdos Hsk Hm.
  pose proof Hi as Hi0. apply holds_at_app in Hi as [Hib Hi]. apply holds_at_cons in Hi as [Hit _].
  eapply ran_trans; [eapply (IHb (S d)); [done|done|rewrite length_app; cbn; lia|by apply stack_dos_push|by rewrite skipping_push, Hsk]|].
  pose proof (ran_endrepeat (i + length (text b)) tl n r s k1 i (Z.of_nat (S m)) Hit Htl Hsk ltac:(lia)) as He.
  destruct m as [|m]; cbn [sim_times] in IHt.
  - destruct IHt as [-> ->]. rewrite Nat.add_1_r. exact He.
  - destruct (Z.ltb_spec 1 (Z.of_nat (S (S m)))); [|lia]. replace (Z.of_nat (S (S m)) - 1) with (Z.of_nat (S m)) in He by lia.
    eapply ran_after; [exact He|]. eapply (IHt d dos n tl r); try done. lia.
Qed.
Lemma simulation :
  (forall p k o k', exec p k o k' -> sim p k o k') /\
  (forall e k o k', exec_clauses e k o k' -> sim_clauses e k o k') /\
  (forall b c k o k', exec_do b c k o k' -> sim_do b c k o k') /\
  (forall m b k o k', exec_times m b k o k' -> sim_times m b k o k').
Proof.
  apply exec_all_ind; intros; eauto using sim_end, sim_line, sim_blank, sim_if_true, sim_if_false, sim_while_again, sim_while_done,
    sim_do_block, sim_repeat, sim_none, sim_elseif_true, sim_elseif_false, sim_else, sim_do_again, sim_do_done, sim_times_S.
  done.
Qed.
End Lines.
End Playing.

(** ** The handler's types, and its termination *)
Section Types.
Context {K : Type} `{Kernel K} (dispatch : K -> list Z -> K) (halts : nat -> bool).

(** What each kind of frame holds; [size] is that of the file. *)
Definition frame_ok (size : Z) (f : Frame) : Prop :=
  match type_ f with
  | IF => executing f = true -> branch_taken f = true
  | WHILE | DO => branch_taken f = false /\ 0 <= loop_offset f <= size
  | REPEAT => executing f = true /\ 1 <= repeat_count f < 2 ^ 31 /\ 0 <= loop_offset f <= size
  | SUB => executing f = true /\ (length (saved_params f) <= 30)%nat /\ 0 <= return_offset f <= size
  end.
Definition size (w : @World K) : Z := Z.of_nat (length (content (fh w))).
Record handler_ok (w : @World K) : Prop := mk_handler_ok {
  ho_depth : (length (stack w) <= OCODE_MAX_STACK_DEPTH)%nat;
  ho_frames : Forall (frame_ok (size w)) (stack w);
  ho_subs : map_Forall (fun _ e => 0 <= sub_offset e <= size w) (sub_table_ (oc w));
  ho_file : (fpos (fh w) <= length (content (fh w)))%nat
}.
(** What every operation does: it ends, stays in the types, and never goes back in
    the file while it skips. *)
Definition op_ok (w : @World K) (r : option (@World K)) : Prop :=
  exists w', r = Some w' /\ handler_ok w' /\ content (fh w') = content (fh w) /\
    (is_skipping w' = true -> (fpos (fh w) <= fpos (fh w'))%nat).

Lemma take_to_newline_spec n l r e : take_to_newline n l = (r, e) -> (length r <= length l)%nat.
Proof.
  revert l r e. induction n as [|n IH]; intros [|c l] r e; cbn; try (intros [= <- _]; cbn; lia).
  destruct (c =? 10); [intros [= <- _]; cbn; lia|]. destruct (take_to_newline n l) as [r' e'] eqn:E. intros [= <- _].
  specialize (IH _ _ _ E). cbn. lia.
Qed.
Lemma fgets_spec n f f' o : (fpos f <= length (content f))%nat -> fgets n f = (f', o) ->
  content f' = content f /\ (fpos f <= fpos f' <= length (content f))%nat /\
  (forall l, o = Some l -> (length l = fpos f' - fpos f /\ 0 < length l)%nat).
Proof.
  intros Hf. unfold fgets. destruct (take_to_newline (n - 1) (drop (fpos f) (content f))) as [l e] eqn:Ht.
  pose proof (take_to_newline_spec _ _ _ _ Ht) as Hl. rewrite length_drop in Hl.
  destruct l as [|c l]; intros [= <- <-]; recs; (split; [done|]); cbn [length] in *; (split; [lia|]); [done|].
  intros m [= <-]. cbn [length]. lia.
Qed.
Lemma skip_loop_total fuel f ok ck tgt depth ds lines :
  (fpos f <= length (content f))%nat -> (length (content f) - fpos f < fuel)%nat ->
  exists f' n r, skip_loop fuel f ok ck tgt depth ds lines = Some (f', n, r) /\ content f' = content f /\
    (fpos f <= fpos f' <= length (content f))%nat.
Proof.
  revert f depth ds lines. induction fuel as [|fuel IH]; intros f depth ds lines Hf Hl; [lia|]. cbn [skip_loop].
  destruct (fgets 130 f) as [f1 o] eqn:Hg. destruct (fgets_spec _ _ _ _ Hf Hg) as (Hc & Hp & Ho).
  destruct o as [l|]; [|by exists f1, lines, None]. destruct (Ho l eq_refl) as [Hl1 Hl2].
  assert (Hrec : forall depth ds lines, exists f' n r, skip_loop fuel f1 ok ck tgt depth ds lines = Some (f', n, r) /\
    content f' = content f /\ (fpos f <= fpos f' <= length (content f))%nat).
  { intros depth' ds' lines'. destruct (IH f1 depth' ds' lines') as (f' & n & r & -> & Hc' & Hp'); [rewrite Hc; lia|rewrite Hc; lia|].
    exists f', n, r. rewrite Hc in *. do 2 (split; [congruence|]). lia. }
  repeat case_match; try apply Hrec. eexists _, _, _. split; [done|]. split; [done|lia].
Qed.
Lemma skip_block_file (w : @World K) o c n m :
  (fpos (fh w) <= length (content (fh w)))%nat ->
  exists w' r, skip_block w o c n m = Some (w', r) /\ content (fh w') = content (fh w) /\
    (fpos (fh w) <= fpos (fh w') <= length (content (fh w)))%nat /\ oc w' = oc w /\ kernel w' = kernel w.
Proof.
  intros Hf. unfold skip_block, skip_to.
  destruct (skip_loop_total (S (length (content (fh w)))) (fh w) (chars o) (chars c) n 0 [] 0 Hf ltac:(lia)) as (f' & l & r & -> & Hc & Hp).
  cbn [mbind option_bind].
  set (w1 := match r with Some _ => _ | None => _ end).
  assert (Hw : oc w1 = oc w /\ fh w1 = f' /\ kernel w1 = kernel w) by (unfold w1; by destruct r, m).
  clearbody w1. destruct Hw as (E1 & E2 & E3). exists (w1 <| file_line := u32 (file_line w1 + l) |>), r. split; [done|].
  recs. by rewrite E2, Hc.
Qed.
Lemma skip_block_ok w o c n m :
  handler_ok w -> exists w' r, skip_block w o c n m = Some (w', r) /\ handler_ok w' /\ content (fh w') = content (fh w) /\
    (fpos (fh w) <= fpos (fh w'))%nat /\ oc w' = oc w /\ kernel w' = kernel w.
Proof.
  intros [Hd Hfr Hsub Hf]. destruct (skip_block_file w o c n m Hf) as (w' & r & Hs & Hc & Hp & E1 & E2).
  exists w', r. do 1 (split; [done|]). split; [|split; [done|split; [lia|done]]].
  split; unfold stack, size in *; rewrite ?E1, ?Hc; try done. lia.
Qed.
Lemma find_top_spec p s i : find_top p s = Some i -> exists f, s !! i = Some f /\ p f = true.
Proof.
  revert i. induction s as [|f s IH]; intros i; cbn [find_top]; [done|].
  destruct (find_top p s) as [j|]; [intros [= <-]; by apply (IH j)|]. destruct (p f) eqn:Hp; [|done]. intros [= <-]. by exists f.
Qed.
Lemma is_block_spec t n f : is_block t n f = true -> type_ f = t /\ num f = n.
Proof. unfold is_block. intros [Ht Hn]%andb_true_iff. apply bool_decide_eq_true in Ht. by apply Z.eqb_eq in Hn. Qed.

(** Two ways to stay in the types: another stack, or another place. *)
Lemma stack_ok w w' s :
  handler_ok w -> stack w' = s -> sub_table_ (oc w') = sub_table_ (oc w) -> fh w' = fh w ->
  (length s <= OCODE_MAX_STACK_DEPTH)%nat -> Forall (frame_ok (size w)) s -> op_ok w (Some w').
Proof.
  intros [] <- Hsub Hf Hd Hfr. exists w'. split; [done|]. split; [|rewrite Hf; done].
  split; unfold size in *; rewrite ?Hf, ?Hsub; done.
Qed.
Lemma jump_ok w w' f o :
  handler_ok w -> oc w' = oc w -> fh w' = fh w -> 0 <= o <= size w -> loop_offset f = o ->
  any_frame_skipping w = false -> handler_ok (jump_back w' f) /\ content (fh (jump_back w' f)) = content (fh w) /\ stack (jump_back w' f) = stack w.
Proof.
  intros [] Ho Hf Hr <- Hs. unfold jump_back, fseek. destruct (Z.ltb_spec (loop_offset f) 0); [lia|].
  unfold stack, size in *. recs. rewrite Hf. recs. split; [|by rewrite Ho].
  split; unfold stack, size; recs; rewrite ?Ho, ?Hf; recs; try done. lia.
Qed.
Lemma same_ok w w' : handler_ok w -> oc w' = oc w -> fh w' = fh w -> op_ok w (Some w').
Proof. intros H0 Ho Hf. pose proof H0 as []. apply (stack_ok w w' (stack w)); try done; unfold stack; by rewrite Ho. Qed.
Lemma label_error_ok w n m : handler_ok w -> op_ok w (Some (label_error w n m)).
Proof. intros H0. apply same_ok; [done|..]; unfold label_error; by case_match. Qed.
Lemma eval_expr_same w c : let '(w', _) := eval_expr w c in oc w' = oc w /\ fh w' = fh w /\ file_line w' = file_line w.
Proof. unfold eval_expr. by destruct (evaluate (kernel w) c) as [[? ?] ?]. Qed.
Lemma push_ok w w' f : handler_ok w -> oc w' = oc w -> fh w' = fh w -> stack_full w = false -> frame_ok (size w) f -> op_ok w (Some (push w' f)).
Proof.
  intros [] Ho Hf Hs Hfr. apply Nat.leb_gt in Hs. apply (stack_ok w _ (stack w ++ [f])); try done;
    unfold push, stack in *; recs; rewrite ?Ho; try done.
  - rewrite length_app. cbn [length]. lia.
  - apply Forall_app_2; [done|by apply Forall_singleton].
Qed.
Lemma erase_ok w w' i : handler_ok w -> oc w' = oc w -> fh w' = fh w -> op_ok w (Some (erase w' i)).
Proof.
  intros [] Ho Hf. apply (stack_ok w _ (delete i (stack w))); try done; unfold erase, set_stack, stack in *; recs; rewrite ?Ho; try done.
  - rewrite delete_take_drop, length_app, length_take, length_drop. lia.
  - by apply Forall_delete.
Qed.
Lemma alter_ok w w' g i :
  handler_ok w -> oc w' = oc w -> fh w' = fh w -> (forall f, stack w !! i = Some f -> frame_ok (size w) f -> frame_ok (size w) (g f)) ->
  op_ok w (Some (set_stack w' (alter g i (stack w')))).
Proof.
  intros [] Ho Hf Hg. assert (Hst : stack w' = stack w) by (unfold stack; by rewrite Ho). rewrite Hst.
  apply (stack_ok w _ (alter g i (stack w))); try done; unfold set_stack; recs; rewrite ?Ho; try done.
  - by rewrite length_alter.
  - apply Forall_alter; [done|]. intros f Hi Hfr. by apply Hg.
Qed.

(** *** Each keyword *)
Lemma scan_subs_total fuel f i o k (w : @World K) :
  content f = content (fh w) -> (fpos f <= length (content f))%nat -> (length (content f) - fpos f < fuel)%nat ->
  map_Forall (fun _ e => 0 <= sub_offset e <= size w) (sub_table_ o) ->
  exists o' k', scan_subs fuel halts f i o k = Some (o', k') /\ stack_ o' = stack_ o /\
    map_Forall (fun _ e => 0 <= sub_offset e <= size w) (sub_table_ o').
Proof.
  revert f i o k. induction fuel as [|fuel IH]; intros f i o k Hc Hf Hl Hs; [lia|]. cbn [scan_subs].
  destruct (fgets 130 f) as [f1 r] eqn:Hg. destruct (fgets_spec _ _ _ _ Hf Hg) as (Hc1 & Hp & Ho).
  destruct r as [l|]; [|by exists o, k]. destruct (Ho l eq_refl) as [Hl1 Hl2]. destruct (halts i); [by eexists _, _|].
  assert (Hrec : forall i o' k', stack_ o' = stack_ o -> map_Forall (fun _ e => 0 <= sub_offset e <= size w) (sub_table_ o') ->
    exists o'' k'', scan_subs fuel halts f1 i o' k' = Some (o'', k'') /\ stack_ o'' = stack_ o /\
      map_Forall (fun _ e => 0 <= sub_offset e <= size w) (sub_table_ o'')).
  { intros j o' k' He Ho'. rewrite <- He. apply IH; [congruence|rewrite Hc1; lia|rewrite Hc1; lia|done]. }
  repeat case_match; apply Hrec; try done. recs. apply map_Forall_insert_2; [|done].
  unfold ftell, size. cbn [sub_offset]. rewrite <- Hc. lia.
Qed.
Lemma pre_scan_ok w : handler_ok w -> exists w', pre_scan halts w = Some w' /\ handler_ok w' /\ content (fh w') = content (fh w) /\
  fpos (fh w') = fpos (fh w) /\ stack w' = stack w.
Proof.
  intros [Hd Hfr Hsub Hf]. unfold pre_scan. cbv zeta.
  destruct (scan_subs_total (S (length (content (fh w)))) (fseek (fh w) 0) 0
    ((oc w) <| pre_scanned_ := true |> <| sub_table_ := ∅ |>) (notes w) w) as (o & k & -> & Ho & Hs);
    [done|change (fpos (fseek (fh w) 0)) with 0%nat; lia|
     change (fpos (fseek (fh w) 0)) with 0%nat; change (content (fseek (fh w) 0)) with (content (fh w)); lia|apply map_Forall_empty|].
  cbn [mbind option_bind]. eexists. split; [done|]. unfold ftell, fseek, stack, size in *. recs.
  destruct (Z.ltb_spec (Z.of_nat (fpos (fh w))) 0); [lia|]. recs.
  split; [|split; [done|split; [lia|done]]]. split; unfold stack, size; recs; rewrite ?Ho; try done. lia.
Qed.

Lemma do_sub_ok w n : handler_ok w -> op_ok w (do_sub w n).
Proof.
  intros H0. unfold do_sub. destruct (any_frame_skipping w); [by apply same_ok|].
  destruct (skip_block_ok w "sub" "endsub" n (Some "sub has no matching endsub"%string) H0) as (w' & r & -> & Hok & Hc & Hp & _).
  cbn [mbind option_bind]. by exists w'.
Qed.
Lemma not_skipping_take (w w' : @World K) i :
  any_frame_skipping w = false -> stack w' = take i (stack w) -> is_skipping w' = false.
Proof.
  unfold any_frame_skipping, is_skipping, any_frame_skipping. intros Hs ->.
  rewrite <- (take_drop i (stack w)), existsb_app in Hs. by apply orb_false_iff in Hs as [-> _].
Qed.
Lemma not_skipping_jump (w w' : @World K) : any_frame_skipping w = false -> stack w' = stack w -> is_skipping w' = false.
Proof. unfold is_skipping, any_frame_skipping. by intros ? ->. Qed.
Lemma take_ok w i : handler_ok w -> handler_ok (set_stack w (take i (stack w))).
Proof.
  intros []. unfold set_stack. split; unfold stack, size in *; recs; try done; [rewrite length_take; lia|by apply Forall_take].
Qed.
Lemma do_endsub_ok w : handler_ok w -> op_ok w (do_endsub w).
Proof.
  intros H0. unfold do_endsub. destruct (any_frame_skipping w) eqn:Hs; [by apply same_ok|].
  destruct (find_top _ (stack w)) as [i|] eqn:Hi; [|by apply same_ok]. destruct (find_top_spec _ _ _ Hi) as (f & Hf & Ht).
  rewrite Hf. cbn [mbind option_bind]. apply bool_decide_eq_true in Ht.
  pose proof (Forall_lookup_1 _ _ _ _ (ho_frames _ H0) Hf) as Hfr. unfold frame_ok in Hfr. rewrite Ht in Hfr. destruct Hfr as (_ & _ & Hr).
  pose proof (take_ok w i H0) as Hok. eexists. split; [done|].
  assert (Hne : forall w1 : @World K, stack w1 = take i (stack w) -> is_skipping w1 = false) by (intros w1; by apply not_skipping_take).
  destruct Hok as [Hd2 Hfr2 Hsub2 Hf2]. unfold set_stack, fseek, stack, size in *. recs.
  destruct (Z.ltb_spec (return_offset f) 0); [lia|]. recs. split; [|split; [done|]].
  - split; unfold stack, size; recs; try done. lia.
  - by rewrite Hne.
Qed.
Lemma do_call_ok w n c : handler_ok w -> op_ok w (do_call halts w n c).
Proof.
  intros H0. unfold do_call. destruct (any_frame_skipping w) eqn:Hs; [by apply same_ok|].
  destruct (stack_full w) eqn:Hfull; [by apply same_ok|].
  assert (exists w', (if pre_scanned_ (oc w) then Some w else pre_scan halts w) = Some w' /\ handler_ok w' /\
    content (fh w') = content (fh w) /\ fpos (fh w') = fpos (fh w) /\ stack w' = stack w) as (w' & -> & [Hd Hfr Hsub Hf] & Hc & Hp & Hst).
  { destruct (pre_scanned_ (oc w)); [by exists w|by apply pre_scan_ok]. }
  cbn [mbind option_bind].
  destruct (negb (pre_scanned_ (oc w)) && pre_scan_failed_ (oc w')).
  { eexists. split; [done|]. split; [by split|]. split; [done|]. intros _. change (fpos (fh (told w' _))) with (fpos (fh w')). lia. }
  destruct (sub_table_ (oc w') !! n) as [e|] eqn:He.
  2:{ eexists. split; [done|]. split; [by split|]. split; [done|]. intros _. change (fpos (fh (told w' _))) with (fpos (fh w')). lia. }
  pose proof (map_Forall_lookup_1 _ _ _ _ Hsub He) as Hoff. cbn beta in Hoff. apply Nat.leb_gt in Hfull.
  eexists. split; [done|]. unfold enter_sub, fseek. cbv zeta. destruct (Z.ltb_spec (sub_offset e) 0); [lia|].
  unfold push, stack, size, is_skipping, any_frame_skipping in *. unfold stack in *. recs. split; [|split; [done|]].
  - split; unfold stack, size; recs; try done; [rewrite length_app, Hst; cbn [length]; lia| |lia].
    apply Forall_app_2; [done|]. apply Forall_singleton. cbn. rewrite length_take. unfold ftell. split; [done|]. split; [lia|lia].
  - rewrite existsb_app, Hst, Hs. done.
Qed.
Lemma do_if_ok w n c : handler_ok w -> op_ok w (do_if w n c).
Proof.
  intros H0. unfold do_if. destruct (stack_full w) eqn:Hf; [by apply same_ok|].
  destruct (any_frame_skipping w); [by apply push_ok|].
  pose proof (eval_expr_same w c) as He. destruct (eval_expr w c) as [w1 v]. destruct He as (E1 & E2 & _).
  by apply push_ok; try done; unfold frame_ok; cbn.
Qed.
Lemma do_elseif_ok w n c : handler_ok w -> op_ok w (do_elseif w n c).
Proof.
  intros H0. unfold do_elseif. destruct (find_top _ (stack w)) as [i|] eqn:Hi; [|by apply label_error_ok].
  destruct (find_top_spec _ _ _ Hi) as (f & Hf & Hb). apply is_block_spec in Hb as [Ht _]. rewrite Hf. cbn [mbind option_bind].
  assert (Hif : forall g e, stack w !! i = Some g -> frame_ok (size w) (g <| executing := false |>) /\
    frame_ok (size w) (g <| executing := e |> <| branch_taken := e |>)).
  { intros g e Hg. rewrite Hf in Hg. simplify_eq. unfold frame_ok. recs. by rewrite Ht. }
  destruct (branch_taken f).
  - apply alter_ok; try done. intros g Hg _. by apply (Hif g false).
  - pose proof (eval_expr_same w c) as He. destruct (eval_expr w c) as [w1 v]. destruct He as (E1 & E2 & _).
    apply alter_ok; try done. intros g Hg _. by apply Hif.
Qed.
Lemma do_else_ok w n : handler_ok w -> op_ok w (do_else w n).
Proof.
  intros H0. unfold do_else. destruct (find_top _ (stack w)) as [i|] eqn:Hi; [|by apply label_error_ok].
  destruct (find_top_spec _ _ _ Hi) as (f & Hf & Hb). apply is_block_spec in Hb as [Ht _].
  apply alter_ok; try done. intros g Hg _. rewrite Hf in Hg. simplify_eq. unfold frame_ok. recs. by rewrite Ht.
Qed.
Lemma do_endif_ok w n : handler_ok w -> op_ok w (do_endif w n).
Proof. intros H0. unfold do_endif. destruct (find_top _ (stack w)); [by apply erase_ok|by apply label_error_ok]. Qed.

(** A jump back ends the skipping question: it is made only when nothing skips. *)
Lemma jump_back_ok w w' f o :
  handler_ok w -> oc w' = oc w -> fh w' = fh w -> loop_offset f = o -> 0 <= o <= size w -> any_frame_skipping w = false ->
  op_ok w (Some (jump_back w' f)).
Proof.
  intros H0 Ho Hf Hl Hr Hs. destruct (jump_ok w w' f o H0 Ho Hf Hr Hl Hs) as (Hok & Hc & Hst).
  eexists. split; [done|]. split; [done|]. split; [done|]. by rewrite (not_skipping_jump w _ Hs Hst).
Qed.
Lemma frame_offset w i f t n :
  handler_ok w -> stack w !! i = Some f -> is_block t n f = true -> t = WHILE \/ t = DO \/ t = REPEAT -> 0 <= loop_offset f <= size w.
Proof.
  intros H0 Hi Hb Ht. apply is_block_spec in Hb as [Hty _].
  pose proof (Forall_lookup_1 _ _ _ _ (ho_frames _ H0) Hi) as Hfr. unfold frame_ok in Hfr. rewrite Hty in Hfr.
  by destruct Ht as [->|[->| ->]]; destruct_and?.
Qed.
Lemma do_while_ok w l n c : handler_ok w -> (length (c_string l) <= fpos (fh w))%nat -> op_ok w (do_while w l n c).
Proof.
  intros H0 Hl. unfold do_while. destruct (find_top (is_block DO n) (stack w)) as [i|] eqn:Hi.
  - destruct (find_top_spec _ _ _ Hi) as (f & Hf & Hb). rewrite Hf. cbn [mbind option_bind]. unfold close_do_while.
    destruct (any_frame_skipping w) eqn:Hs; [by apply erase_ok|].
    pose proof (eval_expr_same w c) as He. destruct (eval_expr w c) as [w1 v]. destruct He as (E1 & E2 & _).
    destruct (is_true v); [|by apply erase_ok]. apply (jump_back_ok w w1 f (loop_offset f)); try done.
    eapply frame_offset; [done|done|exact Hb|auto].
  - destruct (stack_full w) eqn:Hfull; [by apply same_ok|]. cbv zeta.
    assert (Hoff : 0 <= ftell (fh w) - Z.of_nat (length (c_string l)) <= size w).
    { pose proof (ho_file _ H0). unfold ftell, size. lia. }
    destruct (any_frame_skipping w) eqn:Hs; [by apply push_ok|].
    pose proof (eval_expr_same w c) as He. destruct (eval_expr w c) as [w1 v]. destruct He as (E1 & E2 & _).
    destruct (is_true v); [by apply push_ok|].
    assert (H1 : handler_ok w1) by (destruct H0; split; unfold stack, size in *; by rewrite ?E1, ?E2).
    destruct (skip_block_ok w1 "while" "endwhile" n (Some "while has no matching endwhile"%string) H1) as (w2 & r & -> & Hok & Hc & Hp & _).
    cbn [mbind option_bind]. exists w2. rewrite <- E2. done.
Qed.
Lemma erase_after w w' i : op_ok w (Some w') -> handler_ok w' -> stack w' = stack w -> any_frame_skipping w = false -> op_ok w (Some (erase w' i)).
Proof.
  intros (w1 & [= <-] & Hok & Hc & _) _ Hst Hs. destruct (erase_ok w' w' i Hok eq_refl eq_refl) as (w2 & [= <-] & Hok2 & Hc2 & _).
  eexists. split; [done|]. split; [done|]. split; [by rewrite Hc2|]. intros Hx. exfalso.
  unfold is_skipping, any_frame_skipping in *. change (stack (erase w' i)) with (delete i (stack w')) in Hx.
  rewrite Hst, delete_take_drop, existsb_app in Hx.
  rewrite <- (take_drop i (stack w)), existsb_app in Hs. apply orb_false_iff in Hs as [Hs1 Hs2]. rewrite Hs1 in Hx. cbn [orb] in Hx.
  rewrite <- (drop_drop (stack w) i 1) in Hx || rewrite <- (Nat.add_1_r i), <- drop_drop in Hx.
  destruct (drop i (stack w)) as [|g s]; [done|]. cbn [existsb] in Hs2. apply orb_false_iff in Hs2 as [_ Hs2]. rewrite skipn_cons, drop_0 in Hx. congruence.
Qed.
Lemma do_endwhile_ok w n : handler_ok w -> op_ok w (do_endwhile w n).
Proof.
  intros H0. unfold do_endwhile. destruct (find_top _ (stack w)) as [i|] eqn:Hi; [|by apply label_error_ok].
  destruct (find_top_spec _ _ _ Hi) as (f & Hf & Hb). rewrite Hf. cbn [mbind option_bind].
  destruct (any_frame_skipping w) eqn:Hs; [by apply erase_ok|].
  pose proof (frame_offset _ _ _ _ _ H0 Hf Hb ltac:(auto)) as Hoff.
  destruct (jump_ok w w f _ H0 eq_refl eq_refl Hoff eq_refl Hs) as (Hok & Hc & Hst).
  apply erase_after; try done. by apply (jump_back_ok w w f (loop_offset f)).
Qed.
Lemma do_do_ok w n : handler_ok w -> op_ok w (do_do w n).
Proof.
  intros H0. unfold do_do. destruct (stack_full w) eqn:Hf; [by apply same_ok|]. apply push_ok; try done.
  pose proof (ho_file _ H0). unfold frame_ok, ftell, size. cbn. split; [done|lia].
Qed.
Lemma do_repeat_ok w n c : handler_ok w -> op_ok w (do_repeat w n c).
Proof.
  intros H0. unfold do_repeat. destruct (stack_full w) eqn:Hf; [by apply same_ok|].
  assert (He : let '(w', count) := (if any_frame_skipping w then (w, 0) else let '(w, v) := eval_expr w c in (w, float_to_int v)) in
    oc w' = oc w /\ fh w' = fh w /\ count < 2 ^ 31).
  { destruct (any_frame_skipping w); [done|]. pose proof (eval_expr_same w c) as He. destruct (eval_expr w c) as [w1 v].
    destruct He as (? & ? & _). pose proof (float_to_int_range v). split; [done|]. split; [done|lia]. }
  destruct (if any_frame_skipping w then _ else _) as [w1 count]. destruct He as (E1 & E2 & Hcnt).
  assert (H1 : handler_ok w1) by (destruct H0; split; unfold stack, size in *; by rewrite ?E1, ?E2).
  destruct (negb (any_frame_skipping w1) && (0 <? count)) eqn:Hgo.
  - apply push_ok; try done. pose proof (ho_file _ H0). apply andb_true_iff in Hgo as [_ Hgo]. apply Z.ltb_lt in Hgo.
    unfold frame_ok, ftell, size. cbn. rewrite E2. split; [done|]. split; lia.
  - destruct (skip_block_ok w1 "repeat" "endrepeat" n (Some "repeat has no matching endrepeat"%string) H1) as (w2 & r & -> & Hok & Hc & Hp & _).
    cbn [mbind option_bind]. exists w2. rewrite <- E2. done.
Qed.
Lemma delete_alter (g : Frame -> Frame) (i : nat) (s : list Frame) : delete i (alter g i s) = delete i s.
Proof. revert i. induction s as [|f s IH]; intros [|i]; cbn; try done. f_equal. apply IH. Qed.
Lemma skipping_alter (g : Frame -> Frame) (i : nat) (s : list Frame) :
  (forall f, executing (g f) = executing f) ->
  existsb (fun f => negb (executing f)) (alter g i s) = existsb (fun f => negb (executing f)) s.
Proof.
  intros Hg. revert i. induction s as [|f s IH]; intros [|i]; try done.
  - change (alter g 0%nat (f :: s)) with (g f :: s). cbn [existsb]. by rewrite Hg.
  - change (alter g (S i) (f :: s)) with (f :: alter g i s). cbn [existsb]. by rewrite IH.
Qed.
(** The stack with its [i]th frame gone, everything else kept. *)
Lemma erased_ok (w w' : @World K) (i : nat) :
  handler_ok w -> stack w' = delete i (stack w) -> sub_table_ (oc w') = sub_table_ (oc w) -> content (fh w') = content (fh w) ->
  (fpos (fh w) <= fpos (fh w') <= length (content (fh w)))%nat -> op_ok w (Some w').
Proof.
  intros [] Hst Hsub Hc Hp. eexists. split; [done|]. split; [|split; [done|intros _; lia]].
  split; unfold size in *; rewrite ?Hst, ?Hsub, ?Hc; try done; [|by apply Forall_delete|lia].
  rewrite delete_take_drop, length_app, length_take, length_drop. lia.
Qed.
Lemma counted_frame (w : @World K) i f n :
  handler_ok w -> stack w !! i = Some f -> is_block REPEAT n f = true -> 1 <= repeat_count f < 2 ^ 31 /\ 0 <= loop_offset f <= size w /\ executing f = true.
Proof.
  intros H0 Hi Hb. apply is_block_spec in Hb as [Hty _]. pose proof (Forall_lookup_1 _ _ _ _ (ho_frames _ H0) Hi) as Hfr.
  unfold frame_ok in Hfr. rewrite Hty in Hfr. tauto.
Qed.
Lemma do_endrepeat_ok w n : handler_ok w -> op_ok w (do_endrepeat w n).
Proof.
  intros H0. unfold do_endrepeat. destruct (find_top _ (stack w)) as [i|] eqn:Hi; [|by apply label_error_ok].
  destruct (find_top_spec _ _ _ Hi) as (f & Hf & Hb). destruct (any_frame_skipping w) eqn:Hs; [by apply erase_ok|].
  destruct (counted_frame _ _ _ _ H0 Hf Hb) as (Hcnt & Hoff & Hex).
  assert (Hst : stack (count_down w i) = alter (fun f => f <| repeat_count := s32 (repeat_count f - 1) |>) i (stack w)) by done.
  cbv zeta. rewrite Hst, list_lookup_alter_eq, Hf. cbn [fmap option_fmap option_map mbind option_bind]. recs.
  rewrite s32_small by lia. destruct (Z.ltb_spec 0 (repeat_count f - 1)) as [Hgo|Hgo].
  - assert (H1 : handler_ok (count_down w i)).
    { assert (op_ok w (Some (count_down w i))) as (w1 & [= <-] & ? & _); [|done].
      apply alter_ok; try done. intros f' Hf' Hfr'. rewrite Hf in Hf'. simplify_eq. apply is_block_spec in Hb as [Hty _].
      unfold frame_ok in *. recs. rewrite Hty in *. rewrite s32_small by lia. split; [done|]. split; [lia|done]. }
    assert (Hs1 : any_frame_skipping (count_down w i) = false).
    { unfold any_frame_skipping in *. by rewrite Hst, skipping_alter. }
    destruct (jump_back_ok (count_down w i) (count_down w i) f (loop_offset f) H1) as (w1 & [= <-] & Ho & Hc & Hsk); try done.
    eexists. done.
  - apply (erased_ok w _ i); try done; [|pose proof (ho_file _ H0); change (fh (erase (count_down w i) i)) with (fh w); lia].
    change (stack (erase (count_down w i) i)) with (delete i (stack (count_down w i))). by rewrite Hst, delete_alter.
Qed.
Lemma find_loop_spec (w : @World K) n i : find_loop_frame w n = Some i ->
  exists f, stack w !! i = Some f /\ exists t, is_block t n f = true /\ (t = WHILE \/ t = DO \/ t = REPEAT).
Proof.
  intros Hi. destruct (find_top_spec _ _ _ Hi) as (f & Hf & Hb). exists f. split; [done|].
  apply andb_true_iff in Hb as [Ht Hn]. apply Z.eqb_eq in Hn as <-. exists (type_ f). split; [by apply is_block_same|].
  destruct (type_ f); auto; discriminate.
Qed.
Lemma do_break_ok w n : handler_ok w -> op_ok w (do_break w n).
Proof.
  intros H0. unfold do_break. destruct (any_frame_skipping w) eqn:Hs; [by apply same_ok|].
  destruct (find_loop_frame w n) as [i|] eqn:Hi; [|by apply label_error_ok].
  destruct (find_loop_spec _ _ _ Hi) as (f & Hf & _). rewrite Hf. cbn [mbind option_bind]. cbv zeta.
  destruct (match type_ f with WHILE => _ | _ => _ end) as [ok ck].
  pose proof (take_ok w i H0) as H1.
  destruct (skip_block_ok _ ok ck n (Some "break: could not find end of loop"%string) H1) as (w2 & r & -> & Hok & Hc & Hp & _).
  cbn [mbind option_bind]. exists w2. done.
Qed.
Lemma skipping_take (w : @World K) j : any_frame_skipping w = false -> existsb (fun f => negb (executing f)) (take j (stack w)) = false.
Proof. intros Hs. unfold any_frame_skipping in Hs. rewrite <- (take_drop j (stack w)), existsb_app in Hs. by apply orb_false_iff in Hs as [-> _]. Qed.
Lemma delete_take_S (s : list Frame) (i : nat) : delete i (take (S i) s) = take i s.
Proof. revert i. induction s as [|f s IH]; intros [|i]; cbn; try done. f_equal. apply IH. Qed.
Lemma do_continue_ok w n : handler_ok w -> op_ok w (do_continue w n).
Proof.
  intros H0. unfold do_continue. destruct (any_frame_skipping w) eqn:Hs; [by apply same_ok|].
  destruct (find_loop_frame w n) as [i|] eqn:Hi; [|by apply label_error_ok].
  destruct (find_loop_spec _ _ _ Hi) as (f & Hf & t & Hb & Ht). rewrite Hf. cbn [mbind option_bind].
  pose proof (frame_offset _ _ _ _ _ H0 Hf Hb Ht) as Hoff. pose proof Hb as Hb0. apply is_block_spec in Hb0 as [Hty Hnum]. rewrite Hty.
  assert (Hsk : forall j, any_frame_skipping (set_stack w (take j (stack w))) = false) by (intros j; by apply skipping_take).
  destruct Ht as [->|[->| ->]].
  - destruct (jump_back_ok (set_stack w (take i (stack w))) (set_stack w (take i (stack w))) f (loop_offset f) (take_ok w i H0))
      as (w1 & [= <-] & Hok & Hc & Hx); try done. by eexists.
  - cbv zeta. pose proof (take_ok w (S i) H0) as H1.
    destruct (skip_block_ok _ "do" "while" n (Some "continue: could not find end of do-while"%string) H1) as (w2 & r & -> & Hok & Hc & Hp & E1 & _).
    cbn [mbind option_bind]. pose proof (eval_expr_same w2 (default [] r)) as He. destruct (eval_expr w2 (default [] r)) as [w3 v].
    destruct He as (F1 & F2 & _). destruct (is_true v).
    + assert (Hs2 : any_frame_skipping w2 = false) by (unfold any_frame_skipping, stack; rewrite E1; apply Hsk).
      destruct (jump_back_ok w2 w3 f (loop_offset f) Hok) as (w4 & [= <-] & Ho4 & Hc4 & Hx4); try done.
      { unfold size in *. rewrite Hc. done. }
      eexists. split; [done|]. split; [done|]. split; [by rewrite Hc4, Hc|]. intros Hx. exfalso.
      destruct (jump_ok w2 w3 f (loop_offset f)) as (_ & _ & Hst); try done; [unfold size in *; by rewrite Hc|].
      by rewrite (not_skipping_jump w2 _ Hs2 Hst) in Hx.
    + destruct (erase_ok w2 w3 i Hok F1 F2) as (w4 & [= <-] & Ho4 & Hc4 & _). eexists. split; [done|]. split; [done|].
      split; [by rewrite Hc4, Hc|]. intros _. change (fh (erase w3 i)) with (fh w3). rewrite F2. exact Hp.
  - cbv zeta. set (w1 := set_stack w (take (S i) (stack w))). pose proof (take_ok w (S i) H0) as H1. fold w1 in H1.
    destruct (counted_frame _ _ _ _ H0 Hf Hb) as (Hcnt & _ & Hex).
    assert (Hf1 : stack w1 !! i = Some f) by (change (stack w1) with (take (S i) (stack w)); rewrite lookup_take_lt by lia; done).
    assert (Hst : stack (count_down w1 i) = alter (fun f => f <| repeat_count := s32 (repeat_count f - 1) |>) i (stack w1)) by done.
    rewrite Hst, list_lookup_alter_eq, Hf1. cbn [fmap option_fmap option_map mbind option_bind]. recs.
    rewrite s32_small by lia. destruct (Z.ltb_spec 0 (repeat_count f - 1)) as [Hgo|Hgo].
    + assert (H2 : handler_ok (count_down w1 i)).
      { assert (op_ok w1 (Some (count_down w1 i))) as (w2 & [= <-] & ? & _); [|done].
        apply alter_ok; try done. intros f' Hf' Hfr'. rewrite Hf1 in Hf'. simplify_eq. unfold frame_ok in *. recs. rewrite Hty in *.
        rewrite s32_small by lia. split; [done|]. split; [lia|done]. }
      assert (Hs2 : any_frame_skipping (count_down w1 i) = false).
      { unfold any_frame_skipping. rewrite Hst, skipping_alter; [|done]. apply (Hsk (S i)). }
      destruct (jump_back_ok (count_down w1 i) (count_down w1 i) f (loop_offset f) H2)
        as (w3 & [= <-] & Ho3 & Hc3 & Hx3); try done. by eexists.
    + destruct (skip_block_file (count_down w1 i) "repeat" "endrepeat" n None (ho_file _ H0)) as (w2 & r & -> & Hc & Hp & E1 & _).
      cbn [mbind option_bind]. destruct (erased_ok w1 (erase w2 i) i H1) as (w4 & [= <-] & Ho4 & Hc4 & Hx4); [|by unfold erase, set_stack; recs; rewrite E1|done|done|by eexists].
      change (stack (erase w2 i)) with (delete i (stack w2)). unfold stack at 1. rewrite E1. change (stack_ (oc (count_down w1 i))) with (stack (count_down w1 i)).
      by rewrite Hst, delete_alter.
Qed.

(** The handler always comes back, in the types. *)
Lemma process_line_ok w l :
  handler_ok w -> (length (c_string l) <= fpos (fh w))%nat ->
  exists w' b, process_line halts l w = Some (w', b) /\ handler_ok w' /\ content (fh w') = content (fh w) /\
    (is_skipping w' = true -> (fpos (fh w) <= fpos (fh w'))%nat) /\ (b = false -> w' = w).
Proof.
  intros H0 Hl. unfold process_line. destruct (parse_ocode l) as [[[n kw] c]|]; [|exists w, false; done].
  cbv zeta. match goal with |- context [mbind _ ?x] => assert (Hop : op_ok w x) end.
  { repeat (match goal with |- context [if ?b then _ else _] => destruct b end);
      auto using do_sub_ok, do_endsub_ok, do_call_ok, do_if_ok, do_elseif_ok, do_else_ok, do_endif_ok, do_while_ok, do_endwhile_ok,
        do_do_ok, do_repeat_ok, do_endrepeat_ok, do_break_ok, do_continue_ok. by apply same_ok. }
  destruct Hop as (w' & -> & Hok & Hc & Hx). exists w', true. done.
Qed.

(** *** The player's loop *)
Lemma c_string_length l : (length (c_string l) <= length l)%nat.
Proof. induction l as [|c l IH]; cbn; [lia|]. destruct (c =? 0); cbn; lia. Qed.
Lemma at_file_ok w (w' : @World K) :
  handler_ok w -> oc w' = oc w -> content (fh w') = content (fh w) -> (fpos (fh w') <= length (content (fh w)))%nat -> handler_ok w'.
Proof. intros [] Ho Hc Hp. split; unfold stack, size in *; by rewrite ?Ho, ?Hc. Qed.
Lemma line_iteration_ok w discard :
  handler_ok w -> exists w' discard' o, line_iteration dispatch halts w discard = Some (w', discard', o) /\ handler_ok w' /\
    content (fh w') = content (fh w) /\ (o = goes_on -> (fpos (fh w) < fpos (fh w'))%nat).
Proof.
  intros H0. unfold line_iteration. destruct (fgets 130 (fh w)) as [f o] eqn:Hg.
  destruct (fgets_spec _ _ _ _ (ho_file _ H0) Hg) as (Hc & Hp & Ho).
  assert (H1 : handler_ok (w <| fh := f |>)) by (apply (at_file_ok w); recs; [done|done|done|lia]).
  destruct o as [buf|]; [|by eexists _, _, source_ended]. destruct (Ho buf eq_refl) as [Hl1 Hl2]. cbv zeta.
  assert (Hfw : (fpos (fh w) < fpos f)%nat) by lia.
  assert (Hgo : forall d : bool, exists (w' : @World K) (discard' : bool) (o : Outcome), Some ((w : @World K) <| fh := f |>, d, goes_on) = Some (w', discard', o) /\ handler_ok w' /\
    content (fh w') = content (fh w) /\ (o = goes_on -> (fpos (fh w) < fpos (fh w'))%nat)).
  { intros d. eexists _, d, goes_on. split; [done|]. recs. done. }
  destruct (_ =? 0)%nat; [apply Hgo|]. destruct (_ || _); [|apply Hgo]. destruct discard; [apply Hgo|].
  set (w1 := (w <| fh := f |>) <| file_line := _ |>).
  assert (H2 : handler_ok w1) by (apply (at_file_ok w); unfold w1; recs; [done|done|done|lia]).
  assert (Hw1 : fh w1 = f) by done. clearbody w1.
  destruct (_ =? 1)%nat; [eexists _, false, goes_on; split; [done|]; by rewrite Hw1|].
  destruct (process_line_ok w1 (c_string buf) H2) as (w2 & b & -> & Hok & Hc2 & Hx & Hb).
  { rewrite Hw1. pose proof (c_string_length buf). pose proof (c_string_length (c_string buf)). lia. }
  cbn [mbind option_bind]. rewrite Hw1 in *. destruct b.
  - eexists _, false, _. split; [done|]. split; [done|]. split; [congruence|].
    destruct (is_skipping w2); [|done]. intros _. specialize (Hx eq_refl). lia.
  - rewrite (Hb eq_refl) in *. destruct (is_skipping w1); eexists _, false, _; (split; [done|]).
    + split; [done|]. rewrite Hw1. done.
    + assert (Hf2 : forall k, fh (w1 <| kernel := k |>) = f) by (intros; by rewrite <- Hw1).
      pose proof (ho_file _ H2) as Hle. rewrite Hw1 in Hle.
      split; [apply (at_file_ok w1); rewrite ?Hf2, ?Hw1; try done; lia|]. by rewrite Hf2.
Qed.

(** One call of the player's main loop over a file with O-codes always ends,
    within as many lines as the file has characters left, whatever the file
    says: while it skips it never goes back, and where it does go back (a loop's
    end, a return, a call) it returns to the main loop. Searching a block's end
    and scanning for subroutines end too. *)
Theorem play_turn_returns w discard :
  handler_ok w -> exists w' o, play_turn dispatch halts (S (length (content (fh w)) - fpos (fh w))) w discard = Some (w', o) /\
    o <> goes_on /\ handler_ok w'.
Proof.
  intros H0. remember (length (content (fh w)) - fpos (fh w))%nat as n eqn:Hn.
  assert (Hle : (length (content (fh w)) - fpos (fh w) <= n)%nat) by lia. clear Hn.
  revert w discard H0 Hle. induction n as [|n IH]; intros w discard H0 Hle; cbn [play_turn];
    destruct (line_iteration_ok w discard H0) as (w' & d' & o & -> & Hok & Hc & Hf); cbn [mbind option_bind];
    (destruct o; [|by eexists _, _..]).
  - specialize (Hf eq_refl). pose proof (ho_file _ Hok). rewrite Hc in *. lia.
  - specialize (Hf eq_refl). apply IH; [done|]. rewrite Hc. lia.
Qed.

(** What happens to the handler: the player's lines, a reset, a jump, a seek. *)
Inductive handler_step (w : @World K) : @World K -> Prop :=
| reads_line discard w' discard' o : line_iteration dispatch halts w discard = Some (w', discard', o) -> handler_step w w'
| is_reset : handler_step w (w <| oc := reset (oc w) |>)
| prepares_jump w' : prepare_jump halts w = Some w' -> handler_step w w'
| seeks p n : (p <= length (content (fh w)))%nat -> handler_step w (w <| fh := fseek (fh w) (Z.of_nat p) |> <| file_line := n |>)
| kernel_moves k : handler_step w (w <| kernel := k |>).

Lemma handler_step_ok w w' : handler_ok w -> handler_step w w' -> handler_ok w' /\ content (fh w') = content (fh w).
Proof.
  intros H0 Hs. destruct Hs as [d w' d' o Hl| |w' Hj|p n Hp|k].
  - destruct (line_iteration_ok w d H0) as (w1 & d1 & o1 & Hl1 & Hok & Hc & _). rewrite Hl in Hl1. by simplify_eq.
  - split; [|done]. split; [exact (Nat.le_0_l _)|apply Forall_nil_2|apply map_Forall_empty|apply (ho_file _ H0)].
  - unfold prepare_jump in Hj. cbv zeta in Hj. set (w1 := w <| oc := _ |>) in Hj.
    assert (H1 : handler_ok w1) by (split; [exact (Nat.le_0_l _)|apply Forall_nil_2|apply (ho_subs _ H0)|apply (ho_file _ H0)]).
    destruct (pre_scanned_ (oc w1)); [by simplify_eq|]. destruct (pre_scan_ok w1 H1) as (w2 & Hw2 & Hok & Hc & _).
    rewrite Hj in Hw2. by simplify_eq.
  - split; [|unfold fseek; case_match; by recs]. apply (at_file_ok w); try done; unfold fseek; case_match; recs; try done; try lia.
  - split; [|done]. by apply (at_file_ok w); try apply H0.
Qed.

(** C38: The handler's state stays well typed through any history of lines,
    resets, jumps and seeks, whatever the file holds: no more than ten frames, so
    the fixed array never overflows; each frame holds what its kind needs (a
    chosen branch is marked taken; loops and returns lead inside the file, so no
    seek is refused; a repeat has turns left; a subroutine has its parameters);
    and every known subroutine starts inside the file. *)
Theorem handler_well_typed f n k nts w :
  (fpos f <= length (content f))%nat -> star handler_step (mk_world new_ocode f n k nts) w ->
  handler_ok w /\ content (fh w) = content f.
Proof.
  intros Hf Hs. refine (star_invariant handler_step (fun w => handler_ok w /\ content (fh w) = content f) _ _ _ Hs _).
  - intros a b [Ha Hc] Hab. destruct (handler_step_ok _ _ Ha Hab) as [? Hc2]. split; [done|congruence].
  - split; [|done]. split; unfold stack, OCODE_MAX_STACK_DEPTH; cbn; [lia|apply Forall_nil_2|apply map_Forall_empty|done].
Qed.
End Types.

(** ** Programs run as they are meant *)
Lemma text_proper : (forall p d dos, well_formed d dos p -> Forall proper (text p)) /\
  (forall e d dos n, well_formed_clauses d dos n e -> Forall proper (clauses_text e)).
Proof.
  apply prog_clauses_ind; cbn [text clauses_text well_formed well_formed_clauses]; unfold reads; intros; destruct_and?;
    repeat match goal with H : exists _, _ |- _ => destruct H end; destruct_and?;
    repeat (apply Forall_nil_2 || apply Forall_cons_2 || apply Forall_app_2); eauto.
Qed.

Lemma structured_runs {K} `{Kernel K} dispatch halts p k o k' :
  well_formed 0 [] p -> exec dispatch p k o k' ->
  exists w, runs dispatch halts (mk_world new_ocode (mk_file (concat (text p)) 0 false) 0 k []) o w /\
    kernel w = k' /\ stack w = [] /\ notes w = [] /\ file_line w = u32 (Z.of_nat (length (text p))) /\
    exists w', line_iteration dispatch halts w false = Some (w', false, source_ended).
Proof.
  intros Hw Hx. pose proof (proj1 text_proper p _ _ Hw) as Hls.
  destruct (proj1 (simulation dispatch halts (text p) Hls ∅ false false []) p k o k' Hx 0%nat [] 0%nat []) with (tol := false) as [tol Hr];
    [done|by intros j l Hj|cbn; lia|apply Forall_nil_2|done|].
  rewrite Nat.add_0_l in Hr. eexists. split; [exact Hr|]. do 4 (split; [done|]).
  unfold line_iteration. change (fh (at_line _ _ _ _ _ _ _ _ _)) with (mk_file (concat (text p)) (offset (text p) (length (text p))) false).
  rewrite fgets_end. by eexists.
Qed.
(** C14: A structured program is run as its author means it. For any nesting of
    conditionals with their elseif and else branches, while, do-while and repeat
    loops up to ten deep, if the program's meaning ends having dispatched some
    lines and left the kernel in some state, then the player, reading its text
    line by line through the handler's stack, seeks and skips, dispatches exactly
    those lines in that order, leaves the kernel in that state, comes to the end
    of the file with the line counter right, no block open and no error told. *)
Theorem program_runs_as_meant {K} `{Kernel K} dispatch halts p k o k' :
  well_formed 0 [] p -> exec dispatch p k o k' ->
  exists w, runs dispatch halts (mk_world new_ocode (mk_file (concat (text p)) 0 false) 0 k []) o w /\
    kernel w = k' /\ stack w = [] /\ notes w = [] /\ file_line w = u32 (Z.of_nat (length (text p))) /\
    exists w', line_iteration dispatch halts w false = Some (w', false, source_ended).
Proof. apply structured_runs. Qed.

(** *** Examples *)
Definition demo_kernel : Kernel nat :=
  mk_kernel nat (fun _ => repeat 0 30) (fun _ k => k) (fun k _ => (k, if (k =? 0)%nat then 0 else 0x3F800000, 0%nat)).
Definition demo_dispatch (k : nat) (l : list Z) : nat := pred k.
Definition text_line (s : string) : list Z := chars s ++ [10].
(** A loop that runs while the kernel counts, then a branch not taken. *)
Definition demo_program : prog :=
  p_line (text_line "G0")
    (p_while 1 (text_line "O1 while [#1]") (chars "[#1]") (p_line (text_line "G1") p_end) (text_line "O1 endwhile")
      (p_if 2 (text_line "O2 if [#1]") (chars "[#1]") (p_line (text_line "G2") p_end)
        (c_else (text_line "O2 else") (p_line (text_line "M5") p_end) (text_line "O2 endif")) p_end)).
Lemma demo_line s : forallb (fun c => negb (c =? 10) && negb (c =? 0)) (chars s) = true -> (length (chars s) <= 128)%nat -> proper (text_line s).
Proof.
  intros Hc Hl. exists (chars s). split; [done|]. split; [|done]. apply List.Forall_forall. intros c Hin.
  rewrite forallb_forall in Hc. specialize (Hc c Hin). lia.
Qed.
Ltac demo_reads := split; [apply demo_line; [reflexivity|cbn; lia]|vm_compute; reflexivity].
Lemma demo_well_formed : well_formed 0 [] demo_program.
Proof.
  cbn [demo_program well_formed well_formed_clauses]. unfold reads.
  repeat match goal with
  | |- _ /\ _ => split
  | |- exists _, _ => eexists
  | |- proper _ => apply demo_line; [reflexivity|cbn; lia]
  | |- parse_ocode _ = _ => vm_compute; reflexivity
  | |- _ ∉ [] => apply not_elem_of_nil
  | |- True => exact I
  | |- (_ < _)%nat => unfold OCODE_MAX_STACK_DEPTH; lia
  end.
Qed.
Lemma demo_exec : exec (H := demo_kernel) demo_dispatch demo_program 3%nat
  [text_line "G0"; text_line "G1"; text_line "G1"; text_line "M5"] 0%nat.
Proof.
  unfold demo_program. apply x_line; [done|].
  apply (x_while_again demo_dispatch 1 _ _ _ _ _ _ 2%nat 0x3F800000 [text_line "G1"] 1%nat [text_line "G1"; text_line "M5"]); [done|done| |].
  { apply x_line; [done|]. apply x_end. }
  apply (x_while_again demo_dispatch 1 _ _ _ _ _ _ 1%nat 0x3F800000 [text_line "G1"] 0%nat [text_line "M5"]); [done|done| |].
  { apply x_line; [done|]. apply x_end. }
  eapply x_while_done; [done|done|].
  apply (x_if_false demo_dispatch 2 _ _ _ _ _ _ 0%nat 0 [text_line "M5"] 0%nat []); [done|done| |apply x_end].
  apply x_else. apply x_line; [done|]. apply x_end.
Qed.
Lemma program_runs_as_meant_witness : exists w,
  runs (H := demo_kernel) demo_dispatch (fun _ => false)
    (mk_world new_ocode (mk_file (concat (text demo_program)) 0 false) 0 3%nat [])
    [text_line "G0"; text_line "G1"; text_line "G1"; text_line "M5"] w /\ kernel w = 0%nat /\ stack w = [].
Proof.
  destruct (program_runs_as_meant (H := demo_kernel) demo_dispatch (fun _ => false) demo_program 3%nat _ 0%nat
    demo_well_formed demo_exec) as (w & Hr & Hk & Hs & _).
  exists w. split; [exact Hr|]. split; [exact Hk|exact Hs].
Defined.

Definition demo_file : File := mk_file (concat (map text_line ["O1 if [1]"; "O1 endif"; "G1"]%string)) 0 false.
Definition demo_start : @World nat := mk_world new_ocode demo_file 0 0%nat [].
Lemma demo_start_ok : handler_ok demo_start.
Proof. split; [exact (Nat.le_0_l _)|apply Forall_nil_2|apply map_Forall_empty|cbn; lia]. Qed.
Lemma play_turn_returns_witness : exists w' o,
  play_turn (H := demo_kernel) demo_dispatch (fun _ => false) (S (length (content demo_file) - 0)) demo_start false = Some (w', o) /\
  o <> goes_on /\ handler_ok w'.
Proof. exact (play_turn_returns (H := demo_kernel) demo_dispatch (fun _ => false) demo_start false demo_start_ok). Defined.
Lemma handler_well_typed_witness : exists w, star (handler_step (H := demo_kernel) demo_dispatch (fun _ => false)) demo_start w /\
  handler_ok w /\ stack w <> [].
Proof.
  destruct (line_iteration (H := demo_kernel) demo_dispatch (fun _ => false) demo_start false) as [[[w d] o]|] eqn:Hw;
    [|vm_compute in Hw; discriminate].
  assert (Hs : star (handler_step (H := demo_kernel) demo_dispatch (fun _ => false)) demo_start w)
    by (apply star_one; eapply reads_line; exact Hw).
  exists w. split; [exact Hs|].
  split; [exact (proj1 (handler_well_typed (H := demo_kernel) demo_dispatch (fun _ => false) demo_file 0 0%nat [] w ltac:(cbn; lia) Hs))|].
  vm_compute in Hw. injection Hw as <- _ _. discriminate.
Defined.
