(* ===== verification/Gcode.v ===== *)
(** * G-code words ([src/src/modules/communication/utils/Gcode.h], [Gcode.cpp])

    A command is its text; the value of a letter is an expression in a small
    language, with variables, evaluated by recursive descent over the text. *)
From stdpp Require Import gmap.
From S2P Require Import Prelude CString Binary32.
#[local] Open Scope Z_scope.

(** ** What the evaluator uses of the rest *)

(** The C library's functions on [float]s (as their bits), and the value of the
    text of a number. *)
Class CLib := mk_clib {
  sinf : Z -> Z; cosf : Z -> Z; tanf : Z -> Z; asinf : Z -> Z; acosf : Z -> Z; atanf : Z -> Z;
  logf : Z -> Z; expf : Z -> Z; powf : Z -> Z -> Z;
  float_of_text : list Z -> Z
}.
(** [strtof]: the value, and what follows the number. *)
Definition strtof `{CLib} (s : list Z) : option (Z * list Z) :=
  match numeral s with
  | Some (neg, t, r) => Some (if neg then fneg (float_of_text t) else float_of_text t, r)
  | None => None
  end.
(** What the robot and the spindle answer: the machine's position, the inverse of
    the compensation where there is one, the offsets of the coordinate system in
    use, the unit, the fourth actuator's position, the spindle's speed; and what
    lies behind an array of three on the stack. *)
Record Machine := mk_machine {
  current_machine_position : list Z;
  inverse_compensation : option (list Z -> list Z);
  mcs2wcs : list Z -> list Z;
  from_millimeters : Z -> Z;
  a_position : Z;
  current_rpm : option Z;
  behind : list Z
}.
(** The variables the kernel keeps.
    [src/src/libs/Kernel.h:269-274] Kernel *)
Record Kernel := mk_kernel {
  local_params : list Z; local_vars : list Z; perm_vars : list Z; probe_outputs : list Z;
  probe_tip_diameter : Z; TLO : Z; TOOL : Z; optional_stop_mode : bool;
  machine : Machine
}.
#[export] Instance eta_Kernel : Eta Kernel := fun k =>
  mk_kernel (local_params k) (local_vars k) (perm_vars k) (probe_outputs k) (probe_tip_diameter k) (TLO k) (TOOL k)
    (optional_stop_mode k) (machine k).
(** The arrays as the kernel allocates and initialises them.
    [src/src/libs/Kernel.cpp:141-146] Kernel::Kernel *)
Definition new_vars (perm probe : list Z) (tip tlo tool : Z) (op_stop : bool) (m : Machine) : Kernel :=
  mk_kernel (repeat 0 30) (repeat (float_of_int (- 1000000)) 20) perm probe tip tlo tool op_stop m.

(** What happens besides: a printed message (to one stream, or to all; its format
    without the line's end, and what is put into it), a halt with its reason, the
    variables stored. *)
Inductive Arg := an_int (n : Z) | a_float (x : Z) | a_char (c : Z) | a_text (s : list Z).
Inductive Event :=
  | say (everyone : bool) (fmt : string) (args : list Arg)
  | set_halt_reason (reason : Z) | call_on_halt (clear : bool) | write_eeprom_data.
Record World := mk_world { kernel : Kernel; events : list Event }.

(** Computations on it; [None] only for fuel that ran out, or a read outside a
    string. *)
Definition M (A : Type) : Type := World -> option (A * World).
#[export] Instance M_ret : MRet M := fun A x w => Some (x, w).
#[export] Instance M_bind : MBind M := fun A B f m w => match m w with Some (x, w') => f x w' | None => None end.
Definition emit (e : Event) : M unit := fun w => Some (tt, mk_world (kernel w) (events w ++ [e])).
Definition read {A} (f : Kernel -> A) : M A := fun w => Some (f (kernel w), w).
Definition modify (f : Kernel -> Kernel) : M unit := fun w => Some (tt, mk_world (f (kernel w)) (events w)).
Definition stuck {A} : M A := fun _ => None.
Definition MANUAL : Z := 1.
(** The reason, the message, the halt: how every error is reported. *)
Definition halts (everyone : bool) (fmt : string) (args : list Arg) : M unit :=
  _ ← emit (set_halt_reason MANUAL); _ ← emit (say everyone fmt args); emit (call_on_halt false).
Definition NAN : Z := f_qnan.
Definition f_zero : Z := 0.
Definition f_one : Z := 0x3F800000.
Definition truth (b : bool) : Z := if b then f_one else f_zero.
Definition is_zero (x : Z) : bool := feq x f_zero.

(** ** Variables *)

(** What is kept at or below this is a variable that was not set.
    [src/src/modules/communication/utils/Gcode.cpp:193-193] Gcode::get_variable_value *)
Definition is_set (x : Z) : bool := flt (float_of_int (- 100000)) x.
Definition unset (n : Z) : M Z := _ ← halts true "ERROR: Variable %d not set " [an_int n]; mret NAN.
(** The machine's position, without the compensation.
    [src/src/modules/communication/utils/Gcode.cpp:252-254] Gcode::get_variable_value *)
Definition actual_position (m : Machine) : list Z :=
  match inverse_compensation m with Some f => f (current_machine_position m) | None => current_machine_position m end.
(** One coordinate in the coordinate system in use, in its unit: five numbers are
    read from an array of three.
    [src/src/modules/communication/utils/Gcode.cpp:276-280] Gcode::get_variable_value *)
Definition work_position (m : Machine) (axis : nat) : Z :=
  from_millimeters m (mcs2wcs m (actual_position m ++ behind m) !!! axis).
(** The numbers of the system's own variables.
    [src/src/modules/communication/utils/Gcode.cpp:228-320] Gcode::get_variable_value *)
Definition system_variable (n : Z) : M Z :=
  if n =? 2000 then read TLO
  else if n =? 3026 then read (fun k => float_of_int (TOOL k))
  else if n =? 3027 then read (fun k => default f_zero (current_rpm (machine k)))
  else if n =? 3033 then read (fun k => truth (optional_stop_mode k))
  else if n =? 5021 then read (fun k => actual_position (machine k) !!! 0%nat)
  else if n =? 5022 then read (fun k => actual_position (machine k) !!! 1%nat)
  else if n =? 5023 then read (fun k => actual_position (machine k) !!! 2%nat)
  else if n =? 5024 then read (fun k => a_position (machine k))
  else if n =? 5041 then read (fun k => work_position (machine k) 0)
  else if n =? 5042 then read (fun k => work_position (machine k) 1)
  else if n =? 5043 then read (fun k => work_position (machine k) 2)
  else if n =? 5044 then read (fun k => let m := machine k in
    mcs2wcs m (current_machine_position m ++ a_position m :: behind m) !!! 3%nat)
  else _ ← halts true "ERROR: Variable %d not found " [an_int n]; mret NAN.
(** The value of variable [n].
    [src/src/modules/communication/utils/Gcode.cpp:189-320] Gcode::get_variable_value *)
Definition variable (n : Z) : M Z :=
  let kept (base : Z) (f : Kernel -> list Z) : M Z :=
    x ← read (fun k => f k !!! Z.to_nat (n - base)); if is_set x then mret x else unset n in
  if (1 <=? n) && (n <=? 30) then read (fun k => local_params k !!! Z.to_nat (n - 1))
  else if (101 <=? n) && (n <=? 120) then kept 101 local_vars
  else if n =? 150 then read probe_tip_diameter
  else if (151 <=? n) && (n <=? 156) then kept 151 probe_outputs
  else if (501 <=? n) && (n <=? 520) then kept 501 perm_vars
  else system_variable n.
(** With what follows the number; a [#] without one is variable zero.
    [src/src/modules/communication/utils/Gcode.cpp:186-322] Gcode::get_variable_value *)
Definition get_variable_value (s : list Z) : M (Z * list Z) :=
  if points_at 35 s then
    let '(n, r) := default (0, tail s) (strtol (tail s)) in
    v ← variable n; mret (v, r)
  else mret (f_zero, s).

(** ** Expressions *)
Section Evaluator.
Context `{CLib}.

Inductive Fn := fn_sin | fn_cos | fn_tan | fn_asin | fn_acos | fn_atan | fn_sqrt | fn_abs | fn_round | fn_fix | fn_fup | fn_ln | fn_exp.
#[export] Instance Fn_eq_dec : EqDecision Fn.
Proof. solve_decision. Defined.
Definition fn_name (f : Fn) : list Z :=
  match f with
  | fn_sin => chars "sin" | fn_cos => chars "cos" | fn_tan => chars "tan" | fn_asin => chars "asin" | fn_acos => chars "acos"
  | fn_atan => chars "atan" | fn_sqrt => chars "sqrt" | fn_abs => chars "abs" | fn_round => chars "round" | fn_fix => chars "fix"
  | fn_fup => chars "fup" | fn_ln => chars "ln" | fn_exp => chars "exp"
  end.
Definition all_fns : list Fn := [fn_sin; fn_cos; fn_tan; fn_asin; fn_acos; fn_atan; fn_sqrt; fn_abs; fn_round; fn_fix; fn_fup; fn_ln; fn_exp].
(** The function whose name [s] begins with, and what follows the name.
    [src/src/modules/communication/utils/Gcode.cpp:462-481] Gcode::parse_factor *)
Definition function_at (s : list Z) : option (Fn * list Z) :=
  match List.find (fun f => starts (fn_name f) s) all_fns with
  | Some f => Some (f, drop (length (fn_name f)) s)
  | None => None
  end.
(** 3.14159... / 180.0, as a [float]. *)
Definition DEG_TO_RAD : Z := 0x3C8EFA35.
(** [src/src/modules/communication/utils/Gcode.cpp:489-518] Gcode::parse_factor *)
Definition function_value (f : Fn) (arg : Z) : Z :=
  match f with
  | fn_sin => sinf (fmul arg DEG_TO_RAD)
  | fn_cos => cosf (fmul arg DEG_TO_RAD)
  | fn_asin => fdiv (asinf arg) DEG_TO_RAD
  | fn_acos => fdiv (acosf arg) DEG_TO_RAD
  | fn_tan => if is_zero (fmodf (fsub arg (float_of_int 90)) (float_of_int 180)) then NAN else tanf (fmul arg DEG_TO_RAD)
  | fn_atan => fdiv (atanf arg) DEG_TO_RAD
  | fn_sqrt => fsqrt arg
  | fn_abs => fabsf arg
  | fn_round => roundf arg
  | fn_fix => floorf arg
  | fn_fup => ceilf arg
  | fn_ln => logf arg
  | fn_exp => expf arg
  end.
(** 1e-6, as a [float]. *)
Definition equal_tolerance : Z := 0x358637BD.
Inductive Cmp := cmp_eq | cmp_ne | cmp_gt | cmp_ge | cmp_lt | cmp_le.
Definition cmp_name (c : Cmp) : list Z :=
  match c with cmp_eq => chars "eq" | cmp_ne => chars "ne" | cmp_gt => chars "gt" | cmp_ge => chars "ge" | cmp_lt => chars "lt" | cmp_le => chars "le" end.
Definition all_cmps : list Cmp := [cmp_eq; cmp_ne; cmp_gt; cmp_ge; cmp_lt; cmp_le].
(** [src/src/modules/communication/utils/Gcode.cpp:349-382] Gcode::parse_expression *)
Definition cmp_value (c : Cmp) (x y : Z) : Z :=
  match c with
  | cmp_eq => truth (flt (fabsf (fsub x y)) equal_tolerance)
  | cmp_ne => truth (negb (flt (fabsf (fsub x y)) equal_tolerance))
  | cmp_gt => truth (flt y x) | cmp_ge => truth (fle y x) | cmp_lt => truth (flt x y) | cmp_le => truth (fle x y)
  end.
Inductive BoolOp := op_and | op_or | op_xor | op_nor.
Definition bool_name (o : BoolOp) : list Z :=
  match o with op_and => chars "and" | op_or => chars "or" | op_xor => chars "xor" | op_nor => chars "nor" end.
Definition all_bools : list BoolOp := [op_and; op_or; op_xor; op_nor].
(** [src/src/modules/communication/utils/Gcode.cpp:384-408] Gcode::parse_expression *)
Definition bool_value (o : BoolOp) (x y : Z) : Z :=
  let p := negb (is_zero x) in let q := negb (is_zero y) in
  truth (match o with op_and => p && q | op_or => p || q | op_xor => xorb p q | op_nor => negb p && negb q end).

(** Where the recursive calls go. *)
Inductive Level := Expression | Term | Factor.
Section Levels.
Context (rec : Level -> list Z -> M (Z * list Z)).
(** A word of [all] at the head of the text: its operator, and what follows it
    and the blanks after it. *)
Definition word_at {Op} (name : Op -> list Z) (all : list Op) (s : list Z) : option (Op * list Z) :=
  match List.find (fun o => starts (name o) s) all with
  | Some o => Some (o, ltrim_cstr (drop (length (name o)) s))
  | None => None
  end.
(** Additions and subtractions, from the left.
    [src/src/modules/communication/utils/Gcode.cpp:337-347] Gcode::parse_expression *)
Fixpoint sums (n : nat) (result : Z) (s : list Z) : M (Z * list Z) :=
  match n with
  | O => stuck
  | S n =>
      if points_at 43 s || points_at 45 s then
        '(next_term, s') ← rec Term (tail s);
        sums n (if points_at 43 s then fadd result next_term else fsub result next_term) (ltrim_cstr s')
      else mret (result, s)
  end.
(** [src/src/modules/communication/utils/Gcode.cpp:349-382] Gcode::parse_expression *)
Definition comparison (result : Z) (s : list Z) : M (Z * list Z) :=
  match word_at cmp_name all_cmps s with
  | Some (c, s') => '(comparison_value, s'') ← rec Expression s'; mret (cmp_value c result comparison_value, s'')
  | None => mret (result, s)
  end.
(** [src/src/modules/communication/utils/Gcode.cpp:384-408] Gcode::parse_expression *)
Definition boolean (result : Z) (s : list Z) : M (Z * list Z) :=
  match word_at bool_name all_bools s with
  | Some (o, s') => '(value, s'') ← rec Expression s'; mret (bool_value o result value, s'')
  | None => mret (result, s)
  end.
(** [src/src/modules/communication/utils/Gcode.cpp:332-347] Gcode::parse_expression *)
Definition parse_sum (n : nat) (s : list Z) : M (Z * list Z) :=
  '(result, s) ← rec Term s;
  sums n result (ltrim_cstr s).
(** [src/src/modules/communication/utils/Gcode.cpp:324-411] Gcode::parse_expression *)
Definition parse_expression (n : nat) (s : list Z) : M (Z * list Z) :=
  if points_at 93 s then _ ← halts true "ERROR: Mismatched closing bracket ']' without opening '['" []; mret (NAN, s)
  else
    '(result, s) ← parse_sum n s;
    '(result, s) ← comparison result s;
    boolean result s.
(** Multiplications, divisions and remainders, from the left; by zero, the rest of
    the term is left.
    [src/src/modules/communication/utils/Gcode.cpp:418-452] Gcode::parse_term *)
Fixpoint products (n : nat) (result : Z) (s : list Z) : M (Z * list Z) :=
  match n with
  | O => stuck
  | S n =>
      let next (divides : bool) (message : string) (f : Z -> Z -> Z) (s' : list Z) : M (Z * list Z) :=
        '(next_factor, s'') ← rec Factor s';
        if divides && is_zero next_factor then _ ← halts true message []; mret (NAN, s'')
        else products n (f result next_factor) (ltrim_cstr s'') in
      if points_at 42 s then next false ""%string fmul (tail s)
      else if points_at 47 s then next true "ERROR: Division by zero"%string fdiv (tail s)
      else if starts (chars "mod") s then next true "ERROR: Modulo by zero"%string fmodf (ltrim_cstr (drop 3 s))
      else mret (result, s)
  end.
(** [src/src/modules/communication/utils/Gcode.cpp:413-455] Gcode::parse_term *)
Definition parse_term (n : nat) (s : list Z) : M (Z * list Z) :=
  '(result, s) ← rec Factor s;
  products n result (ltrim_cstr s).
(** An error, which leaves the factor where it is met: no power is looked for. *)
Definition fails (message : string) (args : list Arg) (s : list Z) : M (option Z * list Z) :=
  _ ← halts true message args; mret (None, s).
(** An expression in brackets, the first of which has been read.
    [src/src/modules/communication/utils/Gcode.cpp:531-541] Gcode::parse_factor *)
Definition bracketed (message : string) (s : list Z) : M (option Z * list Z) :=
  '(result, s) ← rec Expression s;
  if points_at 93 s then mret (Some result, tail s) else fails message [] s.
(** The text of a number ends before an [e] of either case, wherever it stands.
    [src/src/modules/communication/utils/Gcode.cpp:545-566] Gcode::parse_factor *)
Definition parse_number (s : list Z) : M (option Z * list Z) :=
  let '(t, r) := span (fun c => negb ((c =? 69) || (c =? 101))) s in
  match strtof t with
  | Some (v, r') => mret (Some v, r' ++ r)
  | None => fails "ERROR: Invalid number in expression, %c" [a_char (default 0 (head r))] r
  end.
(** [src/src/modules/communication/utils/Gcode.cpp:457-566] Gcode::parse_factor *)
Definition parse_atom (s : list Z) : M (option Z * list Z) :=
  match function_at s with
  | Some (f, s) =>
      if points_at 91 s then
        '(arg, s) ← bracketed "ERROR: Mismatched brackets in function argument" (tail s);
        mret (option_map (function_value f) arg, s)
      else fails "ERROR: Expected '[' after function name" [] s
  | None =>
      if points_at 91 s then bracketed "ERROR: Mismatched brackets in expression" (tail s)
      else if points_at 35 s then '(v, s) ← get_variable_value s; mret (Some v, s)
      else parse_number s
  end.
(** Powers, from the right: an exponent takes those that follow it.
    [src/src/modules/communication/utils/Gcode.cpp:568-573] Gcode::parse_factor *)
Fixpoint powers (n : nat) (result : Z) (s : list Z) : M (Z * list Z) :=
  match n with
  | O => stuck
  | S n =>
      if points_at 94 s then '(exponent, s') ← rec Factor (tail s); powers n (powf result exponent) s'
      else mret (result, s)
  end.
(** [src/src/modules/communication/utils/Gcode.cpp:457-576] Gcode::parse_factor *)
Definition parse_factor (n : nat) (s : list Z) : M (Z * list Z) :=
  '(result, s) ← parse_atom (ltrim_cstr s);
  match result with
  | Some result => powers n result s
  | None => mret (NAN, s)
  end.
End Levels.

(** The three functions call each other; each call counts, and each turn of a
    loop. [None] for fuel: [fuel_for] the text is enough ([parse_fine]). *)
Fixpoint parse (n : nat) (l : Level) (s : list Z) : M (Z * list Z) :=
  match n with
  | O => stuck
  | S n =>
      match l with
      | Expression => parse_expression (parse n) n s
      | Term => parse_term (parse n) n s
      | Factor => parse_factor (parse n) n s
      end
  end.
Definition fuel_for (s : list Z) : nat := 4 * length s + 4.
(** The value, and where the text was left; [None] there when an error leaves the
    caller's pointer as it was.
    [src/src/modules/communication/utils/Gcode.cpp:578-603] Gcode::evaluate_expression *)
Definition evaluate_expression (s : list Z) : M (Z * option (list Z)) :=
  let s := ltrim_cstr s in
  if points_at 93 s then _ ← halts true "ERROR: Mismatched closing bracket ']' without opening '['" []; mret (NAN, None)
  else
    '(result, s) ← parse (fuel_for s) Expression s;
    if points_at 93 s then _ ← halts true "ERROR: Mismatched closing bracket at end of expression" []; mret (NAN, None)
    else mret (result, Some s).
End Evaluator.

(** ** A command *)

(** [src/src/modules/communication/utils/Gcode.h:52-71] Gcode *)
Record Gcode := mk_gcode {
  command : list Z; has_m : bool; has_g : bool; m : Z; g : Z; subcode : Z;
  add_nl : bool; is_error : bool; stripped : bool; line : Z; txt_after_ok : list Z
}.
#[export] Instance eta_Gcode : Eta Gcode := fun c =>
  mk_gcode (command c) (has_m c) (has_g c) (m c) (g c) (subcode c) (add_nl c) (is_error c) (stripped c) (line c) (txt_after_ok c).
(** [src/src/modules/communication/utils/Gcode.cpp:82-90] Gcode::has_letter *)
Definition has_letter (letter : Z) (command : list Z) : bool := existsb (Z.eqb letter) command.

Section Letters.
Context {T : Type}.
(** The loop of [get_value], [get_int] and [get_uint]: [read_number] is what they
    try after the letter, with what follows the number when it took any text. A
    letter no number follows is passed over with the character after it; when
    there is none, the string's end is, and what lies behind is read ([None]).
    [last] is the pointer left where the caller asked for it.
    [src/src/modules/communication/utils/Gcode.cpp:615-627] Gcode::get_value *)
Fixpoint letter_loop (read_number : list Z -> M (option (T * list Z) )) (letter : Z) (s : list Z) : M (option (T * list Z)) :=
  match s with
  | [] => mret None
  | c :: cs =>
      if letter =? c then
        r ← read_number cs;
        match r with
        | Some (v, cn) => mret (Some (v, cn))
        | None => match cs with _ :: cs' => letter_loop read_number letter cs' | [] => stuck end
        end
      else letter_loop read_number letter cs
  end.
End Letters.
(** Something was read: the pointer moved. *)
Definition moved {T} (s : list Z) (v : T) (r : list Z) : option (T * list Z) :=
  if (length r <? length s)%nat then Some (v, r) else None.

Section Commands.
Context `{CLib}.
(** The value, with what follows it ([None] for the null pointer).
    [src/src/modules/communication/utils/Gcode.cpp:613-631] Gcode::get_value *)
Definition get_value (letter : Z) (command : list Z) : M (Z * option (list Z)) :=
  r ← letter_loop (fun cs => '(v, e) ← evaluate_expression cs;
                             mret (match e with Some r => moved cs v r | None => None end)) letter command;
  mret (match r with Some (v, cn) => (v, Some cn) | None => (f_zero, None) end).
(** [src/src/modules/communication/utils/Gcode.cpp:647-662] Gcode::get_int *)
Definition get_int (letter : Z) (command : list Z) : M (Z * option (list Z)) :=
  r ← letter_loop (fun cs => mret (strtol cs)) letter command;
  mret (match r with Some (v, cn) => (v, Some cn) | None => (0, None) end).
(** [src/src/modules/communication/utils/Gcode.cpp:664-679] Gcode::get_uint *)
Definition get_uint (letter : Z) (command : list Z) : M (Z * option (list Z)) :=
  r ← letter_loop (fun cs => mret (strtoul cs)) letter command;
  mret (match r with Some (v, cn) => (u32 v, Some cn) | None => (0, None) end).
(** [strtol], [strtoul] and [strtof] with a second argument: without a number,
    zero and the pointer itself. *)
Definition or_zero {T} (zero : T) (s : list Z) (r : option (T * list Z)) : T * list Z := default (zero, s) r.
(** [src/src/modules/communication/utils/Gcode.cpp:741-749] Gcode::prepare_cached_values *)
Definition extract_subcode (c : Gcode) (p : option (list Z)) : Gcode * option (list Z) :=
  if has_g c || has_m c then
    match p with
    | Some q => if points_at 46 q then let '(k, r) := or_zero 0 (tail q) (strtoul (tail q)) in (c <| subcode := Z.land k 15 |>, Some r)
                else (c <| subcode := 0 |>, p)
    | None => (c <| subcode := 0 |>, p)
    end
  else (c, p).
(** [src/src/modules/communication/utils/Gcode.cpp:751-758] Gcode::prepare_cached_values *)
Definition strip_head (strip : bool) (c : Gcode) (p : option (list Z)) : Gcode :=
  if negb strip || has_letter 84 (command c) then c
  else match p with Some n => c <| command := n |> | None => c end.
(** [src/src/modules/communication/utils/Gcode.cpp:720-759] Gcode::prepare_cached_values *)
Definition prepare_cached_values (strip : bool) (c : Gcode) : M Gcode :=
  '(c, p) ← (if has_letter 71 (command c)
             then '(v, p) ← get_int 71 (command c); mret (c <| has_g := true |> <| g := u32 v |>, p)
             else mret (c <| has_g := false |>, None));
  '(c, p) ← (if has_letter 77 (command c)
             then '(v, p) ← get_int 77 (command c); mret (c <| has_m := true |> <| m := u32 v |>, p)
             else mret (c <| has_m := false |>, p));
  let '(c, p) := extract_subcode c p in
  mret (strip_head strip c p).
(** [src/src/modules/communication/utils/Gcode.cpp:27-39] Gcode::Gcode *)
Definition new_gcode (text : list Z) (strip : bool) (line_ : Z) : M Gcode :=
  c ← prepare_cached_values strip (mk_gcode (c_string text) false false 0 0 0 false false false 0 []);
  mret (c <| stripped := strip |> <| line := line_ |>).
(** A copy does not take [stripped] and [line] along: they are what the memory
    held.
    [src/src/modules/communication/utils/Gcode.cpp:49-61] Gcode::Gcode *)
Definition copy (c : Gcode) (stripped_was : bool) (line_was : Z) : Gcode :=
  c <| stripped := stripped_was |> <| line := line_was |>.
(** Evaluates outside any command.
    [src/src/modules/communication/utils/Gcode.cpp:606-610] Gcode::evaluate_standalone_expression *)
Definition evaluate_standalone_expression (s : list Z) : M (Z * option (list Z)) :=
  _ ← new_gcode [] false 0; evaluate_expression s.
Definition is_parameter (c : Z) : bool := (65 <=? c) && (c <=? 90) && negb (c =? 84).
(** The letters counted: the first character apart, unless the command is
    stripped. *)
Definition parameters (c : Gcode) : list Z := filter (fun x => is_parameter x = true) (drop (if stripped c then 0 else 1) (command c)).
(** [src/src/modules/communication/utils/Gcode.cpp:681-691] Gcode::get_num_args *)
Definition get_num_args (c : Gcode) : Z := Z.of_nat (length (parameters c)).
Fixpoint collect (get : Z -> M (Z * option (list Z))) (letters : list Z) (acc : gmap Z Z) : M (gmap Z Z) :=
  match letters with
  | [] => mret acc
  | l :: ls => '(v, _) ← get l; collect get ls (<[l := v]> acc)
  end.
(** [src/src/modules/communication/utils/Gcode.cpp:693-704] Gcode::get_args *)
Definition get_args (c : Gcode) : M (gmap Z Z) := collect (fun l => get_value l (command c)) (parameters c) ∅.
(** [src/src/modules/communication/utils/Gcode.cpp:706-717] Gcode::get_args_int *)
Definition get_args_int (c : Gcode) : M (gmap Z Z) := collect (fun l => get_int l (command c)) (parameters c) ∅.
(** Up to each letter, and over the number after it. The fuel is the text's
    length: every turn passes a letter.
    [src/src/modules/communication/utils/Gcode.cpp:766-783] Gcode::strip_parameters *)
Fixpoint without_parameters (n : nat) (cn : list Z) : list Z :=
  match n with
  | O => cn
  | S n =>
      let '(before, at_) := span (fun c => negb (elem (chars "XYZIJK") c)) cn in
      match at_ with
      | [] => before
      | _ :: after => before ++ without_parameters n (match strtof after with Some (_, eos) => eos | None => after end)
      end
  end.
(** [src/src/modules/communication/utils/Gcode.cpp:762-792] Gcode::strip_parameters *)
Definition strip_parameters (c : Gcode) : Gcode :=
  if has_g c && (g c <? 4) then c <| command := without_parameters (length (command c)) (command c) |> else c.

(** ** Setting a variable *)

Definition own (fmt : string) (args : list Arg) : M unit := emit (say false fmt args).
(** The variable's new value, where it may be set; the result is what the code
    returns.
    [src/src/modules/communication/utils/Gcode.cpp:141-174] Gcode::set_variable_value *)
Definition store (n value : Z) : M Z :=
  if (1 <=? n) && (n <=? 30) then
    _ ← modify (fun k => k <| local_params := <[Z.to_nat (n - 1) := value]> (local_params k) |>);
    _ ← own "Variable %d set %.4f " [an_int n; a_float value]; mret value
  else if (101 <=? n) && (n <=? 120) then
    _ ← modify (fun k => k <| local_vars := <[Z.to_nat (n - 101) := value]> (local_vars k) |>);
    _ ← own "Variable %d set %.4f " [an_int n; a_float value]; mret value
  else if n =? 150 then
    if flt f_zero value && flt value (float_of_int 10) then
      _ ← modify (fun k => k <| probe_tip_diameter := value |>);
      _ ← own "Probe tip diameter set %.4f " [a_float value];
      _ ← own "This value is temporary / it will neeed to be saved to the config file with " [];
      _ ← own "config-set sd zprobe.probe_tip_diameter # " []; mret value
    else _ ← own "Probe tip input out of range, aborting " []; mret NAN
  else if (501 <=? n) && (n <=? 520) then
    _ ← modify (fun k => k <| perm_vars := <[Z.to_nat (n - 501) := value]> (perm_vars k) |>);
    _ ← emit write_eeprom_data;
    _ ← own "Variable %d set %.4f " [an_int n; a_float value]; mret value
  else _ ← halts true "ERROR: Variable %d out of range " [an_int n]; mret NAN.
(** [src/src/modules/communication/utils/Gcode.cpp:105-182] Gcode::set_variable_value *)
Definition set_variable_value (command : list Z) : M Z :=
  if points_at 35 command then
    let '(var_num, e) := or_zero 0 (tail command) (strtol (tail command)) in
    let e := ltrim_cstr e in
    if points_at 61 e then
      '(value, _) ← evaluate_expression (ltrim_cstr (tail e));
      if is_nan value then _ ← own "Error in expression evaluation, cannot set variable %d" [an_int var_num]; mret NAN
      else store var_num value
    else
      '(value, _) ← get_variable_value command;
      if is_nan value then mret NAN
      else _ ← own "Variable %d = %.4f " [an_int var_num; a_float value]; mret NAN
  else _ ← halts false "Variable not found " []; mret f_zero.
End Commands.

(** ** The evaluator returns, and stays inside the text *)

Definition grows (w w' : World) : Prop := kernel w' = kernel w /\ exists es, events w' = events w ++ es.
Lemma grows_refl w : grows w w.
Proof. split; [done|]. exists []. by rewrite app_nil_r. Qed.
Lemma grows_trans w1 w2 w3 : grows w1 w2 -> grows w2 w3 -> grows w1 w3.
Proof. intros [H1 [e1 E1]] [H2 [e2 E2]]. split; [congruence|]. exists (e1 ++ e2). by rewrite E2, E1, app_assoc. Qed.
Lemma grows_emit w e : grows w (mk_world (kernel w) (events w ++ [e])).
Proof. split; [done|]. by exists [e]. Qed.
#[export] Hint Resolve grows_refl grows_emit : core.

(** A computation on [s] that returns, having changed no variable and taken back
    nothing it said, with the rest of [s]. *)
Definition fine {A} (s : list Z) (c : M (A * list Z)) : Prop :=
  forall w, exists v r w', c w = Some ((v, r), w') /\ r `suffix_of` s /\ grows w w'.
Lemma fine_ret {A} (v : A) s r : r `suffix_of` s -> fine s (mret (v, r)).
Proof. intros Hr w. by exists v, r, w. Qed.
Lemma fine_weaken {A} s s' (c : M (A * list Z)) : s' `suffix_of` s -> fine s' c -> fine s c.
Proof. intros Hs Hc w. destruct (Hc w) as (v & r & w' & H1 & H2 & H3). exists v, r, w'. split; [done|]. split; [by etrans|done]. Qed.
Lemma fine_bind {A B} s (c : M (A * list Z)) (k : A * list Z -> M (B * list Z)) :
  fine s c -> (forall v r, r `suffix_of` s -> fine r (k (v, r))) -> fine s (c ≫= k).
Proof.
  intros Hc Hk w. destruct (Hc w) as (v & r & w1 & E & Hr & Hg). destruct (Hk v r Hr w1) as (v2 & r2 & w2 & E2 & Hr2 & Hg2).
  exists v2, r2, w2. unfold mbind, M_bind. rewrite E. split; [done|]. split; [by etrans|by eapply grows_trans].
Qed.
Lemma fine_then {A} s (c : M unit) (k : unit -> M (A * list Z)) :
  (forall w, exists w', c w = Some (tt, w') /\ grows w w') -> (forall u, fine s (k u)) -> fine s (c ≫= k).
Proof.
  intros Hc Hk w. destruct (Hc w) as (w1 & E & Hg). destruct (Hk tt w1) as (v2 & r2 & w2 & E2 & Hr2 & Hg2).
  exists v2, r2, w2. unfold mbind, M_bind. rewrite E. split; [done|]. split; [done|by eapply grows_trans].
Qed.
Lemma halts_grows everyone fmt args w : exists w', halts everyone fmt args w = Some (tt, w') /\ grows w w' /\
  events w' = events w ++ [set_halt_reason MANUAL; say everyone fmt args; call_on_halt false].
Proof. eexists. split; [reflexivity|]. cbn. rewrite <- !app_assoc. split; [|done]. split; [done|]. by eexists. Qed.
Lemma fine_fails s message args r : r `suffix_of` s -> fine s (fails message args r).
Proof. intros Hr. apply fine_then; [|intros _; by apply fine_ret]. intros w. destruct (halts_grows true message args w) as (w' & ? & ? & _). by exists w'. Qed.
Lemma halts_fine {A} s everyone fmt args (v : A) r : r `suffix_of` s -> fine s (_ ← halts everyone fmt args; mret (v, r)).
Proof. intros Hr. apply fine_then; [|intros _; by apply fine_ret]. intros w. destruct (halts_grows everyone fmt args w) as (w' & ? & ? & _). by exists w'. Qed.
Lemma ltrim_drop_suffix n s : ltrim_cstr (drop n s) `suffix_of` s.
Proof. etrans; [apply ltrim_suffix|apply suffix_drop]. Qed.
#[export] Hint Resolve ltrim_drop_suffix suffix_nil : core.
Lemma suffix_le {A} (r s : list A) : r `suffix_of` s -> (length r <= length s)%nat.
Proof. apply suffix_length. Qed.
Lemma word_at_shorter {Op} (name : Op -> list Z) all s o r :
  (forall o, o ∈ all -> name o <> []) -> word_at name all s = Some (o, r) -> r `suffix_of` s /\ (length r < length s)%nat.
Proof.
  intros Hn. unfold word_at. destruct (List.find _ all) as [o'|] eqn:E; [|done]. intros [= <- <-]. split; [done|].
  apply find_some in E as [Hin E]. apply list_elem_of_In in Hin. specialize (Hn _ Hin).
  destruct (name o') as [|c p]; [done|]. destruct s as [|d s]; [done|]. cbn [length drop].
  pose proof (suffix_le _ _ (ltrim_drop_suffix (length p) s)). lia.
Qed.

Section Returns.
Context `{CLib}.
Definition rank (l : Level) : nat := match l with Expression => 3 | Term => 2 | Factor => 1 end.
Definition weight (l : Level) (s : list Z) : nat := 4 * length s + rank l.
(** A computation of one value that changes no variable. *)
Definition tame {A} (c : M A) : Prop := forall w, exists v w', c w = Some (v, w') /\ grows w w'.
Lemma tame_read {A} (f : Kernel -> A) : tame (read f).
Proof. intros w. by exists (f (kernel w)), w. Qed.
Lemma tame_halts {A} everyone fmt args (v : A) : tame (_ ← halts everyone fmt args; mret v).
Proof. intros w. unfold mbind, M_bind. destruct (halts_grows everyone fmt args w) as (w' & -> & Hg & _). by exists v, w'. Qed.
Lemma tame_kept f k : tame (x ← read f; if is_set x then mret x else unset k).
Proof. intros w. unfold mbind, M_bind, read. case_match; [by eexists _, _|apply tame_halts]. Qed.
Lemma variable_tame k : tame (variable k).
Proof.
  unfold variable, system_variable. cbv zeta. repeat (case_match; [solve [apply tame_read | apply tame_kept]|]). 
  repeat case_match; try solve [apply tame_read | apply tame_kept | apply tame_halts].
Qed.
Lemma variable_fine s : fine s (get_variable_value s).
Proof.
  unfold get_variable_value. case_match; [|by apply fine_ret].
  destruct (default (0, tail s) (strtol (tail s))) as [k r] eqn:E.
  assert (Hr : r `suffix_of` tail s).
  { destruct (strtol (tail s)) as [[n r']|] eqn:Es; injection E as <- <-; [|done]. by apply strtol_suffix in Es as [? _]. }
  intros w. destruct (variable_tame k w) as (v & w' & Ew & Hg). exists v, r, w'. unfold mbind, M_bind. rewrite Ew.
  split; [done|]. split; [etrans; [exact Hr|apply suffix_tail]|done].
Qed.
Lemma number_fine s : fine s (parse_number s).
Proof.
  unfold parse_number. pose proof (span_app (fun c => negb ((c =? 69) || (c =? 101))) s) as Hs. destruct (span _ s) as [t r]. cbn in Hs. subst s.
  unfold strtof. destruct (numeral t) as [[[neg t'] r']|] eqn:E; [|apply fine_fails; by eexists].
  apply fine_ret. apply numeral_suffix in E as [p ->]. exists p. by rewrite app_assoc.
Qed.
Section Rec.
Context (n : nat) (rec : Level -> list Z -> M (Z * list Z)).
Context (Hrec : forall l s, (weight l s < n)%nat -> fine s (rec l s)).
Lemma sums_fine k v s : (length s < k)%nat -> (4 * length s <= n)%nat -> fine s (sums rec k v s).
Proof using Hrec.
  revert v s. induction k as [|k IH]; intros v s Hk Hn; [lia|]. cbn [sums].
  destruct (points_at 43 s || points_at 45 s) eqn:E; [|by apply fine_ret].
  assert (Hl : (length (tail s) < length s)%nat) by (apply orb_true_iff in E as [E|E]; by eapply points_at_shorter).
  eapply fine_weaken; [apply suffix_tail|]. apply fine_bind; [apply Hrec; unfold weight, rank; lia|].
  intros v' r Hr. apply suffix_le in Hr. eapply fine_weaken; [apply ltrim_suffix|]. pose proof (suffix_le _ _ (ltrim_suffix r)). apply IH; lia.
Qed.
Lemma products_fine k v s : (length s < k)%nat -> (4 * length s <= n)%nat -> fine s (products rec k v s).
Proof using Hrec.
  revert v s. induction k as [|k IH]; intros v s Hk Hn; [lia|]. cbn [products].
  assert (Hnext : forall b msg f s', s' `suffix_of` s -> (length s' < length s)%nat ->
    fine s ('(next_factor, s'') ← rec Factor s';
      if b && is_zero next_factor then _ ← halts true msg []; mret (NAN, s'') else products rec k (f v next_factor) (ltrim_cstr s''))).
  { intros b msg f s' Hs Hl. eapply fine_weaken; [exact Hs|]. apply fine_bind; [apply Hrec; unfold weight, rank; lia|].
    intros v' r Hr. apply suffix_le in Hr. case_match; [by apply halts_fine|].
    eapply fine_weaken; [apply ltrim_suffix|]. pose proof (suffix_le _ _ (ltrim_suffix r)). apply IH; lia. }
  destruct (points_at 42 s) eqn:E1; [apply Hnext; [done|by eapply points_at_shorter]|].
  destruct (points_at 47 s) eqn:E2; [apply Hnext; [done|by eapply points_at_shorter]|].
  destruct (starts (chars "mod") s) eqn:E3; [|by apply fine_ret]. apply Hnext; [done|].
  pose proof (suffix_le _ _ (ltrim_suffix (drop 3 s))) as Hd. rewrite length_drop in Hd. destruct s; [done|]. cbn [length] in *. lia.
Qed.
Lemma powers_fine k v s : (length s < k)%nat -> (4 * length s <= n)%nat -> fine s (powers rec k v s).
Proof using Hrec.
  revert v s. induction k as [|k IH]; intros v s Hk Hn; [lia|]. cbn [powers]. destruct (points_at 94 s) eqn:E; [|by apply fine_ret].
  apply points_at_shorter in E. eapply fine_weaken; [apply suffix_tail|]. apply fine_bind; [apply Hrec; unfold weight, rank; lia|].
  intros v' r Hr. apply suffix_le in Hr. apply IH; lia.
Qed.
Lemma comparison_fine v s : (4 * length s <= n)%nat -> fine s (comparison rec v s).
Proof using Hrec.
  intros Hn. unfold comparison. destruct (word_at _ _ s) as [[o r]|] eqn:E; [|by apply fine_ret].
  apply word_at_shorter in E as [Hr Hl]; [|by intros []]. eapply fine_weaken; [exact Hr|].
  apply fine_bind; [apply Hrec; unfold weight, rank; lia|]. intros v' r' Hr'. by apply fine_ret.
Qed.
Lemma boolean_fine v s : (4 * length s <= n)%nat -> fine s (boolean rec v s).
Proof using Hrec.
  intros Hn. unfold boolean. destruct (word_at _ _ s) as [[o r]|] eqn:E; [|by apply fine_ret].
  apply word_at_shorter in E as [Hr Hl]; [|by intros []]. eapply fine_weaken; [exact Hr|].
  apply fine_bind; [apply Hrec; unfold weight, rank; lia|]. intros v' r' Hr'. by apply fine_ret.
Qed.
Lemma sum_fine s : (4 * length s + 2 < n)%nat -> fine s (parse_sum rec n s).
Proof using Hrec.
  intros Hn. apply fine_bind; [apply Hrec; unfold weight, rank; lia|]. intros v r Hr. apply suffix_le in Hr.
  eapply fine_weaken; [apply ltrim_suffix|]. pose proof (suffix_le _ _ (ltrim_suffix r)). apply sums_fine; lia.
Qed.
Lemma expression_fine s : (4 * length s + 2 < n)%nat -> fine s (parse_expression rec n s).
Proof using Hrec.
  intros Hn. unfold parse_expression. case_match; [by apply halts_fine|].
  apply fine_bind; [by apply sum_fine|]. intros v2 r2 Hr2. apply suffix_le in Hr2.
  apply fine_bind; [apply comparison_fine; lia|]. intros v3 r3 Hr3. apply suffix_le in Hr3. apply boolean_fine. lia.
Qed.
Lemma term_fine s : (4 * length s + 1 < n)%nat -> fine s (parse_term rec n s).
Proof using Hrec.
  intros Hn. apply fine_bind; [apply Hrec; unfold weight, rank; lia|]. intros v r Hr. apply suffix_le in Hr.
  eapply fine_weaken; [apply ltrim_suffix|]. pose proof (suffix_le _ _ (ltrim_suffix r)). apply products_fine; lia.
Qed.
Lemma bracketed_fine message s : (4 * length s + 3 < n)%nat -> fine s (bracketed rec message s).
Proof using Hrec.
  intros Hn. apply fine_bind; [apply Hrec; unfold weight, rank; lia|]. intros v r Hr.
  case_match; [by apply fine_ret|by apply fine_fails].
Qed.
Lemma atom_fine s : (4 * length s < n)%nat -> fine s (parse_atom rec s).
Proof using Hrec.
  intros Hn. unfold parse_atom. destruct (function_at s) as [[f r]|] eqn:E.
  - assert (Hr : r `suffix_of` s) by (revert E; unfold function_at; case_match; [by intros [= _ <-]|done]).
    assert (Hl : (length r < length s)%nat).
    { revert E. unfold function_at. destruct (List.find _ all_fns) as [f'|] eqn:Ef; [|done]. intros [= <- <-].
      apply find_some in Ef as [_ Ef]. rewrite length_drop. assert (0 < length (fn_name f'))%nat by (destruct f'; by apply Nat.ltb_lt).
      destruct s; [by destruct f'|]. cbn [length]. lia. }
    eapply fine_weaken; [exact Hr|]. destruct (points_at 91 r) eqn:Eb; [|by apply fine_fails].
    apply points_at_shorter in Eb. eapply fine_weaken; [apply suffix_tail|]. apply fine_bind; [apply bracketed_fine; lia|].
    intros v r' Hr'. by apply fine_ret.
  - destruct (points_at 91 s) eqn:Eb.
    + apply points_at_shorter in Eb. eapply fine_weaken; [apply suffix_tail|]. apply bracketed_fine. lia.
    + case_match; [|apply number_fine]. apply fine_bind; [apply variable_fine|]. intros v r Hr. by apply fine_ret.
Qed.
Lemma factor_fine s : (4 * length s < n)%nat -> fine s (parse_factor rec n s).
Proof using Hrec.
  intros Hn. pose proof (suffix_le _ _ (ltrim_suffix s)). eapply fine_weaken; [apply ltrim_suffix|].
  apply fine_bind; [apply atom_fine; lia|]. intros [v|] r Hr; [|by apply fine_ret]. apply suffix_le in Hr. apply powers_fine; lia.
Qed.
End Rec.
Lemma parse_fine n l s : (weight l s < n)%nat -> fine s (parse n l s).
Proof.
  revert l s. induction n as [|n IH]; intros l s Hn; [lia|]. unfold weight in Hn. destruct l; cbn [parse rank] in *;
    [apply (expression_fine n)|apply (term_fine n)|apply (factor_fine n)]; try exact IH; lia.
Qed.
(** Whatever the text, the evaluator returns, with a place inside it. *)
Lemma evaluate_fine s w : exists v e w', evaluate_expression s w = Some ((v, e), w') /\ grows w w' /\ match e with Some r => r `suffix_of` s | None => True end.
Proof.
  unfold evaluate_expression. pose proof (ltrim_suffix s) as Hs. set (t := ltrim_cstr s) in *. clearbody t.
  assert (Hhalt : forall msg w, exists v e w', (_ ← halts true msg []; mret (NAN, None : option (list Z))) w = Some ((v, e), w') /\ grows w w' /\
    match e with Some r => r `suffix_of` s | None => True end).
  { intros msg w1. destruct (tame_halts true msg [] (NAN, None : option (list Z)) w1) as ([v e] & w2 & E2 & Hg2).
    exists v, e, w2. split; [done|]. split; [done|]. revert E2. unfold mbind, M_bind. destruct (halts _ _ _ _) as [[? ?]|]; [|done]. by intros [= _ <- _]. }
  destruct (points_at 93 t); [apply Hhalt|].
  destruct (parse_fine (fuel_for t) Expression t) with (w := w) as (v & r & w1 & E & Hr & Hg); [unfold weight, fuel_for, rank; lia|].
  unfold mbind at 1, M_bind at 1. rewrite E. destruct (points_at 93 r).
  - destruct (Hhalt "ERROR: Mismatched closing bracket at end of expression"%string w1) as (v' & e & w2 & -> & Hg2 & He).
    exists v', e, w2. split; [done|]. split; [by eapply grows_trans|done].
  - exists v, (Some r), w1. split; [done|]. split; [done|by etrans].
Qed.
End Returns.

(** ** What an expression means

    Expressions as trees, with the blanks between their parts, how they are
    written, and their value: [None] when it is an error. Sums and products are
    from the left, powers from the right; and a comparison's right side takes all
    that follows, conjunctions too. *)
Inductive MulOp := times | divided | modulo.
Definition mul_name (o : MulOp) : list Z := match o with times => [42] | divided => [47] | modulo => chars "mod" end.
Inductive Ast :=
| Num (neg : bool) (i : list Z) (f : option (list Z))
| Var (ds : list Z)
| Bracket (a : Ast) (r : list Z)
| Call (f : Fn) (a : Ast) (r : list Z)
| Pow (a : Ast) (r : list Z) (b : Ast)
| Mul (o : MulOp) (a : Ast) (l r : list Z) (b : Ast)
| Add (minus : bool) (a : Ast) (l r : list Z) (b : Ast)
| Compare (c : Cmp) (a : Ast) (l r : list Z) (b : Ast)
| Boolean (o : BoolOp) (a : Ast) (l r : list Z) (b : Ast).
Definition num_text (i : list Z) (f : option (list Z)) : list Z := i ++ match f with Some d => 46 :: d | None => [] end.
Fixpoint print (a : Ast) : list Z :=
  match a with
  | Num neg i f => (if neg then [45] else []) ++ num_text i f
  | Var ds => 35 :: ds
  | Bracket a r => 91 :: print a ++ r ++ [93]
  | Call f a r => fn_name f ++ 91 :: print a ++ r ++ [93]
  | Pow a r b => print a ++ 94 :: r ++ print b
  | Mul o a l r b => print a ++ l ++ mul_name o ++ r ++ print b
  | Add minus a l r b => print a ++ l ++ (if minus then 45 else 43) :: r ++ print b
  | Compare c a l r b => print a ++ l ++ cmp_name c ++ r ++ print b
  | Boolean o a l r b => print a ++ l ++ bool_name o ++ r ++ print b
  end.
(** Which level of the grammar a tree is written at: 0 an atom, 1 a power, 2 a
    product, 3 a sum, 4 anything. *)
Definition height (a : Ast) : nat :=
  match a with Num _ _ _ | Var _ | Bracket _ _ | Call _ _ _ => 0 | Pow _ _ _ => 1 | Mul _ _ _ _ _ => 2 | Add _ _ _ _ _ => 3 | _ => 4 end.
Definition blank (l : list Z) : bool := forallb isspace l.
Definition digits_only (l : list Z) : bool := forallb isdigit l.
Fixpoint ok (a : Ast) : bool :=
  match a with
  | Num _ i f => digits_only i && digits_only (default [] f) && negb (bool_decide (i ++ default [] f = []))
  | Var ds => digits_only ds && negb (bool_decide (ds = []))
  | Bracket a r | Call _ a r => ok a && blank r
  | Pow a r b => ok a && ok b && blank r && (height a <=? 0)%nat && (height b <=? 1)%nat
  | Mul _ a l r b => ok a && ok b && blank l && blank r && (height a <=? 2)%nat && (height b <=? 1)%nat
  | Add _ a l r b => ok a && ok b && blank l && blank r && (height a <=? 3)%nat && (height b <=? 2)%nat
  | Compare _ a l r b | Boolean _ a l r b => ok a && ok b && blank l && blank r && (height a <=? 3)%nat
  end.
(** What may follow an expression: nothing that would go on with it. *)
Definition num_stop (s : list Z) : bool :=
  match s with
  | c :: s' => negb (isdigit c) && negb (c =? 46) && (negb (tolower c =? 120) || points_at 111 s')
  | [] => true
  end.
Definition follow_factor (s : list Z) : bool := num_stop s && negb (points_at 94 s).
Definition follow_term (s : list Z) : bool :=
  follow_factor s && let r := ltrim_cstr s in negb (points_at 42 r) && negb (points_at 47 r) && negb (starts (chars "mod") r).
Definition follow_sum (s : list Z) : bool :=
  follow_term s && let r := ltrim_cstr s in negb (points_at 43 r) && negb (points_at 45 r).
Definition no_word {Op} (name : Op -> list Z) (all : list Op) (s : list Z) : bool := forallb (fun o => negb (starts (name o) s)) all.
Definition follow_expr (s : list Z) : bool :=
  follow_sum s && let r := ltrim_cstr s in no_word cmp_name all_cmps r && no_word bool_name all_bools r.
(** A variable's value, unless asking for it halts the machine. *)
Definition quiet (r : option (Z * World)) : option Z :=
  match r with Some (v, w) => if bool_decide (length (events w) = 0%nat) then Some v else None | None => None end.
Definition var_value (k : Kernel) (n : Z) : option Z := quiet (variable n (mk_world k [])).
Section Meaning.
Context `{CLib} (k : Kernel).
Definition mul_value (o : MulOp) (x y : Z) : option Z :=
  match o with
  | times => Some (fmul x y)
  | divided => if is_zero y then None else Some (fdiv x y)
  | modulo => if is_zero y then None else Some (fmodf x y)
  end.
Fixpoint value (a : Ast) : option Z :=
  match a with
  | Num neg i f => let x := float_of_text (num_text i f) in Some (if neg then fneg x else x)
  | Var ds => var_value k (Z.min (2 ^ 31 - 1) (fst (digits 0 ds)))
  | Bracket a _ => value a
  | Call f a _ => x ← value a; Some (function_value f x)
  | Pow a _ b => x ← value a; y ← value b; Some (powf x y)
  | Mul o a _ _ b => x ← value a; y ← value b; mul_value o x y
  | Add minus a _ _ b => x ← value a; y ← value b; Some (if minus then fsub x y else fadd x y)
  | Compare c a _ _ b => x ← value a; y ← value b; Some (cmp_value c x y)
  | Boolean o a _ _ b => x ← value a; y ← value b; Some (bool_value o x y)
  end.
End Meaning.

(** *** Texts *)

Lemma ltrim_blank l s : blank l = true -> ltrim_cstr (l ++ s) = ltrim_cstr s.
Proof. induction l as [|c l IH]; [done|]. cbn. intros [-> Hl]%andb_true_iff. by apply IH. Qed.
Lemma ltrim_done c s : isspace c = false -> ltrim_cstr (c :: s) = c :: s.
Proof. intros Hc. cbn. by rewrite Hc. Qed.
Lemma ltrim_idem s : ltrim_cstr (ltrim_cstr s) = ltrim_cstr s.
Proof. induction s as [|c s IH]; [done|]. cbn. destruct (isspace c) eqn:E; [done|]. cbn. by rewrite E. Qed.
Lemma span_all f l s : forallb f l = true -> match s with c :: _ => f c = false | [] => True end -> span f (l ++ s) = (l, s).
Proof.
  intros Hl Hs. induction l as [|c l IH]; cbn in *.
  - destruct s as [|c s]; [done|]. cbn. by rewrite Hs.
  - apply andb_true_iff in Hl as [-> Hl]. by rewrite (IH Hl).
Qed.
Lemma digits_all ds s acc : digits_only ds = true -> match s with c :: _ => isdigit c = false | [] => True end ->
  digits acc (ds ++ s) = (fst (digits acc ds), s).
Proof.
  revert acc. induction ds as [|c ds IH]; intros acc Hd Hs; cbn in *.
  - destruct s as [|c s]; [done|]. cbn. by rewrite Hs.
  - apply andb_true_iff in Hd as [-> Hd]. by apply IH.
Qed.
Lemma digits_nonneg ds acc : 0 <= acc -> 0 <= fst (digits acc ds).
Proof.
  revert acc. induction ds as [|c ds IH]; intros acc Ha; [done|]. cbn. destruct (isdigit c) eqn:E; [|done].
  apply IH. unfold isdigit in E. lia.
Qed.
(** The first character of an expression. *)
Definition opens (c : Z) : bool := isdigit c || islower c || elem [46; 45; 35; 91] c.
Lemma print_opens a : ok a = true -> exists c s, print a = c :: s /\ opens c = true.
Proof.
  assert (Hd : forall c l, digits_only (c :: l) = true -> opens c = true).
  { cbn. intros c l [Hc _]%andb_true_iff. unfold opens. by rewrite Hc. }
  induction a as [neg i f|ds|a IH r|f a IH r|a IHa r b IHb|o a IHa l r b IHb|mi a IHa l r b IHb|c a IHa l r b IHb|o a IHa l r b IHb];
    cbn [ok print]; intros Hok.
  - apply andb_true_iff in Hok as [[Hi Hf]%andb_true_iff Hn]. destruct neg; [by eexists _, _|]. unfold num_text.
    destruct i as [|c i]; [|exists c; eexists; split; [reflexivity|by eapply Hd]]. destruct f as [d|]; [by eexists _, _|done].
  - by eexists _, _.
  - by eexists _, _.
  - destruct f; by eexists _, _.
  - rewrite !andb_true_iff in Hok. destruct IHa as (c & s & -> & Hc); [tauto|]. by eexists _, _.
  - rewrite !andb_true_iff in Hok. destruct IHa as (c & s & -> & Hc); [tauto|]. by eexists _, _.
  - rewrite !andb_true_iff in Hok. destruct IHa as (c & s & -> & Hc); [tauto|]. by eexists _, _.
  - rewrite !andb_true_iff in Hok. destruct IHa as (d & s & -> & Hc); [tauto|]. by eexists _, _.
  - rewrite !andb_true_iff in Hok. destruct IHa as (d & s & -> & Hc); [tauto|]. by eexists _, _.
Qed.

(** *** Numbers, as they are read *)

Lemma significand_text i f a :
  digits_only i = true -> digits_only (default [] f) = true -> i ++ default [] f <> [] -> num_stop a = true ->
  significand isdigit (num_text i f ++ a) = Some (num_text i f, a).
Proof.
  intros Hi Hf Hne Ha. unfold significand, num_text. rewrite <- app_assoc.
  assert (Hda : match a with c :: _ => isdigit c = false | [] => True end).
  { destruct a as [|c a]; [done|]. cbn in Ha. rewrite !andb_true_iff, !negb_true_iff in Ha. tauto. }
  assert (Hex : forall d : list Z, digits_only d = true -> d <> [] -> existsb isdigit d = true).
  { intros [|c d]; [done|]. cbn. by intros [-> _]%andb_true_iff. }
  destruct f as [d|]; cbn [default] in *.
  - rewrite (span_all _ i) by (try done; cbn; done). cbn [app]. rewrite Z.eqb_refl, (span_all _ d) by done.
    rewrite existsb_app. cbn [existsb]. destruct i as [|c i]; [|by rewrite (Hex (c :: i))].
    cbn. change (isdigit 46) with false. cbn. by rewrite Hex.
  - cbn [app]. rewrite (span_all _ i) by done. rewrite !app_nil_r in *.
    destruct a as [|c a]; [by rewrite app_nil_r, Hex|]. cbn in Ha. rewrite !andb_true_iff, !negb_true_iff in Ha.
    destruct Ha as [[_ ->] _]. by rewrite app_nil_r, Hex.
Qed.
Definition no_e (s : list Z) : bool := forallb (fun c => negb ((c =? 69) || (c =? 101))) s.
Lemma special_none c s : isdigit c || (c =? 46) = true -> special (c :: s) = None.
Proof.
  intros Hc. assert (Hl : tolower c = c /\ c <> 105 /\ c <> 110) by (unfold isdigit, tolower in *; case_match; lia).
  destruct Hl as (Hl & H1 & H2). unfold special, lc. change (chars "infinity") with (105 :: chars "nfinity"). change (chars "inf") with (105 :: chars "nf").
  change (chars "nan") with (110 :: chars "an"). cbn [take map List.map starts]. rewrite Hl.
  by rewrite (proj2 (Z.eqb_neq 105 c)), (proj2 (Z.eqb_neq 110 c)) by lia.
Qed.
Lemma unsigned_text i f a :
  digits_only i = true -> digits_only (default [] f) = true -> i ++ default [] f <> [] -> num_stop a = true -> no_e a = true ->
  unsigned_numeral (num_text i f ++ a) = Some (num_text i f, a).
Proof.
  intros Hi Hf Hne Ha He. unfold unsigned_numeral.
  assert (Hhd : exists c s, num_text i f ++ a = c :: s /\ isdigit c || (c =? 46) = true).
  { unfold num_text. destruct i as [|c i]; [destruct f as [d|]; [by eexists _, _|done]|].
    cbn in Hi. apply andb_true_iff in Hi as [Hc _]. exists c. eexists. split; [reflexivity|]. by rewrite Hc. }
  assert (Hsp : special (num_text i f ++ a) = None) by (destruct Hhd as (c & s & -> & Hc); by apply special_none). rewrite Hsp.
  assert (Hdec : option_map (with_exponent (fun c => tolower c =? 101)) (significand isdigit (num_text i f ++ a)) = Some (num_text i f, a)).
  { rewrite significand_text by done. unfold option_map, with_exponent, exponent_part. cbn [fst snd].
    destruct a as [|d a]; [by rewrite app_nil_r|]. cbn in He. apply andb_true_iff in He as [He _].
    assert ((tolower d =? 101) = false) as -> by (unfold tolower; case_match; lia). by rewrite app_nil_r. }
  destruct (num_text i f ++ a) as [|z [|x s']] eqn:Et; [done|exact Hdec|].
  destruct ((z =? 48) && (tolower x =? 120)) eqn:Ez; [|exact Hdec].
  apply andb_true_iff in Ez as [Ez Ex]. assert (Hs : significand isxdigit s' = None); [|by rewrite Hs].
  assert (Hx : isdigit x = false /\ x <> 46) by (unfold tolower, isdigit in *; case_match; lia). destruct Hx as [Hx Hx'].
  assert (Ha' : a = x :: s').
  { unfold num_text in Et. destruct i as [|d [|d' i]].
    - destruct f as [d|]; [|done]. cbn in Et. injection Et as Et _. lia.
    - destruct f as [d'|]; cbn in Et; [injection Et; intros; lia|]. by injection Et.
    - cbn in Et. injection Et as _ Et _. subst d'. cbn in Hi. rewrite !andb_true_iff in Hi. destruct Hi as (_ & Hi & _). congruence. }
  subst a. cbn in Ha. rewrite Ex in Ha. rewrite !andb_true_iff in Ha. destruct Ha as [_ Ha]. cbn in Ha.
  apply points_at_cons in Ha as ->. done.
Qed.
Lemma span_stop f s : exists a b, span f s = (a, b) /\ s = a ++ b /\ forallb f a = true /\ match s with c :: _ => f c = true -> exists a', a = c :: a' | [] => True end.
Proof.
  induction s as [|c s (a & b & E & Hs & Ha & _)]; [by exists [], []|]. cbn. destruct (f c) eqn:Ef.
  - rewrite E. exists (c :: a), b. cbn. rewrite Ef. split; [done|]. split; [by rewrite Hs at 1|]. split; [done|]. by exists a.
  - by exists [], (c :: s).
Qed.
Section Reading.
Context `{CLib}.
Lemma number_read neg i f rest w :
  ok (Num neg i f) = true -> num_stop rest = true ->
  parse_number (print (Num neg i f) ++ rest) w = Some ((value (kernel w) (Num neg i f), rest), w).
Proof.
  cbn [ok]. intros [[Hi Hf]%andb_true_iff Hne]%andb_true_iff Hr. apply negb_true_iff, bool_decide_eq_false in Hne.
  set (ne := fun c => negb ((c =? 69) || (c =? 101))).
  assert (Hdig : forall l, digits_only l = true -> forallb ne l = true).
  { intros l Hl. unfold digits_only in Hl. rewrite forallb_forall in *. intros c Hc. specialize (Hl c Hc). unfold isdigit, ne in *. lia. }
  assert (Hp : forallb ne (print (Num neg i f)) = true).
  { cbn [print]. unfold num_text. rewrite !forallb_app, (Hdig i Hi). destruct neg; cbn; (destruct f as [d|]; [cbn; by apply Hdig|done]). }
  unfold parse_number. fold ne.
  destruct (span_stop ne rest) as (a & b & Es & Hab & Ha & Hfirst).
  assert (Hspan : span ne (print (Num neg i f) ++ rest) = (print (Num neg i f) ++ a, b)).
  { clear -Hp Es. induction (print (Num neg i f)) as [|c p IH]; [done|]. cbn in *. apply andb_true_iff in Hp as [-> Hp]. by rewrite (IH Hp). }
  rewrite Hspan. assert (Hsa : num_stop a = true).
  { destruct rest as [|c rest]; [by destruct a|]. destruct (ne c) eqn:Ec; [|by cbn in Es; rewrite Ec in Es; injection Es as <- _].
    destruct (Hfirst eq_refl) as [a' ->]. cbn in Hab. injection Hab as Hab. cbn in Hr |- *. rewrite !andb_true_iff in *.
    destruct Hr as [? Hx]. split; [done|]. apply orb_true_iff in Hx as [Hx|Hx]; [by rewrite Hx|]. apply orb_true_iff. right.
    destruct rest as [|d rest]; [done|]. cbn in Hx. apply Z.eqb_eq in Hx as ->. destruct a' as [|d' a']; [|by injection Hab as <- _].
    cbn [span] in Es. rewrite Ec in Es. change (ne 111) with true in Es. cbv iota in Es. destruct (span ne rest). discriminate Es. }
  assert (Hnum : numeral (print (Num neg i f) ++ a) = Some (neg, num_text i f, a)).
  { unfold numeral. cbn [print]. rewrite <- app_assoc.
    assert (Hhd : exists c s, num_text i f ++ a = c :: s /\ isdigit c || (c =? 46) = true).
    { unfold num_text. destruct i as [|c i]; [destruct f as [d|]; [by eexists _, _|done]|].
      cbn in Hi. apply andb_true_iff in Hi as [Hc _]. exists c. eexists. split; [reflexivity|]. by rewrite Hc. }
    destruct Hhd as (c & s & E & Hc). pose proof (unsigned_text i f a Hi Hf Hne Hsa Ha) as Hu.
    destruct neg; cbn [app].
    - rewrite (ltrim_done 45) by done. cbn [sign_of]. rewrite Z.eqb_refl. by rewrite Hu.
    - rewrite E in *. rewrite (ltrim_done c) by (unfold isdigit, isspace in *; lia). cbn [sign_of].
      assert ((c =? 45) = false) as -> by (unfold isdigit in *; lia). assert ((c =? 43) = false) as -> by (unfold isdigit in *; lia). by rewrite Hu. }
  unfold strtof. rewrite Hnum. unfold mret, M_ret. cbn [value]. by rewrite Hab.
Qed.
End Reading.

(** *** What is computed, or that the machine is halted *)

Definition halted (w w' : World) : Prop := exists es, events w' = events w ++ es /\ call_on_halt false ∈ es.
Lemma halted_grows w1 w2 w3 : halted w1 w2 -> grows w2 w3 -> halted w1 w3.
Proof. intros (e & E & Hin) [_ [e' E']]. exists (e ++ e'). rewrite E', E, app_assoc. split; [done|]. set_solver. Qed.
Lemma grows_halted w1 w2 w3 : grows w1 w2 -> halted w2 w3 -> halted w1 w3.
Proof. intros [_ [e E]] (e' & E' & Hin). exists (e ++ e'). rewrite E', E, app_assoc. split; [done|]. set_solver. Qed.
Lemma halts_halted everyone fmt args w : exists w', halts everyone fmt args w = Some (tt, w') /\ grows w w' /\ halted w w'.
Proof. destruct (halts_grows everyone fmt args w) as (w' & E & Hg & He). exists w'. split; [done|]. split; [done|]. eexists. split; [exact He|]. set_solver. Qed.
(** A computation that reads the variables alone. *)
Definition uniform {A} (c : M A) : Prop := forall k, exists v es',
  (forall es, c (mk_world k es) = Some (v, mk_world k (es ++ es'))) /\ (es' = [] \/ call_on_halt false ∈ es').
Lemma uniform_read {A} (f : Kernel -> A) : uniform (read f).
Proof. intros k. exists (f k), []. split; [intros es; by rewrite app_nil_r|by left]. Qed.
Lemma uniform_halts {A} everyone fmt args (v : A) : uniform (_ ← halts everyone fmt args; mret v).
Proof.
  intros k. exists v, [set_halt_reason MANUAL; say everyone fmt args; call_on_halt false]. split; [|right; set_solver].
  intros es. unfold halts, emit, mbind, M_bind. cbn. by rewrite <- !app_assoc.
Qed.
Lemma uniform_kept f n : uniform (x ← read f; if is_set x then mret x else unset n).
Proof.
  intros k. destruct (is_set (f k)) eqn:E.
  - exists (f k), []. split; [|by left]. intros es. unfold mbind, M_bind, read. cbn. rewrite E, app_nil_r. done.
  - destruct (uniform_halts true "ERROR: Variable %d not set " [an_int n] NAN k) as (v & es' & H1 & H2). exists v, es'.
    split; [|done]. intros es. unfold mbind at 1, M_bind at 1, read. cbn. rewrite E. apply H1.
Qed.
Lemma variable_uniform n : uniform (variable n).
Proof.
  unfold variable, system_variable. cbv zeta. repeat (case_match; [solve [apply uniform_read | apply uniform_kept]|]).
  repeat case_match; try solve [apply uniform_read | apply uniform_kept | apply uniform_halts].
Qed.
Lemma variable_read n w :
  match var_value (kernel w) n with
  | Some v => variable n w = Some (v, w)
  | None => exists v w', variable n w = Some (v, w') /\ grows w w' /\ halted w w'
  end.
Proof.
  destruct w as [k es]. destruct (variable_uniform n k) as (v & es' & Hv & He). unfold var_value. cbn [kernel]. rewrite Hv. cbn [events].
  destruct es' as [|e es'].
  - cbn. by rewrite Hv, app_nil_r.
  - cbn. exists v. eexists. split; [apply Hv|]. split; [split; [done|by eexists]|]. eexists. split; [done|]. by destruct He.
Qed.

(** The computation on [s] gives [v] and leaves [r], having changed nothing; or,
    where there is no value, halts the machine. *)
Definition means {A} (s : list Z) (c : M (A * list Z)) (v : option A) (r : list Z) (w : World) : Prop :=
  match v with
  | Some x => c w = Some ((x, r), w)
  | None => exists x r' w', c w = Some ((x, r'), w') /\ r' `suffix_of` s /\ halted w w'
  end.
Lemma means_bind {A B} s (c : M (A * list Z)) (k : A * list Z -> M (B * list Z)) v f r r' w :
  means s c v r w ->
  (forall x q, q `suffix_of` s -> fine q (k (x, q))) ->
  (forall x, v = Some x -> means s (k (x, r)) (f x) r' w) ->
  means s (c ≫= k) (v ≫= f) r' w.
Proof.
  intros Hc Hk Hv. destruct v as [x|]; cbn [mbind option_bind].
  - specialize (Hv x eq_refl). unfold means in Hc. revert Hv. unfold means, mbind, M_bind. by rewrite Hc.
  - destruct Hc as (x & q & w1 & E & Hq & Hh). destruct (Hk x q Hq w1) as (y & q' & w2 & E2 & Hq' & Hg).
    exists y, q', w2. unfold mbind, M_bind. rewrite E. split; [done|]. split; [by etrans|by eapply halted_grows].
Qed.
Lemma means_weaken {A} s s' (c : M (A * list Z)) v r w : s' `suffix_of` s -> means s' c v r w -> means s c v r w.
Proof. intros Hs. destruct v; [done|]. intros (x & q & w' & E & Hq & Hh). exists x, q, w'. split; [done|]. split; [by etrans|done]. Qed.
Lemma means_halts {A} s everyone fmt args (x : A) r r' w : r `suffix_of` s ->
  means s (_ ← halts everyone fmt args; mret (x, r)) None r' w.
Proof.
  intros Hr. destruct (halts_halted everyone fmt args w) as (w' & E & Hg & Hh). exists x, r, w'. unfold mbind, M_bind. by rewrite E.
Qed.

(** *** The parser reads what [print] writes *)

Lemma blank_head c l : blank (c :: l) = true -> isspace c = true.
Proof. cbn. by intros [? _]%andb_true_iff. Qed.
Lemma space_stops c s : isspace c = true -> follow_factor (c :: s) = true.
Proof. intros Hc. unfold follow_factor, num_stop, points_at, isdigit, tolower, isspace in *. case_match; lia. Qed.
Lemma follow_factor_blank l s : blank l = true -> follow_factor s = true -> follow_factor (l ++ s) = true.
Proof. destruct l as [|c l]; [done|]. intros Hb%blank_head _. by apply space_stops. Qed.
Lemma follow_term_blank l s : blank l = true -> follow_term s = true -> follow_term (l ++ s) = true.
Proof. unfold follow_term. intros Hb [Hf Ht]%andb_true_iff. by rewrite follow_factor_blank, ltrim_blank. Qed.
Lemma follow_sum_blank l s : blank l = true -> follow_sum s = true -> follow_sum (l ++ s) = true.
Proof. unfold follow_sum. intros Hb [Hf Ht]%andb_true_iff. by rewrite follow_term_blank, ltrim_blank. Qed.
Lemma follow_expr_blank l s : blank l = true -> follow_expr s = true -> follow_expr (l ++ s) = true.
Proof. unfold follow_expr. intros Hb [Hf Ht]%andb_true_iff. by rewrite follow_sum_blank, ltrim_blank. Qed.
Lemma ltrim_print a s : ok a = true -> ltrim_cstr (print a ++ s) = print a ++ s.
Proof.
  intros Ho. destruct (print_opens a Ho) as (c & p & -> & Hc). apply ltrim_done.
  unfold opens, isdigit, islower, elem, isspace in *. cbn in Hc. lia.
Qed.
Lemma print_not_close a bl s : ok a = true -> blank bl = true -> points_at 93 (bl ++ print a ++ s) = false.
Proof.
  intros Ho Hb. destruct bl as [|c bl].
  - destruct (print_opens a Ho) as (c & p & -> & Hc). cbn. unfold opens, isdigit, islower, elem in *. cbn in Hc. lia.
  - apply blank_head in Hb. cbn. unfold isspace in Hb. lia.
Qed.
Lemma function_at_none c s : islower c = false -> function_at (c :: s) = None.
Proof.
  intros Hc. unfold function_at.
  assert (E : forall f, starts (fn_name f) (c :: s) = false).
  { intros f. assert (Hn : forall d p, islower d = true -> starts (d :: p) (c :: s) = false).
    { intros d p Hd. cbn. destruct (d =? c) eqn:Ed; [|done]. apply Z.eqb_eq in Ed. congruence. }
    destruct f; by apply Hn. }
  unfold all_fns. cbn [List.find]. by rewrite !E.
Qed.
Section Reads.
Context `{CLib}.
Definition reads (l : Level) (a : Ast) (after : list Z -> list Z) (follow : list Z -> bool) : Prop := forall n bl rest w,
  blank bl = true -> follow rest = true -> (weight l (bl ++ print a ++ rest) < n)%nat ->
  means (bl ++ print a ++ rest) (parse n l (bl ++ print a ++ rest)) (value (kernel w) a) (after rest) w.
Definition reads_expression (a : Ast) : Prop := reads Expression a ltrim_cstr follow_expr.
Definition reads_term (a : Ast) : Prop := reads Term a ltrim_cstr follow_term.
Definition reads_factor (a : Ast) : Prop := reads Factor a id follow_factor.
Definition reads_atom (a : Ast) : Prop := forall n rest w,
  num_stop rest = true -> (4 * length (print a ++ rest) < n)%nat ->
  means (print a ++ rest) (parse_atom (parse n) (print a ++ rest)) (option_map Some (value (kernel w) a)) rest w.
Lemma follow_num rest : follow_factor rest = true -> num_stop rest = true.
Proof. unfold follow_factor. by intros [? _]%andb_true_iff. Qed.

Lemma num_reads neg i f : ok (Num neg i f) = true -> reads_atom (Num neg i f).
Proof.
  intros Ho n rest w Hr Hn. cbn [value option_map means]. unfold parse_atom.
  destruct (print_opens _ Ho) as (c & p & Ep & Hc).
  assert (Hcs : isdigit c || (c =? 46) || (c =? 45) = true).
  { revert Ep. cbn [print]. unfold num_text. cbn [ok] in Ho. rewrite !andb_true_iff in Ho. destruct Ho as [[Hi _] Hne].
    destruct neg; [by intros [= <- _]|]. destruct i as [|d i]; [destruct f; [by intros [= <- _]|done]|].
    intros [= <- _]. cbn in Hi. apply andb_true_iff in Hi as [-> _]. done. }
  pose proof (number_read neg i f rest w Ho Hr) as Hread. rewrite Ep in *. cbn [app] in *.
  rewrite function_at_none by (unfold isdigit, islower in *; lia).
  assert (Hb : points_at 91 (c :: p ++ rest) = false) by (unfold isdigit in *; cbn; lia).
  assert (Hh : points_at 35 (c :: p ++ rest) = false) by (unfold isdigit in *; cbn; lia).
  rewrite Hb, Hh. exact Hread.
Qed.
Lemma var_reads ds : ok (Var ds) = true -> reads_atom (Var ds).
Proof.
  cbn [ok]. intros [Hd Hne]%andb_true_iff n rest w Hr Hn. apply negb_true_iff, bool_decide_eq_false in Hne.
  cbn [value print app]. unfold parse_atom. rewrite function_at_none by done. change (points_at 91 (35 :: ds ++ rest)) with false.
  change (points_at 35 (35 :: ds ++ rest)) with true. cbv iota. unfold get_variable_value. change (points_at 35 (35 :: ds ++ rest)) with true.
  cbv iota. cbn [tail].
  assert (Hst : strtol (ds ++ rest) = Some (Z.min (2 ^ 31 - 1) (fst (digits 0 ds)), rest)).
  { destruct ds as [|d ds]; [done|]. cbn in Hd. apply andb_true_iff in Hd as [Hd0 Hd].
    unfold strtol. cbn [app]. rewrite ltrim_done by (unfold isdigit, isspace in *; lia). unfold sign_of.
    assert ((d =? 45) = false) as -> by (unfold isdigit in *; lia). assert ((d =? 43) = false) as -> by (unfold isdigit in *; lia).
    rewrite Hd0. change (d :: ds ++ rest) with ((d :: ds) ++ rest). rewrite (digits_all (d :: ds)).
    - pose proof (digits_nonneg (d :: ds) 0 ltac:(lia)). do 2 f_equal. lia.
    - cbn. by rewrite Hd0.
    - destruct rest as [|c rest]; [done|]. cbn in Hr. rewrite !andb_true_iff, !negb_true_iff in Hr. tauto. }
  rewrite Hst. unfold default, id. cbn [from_option]. set (k := Z.min _ _). pose proof (variable_read k w) as Hv.
  destruct (var_value (kernel w) k) as [v|]; cbn [option_map means].
  - unfold mbind, M_bind. by rewrite Hv.
  - destruct Hv as (v & w' & E & Hg & Hh). exists (Some v), rest, w'. unfold mbind, M_bind. rewrite E. split; [done|].
    split; [|done]. apply suffix_cons_r. by eexists.
Qed.
Lemma follow_close s : follow_expr (93 :: s) = true.
Proof. reflexivity. Qed.
Lemma bracketed_reads a r n rest message w : ok a = true -> blank r = true -> reads_expression a ->
  (4 * length (print a ++ r ++ 93%Z :: rest) + 3 < n)%nat ->
  means (print a ++ r ++ 93 :: rest) (bracketed (parse n) message (print a ++ r ++ 93 :: rest))
    (option_map Some (value (kernel w) a)) rest w.
Proof.
  intros Ho Hr Ha Hn. unfold bracketed.
  replace (option_map Some (value (kernel w) a)) with (value (kernel w) a ≫= fun x => Some (Some x)) by by destruct (value _ a).
  eapply means_bind with (r := 93 :: rest).
  - replace (93 :: rest) with (ltrim_cstr (r ++ 93 :: rest)) at 3 by by rewrite ltrim_blank.
    apply (Ha n []); [done| |unfold weight, rank; cbn [app]; lia]. by apply follow_expr_blank.
  - intros x q Hq. case_match; [by apply fine_ret|by apply fine_fails].
  - intros x _. done.
Qed.
Lemma bracket_reads a r : ok (Bracket a r) = true -> reads_expression a -> reads_atom (Bracket a r).
Proof.
  cbn [ok]. intros [Ho Hr]%andb_true_iff Ha n rest w Hs Hn. cbn [print value] in *.
  assert (E : (91 :: print a ++ r ++ [93]) ++ rest = 91 :: print a ++ r ++ 93 :: rest) by (cbn; by rewrite <- !app_assoc).
  rewrite E in *. clear E. unfold parse_atom. rewrite function_at_none by done. change (points_at 91 (91 :: ?x)) with true. cbv iota. cbn [tail].
  eapply means_weaken; [by apply suffix_cons_r, reflexivity|]. apply bracketed_reads; try done. cbn [length] in Hn. lia.
Qed.
Lemma call_reads f a r : ok (Call f a r) = true -> reads_expression a -> reads_atom (Call f a r).
Proof.
  cbn [ok]. intros [Ho Hr]%andb_true_iff Ha n rest w Hs Hn. cbn [print value] in *.
  assert (E : (fn_name f ++ 91 :: print a ++ r ++ [93]) ++ rest = fn_name f ++ 91 :: print a ++ r ++ 93 :: rest) by (rewrite <- app_assoc; cbn; by rewrite <- !app_assoc).
  rewrite E in *. clear E. unfold parse_atom.
  assert (E : forall s, function_at (fn_name f ++ 91 :: s) = Some (f, 91 :: s)) by by destruct f.
  rewrite E. change (points_at 91 (91 :: ?x)) with true. cbv iota. cbn [tail].
  eapply means_weaken; [exists (fn_name f ++ [91]); by rewrite <- app_assoc|].
  replace (option_map Some (x ← value (kernel w) a; Some (function_value f x)))
    with (option_map Some (value (kernel w) a) ≫= fun o => option_map Some (option_map (function_value f) o)) by by destruct (value _ a).
  eapply means_bind.
  - apply bracketed_reads; try done. rewrite length_app in Hn. cbn [length] in Hn. lia.
  - intros x q Hq. by apply fine_ret.
  - intros x Hx. destruct (value (kernel w) a); [|done]. injection Hx as <-. done.
Qed.

(** Up to a loop: it goes on with the value of what was read, and with turns left
    for what follows. *)
Definition loops (s : list Z) (c : M (Z * list Z)) (v : option Z) (f : nat -> Z -> M (Z * list Z)) (bound : nat) (w : World) : Prop :=
  match v with
  | Some x => exists k, (bound < k)%nat /\ c w = f k x w
  | None => means s c None [] w
  end.
Lemma loops_means s c v f bound r w : loops s c v f bound w -> (forall k x, (bound < k)%nat -> f k x w = Some ((x, r), w)) -> means s c v r w.
Proof. intros Hl Hf. destruct v as [x|]; [|exact Hl]. destruct Hl as (k & Hk & E). unfold means. rewrite E. by apply Hf. Qed.
Definition reads_product (a : Ast) : Prop := forall n k bl rest w,
  let s := bl ++ print a ++ rest in
  blank bl = true -> follow_factor rest = true -> (4 * length s + 1 < n)%nat -> (length s < k)%nat ->
  loops s ('(x, q) ← parse n Factor s; products (parse n) k x (ltrim_cstr q)) (value (kernel w) a)
    (fun k x => products (parse n) k x (ltrim_cstr rest)) (length rest) w.
Definition reads_sum (a : Ast) : Prop := forall n k bl rest w,
  let s := bl ++ print a ++ rest in
  blank bl = true -> follow_term rest = true -> (4 * length s + 2 < n)%nat -> (length s < k)%nat ->
  loops s ('(x, q) ← parse n Term s; sums (parse n) k x (ltrim_cstr q)) (value (kernel w) a)
    (fun k x => sums (parse n) k x (ltrim_cstr rest)) (length rest) w.
Lemma atom_factor a : ok a = true -> reads_atom a -> reads_factor a.
Proof.
  intros Ho Ha n bl rest w Hb Hf Hn. destruct n as [|n]; [lia|]. cbn [parse]. unfold weight, rank in Hn. unfold parse_factor, id.
  rewrite ltrim_blank, ltrim_print by done. rewrite !length_app in Hn.
  apply (means_weaken _ (print a ++ rest)); [by eexists|].
  replace (value (kernel w) a) with (option_map Some (value (kernel w) a) ≫= id) by by destruct (value _ a).
  eapply means_bind.
  - apply Ha; [by apply follow_num|rewrite length_app; lia].
  - intros [x|] q Hq; [|by apply fine_ret]. apply suffix_le in Hq. rewrite length_app in Hq. apply (powers_fine n); [apply parse_fine|lia..].
  - intros x Hx. destruct (value (kernel w) a) as [v|]; [|done]. injection Hx as <-. destruct n as [|n]; [lia|].
    cbn [powers]. apply andb_true_iff in Hf as [_ Hp%negb_true_iff]. by rewrite Hp.
Qed.
Lemma pow_reads a r b : ok (Pow a r b) = true -> reads_atom a -> reads_factor b -> reads_factor (Pow a r b).
Proof.
  cbn [ok]. rewrite !andb_true_iff. intros [[[[Hoa Hob] Hr] _] _] Ha Hb n bl rest w Hbl Hf Hn. destruct n as [|n]; [lia|].
  cbn [parse print value] in *. unfold weight, rank in Hn. unfold parse_factor, id.
  rewrite <- app_assoc in *. cbn [app] in *. rewrite <- app_assoc in *.
  rewrite ltrim_blank, ltrim_print by done. set (after := r ++ print b ++ rest) in *.
  assert (Hlen : (length (print a ++ 94%Z :: after) + length bl = length (bl ++ print a ++ 94%Z :: after))%nat) by (rewrite (length_app bl); lia).
  assert (Hla : (length after < length (print a ++ 94%Z :: after))%nat) by (rewrite (length_app (print a)); cbn; lia).
  apply (means_weaken _ (print a ++ 94 :: after)); [by eexists|].
  replace (x ← value (kernel w) a; y ← value (kernel w) b; Some (powf x y))
    with (option_map Some (value (kernel w) a) ≫= fun o => x ← o; y ← value (kernel w) b; Some (powf x y)) by by destruct (value _ a).
  eapply means_bind.
  - apply Ha; [done|]. lia.
  - intros [x|] q Hq; [|by apply fine_ret]. apply suffix_le in Hq. apply (powers_fine n); [apply parse_fine|lia..].
  - intros x Hx. destruct (value (kernel w) a) as [v|]; [|done]. injection Hx as <-. destruct n as [|n]; [lia|].
    cbn [powers]. change (points_at 94 (94 :: after)) with true. cbv iota. cbn [tail mbind option_bind].
    apply (means_weaken _ after); [exists (print a ++ [94]); by rewrite <- app_assoc|].
    eapply means_bind.
    + apply Hb; [done|done|]. fold after. unfold weight, rank. lia.
    + intros y q Hq. apply suffix_le in Hq. apply (powers_fine (S n)); [apply parse_fine|lia..].
    + intros y _. destruct n as [|n]; [lia|]. cbn [powers]. apply andb_true_iff in Hf as [_ Hp%negb_true_iff]. unfold id. by rewrite Hp.
Qed.
End Reads.
Section Chains.
Context `{CLib}.
Lemma loops_halt s c v f bound w : v = None -> means s c v [] w -> loops s c v f bound w.
Proof. intros ->. done. Qed.
Lemma fine_product n k s : (4 * length s + 1 < n)%nat -> (length s < k)%nat ->
  forall x q, q `suffix_of` s -> fine q (products (parse n) k x (ltrim_cstr q)).
Proof.
  intros Hn Hk x q Hq. apply suffix_le in Hq. eapply fine_weaken; [apply ltrim_suffix|]. pose proof (suffix_le _ _ (ltrim_suffix q)).
  apply (products_fine n); [apply parse_fine|lia..].
Qed.
Lemma fine_sum n k s : (4 * length s + 2 < n)%nat -> (length s < k)%nat ->
  forall x q, q `suffix_of` s -> fine q (sums (parse n) k x (ltrim_cstr q)).
Proof.
  intros Hn Hk x q Hq. apply suffix_le in Hq. eapply fine_weaken; [apply ltrim_suffix|]. pose proof (suffix_le _ _ (ltrim_suffix q)).
  apply (sums_fine n); [apply parse_fine|lia..].
Qed.
Lemma bind_run {A B} (c : M A) (k : A -> M B) w x : c w = Some (x, w) -> (c ≫= k) w = k x w.
Proof. intros E. unfold mbind, M_bind. by rewrite E. Qed.
Lemma means_run {A B} s (c : M A) (k : A -> M (B * list Z)) v r w x : c w = Some (x, w) -> means s (k x) v r w -> means s (c ≫= k) v r w.
Proof. intros E Hk. unfold means in *. rewrite (bind_run _ _ _ _ E). exact Hk. Qed.
(** A first part, then the loop. *)
Lemma loops_start s c v r (loop : nat -> Z -> list Z -> M (Z * list Z)) k rest w :
  means s c v r w -> ltrim_cstr r = ltrim_cstr rest -> (length rest < k)%nat ->
  (forall x q, q `suffix_of` s -> fine q (loop k x (ltrim_cstr q))) ->
  loops s ('(x, q) ← c; loop k x (ltrim_cstr q)) v (fun k x => loop k x (ltrim_cstr rest)) (length rest) w.
Proof.
  intros Hc Hr Hk Hf. destruct v as [x|].
  - exists k. split; [done|]. unfold means in Hc. unfold mbind, M_bind. by rewrite Hc, Hr.
  - refine (means_bind s c _ None (fun x => None) [] [] w _ Hf _); [|done]. exact Hc.
Qed.
(** Another turn of the loop: a part read, and the loop again. *)
Lemma loops_turn s c (f g : nat -> Z -> M (Z * list Z)) (v : option Z) (h : Z -> option Z) bound bound' w :
  loops s c v f bound w ->
  (forall k x, v = Some x -> (bound < k)%nat -> loops s (f k x) (h x) g bound' w) ->
  loops s c (v ≫= h) g bound' w.
Proof.
  intros Hl Hf. destruct v as [x|]; [|exact Hl]. destruct Hl as (k & Hk & E). specialize (Hf k x eq_refl Hk). cbn [mbind option_bind].
  unfold loops, means in *. rewrite E. exact Hf.
Qed.
Lemma loops_weaken s s' c v f bound w : s' `suffix_of` s -> loops s' c v f bound w -> loops s c v f bound w.
Proof. intros Hs. destruct v as [x|]; [done|]. by apply means_weaken. Qed.
Lemma factor_product a : reads_factor a -> reads_product a.
Proof.
  intros Ha n k bl rest w s Hb Hf Hn Hk. apply (loops_start s _ _ rest (products (parse n)) k rest w); [|done| |by apply fine_product].
  - apply Ha; [done|done|]. fold s. unfold weight, rank. lia.
  - unfold s in *. rewrite !length_app in Hk. lia.
Qed.
Lemma term_sum a : reads_term a -> reads_sum a.
Proof.
  intros Ha n k bl rest w s Hb Hf Hn Hk. apply (loops_start s _ _ (ltrim_cstr rest) (sums (parse n)) k rest w); [|apply ltrim_idem| |by apply fine_sum].
  - apply Ha; [done|done|]. fold s. unfold weight, rank. lia.
  - unfold s in *. rewrite !length_app in Hk. lia.
Qed.
Lemma follow_mul o s : follow_factor (mul_name o ++ s) = true /\ isspace (hd 0 (mul_name o)) = false.
Proof. by destruct o. Qed.
(** One product: its second factor, and what the operator makes of it. *)
Lemma next_product n k o x r b rest w :
  ok b = true -> blank r = true -> follow_factor rest = true -> reads_factor b ->
  (4 * length (mul_name o ++ r ++ print b ++ rest) < n)%nat -> (length (mul_name o ++ r ++ print b ++ rest) < k)%nat ->
  loops (mul_name o ++ r ++ print b ++ rest) (products (parse n) k x (mul_name o ++ r ++ print b ++ rest))
    (y ← value (kernel w) b; mul_value o x y) (fun k v => products (parse n) k v (ltrim_cstr rest)) (length rest) w.
Proof.
  intros Ho Hr Hf Hb Hn Hk. destruct k as [|k]; [lia|]. rewrite length_app in Hn, Hk.
  assert (Hm : (0 < length (mul_name o))%nat) by (destruct o; by apply Nat.ltb_lt).
  assert (Hnext : forall divides msg f bl, blank bl = true -> (length bl <= length r)%nat ->
    (forall y, mul_value o x y = if divides && is_zero y then None else Some (f x y)) ->
    loops (bl ++ print b ++ rest) ('(y, q) ← parse n Factor (bl ++ print b ++ rest);
        if divides && is_zero y then _ ← halts true msg []; mret (NAN, q) else products (parse n) k (f x y) (ltrim_cstr q))
      (y ← value (kernel w) b; mul_value o x y) (fun k v => products (parse n) k v (ltrim_cstr rest)) (length rest) w).
  { intros divides msg f bl Hbl Hlen Hv. rewrite (length_app r) in Hn, Hk.
    assert (Hm1 : means (bl ++ print b ++ rest) (parse n Factor (bl ++ print b ++ rest)) (value (kernel w) b) rest w).
    { apply Hb; [done|done|]. unfold weight, rank. rewrite length_app. lia. }
    destruct (value (kernel w) b) as [y|]; cbn [mbind option_bind].
    - rewrite Hv. destruct (divides && is_zero y) eqn:Ez.
      + unfold loops, means in Hm1 |- *. rewrite (bind_run _ _ _ _ Hm1), Ez. apply (means_halts _ _ _ _ NAN rest [] w).
        exists (bl ++ print b). by rewrite <- app_assoc.
      + exists k. split; [rewrite length_app in Hk; lia|]. unfold means in Hm1. by rewrite (bind_run _ _ _ _ Hm1), Ez.
    - refine (means_bind _ _ _ None (fun x => None) [] [] w Hm1 _ _); [|done]. intros y q Hq. case_match; [by apply halts_fine|].
      apply suffix_le in Hq. rewrite length_app in Hq. eapply fine_weaken; [apply ltrim_suffix|]. pose proof (suffix_le _ _ (ltrim_suffix q)).
      apply (products_fine n); [apply parse_fine|lia..]. }
  apply (loops_weaken _ ((match o with modulo => [] | _ => r end) ++ print b ++ rest)).
  { destruct o; [by apply suffix_cons_r|by apply suffix_cons_r|]. exists (chars "mod" ++ r). by rewrite <- !app_assoc. }
  destruct o; cbn [products].
  - change (points_at 42 (mul_name times ++ ?q)) with true. cbv iota. by apply Hnext.
  - change (points_at 42 (mul_name divided ++ ?q)) with false. change (points_at 47 (mul_name divided ++ ?q)) with true. cbv iota. by apply Hnext.
  - change (points_at 42 (mul_name modulo ++ ?q)) with false. change (points_at 47 (mul_name modulo ++ ?q)) with false.
    change (starts (chars "mod") (mul_name modulo ++ ?q)) with true. change (drop 3 (mul_name modulo ++ ?q)) with q. cbv iota.
    rewrite ltrim_blank, ltrim_print by done. apply (Hnext true "ERROR: Modulo by zero"%string fmodf []); [done|cbn; lia|done].
Qed.
Lemma mul_reads o a l r b : ok (Mul o a l r b) = true -> reads_product a -> reads_factor b -> reads_product (Mul o a l r b).
Proof.
  cbn [ok]. rewrite !andb_true_iff. intros [[[[[Hoa Hob] Hl] Hr] _] _] Ha Hb n k bl rest w s Hbl Hf Hn Hk. subst s. cbn [print value].
  assert (E : bl ++ (print a ++ l ++ mul_name o ++ r ++ print b) ++ rest = bl ++ print a ++ l ++ mul_name o ++ r ++ print b ++ rest) by by rewrite <- !app_assoc.
  rewrite E. cbn [print] in Hn, Hk. rewrite E in Hn, Hk. clear E. destruct (follow_mul o (r ++ print b ++ rest)) as [Hfm Hsp].
  assert (Hlt : ltrim_cstr (l ++ mul_name o ++ r ++ print b ++ rest) = mul_name o ++ r ++ print b ++ rest).
  { rewrite ltrim_blank by done. by destruct o. }
  eapply loops_turn.
  - apply Ha; [done|by apply follow_factor_blank|done|done].
  - intros k' x _ Hk'. cbn beta. rewrite Hlt. apply (loops_weaken _ (mul_name o ++ r ++ print b ++ rest)).
    { exists (bl ++ print a ++ l). by rewrite <- !app_assoc. }
    rewrite length_app in Hk'. apply next_product; try done; [|lia]. rewrite !(length_app bl), (length_app (print a)), (length_app l) in Hn. lia.
Qed.
Lemma product_term a : reads_product a -> reads_term a.
Proof.
  intros Ha n bl rest w Hb Hf Hn. destruct n as [|n]; [lia|]. cbn [parse]. unfold weight, rank in Hn. unfold parse_term.
  unfold follow_term in Hf. apply andb_true_iff in Hf as [Hf Hs]. cbv zeta in Hs. rewrite !andb_true_iff, !negb_true_iff in Hs.
  eapply loops_means; [apply Ha; [done|done|lia|lia]|]. intros k x Hk. destruct k as [|k]; [lia|]. cbn [products].
  destruct Hs as [[-> ->] ->]. done.
Qed.
End Chains.
Section Expressions.
Context `{CLib}.
Lemma next_sum n k (minus : bool) x r b rest w (op := if minus then 45 else 43) :
  ok b = true -> blank r = true -> follow_term rest = true -> reads_term b ->
  (4 * length (r ++ print b ++ rest) + 2 < n)%nat -> (length (r ++ print b ++ rest) + 1 < k)%nat ->
  loops (op :: r ++ print b ++ rest) (sums (parse n) k x (op :: r ++ print b ++ rest))
    (y ← value (kernel w) b; Some (if minus then fsub x y else fadd x y)) (fun k v => sums (parse n) k v (ltrim_cstr rest)) (length rest) w.
Proof.
  intros Ho Hr Hf Hb Hn Hk. destruct k as [|k]; [lia|]. cbn [sums].
  assert (Hop : points_at 43 (op :: r ++ print b ++ rest) || points_at 45 (op :: r ++ print b ++ rest) = true) by by destruct minus.
  rewrite Hop. cbn [tail]. apply (loops_weaken _ (r ++ print b ++ rest)); [by apply suffix_cons_r|].
  assert (Hm : means (r ++ print b ++ rest) (parse n Term (r ++ print b ++ rest)) (value (kernel w) b) (ltrim_cstr rest) w).
  { apply Hb; [done|done|]. unfold weight, rank. lia. }
  destruct (value (kernel w) b) as [y|]; cbn [mbind option_bind].
  - exists k. split; [rewrite !length_app in Hk; lia|]. unfold means in Hm. rewrite (bind_run _ _ _ _ Hm), ltrim_idem. by destruct minus.
  - refine (means_bind _ _ _ None (fun x => None) [] [] w Hm _ _); [|done]. intros y q Hq. apply (fine_sum n k (r ++ print b ++ rest)); [lia|lia|done].
Qed.
Lemma follow_add (minus : bool) s : follow_term ((if minus then 45 else 43) :: s) = true.
Proof. by destruct minus. Qed.
Lemma add_reads minus a l r b : ok (Add minus a l r b) = true -> reads_sum a -> reads_term b -> reads_sum (Add minus a l r b).
Proof.
  cbn [ok]. rewrite !andb_true_iff. intros [[[[[Hoa Hob] Hl] Hr] _] _] Ha Hb n k bl rest w s Hbl Hf Hn Hk. subst s. cbn [print value].
  set (op := if minus then 45 else 43).
  assert (E : bl ++ (print a ++ l ++ op :: r ++ print b) ++ rest = bl ++ print a ++ l ++ op :: r ++ print b ++ rest).
  { rewrite <- !app_assoc. cbn [app]. by rewrite <- !app_assoc. }
  rewrite E. cbn [print] in Hn, Hk. fold op in Hn, Hk. rewrite E in Hn, Hk. clear E.
  assert (Hlt : ltrim_cstr (l ++ op :: r ++ print b ++ rest) = op :: r ++ print b ++ rest) by (rewrite ltrim_blank by done; by destruct minus).
  eapply loops_turn.
  - apply Ha; [done|apply follow_term_blank; [done|apply follow_add]|done|done].
  - intros k' x _ Hk'. cbn beta. rewrite Hlt. apply (loops_weaken _ (op :: r ++ print b ++ rest)).
    { exists (bl ++ print a ++ l). by rewrite <- !app_assoc. }
    rewrite length_app in Hk'. cbn [length] in Hk'. apply next_sum; try done; [|lia].
    rewrite !(length_app bl), (length_app (print a)), (length_app l) in Hn. cbn [length] in Hn. lia.
Qed.
Lemma sum_parsed a n bl rest w (s := bl ++ print a ++ rest) : reads_sum a ->
  blank bl = true -> follow_sum rest = true -> (4 * length s + 2 < n)%nat ->
  means s (parse_sum (parse n) n s) (value (kernel w) a) (ltrim_cstr rest) w.
Proof.
  intros Ha Hb Hf Hn. unfold follow_sum in Hf. apply andb_true_iff in Hf as [Hf Hs]. cbv zeta in Hs. rewrite andb_true_iff, !negb_true_iff in Hs.
  unfold parse_sum. eapply loops_means; [apply Ha; [done|done|done|fold s; lia]|]. intros k x Hk. destruct k as [|k]; [lia|]. cbn [sums].
  destruct Hs as [-> ->]. done.
Qed.
Lemma no_word_at {Op} (name : Op -> list Z) all s : no_word name all s = true -> word_at name all s = None.
Proof.
  unfold no_word, word_at. intros Hn. destruct (List.find _ all) as [o|] eqn:E; [|done]. apply find_some in E as [Hin E].
  rewrite forallb_forall in Hn. specialize (Hn _ Hin). by rewrite E in Hn.
Qed.
Lemma fine_rest n s x q : (4 * length s + 2 < n)%nat -> q `suffix_of` s -> fine q ('(result, q) ← comparison (parse n) x q; boolean (parse n) result q).
Proof.
  intros Hn Hq. apply suffix_le in Hq. apply fine_bind; [apply (comparison_fine n); [apply parse_fine|lia]|].
  intros v r Hr. apply suffix_le in Hr. apply (boolean_fine n); [apply parse_fine|lia].
Qed.
Lemma follow_parts rest : follow_expr rest = true ->
  follow_sum rest = true /\ word_at cmp_name all_cmps (ltrim_cstr rest) = None /\ word_at bool_name all_bools (ltrim_cstr rest) = None.
Proof. unfold follow_expr. cbv zeta. rewrite !andb_true_iff. intros [? [? ?]]. split; [done|]. split; by apply no_word_at. Qed.
Lemma sum_expression a : ok a = true -> reads_sum a -> reads_expression a.
Proof.
  intros Ho Ha n bl rest w Hb Hf Hn. destruct n as [|n]; [lia|]. cbn [parse]. unfold weight, rank in Hn. unfold parse_expression.
  rewrite print_not_close by done. apply follow_parts in Hf as (Hf & Hc & Hbw).
  replace (value (kernel w) a) with (value (kernel w) a ≫= Some) by by destruct (value _ a).
  eapply means_bind; [apply sum_parsed; try done; lia|intros x q Hq; eapply fine_rest; [|exact Hq]; lia|].
  intros x _. unfold comparison. rewrite Hc. apply (means_run _ _ _ _ _ _ (x, ltrim_cstr rest)); [done|]. unfold boolean. by rewrite Hbw.
Qed.
(** A sum, a word, and an expression. *)
Lemma word_reads {Op} (name : Op -> list Z) all (o : Op) l r b rest a n bl w (op_value : Op -> Z -> Z -> Z)
    (after := r ++ print b ++ rest) (s := bl ++ print a ++ l ++ name o ++ after) :
  ok a = true -> ok b = true -> blank l = true -> blank r = true -> blank bl = true ->
  follow_sum (name o ++ after) = true -> ltrim_cstr (name o ++ after) = name o ++ after -> (0 < length (name o))%nat ->
  word_at name all (name o ++ after) = Some (o, ltrim_cstr after) -> follow_expr rest = true ->
  reads_sum a -> reads_expression b -> (4 * length s + 2 < n)%nat ->
  means s (parse_sum (parse n) n s) (value (kernel w) a) (name o ++ after) w /\
  forall x, means s ('(y, q) ← parse n Expression (ltrim_cstr after); mret (op_value o x y, q))
    (y ← value (kernel w) b; Some (op_value o x y)) (ltrim_cstr rest) w.
Proof.
  intros Hoa Hob Hl Hr Hbl Hfs Hsp Hlen Hw Hf Ha Hb Hn. split.
  - rewrite <- Hsp. rewrite <- (ltrim_blank l) by done. apply sum_parsed; try done. by apply follow_sum_blank.
  - intros x. unfold after. rewrite ltrim_blank, ltrim_print by done.
    apply (means_weaken _ (print b ++ rest)); [exists (bl ++ print a ++ l ++ name o ++ r); unfold s, after; by rewrite <- !app_assoc|].
    eapply means_bind.
    + apply (Hb n [] rest); [done|done|]. cbn [app]. unfold weight, rank, s, after in *. rewrite !length_app in *. lia.
    + intros y q Hq. by apply fine_ret.
    + done.
Qed.
Lemma compare_reads c a l r b : ok (Compare c a l r b) = true -> reads_sum a -> reads_expression b -> reads_expression (Compare c a l r b).
Proof.
  cbn [ok]. rewrite !andb_true_iff. intros [[[[Hoa Hob] Hl] Hr] _] Ha Hb n bl rest w Hbl Hf Hn. destruct n as [|n]; [lia|].
  cbn [parse print value] in *. unfold weight, rank in Hn. rewrite <- !app_assoc in *. unfold parse_expression. rewrite print_not_close by done.
  destruct (word_reads cmp_name all_cmps c l r b rest a n bl w cmp_value) as [Hs He]; try done; try (by destruct c); [by destruct c; apply Nat.ltb_lt|lia|].
  apply follow_parts in Hf as (Hfs & Hc & Hbw).
  eapply means_bind; [exact Hs|intros x q Hq; eapply fine_rest; [|exact Hq]; lia|]. intros x _.
  replace (y ← value (kernel w) b; Some (cmp_value c x y)) with ((y ← value (kernel w) b; Some (cmp_value c x y)) ≫= Some) by by destruct (value _ b).
  assert (Hcmp : comparison (parse n) x (cmp_name c ++ r ++ print b ++ rest) =
    ('(y, q) ← parse n Expression (ltrim_cstr (r ++ print b ++ rest)); mret (cmp_value c x y, q))) by by destruct c.
  rewrite Hcmp. eapply means_bind; [apply He| |].
  - intros y q Hq. apply suffix_le in Hq. apply (boolean_fine n); [apply parse_fine|lia].
  - intros y _. unfold boolean. by rewrite Hbw.
Qed.
Lemma boolean_reads o a l r b : ok (Boolean o a l r b) = true -> reads_sum a -> reads_expression b -> reads_expression (Boolean o a l r b).
Proof.
  cbn [ok]. rewrite !andb_true_iff. intros [[[[Hoa Hob] Hl] Hr] _] Ha Hb n bl rest w Hbl Hf Hn. destruct n as [|n]; [lia|].
  cbn [parse print value] in *. unfold weight, rank in Hn. rewrite <- !app_assoc in *. unfold parse_expression. rewrite print_not_close by done.
  destruct (word_reads bool_name all_bools o l r b rest a n bl w bool_value) as [Hs He]; try done; try (by destruct o); [by destruct o; apply Nat.ltb_lt|lia|].
  eapply means_bind; [exact Hs|intros x q Hq; eapply fine_rest; [|exact Hq]; lia|]. intros x _.
  assert (Hcmp : comparison (parse n) x (bool_name o ++ r ++ print b ++ rest) = mret (x, bool_name o ++ r ++ print b ++ rest)) by by destruct o.
  rewrite Hcmp. apply (means_run _ _ _ _ _ _ (x, bool_name o ++ r ++ print b ++ rest)); [done|].
  assert (Hbo : boolean (parse n) x (bool_name o ++ r ++ print b ++ rest) =
    ('(y, q) ← parse n Expression (ltrim_cstr (r ++ print b ++ rest)); mret (bool_value o x y, q))) by by destruct o.
  rewrite Hbo. apply He.
Qed.
End Expressions.
Section Theorems.
Context `{CLib}.
Definition reads_all (a : Ast) : Prop :=
  ((height a <= 0)%nat -> reads_atom a) /\ ((height a <= 1)%nat -> reads_factor a) /\ ((height a <= 2)%nat -> reads_product a) /\
  ((height a <= 3)%nat -> reads_sum a) /\ reads_expression a.
Lemma reads_all_sum a : ok a = true -> (3 <= height a)%nat -> reads_sum a -> reads_all a.
Proof. intros Ho Hh Hs. repeat split; try (intros; exfalso; lia); [done|by apply sum_expression]. Qed.
Lemma reads_all_product a : ok a = true -> (2 <= height a)%nat -> reads_product a -> reads_all a.
Proof.
  intros Ho Hh Hp. assert (reads_sum a) by by apply term_sum, product_term.
  repeat split; try (intros; exfalso; lia); [done|done|by apply sum_expression].
Qed.
Lemma reads_all_factor a : ok a = true -> ((height a <= 0)%nat -> reads_atom a) -> reads_factor a -> reads_all a.
Proof.
  intros Ho Ha Hf. assert (reads_product a) by by apply factor_product. assert (reads_sum a) by by apply term_sum, product_term.
  repeat split; try done. by apply sum_expression.
Qed.
Lemma ast_reads a : ok a = true -> reads_all a.
Proof.
  induction a as [neg i f|ds|a IH r|f a IH r|a IHa r b IHb|o a IHa l r b IHb|mi a IHa l r b IHb|c a IHa l r b IHb|o a IHa l r b IHb]; intros Ho.
  - assert (reads_atom (Num neg i f)) by by apply num_reads. apply reads_all_factor; [done|done|by apply atom_factor].
  - assert (reads_atom (Var ds)) by by apply var_reads. apply reads_all_factor; [done|done|by apply atom_factor].
  - assert (reads_atom (Bracket a r)).
    { pose proof Ho as Ho'. cbn in Ho'. apply andb_true_iff in Ho' as [Hoa _]. apply bracket_reads; [done|by apply IH]. }
    apply reads_all_factor; [done|done|by apply atom_factor].
  - assert (reads_atom (Call f a r)).
    { pose proof Ho as Ho'. cbn in Ho'. apply andb_true_iff in Ho' as [Hoa _]. apply call_reads; [done|by apply IH]. }
    apply reads_all_factor; [done|done|by apply atom_factor].
  - pose proof Ho as Ho'. cbn in Ho'. rewrite !andb_true_iff in Ho'. destruct Ho' as [[[[Hoa Hob] _] Hha%Nat.leb_le] Hhb%Nat.leb_le].
    apply reads_all_factor; [done|cbn; lia|]. apply pow_reads; [done|by apply IHa|by apply IHb].
  - pose proof Ho as Ho'. cbn in Ho'. rewrite !andb_true_iff in Ho'. destruct Ho' as [[[[[Hoa Hob] _] _] Hha%Nat.leb_le] Hhb%Nat.leb_le].
    apply reads_all_product; [done|done|]. apply mul_reads; [done|by apply IHa|by apply IHb].
  - pose proof Ho as Ho'. cbn in Ho'. rewrite !andb_true_iff in Ho'. destruct Ho' as [[[[[Hoa Hob] _] _] Hha%Nat.leb_le] Hhb%Nat.leb_le].
    apply reads_all_sum; [done|done|]. apply add_reads; [done|by apply IHa|]. by apply product_term, IHb.
  - pose proof Ho as Ho'. cbn in Ho'. rewrite !andb_true_iff in Ho'. destruct Ho' as [[[[Hoa Hob] _] _] Hha%Nat.leb_le].
    repeat split; try (cbn; intros; exfalso; lia). apply compare_reads; [done|by apply IHa|by apply IHb].
  - pose proof Ho as Ho'. cbn in Ho'. rewrite !andb_true_iff in Ho'. destruct Ho' as [[[[Hoa Hob] _] _] Hha%Nat.leb_le].
    repeat split; try (cbn; intros; exfalso; lia). apply boolean_reads; [done|by apply IHa|by apply IHb].
Qed.
Lemma evaluate_reads a before rest w :
  ok a = true -> blank before = true -> follow_expr rest = true -> points_at 93 (ltrim_cstr rest) = false ->
  match value (kernel w) a with
  | Some v => evaluate_expression (before ++ print a ++ rest) w = Some ((v, Some (ltrim_cstr rest)), w)
  | None => exists r w', evaluate_expression (before ++ print a ++ rest) w = Some (r, w') /\ halted w w'
  end.
Proof.
  intros Ho Hb Hf He. unfold evaluate_expression. rewrite ltrim_blank, ltrim_print by done.
  pose proof (print_not_close a [] rest Ho eq_refl) as Hc. cbn [app] in Hc. rewrite Hc. destruct (ast_reads a Ho) as (_ & _ & _ & _ & Ha).
  specialize (Ha (fuel_for (print a ++ rest)) [] rest w eq_refl Hf). cbn [app] in Ha.
  assert (Hn : (weight Expression (print a ++ rest) < fuel_for (print a ++ rest))%nat) by (unfold weight, fuel_for, rank; lia).
  specialize (Ha Hn). destruct (value (kernel w) a) as [v|]; cbn [means] in Ha.
  - rewrite (bind_run _ _ _ _ Ha). by rewrite He.
  - destruct Ha as (x & q & w1 & E & _ & Hh). unfold mbind at 1, M_bind at 1. rewrite E. case_match; [|by eexists _, _].
    destruct (halts_halted true "ERROR: Mismatched closing bracket at end of expression" [] w1) as (w2 & E2 & Hg2 & _).
    eexists _, w2. unfold mbind, M_bind. rewrite E2. split; [done|by eapply halted_grows].
Qed.

(** C15: An expression written in the language is given its value: powers from the
    right before products and sums from the left, before one comparison or one
    connective, whose right side is the whole of what follows; with blanks where
    they may stand. The evaluator leaves the text where the expression ends, has
    changed no variable and reported nothing. An expression without a value
    (a division by zero, a variable that is not set or does not exist) halts the
    machine instead. *)
Theorem expression_means a before rest w :
  ok a = true -> blank before = true -> follow_expr rest = true -> points_at 93 (ltrim_cstr rest) = false ->
  match value (kernel w) a with
  | Some v => evaluate_expression (before ++ print a ++ rest) w = Some ((v, Some (ltrim_cstr rest)), w)
  | None => exists r w', evaluate_expression (before ++ print a ++ rest) w = Some (r, w') /\ halted w w'
  end.
Proof. apply evaluate_reads. Qed.

(** *** Letters *)
Lemma letter_loop_in_bounds {T} (read_number : list Z -> M (option (T * list Z))) letter s :
  (forall t w, read_number t w <> None) -> List.last s 0 <> letter -> forall w, letter_loop read_number letter s w <> None.
Proof.
  intros Hr. induction s as [s IH] using (induction_ltof1 _ length). unfold ltof in IH. destruct s as [|c s]; [done|]. intros Hl w. cbn [letter_loop].
  destruct (letter =? c) eqn:E.
  - unfold mbind, M_bind. destruct (read_number s w) as [[o w1]|] eqn:Er; [|by apply Hr in Er]. destruct o as [[v cn]|]; [done|].
    destruct s as [|c' s]; [cbn in Hl; apply Z.eqb_eq in E; congruence|].
    destruct s as [|c2 s]; [done|]. apply IH; [cbn; lia|exact Hl].
  - destruct s as [|c' s]; [done|]. apply IH; [cbn; lia|exact Hl].
Qed.
Lemma value_reads_return s w : (('(v, e) ← evaluate_expression s; mret (match e with Some r => moved s v r | None => None end)) : M (option (Z * list Z))) w <> None.
Proof. destruct (evaluate_fine s w) as (v & e & w' & E & _). unfold mbind, M_bind. by rewrite E. Qed.
Lemma ret_returns {A} (x : A) w : (mret x : M A) w <> None.
Proof. done. Qed.
Lemma bind_ret_none {A B} (c : M A) (f : A -> B) w : (x ← c; mret (f x)) w = None <-> c w = None.
Proof. unfold mbind, M_bind. destruct (c w) as [[? ?]|]; done. Qed.
(** C34: Asking for a letter's value stays inside the command's text unless the
    letter is its last character: however the words before are written, [get_value],
    [get_int] and [get_uint] then return. When the letter stands nowhere but at the
    end, all three read behind the text. *)
Theorem letters_in_bounds letter command w :
  (List.last command 0 <> letter ->
     get_value letter command w <> None /\ get_int letter command w <> None /\ get_uint letter command w <> None) /\
  (forall p, command = p ++ [letter] -> letter ∉ p ->
     get_value letter command w = None /\ get_int letter command w = None /\ get_uint letter command w = None).
Proof.
  split.
  - intros Hl. unfold get_value, get_int, get_uint. rewrite !bind_ret_none.
    split; [|split]; apply letter_loop_in_bounds; try done; intros t w'; try apply ret_returns. apply value_reads_return.
  - intros p -> Hp.
    assert (Hloop : forall T (f : list Z -> M (option (T * list Z))), (forall w, exists w', f [] w = Some (None, w')) -> letter_loop f letter (p ++ [letter]) w = None).
    { intros T f Hf. induction p as [|c p IH]; cbn [app letter_loop].
      - rewrite Z.eqb_refl. unfold mbind, M_bind. destruct (Hf w) as (w' & E). by rewrite E.
      - destruct (Z.eqb_spec letter c) as [->|]; [set_solver|]. apply IH. set_solver. }
    unfold get_value, get_int, get_uint. rewrite !bind_ret_none. split; [|split]; apply Hloop.
    + intros w1. destruct (evaluate_fine [] w1) as (v & e & w' & E & _ & Hs). exists w'. unfold mbind, M_bind. rewrite E.
      destruct e as [r|]; [|done]. by apply suffix_nil_inv in Hs as ->.
    + intros w1. by exists w1.
    + intros w1. by exists w1.
Qed.
End Theorems.
Section Words.
Context `{CLib}.
Lemma letter_loop_at {T} (f : list Z -> M (option (T * list Z))) letter p s x w w' :
  letter ∉ p -> f s w = Some (Some x, w') -> letter_loop f letter (p ++ letter :: s) w = Some (Some x, w').
Proof.
  intros Hp E. induction p as [|c p IH]; cbn [app letter_loop].
  - rewrite Z.eqb_refl. unfold mbind, M_bind. rewrite E. by destruct x.
  - destruct (letter =? c) eqn:Ec; [apply Z.eqb_eq in Ec; set_solver|]. apply IH. set_solver.
Qed.
(** A word's value. Where a letter is first met in a command with an expression
    after it, [get_value] is that expression's value, says where the expression
    ends, and changes nothing; what stands before, and after, does not matter. *)
Theorem get_value_of_word letter p before a rest v w :
  letter ∉ p -> ok a = true -> blank before = true -> follow_expr rest = true -> points_at 93 (ltrim_cstr rest) = false ->
  value (kernel w) a = Some v ->
  get_value letter (p ++ letter :: before ++ print a ++ rest) w = Some ((v, Some (ltrim_cstr rest)), w).
Proof.
  intros Hp Ho Hb Hf Hr Hv. pose proof (evaluate_reads a before rest w Ho Hb Hf Hr) as He. rewrite Hv in He.
  unfold get_value. erewrite (bind_run _ _ w (Some (v, ltrim_cstr rest))); [done|]. apply letter_loop_at; [done|].
  rewrite (bind_run _ _ _ _ He). unfold moved. destruct (print_opens a Ho) as (c & q & -> & _).
  pose proof (suffix_le _ _ (ltrim_suffix rest)). rewrite (proj2 (Nat.ltb_lt _ _)); [done|]. rewrite !length_app. cbn [length]. lia.
Qed.

(** *** The number of a G or M command *)
Lemma strtol_digits ds rest : digits_only ds = true -> ds <> [] -> match rest with c :: _ => isdigit c = false | [] => True end ->
  strtol (ds ++ rest) = Some (Z.min (2 ^ 31 - 1) (fst (digits 0 ds)), rest).
Proof.
  intros Hd Hne Hr. destruct ds as [|d ds]; [done|]. pose proof Hd as Hd0. cbn in Hd0. apply andb_true_iff in Hd0 as [Hd0 _].
  unfold strtol. cbn [app]. rewrite ltrim_done by (unfold isdigit, isspace in *; lia). unfold sign_of.
  assert ((d =? 45) = false) as -> by (unfold isdigit in *; lia). assert ((d =? 43) = false) as -> by (unfold isdigit in *; lia).
  rewrite Hd0. change (d :: ds ++ rest) with ((d :: ds) ++ rest). rewrite (digits_all (d :: ds)) by done.
  pose proof (digits_nonneg (d :: ds) 0 ltac:(lia)). do 2 f_equal. lia.
Qed.
Lemma strtoul_digits ds rest : digits_only ds = true -> ds <> [] -> match rest with c :: _ => isdigit c = false | [] => True end ->
  strtoul (ds ++ rest) = Some (Z.min (2 ^ 32 - 1) (fst (digits 0 ds)), rest).
Proof.
  intros Hd Hne Hr. destruct ds as [|d ds]; [done|]. pose proof Hd as Hd0. cbn in Hd0. apply andb_true_iff in Hd0 as [Hd0 _].
  unfold strtoul. cbn [app]. rewrite ltrim_done by (unfold isdigit, isspace in *; lia). unfold sign_of.
  assert ((d =? 45) = false) as -> by (unfold isdigit in *; lia). assert ((d =? 43) = false) as -> by (unfold isdigit in *; lia).
  rewrite Hd0. change (d :: ds ++ rest) with ((d :: ds) ++ rest). rewrite (digits_all (d :: ds)) by done.
  destruct (2 ^ 32 <=? _) eqn:E; do 2 f_equal; lia.
Qed.
Lemma c_string_id s : 0 ∉ s -> c_string s = s.
Proof. induction s as [|c s IH]; [done|]. intros Hn. cbn. destruct (c =? 0) eqn:E; [apply Z.eqb_eq in E; set_solver|]. rewrite IH; [done|set_solver]. Qed.
Lemma has_letter_iff l s : has_letter l s = true <-> l ∈ s.
Proof.
  unfold has_letter. rewrite existsb_exists. split; [intros (x & Hx & E%Z.eqb_eq); subst x; by apply list_elem_of_In|].
  intros Hx. exists l. split; [by apply list_elem_of_In|by rewrite Z.eqb_refl].
Qed.
Lemma has_letter_false l s : l ∉ s -> has_letter l s = false.
Proof. intros Hn. destruct (has_letter l s) eqn:E; [|done]. by apply has_letter_iff in E. Qed.
Lemma digits_no_letter l ds : digits_only ds = true -> 57 < l \/ l < 48 -> l ∉ ds.
Proof.
  intros Hd Hl Hin. unfold digits_only in Hd. rewrite forallb_forall in Hd. specialize (Hd l). apply list_elem_of_In in Hin. apply Hd in Hin.
  unfold isdigit in Hin. lia.
Qed.
(** A [G] or an [M], a number, and the number after the point where there is one. *)
Definition head_word (is_m : bool) (ds : list Z) (sub : option (list Z)) : list Z :=
  (if is_m then 77 else 71) :: ds ++ match sub with Some ks => 46 :: ks | None => [] end.
Record head_ok (ds : list Z) (sub : option (list Z)) (rest : list Z) : Prop := mk_head_ok {
  ho_digits : digits_only ds = true; ho_some : ds <> []; ho_small : fst (digits 0 ds) < 2 ^ 31;
  ho_sub : match sub with Some ks => digits_only ks = true /\ ks <> [] /\ fst (digits 0 ks) < 2 ^ 32 | None => True end;
  ho_end : match rest with c :: _ => isdigit c = false /\ (sub = None -> c <> 46) | [] => True end;
  ho_free : (71 ∉ rest) /\ (77 ∉ rest) /\ (0 ∉ rest)
}.
Section Head.
Context (is_m : bool) (ds : list Z) (sub : option (list Z)) (rest : list Z).
Context (Hok : head_ok ds sub rest).
Let letter : Z := if is_m then 77 else 71.
Let n : Z := fst (digits 0 ds).
Let after : list Z := (match sub with Some ks => 46 :: ks | None => [] end) ++ rest.
Let text : list Z := head_word is_m ds sub ++ rest.
Lemma head_text : text = letter :: ds ++ after.
Proof. unfold text, head_word, after. cbn. by rewrite <- app_assoc. Qed.
Lemma head_letters l : 57 < l \/ l < 46 -> l <> letter -> l ∉ rest -> l ∉ text.
Proof using Hok.
  intros Hl Hne Hr. rewrite head_text. unfold after. rewrite elem_of_cons, !elem_of_app. destruct Hok as [Hd _ _ Hs _ _].
  pose proof (digits_no_letter l ds Hd ltac:(lia)). destruct sub as [ks|]; [|set_solver].
  destruct Hs as (Hk & _). pose proof (digits_no_letter l ks Hk ltac:(lia)). rewrite elem_of_cons. intros [?|[?|[[?|?]|?]]]; try done. lia.
Qed.
Lemma head_has_t : has_letter 84 text = has_letter 84 rest.
Proof using Hok.
  destruct (has_letter 84 rest) eqn:E; [apply has_letter_iff in E; apply has_letter_iff; unfold text; set_solver|].
  apply has_letter_false, head_letters; [lia|unfold letter; destruct is_m; lia|]. intros Hin. apply has_letter_iff in Hin. congruence.
Qed.
Lemma head_number w : get_int letter text w = Some ((n, Some after), w).
Proof using Hok.
  destruct Hok as [Hd Hne Hs _ He _]. unfold get_int. erewrite (bind_run _ _ w (Some (n, after))); [done|]. rewrite head_text.
  apply (letter_loop_at _ _ []); [set_solver|]. rewrite strtol_digits; [|done|done|].
  - assert (E : Z.min (2 ^ 31 - 1) (fst (digits 0 ds)) = n) by (unfold n; lia). by rewrite E.
  - unfold after. destruct sub; [done|]. destruct rest; [done|]. cbn. tauto.
Qed.
Lemma head_number_u32 : u32 n = n.
Proof using Hok. clear text letter. destruct Hok as [_ _ Hs _ _ _]. apply wrap_small. pose proof (digits_nonneg ds 0 ltac:(lia)). unfold is_uint, n. lia. Qed.
Lemma head_sub c : has_g c || has_m c = true ->
  extract_subcode c (Some after) = (c <| subcode := match sub with Some ks => fst (digits 0 ks) mod 16 | None => 0 end |>, Some rest).
Proof using Hok.
  clear text letter. intros Hc. unfold extract_subcode. rewrite Hc. destruct Hok as [_ _ _ Hs He _]. unfold after. destruct sub as [ks|]; cbn [app].
  - destruct Hs as (Hk & Hkn & Hkl). change (points_at 46 (46 :: ?x)) with true. cbv iota. cbn [tail].
    rewrite strtoul_digits; [|done|done|by destruct rest; [|destruct He]]. unfold or_zero. cbn [default from_option].
    pose proof (digits_nonneg ks 0 ltac:(lia)). unfold id. rewrite (Z.land_ones _ 4) by done.
    by replace (Z.min (2 ^ 32 - 1) (fst (digits 0 ks))) with (fst (digits 0 ks)) by lia.
  - destruct rest as [|c' r]; [done|]. assert (E : points_at 46 (c' :: r) = false) by (cbn; destruct He as [_ Hx]; specialize (Hx eq_refl); lia).
    by rewrite E.
Qed.
End Head.
(** A command is taken apart into what it is and its words. From the text of one
    [G] or [M] command: which of the two, its number, and the number after the
    point, of which four bits are kept; what is left of the text, when it is to be
    stripped and has no [T], are the words alone. *)
Theorem new_gcode_reads (is_m : bool) ds sub rest strip line_ w :
  head_ok ds sub rest ->
  exists c, new_gcode (head_word is_m ds sub ++ rest) strip line_ w = Some (c, w) /\
    has_g c = negb is_m /\ has_m c = is_m /\ (if is_m then m c else g c) = fst (digits 0 ds) /\
    subcode c = match sub with Some ks => fst (digits 0 ks) mod 16 | None => 0 end /\
    command c = (if strip && negb (has_letter 84 rest) then rest else head_word is_m ds sub ++ rest) /\ line c = line_.
Proof.
  intros Hok. pose proof (head_letters is_m ds sub rest Hok) as Hl. pose proof (head_has_t is_m ds sub rest Hok) as HT.
  pose proof (head_number is_m ds sub rest Hok w) as Hn. pose proof (head_number_u32 ds sub rest Hok) as Hu.
  pose proof (fun c => head_sub ds sub rest Hok c) as Hs. destruct Hok as [_ _ _ _ _ (Hg & Hm & Hz)].
  set (text := head_word is_m ds sub ++ rest) in *. set (after := _ ++ rest) in Hn, Hs. clearbody after.
  assert (Hc : c_string text = text) by (apply c_string_id, Hl; [lia|by destruct is_m|done]).
  assert (HG : has_letter 71 text = negb is_m).
  { destruct is_m; [apply has_letter_false, Hl; [lia|done|done]|]. apply has_letter_iff. unfold text, head_word. set_solver. }
  assert (HM : has_letter 77 text = is_m).
  { destruct is_m; [apply has_letter_iff; unfold text, head_word; set_solver|]. apply has_letter_false, Hl; [lia|done|done]. }
  clearbody text. unfold new_gcode, prepare_cached_values. rewrite Hc. set (c0 := mk_gcode text _ _ _ _ _ _ _ _ _ _).
  unfold mbind, M_bind, mret, M_ret. change (command c0) with text. rewrite HG. 
  set (k := match sub with Some ks => _ | None => 0 end) in *. destruct is_m; cbn [negb] in *.
  - change (command (c0 <| has_g := false |>)) with text. rewrite HM, Hn, Hu. rewrite Hs by done. unfold strip_head. recs.
    change (command c0) with text. rewrite HT. eexists. split; [reflexivity|].
    destruct strip; cbn [negb orb andb]; [destruct (has_letter 84 rest); cbn [negb]|]; by recs.
  - rewrite Hn, Hu. recs. change (command c0) with text. rewrite HM. rewrite Hs by done. unfold strip_head. recs.
    change (command c0) with text. rewrite HT. eexists. split; [reflexivity|].
    destruct strip; cbn [negb orb andb]; [destruct (has_letter 84 rest); cbn [negb]|]; by recs.
Qed.
End Words.
(** *** Variables are kept *)
Section Variables.
Context `{CLib}.
Record vars_ok (k : Kernel) : Prop := mk_vars_ok {
  vo_params : length (local_params k) = 30%nat; vo_vars : length (local_vars k) = 20%nat;
  vo_perm : length (perm_vars k) = 20%nat; vo_outputs : length (probe_outputs k) = 6%nat
}.
(** The variables a program may set, and those of them whose value shows whether
    they are set. *)
Definition settable (n : Z) : bool := ((1 <=? n) && (n <=? 30)) || ((101 <=? n) && (n <=? 120)) || ((501 <=? n) && (n <=? 520)).
Definition stored (n v : Z) (k : Kernel) : Kernel :=
  if n <=? 30 then k <| local_params := <[Z.to_nat (n - 1) := v]> (local_params k) |>
  else if n <=? 120 then k <| local_vars := <[Z.to_nat (n - 101) := v]> (local_vars k) |>
  else k <| perm_vars := <[Z.to_nat (n - 501) := v]> (perm_vars k) |>.
Lemma store_runs n v w : settable n = true ->
  exists w', store n v w = Some (v, w') /\ kernel w' = stored n v (kernel w) /\ ~ call_on_halt false ∈ drop (length (events w)) (events w').
Proof.
  unfold settable, store, stored. intros Hn.
  assert (Hd : forall e : list Event, drop (length (events w)) (events w ++ e) = e) by (intros e; by rewrite drop_app_length).
  destruct ((1 <=? n) && (n <=? 30)) eqn:E1; [|destruct ((101 <=? n) && (n <=? 120)) eqn:E2].
  - replace (n <=? 30) with true by lia. eexists. split; [reflexivity|]. split; [done|]. cbn [events]. rewrite Hd. set_solver.
  - replace (n <=? 30) with false by lia. replace (n <=? 120) with true by lia. eexists. split; [reflexivity|]. split; [done|]. cbn [events]. rewrite Hd. set_solver.
  - replace (n =? 150) with false by lia. assert (E3 : (501 <=? n) && (n <=? 520) = true) by lia. rewrite E3.
    replace (n <=? 30) with false by lia. replace (n <=? 120) with false by lia. eexists. split; [reflexivity|]. split; [done|].
    cbn [events]. rewrite <- app_assoc, Hd. set_solver.
Qed.
Definition kept_value (x : Z) : option Z := if is_set x then Some x else None.
Ltac branch := match goal with |- context [if ?b then _ else _] => destruct b end.
Lemma var_value_cases k n : var_value k n =
  if (1 <=? n) && (n <=? 30) then Some (local_params k !!! Z.to_nat (n - 1))
  else if (101 <=? n) && (n <=? 120) then kept_value (local_vars k !!! Z.to_nat (n - 101))
  else if n =? 150 then Some (probe_tip_diameter k)
  else if (151 <=? n) && (n <=? 156) then kept_value (probe_outputs k !!! Z.to_nat (n - 151))
  else if (501 <=? n) && (n <=? 520) then kept_value (perm_vars k !!! Z.to_nat (n - 501))
  else quiet (system_variable n (mk_world k [])).
Proof.
  assert (Hk : forall f : Kernel -> Z, quiet ((x ← read f; if is_set x then mret x else unset n) (mk_world k [])) = kept_value (f k)).
  { intros f. unfold quiet, kept_value, mbind, M_bind, read. cbn [kernel]. by destruct (is_set (f k)). }
  unfold var_value, variable. cbv zeta. repeat (branch; [first [done|apply Hk]|]). done.
Qed.
Lemma system_variable_stored n m v k : quiet (system_variable m (mk_world (stored n v k) [])) = quiet (system_variable m (mk_world k [])).
Proof.
  assert (E : forall f : Kernel -> Z, (f (stored n v k) = f k) -> quiet (read f (mk_world (stored n v k) [])) = quiet (read f (mk_world k []))).
  { intros f Ef. unfold read, quiet. cbn. by rewrite Ef. }
  assert (Hm : machine (stored n v k) = machine k /\ TLO (stored n v k) = TLO k /\ TOOL (stored n v k) = TOOL k /\ optional_stop_mode (stored n v k) = optional_stop_mode k).
  { unfold stored. repeat case_match; by recs. }
  destruct Hm as (Hm & H1 & H2 & H3). unfold system_variable. repeat (branch; [apply E; cbv beta zeta; by rewrite ?Hm, ?H1, ?H2, ?H3|]). done.
Qed.
Lemma var_value_stored n v k m : vars_ok k -> settable n = true ->
  var_value (stored n v k) m = if m =? n then (if n <=? 30 then Some v else kept_value v) else var_value k m.
Proof.
  intros [Hp Hv Hpm Ho] Hn. rewrite !var_value_cases.
  assert (Hi : forall (l : list Z) b len, length l = len -> b <= n < b + Z.of_nat len -> <[Z.to_nat (n - b) := v]> l !!! Z.to_nat (n - b) = v).
  { intros l b len Hl Hb. apply list_lookup_total_insert_eq. lia. }
  assert (Hj : forall (l : list Z) b, b <= n -> b <= m -> m <> n -> <[Z.to_nat (n - b) := v]> l !!! Z.to_nat (m - b) = l !!! Z.to_nat (m - b)).
  { intros l b H1 H2 H3. apply list_lookup_total_insert_ne. lia. }
  destruct (Z.eqb_spec m n) as [->|Hne].
  - unfold settable in Hn. unfold stored. destruct ((1 <=? n) && (n <=? 30)) eqn:E1.
    + replace (n <=? 30) with true by lia. recs. rewrite (Hi _ 1 30%nat) by (done || lia). done.
    + destruct ((101 <=? n) && (n <=? 120)) eqn:E2.
      * replace (n <=? 30) with false by lia. replace (n <=? 120) with true by lia. recs. rewrite (Hi _ 101 20%nat) by (done || lia). done.
      * replace (n =? 150) with false by lia. replace ((151 <=? n) && (n <=? 156)) with false by lia.
        replace ((501 <=? n) && (n <=? 520)) with true by lia. replace (n <=? 30) with false by lia. replace (n <=? 120) with false by lia.
        recs. rewrite (Hi _ 501 20%nat) by (done || lia). done.
  - destruct (settable m) eqn:Em; [|rewrite (system_variable_stored n m v k)]; unfold settable in *; unfold stored;
      repeat (case_match; try lia); recs; try done; by rewrite Hj by lia.
Qed.
(** An assignment, with what may follow it on the line. *)
Lemma set_variable_runs ds l r a rest v w (n := fst (digits 0 ds)) :
  digits_only ds = true -> ds <> [] -> settable n = true -> blank l = true -> blank r = true -> ok a = true ->
  follow_expr rest = true -> points_at 93 (ltrim_cstr rest) = false -> value (kernel w) a = Some v -> is_nan v = false ->
  exists w', set_variable_value (35 :: ds ++ l ++ 61 :: r ++ print a ++ rest) w = Some (v, w') /\
    kernel w' = stored n v (kernel w) /\ ~ call_on_halt false ∈ drop (length (events w)) (events w').
Proof.
  intros Hd Hne Hn Hl Hr Ho Hf Hb Hv Hnan. unfold set_variable_value. change (points_at 35 (35 :: ?x)) with true. cbv iota. cbn [tail].
  assert (Hst : strtol (ds ++ l ++ 61 :: r ++ print a ++ rest) = Some (n, l ++ 61 :: r ++ print a ++ rest)).
  { rewrite strtol_digits; [|done|done|].
    - unfold settable in Hn. do 2 f_equal. fold n. lia.
    - destruct l as [|c l]; [done|]. apply blank_head in Hl. cbn. unfold isspace, isdigit in *. lia. }
  rewrite Hst. unfold or_zero, default, id. cbn [from_option]. rewrite ltrim_blank by done. rewrite ltrim_done by done.
  change (points_at 61 (61 :: ?x)) with true. cbv iota. cbn [tail]. rewrite ltrim_blank by done.
  pose proof (evaluate_reads a [] rest w Ho eq_refl Hf Hb) as He. rewrite Hv in He. cbn [app] in He.
  rewrite (ltrim_print a rest Ho), (bind_run _ _ _ _ He), Hnan. by apply store_runs.
Qed.
(** A variable that is set keeps its value. A line that assigns an expression
    to one of the variables a program may set, [#1] to [#30], [#101] to [#120] and
    [#501] to [#520], halts nothing, and afterwards the variable is worth the
    expression's value and every other variable, the system's too, what it was. The
    exception is a value not above -100000 given to a variable of the last two
    groups: it then counts as not set. *)
Theorem set_variable_keeps ds l r a v w (n := fst (digits 0 ds)) :
  vars_ok (kernel w) -> digits_only ds = true -> ds <> [] -> settable n = true ->
  blank l = true -> blank r = true -> ok a = true -> value (kernel w) a = Some v -> is_nan v = false ->
  exists w', set_variable_value (35 :: ds ++ l ++ 61 :: r ++ print a) w = Some (v, w') /\ vars_ok (kernel w') /\
    ~ call_on_halt false ∈ drop (length (events w)) (events w') /\
    forall m, var_value (kernel w') m = if m =? n then (if n <=? 30 then Some v else kept_value v) else var_value (kernel w) m.
Proof.
  intros Hok Hd Hne Hn Hl Hr Ho Hv Hnan. rewrite <- (app_nil_r (print a)).
  destruct (set_variable_runs ds l r a [] v w) as (w' & E & Ek & Hev); try done. exists w'. split; [exact E|]. rewrite Ek. split; [|split; [done|]].
  - destruct Hok. unfold stored. repeat case_match; split; recs; rewrite ?length_insert; done.
  - intros m. by apply var_value_stored.
Qed.
End Variables.

(** ** Examples *)

(** A C library for the examples: decimal numbers as quotients. *)
Definition decimal (t : list Z) : Z :=
  let '(i, r) := span isdigit t in
  let f := filter (fun c => isdigit c = true) r in
  fdiv (float_of_int (fst (digits 0 (i ++ f)))) (float_of_int (10 ^ Z.of_nat (length f))).
Definition hexadecimal (t : list Z) : Z :=
  float_of_int (fold_left (fun acc c => acc * 16 + (if isdigit c then c - 48 else tolower c - 87)) (filter (fun c => isxdigit c = true) (drop 2 t)) 0).
#[local] Instance demo_lib : CLib := mk_clib id id id id id id id id (fun x y => fmul x y)
  (fun t => if starts (chars "0x") (lc t) then hexadecimal t else decimal t).
Definition demo_machine : Machine := mk_machine [0; 0; 0] None id id 0 None [0; 0].
Definition demo_world : World := mk_world (new_vars (repeat (float_of_int 7) 20) (repeat 0 6) 0 0 3 false demo_machine) [].
Definition num (n : Z) : Ast := Num false [48 + n] None.
(** [2 + #501 * [5 - 1]ge 8] *)
Definition demo_expression : Ast :=
  Compare cmp_ge (Add false (num 2) [32] [32] (Mul times (Var (chars "501")) [32] [32] (Bracket (Add true (num 5) [32] [32] (num 1)) []))) [] [32] (num 8).
Lemma expression_means_witness :
  evaluate_expression (chars " 2 + #501 * [5 - 1]ge 8 M5") demo_world = Some ((f_one, Some (chars "M5")), demo_world).
Proof. exact (expression_means demo_expression [32] (chars " M5") demo_world eq_refl eq_refl eq_refl eq_refl). Defined.
Lemma get_value_of_word_witness :
  get_value 89 (chars "G0 X1 Y2.5 Z3") demo_world = Some ((0x40200000, Some (chars "Z3")), demo_world).
Proof.
  apply (get_value_of_word 89 (chars "G0 X1 ") [] (Num false [50] (Some [53])) (chars " Z3") 0x40200000 demo_world);
    first [reflexivity | concrete].
Defined.
Lemma letters_in_bounds_witness :
  get_value 89 (chars "G0 Y5") demo_world <> None /\ get_value 89 (chars "G0 X5Y") demo_world = None.
Proof.
  split.
  - apply (letters_in_bounds 89 (chars "G0 Y5") demo_world). concrete.
  - apply (letters_in_bounds 89 (chars "G0 X5Y") demo_world) with (p := chars "G0 X5"); [reflexivity|concrete].
Defined.
Lemma new_gcode_reads_witness : exists c, new_gcode (chars "G38.2 Z-10") true 7 demo_world = Some (c, demo_world) /\
  g c = 38 /\ subcode c = 2 /\ command c = chars " Z-10".
Proof.
  destruct (new_gcode_reads false (chars "38") (Some (chars "2")) (chars " Z-10") true 7 demo_world) as (c & E & _ & _ & Hg & Hs & Hc & _).
  - split; concrete.
  - exists c. split; [exact E|]. split; [exact Hg|]. split; [exact Hs|exact Hc].
Defined.
Lemma set_variable_keeps_witness : exists w',
  set_variable_value (chars "#101 = 2 + #501 * [5 - 1]ge 8") demo_world = Some (f_one, w') /\ var_value (kernel w') 101 = Some f_one /\
  var_value (kernel w') 102 = None.
Proof.
  destruct (set_variable_keeps (chars "101") [32] [32] demo_expression f_one demo_world) as (w' & E & _ & _ & Hv);
    [split; reflexivity|reflexivity|concrete|vm_compute; reflexivity..|].
  exists w'. split; [exact E|]. split; [exact (Hv 101)|exact (Hv 102)].
Defined.

(** *** What the code does that it may not mean to do *)

(** [0X5] is a hexadecimal number to [strtof]: a zero before an [X] swallows it,
    and [Y] is moved to 5. *)
Lemma zero_before_x : get_value 89 (chars "G0Y0X5") demo_world = Some ((float_of_int 5, Some []), demo_world).
Proof. vm_compute. reflexivity. Qed.
(** The right side of a comparison is the whole conjunction that follows. *)
Lemma comparison_takes_conjunction :
  evaluate_expression (chars "2 eq 2 and 1") demo_world = Some ((f_zero, Some []), demo_world) /\
  evaluate_expression (chars "[2 eq 2] and 1") demo_world = Some ((f_one, Some []), demo_world).
Proof. vm_compute. done. Qed.
(** A blank before [^] ends the expression, without an error. *)
Lemma blank_before_power : evaluate_expression (chars "3 ^2") demo_world = Some ((float_of_int 3, Some (chars "^2")), demo_world).
Proof. vm_compute. reflexivity. Qed.
(** A variable given a value not above -100000 counts as not set. *)
Lemma large_negative_lost :
  option_map (fun '(v, w) => (v, var_value (kernel w) 101)) (set_variable_value (chars "#101=0-200000") demo_world) =
  Some (float_of_int (- 200000), None).
Proof. vm_compute. reflexivity. Qed.
(** Four bits of the number after the point are kept: [G38.17] is [G38.1]. *)
Lemma subcode_wraps : option_map (fun '(c, _) => subcode c) (new_gcode (chars "G38.17") false 0 demo_world) = Some 1.
Proof. vm_compute. reflexivity. Qed.
