(* ===== verification/ConfigCache.v ===== *)
(** * Settings: keys, values and their cache ([src/src/libs/checksumm.h], [utils.cpp],
    [ConfigValue.cpp], [ConfigCache.cpp])

    A key is known by the checksums of its parts, computed by the compiler where
    the code names it and at run time where a file does. The values read are kept
    in chunks of sixteen. *)
From stdpp Require Import gmap.
From S2P Require Import Prelude CString Binary32.
From S2P Require Gcode.
#[local] Open Scope Z_scope.

(** ** Checksums of keys *)

(** One character; a [char] is unsigned on these processors.
    [src/src/libs/utils.cpp:48-51] get_checksum *)
Definition fletcher_step (sums : Z * Z) (c : Z) : Z * Z :=
  let '(sum1, sum2) := sums in
  let sum1 := u16 (sum1 + c) mod 255 in
  (sum1, u16 (sum2 + sum1) mod 255).
(** [src/src/libs/utils.cpp:43-53] get_checksum *)
Definition get_checksum (to_check : list Z) : Z :=
  let '(sum1, sum2) := fold_left fletcher_step to_check (0, 0) in Z.lor (u16 (Z.shiftl sum2 8)) sum1.
(** The macros [SUM1_1] to [SUM1_32], one for each length.
    [src/src/libs/checksumm.h:57-88] SUM1_1 *)
Fixpoint SUM1 (n : nat) (X : list Z) : Z :=
  match n with
  | O => 0
  | S O => (X !!! 0%nat) mod 255
  | S m => (SUM1 m X + X !!! m) mod 255
  end.
(** [src/src/libs/checksumm.h:91-122] SUM2_1 *)
Fixpoint SUM2 (n : nat) (X : list Z) : Z :=
  match n with
  | O => 0
  | S O => SUM1 1 X mod 255
  | S m => (SUM2 m X + SUM1 n X) mod 255
  end.
(** By the length of the literal, up to thirty-two characters.
    [src/src/libs/checksumm.h:125-200] CHECKSUM *)
Definition CHECKSUM (X : list Z) : Z :=
  let n := length X in
  if (n =? 0)%nat then 0 else if (n <=? 32)%nat then Z.lor (SUM1 n X) (Z.shiftl (SUM2 n X) 8) else 0xFFFF.
(** The other way the header keeps, for newer compilers: from [i] to the
    terminator, which counts. Fuel: the characters left, and one.
    [src/src/libs/checksumm.h:43-45] checksum *)
Fixpoint checksum (fuel : nat) (s : list Z) (n i : nat) (sum1 sum2 : Z) : Z :=
  match fuel with
  | O => u16 (Z.lor (Z.shiftl sum2 8) sum1)
  | S fuel =>
      if (i <=? n)%nat then checksum fuel s n (S i) (u16 ((sum1 + s !!! i) mod 255)) (u16 ((sum2 + sum1) mod 255))
      else u16 (Z.lor (Z.shiftl sum2 8) sum1)
  end.
(** [src/src/libs/checksumm.h:47-49] operator_checksum *)
Definition literal_checksum (s : list Z) : Z := checksum (S (length s)) (s ++ [0]) (length s) 0 0 0.
(** The parts of a key between points, three at most.
    [src/src/libs/utils.cpp:67-77] get_checksums *)
Fixpoint key_checksums (counter : nat) (key : list Z) : list Z :=
  match counter, key with
  | O, _ | _, [] => []
  | S counter, _ =>
      match find_from (Z.eqb 46) key with
      | None => [get_checksum key]
      | Some end_key => get_checksum (take end_key key) :: key_checksums counter (drop (S end_key) key)
      end
  end.
(** [src/src/libs/utils.cpp:60-78] get_checksums *)
Definition get_checksums (key : list Z) : list Z := let l := key_checksums 3 key in l ++ repeat 0 (3 - length l).

(** ** Values *)

Definition CONFIGVALUE_MAX_LEN : nat := 20.
(** What is told: an error, which marks the load as failed, or a notice. *)
Inductive Report := load_error (fmt : string) (args : list Gcode.Arg) | notice (fmt : string) (args : list Gcode.Arg).
Definition is_load_error (r : Report) : bool := match r with load_error _ _ => true | notice _ _ => false end.
(** [src/src/libs/ConfigValue.h:18-53] ConfigValue *)
Record ConfigValue := mk_value { check_sums : list Z; value : list Z }.
(** [src/src/libs/ConfigValue.cpp:38-46] ConfigValue::set_value *)
Definition set_value (cv : ConfigValue) (s : list Z) : ConfigValue * list Report :=
  if (CONFIGVALUE_MAX_LEN <=? length s)%nat then
    (mk_value (check_sums cv) (take (CONFIGVALUE_MAX_LEN - 1) s),
     [load_error "ERROR: config value '%.*s' exceeds %d char limit, truncating" [Gcode.a_text s; Gcode.an_int (Z.of_nat CONFIGVALUE_MAX_LEN - 1)]])
  else (mk_value (check_sums cv) s, []).
Section Values.
Context `{Gcode.CLib}.
(** [src/src/libs/utils.cpp:124-134] remove_non_number *)
Definition remove_non_number (str : list Z) : list Z := filter (fun c => elem (chars "0123456789-.abcdefpxABCDEFPX") c = true) str.
Definition invalid (kind : string) (cv : ConfigValue) : Report :=
  load_error kind (Gcode.a_text (c_string (value cv)) :: map Gcode.an_int (check_sums cv)).
(** A setting that is not there ([None], the dummy) is zero.
    [src/src/libs/ConfigValue.cpp:56-67] ConfigValue::as_number *)
Definition as_number (cv : option ConfigValue) : Z * list Report :=
  match cv with
  | None => (0, [])
  | Some cv => match Gcode.strtof (c_string (remove_non_number (c_string (value cv)))) with
               | Some (v, _) => (v, [])
               | None => (0, [invalid "is not a valid number" cv])
               end
  end.
(** [src/src/libs/ConfigValue.cpp:69-80] ConfigValue::as_int *)
Definition as_int (cv : option ConfigValue) : Z * list Report :=
  match cv with
  | None => (0, [])
  | Some cv => match strtol (c_string (remove_non_number (c_string (value cv)))) with
               | Some (v, _) => (v, [])
               | None => (0, [invalid "is not a valid int" cv])
               end
  end.
(** [src/src/libs/ConfigValue.cpp:82-85] ConfigValue::as_string *)
Definition as_string (cv : option ConfigValue) : list Z := match cv with None => [] | Some cv => c_string (value cv) end.
(** [src/src/libs/ConfigValue.cpp:87-91] ConfigValue::as_bool *)
Definition as_bool (cv : option ConfigValue) : bool := existsb (elem (chars "ty1")) (as_string cv).
(** [src/src/libs/ConfigValue.cpp:93-111] ConfigValue::as_number *)
Definition with_default {A} (read : option ConfigValue -> A) (dflt : A) (cv : option ConfigValue) : A :=
  match cv with Some _ => read cv | None => dflt end.
(** [src/src/libs/ConfigValue.cpp:118-121] ConfigValue::is_inverted *)
Definition is_inverted (cv : option ConfigValue) : bool := elem (as_string cv) 33.
End Values.

(** ** The cache *)

(** Chunks in order, each with what it holds, and the number of values.
    [src/src/libs/ConfigCache.h:40-51] ConfigCache *)
Record ConfigCache := mk_cache { chunks : list (list ConfigValue); count : Z }.
Definition VALUES_PER_CHUNK : nat := 16.
(** [src/src/libs/ConfigCache.cpp:20-29] ConfigCache::clear *)
Definition new_cache : ConfigCache := mk_cache [] 0.
#[export] Instance sums_eq_dec : EqDecision (list Z) := _.
Definition named (sums : list Z) (cv : ConfigValue) : bool := bool_decide (check_sums cv = sums).
(** The last chunk without its last value, or without the chunk when that was all.
    [src/src/libs/ConfigCache.cpp:31-50] ConfigCache::pop *)
Definition pop (c : ConfigCache) : ConfigCache :=
  match list.last (chunks c) with
  | None => c
  | Some l => let l' := removelast l in
              mk_cache (removelast (chunks c) ++ match l' with [] => [] | _ => [l'] end) (u16 (count c - 1))
  end.
(** The first entry of the same name replaced; [None] when there is none. *)
Fixpoint replace_in (v : ConfigValue) (l : list ConfigValue) : option (list ConfigValue) :=
  match l with
  | [] => None
  | x :: l => if named (check_sums v) x then Some (v :: l) else option_map (cons x) (replace_in v l)
  end.
(** [src/src/libs/ConfigCache.cpp:56-64] ConfigCache::replace_or_push_back *)
Fixpoint replace_chunk (v : ConfigValue) (cs : list (list ConfigValue)) : option (list (list ConfigValue)) :=
  match cs with
  | [] => None
  | c :: cs => match replace_in v c with Some c' => Some (c' :: cs) | None => option_map (cons c) (replace_chunk v cs) end
  end.
(** At the end of the last chunk, or in a new one, for which there must be memory.
    [src/src/libs/ConfigCache.cpp:66-81] ConfigCache::replace_or_push_back *)
Definition push_back (memory : bool) (v : ConfigValue) (c : ConfigCache) : option ConfigCache :=
  let put cs := Some (mk_cache cs (u16 (count c + 1))) in
  match list.last (chunks c) with
  | Some l => if (length l =? VALUES_PER_CHUNK)%nat then if memory then put (chunks c ++ [[v]]) else None
              else put (removelast (chunks c) ++ [l ++ [v]])
  | None => if memory then put [[v]] else None
  end.
(** The value is stored, unless memory runs out.
    [src/src/libs/ConfigCache.cpp:54-82] ConfigCache::replace_or_push_back *)
Definition replace_or_push_back (memory : bool) (v : ConfigValue) (c : ConfigCache) : ConfigCache * bool * list Report :=
  match replace_chunk v (chunks c) with
  | Some cs => (mk_cache cs (count c), true, [])
  | None => match push_back memory v c with
            | Some c' => (c', true, [])
            | None => (c, false, [load_error "ERROR: out of memory growing config cache" []])
            end
  end.
(** [src/src/libs/ConfigCache.cpp:84-95] ConfigCache::lookup *)
Fixpoint lookup_chunks (sums : list Z) (cs : list (list ConfigValue)) : option ConfigValue :=
  match cs with
  | [] => None
  | c :: cs => match List.find (named sums) c with Some v => Some v | None => lookup_chunks sums cs end
  end.
Definition lookup_cache (sums : list Z) (c : ConfigCache) : option ConfigValue := lookup_chunks sums (chunks c).
(** The middle parts of the keys [family.x.cs].
    [src/src/libs/ConfigCache.cpp:97-106] ConfigCache::collect *)
Definition collect (family cs : Z) (c : ConfigCache) : list Z :=
  flat_map (fun chunk => flat_map (fun v => if (check_sums v !!! 2%nat =? cs) && (check_sums v !!! 0%nat =? family) then [check_sums v !!! 1%nat] else []) chunk) (chunks c).

(** ** The checksums agree *)
(** Sums below 255 stay so. *)
Definition small (p : Z * Z) : Prop := 0 <= fst p < 255 /\ 0 <= snd p < 255.
Lemma fletcher_small p c : small p -> 0 <= c < 256 -> fletcher_step p c = ((fst p + c) mod 255, (snd p + (fst p + c) mod 255) mod 255) /\ small (fletcher_step p c).
Proof.
  destruct p as [a b]. intros [Ha Hb] Hc. cbn [fst snd] in *. unfold fletcher_step.
  assert (H1 : 0 <= (a + c) mod 255 < 255) by (apply Z.mod_pos_bound; lia).
  assert (E1 : u16 (a + c) = a + c) by (apply wrap_small; unfold is_uint; lia). rewrite E1.
  assert (E2 : u16 (b + (a + c) mod 255) = b + (a + c) mod 255) by (apply wrap_small; unfold is_uint; lia). rewrite E2.
  split; [done|]. split; [done|]. cbn [snd]. apply Z.mod_pos_bound; lia.
Qed.
Lemma fletcher_snoc s c p : fold_left fletcher_step (s ++ [c]) p = fletcher_step (fold_left fletcher_step s p) c.
Proof. by rewrite fold_left_app. Qed.
Lemma fletcher_fold_small s p : is_bytes s -> small p -> small (fold_left fletcher_step s p).
Proof. revert p. induction s as [|c s IH]; intros p Hb Hp; [done|]. inversion Hb; subst. cbn [fold_left]. apply IH; [done|]. by apply fletcher_small. Qed.
Lemma checksum_pack a b : 0 <= a < 255 -> 0 <= b < 255 ->
  Z.lor (u16 (Z.shiftl b 8)) a = b * 256 + a /\ Z.lor a (Z.shiftl b 8) = b * 256 + a /\ u16 (Z.lor (Z.shiftl b 8) a) = b * 256 + a.
Proof.
  intros Ha Hb. assert (Hu : u16 (Z.shiftl b 8) = Z.shiftl b 8) by (apply wrap_small; unfold is_uint; rewrite Z.shiftl_mul_pow2 by lia; lia).
  assert (E : Z.lor (Z.shiftl b 8) a = b * 256 + a) by (apply lor_shiftl_8; unfold is_uint; lia).
  rewrite Hu, (Z.lor_comm a), E. split; [done|]. split; [done|]. apply wrap_small. unfold is_uint. lia.
Qed.
(** The running sums over the first [n] characters. *)
Lemma sums_fold X n : is_bytes X -> (n <= length X)%nat -> fold_left fletcher_step (take n X) (0, 0) = (SUM1 n X, SUM2 n X).
Proof.
  intros HX. induction n as [|n IH]; intros Hn; [done|]. destruct (lookup_lt_is_Some_2 X n) as [c Hc]; [lia|].
  rewrite (take_S_r _ _ _ Hc), fletcher_snoc, IH by lia. assert (Hb : 0 <= c < 256) by (eapply Forall_lookup_1 in HX; [|done]; exact HX).
  assert (Hs : small (SUM1 n X, SUM2 n X)) by (rewrite <- IH by lia; apply fletcher_fold_small; [by apply Forall_take|done]).
  destruct (fletcher_small _ c Hs Hb) as [-> _]. cbn [fst snd].
  assert (Ec : X !!! n = c) by (by apply list_lookup_total_correct). destruct n as [|n]; cbn [SUM1 SUM2]; rewrite Ec; [by rewrite !Z.add_0_l|done].
Qed.
Lemma sums_small X n : is_bytes X -> (n <= length X)%nat -> small (SUM1 n X, SUM2 n X).
Proof. intros HX Hn. rewrite <- sums_fold by done. apply fletcher_fold_small; [by apply Forall_take|done]. Qed.
Lemma SUM1_S n X : is_bytes X -> (n < length X)%nat -> SUM1 (S n) X = (SUM1 n X + X !!! n) mod 255 /\ SUM2 (S n) X = (SUM2 n X + SUM1 (S n) X) mod 255 /\ 0 <= X !!! n < 256.
Proof.
  intros HX Hn. destruct (lookup_lt_is_Some_2 X n Hn) as [c Hc]. assert (Ec : X !!! n = c) by (by apply list_lookup_total_correct).
  rewrite Ec. split; [|split; [|by eapply Forall_lookup_1 in HX; [|done]]]; destruct n; cbn [SUM1 SUM2]; rewrite ?Ec, ?Z.add_0_l; done.
Qed.
(** The recursion of the header's other way, from [i]: its second sum lags behind. *)
Lemma checksum_lags s m i b : is_bytes s -> (i + m = length s)%nat -> 0 <= b < 255 -> (b + SUM1 i s) mod 255 = SUM2 i s ->
  checksum (S m) (s ++ [0]) (length s) i (SUM1 i s) b = SUM2 (length s) s * 256 + SUM1 (length s) s.
Proof.
  intros Hs. revert i b. induction m as [|m IH]; intros i b Hi Hb Hlag.
  - rewrite Nat.add_0_r in Hi. subst i. destruct (sums_small s (length s) Hs) as [Ha Hc]; [done|]. cbn [fst snd] in *.
    cbn [checksum]. rewrite Nat.leb_refl. rewrite lookup_total_app_r, Nat.sub_diag by done. cbn [lookup_total list_lookup_total].
    rewrite Hlag, Z.add_0_r, (Z.mod_small (SUM1 (length s) s) 255) by lia.
    rewrite (wrap_small 16 (SUM1 (length s) s)), (wrap_small 16 (SUM2 (length s) s)) by (unfold is_uint; lia). by apply checksum_pack.
  - destruct (SUM1_S i s Hs) as (E1 & E2 & Hx); [lia|]. destruct (sums_small s i Hs) as [Ha Hc]; [lia|]. cbn [fst snd] in *.
    change (checksum (S (S m)) (s ++ [0]) (length s) i (SUM1 i s) b) with
      (if (i <=? length s)%nat then checksum (S m) (s ++ [0]) (length s) (S i) (u16 ((SUM1 i s + (s ++ [0]) !!! i) mod 255)) (u16 ((b + SUM1 i s) mod 255))
       else u16 (Z.lor (Z.shiftl b 8) (SUM1 i s))).
    rewrite (proj2 (Nat.leb_le _ _)) by lia. rewrite lookup_total_app_l by lia. rewrite <- E1.
    destruct (sums_small s (S i) Hs) as [Ha' Hc']; [lia|]. cbn [fst snd] in *. rewrite Hlag.
    rewrite (wrap_small 16 (SUM1 (S i) s)), (wrap_small 16 (SUM2 i s)) by (unfold is_uint; lia). apply IH; [lia|lia|by rewrite E2].
Qed.
(** A key in the code and the same key in a file have the same checksum: for
    every literal of up to thirty-two characters the preprocessor's macros compute
    what the run-time function does, and so does, for a literal of any length, the
    compile-time function the header keeps for newer compilers. *)
Theorem checksums_agree s : is_bytes s ->
  literal_checksum s = get_checksum s /\ ((length s <= 32)%nat -> CHECKSUM s = get_checksum s).
Proof.
  intros Hs. assert (Hg : get_checksum s = SUM2 (length s) s * 256 + SUM1 (length s) s).
  { unfold get_checksum. rewrite <- (firstn_all s) at 1. rewrite sums_fold by done. destruct (sums_small s (length s) Hs) as [Ha Hb]; [done|]. by apply checksum_pack. }
  split.
  - rewrite Hg. by apply (checksum_lags s (length s) 0 0).
  - intros Hl. rewrite Hg. unfold CHECKSUM. destruct (Nat.eqb_spec (length s) 0) as [->|Hn]; [done|].
    rewrite (proj2 (Nat.leb_le _ _) Hl). destruct (sums_small s (length s) Hs) as [Ha Hb]; [done|]. by apply checksum_pack.
Qed.

(** ** The cache is a map *)

Definition values (c : ConfigCache) : list ConfigValue := concat (chunks c).
Definition full (l : list ConfigValue) : Prop := length l = VALUES_PER_CHUNK.
(** Chunks are full but the last, which is not empty; no name twice; the count. *)
Fixpoint chunked (cs : list (list ConfigValue)) : Prop :=
  match cs with
  | [] => True
  | [l] => (1 <= length l <= VALUES_PER_CHUNK)%nat
  | l :: cs => full l /\ chunked cs
  end.
Record cache_ok (c : ConfigCache) : Prop := mk_cache_ok {
  co_chunked : chunked (chunks c);
  co_names : NoDup (map check_sums (values c));
  co_count : count c = u16 (Z.of_nat (length (values c)))
}.
(** What the cache stands for. *)
Definition contents (c : ConfigCache) : gmap (list Z) ConfigValue := list_to_map (map (fun v => (check_sums v, v)) (values c)).

Lemma chunked_cons l cs : chunked (l :: cs) -> cs <> [] -> full l /\ chunked cs.
Proof. by destruct cs. Qed.
Lemma chunked_snoc cs l : chunked cs -> Forall full cs -> (1 <= length l <= VALUES_PER_CHUNK)%nat -> chunked (cs ++ [l]).
Proof.
  induction cs as [|x cs IH]; [done|]. intros Hc Hf Hl. inversion Hf; subst. cbn [app chunked].
  destruct (cs ++ [l]) as [|y ys] eqn:E; [by destruct cs|]. split; [done|]. apply IH; [|done|done]. destruct cs; [done|]. by apply Hc.
Qed.
Lemma chunked_init cs l : chunked (cs ++ [l]) -> Forall full cs /\ (1 <= length l <= VALUES_PER_CHUNK)%nat.
Proof.
  induction cs as [|x cs IH]; [done|]. cbn [app]. intros Hc. apply chunked_cons in Hc as [Hx Hc]; [|by destruct cs].
  destruct (IH Hc). split; [by constructor|done].
Qed.
(** A chunked list is empty, or ends in a chunk. *)
Lemma last_chunk (cs : list (list ConfigValue)) : match list.last cs with Some l => cs = removelast cs ++ [l] | None => cs = [] end.
Proof.
  destruct cs as [|x cs] using rev_ind; [done|]. by rewrite last_snoc, removelast_last.
Qed.
Lemma full_chunked cs : Forall full cs -> chunked cs.
Proof.
  induction cs as [|x cs IH]; [done|]. inversion 1 as [|? ? Hx Hf]; subst. destruct cs as [|y cs]; [|by split; auto].
  unfold full, VALUES_PER_CHUNK in *. cbn [chunked]. unfold VALUES_PER_CHUNK. lia.
Qed.

Lemma lookup_chunks_values sums cs : lookup_chunks sums cs = List.find (named sums) (concat cs).
Proof.
  induction cs as [|c cs IH]; [done|]. cbn [lookup_chunks concat]. rewrite IH. clear IH. induction c as [|v c IH]; [done|]. cbn [List.find app].
  by destruct (named sums v).
Qed.
Lemma find_map sums l : List.find (named sums) l = (list_to_map (map (fun v => (check_sums v, v)) l) : gmap (list Z) ConfigValue) !! sums.
Proof.
  induction l as [|v l IH]; [symmetry; apply lookup_empty|]. cbn [List.find map list_to_map foldr fst snd]. unfold named at 1. case_bool_decide as E.
  - subst sums. by rewrite lookup_insert_eq.
  - rewrite lookup_insert_ne by done. exact IH.
Qed.
Lemma replace_in_names v l l' : replace_in v l = Some l' -> map check_sums l' = map check_sums l /\ length l' = length l.
Proof.
  revert l'. induction l as [|x l IH]; intros l'; cbn [replace_in]; [done|]. unfold named. case_bool_decide as E.
  - intros [= <-]. cbn [map]. by rewrite E.
  - destruct (replace_in v l) as [l2|]; [|done]. intros [= <-]. destruct (IH l2) as [H1 H2]; [done|]. cbn [map length]. by rewrite H1, H2.
Qed.
Lemma replace_chunk_values v cs : match replace_chunk v cs with Some cs' => replace_in v (concat cs) = Some (concat cs') | None => replace_in v (concat cs) = None end.
Proof.
  assert (Ha : forall l1 l2, replace_in v (l1 ++ l2) = match replace_in v l1 with Some l => Some (l ++ l2) | None => option_map (app l1) (replace_in v l2) end).
  { intros l1 l2. induction l1 as [|x l1 IH]; cbn [app replace_in]; [by destruct (replace_in v l2)|]. destruct (named _ x); [done|]. rewrite IH.
    destruct (replace_in v l1); [done|]. by destruct (replace_in v l2). }
  induction cs as [|c cs IH]; [done|]. cbn [replace_chunk concat]. rewrite Ha. destruct (replace_in v c) as [c'|]; [done|].
  destruct (replace_chunk v cs); rewrite IH; done.
Qed.
Lemma replace_chunk_shape v cs cs' : replace_chunk v cs = Some cs' -> chunked cs -> chunked cs'.
Proof.
  revert cs'. induction cs as [|c cs IH]; intros cs'; cbn [replace_chunk]; [done|]. destruct (replace_in v c) as [c'|] eqn:E.
  - intros [= <-]. apply replace_in_names in E as [_ El]. destruct cs; cbn [chunked]; unfold full; by rewrite El.
  - destruct (replace_chunk v cs) as [cs2|] eqn:E2; [|done]. intros [= <-] Hc. destruct cs as [|x cs]; [done|]. apply chunked_cons in Hc as [Hf Hc]; [|done].
    specialize (IH cs2 eq_refl Hc). destruct cs2 as [|y cs2]; [|done]. cbn [chunked]. unfold full, VALUES_PER_CHUNK in *. lia.
Qed.
Lemma named_iff s v : named s v = true <-> check_sums v = s.
Proof. apply bool_decide_eq_true. Qed.
Lemma named_other s s' v : named s v = true -> s <> s' -> named s' v = false.
Proof. rewrite named_iff. intros <- Hn. apply bool_decide_eq_false. congruence. Qed.
Lemma replace_in_map v l sums :
  match replace_in v l with
  | Some l' => List.find (named sums) l' = if bool_decide (sums = check_sums v) then Some v else List.find (named sums) l
  | None => List.find (named (check_sums v)) l = None
  end.
Proof.
  induction l as [|x l IH]; [done|]. cbn [replace_in]. destruct (named (check_sums v) x) eqn:E.
  - cbn [List.find]. destruct (decide (sums = check_sums v)) as [->|Hne].
    + rewrite bool_decide_true by done. by rewrite (proj2 (named_iff _ v)).
    + rewrite bool_decide_false by done. rewrite (named_other (check_sums v) sums v), (named_other (check_sums v) sums x); try done. by apply named_iff.
  - destruct (replace_in v l) as [l'|]; cbn [option_map List.find]; [|by rewrite E].
    destruct (named sums x) eqn:E2; [|exact IH]. rewrite bool_decide_false; [done|]. intros ->. congruence.
Qed.
Lemma replace_in_none v l : replace_in v l = None -> check_sums v ∉ map check_sums l.
Proof.
  induction l as [|x l IH]; cbn [replace_in map]; [by intros _ ?%not_elem_of_nil|]. unfold named. case_bool_decide as E; [done|].
  destruct (replace_in v l); [done|]. intros _. apply not_elem_of_cons. split; [congruence|by apply IH].
Qed.
Lemma push_back_values memory v c c' : chunked (chunks c) -> push_back memory v c = Some c' ->
  values c' = values c ++ [v] /\ chunked (chunks c') /\ count c' = u16 (count c + 1).
Proof.
  intros Hc. unfold push_back, values. pose proof (last_chunk (chunks c)) as Hl. destruct (list.last (chunks c)) as [l|]; cbv zeta.
  - destruct (chunked_init (removelast (chunks c)) l) as [Hf Hn]; [by rewrite <- Hl|]. destruct (Nat.eqb_spec (length l) VALUES_PER_CHUNK) as [E|E].
    + destruct memory; [|done]. intros [= <-]. cbn [chunks count]. rewrite concat_app. cbn [concat]. rewrite app_nil_r. split; [done|]. split; [|done].
      apply chunked_snoc; [done|by rewrite Hl; apply Forall_app; split; [done|by constructor]|cbn; unfold VALUES_PER_CHUNK; lia].
    + intros [= <-]. cbn [chunks count]. rewrite Hl at 2. rewrite !concat_app. cbn [concat]. rewrite !app_nil_r, app_assoc. split; [done|]. split; [|done].
      apply chunked_snoc; [by apply full_chunked|done|]. rewrite length_app. cbn [length]. lia.
  - rewrite Hl. destruct memory; [|done]. intros [= <-]. cbn. split; [done|]. split; [unfold VALUES_PER_CHUNK; lia|done].
Qed.
Lemma pop_values c v l : chunked (chunks c) -> values c = l ++ [v] -> values (pop c) = l /\ chunked (chunks (pop c)) /\ count (pop c) = u16 (count c - 1).
Proof.
  intros Hc Hv. unfold pop, values in *. pose proof (last_chunk (chunks c)) as Hl. destruct (list.last (chunks c)) as [k|].
  - destruct (chunked_init (removelast (chunks c)) k) as [Hf Hn]; [by rewrite <- Hl|]. cbn [chunks count].
    destruct k as [|x k _] using rev_ind; [cbn in Hn; lia|]. rewrite removelast_last. rewrite Hl, concat_app in Hv. cbn [concat] in Hv.
    rewrite app_nil_r, app_assoc in Hv. apply app_inj_tail in Hv as [Hv ->]. split; [|split; [|done]].
    + rewrite concat_app. destruct k; cbn [concat]; by rewrite ?app_nil_r in *.
    + destruct k as [|y k]; [rewrite app_nil_r; by apply full_chunked|]. apply chunked_snoc; [by apply full_chunked|done|]. rewrite length_app in Hn. cbn [length] in *. lia.
  - rewrite Hl in Hv. by destruct l.
Qed.
Lemma contents_lookup c sums : lookup_cache sums c = contents c !! sums.
Proof. unfold lookup_cache, contents. by rewrite lookup_chunks_values, find_map. Qed.
Lemma contents_replaced v l l' : replace_in v l = Some l' ->
  (list_to_map (map (fun v => (check_sums v, v)) l') : gmap (list Z) ConfigValue) = <[check_sums v := v]> (list_to_map (map (fun v => (check_sums v, v)) l)).
Proof.
  intros E. apply map_eq. intros sums. rewrite <- find_map. pose proof (replace_in_map v l sums) as Hm. rewrite E in Hm. rewrite Hm.
  case_bool_decide as Es; [subst; by rewrite lookup_insert_eq|]. rewrite lookup_insert_ne by congruence. by rewrite find_map.
Qed.
Lemma contents_pushed v l : check_sums v ∉ map check_sums l ->
  (list_to_map (map (fun v => (check_sums v, v)) (l ++ [v])) : gmap (list Z) ConfigValue) = <[check_sums v := v]> (list_to_map (map (fun v => (check_sums v, v)) l)).
Proof.
  induction l as [|x l IH]; intros Hn; [done|]. cbn [map app list_to_map foldr fst snd] in *. apply not_elem_of_cons in Hn as [Hx Hn].
  rewrite insert_insert_ne by congruence. f_equal. by apply IH.
Qed.
Lemma names_unique l : NoDup l -> forall x : list Z, x ∉ l -> NoDup (l ++ [x]).
Proof.
  intros Hl x Hx. induction Hl as [|y l Hy Hl IH]; cbn [app]; [repeat constructor; apply not_elem_of_nil|].
  apply not_elem_of_cons in Hx as [Hxy Hx]. constructor; [|by apply IH]. rewrite elem_of_app, list_elem_of_singleton. intros [?|?]; congruence.
Qed.
Lemma new_cache_ok : cache_ok new_cache.
Proof. split; [done|constructor|done]. Qed.
(** Storing a value, whatever comes of it. *)
Lemma stored_ok memory v c : cache_ok c -> let '(c', st, reports) := replace_or_push_back memory v c in
  cache_ok c' /\ (if st : bool then contents c' = <[check_sums v := v]> (contents c) /\ reports = []
                  else c' = c /\ memory = false /\ reports <> []) /\
  (contents c !! check_sums v = None -> st = true -> values c' = values c ++ [v]).
Proof.
  intros [Hc Hn Hk]. unfold replace_or_push_back. pose proof (replace_chunk_values v (chunks c)) as Hr.
  destruct (replace_chunk v (chunks c)) as [cs|] eqn:Ec.
  - destruct (replace_in_names _ _ _ Hr) as [En El]. split; [split; cbn [chunks count]|split].
    + by eapply replace_chunk_shape.
    + unfold values. cbn [chunks]. rewrite En. exact Hn.
    + unfold values in *. cbn [chunks]. by rewrite El.
    + split; [|done]. unfold contents, values. cbn [chunks]. by apply contents_replaced.
    + intros Hnone _. exfalso. rewrite <- contents_lookup in Hnone. unfold lookup_cache in Hnone. rewrite lookup_chunks_values in Hnone.
      assert (Hin : check_sums v ∈ map check_sums (concat cs)).
      { pose proof (replace_in_map v (concat (chunks c)) (check_sums v)) as Hm. rewrite Hr, bool_decide_true in Hm by done.
        apply find_some in Hm as [Hin _]. apply list_elem_of_In. by apply (in_map check_sums). }
      rewrite En in Hin. apply list_elem_of_In, in_map_iff in Hin as (x & Ex & Hin). pose proof (find_none _ _ Hnone _ Hin) as Hf.
      rewrite (proj2 (named_iff _ x)) in Hf; done.
  - apply replace_in_none in Hr. destruct (push_back memory v c) as [c'|] eqn:Ep.
    + destruct (push_back_values _ _ _ _ Hc Ep) as (Ev & Hc' & Hk'). split; [split|split]; [done| | | |done].
      * rewrite Ev, map_app. by apply names_unique.
      * rewrite Hk', Hk, Ev, length_app. unfold wrap. rewrite Zplus_mod_idemp_l. f_equal. cbn [length]. lia.
      * split; [|done]. unfold contents. rewrite Ev. by apply contents_pushed.
    + split; [by split|]. split; [|done]. split; [done|]. split; [|done]. unfold push_back in Ep. destruct memory; [|done]. exfalso. repeat case_match; discriminate.
Qed.
Lemma popped_ok c v l : cache_ok c -> values c = l ++ [v] -> cache_ok (pop c) /\ values (pop c) = l.
Proof.
  intros [Hc Hn Hk] Hv. destruct (pop_values c v l Hc Hv) as (Ev & Hc' & Hk'). split; [|done]. split; [done| |].
  - rewrite Ev. rewrite Hv, map_app in Hn. by apply list.NoDup_app in Hn as [? _].
  - rewrite Hk', Hk, Hv, Ev, length_app. unfold wrap. rewrite Zminus_mod_idemp_l. f_equal. cbn [length]. lia.
Qed.
(** C31: The cache of settings is a map from keys to values. Kept in chunks that are
    full but for the last, with no key twice and the count right, it gives for a key
    what the map holds; storing a value makes the map hold it under its key and
    leaves every other key as it was, unless memory runs out, which is reported and
    changes nothing; and taking back a value just stored under a new key restores
    what there was before. *)
Theorem cache_refines_map memory v c : cache_ok c ->
  (forall sums, lookup_cache sums c = contents c !! sums) /\
  let '(c', st, reports) := replace_or_push_back memory v c in
  cache_ok c' /\
  (if st : bool then contents c' = <[check_sums v := v]> (contents c) /\ reports = [] else c' = c /\ memory = false /\ reports <> []) /\
  (contents c !! check_sums v = None -> st = true -> cache_ok (pop c') /\ contents (pop c') = contents c).
Proof.
  intros Hc. split; [intros sums; apply contents_lookup|]. pose proof (stored_ok memory v c Hc) as Hs.
  destruct (replace_or_push_back memory v c) as [[c' st] reports]. destruct Hs as (Hc' & Hst & Hv). split; [done|]. split; [done|].
  intros Hnone Est. destruct (popped_ok c' v (values c) Hc' (Hv Hnone Est)) as [Hp Ep]. split; [done|]. unfold contents. by rewrite Ep.
Qed.

(** ** Examples *)
Definition demo_value (k v : string) : ConfigValue := mk_value (get_checksums (chars k)) (chars v).
Definition demo_cache : ConfigCache := fst (fst (replace_or_push_back true (demo_value "acceleration" "150") new_cache)).
Lemma cache_refines_map_witness :
  lookup_cache (get_checksums (chars "acceleration")) demo_cache = contents demo_cache !! get_checksums (chars "acceleration") /\
  contents (fst (fst (replace_or_push_back true (demo_value "acceleration" "200") demo_cache))) =
    <[get_checksums (chars "acceleration") := demo_value "acceleration" "200"]> (contents demo_cache).
Proof.
  assert (Hok : cache_ok demo_cache) by (split; [vm_compute; lia|vm_compute; repeat constructor; set_solver|vm_compute; reflexivity]).
  destruct (cache_refines_map true (demo_value "acceleration" "200") demo_cache Hok) as (Hl & Hs). split; [apply Hl|].
  change (replace_or_push_back true (demo_value "acceleration" "200") demo_cache) with
    (fst (fst (replace_or_push_back true (demo_value "acceleration" "200") demo_cache)), true, @nil Report) in Hs.
  destruct Hs as (_ & [Hc _] & _). exact Hc.
Defined.
Lemma checksums_agree_witness : CHECKSUM (chars "acceleration") = get_checksum (chars "acceleration").
Proof. apply (checksums_agree (chars "acceleration")); [concrete|cbn; lia]. Defined.
