(* ===== verification/ConfigFile.v ===== *)
(** * Settings from files ([src/src/libs/ConfigSource.cpp],
    [ConfigSources/FileConfigSource.cpp], [ConfigSources/FirmConfigSource.cpp],
    [Config.cpp], [Configurator.cpp])

    A file of settings is read line by line: loaded into the cache with the files
    it includes, or searched for one key, which is written in place or at the end,
    or removed. *)
From stdpp Require Import gmap.
From S2P Require Import Prelude CString Files.
From S2P Require Gcode TransferBusy.
From S2P Require Import ConfigCache.
#[local] Open Scope Z_scope.

(** ** A line *)

Definition blanks : list Z := [32; 9].
Definition char_at (s : list Z) (i : nat) : Z := hd 0 (drop i s).
(** The place of the first character not in [set], from [pos] on. *)
Definition find_not_from (set s : list Z) (pos : nat) : option nat :=
  option_map (fun i => pos + i)%nat (find_first_not_of set (drop pos s)).
(** [src/src/libs/ConfigSource.h:18-32] ConfigLine *)
Inductive ConfigLine := ignored | missing_pair | missing_value | parsed (key value : list Z).
(** [src/src/libs/ConfigSource.cpp:10-36] ConfigLine::ConfigLine *)
Definition config_line (line : list Z) : ConfigLine :=
  if (length line <? 3)%nat then ignored
  else match find_first_not_of blanks line with
  | None => ignored
  | Some begin_key =>
      if char_at line begin_key =? 35 then ignored
      else match find_first_of blanks line begin_key with
      | None => missing_pair
      | Some end_key =>
          match find_not_from blanks line end_key with
          | None => missing_value
          | Some begin_value =>
              if char_at line begin_value =? 35 then missing_value
              else
                let end_value := default (length line) (find_first_of [13; 10; 35; 32; 9] line (begin_value + 1)) in
                parsed (take (end_key - begin_key) (drop begin_key line)) (take (end_value - begin_value) (drop begin_value line))
          end
      end
  end.
(** The setting on a line, where there is one.
    [src/src/libs/ConfigSource.cpp:40-59] ConfigSource::process_line *)
Definition process_line (buffer : list Z) : option ConfigValue * list Report :=
  match config_line buffer with
  | ignored => (None, [])
  | missing_pair => (None, [load_error "ERROR: config file line %s is invalid, no key value pair found" [Gcode.a_text buffer]])
  | missing_value => (None, [load_error "ERROR: config file line %s has no value" [Gcode.a_text buffer]])
  | parsed key v => let '(cv, r) := set_value (mk_value (get_checksums key) []) v in (Some cv, r)
  end.
(** The value on a line of the given key, or nothing.
    [src/src/libs/ConfigSource.cpp:70-79] ConfigSource::process_line_from_ascii_config *)
Definition value_on_line (buffer : list Z) (line_checksums : list Z) : list Z * list Report :=
  let '(cv, r) := process_line buffer in
  (match cv with Some cv => if named line_checksums cv then c_string (value cv) else [] | None => [] end, r).

(** ** Lines of a file *)

(** To past the end of the line, or to the end of the file. *)
Definition discard_line (f : File) : File :=
  let '(l, e) := take_to_newline (S (length (content f))) (drop (fpos f) (content f)) in f <| fpos := (fpos f + length l)%nat |> <| eof := e |>.
(** A line of 130 characters at most, the rest of it passed over; told of when it
    counts ([lineno]) and what is kept holds no [#]. A line that begins with a null
    character is taken for one without an end: the code looks before the buffer.
    [src/src/libs/ConfigSources/FileConfigSource.cpp:30-53] FileConfigSource::readLine *)
Definition readLine (lineno : Z) (f : File) : File * option (list Z * list Report) :=
  match fgets 131 f with
  | (f, None) => (f, None)
  | (f, Some buf) =>
      let line := c_string buf in
      if negb (List.last line 0 =? 10) then
        (discard_line f, Some (line, if negb (lineno =? 0) && negb (elem line 35) then [load_error "Truncated long line %d in: %s" [Gcode.an_int lineno]] else []))
      else (f, Some (line, []))
  end.
(** The head of each loop over a file: its next line, unless the end was met. *)
Definition next_line (lineno : Z) (f : File) : option (list Z * list Report * File) :=
  if eof f then None else match readLine lineno f with (f, Some (line, r)) => Some (line, r, f) | (_, None) => None end.

(** ** Loading *)
Section Loading.
(** The files there are; and whether the cache in its state could get another
    chunk. *)
Context (files : list Z -> option (list Z)) (memory : ConfigCache -> bool).
Definition file_exists (name : list Z) : bool := bool_decide (files name <> None).
Definition include_checksum : Z := CHECKSUM (chars "include").
Definition Load : Type := ConfigCache * list Report.
(** Stores the setting of a line; what was stored, unless memory ran out.
    [src/src/libs/ConfigSource.cpp:61-68] ConfigSource::process_line_from_ascii_config *)
Definition line_to_cache (buffer : list Z) (s : Load) : Load * option ConfigValue :=
  let '(cv, r) := process_line buffer in
  match cv with
  | None => ((fst s, snd s ++ r), None)
  | Some cv => let '(c, stored, r2) := replace_or_push_back (memory (fst s)) cv (fst s) in
               ((c, snd s ++ r ++ r2), if stored : bool then Some cv else None)
  end.
Definition last_slash (s : list Z) : option nat := option_map (fun i => length s - S i)%nat (find_from (Z.eqb 47) (reverse s)).
(** Where an included file is looked for: as it is named, next to the file that
    includes it, on the card.
    [src/src/libs/ConfigSources/FileConfigSource.cpp:88-99] FileConfigSource::transfer_values_to_cache *)
Definition included_name (file_name name : list Z) : list Z :=
  if file_exists name then name
  else
    let name := if hd 0 name =? 47 then name else 47 :: name in
    let path := match last_slash file_name with Some i => take i file_name | None => file_name end in
    if file_exists (path ++ name) then path ++ name
    else if file_exists (chars "/sd" ++ name) then chars "/sd" ++ name
    else if file_exists (chars "/local" ++ name) then chars "/local" ++ name
    else name.
(** A line's setting stored; an inclusion instead taken back and followed
    ([include]).
    [src/src/libs/ConfigSources/FileConfigSource.cpp:79-118] FileConfigSource::transfer_values_to_cache *)
Definition load_line (include : list Z -> Load -> option Load) (file_name line : list Z) (s : Load) : option Load :=
  let '(s, cv) := line_to_cache line s in
  match cv with
  | None => Some s
  | Some cv =>
      if hd 0 (check_sums cv) =? include_checksum then
        let name := included_name file_name (c_string (value cv)) in
        let s := (pop (fst s), snd s) in
        if file_exists name then include name (fst s, snd s ++ [notice "Including config file: %s" [Gcode.a_text name]])
        else Some (fst s, snd s ++ [load_error "Unable to find included config file: %s" [Gcode.a_text name]])
      else Some s
  end.
(** The fuel is the lines left, and one.
    [src/src/libs/ConfigSources/FileConfigSource.cpp:73-123] FileConfigSource::transfer_values_to_cache *)
Fixpoint load_lines (include : list Z -> Load -> option Load) (n : nat) (file_name : list Z) (ln : Z) (f : File) (s : Load) : option Load :=
  match n with
  | O => None
  | S n =>
      match next_line ln f with
      | None => Some s
      | Some (line, r, f) => s ← load_line include file_name line (fst s, snd s ++ r); load_lines include n file_name (s32 (ln + 1)) f s
      end
  end.
(** A file, and those it includes, [depth] deep; [None] when that is not deep
    enough: the code has no bound.
    [src/src/libs/ConfigSources/FileConfigSource.cpp:64-125] FileConfigSource::transfer_values_to_cache *)
Fixpoint load_file (depth : nat) (file_name : list Z) (s : Load) : option Load :=
  match depth with
  | O => None
  | S depth =>
      match files file_name with
      | None => Some s
      | Some text => load_lines (load_file depth) (S (length text)) file_name 1 (mk_file text 0 false) s
      end
  end.
(** The settings built into the firmware. Lines have no bound there, and an
    inclusion is kept as any setting.
    [src/src/libs/ConfigSources/FirmConfigSource.cpp:69-84] FirmConfigSource::transfer_values_to_cache *)
Definition load_firm (text : list Z) (s : Load) : Load := fold_left (fun s line => fst (line_to_cache line s)) (lines_of text) s.

(** ** The configuration *)
Inductive Source := firm (name : Z) (text : list Z) | file (name : Z) (path : list Z).
(** [src/src/libs/ConfigSources/FileConfigSource.cpp:23-28] FileConfigSource::FileConfigSource *)
Definition file_source (path : list Z) (name : string) : Source := file (get_checksum (chars name)) path.
(** The sources, in the order they are loaded.
    [src/src/libs/Config.cpp:30-57] Config::Config *)
Definition sources (firm_text : list Z) : list Source :=
  let pick (dir name : string) :=
    if file_exists (chars (dir ++ "/config")) then [file_source (chars (dir ++ "/config")) name]
    else if file_exists (chars (dir ++ "/config.txt")) then [file_source (chars (dir ++ "/config.txt")) name] else [] in
  firm (get_checksum (chars "firm")) firm_text :: pick "/local"%string "local"%string ++ pick "/sd"%string "sd"%string.
Definition load_source (depth : nat) (src : Source) (s : Load) : option Load :=
  match src with firm _ text => Some (load_firm text s) | file _ path => load_file depth path s end.
Fixpoint load_sources (depth : nat) (srcs : list Source) (s : Load) : option Load :=
  match srcs with [] => Some s | src :: srcs => s ← load_source depth src s; load_sources depth srcs s end.
(** [src/src/libs/Config.cpp:80-93] Config::config_cache_load *)
Definition config_cache_load (depth : nat) (parse : bool) (srcs : list Source) : option Load :=
  if parse then load_sources depth srcs (new_cache, []) else Some (new_cache, []).
(** A setting; none while no cache is loaded, which is an error.
    [src/src/libs/Config.cpp:118-135] Config::value *)
Definition config_value (cache : option ConfigCache) (sums : list Z) : option ConfigValue * list Report :=
  match cache with
  | None => (None, [load_error "ERROR: config cache is not loaded" []])
  | Some c => (lookup_cache sums c, [])
  end.
(** [src/src/libs/Config.cpp:74-77] Config::get_module_list *)
Definition get_module_list (family : Z) (cache : ConfigCache) : list Z := collect family (CHECKSUM (chars "enable")) cache.
End Loading.

(** ** One setting in a file *)

(** The first line that gives the key a value: where it begins, the stream after
    it, and the value. Fuel: the lines, and one.
    [src/src/libs/ConfigSources/FileConfigSource.cpp:147-152] FileConfigSource::write *)
Fixpoint search_lines (n : nat) (sums : list Z) (f : File) (rs : list Report) : option (option (nat * File * list Z) * list Report) :=
  match n with
  | O => None
  | S n =>
      match next_line 0 f with
      | None => Some (None, rs)
      | Some (line, r, f') =>
          let '(v, r2) := value_on_line line sums in
          match v with
          | [] => search_lines n sums f' (rs ++ r ++ r2)
          | _ => Some (Some (fpos f, f', v), rs ++ r ++ r2)
          end
      end
  end.
Definition open_text (text : list Z) : File := mk_file text 0 false.
(** [None] only for fuel, and that is enough ([search_returns]).
    [src/src/libs/ConfigSources/FileConfigSource.cpp:245-266] FileConfigSource::read *)
Definition read_setting (sums text : list Z) : option (list Z * list Report) :=
  '(r, rs) ← search_lines (S (length text)) sums (open_text text) [];
  Some (match r with Some (_, _, v) => v | None => [] end, rs).
(** [src] written over the text from [pos] on. *)
Definition overwrite (pos : nat) (src text : list Z) : list Z := take pos text ++ src ++ drop (pos + length src) text.
(** What is put in place of a line, up to a comment the rest of it becomes; and
    what is put at the end of the file.
    [src/src/libs/ConfigSources/FileConfigSource.cpp:164-167] FileConfigSource::write *)
Definition setting_text (setting value : list Z) : list Z := setting ++ [32] ++ value ++ [32; 35].
(** [src/src/libs/ConfigSources/FileConfigSource.cpp:177-181] FileConfigSource::write *)
Definition added_text (setting value : list Z) : list Z :=
  [10] ++ setting ++ repeat 32 9 ++ value ++ repeat 32 9 ++ chars "# added" ++ [10].
(** Whether it was written, with the file's text.
    [src/src/libs/ConfigSources/FileConfigSource.cpp:134-185] FileConfigSource::write *)
Definition write_setting (setting value text : list Z) : option (bool * list Z * list Report) :=
  '(r, rs) ← search_lines (S (length text)) (get_checksums setting) (open_text text) [];
  Some match r with
       | Some (bol, f, _) =>
           let free_space := u32 (Z.of_nat (fpos f) - Z.of_nat bol - 4) in
           if free_space <? Z.of_nat (length setting + length value + 3) then (false, text, rs)
           else (true, overwrite bol (setting_text setting value) text, rs)
       | None => (true, text ++ added_text setting value, rs)
       end.
(** The lines that do not give the key a value, as they were read, and whether one
    did.
    [src/src/libs/ConfigSources/FileConfigSource.cpp:211-224] FileConfigSource::remove *)
Fixpoint kept_lines (n : nat) (sums : list Z) (ln : Z) (f : File) (found : bool) (out : list Z) (rs : list Report) : option (bool * list Z * list Report) :=
  match n with
  | O => None
  | S n =>
      match next_line ln f with
      | None => Some (found, out, rs)
      | Some (line, r, f) =>
          let '(v, r2) := value_on_line line sums in
          match v with
          | [] => kept_lines n sums (s32 (ln + 1)) f found (out ++ line) (rs ++ r ++ r2)
          | _ => kept_lines n sums (s32 (ln + 1)) f true out (rs ++ r ++ r2)
          end
      end
  end.
(** Whether it was removed, with the file's text: a new file is written and takes
    the old one's place. [written]: it could be made, the old one taken away, and
    the new one renamed.
    [src/src/libs/ConfigSources/FileConfigSource.cpp:188-242] FileConfigSource::remove *)
Definition remove_setting (can_make can_delete can_rename : bool) (setting text : list Z) : option (bool * option (list Z) * list Report) :=
  if can_make then
    '(found, out, rs) ← kept_lines (S (length text)) (get_checksums setting) 0 (open_text text) false [] [];
    Some (if negb found then (false, Some text, rs)
          else if negb can_delete then (false, Some text, rs)
          else if negb can_rename then (false, None, rs)
          else (true, Some out, rs))
  else Some (false, Some text, []).
(** The firmware's own settings are read alike, and never written.
    [src/src/libs/ConfigSources/FirmConfigSource.cpp:98-117] FirmConfigSource::read *)
Fixpoint read_firm (sums : list Z) (ls : list (list Z)) : list Z * list Report :=
  match ls with
  | [] => ([], [])
  | line :: ls => let '(v, r) := value_on_line line sums in
                  match v with [] => let '(v, r2) := read_firm sums ls in (v, r ++ r2) | _ => (v, r) end
  end.

(** ** The loops go through the lines *)

(** What is kept of a line, and what is told of it. *)
Definition kept (l : list Z) : list Z := take 130 l.
Definition long_report (ln : Z) (l : list Z) : list Report :=
  if negb (List.last (kept l) 0 =? 10) && negb (ln =? 0) && negb (elem (kept l) 35) then [load_error "Truncated long line %d in: %s" [Gcode.an_int ln]] else [].
Lemma plain_no_nul t : plain_text t -> c_string t = t.
Proof. induction 1 as [|c t [_ Hc] _ IH]; [done|]. cbn. apply Z.eqb_neq in Hc as ->. by rewrite IH. Qed.
Lemma ended_no_nul l : ended l -> c_string l = l.
Proof.
  intros (t & -> & Ht). induction Ht as [|c t [_ Hc] _ IH]; [done|]. cbn. apply Z.eqb_neq in Hc as ->. by rewrite IH.
Qed.
Lemma plain_last t : plain_text t -> (List.last t 0 =? 10) = false.
Proof.
  intros Ht. destruct t as [|x t _] using rev_ind; [done|]. rewrite last_last. apply Forall_app in Ht as [_ Ht].
  apply Forall_cons_iff in Ht as [[Hx _] _]. by apply Z.eqb_neq.
Qed.
Lemma plain_take n t : plain_text t -> plain_text (take n t).
Proof. apply Forall_take. Qed.
(** The stream at the line after those [before]. *)
Definition file_at (before ls : list (list Z)) (e : bool) : File := mk_file (concat before ++ concat ls) (length (concat before)) e.
Lemma file_at_rest before ls e : drop (fpos (file_at before ls e)) (content (file_at before ls e)) = concat ls.
Proof. cbn. by rewrite drop_app_length. Qed.
Lemma file_at_next before l ls e : file_at (before ++ [l]) ls e = mk_file (concat before ++ concat (l :: ls)) (length (concat before) + length l) e.
Proof. unfold file_at. rewrite !concat_app, length_app. cbn [concat]. by rewrite app_nil_r, <- app_assoc. Qed.
Lemma fgets_mk n s p e : fgets n (mk_file s p e) =
  let '(l, e') := take_to_newline (n - 1) (drop p s) in match l with [] => (mk_file s p e', None) | _ => (mk_file s (p + length l) e', Some l) end.
Proof. unfold fgets. cbn [content fpos]. by destruct (take_to_newline (n - 1) (drop p s)) as [[|c l] e']. Qed.
Lemma discard_mk s p e : discard_line (mk_file s p e) = let '(l, e') := take_to_newline (S (length s)) (drop p s) in mk_file s (p + length l) e'.
Proof. unfold discard_line. cbn [content fpos]. by destruct (take_to_newline (S (length s)) (drop p s)). Qed.
Lemma next_line_at before l ls ln : lines_ok (l :: ls) ->
  exists e, next_line ln (file_at before (l :: ls) false) = Some (kept l, long_report ln l, file_at (before ++ [l]) ls e) /\ (e = true -> ls = []).
Proof.
  intros Hok. cut (exists e, next_line ln (file_at before (l :: ls) false) =
    Some (kept l, long_report ln l, mk_file (concat before ++ concat (l :: ls)) (length (concat before) + length l) e) /\ (e = true -> ls = [])).
  { intros (e & E & He). exists e. by rewrite file_at_next. }
  set (s := concat before ++ concat (l :: ls)). set (p := length (concat before)).
  assert (Hs : drop p s = concat (l :: ls)) by apply drop_app_length. assert (Hlen : (length l <= length s)%nat) by (unfold s; cbn [concat]; rewrite !length_app; lia).
  unfold next_line, readLine, file_at. fold s p. cbn [eof]. rewrite fgets_mk, Hs. change (131 - 1)%nat with 130%nat. unfold long_report, kept.
  pose proof (lines_ok_head _ _ Hok) as [(t & El & Ht)|[[Ht Hne] ->]].
  - assert (Ec : concat (l :: ls) = t ++ 10 :: concat ls) by (cbn [concat]; by rewrite El, <- app_assoc).
    assert (Hll : length l = S (length t)) by (rewrite El, length_app; cbn; lia). rewrite Ec, take_line by done.
    destruct (Nat.ltb_spec (length t) 130) as [Hl|Hl].
    + rewrite <- El. rewrite (take_ge l) by lia. destruct l as [|c l']; [by destruct t|]. set (l := c :: l') in *.
      assert (Hlast : List.last l 0 = 10) by (rewrite El; apply last_last). rewrite ended_no_nul, Hlast by (by exists t). cbn [Z.eqb Pos.eqb negb andb].
      exists false. by split.
    + assert (Hp : plain_text (take 130 t)) by (by apply plain_take). pose proof (plain_last _ Hp) as Hlast.
      assert (Hlt : length (take 130 t) = 130%nat) by (rewrite length_take; lia). rewrite El, take_app_le by lia. rewrite <- El.
      destruct (take 130 t) as [|c q] eqn:E; [done|]. rewrite <- E in *. rewrite plain_no_nul, Hlast by done. cbn [negb andb].
      exists false. split; [|done]. do 2 f_equal. rewrite discard_mk, Hlt, <- drop_drop, Hs, Ec, drop_app_le by lia.
      rewrite take_line by (by apply Forall_drop). rewrite (proj2 (Nat.ltb_lt _ _)) by (rewrite length_drop; lia).
      f_equal. rewrite length_app, length_drop. cbn [length]. lia.
  - cbn [concat]. rewrite app_nil_r, take_open by done.
    assert (Hp : plain_text (take 130 l)) by (by apply plain_take). pose proof (plain_last _ Hp) as Hlast.
    assert (Hlt : length (take 130 l) = Nat.min 130 (length l)) by apply length_take.
    destruct (take 130 l) as [|c q] eqn:E; [by destruct l|]. rewrite <- E in *. rewrite plain_no_nul, Hlast by done. cbn [negb andb].
    exists true. split; [|done]. do 2 f_equal. rewrite discard_mk, <- drop_drop, Hs. cbn [concat]. rewrite app_nil_r, take_open by (by apply Forall_drop).
    rewrite (take_ge (drop _ l)) by (rewrite length_drop; lia). rewrite (proj2 (Nat.ltb_lt _ _)) by (rewrite length_drop; lia).
    f_equal. rewrite length_drop. lia.
Qed.
Lemma next_line_end before e ln : next_line ln (file_at before [] e) = None.
Proof. unfold next_line. destruct e; [done|]. unfold readLine, fgets. rewrite file_at_rest. done. Qed.

(** ** Searching *)

(** The value a line gives a key. *)
Definition value_of (sums l : list Z) : list Z := fst (value_on_line (kept l) sums).
Fixpoint first_value (sums : list Z) (ls : list (list Z)) : list Z :=
  match ls with [] => [] | l :: ls => match value_of sums l with [] => first_value sums ls | v => v end end.
Definition silent (sums : list Z) (l : list Z) : Prop := value_of sums l = [].
Lemma first_value_app sums l1 l2 : first_value sums (l1 ++ l2) = match first_value sums l1 with [] => first_value sums l2 | v => v end.
Proof. induction l1 as [|l l1 IH]; [done|]. cbn [app first_value]. by destruct (value_of sums l). Qed.
Lemma first_value_silent sums ls : Forall (silent sums) ls -> first_value sums ls = [].
Proof. induction 1 as [|l ls Hl _ IH]; [done|]. cbn. by rewrite Hl. Qed.
Lemma first_value_found sums pre l post : Forall (silent sums) pre -> value_of sums l <> [] -> first_value sums (pre ++ l :: post) = value_of sums l.
Proof. intros Hp Hl. rewrite first_value_app, first_value_silent by done. cbn. by destruct (value_of sums l). Qed.
Lemma lines_count ls : lines_ok ls -> (length ls <= length (concat ls))%nat.
Proof.
  induction ls as [|l ls IH]; [done|]. intros Hok. pose proof (line_nonempty _ _ Hok). apply lines_ok_tail in Hok. specialize (IH Hok).
  cbn [concat length]. rewrite length_app. destruct l; [done|]. cbn [length]. lia.
Qed.
Lemma search_lines_at sums n before ls e rs : lines_ok ls -> (e = true -> ls = []) -> (length ls < n)%nat ->
  exists rs', (Forall (silent sums) ls /\ search_lines n sums (file_at before ls e) rs = Some (None, rs')) \/
  (exists pre l post e', ls = pre ++ l :: post /\ Forall (silent sums) pre /\ value_of sums l <> [] /\
     search_lines n sums (file_at before ls e) rs = Some (Some (length (concat (before ++ pre)), file_at (before ++ pre ++ [l]) post e', value_of sums l), rs')).
Proof.
  revert before ls e rs. induction n as [|n IH]; intros before ls e rs Hok He Hn; [lia|]. destruct ls as [|l ls].
  { exists rs. left. split; [by apply Forall_nil_2|]. cbn [search_lines]. by rewrite next_line_end. }
  assert (He' : e = false) by (destruct e; [by specialize (He eq_refl)|done]). subst e.
  destruct (next_line_at before l ls 0 Hok) as (e & E & He'). cbn [search_lines]. rewrite E.
  destruct (value_on_line (kept l) sums) as [v r2] eqn:Ev. assert (Hv : value_of sums l = v) by (unfold value_of; by rewrite Ev).
  destruct v as [|x v].
  - destruct (IH (before ++ [l]) ls e (rs ++ long_report 0 l ++ r2)) as (rs' & [[Hs Es]|(pre & l' & post & e' & -> & Hp & Hl & Es)]);
      [by eapply lines_ok_tail|done|cbn in Hn; lia| |]; exists rs'.
    + left. split; [by apply Forall_cons_2|exact Es].
    + right. exists (l :: pre), l', post, e'. split; [done|]. split; [by apply Forall_cons_2|]. split; [done|]. rewrite Es, <- !app_assoc. done.
  - exists (rs ++ long_report 0 l ++ r2). right. exists [], l, ls, e. rewrite Hv. split; [done|]. split; [by apply Forall_nil_2|]. split; [done|]. by rewrite app_nil_r.
Qed.
Lemma open_text_at ls : open_text (concat ls) = file_at [] ls false.
Proof. done. Qed.
(** Reading one setting gives its first value. *)
Lemma read_lines sums ls : lines_ok ls -> exists rs, read_setting sums (concat ls) = Some (first_value sums ls, rs).
Proof.
  intros Hok. unfold read_setting. rewrite open_text_at.
  destruct (search_lines_at sums (S (length (concat ls))) [] ls false [] Hok) as (rs & [[Hs E]|(pre & l & post & e & -> & Hp & Hl & E)]);
    [done|pose proof (lines_count ls Hok); lia| |]; rewrite E; cbn [mbind option_bind]; exists rs.
  - by rewrite first_value_silent.
  - by rewrite first_value_found.
Qed.
(** Fuel is enough, whatever the text holds but null characters. *)
Lemma search_returns sums text : 0 ∉ text -> search_lines (S (length text)) sums (open_text text) [] <> None.
Proof.
  intros H0. destruct (lines_of_spec text H0) as [Ec Hok]. rewrite <- Ec, open_text_at.
  destruct (search_lines_at sums (S (length (concat (lines_of text)))) [] (lines_of text) false [] Hok) as (rs & [[_ E]|(pre & l & post & e & _ & _ & _ & E)]);
    [done|pose proof (lines_count _ Hok); lia| |]; by rewrite E.
Qed.

(** ** What a line says *)

Definition blank_text (s : list Z) : bool := forallb (elem blanks) s.
Definition no_blank (s : list Z) : bool := forallb (fun c => negb (elem blanks c)) s.
(** A key as a file may hold it, and a value. *)
Definition key_ok (key : list Z) : bool := no_blank key && negb (bool_decide (key = [])) && negb (hd 0 key =? 35).
Definition value_ok (v : list Z) : bool := forallb (fun c => negb (elem [13; 10; 35; 32; 9] c)) v && negb (bool_decide (v = [])).
Definition ends_value (s : list Z) : bool := match s with [] => true | c :: _ => elem [13; 10; 35; 32; 9] c end.
Lemma find_not_all set p s : forallb (elem set) p = true -> find_from (fun c => negb (elem set c)) (p ++ s) = option_map (fun i => length p + i)%nat (find_from (fun c => negb (elem set c)) s).
Proof.
  induction p as [|c p IH]; cbn [forallb app find_from]; [by destruct (find_from _ s)|]. intros [-> Hp]%andb_true_iff. cbn [negb]. rewrite IH by done.
  by destruct (find_from _ s).
Qed.
Lemma find_all_not set p s : forallb (fun c => negb (elem set c)) p = true -> find_from (elem set) (p ++ s) = option_map (fun i => length p + i)%nat (find_from (elem set) s).
Proof.
  induction p as [|c p IH]; cbn [forallb app find_from]; [by destruct (find_from _ s)|]. intros [Hc Hp]%andb_true_iff. apply negb_true_iff in Hc as ->.
  rewrite IH by done. by destruct (find_from _ s).
Qed.
Lemma char_at_app p s : char_at (p ++ s) (length p) = hd 0 s.
Proof. unfold char_at. by rewrite drop_app_length. Qed.
(** A key, blanks, a value, and what ends the value. *)
Lemma config_line_reads b1 key b2 v tail_ : blank_text b1 = true -> key_ok key = true -> blank_text b2 = true -> b2 <> [] -> value_ok v = true -> ends_value tail_ = true ->
  config_line (b1 ++ key ++ b2 ++ v ++ tail_) = parsed key v.
Proof.
  intros Hb1 [[Hk Hk0]%andb_true_iff Hkc]%andb_true_iff Hb2 Hb2n [Hv Hv0]%andb_true_iff Ht.
  apply negb_true_iff, bool_decide_eq_false in Hk0. apply negb_true_iff, bool_decide_eq_false in Hv0. apply negb_true_iff in Hkc.
  destruct key as [|k0 key]; [done|]. destruct b2 as [|x b2]; [done|]. destruct v as [|v0 v]; [done|]. cbn [hd] in Hkc.
  pose proof Hk as Hk'. cbn [no_blank forallb] in Hk'. apply andb_true_iff in Hk' as [Hk0' _].
  pose proof Hv as Hv'. cbn [forallb] in Hv'. apply andb_true_iff in Hv' as [Hv0' Hvr].
  pose proof Hb2 as Hb2'. cbn [blank_text forallb] in Hb2'. apply andb_true_iff in Hb2' as [Hx _].
  set (rest := (v0 :: v) ++ tail_). set (B2 := x :: b2) in *. set (K := k0 :: key) in *.
  assert (E1 : find_first_not_of blanks (b1 ++ K ++ B2 ++ rest) = Some (length b1)).
  { unfold find_first_not_of. rewrite find_not_all by done. unfold K. cbn [app find_from]. rewrite Hk0'. cbn. by rewrite Nat.add_0_r. }
  assert (E2 : find_first_of blanks (b1 ++ K ++ B2 ++ rest) (length b1) = Some (length b1 + length K)%nat).
  { unfold find_first_of. rewrite drop_app_length. rewrite find_all_not by done. unfold B2. cbn [app find_from]. rewrite Hx. cbn [option_map]. by rewrite Nat.add_0_r. }
  assert (Hnv : negb (elem blanks v0) = true).
  { apply negb_true_iff. apply negb_true_iff in Hv0'. unfold blanks, elem in *. cbn [existsb] in *. lia. }
  assert (E3 : find_not_from blanks (b1 ++ K ++ B2 ++ rest) (length b1 + length K) = Some (length b1 + length K + length B2)%nat).
  { unfold find_not_from, find_first_not_of. rewrite app_assoc, <- length_app, drop_app_length, find_not_all by done. unfold rest. cbn [app find_from].
    rewrite Hnv. cbn [option_map]. by rewrite Nat.add_0_r. }
  assert (Hd : drop (length b1 + length K + length B2) (b1 ++ K ++ B2 ++ rest) = rest).
  { rewrite !app_assoc, <- !length_app. by rewrite drop_app_length. }
  assert (E4 : default (length (b1 ++ K ++ B2 ++ rest)) (find_first_of [13; 10; 35; 32; 9] (b1 ++ K ++ B2 ++ rest) (length b1 + length K + length B2 + 1)) =
    (length b1 + length K + length B2 + length (v0 :: v))%nat).
  { unfold find_first_of. rewrite <- drop_drop, Hd. unfold rest at 2. change (drop 1 ((v0 :: v) ++ tail_)) with (v ++ tail_). rewrite find_all_not by done. destruct tail_ as [|t0 tail_]; cbn [find_from ends_value] in *.
    - cbn [option_map default]. rewrite !length_app. unfold rest. rewrite app_nil_r. cbn. lia.
    - rewrite Ht. cbn [option_map]. unfold default, id. cbn [length]. lia. }
  unfold config_line. change (K ++ B2 ++ (v0 :: v) ++ tail_) with (K ++ B2 ++ rest).
  replace (length (b1 ++ K ++ B2 ++ rest) <? 3)%nat with false.
  2:{ symmetry. apply Nat.ltb_ge. rewrite !length_app. unfold K, B2, rest. cbn [length app]. lia. }
  rewrite E1, char_at_app. cbn [app hd]. unfold K at 1. cbn [app hd]. rewrite Hkc, E2, E3. unfold char_at. rewrite Hd. unfold rest at 1. cbn [app hd].
  replace (v0 =? 35) with false by (apply negb_true_iff in Hv0'; unfold elem in Hv0'; cbn [existsb] in Hv0'; lia).
  rewrite E4. f_equal.
  - rewrite drop_app_length. replace (length b1 + length K - length b1)%nat with (length K) by lia. by rewrite take_app_length.
  - replace (_ + _ - _)%nat with (length (v0 :: v)) by lia. unfold rest. by rewrite take_app_length.
Qed.

(** ** Writing a setting, and reading it *)

Definition plain_chars (s : list Z) : bool := forallb (fun c => negb (c =? 10) && negb (c =? 0)) s.
(** What a command may set: a key without blanks that does not begin a comment, a
    value that is one word and fits, and a line that fits. *)
Definition setting_ok (setting v : list Z) : bool :=
  key_ok setting && plain_chars setting && value_ok v && plain_chars v && (length v <? CONFIGVALUE_MAX_LEN)%nat && (length setting + length v <=? 100)%nat.
Definition read_value (sums text : list Z) : option (list Z) := option_map fst (read_setting sums text).
Lemma plain_chars_text s : plain_chars s = true -> plain_text s.
Proof. unfold plain_chars. rewrite forallb_forall. intros Hs. apply List.Forall_forall. intros c Hc. specialize (Hs c Hc). lia. Qed.
Lemma value_on_setting sums setting b v tail_ : setting_ok setting v = true -> blank_text b = true -> b <> [] -> (length b <= 9)%nat -> ends_value tail_ = true ->
  value_of sums (setting ++ b ++ v ++ tail_) = if bool_decide (get_checksums setting = sums) then v else [].
Proof.
  unfold setting_ok. intros Hok Hb Hbn Hbl Ht. repeat match type of Hok with _ && _ = true => apply andb_true_iff in Hok as [Hok ?] end.
  match goal with Hl : (_ <=? 100)%nat = true, Hm : (_ <? _)%nat = true |- _ => apply Nat.leb_le in Hl; apply Nat.ltb_lt in Hm; unfold CONFIGVALUE_MAX_LEN in Hm end.
  assert (Hk : kept (setting ++ b ++ v ++ tail_) = setting ++ b ++ v ++ take (130 - length (setting ++ b ++ v)) tail_).
  { unfold kept. replace (setting ++ b ++ v ++ tail_) with ((setting ++ b ++ v) ++ tail_) by (by rewrite <- !app_assoc).
    rewrite take_app_ge by (rewrite !length_app; lia). by rewrite <- !app_assoc. }
  assert (Ht' : ends_value (take (130 - length (setting ++ b ++ v)) tail_) = true).
  { replace (130 - length (setting ++ b ++ v))%nat with (S (129 - length (setting ++ b ++ v))) by (rewrite !length_app; lia). by destruct tail_. }
  unfold value_of, value_on_line, process_line. rewrite Hk.
  pose proof (config_line_reads [] setting b v _ eq_refl Hok Hb Hbn ltac:(done) Ht') as Hc. cbn [app] in Hc. rewrite Hc. unfold set_value, CONFIGVALUE_MAX_LEN in *.
  rewrite (proj2 (Nat.leb_gt _ _)) by lia. cbn [check_sums fst value]. unfold named. cbn [check_sums]. case_bool_decide; [|done].
  cbn [value]. by apply plain_no_nul, plain_chars_text.
Qed.
Lemma value_of_one_key s s' l : value_of s l <> [] -> s <> s' -> value_of s' l = [].
Proof.
  unfold value_of, value_on_line. destruct (process_line (kept l)) as [[cv|] r]; [|done]. cbn [fst]. unfold named. case_bool_decide as E; [|done].
  intros _ Hne. by rewrite bool_decide_false by congruence.
Qed.
Lemma ended_lines_ok ls : Forall ended ls -> lines_ok ls.
Proof. induction 1 as [|l ls Hl Hls IH]; [done|]. cbn [lines_ok]. destruct ls; [by left|by split]. Qed.
Lemma lines_end ls : lines_ok ls -> concat ls = [] \/ List.last (concat ls) 0 = 10 -> Forall ended ls.
Proof.
  induction ls as [|l ls IH]; intros Hok Hlast; [by apply Forall_nil_2|]. pose proof (lines_ok_head _ _ Hok) as Hh. pose proof (line_nonempty _ _ Hok) as Hne.
  assert (Hl : ended l).
  { destruct Hh as [|[[Hp _] ->]]; [done|]. exfalso. cbn [concat] in Hlast. rewrite app_nil_r in Hlast. pose proof (plain_last l Hp) as E.
    destruct Hlast as [?|Hlast]; [done|]. by rewrite Hlast in E. }
  apply Forall_cons_2; [done|]. apply IH; [by eapply lines_ok_tail|]. destruct ls as [|l2 ls]; [by left|]. right.
  destruct Hlast as [Hlast|Hlast]; [cbn [concat] in Hlast; by apply app_eq_nil in Hlast as [-> _]|]. apply lines_ok_tail, line_nonempty in Hok.
  assert (Hc : concat (l2 :: ls) <> []) by (cbn [concat]; intros Hc; by apply app_eq_nil in Hc as [-> _]).
  change (concat (l :: l2 :: ls)) with (l ++ concat (l2 :: ls)) in Hlast. set (m := concat (l2 :: ls)) in *. clearbody m.
  rewrite (app_removelast_last 0 Hc), app_assoc, last_last in Hlast. done.
Qed.
Lemma read_ended sums ls : Forall ended ls -> read_value sums (concat ls) = Some (first_value sums ls).
Proof. intros Hls. unfold read_value. destruct (read_lines sums ls (ended_lines_ok ls Hls)) as [rs ->]. done. Qed.
(** A line written over in place. *)
Lemma overwritten_line setting v l : setting_ok setting v = true -> ended l -> (length (setting_text setting v) < length l)%nat ->
  ended (setting_text setting v ++ drop (length (setting_text setting v)) l).
Proof.
  unfold setting_ok. intros Hok (t & -> & Ht) Hl. repeat match type of Hok with _ && _ = true => apply andb_true_iff in Hok as [Hok ?] end.
  rewrite length_app in Hl. cbn [length] in Hl. exists (setting_text setting v ++ drop (length (setting_text setting v)) t).
  rewrite drop_app_le by lia. split; [by rewrite app_assoc|]. apply Forall_app. split; [|by apply Forall_drop]. apply plain_chars_text.
  unfold setting_text, plain_chars in *. rewrite !forallb_app. by repeat (apply andb_true_iff; split).
Qed.
Lemma overwrite_line pre l post src : (length src <= length l)%nat ->
  overwrite (length (concat pre)) src (concat (pre ++ l :: post)) = concat (pre ++ (src ++ drop (length src) l) :: post).
Proof.
  intros Hl. unfold overwrite. rewrite !concat_app. cbn [concat]. rewrite take_app_length, <- drop_drop, drop_app_length, drop_app_le by lia. by rewrite <- app_assoc.
Qed.
Lemma added_lines setting v : setting_ok setting v = true ->
  exists l, added_text setting v = concat [[10]; l] /\ ended [10] /\ ended l /\
    forall sums, value_of sums l = if bool_decide (get_checksums setting = sums) then v else [].
Proof.
  intros Hok. exists (setting ++ repeat 32 9 ++ v ++ repeat 32 9 ++ chars "# added" ++ [10]). split; [by cbn [concat]; rewrite app_nil_r|]. split; [by exists []; split; [|apply Forall_nil_2]|].
  split; [|intros sums; by apply value_on_setting].
  exists (setting ++ repeat 32 9 ++ v ++ repeat 32 9 ++ chars "# added"). rewrite <- !app_assoc. split; [done|].
  unfold setting_ok in Hok. repeat match type of Hok with _ && _ = true => apply andb_true_iff in Hok as [Hok ?] end.
  apply plain_chars_text. unfold plain_chars in *. rewrite !forallb_app. by repeat (apply andb_true_iff; split).
Qed.
(** A setting that is written is read back, and no other is touched. In a file
    whose last line is ended and in which no line that gives the key a value is
    shorter than four characters, writing a value of one word that fits under a key
    of up to eighty characters or so always ends. It refuses, and leaves the file
    as it is, only where the key has a line that is too short; otherwise the key now
    reads as the value, and every other key as what it did, whether the line was
    written over in place or added at the end. *)
Lemma written_reads setting v text : let sums := get_checksums setting in
  setting_ok setting v = true -> 0 ∉ text -> text = [] \/ List.last text 0 = 10 ->
  Forall (fun l => value_of sums l <> [] -> (4 <= length l)%nat) (lines_of text) ->
  exists written text' rs, write_setting setting v text = Some (written, text', rs) /\
    if written : bool then read_value sums text' = Some v /\ forall other, other <> sums -> read_value other text' = read_value other text
    else text' = text /\ read_value sums text <> Some [].
Proof.
  intros sums Hok H0 Hend Hshort. destruct (lines_of_spec text H0) as [Ec Hlines]. rewrite <- Ec in Hend.
  pose proof (lines_end _ Hlines Hend) as Hls. rewrite <- Ec. set (ls := lines_of text) in *. clearbody ls. clear Ec H0 text Hend.
  unfold write_setting. rewrite open_text_at. fold sums.
  destruct (search_lines_at sums (S (length (concat ls))) [] ls false [] Hlines) as (rs & [[Hs E]|(pre & l & post & e & -> & Hp & Hl & E)]);
    [done|pose proof (lines_count _ Hlines); lia| |]; rewrite E; cbn [mbind option_bind]; cbv zeta; clear E.
  - destruct (added_lines setting v Hok) as (l & Ea & H10 & Hle & Hv). eexists true, _, rs. split; [reflexivity|].
    rewrite Ea, <- concat_app. assert (Hnew : Forall ended (ls ++ [[10]; l])) by (apply Forall_app; split; [done|by repeat constructor]).
    rewrite !read_ended by done. split.
    + rewrite first_value_app, (first_value_silent sums ls Hs). change (first_value sums [[10]; l]) with (first_value sums [l]).
      cbn [first_value]. rewrite Hv, bool_decide_true by done. by destruct v.
    + intros other Hne. rewrite !read_ended by done. rewrite first_value_app. change (first_value other [[10]; l]) with (first_value other [l]).
      cbn [first_value]. rewrite Hv, bool_decide_false by (intros E; by apply Hne). by destruct (first_value other ls).
  - pose proof Hls as Hall. apply Forall_app in Hall as [_ Hall]. apply Forall_cons_iff in Hall as [Hle _].
    apply Forall_app in Hshort as [_ Hshort]. apply Forall_cons_iff in Hshort as [Hshort _]. specialize (Hshort Hl).
    assert (Epos : (Z.of_nat (fpos (file_at ([] ++ pre ++ [l]) post e)) - Z.of_nat (length (concat ([] ++ pre))) - 4 = Z.of_nat (length l) - 4)).
    { cbn [app file_at fpos]. rewrite concat_app, length_app. cbn [concat]. rewrite app_nil_r. lia. }
    rewrite Epos. destruct (Z.ltb_spec (u32 (Z.of_nat (length l) - 4)) (Z.of_nat (length setting + length v + 3))) as [Hf|Hf].
    + eexists false, _, rs. split; [reflexivity|]. split; [done|]. rewrite read_ended, first_value_found by done. congruence.
    + assert (Hfree : u32 (Z.of_nat (length l) - 4) <= Z.of_nat (length l) - 4) by (apply Z.mod_le; lia).
      assert (Hlen : length (setting_text setting v) = (length setting + length v + 3)%nat) by (unfold setting_text; rewrite !length_app; cbn; lia).
      eexists true, _, rs. split; [reflexivity|]. cbn [app]. rewrite overwrite_line by lia.
      assert (Hne : ended (setting_text setting v ++ drop (length (setting_text setting v)) l)) by (apply overwritten_line; [done|done|lia]).
      assert (Hnew : Forall ended (pre ++ (setting_text setting v ++ drop (length (setting_text setting v)) l) :: post)).
      { apply Forall_app in Hls as [? Hls]. apply Forall_cons_iff in Hls as [_ ?]. apply Forall_app. split; [done|by apply Forall_cons_2]. }
      assert (Hv : forall s, value_of s (setting_text setting v ++ drop (length (setting_text setting v)) l) = if bool_decide (sums = s) then v else []).
      { intros s. unfold setting_text. rewrite <- !app_assoc. by apply value_on_setting; [| | |cbn; lia|]. }
      assert (Hvn : v <> []) by (intros ->; unfold setting_ok, value_ok in Hok; cbn in Hok; rewrite !andb_false_r in Hok; done).
      rewrite !read_ended by done. split.
      * rewrite first_value_found; [by rewrite Hv, bool_decide_true|done|by rewrite Hv, bool_decide_true].
      * intros other Hne'. rewrite !read_ended by done. rewrite !first_value_app. cbn [first_value]. rewrite Hv, bool_decide_false by (intros E; by apply Hne').
        by rewrite (value_of_one_key sums other l) by done.
Qed.

(** ** Removing a setting *)

Definition is_silent (sums l : list Z) : bool := bool_decide (value_of sums l = []).
Definition other_lines (sums : list Z) (ls : list (list Z)) : list (list Z) := List.filter (is_silent sums) ls.
Lemma kept_lines_at sums n before ls e ln found out rs : lines_ok ls -> (e = true -> ls = []) -> (length ls < n)%nat ->
  exists rs', kept_lines n sums ln (file_at before ls e) found out rs =
    Some (found || negb (forallb (is_silent sums) ls), out ++ concat (map kept (other_lines sums ls)), rs').
Proof.
  revert before ls e ln found out rs. induction n as [|n IH]; intros before ls e ln found out rs Hok He Hn; [lia|]. destruct ls as [|l ls].
  { exists rs. cbn [kept_lines]. rewrite next_line_end. cbn. by rewrite orb_false_r, app_nil_r. }
  assert (He' : e = false) by (destruct e; [by specialize (He eq_refl)|done]). subst e.
  destruct (next_line_at before l ls ln Hok) as (e & E & He'). cbn [kept_lines]. rewrite E.
  destruct (value_on_line (kept l) sums) as [v r2] eqn:Ev. assert (Hv : value_of sums l = v) by (unfold value_of; by rewrite Ev).
  assert (Hok' : lines_ok ls) by (by eapply lines_ok_tail). cbn [length] in Hn. unfold other_lines. cbn [forallb List.filter]. unfold is_silent at 1 3. rewrite Hv.
  destruct v as [|x v].
  - rewrite bool_decide_true by done. destruct (IH (before ++ [l]) ls e (s32 (ln + 1)) found (out ++ kept l) (rs ++ long_report ln l ++ r2)) as (rs' & E2); [done|done|lia|].
    exists rs'. rewrite E2. cbn [andb map concat]. by rewrite app_assoc.
  - rewrite bool_decide_false by done. destruct (IH (before ++ [l]) ls e (s32 (ln + 1)) true out (rs ++ long_report ln l ++ r2)) as (rs' & E2); [done|done|lia|].
    exists rs'. rewrite E2. cbn [andb negb]. by rewrite orb_true_r.
Qed.
Lemma others_ok sums ls : lines_ok ls -> lines_ok (other_lines sums ls).
Proof.
  induction ls as [|l ls IH]; [done|]. intros Hok. specialize (IH (lines_ok_tail _ _ Hok)). unfold other_lines in *. cbn [List.filter]. destruct (is_silent sums l); [|done].
  apply lines_ok_head in Hok as [He|[Ho ->]]; [|by right]. cbn [lines_ok]. destruct (List.filter (is_silent sums) ls); [by left|done].
Qed.
Lemma others_value sums s ls : first_value s (other_lines sums ls) = if bool_decide (s = sums) then [] else first_value s ls.
Proof.
  induction ls as [|l ls IH]; [by case_bool_decide|]. unfold other_lines in *. cbn [List.filter first_value]. unfold is_silent at 1.
  destruct (decide (value_of sums l = [])) as [E|E]; [rewrite (bool_decide_true (value_of sums l = [])) by done|rewrite (bool_decide_false (value_of sums l = [])) by done].
  - cbn [first_value]. rewrite IH. case_bool_decide as Es; [by subst s; rewrite E|done].
  - rewrite IH. case_bool_decide as Es; [done|]. by rewrite (value_of_one_key sums s l) by congruence.
Qed.
Lemma any_value sums ls : forallb (is_silent sums) ls = bool_decide (first_value sums ls = []).
Proof.
  induction ls as [|l ls IH]; [done|]. cbn [forallb first_value]. unfold is_silent at 1. rewrite IH. by destruct (value_of sums l).
Qed.
Lemma read_ok sums ls : lines_ok ls -> read_value sums (concat ls) = Some (first_value sums ls).
Proof. intros Hls. unfold read_value. by destruct (read_lines sums ls Hls) as [rs ->]. Qed.
(** C30: Removing a setting removes it and nothing else. From a file whose lines are
    no longer than what is read of them, when the new file can be made and put in
    the old one's place, a key that reads as a value is removed, and only such a
    key: then it reads as nothing, however many lines gave it a value, and every
    other key reads as before. A key that reads as nothing leaves the file as it
    is. *)
Theorem remove_deletes setting text : let sums := get_checksums setting in
  0 ∉ text -> Forall (fun l => (length l <= 130)%nat) (lines_of text) ->
  exists removed text' rs, remove_setting true true true setting text = Some (removed, Some text', rs) /\
    removed = negb (bool_decide (read_value sums text = Some [])) /\
    if removed then read_value sums text' = Some [] /\ forall other, other <> sums -> read_value other text' = read_value other text else text' = text.
Proof.
  intros sums H0 Hlen. destruct (lines_of_spec text H0) as [Ec Hok]. rewrite <- Ec. set (ls := lines_of text) in *. clearbody ls. clear Ec H0 text.
  unfold remove_setting. rewrite open_text_at. fold sums.
  destruct (kept_lines_at sums (S (length (concat ls))) [] ls false 0 false [] [] Hok) as (rs & E); [done|pose proof (lines_count _ Hok); lia|].
  rewrite E. cbn [mbind option_bind orb app negb].
  assert (Hk : map kept (other_lines sums ls) = other_lines sums ls).
  { clear E Hok. unfold other_lines. induction ls as [|l ls IH]; [done|]. apply Forall_cons_iff in Hlen as [Hl Hlen]. cbn [List.filter]. destruct (is_silent sums l); cbn [map]; [|by apply IH].
    f_equal; [|by apply IH]. unfold kept. by apply take_ge. }
  rewrite Hk, any_value. rewrite (read_ok sums ls Hok).
  assert (Hd : bool_decide (Some (first_value sums ls) = Some []) = bool_decide (first_value sums ls = [])) by (apply bool_decide_ext; split; congruence).
  rewrite Hd. destruct (bool_decide (first_value sums ls = [])); cbn [negb].
  - eexists false, _, rs. split; [reflexivity|]. by split.
  - pose proof (others_ok sums ls Hok) as Hok'. eexists true, _, rs. split; [done|]. split; [done|]. rewrite !read_ok by done. rewrite others_value, bool_decide_true by done.
    split; [done|]. intros other Hne. rewrite !read_ok by done. by rewrite others_value, bool_decide_false by done.
Qed.

(** ** What is loaded *)
Section Loaded.
Context (files : list Z -> option (list Z)).
Definition is_include (cv : ConfigValue) : bool := hd 0 (check_sums cv) =? include_checksum.
(** The settings of a file, those of the files it includes in their place. *)
Fixpoint lines_settings (included : list Z -> option (list ConfigValue)) (name : list Z) (ls : list (list Z)) : option (list ConfigValue) :=
  match ls with
  | [] => Some []
  | l :: ls =>
      match fst (process_line (kept l)) with
      | None => lines_settings included name ls
      | Some cv =>
          if is_include cv then
            let inner := included_name files name (c_string (value cv)) in
            a ← (if file_exists files inner then included inner else Some []);
            b ← lines_settings included name ls; Some (a ++ b)
          else b ← lines_settings included name ls; Some (cv :: b)
      end
  end.
Fixpoint file_settings (depth : nat) (name : list Z) : option (list ConfigValue) :=
  match depth with
  | O => None
  | S depth => match files name with None => Some [] | Some text => lines_settings (file_settings depth) name (lines_of text) end
  end.
Definition firm_settings (text : list Z) : list ConfigValue := omap (fun l => fst (process_line l)) (lines_of text).
Fixpoint settings (depth : nat) (srcs : list Source) : option (list ConfigValue) :=
  match srcs with
  | [] => Some []
  | src :: srcs =>
      a ← (match src with firm _ text => Some (firm_settings text) | file _ path => file_settings depth path end);
      b ← settings depth srcs; Some (a ++ b)
  end.
(** The last of a list that gives a key its value. *)
Definition last_of (sums : list Z) (vs : list ConfigValue) : option ConfigValue := List.find (named sums) (rev vs).

Definition store (m : gmap (list Z) ConfigValue) (v : ConfigValue) : gmap (list Z) ConfigValue := <[check_sums v := v]> m.
Lemma stores_last vs m s : fold_left store vs m !! s = match last_of s vs with Some v => Some v | None => m !! s end.
Proof.
  unfold last_of. induction vs as [|v vs IH] using rev_ind; [done|]. rewrite fold_left_app, rev_app_distr. cbn [fold_left rev app List.find]. unfold store at 1.
  destruct (named s v) eqn:E.
  - apply named_iff in E as <-. by rewrite lookup_insert_eq.
  - rewrite lookup_insert_ne; [exact IH|]. intros <-. by rewrite (proj2 (named_iff _ v)) in E.
Qed.

(** Memory does not run out, and no file holds a null character. *)
Context (memory : ConfigCache -> bool) (Hmemory : forall c, memory c = true).
Context (files_plain : forall name text, files name = Some text -> 0 ∉ text).
(** The cache with these settings, none of them an inclusion. *)
Record holds (m : gmap (list Z) ConfigValue) (s : Load) : Prop := mk_holds { ho_ok : cache_ok (fst s); ho_map : contents (fst s) = m }.
Definition no_include (m : gmap (list Z) ConfigValue) : Prop := forall s, (hd 0 s =? include_checksum) = true -> m !! s = None.
Lemma no_include_store m v : no_include m -> is_include v = false -> no_include (store m v).
Proof. intros Hm Hv s Hs. unfold store. rewrite lookup_insert_ne; [by apply Hm|]. intros <-. unfold is_include in Hv. congruence. Qed.
Lemma line_stored line m s : holds m s ->
  let '(s', cv) := line_to_cache memory line s in
  cv = fst (process_line line) /\ match cv with Some v => holds (store m v) s' /\ (m !! check_sums v = None -> holds m (pop (fst s'), snd s')) | None => holds m s' end.
Proof.
  intros [Hok Hm]. unfold line_to_cache. destruct (process_line line) as [[v|] r]; cbn [fst snd]; [|by split].
  pose proof (stored_ok (memory (fst s)) v (fst s) Hok) as Hs. rewrite Hmemory in *. destruct (replace_or_push_back true v (fst s)) as [[c st] r2]. destruct Hs as (Hc & Hst & Hv).
  destruct st; [|by destruct Hst as (_ & ? & _)]. destruct Hst as [Hst _]. split; [done|]. split.
  - split; [done|]. cbn [fst]. by rewrite Hst, Hm.
  - intros Hnone. rewrite <- Hm in Hnone. destruct (popped_ok c v (values (fst s)) Hc (Hv Hnone eq_refl)) as [Hp Ep]. split; [done|]. cbn [fst].
    unfold contents in *. by rewrite Ep.
Qed.
(** A part of the load, and the settings it stands for. *)
Definition loads (go : Load -> option Load) (vs : option (list ConfigValue)) : Prop :=
  forall m s, holds m s -> no_include m ->
  match vs with
  | Some vs => exists s', go s = Some s' /\ holds (fold_left store vs m) s' /\ no_include (fold_left store vs m)
  | None => go s = None
  end.
Lemma holds_reports m s r : holds m s -> holds m (fst s, snd s ++ r).
Proof. by intros []. Qed.
Lemma loads_then go1 go2 vs1 vs2 : loads go1 vs1 -> loads go2 vs2 -> loads (fun s => s ← go1 s; go2 s) (a ← vs1; b ← vs2; Some (a ++ b)).
Proof.
  intros H1 H2 m s Hs Hm. specialize (H1 m s Hs Hm). destruct vs1 as [a|]; cbn [mbind option_bind]; [|by rewrite H1].
  destruct H1 as (s1 & E1 & Hs1 & Hm1). rewrite E1. cbn [mbind option_bind]. specialize (H2 _ s1 Hs1 Hm1). destruct vs2 as [b|]; cbn [mbind option_bind]; [|done].
  by rewrite fold_left_app.
Qed.
Lemma loads_ext go go' vs : (forall s, go s = go' s) -> loads go vs -> loads go' vs.
Proof. intros He H m s Hs Hm. specialize (H m s Hs Hm). by rewrite He in H. Qed.
Lemma load_line_loads inc included name l r :
  (forall n, loads (inc n) (included n)) ->
  loads (fun s => load_line files memory inc name l (fst s, snd s ++ r))
    (match fst (process_line l) with
     | None => Some []
     | Some cv => if is_include cv then let inner := included_name files name (c_string (value cv)) in
                    if file_exists files inner then included inner else Some []
                  else Some [cv]
     end).
Proof.
  intros Hinc m s Hs Hm. unfold load_line. pose proof (line_stored l m (fst s, snd s ++ r) (holds_reports _ _ r Hs)) as Hl.
  destruct (line_to_cache memory l (fst s, snd s ++ r)) as [s1 cv]. destruct Hl as [<- Hl]. destruct cv as [v|].
  - destruct Hl as [Hst Hpop]. fold (is_include v). unfold is_include at 1. change (hd 0 (check_sums v) =? include_checksum) with (is_include v).
    destruct (is_include v) eqn:Ei; cbv zeta.
    + specialize (Hpop (Hm _ Ei)). set (inner := included_name files name (c_string (value v))).
      destruct (file_exists files inner); [by apply Hinc; [apply (holds_reports _ (_, _))|]|].
      eexists. split; [reflexivity|]. split; [by apply (holds_reports _ (_, _))|done].
    + eexists. split; [reflexivity|]. cbn [fold_left]. split; [done|by apply no_include_store].
  - eexists. split; [reflexivity|]. by split.
Qed.
Lemma load_lines_loads inc included name n before ls e ln : (forall k, loads (inc k) (included k)) ->
  lines_ok ls -> (e = true -> ls = []) -> (length ls < n)%nat ->
  loads (load_lines files memory inc n name ln (file_at before ls e)) (lines_settings included name ls).
Proof.
  intros Hinc. revert before ls e ln. induction n as [|n IH]; intros before ls e ln Hok He Hn; [lia|]. destruct ls as [|l ls].
  { intros m s Hs Hm. cbn [load_lines lines_settings]. rewrite next_line_end. by exists s. }
  assert (He' : e = false) by (destruct e; [by specialize (He eq_refl)|done]). subst e. destruct (next_line_at before l ls ln Hok) as (e & E & He').
  pose proof (load_line_loads inc included name (kept l) (long_report ln l) Hinc) as H1.
  assert (H2 : loads (load_lines files memory inc n name (s32 (ln + 1)) (file_at (before ++ [l]) ls e)) (lines_settings included name ls)).
  { apply IH; [by eapply lines_ok_tail|done|cbn in Hn; lia]. }
  pose proof (loads_then _ _ _ _ H1 H2) as H3. intros m s Hs Hm. specialize (H3 m s Hs Hm). cbn [load_lines lines_settings]. rewrite E.
  destruct (fst (process_line (kept l))) as [v|]; [|by destruct (lines_settings included name ls)].
  destruct (is_include v); [exact H3|]. by destruct (lines_settings included name ls).
Qed.
Lemma load_file_loads depth name : loads (load_file files memory depth name) (file_settings depth name).
Proof.
  revert name. induction depth as [|depth IH]; intros name m s Hs Hm; [done|]. cbn [load_file file_settings]. destruct (files name) as [text|] eqn:Ef; [|by exists s].
  destruct (lines_of_spec text (files_plain _ _ Ef)) as [Ec Hok].
  assert (Hf : mk_file text 0 false = file_at [] (lines_of text) false) by (unfold file_at; cbn [concat app length]; by rewrite Ec).
  rewrite Hf. apply load_lines_loads; [exact IH|done|done| |done|done]. pose proof (lines_count _ Hok) as Hn. rewrite Ec in Hn. lia.
Qed.
Lemma load_firm_loads text : Forall (fun v => is_include v = false) (firm_settings text) ->
  loads (fun s => Some (load_firm memory text s)) (Some (firm_settings text)).
Proof.
  unfold firm_settings, load_firm. intros Hi m s Hs Hm. eexists. split; [reflexivity|]. revert m s Hs Hm Hi.
  induction (lines_of text) as [|l ls IH]; intros m s Hs Hm Hi; [done|]. cbn [fold_left omap list_omap] in *.
  pose proof (line_stored l m s Hs) as Hl. destruct (line_to_cache memory l s) as [s' cv]. destruct Hl as [Ecv Hl]. rewrite <- Ecv in *. clear Ecv. cbn [fst].
  destruct cv as [v|]; [|by apply IH]. apply Forall_cons_iff in Hi as [Hv Hi]. cbn [fold_left]. apply IH; [by apply Hl|by apply no_include_store|done].
Qed.
(** The firmware's own settings include no file. *)
Definition source_plain (src : Source) : Prop := match src with firm _ text => Forall (fun v => is_include v = false) (firm_settings text) | file _ _ => True end.
#[export] Instance source_plain_dec src : Decision (source_plain src).
Proof. destruct src; cbn [source_plain]; apply _. Defined.
Lemma load_sources_loads depth srcs : Forall source_plain srcs -> loads (load_sources files memory depth srcs) (settings depth srcs).
Proof.
  induction 1 as [|src srcs Hp _ IH]; [by intros m s Hs Hm; exists s|]. cbn [load_sources settings]. destruct src as [n text|n path].
  - exact (loads_then _ _ _ _ (load_firm_loads text Hp) IH).
  - exact (loads_then _ _ _ _ (load_file_loads depth path) IH).
Qed.
(** C27: The settings in force are those the files give, the last one for each key.
    What the loader leaves in the cache, line after line with the chunks, the
    replacements and the inclusions stored and taken back, is what reading the
    sources in order, every included file in its place, says: looking up a key
    gives the last setting of that key and nothing where there is none, no
    inclusion is left among them, and the load ends with the inclusions. Memory does
    not run out, no file holds a null character, and the built-in settings include
    no file. *)
Theorem load_last_wins depth srcs : Forall source_plain srcs ->
  match settings depth srcs with
  | Some vs => exists c rs, config_cache_load files memory depth true srcs = Some (c, rs) /\ cache_ok c /\
      forall sums, config_value (Some c) sums = (last_of sums vs, []) /\ (hd 0 sums = include_checksum -> last_of sums vs = None)
  | None => config_cache_load files memory depth true srcs = None
  end.
Proof.
  intros Hp. assert (H0 : holds ∅ (new_cache, [])) by (split; [apply new_cache_ok|done]).
  assert (Hi : no_include ∅) by (intros s _; apply lookup_empty). pose proof (load_sources_loads depth srcs Hp ∅ (new_cache, []) H0 Hi) as Hl. unfold config_cache_load.
  destruct (settings depth srcs) as [vs|]; [|done]. destruct Hl as ([c rs] & E & [Hok Hc] & Hni). exists c, rs. split; [done|]. split; [done|]. intros sums.
  assert (Hlook : contents c !! sums = last_of sums vs) by (cbn [fst] in Hc; rewrite Hc, stores_last; destruct (last_of sums vs); [done|apply lookup_empty]).
  unfold config_value. rewrite contents_lookup, Hlook. split; [done|]. intros Hs. rewrite <- Hlook. cbn [fst] in Hc. rewrite Hc. apply Hni. by apply Z.eqb_eq.
Qed.
(** Where every file includes only files of a lower rank, the load ends. *)
Definition includes_only (ok : list Z -> Prop) (name text : list Z) : Prop :=
  Forall (fun l => match fst (process_line (kept l)) with Some v => is_include v = true -> ok (included_name files name (c_string (value v))) | None => True end) (lines_of text).
Lemma acyclic_ends (rank : list Z -> nat) : (forall name text, files name = Some text -> includes_only (fun inner => rank inner < rank name)%nat name text) ->
  forall depth name, (rank name < depth)%nat -> file_settings depth name <> None.
Proof.
  intros Hr. induction depth as [|depth IH]; intros name Hd; [lia|]. cbn [file_settings]. destruct (files name) as [text|] eqn:Ef; [|done].
  specialize (Hr name text Ef). unfold includes_only in Hr. induction Hr as [|l ls Hl _ IHl]; [done|]. cbn [lines_settings].
  destruct (fst (process_line (kept l))) as [v|]; [|exact IHl]. destruct (lines_settings (file_settings depth) name ls) as [b|]; [|done].
  destruct (is_include v); [|done]. specialize (Hl eq_refl). cbv zeta. set (inner := included_name files name (c_string (value v))) in *. destruct (file_exists files inner); [|done].
  specialize (IH inner ltac:(lia)). by destruct (file_settings depth inner).
Qed.
End Loaded.

(** ** Examples *)
Definition demo_text : list Z := chars "# settings" ++ [10] ++ chars "acceleration  150   # mm" ++ [10] ++ chars "led_pin  4.28" ++ [10].
Definition demo_key : list Z := chars "acceleration".
Lemma remove_deletes_witness :
  exists removed text' rs, remove_setting true true true demo_key demo_text = Some (removed, Some text', rs) /\
    removed = negb (bool_decide (read_value (get_checksums demo_key) demo_text = Some [])) /\
    if removed then read_value (get_checksums demo_key) text' = Some [] /\
      forall other, other <> get_checksums demo_key -> read_value other text' = read_value other demo_text else text' = demo_text.
Proof. apply (remove_deletes demo_key demo_text); concrete. Defined.
(** A card with a file that includes another, and a file that includes itself. *)
Definition demo_main : list Z := chars "acceleration 150" ++ [10] ++ chars "include more" ++ [10] ++ chars "led_pin 4.28" ++ [10].
Definition demo_more : list Z := chars "acceleration 300" ++ [10] ++ chars "led_pin 1.1" ++ [10].
Definition demo_files (name : list Z) : option (list Z) :=
  if bool_decide (name = chars "/sd/config.txt") then Some demo_main else if bool_decide (name = chars "/sd/more") then Some demo_more
  else if bool_decide (name = chars "/sd/loop") then Some (chars "include /sd/loop" ++ [10]) else None.
Definition demo_sources : list Source := sources demo_files (chars "led_pin 0.0" ++ [10]).
Lemma demo_files_plain name text : demo_files name = Some text -> 0 ∉ text.
Proof. unfold demo_files. repeat case_bool_decide; intros [= <-]; concrete. Qed.
Lemma load_last_wins_witness :
  exists c rs, config_cache_load demo_files (fun _ => true) 3 true demo_sources = Some (c, rs) /\ cache_ok c /\
    forall sums, config_value (Some c) sums =
      (last_of sums [demo_value "led_pin" "0.0"; demo_value "acceleration" "150"; demo_value "acceleration" "300"; demo_value "led_pin" "1.1"; demo_value "led_pin" "4.28"], []) /\
      (hd 0 sums = include_checksum ->
       last_of sums [demo_value "led_pin" "0.0"; demo_value "acceleration" "150"; demo_value "acceleration" "300"; demo_value "led_pin" "1.1"; demo_value "led_pin" "4.28"] = None).
Proof.
  pose proof (load_last_wins demo_files (fun _ => true) (fun _ => eq_refl) demo_files_plain 3 demo_sources) as H.
  assert (Hp : Forall source_plain demo_sources) by concrete. specialize (H Hp).
  replace (settings demo_files 3 demo_sources) with
    (Some [demo_value "led_pin" "0.0"; demo_value "acceleration" "150"; demo_value "acceleration" "300"; demo_value "led_pin" "1.1"; demo_value "led_pin" "4.28"]) in H
    by (vm_compute; reflexivity). exact H.
Defined.

(** ** What the code does beyond *)

(** Whether a change was made, and what a key then reads as. *)
Definition then_read (r : option (bool * list Z * list Report)) (key : string) : option (bool * option (list Z)) :=
  '(done, text, _) ← r; Some (done, read_value (get_checksums (chars key)) text).
(** A line of fewer than four characters leaves no room, but its free space is
    computed without a sign: the new text is written over the next line. *)
Example short_line_overwrites_next :
  let text := chars "b " ++ [10] ++ chars "led_pin 4.28" ++ [10] in
  read_value (get_checksums (chars "led_pin")) text = Some (chars "4.28") /\
  then_read (write_setting (chars "b") (chars "10") text) "led_pin" = Some (true, Some []).
Proof. by split; vm_compute. Qed.
(** A key with nothing after it is told of as having no value only when there is no
    end of line: the end of line is taken for the value. *)
Example end_of_line_is_value : config_line (chars "led_pin " ++ [10]) = parsed (chars "led_pin") [10] /\ config_line (chars "led_pin ") = missing_value.
Proof. by split; vm_compute. Qed.
(** A line of blanks is an error, where an empty one is ignored. *)
Example blank_line_is_error : config_line ([32; 32; 10]) = missing_pair /\ config_line [10] = ignored.
Proof. by split; vm_compute. Qed.
(** A last line that is not ended is told of as too long. *)
Example open_line_told : exists f line r, readLine 7 (open_text (chars "led_pin 4.28")) = (f, Some (line, [r])) /\ line = chars "led_pin 4.28" /\ is_load_error r = true.
Proof. do 3 eexists. split; [vm_compute; reflexivity|]. by split; vm_compute. Qed.
(** With a key on two lines, the one that is read and written is the first, and the
    one that is loaded is the last: what is set does not come into force. *)
Example set_has_no_effect :
  let text := chars "led_pin 4.28 # first" ++ [10] ++ chars "led_pin 1.1 # second" ++ [10] in
  let r := write_setting (chars "led_pin") (chars "0.1") text in
  then_read r "led_pin" = Some (true, Some (chars "0.1")) /\
  ('(_, text', _) ← r; option_map value (last_of (get_checksums (chars "led_pin")) (firm_settings text'))) = Some (chars "1.1").
Proof. by split; vm_compute. Qed.
(** Removing a setting cuts every longer line to 130 characters without its end,
    and what follows becomes a part of it. *)
Example removing_joins_lines :
  let text := chars "note x #" ++ repeat 46 130 ++ [10] ++ chars "acceleration 150" ++ [10] ++ chars "led_pin 4.28" ++ [10] in
  read_value (get_checksums (chars "led_pin")) text = Some (chars "4.28") /\
  ('(_, text', _) ← remove_setting true true true demo_key text; t ← text'; read_value (get_checksums (chars "led_pin")) t) = Some [].
Proof. by split; vm_compute. Qed.
