(* ===== verification/Configurator.v ===== *)
(** * Commands on the settings ([src/src/modules/utils/configurator/Configurator.cpp])

    A setting is shown, changed or deleted in a source named on the command line,
    and the cache is loaded, shown or given up. What changes a setting waits until
    the machine is not busy. *)
From stdpp Require Import gmap.
From S2P Require Import Prelude CString Files.
From S2P Require Gcode TransferBusy.
From S2P Require Import ConfigCache ConfigFile.
#[local] Open Scope Z_scope.

(** What is told while a file is read, to all, and what the command answers. *)
Inductive Said := told (r : Report) | answer (fmt : string) (args : list Gcode.Arg).
(** The files there are, the sources found when the controller started, the cache
    while it is loaded, and the one setting that comes into force at once. *)
Record Settings := mk_settings {
  card : list Z -> option (list Z);
  config_sources : list Source;
  cache : option ConfigCache;
  tip_diameter : Z
}.
#[export] Instance eta_Settings : Eta Settings := fun s => mk_settings (card s) (config_sources s) (cache s) (tip_diameter s).

Section Configurator.
(** Whether the cache in its state could get another chunk. *)
Context `{Gcode.CLib} (memory : ConfigCache -> bool).
Definition source_name (src : Source) : Z := match src with firm n _ => n | file n _ => n end.
(** [src/src/libs/ConfigSources/FileConfigSource.cpp:128-131] FileConfigSource::is_named *)
Definition is_named (sum : Z) (src : Source) : bool := sum =? source_name src.
Definition with_text (path : list Z) (text : option (list Z)) (s : Settings) : Settings :=
  s <| card := fun name => if bool_decide (name = path) then text else card s name |>.
(** [None] where a file of the sources is gone: the code then reads through a
    stream that is not open. *)
Definition read_source (src : Source) (sums : list Z) (s : Settings) : option (list Z * list Report) :=
  match src with
  | firm _ text => Some (read_firm sums (lines_of text))
  | file _ path => text ← card s path; read_setting sums text
  end.
(** The firmware's own settings are never written.
    [src/src/libs/ConfigSources/FirmConfigSource.cpp:92-95] FirmConfigSource::write *)
Definition write_source (src : Source) (setting value : list Z) (s : Settings) : option (bool * Settings * list Report) :=
  match src with
  | firm _ _ => Some (false, s, [])
  | file _ path => text ← card s path; '(written, text', rs) ← write_setting setting value text; Some (written, if written : bool then with_text path (Some text') s else s, rs)
  end.
(** [can_make], [can_delete], [can_rename]: what the card does.
    [src/src/libs/ConfigSource.h:44-44] ConfigSource::remove *)
Definition remove_source (can_make can_delete can_rename : bool) (src : Source) (setting : list Z) (s : Settings) : option (bool * Settings * list Report) :=
  match src with
  | firm _ _ => Some (false, s, [])
  | file _ path =>
      match card s path with
      | None => Some (false, s, [])
      | Some text => '(removed, text', rs) ← remove_setting can_make can_delete can_rename setting text; Some (removed, with_text path text' s, rs)
      end
  end.
Definition refused : Said := answer "error:Refused -- can't change settings while the machine is busy" [].
(** Loads the cache anew, as every command does that needs it.
    [src/src/libs/Config.cpp:80-93] Config::config_cache_load *)
Definition load_cache (depth : nat) (s : Settings) : option (Settings * list Said) :=
  '(c, rs) ← config_cache_load (card s) memory depth true (config_sources s); Some (s <| cache := Some c |>, map told rs).
(** [src/src/libs/Config.cpp:96-103] Config::config_cache_clear *)
Definition config_cache_clear (s : Settings) : Settings := s <| cache := None |>.
(** [src/src/modules/utils/configurator/Configurator.cpp:67-71] Configurator::config_get_command *)
Definition get_answer (source setting value : list Z) : Said :=
  match value with
  | [] => answer "%s: %s is not in config" [Gcode.a_text source; Gcode.a_text setting]
  | _ => answer "%s: %s is set to %s" [Gcode.a_text source; Gcode.a_text setting; Gcode.a_text value]
  end.
(** A setting from a cache loaded for it, or from the source that is named.
    [src/src/modules/utils/configurator/Configurator.cpp:41-76] Configurator::config_get_command *)
Definition config_get_command (depth : nat) (parameters : list Z) (s : Settings) : option (Settings * list Said) :=
  let '(source, parameters) := shift_parameter parameters in
  let '(setting, _) := shift_parameter parameters in
  match setting with
  | [] =>
      '(s, said) ← load_cache depth s;
      let '(cv, rs) := config_value (cache s) (get_checksums source) in
      Some (config_cache_clear s, said ++ map told rs ++
        [match cv with
         | Some _ => answer "cached: %s is set to %s" [Gcode.a_text source; Gcode.a_text (as_string cv)]
         | None => answer "cached: %s is not in config" [Gcode.a_text source]
         end])
  | _ =>
      match List.find (is_named (get_checksum source)) (config_sources s) with
      | None => Some (s, [])
      | Some src =>
          '(v, rs) ← read_source src (get_checksums setting) s;
          Some (s, map told rs ++ [get_answer source setting v])
      end
  end.
(** The probe's tip counts at once, unless it is zero.
    [src/src/modules/utils/configurator/Configurator.cpp:103-106] Configurator::config_set_command *)
Definition set_tip (setting value : list Z) (s : Settings) : Settings :=
  if bool_decide (setting = chars "zprobe.probe_tip_diameter") then
    let fvalue := fst (Gcode.or_zero Gcode.f_zero (c_string value) (Gcode.strtof (c_string value))) in
    if Gcode.is_zero fvalue then s else s <| tip_diameter := fvalue |>
  else s.
(** [src/src/modules/utils/configurator/Configurator.cpp:79-115] Configurator::config_set_command *)
Definition config_set_command (m : TransferBusy.ConfigMachineState) (parameters : list Z) (s : Settings) : option (Settings * list Said) :=
  if TransferBusy.refuses_write m then Some (s, [refused])
  else
    let '(source, parameters) := shift_parameter parameters in
    let '(setting, parameters) := shift_parameter parameters in
    let '(value, _) := shift_parameter parameters in
    if bool_decide (source = []) || bool_decide (setting = []) || bool_decide (value = []) then
      Some (s, [answer "Usage: config-set source setting value # where source is sd, setting is the key and value is the new value" []])
    else if (CONFIGVALUE_MAX_LEN <=? length value)%nat then
      Some (s, [answer "error: value too long (%d chars, max %d)" [Gcode.an_int (Z.of_nat (length value)); Gcode.an_int (Z.of_nat CONFIGVALUE_MAX_LEN - 1)]])
    else
      match List.find (is_named (get_checksum source)) (config_sources s) with
      | None => Some (s, [answer "%s source does not exist" [Gcode.a_text source]])
      | Some src =>
          '(written, s, rs) ← write_source src setting value s;
          Some (if written : bool then
                  (set_tip setting value s, map told rs ++ [answer "%s: %s has been set to %s" [Gcode.a_text source; Gcode.a_text setting; Gcode.a_text value]])
                else (s, map told rs ++ [answer "%s: %s not enough space to overwrite existing key/value" [Gcode.a_text source; Gcode.a_text setting]]))
      end.
(** [src/src/modules/utils/configurator/Configurator.cpp:118-144] Configurator::config_delete_command *)
Definition config_delete_command (m : TransferBusy.ConfigMachineState) (can_make can_delete can_rename : bool) (parameters : list Z) (s : Settings) : option (Settings * list Said) :=
  if TransferBusy.refuses_write m then Some (s, [refused])
  else
    let '(source, parameters) := shift_parameter parameters in
    let '(setting, _) := shift_parameter parameters in
    if bool_decide (source = []) || bool_decide (setting = []) then Some (s, [answer "Usage: config-delete source setting # where source is sd (or local), setting is the key to remove" []])
    else
      match List.find (is_named (get_checksum source)) (config_sources s) with
      | None => Some (s, [answer "%s source does not exist" [Gcode.a_text source]])
      | Some src =>
          '(removed, s, rs) ← remove_source can_make can_delete can_rename src setting s;
          Some (s, map told rs ++ [if removed : bool then answer "%s: %s has been removed" [Gcode.a_text source; Gcode.a_text setting]
                                   else answer "%s: %s not found or source is read-only" [Gcode.a_text source; Gcode.a_text setting]])
      end.
(** One line for each value, numbered.
    [src/src/libs/ConfigCache.cpp:108-119] ConfigCache::dump *)
Definition dump (c : ConfigCache) : list Said :=
  imap (fun i v => answer "%3u - %04X %04X %04X : '%s'" (Gcode.an_int (u32 (Z.of_nat i + 1)) :: map Gcode.an_int (check_sums v) ++ [Gcode.a_text (c_string (value v))]))
    (concat (chunks c)).
(** [src/src/modules/utils/configurator/Configurator.cpp:147-185] Configurator::config_load_command *)
Definition config_load_command (depth : nat) (m : TransferBusy.ConfigMachineState) (parameters : list Z) (s : Settings) : option (Settings * list Said) :=
  if TransferBusy.refuses_write m then Some (s, [refused])
  else
    let '(source, parameters) := shift_parameter parameters in
    if bool_decide (source = chars "load") then
      '(s, said) ← load_cache depth s; Some (s, said ++ [answer "config cache loaded" []])
    else if bool_decide (source = chars "unload") then Some (config_cache_clear s, [answer "config cache unloaded" []])
    else if bool_decide (source = chars "dump") then
      '(s, said) ← load_cache depth s; Some (config_cache_clear s, said ++ match cache s with Some c => dump c | None => [] end)
    else if bool_decide (source = chars "checksum") then
      let '(key, _) := shift_parameter parameters in
      Some (s, [answer "checksum of %s = %02X %02X %02X" (Gcode.a_text key :: map Gcode.an_int (get_checksums key))])
    else Some (s, [answer "unsupported option: must be one of load|unload|dump|checksum" []]).

(** ** A setting that is changed is the one that is shown *)

(** A parameter that is taken as it is written: no blanks, no character that
    stands for another, no quote at its head. *)
Definition word (w : list Z) : bool :=
  negb (bool_decide (w = [])) && forallb (fun c => negb (elem [32; 1; 2; 3; 4; 5] c)) w && negb (elem [9; 34; 39] (hd 0 w)).
Lemma decoded_word w : forallb (fun c => negb (elem [32; 1; 2; 3; 4; 5] c)) w = true -> map decoded w = w.
Proof.
  induction w as [|c w IH]; [done|]. cbn [forallb map]. intros [Hc Hw]%andb_true_iff. rewrite IH by done. f_equal.
  cbn in Hc. unfold decoded. repeat case_match; lia.
Qed.
Lemma shift_word w rest : word w = true ->
  shift_parameter (w ++ 32 :: rest) = (w, rest) /\ shift_parameter w = (w, []).
Proof.
  unfold word. intros [[Hne Hw]%andb_true_iff Hh]%andb_true_iff. destruct w as [|c w]; [done|]. clear Hne. cbn [hd] in Hh.
  pose proof Hw as Hw'. cbn [forallb] in Hw'. apply andb_true_iff in Hw' as [Hc _].
  assert (Hs : forall r, skip_blanks ((c :: w) ++ r) = (c :: w) ++ r).
  { intros r. unfold skip_blanks, find_first_not_of. cbn [app find_from]. cbn in Hc, Hh. replace (elem [32; 9] c) with false by (cbn; lia). done. }
  assert (Hq : (c =? 34) || (c =? 39) = false) by (cbn in Hh; lia).
  assert (Hf : forall r, find_from (elem [32]) ((c :: w) ++ r) = option_map (fun i => length (c :: w) + i)%nat (find_from (elem [32]) r)).
  { intros r. apply find_all_not. rewrite forallb_forall in *. intros x Hx. specialize (Hw x Hx). cbn in *. lia. }
  unfold shift_parameter. split.
  - rewrite Hs. cbn [app]. rewrite Hq. unfold find_first_of. rewrite drop_0. change (c :: w ++ 32 :: rest) with ((c :: w) ++ 32 :: rest). rewrite Hf.
    cbn [find_from]. change (elem [32] 32) with true. cbn [option_map]. rewrite Nat.add_0_r, Nat.add_0_l, take_app_length.
    rewrite decoded_word by done. rewrite drop_app_ge, Nat.sub_succ_l, Nat.sub_diag by lia. done.
  - specialize (Hs []). specialize (Hf []). rewrite app_nil_r in Hs, Hf. rewrite Hs, Hq. unfold find_first_of. rewrite drop_0, Hf. cbn [find_from option_map].
    by rewrite decoded_word.
Qed.
(** What a command that shows a setting answers in the end. *)
Definition shown (r : option (Settings * list Said)) : option Said := '(_, said) ← r; list.last said.
Lemma get_shows depth source key n path text v s : word source = true -> word key = true ->
  List.find (is_named (get_checksum source)) (config_sources s) = Some (file n path) -> card s path = Some text ->
  read_value (get_checksums key) text = Some v ->
  shown (config_get_command depth (source ++ 32 :: key) s) = Some (get_answer source key v).
Proof.
  intros Hs Hk Hsrc Ht Hv. unfold config_get_command. destruct (shift_word source key Hs) as [-> _]. destruct (shift_word key [] Hk) as [_ ->].
  destruct key as [|c key]; [done|]. rewrite Hsrc. cbn [read_source]. rewrite Ht. cbn [mbind option_bind]. unfold read_value in Hv.
  destruct (read_setting (get_checksums (c :: key)) text) as [[v' rs]|]; [|done]. injection Hv as [= ->]. cbn [mbind option_bind shown]. by rewrite last_snoc.
Qed.
Lemma with_text_card path t s name : card (with_text path t s) name = if bool_decide (name = path) then t else card s name.
Proof. done. Qed.
Lemma set_tip_keeps setting v s : card (set_tip setting v s) = card s /\ config_sources (set_tip setting v s) = config_sources s.
Proof. unfold set_tip. by repeat case_match. Qed.
(** C28: A setting that is changed is the one that is shown. While the machine is
    busy the command to change a setting is refused and changes nothing. Otherwise,
    for a value of one word that fits and a source that is a file as in
    [ConfigFile.written_reads], the command always ends with one of two answers. It says
    that there is not enough space, and nothing changed; or it says that the setting
    has been set, and then the command that shows settings shows this key with this
    value, every other key of that source as before, and no other file is
    changed. *)
Theorem set_is_shown m source setting v n path text s :
  word source = true -> word setting = true -> word v = true -> setting_ok setting v = true ->
  List.find (is_named (get_checksum source)) (config_sources s) = Some (file n path) -> card s path = Some text ->
  0 ∉ text -> text = [] \/ List.last text 0 = 10 ->
  Forall (fun l => value_of (get_checksums setting) l <> [] -> (4 <= length l)%nat) (lines_of text) ->
  exists s' rs a, config_set_command m (source ++ 32 :: setting ++ 32 :: v) s = Some (s', map told rs ++ [a]) /\
  if TransferBusy.refuses_write m then s' = s /\ rs = [] /\ a = refused
  else (a = answer "%s: %s not enough space to overwrite existing key/value" [Gcode.a_text source; Gcode.a_text setting] /\ s' = s) \/
       (a = answer "%s: %s has been set to %s" [Gcode.a_text source; Gcode.a_text setting; Gcode.a_text v] /\
        (forall name, name <> path -> card s' name = card s name) /\
        forall depth key, word key = true ->
          shown (config_get_command depth (source ++ 32 :: key) s') =
          if bool_decide (get_checksums key = get_checksums setting) then Some (get_answer source key v) else shown (config_get_command depth (source ++ 32 :: key) s)).
Proof.
  intros Hs Hk Hv Hok Hsrc Ht H0 Hend Hshort. unfold config_set_command. destruct (TransferBusy.refuses_write m); [by exists s, [], refused|].
  destruct (shift_word source (setting ++ 32 :: v) Hs) as [-> _]. destruct (shift_word setting v Hk) as [-> _]. destruct (shift_word v [] Hv) as [_ ->].
  rewrite !bool_decide_false by (intros ->; done). cbn [orb]. assert (Hl : (length v < CONFIGVALUE_MAX_LEN)%nat).
  { unfold setting_ok in Hok. repeat match type of Hok with _ && _ = true => apply andb_true_iff in Hok as [Hok ?] end. by apply Nat.ltb_lt. }
  rewrite (proj2 (Nat.leb_gt _ _) Hl), Hsrc. cbn [write_source]. rewrite Ht. cbn [mbind option_bind].
  destruct (written_reads setting v text Hok H0 Hend Hshort) as (w & text' & rs & -> & Hw). cbn [mbind option_bind]. destruct w.
  - eexists _, rs, _. split; [reflexivity|]. right. split; [done|]. destruct (set_tip_keeps setting v (with_text path (Some text') s)) as [Ec Esrc].
    rewrite Ec. destruct Hw as [Hsame Hother]. split; [intros name Hn; by rewrite with_text_card, bool_decide_false|]. intros depth key Hkey.
    assert (Ht' : card (set_tip setting v (with_text path (Some text') s)) path = Some text') by (by rewrite Ec, with_text_card, bool_decide_true).
    destruct (bool_decide_reflect (get_checksums key = get_checksums setting)) as [Eq|Hne].
    + eapply get_shows; [done|done|rewrite Esrc; exact Hsrc|exact Ht'|]. by rewrite Eq.
    + destruct (lines_of_spec text H0) as [El Hlines]. destruct (read_lines (get_checksums key) _ Hlines) as [rs' Hr]. rewrite El in Hr.
      assert (Hr' : read_value (get_checksums key) text = Some (first_value (get_checksums key) (lines_of text))) by (unfold read_value; by rewrite Hr).
      rewrite (get_shows depth source key n path text _ s Hs Hkey Hsrc Ht Hr').
      eapply get_shows; [done|done|rewrite Esrc; exact Hsrc|exact Ht'|]. by rewrite Hother.
  - eexists s, rs, _. split; [reflexivity|]. by left.
Qed.
End Configurator.

(** ** Examples *)
Definition demo_settings : Settings := mk_settings demo_files demo_sources None 0.
#[local] Instance demo_clib : Gcode.CLib := Gcode.mk_clib id id id id id id id id (fun x _ => x) (fun _ => 0).
Lemma set_is_shown_witness :
  exists s' rs a, config_set_command (TransferBusy.mk_config_state true false false false) (chars "sd speed 1.1") demo_settings = Some (s', map told rs ++ [a]) /\
  a = answer "%s: %s has been set to %s" [Gcode.a_text (chars "sd"); Gcode.a_text (chars "speed"); Gcode.a_text (chars "1.1")] /\
  shown (config_get_command (fun _ => true) 3 (chars "sd speed") s') = Some (get_answer (chars "sd") (chars "speed") (chars "1.1")).
Proof.
  destruct (set_is_shown (fun _ => true) (TransferBusy.mk_config_state true false false false) (chars "sd") (chars "speed") (chars "1.1")
    (get_checksum (chars "sd")) (chars "/sd/config.txt") demo_main demo_settings) as (s' & rs & a & E & H);
    [vm_compute; reflexivity..|concrete|right; vm_compute; reflexivity|concrete|].
  exists s', rs, a. change (config_set_command _ (chars "sd speed 1.1") demo_settings) with
    (config_set_command (TransferBusy.mk_config_state true false false false) (chars "sd" ++ 32 :: chars "speed" ++ 32 :: chars "1.1") demo_settings).
  split; [exact E|]. destruct H as [[-> ->]|(-> & _ & H)].
  - apply (f_equal shown) in E. cbn [shown mbind option_bind] in E. rewrite last_snoc in E. vm_compute in E. discriminate E.
  - split; [done|]. exact (H 3%nat (chars "speed") eq_refl).
Defined.
(** A blank before a parameter is not skipped, whatever the comment says: it makes
    the parameter empty. *)
Example leading_blank_is_a_parameter : shift_parameter (chars " led_pin 4.28") = ([], chars "led_pin 4.28").
Proof. reflexivity. Qed.
(** A value in quotes may hold a blank or a mark of a comment: it is said to have
    been set, and what is read is cut there. *)
Example quoted_value_is_cut :
  let r := config_set_command (TransferBusy.mk_config_state true false false false) (chars "sd speed '1.1 x'") demo_settings in
  shown r = Some (answer "%s: %s has been set to %s" [Gcode.a_text (chars "sd"); Gcode.a_text (chars "speed"); Gcode.a_text (chars "1.1 x")]) /\
  ('(s', _) ← r; shown (config_get_command (fun _ => true) 3 (chars "sd speed") s')) = Some (get_answer (chars "sd") (chars "speed") (chars "1.1")).
Proof. by split; vm_compute. Qed.
