(* ===== verification/GcodeDispatch.v ===== *)
(** * Dispatching lines of G-code ([src/src/modules/communication/GcodeDispatch.h],
    [GcodeDispatch.cpp])

    A line from a console is prepared, cut into commands, and each command is
    refused, carried out here, written to a file being uploaded, or handed to the
    modules as a G-code. What is told back, and to whom, is kept in order. *)
From stdpp Require Import sets.
From S2P Require Import Prelude CString Binary32.
From S2P Require Gcode.
From S2P Require Import Gcode.
#[local] Open Scope Z_scope.

(** ** Preparing a line *)

(** [src/src/modules/communication/GcodeDispatch.cpp:35-41] is_allowed_mcode *)
Definition is_allowed_mcode (m : Z) : bool := elem [2; 5; 9; 30; 105; 114; 115; 119; 80; 81; 911; 503; 106; 107] m.
(** [src/src/modules/communication/GcodeDispatch.cpp:87-96] GcodeDispatch::on_console_line_received *)
Definition strip_line_number (s : list Z) : list Z :=
  match find_first_not_of (chars "N0123456789.,- ") s with Some i => drop i s | None => [] end.
(** The first [G90] to the front, or else the first [G91].
    [src/src/modules/communication/GcodeDispatch.cpp:98-114] GcodeDispatch::on_console_line_received *)
Definition modes_first (s : list Z) : list Z :=
  match find (chars "G90") s with
  | Some i => chars "G90" ++ erase i 3 s
  | None => match find (chars "G91") s with Some i => chars "G91" ++ erase i 3 s | None => s end
  end.
(** [src/src/modules/communication/GcodeDispatch.cpp:116-120] GcodeDispatch::on_console_line_received *)
Definition strip_comment (s : list Z) : list Z := match find_first_of (chars ";(") s 0 with Some i => take i s | None => s end.
(** [src/src/modules/communication/GcodeDispatch.cpp:86-120] GcodeDispatch::on_console_line_received *)
Definition prepared (s : list Z) : list Z :=
  let first_char := hd 0 s in
  let s := if first_char =? 78 then strip_line_number s else s in
  let s := if first_char =? 71 then modes_first s else s in
  strip_comment s.
(** ** Cutting it into commands *)

(** Where the first command ends; [cmd_pos] is what the last turn left.
    [src/src/modules/communication/GcodeDispatch.cpp:126-151] GcodeDispatch::on_console_line_received *)
Definition next_pos (cmd_pos : option nat) (s : list Z) : option nat :=
  let first_char := hd 0 s in
  if first_char =? 71 then
    if bool_decide (find_first_of (chars "S") s 2 <> None) && bool_decide (find_first_of (chars "M") s 2 <> None)
    then find_first_of (chars "GMST") s 2 else find_first_of (chars "GMT") s 2
  else if first_char =? 77 then find_first_of (chars "GM") s 2
  else if (first_char =? 84) || (first_char =? 83) then
    match find_first_of (chars "M") s 2 with
    | None => find_first_of (chars "GST") s 2
    | Some i => find_first_of (chars "GMST") s (i + 2)
    end
  else cmd_pos.
(** The command and the rest.
    [src/src/modules/communication/GcodeDispatch.cpp:153-159] GcodeDispatch::on_console_line_received *)
Definition cut (cmd_pos : option nat) (s : list Z) : list Z * list Z :=
  match cmd_pos with None => (s, []) | Some i => (take i s, drop i s) end.

(** ** State *)

(** [src/src/modules/communication/GcodeDispatch.h:28-34] GcodeDispatch *)
Record Dispatcher := mk_dispatcher {
  upload_filename : list Z;
  (** the file being written, as what it holds *)
  upload_fd : option (list Z);
  upload_stream : option Z; modal_group_1 : Z; uploading : bool
}.
#[export] Instance eta_Dispatcher : Eta Dispatcher := fun d =>
  mk_dispatcher (upload_filename d) (upload_fd d) (upload_stream d) (modal_group_1 d) (uploading d).
(** [src/src/modules/communication/GcodeDispatch.cpp:43-47] GcodeDispatch::GcodeDispatch *)
Definition new_dispatcher : Dispatcher := mk_dispatcher [] None None 0 false.
(** [src/src/modules/communication/GcodeDispatch.h:26-26] GcodeDispatch::get_modal_command *)
Definition get_modal_command (d : Dispatcher) : Z := if modal_group_1 d <? 4 then modal_group_1 d else 0.
(** The kernel's part: the variables, whether it is halted, and how it answers. *)
Record Outside := mk_outside { vars : Kernel; halted : bool; grbl_mode : bool; ok_per_line : bool }.
#[export] Instance eta_Outside : Eta Outside := fun o => mk_outside (vars o) (halted o) (grbl_mode o) (ok_per_line o).
(** Where the modules' answers to a G-code go. *)
Inductive Target := line_stream | null_stream | config_override.
(** What is done, in order. *)
Inductive Act :=
  | said (e : Event)
  | reply (fmt : string) (args : list Arg) | tell_all (fmt : string) (args : list Arg)
  | halt_reason (r : Z) | on_halt (clear : bool)
  | receives (c : Gcode.Gcode) (to_ : Target)
  | next_command_is_MCS | wait_for_idle | display_message (text : list Z) | runs_shell (cmd args : list Z)
  | opens (name : list Z) | writes (text : list Z) | closes | removes (name : list Z).
Record State := mk_state { disp : Dispatcher; out : Outside; log : list Act }.
#[export] Instance eta_State : Eta State := fun s => mk_state (disp s) (out s) (log s).
(** A computation returns; or meets what C++ leaves undefined or throws, a read
    outside a string or a place outside one; or its fuel runs out. *)
Inductive Result (A : Type) := returned (x : A) (d : State) | fault | no_fuel.
Arguments returned {A} x d.
Arguments fault {A}.
Arguments no_fuel {A}.
Definition D (A : Type) : Type := State -> Result A.
#[export] Instance D_ret : MRet D := fun A x d => returned x d.
#[export] Instance D_bind : MBind D := fun A B f c d => match c d with returned x d' => f x d' | fault => fault | no_fuel => no_fuel end.
Definition act (a : Act) : D unit := fun d => returned tt (mk_state (disp d) (out d) (log d ++ [a])).
Definition get {A} (f : State -> A) : D A := fun d => returned (f d) d.
Definition set_disp (f : Dispatcher -> Dispatcher) : D unit := fun d => returned tt (mk_state (f (disp d)) (out d) (log d)).
Definition set_out (f : Outside -> Outside) : D unit := fun d => returned tt (mk_state (disp d) (f (out d)) (log d)).
Definition step_out {A} (f : Outside -> A * Outside) : D A := fun d =>
  let '(x, o) := f (out d) in returned x (mk_state (disp d) o (log d)).
Definition no_turns {A} : D A := fun _ => no_fuel.
Definition or_fault {A} (x : option A) : D A := fun d => match x with Some x => returned x d | None => fault end.
(** [call_event(ON_HALT, ...)].
    [src/src/libs/Kernel.cpp:762-763] Kernel::call_event *)
Definition call_on_halt (clear : bool) : D unit := _ ← set_out (fun o => o <| halted := negb clear |>); act (on_halt clear).
Definition is_halt (e : Event) : bool := match e with Gcode.call_on_halt false => true | _ => false end.
(** A computation of the evaluator's. *)
Definition lift {A} (c : M A) : D A := fun d =>
  match c (mk_world (vars (out d)) []) with
  | Some (x, w) => returned x (mk_state (disp d)
      (mk_outside (kernel w) (halted (out d) || existsb is_halt (events w)) (grbl_mode (out d)) (ok_per_line (out d)))
      (log d ++ map said (events w)))
  | None => fault
  end.
(** How a turn of the loop ends: with what is left of the line, and whether [ok]
    was sent already; or the handler returns. *)
Inductive Flow := next (rest : list Z) (sent_ok : bool) | leave.
Inductive Step := dispatches (c : Gcode.Gcode) | over (f : Flow).

(** ** Text *)

Fixpoint skip_whitespace (s : list Z) : list Z := match s with c :: s' => if is_whitespace c then skip_whitespace s' else s | [] => [] end.
(** [%d] of a number of at most three digits. *)
Definition decimal_text (n : Z) : list Z :=
  (if 100 <=? n then [48 + n / 100] else []) ++ (if 10 <=? n then [48 + n / 10 mod 10] else []) ++ [48 + n mod 10].
Definition config_override_filename : list Z := chars "/sd/config-override".

Section Dispatch.
Context `{CLib}.
(** Whether the machine is built without a card; what the modules make of a
    G-code; whether a file can be opened for writing, and written to; whether the
    override file exists; whether the shell knows a command; what the firmware
    says of itself. *)
Context (no_sd_card : bool) (receive : Gcode.Gcode -> Outside -> Gcode.Gcode * Outside) (can_open : list Z -> bool)
  (can_write : list Z -> list Z -> bool) (override_present : bool) (in_shell : list Z -> list Z -> bool) (about : list Arg).
Section Line.
(** The line's stream and number. *)
Context (stream line_ : Z).
(** What is left of the line, once the command is known.
    [src/src/modules/communication/GcodeDispatch.cpp:170-192] GcodeDispatch::on_console_line_received *)
Definition when_halted (c : Gcode.Gcode) : D bool :=
  h ← get (fun d => halted (out d));
  if h : bool then
    if has_m c && (m c =? 999) then
      _ ← call_on_halt true;
      _ ← act (reply "WARNING: After HALT you should HOME as position is currently unknown" []);
      _ ← act (reply "ok" []); mret true
    else if negb (is_allowed_mcode (m c)) then
      grbl ← get (fun d => grbl_mode (out d));
      _ ← act (if grbl : bool then reply "error:Alarm lock" [] else reply "!!" []); mret true
    else mret false
  else mret false.
(** A command in machine coordinates: the rest of the line is taken as one command
    with it. [None] when it is not valid.
    [src/src/modules/communication/GcodeDispatch.cpp:195-222] GcodeDispatch::on_console_line_received *)
Definition in_machine_coordinates (c : Gcode.Gcode) (possible_command : list Z) : D (option (Gcode.Gcode * list Z)) :=
  modal ← get (fun d => modal_group_1 (disp d));
  c ← (match possible_command with
       | [] => if 3 <? modal then mret None else mret (Some (c <| g := modal |>))
       | _ => c ← lift (new_gcode possible_command true 0);
              mret (if negb (has_g c) || (1 <? g c) then None else Some c)
       end);
  match c with
  | None => _ ← act (reply "ok - Invalid G53" []); mret None
  | Some c => _ ← act next_command_is_MCS; mret (Some (c, []))
  end.
(** [src/src/modules/communication/GcodeDispatch.cpp:194-236] GcodeDispatch::on_console_line_received *)
Definition handle_g (c : Gcode.Gcode) (possible_command : list Z) (sent_ok : bool) : D (option (Gcode.Gcode * list Z * bool)) :=
  if has_g c then
    r ← (if g c =? 53 then
           r ← in_machine_coordinates c possible_command; mret (match r with Some (c, p) => Some (c, p, sent_ok) | None => None end)
         else if (g c =? 1) && negb sent_ok then _ ← act (reply "ok" []); mret (Some (c, possible_command, true))
         else mret (Some (c, possible_command, sent_ok)));
    match r with
    | Some (c, p, s) => _ ← set_disp (fun d => if g c <? 4 then d <| modal_group_1 := g c |> else d); mret (Some (c, p, s))
    | None => mret None
    end
  else mret (Some (c, possible_command, sent_ok)).
(** The start of an upload: the rest of the command, from its fifth character, is
    the file's name.
    [src/src/modules/communication/GcodeDispatch.cpp:248-265] GcodeDispatch::on_console_line_received *)
Definition start_upload (single_command : list Z) : D unit :=
  name ← or_fault (substr 4 single_command);
  let file := chars "/sd/" ++ name in
  _ ← act (opens file);
  _ ← set_disp (fun d => d <| upload_filename := file |> <| upload_fd := if can_open file then Some [] else None |>
                           <| uploading := uploading d || can_open file |>);
  _ ← act (if can_open file then reply "Writing to file: %s/ok" [a_text file] else reply "open failed, File: %s./ok" [a_text file]);
  set_disp (fun d => d <| upload_stream := Some stream |>).
(** Hands a G-code to the modules: what they made of it.
    [src/src/modules/communication/GcodeDispatch.cpp:441-441] GcodeDispatch::on_console_line_received *)
Definition call_gcode_received (c : Gcode.Gcode) (to_ : Target) : D Gcode.Gcode :=
  _ ← act (receives c to_);
  step_out (receive c).
(** [src/src/modules/communication/GcodeDispatch.cpp:272-281] GcodeDispatch::on_console_line_received *)
Definition end_program : D unit :=
  _ ← set_disp (fun d => d <| modal_group_1 := 1 |>);
  c1 ← lift (new_gcode (chars "M5") true 0); _ ← call_gcode_received c1 null_stream;
  c2 ← lift (new_gcode (chars "M9") true 0); _ ← call_gcode_received c2 null_stream; mret tt.
(** [src/src/modules/communication/GcodeDispatch.cpp:326-349] GcodeDispatch::on_console_line_received *)
Definition tell_everyone (c : Gcode.Gcode) (single_command possible_command : list Z) : D unit :=
  let plain := name ← or_fault (substr 4 single_command); act (tell_all "%s " [a_text (name ++ possible_command)]) in
  if (subcode c =? 1) && has_letter 80 (command c) then
    '(final_value, _) ← lift (get_value 80 (command c));
    match find_first_of (chars "P") single_command 0 with
    | Some ppos =>
        if (length single_command <=? ppos + 1)%nat then act (tell_all "no value for M118.1 command" [])
        else act (tell_all " %s = %.3f " [a_text (drop (ppos + 1) single_command ++ possible_command); a_float final_value])
    | None => act (tell_all "no value for M118.1 command" [])
    end
  else plain.
(** [src/src/modules/communication/GcodeDispatch.cpp:351-373] GcodeDispatch::on_console_line_received *)
Definition pass_to_shell (single_command possible_command : list Z) : D unit :=
  rest ← or_fault (substr 5 single_command);
  let str := skip_whitespace (rest ++ possible_command) in
  _ ← (match str with
       | [] => act (runs_shell (chars "help") [])
       | _ => let '(cmd, args) := shift_parameter (lc str) in
              _ ← act (runs_shell cmd args);
              if in_shell cmd args then mret tt else act (reply "Command not found: %s" [a_text cmd])
       end);
  act (reply "ok" []).
(** [src/src/modules/communication/GcodeDispatch.cpp:382-399] GcodeDispatch::on_console_line_received *)
Definition store_settings (c : Gcode.Gcode) : D unit :=
  _ ← act wait_for_idle; _ ← act (opens config_override_filename);
  _ ← act (writes (chars "; DO NOT EDIT THIS FILE")); _ ← act closes;
  _ ← call_gcode_received c config_override;
  act (reply "Settings Stored to %s/ok" [a_text config_override_filename]).
(** [src/src/modules/communication/GcodeDispatch.cpp:401-412] GcodeDispatch::on_console_line_received *)
Definition override_file (c : Gcode.Gcode) (single_command possible_command : list Z) : D unit :=
  let arg := get_arguments (single_command ++ possible_command) in
  let arg := match arg with [] => chars "/sd/config-override" | _ => chars "/sd/config-override." ++ arg end in
  _ ← act (runs_shell (if m c =? 501 then chars "load_command" else chars "save_command") arg);
  act (reply "ok" []).
(** What is done with an M command before the modules, or instead.
    [src/src/modules/communication/GcodeDispatch.cpp:238-437] GcodeDispatch::on_console_line_received *)
Definition handle_m (c : Gcode.Gcode) (single_command possible_command : list Z) (sent_ok : bool) : D Step :=
  let continue : D Step := mret (over (next possible_command sent_ok)) in
  let return_ : D Step := mret (over leave) in
  if negb (has_m c) then mret (dispatches c)
  else if no_sd_card && ((m c =? 28) || ((500 <=? m c) && (m c <=? 504) && negb (m c =? 503))) then
    _ ← act (reply "ERROR: File storage is not available on this machine" []); continue
  else if m c =? 28 then _ ← start_upload single_command; continue
  else if m c =? 30 then
    grbl ← get (fun d => grbl_mode (out d));
    if grbl : bool then _ ← end_program; mret (dispatches c) else mret (dispatches c)
  else if m c =? 2 then _ ← end_program; mret (dispatches c)
  else if m c =? 112 then
    _ ← act (halt_reason MANUAL);
    _ ← act (tell_all "ERROR: ok Emergency Stop Requested - reset or M999 required to exit HALT state" []);
    _ ← call_on_halt false; return_
  else if m c =? 115 then _ ← act (reply "FIRMWARE_NAME:Smoothieware, ..." about); _ ← act (reply "ok" []); return_
  else if m c =? 117 then
    name ← or_fault (substr 4 single_command);
    _ ← act (display_message (name ++ possible_command)); _ ← act (reply "ok" []); return_
  else if m c =? 118 then _ ← tell_everyone c single_command possible_command; return_
  else if m c =? 1000 then _ ← pass_to_shell single_command possible_command; return_
  else if m c =? 400 then _ ← act wait_for_idle; _ ← act (reply "ok" []); return_
  else if m c =? 500 then _ ← store_settings c; continue
  else if (m c =? 501) || (m c =? 504) then _ ← override_file c single_command possible_command; return_
  else if m c =? 502 then
    _ ← act (removes config_override_filename);
    _ ← act (reply "config override file deleted %s, reboot needed/ok" [a_text config_override_filename]); continue
  else if m c =? 503 then
    _ ← (if no_sd_card then mret tt
         else if override_present then act (reply "; config override present: %s" [a_text config_override_filename])
         else act (reply "; No config override" []));
    mret (dispatches (c <| add_nl := true |>))
  else mret (dispatches c).
(** The modules' turn, and the answer.
    [src/src/modules/communication/GcodeDispatch.cpp:439-484] GcodeDispatch::on_console_line_received *)
Definition hand_out (c : Gcode.Gcode) (possible_command : list Z) (sent_ok : bool) : D unit :=
  c ← call_gcode_received c line_stream;
  grbl ← get (fun d => grbl_mode (out d));
  per_line ← get (fun d => ok_per_line (out d));
  if is_error c then
    _ ← act (reply (if grbl : bool then "error:" else "Error: ") []);
    _ ← act (match txt_after_ok c with [] => reply "unknown" [] | t => reply "%s" [a_text t] end);
    _ ← act (reply "ERROR: error in gcode. See MDI for more details" []);
    call_on_halt false
  else if sent_ok then mret tt
  else
    _ ← (if add_nl c then act (reply "" []) else mret tt);
    match txt_after_ok c with
    | [] => if per_line || grbl then match possible_command with [] => act (reply "ok" []) | _ => mret tt end
            else act (reply "ok" [])
    | t => act (reply "ok %s" [a_text t])
    end.
(** A command that is not being uploaded.
    [src/src/modules/communication/GcodeDispatch.cpp:161-485] GcodeDispatch::on_console_line_received *)
Definition run_command (first_char : Z) (single_command possible_command : list Z) (sent_ok : bool) : D Flow :=
  c ← lift (new_gcode single_command false line_);
  _ ← (if first_char =? 35 then _ ← lift (set_variable_value (command c)); mret tt else mret tt);
  stop ← when_halted c;
  if stop : bool then mret leave
  else
    r ← handle_g c possible_command sent_ok;
    match r with
    | None => mret leave
    | Some (c, possible_command, sent_ok) =>
        s ← handle_m c single_command possible_command sent_ok;
        match s with
        | over f => mret f
        | dispatches c => _ ← hand_out c possible_command sent_ok; mret (next possible_command sent_ok)
        end
    end.
(** A command of the stream that is uploading.
    [src/src/modules/communication/GcodeDispatch.cpp:487-517] GcodeDispatch::on_console_line_received *)
Definition upload_command (single_command : list Z) : D unit :=
  if starts (chars "M29") single_command then
    _ ← act closes;
    _ ← set_disp (fun d => d <| upload_fd := None |> <| uploading := false |> <| upload_filename := [] |> <| upload_stream := None |>);
    act (reply "Done saving file./ok" [])
  else
    fd ← get (fun d => upload_fd (disp d));
    match fd with
    | None => act (reply "ok" [])
    | Some content =>
        let text := single_command ++ [10] in
        _ ← act (writes text);
        if can_write content text then
          _ ← set_disp (fun d => d <| upload_fd := Some (content ++ text) |>); act (reply "ok" [])
        else
          _ ← act (reply "Error:error writing to file." []); _ ← act closes; set_disp (fun d => d <| upload_fd := None |>)
    end.
(** One turn of the loop over the line.
    [src/src/modules/communication/GcodeDispatch.cpp:125-519] GcodeDispatch::on_console_line_received *)
Definition turn (cmd_pos : option nat) (s : list Z) (sent_ok : bool) : D Flow :=
  let '(single_command, possible_command) := cut cmd_pos s in
  ours ← get (fun d => uploading (disp d) && bool_decide (upload_stream (disp d) = Some stream));
  if ours : bool then _ ← upload_command single_command; mret (next possible_command sent_ok)
  else run_command (hd 0 s) single_command possible_command sent_ok.
(** The loop: the fuel is the line's length ([each_turn_cuts]).
    [src/src/modules/communication/GcodeDispatch.cpp:125-520] GcodeDispatch::on_console_line_received *)
Fixpoint commands_loop (n : nat) (cmd_pos : option nat) (s : list Z) (sent_ok : bool) : D unit :=
  match s with
  | [] => mret tt
  | _ =>
      match n with
      | O => no_turns
      | S n =>
          let pos := next_pos cmd_pos s in
          f ← turn pos s sent_ok;
          match f with
          | next rest sent_ok => commands_loop n pos rest sent_ok
          | leave => mret tt
          end
      end
  end.
(** From [try_again]. A line of coordinates alone is given the last movement
    command and tried once more: two tries are enough ([total_try_again]).
    [src/src/modules/communication/GcodeDispatch.cpp:70-542] GcodeDispatch::on_console_line_received *)
Fixpoint try_again (n : nat) (possible_command : list Z) {struct n} : D unit :=
  let first_char := hd 0 possible_command in
  if (first_char =? 36) || islower first_char then mret tt
  else if elem (chars "GMTSN#") first_char then
    let s := prepared possible_command in commands_loop (length s) None s false
  else if elem (59 :: 40 :: [10; 13]) first_char then act (reply "ok" [])
  else
    match find_first_of (chars "XYZAF") possible_command 0 with
    | Some i =>
        if (i =? 0)%nat || (first_char =? 32) then
          modal ← get (fun d => modal_group_1 (disp d));
          match n with
          | O => no_turns
          | S n => try_again n ((if hd 0 (drop i possible_command) =? 70 then chars "G1 " else 71 :: decimal_text modal ++ [32]) ++ possible_command)
          end
        else act (reply "ok - ignore: [%s]" [a_text possible_command])
    | None => act (reply "ok - ignore: [%s]" [a_text possible_command])
    end.
(** [src/src/modules/communication/GcodeDispatch.cpp:56-543] GcodeDispatch::on_console_line_received *)
Definition on_console_line_received (message : list Z) : D unit :=
  match message with
  | [] => act (reply "ok" [])
  | _ => try_again 2 (ltrim message)
  end.
End Line.
End Dispatch.

(** ** The line is cut into commands, and the loop ends *)

(** The commands of a prepared line. *)
Fixpoint commands (n : nat) (cmd_pos : option nat) (s : list Z) : list (list Z) :=
  match n, s with
  | _, [] | O, _ => []
  | S n, _ => let pos := next_pos cmd_pos s in let '(c, rest) := cut pos s in c :: commands n pos rest
  end.
Definition line_commands (s : list Z) : list (list Z) := commands (length s) None s.
Definition begins_word (s : list Z) : Prop := elem (chars "GMST") (hd 0 s) = true.
(** What a turn finds: the first, or a word that begins a command. *)
Definition turn_ready (cmd_pos : option nat) (s : list Z) : Prop := cmd_pos = None \/ begins_word s.
Lemma find_from_holds f s i : find_from f s = Some i -> f (hd 0 (drop i s)) = true.
Proof.
  revert i. induction s as [|c s IH]; intros i; cbn; [done|]. destruct (f c) eqn:E; [by intros [= <-]|].
  destruct (find_from f s); [|done]. intros [= <-]. cbn. by apply IH.
Qed.
Lemma find_first_of_holds set s pos i : find_first_of set s pos = Some i -> elem set (hd 0 (drop i s)) = true.
Proof.
  unfold find_first_of. destruct (find_from _ _) as [k|] eqn:E; [|done]. intros [= <-]. apply find_from_holds in E. by rewrite drop_drop in E.
Qed.
Lemma elem_sub p q c : (forall x, x ∈ p -> x ∈ q) -> elem p c = true -> elem q c = true.
Proof.
  unfold elem. intros Hs. rewrite !existsb_exists. intros (x & Hx & E). exists x. split; [|done].
  apply list_elem_of_In, Hs. by apply list_elem_of_In.
Qed.
Definition words_from (pos : nat) (s : list Z) (i : nat) : Prop := (pos <= i < length s)%nat /\ begins_word (drop i s).
Lemma found_word set s pos i : (forall x, x ∈ set -> x ∈ chars "GMST") -> find_first_of set s pos = Some i -> words_from pos s i.
Proof. intros Hs E. split; [by eapply find_first_of_bound|]. eapply elem_sub; [exact Hs|by eapply find_first_of_holds]. Qed.
Lemma next_pos_word cmd_pos s i : turn_ready cmd_pos s -> next_pos cmd_pos s = Some i -> words_from 2 s i.
Proof.
  assert (Hsub : forall set : list Z, bool_decide (Forall (fun x => x ∈ chars "GMST") set) = true -> forall x, x ∈ set -> x ∈ chars "GMST").
  { intros set Hs x Hx. apply bool_decide_eq_true in Hs. rewrite List.Forall_forall in Hs. by apply Hs, list_elem_of_In. }
  intros Hr. unfold next_pos. destruct (hd 0 s =? 71) eqn:EG; [case_match; apply found_word, Hsub; reflexivity|].
  destruct (hd 0 s =? 77) eqn:EM; [apply found_word, Hsub; reflexivity|].
  destruct ((hd 0 s =? 84) || (hd 0 s =? 83)) eqn:ET.
  - destruct (find_first_of (chars "M") s 2) as [k|] eqn:Ek; [|apply found_word, Hsub; reflexivity].
    intros E. apply (found_word (chars "GMST") s (k + 2)) in E as [Hi Hw]; [|done]. split; [lia|done].
  - destruct Hr as [->|Hw]; [done|]. exfalso. unfold begins_word in Hw. set (c := hd 0 s) in *. clearbody c.
    change ((c =? 71) || ((c =? 77) || ((c =? 83) || ((c =? 84) || false))) = true) in Hw. lia.
Qed.
Lemma cut_app pos s : fst (cut pos s) ++ snd (cut pos s) = s.
Proof. destruct pos; cbn; [apply take_drop|apply app_nil_r]. Qed.
Lemma each_turn_cuts cmd_pos s : s <> [] -> turn_ready cmd_pos s -> let p := cut (next_pos cmd_pos s) s in
  fst p <> [] /\ (length (snd p) < length s)%nat /\ turn_ready (next_pos cmd_pos s) (snd p) /\ (snd p <> [] -> begins_word (snd p) /\ (2 <= length (fst p))%nat).
Proof.
  intros Hs Hr. assert (Hl : (0 < length s)%nat) by (destruct s; cbn; [done|lia]).
  destruct (next_pos cmd_pos s) as [i|] eqn:E; cbn [cut fst snd].
  - apply next_pos_word in E as [Hi Hw]; [|done].
    assert (Ht : length (take i s) = i) by (rewrite length_take; lia). rewrite length_drop, Ht.
    split; [by intros E; rewrite E in Ht; cbn in Ht; lia|]. split; [lia|]. split; [by right|]. intros _. split; [done|lia].
  - split; [done|]. split; [done|]. split; [by left|done].
Qed.
Lemma find_from_none f s : match find_from f s with Some i => forallb (fun c => negb (f c)) (take i s) | None => forallb (fun c => negb (f c)) s end = true.
Proof.
  induction s as [|c s IH]; [done|]. cbn [find_from]. destruct (f c) eqn:E; [done|].
  destruct (find_from f s); cbn [option_map take forallb]; by rewrite E.
Qed.
(** An [M] command holds no further [G] or [M]. *)
Definition one_m (c : list Z) : bool := negb (hd 0 c =? 77) || forallb (fun x => negb (elem (chars "GM") x)) (drop 2 c).
Lemma next_pos_m cmd_pos s : hd 0 s = 77 -> next_pos cmd_pos s = find_first_of (chars "GM") s 2.
Proof. intros E. unfold next_pos. by rewrite E. Qed.
Lemma cut_one_m cmd_pos s : turn_ready cmd_pos s -> one_m (fst (cut (next_pos cmd_pos s) s)) = true.
Proof.
  intros Hr. unfold one_m. destruct (Z.eqb_spec (hd 0 (fst (cut (next_pos cmd_pos s) s))) 77) as [Hm|]; [|done]. cbn [negb orb].
  pose proof (next_pos_word cmd_pos s) as Hw. assert (Hs : hd 0 s = 77).
  { destruct (next_pos cmd_pos s) as [i|]; [|exact Hm]. destruct (Hw i Hr eq_refl) as [Hi _]. destruct s, i; cbn in *; (done || lia). }
  rewrite (next_pos_m _ _ Hs). unfold find_first_of. pose proof (find_from_none (elem (chars "GM")) (drop 2 s)) as Hn.
  destruct (find_from _ _) as [k|]; cbn [option_map cut fst]; [|exact Hn].
  rewrite skipn_firstn_comm. by replace (2 + k - 2)%nat with k by lia.
Qed.
Lemma commands_spec n cmd_pos s : (length s <= n)%nat -> turn_ready cmd_pos s ->
  concat (commands n cmd_pos s) = s /\ Forall (fun c => c <> []) (commands n cmd_pos s) /\ Forall begins_word (tail (commands n cmd_pos s)) /\
  (begins_word s -> Forall begins_word (commands n cmd_pos s)) /\ Forall (fun c => one_m c = true) (commands n cmd_pos s).
Proof.
  revert cmd_pos s. induction n as [|n IH]; intros cmd_pos s Hl Hr; [by destruct s; [|cbn in Hl; lia]|].
  destruct s as [|c s]; [done|]. cbn [commands]. set (t := c :: s) in *.
  destruct (each_turn_cuts cmd_pos t ltac:(done) Hr) as (Hne & Hlt & Hr' & Hw). pose proof (cut_app (next_pos cmd_pos t) t) as Ha. pose proof (cut_one_m cmd_pos t Hr) as H1m.
  destruct (cut (next_pos cmd_pos t) t) as [c1 rest]. cbn [fst snd] in *. destruct (IH (next_pos cmd_pos t) rest ltac:(lia) Hr') as (H1 & H2 & H3 & H4 & H5).
  cbn [concat tail]. rewrite H1. split; [done|]. split; [by constructor|].
  assert (Hall : Forall begins_word (commands n (next_pos cmd_pos t) rest)) by (destruct rest; [by destruct n|by apply H4, Hw]).
  split; [done|]. split; [|by constructor]. intros Hb. constructor; [|done]. destruct c1; [done|]. rewrite <- Ha in Hb. exact Hb.
Qed.
(** Nothing of a line is lost, and nothing is done twice. The commands a
    prepared line is cut into are, one after the other, that line; none is empty;
    each but the first begins with one of [G], [M], [S] and [T]; and an [M]
    command holds no second command. *)
Theorem line_cut_into_commands s :
  concat (line_commands s) = s /\ Forall (fun c => c <> []) (line_commands s) /\ Forall begins_word (tail (line_commands s)) /\
  Forall (fun c => one_m c = true) (line_commands s) /\ (length (line_commands s) <= length s)%nat.
Proof.
  destruct (commands_spec (length s) None s) as (H1 & H2 & H3 & _ & H4); [done|by left|]. split; [exact H1|]. split; [exact H2|]. split; [exact H3|].
  split; [exact H4|].
  rewrite <- H1 at 2. fold (line_commands s) in *. clear H1 H3 H4. induction H2 as [|c l Hc _ IH]; [done|]. cbn [concat length].
  rewrite length_app. destruct c; [done|]. cbn [length]. lia.
Qed.

(** *** Fuel *)
Definition total {A} (c : D A) : Prop := forall d, c d <> no_fuel.
Lemma total_ret {A} (x : A) : total (mret x).
Proof. done. Qed.
Lemma total_bind {A B} (c : D A) (f : A -> D B) : total c -> (forall x, total (f x)) -> total (c ≫= f).
Proof. intros Hc Hf d. unfold mbind, D_bind. specialize (Hc d). destruct (c d); [apply Hf|done|done]. Qed.
Lemma total_act a : total (act a).
Proof. done. Qed.
Lemma total_get {A} (f : State -> A) : total (get f).
Proof. done. Qed.
Lemma total_set_disp f : total (set_disp f).
Proof. done. Qed.
Lemma total_set_out f : total (set_out f).
Proof. done. Qed.
Lemma total_or_fault {A} (x : option A) : total (or_fault x).
Proof. intros d. by destruct x. Qed.
Lemma total_step_out {A} (f : Outside -> A * Outside) : total (step_out f).
Proof. intros d. unfold step_out. by destruct (f (out d)). Qed.
Lemma total_lift {A} (c : M A) : total (lift c).
Proof. intros d. unfold lift. by destruct (c _) as [[? ?]|]. Qed.
Create HintDb total.
#[export] Hint Resolve total_ret total_act total_get total_set_disp total_set_out total_or_fault total_step_out total_lift : total.
(** Goes through a computation's binds and cases. *)
Ltac totals := repeat first [progress (auto with total nocore) | apply total_bind; [|intros ?] | case_match | intros ?].

(** What holds of whatever is returned. *)
Definition gives {A} (c : D A) (Q : A -> Prop) : Prop := forall d x d', c d = returned x d' -> Q x.
Lemma gives_any {A} (c : D A) : gives c (fun _ => True).
Proof. done. Qed.
Lemma gives_ret {A} (x : A) (Q : A -> Prop) : Q x -> gives (mret x) Q.
Proof. intros Hx d y d' E. unfold mret, D_ret in E. by injection E as <- _. Qed.
Lemma gives_bind {A B} (c : D A) (f : A -> D B) Q (R : B -> Prop) : gives c Q -> (forall x, Q x -> gives (f x) R) -> gives (c ≫= f) R.
Proof.
  intros Hc Hf d y d' E. unfold mbind, D_bind in E. destruct (c d) as [x d1| |] eqn:Ec; try done. by eapply Hf; [eapply Hc|].
Qed.
Ltac gives_case := match goal with |- gives ?c _ => match c with | (if ?b then _ else _) => destruct b | (match ?x with _ => _ end) => destruct x end end.
Ltac givess := repeat first [apply gives_ret; done | gives_case | eapply gives_bind; [apply gives_any|intros ? _]].

Section Totality.
Context `{CLib}.
Context (no_sd_card : bool) (receive : Gcode.Gcode -> Outside -> Gcode.Gcode * Outside) (can_open : list Z -> bool)
  (can_write : list Z -> list Z -> bool) (override_present : bool) (in_shell : list Z -> list Z -> bool) (about : list Arg) (stream line_ : Z).
Lemma total_call_gcode_received c t : total (call_gcode_received receive c t).
Proof. unfold call_gcode_received. totals. Qed.
#[local] Hint Resolve total_call_gcode_received : total.
Lemma total_end_program : total (end_program receive).
Proof. unfold end_program. totals. Qed.
Lemma total_start_upload c : total (start_upload can_open stream c).
Proof. unfold start_upload. totals. Qed.
Lemma total_tell_everyone c s p : total (tell_everyone c s p).
Proof. unfold tell_everyone. cbv zeta. totals. Qed.
Lemma total_call_on_halt b : total (call_on_halt b).
Proof. unfold call_on_halt. totals. Qed.
#[local] Hint Resolve total_end_program total_start_upload total_tell_everyone total_call_on_halt : total.
Lemma total_pass_to_shell s p : total (pass_to_shell in_shell s p).
Proof. unfold pass_to_shell. cbv zeta. totals. Qed.
Lemma total_store_settings c : total (store_settings receive c).
Proof. unfold store_settings. totals. Qed.
Lemma total_override_file c s p : total (override_file c s p).
Proof. unfold override_file. cbv zeta. totals. Qed.
#[local] Hint Resolve total_pass_to_shell total_store_settings total_override_file : total.
Lemma total_handle_m c s p ok : total (handle_m no_sd_card receive can_open override_present in_shell about stream c s p ok).
Proof. unfold handle_m. cbv zeta. totals. Qed.
Lemma total_when_halted c : total (when_halted c).
Proof. unfold when_halted. totals. Qed.
Lemma total_in_machine_coordinates c p : total (in_machine_coordinates c p).
Proof. unfold in_machine_coordinates. totals. Qed.
#[local] Hint Resolve total_handle_m total_when_halted total_in_machine_coordinates : total.
Lemma total_handle_g c p ok : total (handle_g c p ok).
Proof. unfold handle_g. totals. Qed.
Lemma total_hand_out c p ok : total (hand_out receive c p ok).
Proof. unfold hand_out. totals. Qed.
#[local] Hint Resolve total_handle_g total_hand_out : total.
Lemma total_run_command f s p ok : total (run_command no_sd_card receive can_open override_present in_shell about stream line_ f s p ok).
Proof. unfold run_command. totals. Qed.
Lemma total_upload_command s : total (upload_command can_write s).
Proof. unfold upload_command. cbv zeta. totals. Qed.
#[local] Hint Resolve total_run_command total_upload_command : total.
Lemma total_turn pos s ok : total (turn no_sd_card receive can_open can_write override_present in_shell about stream line_ pos s ok).
Proof. unfold turn. totals. Qed.
Definition rest_of (p : list Z) (rest : list Z) : Prop := rest = p \/ rest = [].
Lemma handle_g_gives c p ok : gives (handle_g c p ok) (fun r => match r with Some (_, q, _) => rest_of p q | None => True end).
Proof.
  unfold handle_g. destruct (has_g c); [|by apply gives_ret; left].
  eapply gives_bind with (Q := fun r => match r with Some (_, q, _) => rest_of p q | None => True end).
  - destruct (g c =? 53); [|givess; apply gives_ret; by left].
    eapply gives_bind with (Q := fun r => match r with Some (_, q) => q = [] | None => True end).
    + unfold in_machine_coordinates. givess.
    + intros [[c' q]|] Hq; [apply gives_ret; right; exact Hq|by apply gives_ret].
  - intros [[[c' q] o]|] Hq; [|by apply gives_ret]. eapply gives_bind; [apply gives_any|intros ? _; by apply gives_ret].
Qed.
Lemma handle_m_gives c s p ok : gives (handle_m no_sd_card receive can_open override_present in_shell about stream c s p ok)
  (fun r => match r with over (next q _) => q = p | _ => True end).
Proof. unfold handle_m. cbv zeta. givess. Qed.
Lemma turn_gives pos s ok : gives (turn no_sd_card receive can_open can_write override_present in_shell about stream line_ pos s ok)
  (fun f => match f with next q _ => rest_of (snd (cut pos s)) q | leave => True end).
Proof.
  unfold turn. destruct (cut pos s) as [c1 p]. cbn [snd]. eapply gives_bind; [apply gives_any|intros [] _].
  - eapply gives_bind; [apply gives_any|intros ? _]. apply gives_ret. by left.
  - unfold run_command. do 2 (eapply gives_bind; [apply gives_any|intros ? _]). eapply gives_bind; [apply gives_any|intros [] _]; [by apply gives_ret|].
    eapply gives_bind; [apply handle_g_gives|]. intros [[[c q] o]|] Hq; [|by apply gives_ret].
    eapply gives_bind; [apply handle_m_gives|]. intros [c'|[q' o'|]] Hq'; [|apply gives_ret; by rewrite Hq'|by apply gives_ret].
    eapply gives_bind; [apply gives_any|intros ? _]. by apply gives_ret.
Qed.
Lemma rest_ready pos s q : s <> [] -> turn_ready pos s -> rest_of (snd (cut (next_pos pos s) s)) q ->
  (length q < length s)%nat /\ (q = [] \/ turn_ready (next_pos pos s) q).
Proof.
  intros Hs Hr Hq. destruct (each_turn_cuts pos s Hs Hr) as (_ & Hl & Hr' & _). destruct Hq as [->| ->]; [split; [done|by right]|].
  split; [destruct s; cbn; [done|lia]|by left].
Qed.
Lemma total_commands_loop n pos s ok : (length s <= n)%nat -> s = [] \/ turn_ready pos s ->
  total (commands_loop no_sd_card receive can_open can_write override_present in_shell about stream line_ n pos s ok).
Proof.
  revert pos s ok. induction n as [|n IH]; intros pos s ok Hl Hr; [by destruct s; [|cbn in Hl; lia]|].
  destruct s as [|c s]; [done|]. destruct Hr as [Hr|Hr]; [done|]. cbn [commands_loop]. set (t := c :: s) in *.
  intros d. unfold mbind, D_bind. pose proof (total_turn (next_pos pos t) t ok d) as Ht.
  destruct (turn _ _ _ _ _ _ _ _ _ (next_pos pos t) t ok d) as [f d1| |] eqn:E; [|done|done]. destruct f as [q o|]; [|done].
  apply turn_gives in E. destruct (rest_ready pos t q ltac:(done) Hr E) as [Hlt Hq]. apply IH; [lia|done].
Qed.
Lemma total_try_again n s : (1 <= n)%nat -> total (try_again no_sd_card receive can_open can_write override_present in_shell about stream line_ n s).
Proof.
  assert (Hg : forall n s, elem (chars "GMTSN#") (hd 0 s) = true ->
    total (try_again no_sd_card receive can_open can_write override_present in_shell about stream line_ n s)).
  { intros k t Hk. assert (Hhd : (hd 0 t =? 36) || islower (hd 0 t) = false).
    { set (c := hd 0 t) in *. clearbody c. change ((c =? 71) || ((c =? 77) || ((c =? 84) || ((c =? 83) || ((c =? 78) || ((c =? 35) || false))))) = true) in Hk.
      unfold islower. lia. }
    assert (Hloop : total (let s := prepared t in commands_loop no_sd_card receive can_open can_write override_present in_shell about stream line_ (length s) None s false)).
    { apply total_commands_loop; [done|right; by left]. }
    destruct k; cbn [try_again]; by rewrite Hhd, Hk. }
  intros Hn. destruct n as [|n]; [lia|]. cbn [try_again]. case_match; [apply total_ret|].
  case_match; [apply total_commands_loop; [done|right; by left]|]. case_match; [apply total_act|].
  case_match; [|apply total_act]. case_match; [|apply total_act]. apply total_bind; [apply total_get|]. intros modal. apply Hg. by case_match.
Qed.
(** C40: Dispatching a line ends. Whatever the line, the dispatcher's state, the
    modules' behaviour and the file system's, the loop over the line's commands
    stops, each turn taking at least one character; and a line of coordinates alone
    is tried at most twice. *)
Theorem line_dispatched message d :
  on_console_line_received no_sd_card receive can_open can_write override_present in_shell about stream line_ message d <> no_fuel.
Proof. unfold on_console_line_received. destruct message; [done|]. apply total_try_again. lia. Qed.
End Totality.

(** ** While the machine is halted *)

Definition allowed_act (a : Act) : Prop := match a with receives c _ => is_allowed_mcode (m c) = true | _ => True end.
Section Halted.
Context `{CLib}.
Context (no_sd_card : bool) (receive : Gcode.Gcode -> Outside -> Gcode.Gcode * Outside) (can_open : list Z -> bool)
  (can_write : list Z -> list Z -> bool) (override_present : bool) (in_shell : list Z -> list Z -> bool) (about : list Arg) (stream line_ : Z).
(** No module takes back a halt on its own. *)
Context (receive_keeps_halt : forall c o, halted o = true -> halted (snd (receive c o)) = true).
Definition safe {A} (c : D A) : Prop := forall d x d', halted (out d) = true -> c d = returned x d' ->
  exists l, log d' = log d ++ l /\ Forall allowed_act l /\ halted (out d') = true.
Lemma safe_ret {A} (x : A) : safe (mret x).
Proof. intros d y d' Hh [= _ <-]. exists []. by rewrite app_nil_r. Qed.
Lemma safe_bind {A B} (c : D A) (f : A -> D B) (Q : A -> Prop) : safe c -> gives c Q -> (forall x, Q x -> safe (f x)) -> safe (c ≫= f).
Proof.
  intros Hc Hg Hf d y d' Hh E. unfold mbind, D_bind in E. destruct (c d) as [x d1| |] eqn:Ec; try done.
  destruct (Hc _ _ _ Hh Ec) as (l1 & E1 & H1 & Hh1). destruct (Hf x (Hg _ _ _ Ec) _ _ _ Hh1 E) as (l2 & E2 & H2 & Hh2).
  exists (l1 ++ l2). rewrite E2, E1, app_assoc. split; [done|]. split; [by apply Forall_app|done].
Qed.
Lemma safe_then {A B} (c : D A) (f : A -> D B) : safe c -> (forall x, safe (f x)) -> safe (c ≫= f).
Proof. intros Hc Hf. apply (safe_bind _ _ (fun _ => True)); [done|apply gives_any|done]. Qed.
Lemma safe_act a : allowed_act a -> safe (act a).
Proof. intros Ha d y d' Hh [= _ <-]. exists [a]. split; [done|]. split; [by constructor|done]. Qed.
Lemma safe_get {A} (f : State -> A) : safe (get f).
Proof. intros d y d' Hh [= _ <-]. exists []. by rewrite app_nil_r. Qed.
Lemma safe_set_disp f : safe (set_disp f).
Proof. intros d y d' Hh [= _ <-]. exists []. by rewrite app_nil_r. Qed.
Lemma safe_or_fault {A} (x : option A) : safe (or_fault x).
Proof. intros d y d' Hh E. destruct x; [|done]. injection E as _ <-. exists []. by rewrite app_nil_r. Qed.
Lemma safe_lift {A} (c : M A) : safe (lift c).
Proof.
  intros d y d' Hh E. unfold lift in E. destruct (c _) as [[x w]|]; [|done]. injection E as _ <-. eexists. split; [done|]. cbn. rewrite Hh.
  split; [|done]. apply Forall_map. by apply Forall_true.
Qed.
Lemma safe_halt : safe (call_on_halt false).
Proof.
  intros d y d' Hh E. injection E as _ <-. exists [on_halt false]. split; [done|]. split; [by constructor|done].
Qed.
Lemma safe_call c t : is_allowed_mcode (m c) = true -> safe (call_gcode_received receive c t).
Proof.
  intros Hm. apply safe_then; [by apply safe_act|]. intros _ d y d' Hh E. unfold step_out in E. destruct (receive c (out d)) as [c' o] eqn:Er.
  injection E as _ <-. exists []. rewrite app_nil_r. split; [done|]. split; [done|]. cbn. pose proof (receive_keeps_halt c _ Hh) as Hk. by rewrite Er in Hk.
Qed.
Create HintDb safe.
#[local] Hint Resolve safe_ret safe_get safe_set_disp safe_or_fault safe_lift safe_halt safe_call : safe.
#[local] Hint Extern 1 (safe (act _)) => (apply safe_act; repeat case_match; done) : safe.
Ltac safe_case := match goal with |- safe ?c => match c with | (if ?b then _ else _) => destruct b | (match ?x with _ => _ end) => destruct x end end.
Ltac safes := repeat first [progress (auto with safe nocore) | safe_case | apply safe_then; [|intros ?]].
Lemma safe_end_program : safe (end_program receive).
Proof.
  assert (Hn : forall text k, (forall w, exists c, new_gcode text true 0 w = Some (c, w) /\ m c = k) -> gives (lift (new_gcode text true 0)) (fun c => m c = k)).
  { intros text k Ht d x d' E. unfold lift in E. destruct (Ht (mk_world (vars (out d)) [])) as (c & Ec & Hm). rewrite Ec in E. by injection E as <- _. }
  unfold end_program. apply safe_then; [apply safe_set_disp|]. intros _.
  eapply safe_bind; [apply safe_lift|apply (Hn _ 5)|]; [intros w; eexists; by split|]. intros c1 H1.
  apply safe_then; [apply safe_call; by rewrite H1|]. intros _.
  eapply safe_bind; [apply safe_lift|apply (Hn _ 9)|]; [intros w; eexists; by split|]. intros c2 H2.
  apply safe_then; [apply safe_call; by rewrite H2|]. intros _. apply safe_ret.
Qed.
#[local] Hint Resolve safe_end_program : safe.
Lemma safe_handle_m c s p ok : is_allowed_mcode (m c) = true ->
  safe (handle_m no_sd_card receive can_open override_present in_shell about stream c s p ok).
Proof.
  intros Hm. unfold handle_m, start_upload, tell_everyone, pass_to_shell, store_settings, override_file. cbv zeta. safes.
Qed.
Lemma handle_m_keeps_number c s p ok :
  gives (handle_m no_sd_card receive can_open override_present in_shell about stream c s p ok)
    (fun r => match r with dispatches c' => m c' = m c | _ => True end).
Proof. unfold handle_m. cbv zeta. givess. Qed.
Lemma safe_hand_out c p ok : is_allowed_mcode (m c) = true -> safe (hand_out receive c p ok).
Proof. intros Hm. unfold hand_out. safes. Qed.
Lemma safe_handle_g c p ok : g c <> 53 -> safe (handle_g c p ok) /\
  gives (handle_g c p ok) (fun r => exists o, r = Some (c, p, o)).
Proof.
  intros Hg. unfold handle_g. rewrite (proj2 (Z.eqb_neq _ _) Hg). split; [safes|].
  destruct (has_g c); [|apply gives_ret; by eexists].
  eapply gives_bind with (Q := fun r => exists o, r = Some (c, p, o)); [destruct ((g c =? 1) && negb ok); givess; apply gives_ret; by eexists|].
  intros r [o ->]. eapply gives_bind; [apply gives_any|intros ? _; apply gives_ret; by eexists].
Qed.
Lemma halted_filter c d b d' : halted (out d) = true -> when_halted c d = returned b d' ->
  exists l, log d' = log d ++ l /\ Forall allowed_act l /\
    if b then halted (out d') = true \/ on_halt true ∈ l else halted (out d') = true /\ is_allowed_mcode (m c) = true.
Proof.
  intros Hh E. unfold when_halted, mbind, D_bind, get in E. rewrite Hh in E. destruct (has_m c && (m c =? 999)).
  - injection E as <- <-. exists [on_halt true; reply "WARNING: After HALT you should HOME as position is currently unknown" []; reply "ok" []].
    cbn. rewrite <- !app_assoc. split; [done|]. split; [by repeat constructor|right; set_solver].
  - destruct (is_allowed_mcode (m c)) eqn:Ea; cbn [negb] in E.
    + injection E as <- <-. exists []. rewrite app_nil_r. by repeat split.
    + destruct (grbl_mode (out d)); injection E as <- <-; eexists; (split; [done|]); (split; [by repeat constructor|by left]).
Qed.
(** What a turn does: it keeps the halt, or ends the line having lifted it. *)
Definition turn_safe (c : D Flow) : Prop := forall d f d', halted (out d) = true -> c d = returned f d' ->
  exists l, log d' = log d ++ l /\ Forall allowed_act l /\ (halted (out d') = true \/ f = leave /\ on_halt true ∈ l).
Lemma safe_turn c : safe c -> turn_safe c.
Proof. intros Hc d f d' Hh E. destruct (Hc _ _ _ Hh E) as (l & H1 & H2 & H3). exists l. split; [done|]. split; [done|by left]. Qed.
Lemma turn_safe_then {A} (c : D A) (f : A -> D Flow) Q : safe c -> gives c Q -> (forall x, Q x -> turn_safe (f x)) -> turn_safe (c ≫= f).
Proof.
  intros Hc Hg Hf d y d' Hh E. unfold mbind, D_bind in E. destruct (c d) as [x d1| |] eqn:Ec; try done.
  destruct (Hc _ _ _ Hh Ec) as (l1 & E1 & H1 & Hh1). destruct (Hf x (Hg _ _ _ Ec) _ _ _ Hh1 E) as (l2 & E2 & H2 & Hh2).
  exists (l1 ++ l2). rewrite E2, E1, app_assoc. split; [done|]. split; [by apply Forall_app|]. destruct Hh2 as [?|[? ?]]; [by left|right]. set_solver.
Qed.
(** A command whose number is not that of machine coordinates. *)
Definition not_g53 (single : list Z) : Prop := forall w c w', new_gcode single false line_ w = Some (c, w') -> g c <> 53.
Lemma run_command_safe first single p ok : not_g53 single ->
  turn_safe (run_command no_sd_card receive can_open override_present in_shell about stream line_ first single p ok).
Proof.
  intros Hn. unfold run_command. apply (turn_safe_then _ _ (fun c => g c <> 53)); [apply safe_lift| |].
  { intros d x d' E. unfold lift in E. destruct (new_gcode _ _ _ _) as [[y w]|] eqn:En; [|done]. injection E as <- _. by eapply Hn. }
  intros c Hg. apply (turn_safe_then _ _ (fun _ => True)); [safes|apply gives_any|]. intros _ _ d f d' Hh E.
  unfold mbind at 1, D_bind at 1 in E. destruct (when_halted c d) as [b d1| |] eqn:Ew; try done.
  destruct (halted_filter _ _ _ _ Hh Ew) as (l1 & E1 & H1 & Hb). destruct b.
  - injection E as <- <-. exists l1. split; [done|]. split; [done|]. destruct Hb as [?|?]; [by left|by right].
  - destruct Hb as [Hh1 Hm]. destruct (safe_handle_g c p ok Hg) as [Hs1 Hs2].
    assert (Hrest : safe (r ← handle_g c p ok; match r with None => mret leave | Some (c, p, o) =>
        s ← handle_m no_sd_card receive can_open override_present in_shell about stream c single p o;
        match s with over f => mret f | dispatches c => _ ← hand_out receive c p o; mret (next p o) end end)).
    { eapply safe_bind; [exact Hs1|exact Hs2|]. intros r [o ->]. eapply safe_bind; [by apply safe_handle_m|apply handle_m_keeps_number|].
      intros [c'|f'] Hc'; [|apply safe_ret]. apply safe_then; [apply safe_hand_out; by rewrite Hc'|intros _; apply safe_ret]. }
    destruct (Hrest _ _ _ Hh1 E) as (l2 & E2 & H2 & Hh2). exists (l1 ++ l2). rewrite E2, E1, app_assoc. split; [done|]. split; [by apply Forall_app|by left].
Qed.
Lemma turn_halted pos s ok : not_g53 (fst (cut pos s)) ->
  turn_safe (turn no_sd_card receive can_open can_write override_present in_shell about stream line_ pos s ok).
Proof.
  intros Hn. unfold turn. destruct (cut pos s) as [c p]. apply (turn_safe_then _ _ (fun _ => True)); [safes|apply gives_any|].
  intros [] _; [|by apply run_command_safe]. apply safe_turn. unfold upload_command. cbv zeta. safes.
Qed.
(** Of a command that is not in machine coordinates, what is left of the line is
    left. *)
Lemma handle_g_rest c p ok : g c <> 53 -> gives (handle_g c p ok) (fun r => exists o, r = Some (c, p, o)).
Proof. intros Hg. by apply safe_handle_g. Qed.
Lemma turn_rest pos s ok : not_g53 (fst (cut pos s)) ->
  gives (turn no_sd_card receive can_open can_write override_present in_shell about stream line_ pos s ok)
    (fun f => match f with next q _ => q = snd (cut pos s) | leave => True end).
Proof.
  intros Hn. unfold turn. destruct (cut pos s) as [c1 p]. cbn [fst snd] in *. eapply gives_bind; [apply gives_any|intros [] _].
  - eapply gives_bind; [apply gives_any|intros ? _]. by apply gives_ret.
  - unfold run_command. eapply gives_bind with (Q := fun c => g c <> 53).
    { intros d x d' E. unfold lift in E. destruct (new_gcode _ _ _ _) as [[y w]|] eqn:En; [|done]. injection E as <- _. by eapply Hn. }
    intros c Hg. eapply gives_bind; [apply gives_any|intros ? _]. eapply gives_bind; [apply gives_any|intros [] _]; [by apply gives_ret|].
    eapply gives_bind; [by apply handle_g_rest|]. intros r [o ->].
    eapply gives_bind; [apply handle_m_gives|]. intros [c'|[q' o'|]] Hq'; [|by apply gives_ret|by apply gives_ret].
    eapply gives_bind; [apply gives_any|intros ? _]. by apply gives_ret.
Qed.
(** C17: What a halted machine lets through. While it is halted, and no module takes
    the halt back, a line's commands hand the modules nothing but G-codes whose [M]
    number is on the list of those allowed, in whatever mode and with whatever
    state of an upload; and the machine stays halted, unless an [M999] is met,
    which lifts the halt and ends the line. The exception is [G53], which takes the
    rest of the line along unseen. *)
Theorem halted_line_lets_through n pos s ok d d' :
  halted (out d) = true -> turn_ready pos s -> Forall not_g53 (commands n pos s) ->
  commands_loop no_sd_card receive can_open can_write override_present in_shell about stream line_ n pos s ok d = returned tt d' ->
  exists l, log d' = log d ++ l /\ Forall allowed_act l /\ (halted (out d') = true \/ on_halt true ∈ l).
Proof using receive_keeps_halt.
  revert pos s ok d. induction n as [|n IH]; intros pos s ok d Hh Hr Hc E.
  - destruct s; [|done]. injection E as <-. exists []. rewrite app_nil_r. split; [done|]. split; [done|by left].
  - destruct s as [|c s]; [injection E as <-; exists []; rewrite app_nil_r; split; [done|]; split; [done|by left]|].
    cbn [commands_loop commands] in *. set (t := c :: s) in *. set (p := next_pos pos t) in *.
    destruct (each_turn_cuts pos t ltac:(done) Hr) as (_ & _ & Hr' & _). fold p in Hr'.
    assert (Hcut : not_g53 (fst (cut p t)) /\ Forall not_g53 (commands n p (snd (cut p t)))) by (destruct (cut p t); by inversion Hc).
    destruct Hcut as [Hg Hc']. unfold mbind, D_bind in E. destruct (turn _ _ _ _ _ _ _ _ _ p t ok d) as [f d1| |] eqn:Et; try done.
    destruct (turn_halted p t ok Hg _ _ _ Hh Et) as (l1 & E1 & H1 & Hf). pose proof (turn_rest p t ok Hg _ _ _ Et) as Hq.
    destruct f as [q o|]; [|injection E as <-; exists l1; split; [done|]; split; [done|]; destruct Hf as [?|[_ ?]]; [by left|by right]].
    subst q. destruct Hf as [Hh1|[? _]]; [|done]. destruct (IH _ _ _ _ Hh1 Hr' Hc' E) as (l2 & E2 & H2 & Hh2).
    exists (l1 ++ l2). rewrite E2, E1, app_assoc. split; [done|]. split; [by apply Forall_app|]. destruct Hh2 as [?|?]; [by left|right; set_solver].
Qed.
End Halted.

(** ** Uploading, and running plain commands *)
Section Runs.
Context `{CLib}.
Context (no_sd_card : bool) (receive : Gcode.Gcode -> Outside -> Gcode.Gcode * Outside) (can_open : list Z -> bool)
  (can_write : list Z -> list Z -> bool) (override_present : bool) (in_shell : list Z -> list Z -> bool) (about : list Arg) (stream line_ : Z).
Abbreviation loop := (commands_loop no_sd_card receive can_open can_write override_present in_shell about stream line_).
Abbreviation turn_ := (turn no_sd_card receive can_open can_write override_present in_shell about stream line_).
Lemma run_then {A B} (c : D A) (f : A -> D B) d x d' : c d = returned x d' -> (c ≫= f) d = f x d'.
Proof. intros E. unfold mbind, D_bind. by rewrite E. Qed.
(** One turn of the loop, its outcome known. *)
Lemma loop_turn n pos s ok d q o d' : s <> [] -> turn_ (next_pos pos s) s ok d = returned (next q o) d' ->
  loop (S n) pos s ok d = loop n (next_pos pos s) q o d'.
Proof. intros Hs E. destruct s as [|c s]; [done|]. cbn [commands_loop]. by rewrite (run_then _ _ _ _ _ E). Qed.
Definition uploaded (cs : list (list Z)) : list Z := concat (map (fun c => c ++ [10]) cs).
(** The dispatcher's state while a file is written. *)
Definition writing (content : list Z) (d : Dispatcher) : Dispatcher := d <| upload_fd := Some content |>.
(** C25: What is uploaded is what was sent. While a stream uploads, to a file that can
    be written to, the commands of each line it sends that are not [M29] go to the
    end of the file in order, each on a line of its own, and are answered [ok]; the
    modules see none of them, halted or not, and nothing else changes. *)
Theorem upload_keeps_commands n pos s ok d content :
  (forall f t, can_write f t = true) -> (length s <= n)%nat -> turn_ready pos s ->
  uploading (disp d) = true -> upload_stream (disp d) = Some stream -> upload_fd (disp d) = Some content ->
  Forall (fun c => starts (chars "M29") c = false) (commands n pos s) ->
  loop n pos s ok d = returned tt (mk_state (writing (content ++ uploaded (commands n pos s)) (disp d)) (out d)
    (log d ++ concat (map (fun c => [writes (c ++ [10]); reply "ok" []]) (commands n pos s)))).
Proof.
  intros Hw. revert pos s ok d content. induction n as [|n IH]; intros pos s ok d content Hl Hr Hu Hst Hfd Hc.
  - destruct s; [|cbn in Hl; lia]. cbn. unfold uploaded. cbn. rewrite !app_nil_r. destruct d as [[] ? ?]. cbn in *. by subst.
  - destruct s as [|c s].
    { cbn. unfold uploaded. cbn. rewrite !app_nil_r. destruct d as [[] ? ?]. cbn in *. by subst. }
    cbn [commands] in *. set (t := c :: s) in *. destruct (each_turn_cuts pos t ltac:(done) Hr) as (_ & Hlt & Hr' & _).
    destruct (cut (next_pos pos t) t) as [c1 q] eqn:Ecut. cbn [snd] in *. inversion Hc as [|? ? Hc1 Hcs]; subst.
    set (d1 := mk_state (writing (content ++ c1 ++ [10]) (disp d)) (out d) (log d ++ [writes (c1 ++ [10]); reply "ok" []])).
    assert (Ht : turn_ (next_pos pos t) t ok d = returned (next q ok) d1).
    { unfold turn. rewrite Ecut. unfold get. erewrite run_then by done. rewrite Hu, Hst, bool_decide_true by done. cbn [andb].
      erewrite run_then; [done|]. unfold upload_command. rewrite Hc1. erewrite run_then by done. rewrite Hfd. cbv zeta.
      erewrite run_then by done. rewrite Hw. erewrite run_then by done. unfold act, d1, writing. cbn. by rewrite <- app_assoc. }
    assert (Hne : t <> []) by done. rewrite (loop_turn n pos t ok d q ok d1 Hne Ht). rewrite (IH _ _ _ d1 (content ++ c1 ++ [10])); [|cbn in *; lia|done|done|done|done|done].
    unfold uploaded, writing, d1. cbn. rewrite <- !app_assoc. cbn. destruct d as [[] ? ?]. done.
Qed.

(** What the modules were handed, in order. *)
Definition handed (l : list Act) : list (Gcode.Gcode * Target) := omap (fun a => match a with receives c t => Some (c, t) | _ => None end) l.
(** A command the dispatcher has no part in: no variable, not in machine
    coordinates, not an [M] number of its own. *)
Definition own_m (n : Z) : bool := elem [28; 30; 2; 112; 115; 117; 118; 1000; 400; 500; 501; 502; 503; 504] n.
Record plain (single : list Z) (c : Gcode.Gcode) : Prop := mk_plain {
  pl_gcode : forall w, new_gcode single false line_ w = Some (c, w);
  pl_first : hd 0 single <> 35; pl_g53 : g c <> 53; pl_m : has_m c = true -> own_m (m c) = false
}.
Definition modal_after (modal : Z) (c : Gcode.Gcode) : Z := if has_g c && (g c <? 4) then g c else modal.
Lemma handed_app l1 l2 : handed (l1 ++ l2) = handed l1 ++ handed l2.
Proof. apply omap_app. Qed.
Lemma handed_said es : handed (map said es) = [].
Proof. by induction es. Qed.
(** The modules take a command, in the state it finds the machine in, without a
    halt and without an error; and a line's commands, each in the state the ones
    before it leave. *)
Definition takes (c : Gcode.Gcode) (o : Outside) : Prop := halted (snd (receive c o)) = false /\ is_error (fst (receive c o)) = false.
Fixpoint take_all (cs : list Gcode.Gcode) (o : Outside) : Prop :=
  match cs with [] => True | c :: cs => takes c o /\ take_all cs (snd (receive c o)) end.
Lemma plain_handle_m single c p ok d : plain single c ->
  handle_m no_sd_card receive can_open override_present in_shell about stream c single p ok d = returned (dispatches c) d.
Proof.
  intros [_ _ _ Hm]. unfold handle_m. cbv zeta. destruct (has_m c); [|done]. cbn [negb]. specialize (Hm eq_refl). unfold own_m, elem in Hm. cbn in Hm.
  replace (no_sd_card && ((m c =? 28) || ((500 <=? m c) && (m c <=? 504) && negb (m c =? 503)))) with false by (destruct no_sd_card; cbn; lia).
  do 3 (rewrite (proj2 (Z.eqb_neq (m c) _)) by lia). repeat (rewrite (proj2 (Z.eqb_neq (m c) _)) by lia). done.
Qed.
Lemma plain_handle_g single c p ok d : plain single c -> exists o d1, handle_g c p ok d = returned (Some (c, p, o)) d1 /\
  out d1 = out d /\ handed (log d1) = handed (log d) /\ disp d1 = (disp d) <| modal_group_1 := modal_after (modal_group_1 (disp d)) c |>.
Proof.
  intros [_ _ Hg _]. unfold handle_g, modal_after. destruct (has_g c); cbn [andb].
  - rewrite (proj2 (Z.eqb_neq _ _) Hg). destruct ((g c =? 1) && negb ok); eexists _, _;
      (split; [reflexivity|]); cbn; rewrite ?handed_app; cbn; rewrite ?app_nil_r;
      (split; [done|]); (split; [done|]); by destruct (g c <? 4), (disp d).
  - exists ok, d. split; [done|]. split; [done|]. split; [done|]. by destruct (disp d).
Qed.
Lemma plain_hand_out c p ok d : takes c (out d) -> exists d1, hand_out receive c p ok d = returned tt d1 /\
  halted (out d1) = false /\ handed (log d1) = handed (log d) ++ [(c, line_stream)] /\ disp d1 = disp d /\ out d1 = snd (receive c (out d)).
Proof.
  intros [Hh' He]. unfold hand_out, call_gcode_received. destruct (receive c (out d)) as [c' o] eqn:Er. cbn in Hh', He. cbn [snd].
  set (d1 := mk_state (disp d) o (log d ++ [receives c line_stream])).
  assert (E1 : (_ ← act (receives c line_stream); step_out (receive c)) d = returned c' d1).
  { erewrite run_then by done. unfold step_out. cbn [out]. by rewrite Er. }
  rewrite (run_then _ _ _ _ _ E1). erewrite run_then by done. erewrite run_then by done. rewrite He.
  assert (Hd1 : handed (log d1) = handed (log d) ++ [(c, line_stream)]) by (unfold d1; cbn; by rewrite handed_app).
  destruct ok; [by exists d1|].
  set (nl := if add_nl c' then act (reply "" []) else mret tt).
  assert (Enl : exists d2, nl d1 = returned tt d2 /\ out d2 = out d1 /\ disp d2 = disp d1 /\ handed (log d2) = handed (log d1)).
  { unfold nl. destruct (add_nl c'); eexists; (split; [reflexivity|]); [|done]. cbn. rewrite !handed_app. cbn. by rewrite !app_nil_r. }
  destruct Enl as (d2 & E2 & Ho & Hd & Hl). rewrite (run_then _ _ _ _ _ E2).
  assert (Hreply : forall fmt args, exists d3, act (reply fmt args) d2 = returned tt d3 /\ halted (out d3) = false /\
    handed (log d3) = handed (log d) ++ [(c, line_stream)] /\ disp d3 = disp d /\ out d3 = o).
  { intros fmt args. eexists. split; [reflexivity|]. cbn. rewrite handed_app. cbn. rewrite app_nil_r, Hl, Hd1, Ho, Hd. done. }
  assert (Hnone : exists d3, (mret tt : D unit) d2 = returned tt d3 /\ halted (out d3) = false /\ handed (log d3) = handed (log d) ++ [(c, line_stream)] /\ disp d3 = disp d /\ out d3 = o).
  { exists d2. rewrite Hl, Hd1, Ho, Hd. done. }
  repeat case_match; try apply Hreply; exact Hnone.
Qed.
Lemma plain_turn pos s single rest c ok d :
  cut pos s = (single, rest) -> hd 0 s = hd 0 single -> plain single c -> halted (out d) = false -> takes c (out d) -> uploading (disp d) = false ->
  exists o d', turn_ pos s ok d = returned (next rest o) d' /\ halted (out d') = false /\
    handed (log d') = handed (log d) ++ [(c, line_stream)] /\
    disp d' = (disp d) <| modal_group_1 := modal_after (modal_group_1 (disp d)) c |> /\ out d' = snd (receive c (out d)).
Proof.
  intros Hcut Hhd Hp Hh Ht Hu. unfold turn. rewrite Hcut. erewrite run_then by done. rewrite Hu. cbn [andb]. unfold run_command.
  set (d1 := mk_state (disp d) (mk_outside (vars (out d)) (halted (out d) || false) (grbl_mode (out d)) (ok_per_line (out d))) (log d ++ [])).
  assert (E1 : lift (new_gcode single false line_) d = returned c d1) by (unfold lift; by rewrite (pl_gcode _ _ Hp)).
  rewrite (run_then _ _ _ _ _ E1). rewrite Hhd, (proj2 (Z.eqb_neq _ _) (pl_first _ _ Hp)). erewrite run_then by done.
  assert (Hd1 : halted (out d1) = false) by (cbn; by rewrite Hh).
  erewrite (run_then _ _ d1 false d1) by (unfold when_halted; erewrite run_then by done; by rewrite Hd1).
  destruct (plain_handle_g _ _ rest ok d1 Hp) as (o & d2 & E2 & Ho & Hl & Hd). rewrite (run_then _ _ _ _ _ E2).
  rewrite (run_then _ _ _ _ _ (plain_handle_m _ _ rest o d2 Hp)).
  destruct (plain_hand_out c rest o d2) as (d3 & E3 & Hh3 & Hl3 & Hd3 & Ho3).
  { rewrite Ho. unfold d1. cbn. rewrite orb_false_r. by destruct (out d). }
  rewrite (run_then _ _ _ _ _ E3). exists o, d3. split; [done|]. split; [done|]. rewrite Hl3, Hl, Hd3, Hd, Ho3, Ho. unfold d1. cbn. rewrite app_nil_r, orb_false_r.
  split; [done|]. split; [done|]. by destruct (out d).
Qed.
(** What the modules make of a line's commands, one after the other. *)
Definition received (cs : list Gcode.Gcode) (o : Outside) : Outside := fold_left (fun o c => snd (receive c o)) cs o.
Lemma plain_commands n pos s cs ok d :
  (length s <= n)%nat -> turn_ready pos s -> halted (out d) = false -> uploading (disp d) = false ->
  Forall2 plain (commands n pos s) cs -> take_all cs (out d) ->
  exists d', loop n pos s ok d = returned tt d' /\ handed (log d') = handed (log d) ++ map (fun c => (c, line_stream)) cs /\
    disp d' = (disp d) <| modal_group_1 := fold_left modal_after cs (modal_group_1 (disp d)) |> /\ halted (out d') = false /\
    out d' = received cs (out d).
Proof.
  assert (Hend : forall d, disp d = (disp d) <| modal_group_1 := modal_group_1 (disp d) |>) by (intros [[] ? ?]; done).
  assert (Hnone : forall cs d, halted (out d) = false -> Forall2 plain [] cs -> exists d', returned tt d = returned tt d' /\
    handed (log d') = handed (log d) ++ map (fun c => (c, line_stream)) cs /\
    disp d' = (disp d) <| modal_group_1 := fold_left modal_after cs (modal_group_1 (disp d)) |> /\ halted (out d') = false /\ out d' = received cs (out d)).
  { intros l d0 Hh Hcs. inversion Hcs; subst. exists d0. cbn. rewrite app_nil_r. split; [done|]. split; [done|]. by split. }
  revert pos s cs ok d. induction n as [|n IH]; intros pos s cs ok d Hl Hr Hh Hu Hcs Hts.
  - destruct s; [|cbn in Hl; lia]. by apply Hnone.
  - destruct s as [|x s]; [by apply Hnone|].
    cbn [commands] in Hcs. set (t := x :: s) in *. assert (Hne : t <> []) by done.
    destruct (each_turn_cuts pos t Hne Hr) as (Hc1 & Hlt & Hr' & _). pose proof (cut_app (next_pos pos t) t) as Happ.
    destruct (cut (next_pos pos t) t) as [c1 q] eqn:Ecut. cbn [fst snd] in *. inversion Hcs as [|? c ? cs' Hp Hcs']; subst. destruct Hts as [Ht Hts].
    assert (Hhd : hd 0 t = hd 0 c1) by (rewrite <- Happ; by destruct c1).
    destruct (plain_turn _ _ _ _ c ok d Ecut Hhd Hp Hh Ht Hu) as (o & d1 & Et & Hh1 & Hl1 & Hd1 & Ho1).
    destruct (IH (next_pos pos t) q cs' o d1) as (d' & E & Hl' & Hd' & Hh' & Ho'); [cbn in *; lia|done|done|by rewrite Hd1; destruct (disp d)|done|by rewrite Ho1|].
    exists d'. rewrite (loop_turn n pos t ok d q o d1 Hne Et), E. split; [done|]. rewrite Hl', Hl1, <- app_assoc. split; [done|].
    split; [rewrite Hd', Hd1; cbn [fold_left]; by destruct (disp d)|]. split; [done|]. by rewrite Ho', Ho1.
Qed.
(** C16: The modules are handed a line's commands in the order they stand in. On a
    line of plain commands, while nothing is uploaded or halted and each command, in
    the state the ones before it leave, is taken by the modules without a halt or
    an error, each command is handed to the modules once, as the G-code its
    text reads as, in order, with nothing between them: the machine is left as they
    leave it, one after the other. Afterwards the movement mode is that of the last
    [G0] to [G3]. *)
Theorem commands_in_order n pos s cs ok d :
  (length s <= n)%nat -> turn_ready pos s -> halted (out d) = false -> uploading (disp d) = false ->
  Forall2 plain (commands n pos s) cs -> take_all cs (out d) ->
  exists d', loop n pos s ok d = returned tt d' /\ handed (log d') = handed (log d) ++ map (fun c => (c, line_stream)) cs /\
    disp d' = (disp d) <| modal_group_1 := fold_left modal_after cs (modal_group_1 (disp d)) |> /\ halted (out d') = false /\
    out d' = received cs (out d).
Proof. apply plain_commands. Qed.
End Runs.

(** ** Every line is answered *)

(** The log only grows. *)
Definition extends {A} (c : D A) : Prop := forall d x d', c d = returned x d' -> exists l, log d' = log d ++ l.
Definition is_reply (a : Act) : bool := match a with reply _ _ => true | _ => false end.
(** An answer is given, or the result is as [S] says. *)
Definition answers {A} (c : D A) (S : A -> Prop) : Prop := forall d x d', c d = returned x d' ->
  exists l, log d' = log d ++ l /\ (existsb is_reply l = true \/ S x).
Lemma extends_ret {A} (x : A) : extends (mret x).
Proof. intros d y d' [= _ <-]. exists []. by rewrite app_nil_r. Qed.
Lemma extends_bind {A B} (c : D A) (f : A -> D B) : extends c -> (forall x, extends (f x)) -> extends (c ≫= f).
Proof.
  intros Hc Hf d y d' E. unfold mbind, D_bind in E. destruct (c d) as [x d1| |] eqn:Ec; try done.
  destruct (Hc _ _ _ Ec) as [l1 E1]. destruct (Hf _ _ _ _ E) as [l2 E2]. exists (l1 ++ l2). by rewrite E2, E1, app_assoc.
Qed.
Lemma extends_act a : extends (act a).
Proof. intros d y d' [= _ <-]. by exists [a]. Qed.
Lemma extends_get {A} (f : State -> A) : extends (get f).
Proof. intros d y d' [= _ <-]. exists []. by rewrite app_nil_r. Qed.
Lemma extends_set_disp f : extends (set_disp f).
Proof. intros d y d' [= _ <-]. exists []. by rewrite app_nil_r. Qed.
Lemma extends_set_out f : extends (set_out f).
Proof. intros d y d' [= _ <-]. exists []. by rewrite app_nil_r. Qed.
Lemma extends_or_fault {A} (x : option A) : extends (or_fault x).
Proof. intros d y d' E. destruct x; [|done]. injection E as _ <-. exists []. by rewrite app_nil_r. Qed.
Lemma extends_step_out {A} (f : Outside -> A * Outside) : extends (step_out f).
Proof. intros d y d' E. unfold step_out in E. destruct (f (out d)). injection E as _ <-. exists []. by rewrite app_nil_r. Qed.
Lemma extends_lift {A} (c : M A) : extends (lift c).
Proof. intros d y d' E. unfold lift in E. destruct (c _) as [[x w]|]; [|done]. injection E as _ <-. by eexists. Qed.
Create HintDb extends.
#[export] Hint Resolve extends_ret extends_act extends_get extends_set_disp extends_set_out extends_or_fault extends_step_out extends_lift : extends.
Ltac extends_case := match goal with |- extends ?c => match c with | (if ?b then _ else _) => destruct b | (match ?x with _ => _ end) => destruct x end end.
Ltac extendss := repeat first [progress (auto with extends nocore) | extends_case | apply extends_bind; [|intros ?] | intros ?].
Lemma answers_extends {A} (c : D A) (S : A -> Prop) : extends c -> (forall x, S x) -> answers c S.
Proof. intros Hc HS d x d' E. destruct (Hc _ _ _ E) as [l El]. exists l. split; [done|by right]. Qed.
Lemma answers_reply fmt args (S : unit -> Prop) : answers (act (reply fmt args)) S.
Proof. intros d x d' [= _ <-]. eexists. split; [done|by left]. Qed.
Lemma answers_ret {A} (x : A) (S : A -> Prop) : S x -> answers (mret x) S.
Proof. intros Hs d y d' [= <- <-]. exists []. rewrite app_nil_r. split; [done|by right]. Qed.
(** The second part answers where the first did not. *)
Lemma answers_bind {A B} (c : D A) (f : A -> D B) S R : answers c S -> (forall x, extends (f x)) -> (forall x, S x -> answers (f x) R) -> answers (c ≫= f) R.
Proof.
  intros Hc He Hf d y d' E. unfold mbind, D_bind in E. destruct (c d) as [x d1| |] eqn:Ec; try done.
  destruct (Hc _ _ _ Ec) as (l1 & E1 & Hx). destruct (He _ _ _ _ E) as [l2 E2]. destruct Hx as [Hx|Hx].
  - exists (l1 ++ l2). rewrite E2, E1, app_assoc, existsb_app, Hx. split; [done|by left].
  - destruct (Hf x Hx _ _ _ E) as (l3 & E3 & H3). exists (l1 ++ l3). rewrite E3, E1, app_assoc, existsb_app. split; [done|].
    destruct H3 as [->|?]; [left; apply orb_true_r|by right].
Qed.
Lemma answers_first {A B} (c : D A) (f : A -> D B) R : answers c (fun _ => False) -> (forall x, extends (f x)) -> answers (c ≫= f) R.
Proof. intros Hc He. by apply (answers_bind _ _ (fun _ => False)). Qed.
Lemma answers_last {A B} (c : D A) (f : A -> D B) (Q : A -> Prop) R : extends c -> gives c Q -> (forall x, Q x -> answers (f x) R) -> answers (c ≫= f) R.
Proof.
  intros Hc Hg Hf d y d' E. unfold mbind, D_bind in E. destruct (c d) as [x d1| |] eqn:Ec; try done.
  destruct (Hc _ _ _ Ec) as [l1 E1]. destruct (Hf x (Hg _ _ _ Ec) _ _ _ E) as (l2 & E2 & H2). exists (l1 ++ l2).
  rewrite E2, E1, app_assoc, existsb_app. split; [done|]. destruct H2 as [->|?]; [left; apply orb_true_r|by right].
Qed.
Section Answers.
Context `{CLib}.
Context (no_sd_card : bool) (receive : Gcode.Gcode -> Outside -> Gcode.Gcode * Outside) (can_open : list Z -> bool)
  (can_write : list Z -> list Z -> bool) (override_present : bool) (in_shell : list Z -> list Z -> bool) (about : list Arg) (stream line_ : Z).
Lemma extends_call_on_halt b : extends (call_on_halt b).
Proof. unfold call_on_halt. extendss. Qed.
Lemma extends_call_gcode_received c t : extends (call_gcode_received receive c t).
Proof. unfold call_gcode_received. extendss. Qed.
#[local] Hint Resolve extends_call_on_halt extends_call_gcode_received : extends.
Lemma extends_handle_m c s p ok : extends (handle_m no_sd_card receive can_open override_present in_shell about stream c s p ok).
Proof. unfold handle_m, start_upload, end_program, tell_everyone, pass_to_shell, store_settings, override_file. cbv zeta. extendss. Qed.
Lemma extends_when_halted c : extends (when_halted c).
Proof. unfold when_halted. extendss. Qed.
Lemma extends_handle_g c p ok : extends (handle_g c p ok).
Proof. unfold handle_g, in_machine_coordinates. extendss. Qed.
Lemma extends_hand_out c p ok : extends (hand_out receive c p ok).
Proof. unfold hand_out. extendss. Qed.
#[local] Hint Resolve extends_handle_m extends_when_halted extends_handle_g extends_hand_out : extends.
Lemma extends_turn pos s ok : extends (turn no_sd_card receive can_open can_write override_present in_shell about stream line_ pos s ok).
Proof. unfold turn, upload_command, run_command. cbv zeta. extendss. Qed.
#[local] Hint Resolve extends_turn : extends.
Lemma extends_loop n pos s ok : extends (commands_loop no_sd_card receive can_open can_write override_present in_shell about stream line_ n pos s ok).
Proof.
  revert pos s ok. induction n as [|n IH]; intros pos s ok; destruct s as [|c s]; cbn [commands_loop]; try apply extends_ret.
  - intros d x d' E. done.
  - apply extends_bind; [apply extends_turn|]. intros [q o|]; [apply IH|apply extends_ret].
Qed.
(** A command with an answer of its own: not an emergency stop, not a message for
    everyone, not in machine coordinates. *)
Definition answering (single : list Z) : Prop := forall w c w', new_gcode single false line_ w = Some (c, w') -> g c <> 53 /\ m c <> 112 /\ m c <> 118.
Lemma hand_out_answers c p : answers (hand_out receive c p false) (fun _ => p <> []).
Proof.
  unfold hand_out. apply (answers_last _ _ (fun _ => True)); [apply extends_call_gcode_received|apply gives_any|]. intros c' _.
  apply (answers_last _ _ (fun _ => True)); [apply extends_get|apply gives_any|]. intros grbl _.
  apply (answers_last _ _ (fun _ => True)); [apply extends_get|apply gives_any|]. intros per_line _.
  destruct (is_error c'); [apply answers_first; [apply answers_reply|extendss]|].
  apply (answers_last _ _ (fun _ => True)); [extendss|apply gives_any|]. intros _ _.
  destruct (txt_after_ok c'); [|apply answers_reply]. destruct (per_line || grbl); [|apply answers_reply].
  destruct p; [apply answers_reply|by apply answers_ret].
Qed.
Lemma when_halted_answers c : answers (when_halted c) (fun b => b = false).
Proof.
  unfold when_halted. apply (answers_last _ _ (fun _ => True)); [apply extends_get|apply gives_any|]. intros [] _; [|by apply answers_ret].
  destruct (has_m c && (m c =? 999)).
  - apply (answers_last _ _ (fun _ => True)); [apply extends_call_on_halt|apply gives_any|]. intros _ _.
    apply answers_first; [apply answers_reply|extendss].
  - destruct (negb _); [|by apply answers_ret]. apply (answers_last _ _ (fun _ => True)); [apply extends_get|apply gives_any|].
    intros grbl _. apply answers_first; [destruct grbl; apply answers_reply|extendss].
Qed.
Lemma handle_g_answers c p : g c <> 53 -> answers (handle_g c p false) (fun r => r = Some (c, p, false)).
Proof.
  intros Hg. unfold handle_g. destruct (has_g c); [|by apply answers_ret]. rewrite (proj2 (Z.eqb_neq _ _) Hg).
  apply (answers_bind _ _ (fun r => r = Some (c, p, false))).
  - destruct (g c =? 1); cbn [andb negb]; [apply answers_first; [apply answers_reply|extendss]|by apply answers_ret].
  - intros r. extendss.
  - intros r ->. apply (answers_last _ _ (fun _ => True)); [extendss|apply gives_any|]. intros _ _. by apply answers_ret.
Qed.
(** An [M] command answers, or is the modules' to answer, as it is. *)
Lemma handle_m_answers c s p : m c <> 112 -> m c <> 118 ->
  answers (handle_m no_sd_card receive can_open override_present in_shell about stream c s p false) (fun r => exists c', r = dispatches c').
Proof.
  intros H1 H2. unfold handle_m. cbv zeta. rewrite (proj2 (Z.eqb_neq _ _) H1), (proj2 (Z.eqb_neq _ _) H2).
  assert (Hd : forall c', answers (mret (dispatches c')) (fun r => exists c', r = dispatches c')) by (intros c'; apply answers_ret; by eexists).
  destruct (negb (has_m c)); [apply Hd|].
  case_match; [apply answers_first; [apply answers_reply|extendss]|].
  case_match. { apply answers_first; [|extendss]. unfold start_upload. apply (answers_last _ _ (fun _ => True)); [extendss|apply gives_any|].
    intros name _. do 2 (apply (answers_last _ _ (fun _ => True)); [extendss|apply gives_any|]; intros ? _).
    apply answers_first; [case_match; apply answers_reply|extendss]. }
  case_match. { apply (answers_last _ _ (fun _ => True)); [extendss|apply gives_any|]. intros [] _; [|apply Hd].
    apply (answers_last _ _ (fun _ => True)); [unfold end_program; extendss|apply gives_any|]. intros _ _. apply Hd. }
  case_match. { apply (answers_last _ _ (fun _ => True)); [unfold end_program; extendss|apply gives_any|]. intros _ _. apply Hd. }
  case_match; [apply answers_first; [apply answers_reply|extendss]|].
  case_match. { do 2 (apply (answers_last _ _ (fun _ => True)); [extendss|apply gives_any|]; intros ? _). apply answers_first; [apply answers_reply|extendss]. }
  case_match. { apply answers_first; [|extendss]. unfold pass_to_shell. apply (answers_last _ _ (fun _ => True)); [extendss|apply gives_any|]. intros rest _.
    cbv zeta. apply (answers_last _ _ (fun _ => True)); [extendss|apply gives_any|]. intros _ _. apply answers_reply. }
  case_match. { apply (answers_last _ _ (fun _ => True)); [extendss|apply gives_any|]. intros _ _. apply answers_first; [apply answers_reply|extendss]. }
  case_match. { apply answers_first; [|extendss]. unfold store_settings. do 5 (apply (answers_last _ _ (fun _ => True)); [extendss|apply gives_any|]; intros ? _). apply answers_reply. }
  case_match. { apply answers_first; [|extendss]. unfold override_file. cbv zeta. apply (answers_last _ _ (fun _ => True)); [extendss|apply gives_any|]. intros _ _. apply answers_reply. }
  case_match. { apply (answers_last _ _ (fun _ => True)); [extendss|apply gives_any|]. intros _ _. apply answers_first; [apply answers_reply|extendss]. }
  case_match; [|apply Hd]. apply (answers_last _ _ (fun _ => True)); [extendss|apply gives_any|]. intros _ _. apply Hd.
Qed.
Lemma turn_answers pos s : answering (fst (cut pos s)) ->
  answers (turn no_sd_card receive can_open can_write override_present in_shell about stream line_ pos s false)
    (fun f => f = next (snd (cut pos s)) false /\ snd (cut pos s) <> []).
Proof.
  intros Ha. unfold turn. destruct (cut pos s) as [c1 p]. cbn [fst snd] in *. apply (answers_last _ _ (fun _ => True)); [apply extends_get|apply gives_any|].
  intros [] _.
  - apply answers_first; [|extendss]. unfold upload_command. destruct (starts _ c1).
    + do 2 (apply (answers_last _ _ (fun _ => True)); [extendss|apply gives_any|]; intros ? _). apply answers_reply.
    + apply (answers_last _ _ (fun _ => True)); [extendss|apply gives_any|]. intros [content|] _; [|apply answers_reply]. cbv zeta.
      apply (answers_last _ _ (fun _ => True)); [extendss|apply gives_any|]. intros _ _. destruct (can_write _ _).
      * apply (answers_last _ _ (fun _ => True)); [extendss|apply gives_any|]. intros _ _. apply answers_reply.
      * apply answers_first; [apply answers_reply|extendss].
  - unfold run_command. apply (answers_last _ _ (fun c => g c <> 53 /\ m c <> 112 /\ m c <> 118)); [apply extends_lift| |].
    { intros d x d' E. unfold lift in E. destruct (new_gcode _ _ _ _) as [[y w]|] eqn:En; [|done]. injection E as <- _. by eapply Ha. }
    intros c (Hg & Hm1 & Hm2). apply (answers_last _ _ (fun _ => True)); [extendss|apply gives_any|]. intros _ _.
    apply (answers_bind _ _ (fun b => b = false)); [apply when_halted_answers|intros b; extendss|]. intros b ->.
    apply (answers_bind _ _ (fun r => r = Some (c, p, false))); [by apply handle_g_answers|intros r; extendss|]. intros r ->.
    apply (answers_bind _ _ (fun r => exists c', r = dispatches c')); [by apply handle_m_answers|intros r; extendss|]. intros r [c' ->].
    apply (answers_bind _ _ (fun _ => p <> [])); [apply hand_out_answers|intros ?; extendss|]. intros _ Hp. by apply answers_ret.
Qed.
(** C26: Every line of commands is answered. A prepared line with at least one
    command, none of them an emergency stop ([M112]), a message for everyone
    ([M118]) or in machine coordinates ([G53]), gets an answer on the stream it came
    from when it has been dispatched: halted or not, uploading or not, in each of the
    ways of answering, whatever the modules make of it. *)
Theorem line_is_answered n pos s d d' :
  s <> [] -> (length s <= n)%nat -> turn_ready pos s -> Forall answering (commands n pos s) ->
  commands_loop no_sd_card receive can_open can_write override_present in_shell about stream line_ n pos s false d = returned tt d' ->
  exists l, log d' = log d ++ l /\ existsb is_reply l = true.
Proof.
  revert pos s d. induction n as [|n IH]; intros pos s d Hs Hl Hr Hc E; [by destruct s; [|cbn in Hl; lia]|].
  destruct s as [|c s]; [done|]. cbn [commands_loop commands] in *. set (t := c :: s) in *. set (p := next_pos pos t) in *.
  destruct (each_turn_cuts pos t Hs Hr) as (_ & Hlt & Hr' & _). fold p in Hr', Hlt.
  assert (Hcut : answering (fst (cut p t)) /\ Forall answering (commands n p (snd (cut p t)))) by (destruct (cut p t); by inversion Hc).
  destruct Hcut as [Hg Hc']. unfold mbind, D_bind in E. destruct (turn _ _ _ _ _ _ _ _ _ p t false d) as [f d1| |] eqn:Et; try done.
  destruct (turn_answers p t Hg _ _ _ Et) as (l1 & E1 & Ha). destruct Ha as [Ha|[-> Hq]].
  - assert (He : exists l2, log d' = log d1 ++ l2) by (destruct f as [q o|]; [by eapply extends_loop|injection E as <-; exists []; by rewrite app_nil_r]).
    destruct He as [l2 E2]. exists (l1 ++ l2). by rewrite E2, E1, app_assoc, existsb_app, Ha.
  - destruct (IH p (snd (cut p t)) d1 Hq ltac:(lia) Hr' Hc' E) as (l2 & E2 & H2). exists (l1 ++ l2). by rewrite E2, E1, app_assoc, existsb_app, H2, orb_true_r.
Qed.
End Answers.

(** ** Examples *)
#[local] Existing Instance Gcode.demo_lib.
(** Modules that do nothing, a card that takes everything. *)
Definition demo_receive (c : Gcode.Gcode) (o : Outside) : Gcode.Gcode * Outside := (c <| is_error := false |>, o).
Definition demo_outside (halt : bool) : Outside := mk_outside (Gcode.kernel demo_world) halt false false.
Definition demo_state (halt : bool) : State := mk_state new_dispatcher (demo_outside halt) [].
Definition demo_loop (s : list Z) (d : State) : Result unit :=
  commands_loop false demo_receive (fun _ => true) (fun _ _ => true) false (fun _ _ => true) [] 1 0 (length s) None s false d.
Definition demo_line (s : string) (d : State) : Result unit :=
  on_console_line_received false demo_receive (fun _ => true) (fun _ _ => true) false (fun _ _ => true) [] 1 0 (chars s) d.
Definition log_of (r : Result unit) : option (list Act) := match r with returned _ d => Some (log d) | _ => None end.
Definition state_of (r : Result unit) : State := match r with returned _ d => d | _ => demo_state false end.
Definition read_gcode (s : string) : Gcode.Gcode := match new_gcode (chars s) false 0 demo_world with Some (c, _) => c | None => mk_gcode [] false false 0 0 0 false false false 0 [] end.
#[local] Ltac reads_as := intros w c w' E; vm_compute in E; injection E as <- _; repeat split; discriminate.
(** A halted machine asked for its temperature, then to move. *)
Lemma halted_line_lets_through_witness :
  exists l, log (state_of (demo_loop (chars "M105 G0X1") (demo_state true))) = [] ++ l /\ Forall allowed_act l /\
    (halted (out (state_of (demo_loop (chars "M105 G0X1") (demo_state true)))) = true \/ on_halt true ∈ l).
Proof.
  apply (halted_line_lets_through false demo_receive (fun _ => true) (fun _ _ => true) false (fun _ _ => true) [] 1 0 (fun c o Ho => Ho)
    (length (chars "M105 G0X1")) None (chars "M105 G0X1") false (demo_state true)).
  - done.
  - by left.
  - change (commands _ _ _) with [chars "M105 "; chars "G0X1"]. constructor; [reads_as|constructor; [reads_as|constructor]].
  - vm_compute. reflexivity.
Defined.
Definition demo_upload : State := mk_state (mk_dispatcher (chars "/sd/a.nc") (Some (chars "G0X0" ++ [10])) (Some 1) 0 true) (demo_outside true) [].
Lemma upload_keeps_commands_witness :
  upload_fd (disp (state_of (demo_loop (chars "G1X5M3S100") demo_upload))) = Some (chars "G0X0" ++ [10] ++ chars "G1X5" ++ [10] ++ chars "M3S100" ++ [10]).
Proof.
  unfold demo_loop. rewrite (upload_keeps_commands false demo_receive (fun _ => true) (fun _ _ => true) false (fun _ _ => true) [] 1 0
    (length (chars "G1X5M3S100")) None (chars "G1X5M3S100") false demo_upload (chars "G0X0" ++ [10]));
    [vm_compute; reflexivity|done|done|by left|done|done|done|].
  change (commands _ _ _) with [chars "G1X5"; chars "M3S100"]. by repeat constructor.
Defined.
Lemma commands_in_order_witness : exists d', demo_loop (chars "G1X5M3S100") (demo_state false) = returned tt d' /\
  handed (log d') = [(read_gcode "G1X5", line_stream); (read_gcode "M3S100", line_stream)] /\ modal_group_1 (disp d') = 1.
Proof.
  destruct (commands_in_order false demo_receive (fun _ => true) (fun _ _ => true) false (fun _ _ => true) [] 1 0
    (length (chars "G1X5M3S100")) None (chars "G1X5M3S100") [read_gcode "G1X5"; read_gcode "M3S100"] false (demo_state false))
    as (d' & E & Hl & Hd & _ & _); try done; [by left| |].
  - change (commands _ _ _) with [chars "G1X5"; chars "M3S100"]. repeat constructor; try done; try (intros w; reflexivity); intros _; reflexivity.
  - exists d'. split; [exact E|]. split; [exact Hl|]. by rewrite Hd.
Defined.
Lemma line_is_answered_witness : exists l, log (state_of (demo_loop (chars "G0X5M3S100") (demo_state false))) = [] ++ l /\ existsb is_reply l = true.
Proof.
  apply (line_is_answered false demo_receive (fun _ => true) (fun _ _ => true) false (fun _ _ => true) [] 1 0
    (length (chars "G0X5M3S100")) None (chars "G0X5M3S100") (demo_state false)); [done|done|by left| |vm_compute; reflexivity].
  change (commands _ _ _) with [chars "G0X5"; chars "M3S100"]. constructor; [reads_as|constructor; [reads_as|constructor]].
Defined.

(** *** What the code does that it may not mean to do *)

(** The modes are moved to the front before the comment is dropped: a comment that
    names [G91] makes the line relative. *)
Lemma comment_sets_mode : prepared (chars "G1 X5 (not G91)") = chars "G91G1 X5 ".
Proof. vm_compute. reflexivity. Qed.
(** A line of a number and a comment is given no answer at all. *)
Lemma numbered_comment_unanswered : log_of (demo_line "N10 (done)" (demo_state false)) = Some [].
Proof. vm_compute. reflexivity. Qed.
(** The name of an upload is cut at the first [G] or [M] in it. *)
Lemma upload_name_cut : exists rest, log_of (demo_line "M28 MyPart.nc" (demo_state false)) = Some (opens (chars "/sd/") :: rest).
Proof. eexists. vm_compute. reflexivity. Qed.
(** [M28] without a name throws. *)
Lemma upload_without_name : demo_line "M28" (demo_state false) = fault.
Proof. vm_compute. reflexivity. Qed.
(** After [G53] the rest of the line is one command, whose [M] number was not
    tested: a halted machine is handed an [M3]. *)
Lemma halted_spindle : option_map handed (log_of (demo_line "S0G53M5G0M3" (demo_state true))) =
  Some [((read_gcode "G0M3"%string) <| stripped := true |> <| command := [] |>, line_stream)].
Proof. vm_compute. reflexivity. Qed.
