(* ===== verification/Programs.v ===== *)
(** * Jobs, from the file to the modules

    The parts put together: a file's lines go through the O-code handler
    ([OCode]), whose expressions are evaluated by [Gcode] and whose other lines are
    dispatched by [GcodeDispatch]. A job is written as a tree of assignments, lines
    of commands, conditionals and loops; [run] says what it means. *)
From stdpp Require Import gmap.
From S2P Require Import Prelude CString Files Binary32.
From S2P Require OCode.
From S2P Require Gcode.
From S2P Require Import Gcode GcodeDispatch.
#[local] Open Scope Z_scope.

(** ** The kernel the O-code handler meets *)
Section Machine.
Context `{CLib}.
Context (no_sd_card : bool) (receive : Gcode.Gcode -> Outside -> Gcode.Gcode * Outside) (can_open : list Z -> bool)
  (can_write : list Z -> list Z -> bool) (override_present : bool) (in_shell : list Z -> list Z -> bool) (about : list Arg) (stream line_ : Z).
(** An expression outside any command: its value, and how far the text was read;
    past the bracket it begins with, when the evaluator says nothing of it. It
    always returns ([evaluate_returns]).
    [src/src/modules/utils/player/OCodeHandler.cpp:379-381] OCodeHandler::process_line *)
Definition evaluate (s : State) (text : list Z) : State * Z * nat :=
  match lift (evaluate_standalone_expression text) s with
  | returned (v, e) s' => (s', v, match e with Some r => (length text - length r)%nat | None => 1%nat end)
  | _ => (s, NAN, 1%nat)
  end.
Definition set_parameters (l : list Z) (s : State) : State :=
  mk_state (disp s) ((out s) <| vars := ((vars (out s)) <| local_params := l |>) |>) (log s).
#[export] Instance kernel_of_player : OCode.Kernel State :=
  OCode.mk_kernel State (fun s => local_params (vars (out s))) set_parameters evaluate.
(** A line that is no O-code: told to the player's stream, when there is one
    ([echo]), and dispatched. The number it is given there is left out: every line
    has the same. A line that throws would end the program.
    [src/src/modules/utils/player/Player.cpp:1797-1804] Player::on_main_loop *)
Definition dispatch (echo : bool) (s : State) (l : list Z) : State :=
  match (_ ← (if echo then act (reply "%s" [a_text l]) else mret tt);
         on_console_line_received no_sd_card receive can_open can_write override_present in_shell about stream line_ l) s with
  | returned _ s' => s'
  | _ => s
  end.
Lemma new_empty w : new_gcode [] false 0 w = Some (mk_gcode [] false false 0 0 0 false false false 0 [], w).
Proof. reflexivity. Qed.
Lemma evaluate_returns text s : exists v e s', lift (evaluate_standalone_expression text) s = returned (v, e) s'.
Proof.
  unfold lift, evaluate_standalone_expression. rewrite (bind_run _ _ _ _ (new_empty _)).
  destruct (evaluate_fine text (mk_world (vars (out s)) [])) as (v & e & w' & E & _). rewrite E. by eexists _, _, _.
Qed.
(** An expression that has a value is evaluated to it, and nothing else happens. *)
Lemma evaluate_value a v s : ok a = true -> value (vars (out s)) a = Some v ->
  OCode.value s (print a) = (s, v).
Proof.
  intros Ho Hv. unfold OCode.value. cbn [OCode.evaluate kernel_of_player]. unfold evaluate, lift, evaluate_standalone_expression.
  rewrite (bind_run _ _ _ _ (new_empty _)).
  pose proof (evaluate_reads a [] [] (mk_world (vars (out s)) []) Ho eq_refl eq_refl eq_refl) as He. cbn [kernel] in He. rewrite Hv in He.
  cbn [app] in He. rewrite app_nil_r in He. rewrite He. cbn. rewrite orb_false_r, app_nil_r. by destruct s as [? [] ?].
Qed.
End Machine.

(** ** How a job is written *)

(** The lines of a job, as its author writes them: a line of commands, an
    assignment of a variable, and O-code blocks with their labels and
    conditions. *)
Inductive job :=
| j_end
| j_line (l : list Z) (p : job)
| j_set (ds l r : list Z) (a : Ast) (p : job)
| j_if (n : list Z) (a : Ast) (b e p : job)
| j_while (n : list Z) (a : Ast) (b p : job)
| j_do (n : list Z) (b : job) (a : Ast) (p : job)
| j_repeat (n : list Z) (a : Ast) (b p : job).
Definition label (n : list Z) : Z := fst (digits 0 n).
Definition o_line (n : list Z) (kw : string) : list Z := 79 :: n ++ 32 :: chars kw ++ [10].
Definition o_line_with (n : list Z) (kw : string) (a : Ast) : list Z := 79 :: n ++ 32 :: chars kw ++ 32 :: print a ++ [10].
Definition set_text (ds l r : list Z) (a : Ast) : list Z := 35 :: ds ++ l ++ 61 :: r ++ print a ++ [10].
Fixpoint prog_of (j : job) : OCode.prog :=
  match j with
  | j_end => OCode.p_end
  | j_line l p => OCode.p_line (l ++ [10]) (prog_of p)
  | j_set ds l r a p => OCode.p_line (set_text ds l r a) (prog_of p)
  | j_if n a b e p => OCode.p_if (label n) (o_line_with n "if" a) (print a) (prog_of b)
      (OCode.c_else (o_line n "else") (prog_of e) (o_line n "endif")) (prog_of p)
  | j_while n a b p => OCode.p_while (label n) (o_line_with n "while" a) (print a) (prog_of b) (o_line n "endwhile") (prog_of p)
  | j_do n b a p => OCode.p_do (label n) (o_line n "do") (prog_of b) (o_line_with n "while" a) (print a) (prog_of p)
  | j_repeat n a b p => OCode.p_repeat (label n) (o_line_with n "repeat" a) (print a) (prog_of b) (o_line n "endrepeat") (prog_of p)
  end.
(** The file. *)
Definition job_text (j : job) : list Z := concat (OCode.text (prog_of j)).

(** A line the player's buffer takes: its last character is its only line end. *)
Definition short (l : list Z) : bool := forallb (fun c => negb (c =? 10) && negb (c =? 0)) (removelast l) && (length l <=? 129)%nat.
Definition good_label (n : list Z) : bool := digits_only n && negb (bool_decide (n = [])) && (label n <? 2 ^ 31) && (length n <=? 100)%nat.
Definition good_head (n : list Z) (kw : string) (a : Ast) : bool := good_label n && ok a && short (o_line_with n kw a).
(** Lines that fit; blocks ten deep at most; a [while] that does not close a [do]
    around it; variables a program may set. *)
Fixpoint fits (d : nat) (dos : list Z) (j : job) : bool :=
  let deep := (d <? OCode.OCODE_MAX_STACK_DEPTH)%nat in
  match j with
  | j_end => true
  | j_line l p => short (l ++ [10]) && elem (chars "GMTS;(") (hd 0 l) && fits d dos p
  | j_set ds l r a p => digits_only ds && negb (bool_decide (ds = [])) && settable (label ds) && blank l && blank r && ok a &&
      short (set_text ds l r a) && fits d dos p
  | j_if n a b e p => good_head n "if" a && deep && fits (S d) dos b && fits (S d) dos e && fits d dos p
  | j_while n a b p => good_head n "while" a && deep && negb (bool_decide (label n ∈ dos)) && fits (S d) dos b && fits d dos p
  | j_do n b a p => good_head n "while" a && deep && fits (S d) (dos ++ [label n]) b && fits d dos p
  | j_repeat n a b p => good_head n "repeat" a && deep && fits (S d) dos b && fits d dos p
  end.

(** *** The texts are what they should be *)

(** Characters that are no letters of a command and begin no comment. *)
Definition clean (c : Z) : bool := negb ((65 <=? c) && (c <=? 90)) && negb (elem [0; 40; 59] c).
Lemma forallb_weaken (f g : Z -> bool) l : (forall c, f c = true -> g c = true) -> forallb f l = true -> forallb g l = true.
Proof. intros Hfg. rewrite !forallb_forall. auto. Qed.
Lemma clean_digits l : digits_only l = true -> forallb clean l = true.
Proof. apply forallb_weaken. intros c. unfold isdigit, clean, elem. cbn. lia. Qed.
Lemma clean_blank l : blank l = true -> forallb clean l = true.
Proof. apply forallb_weaken. intros c. unfold isspace, clean, elem. cbn. lia. Qed.
Lemma clean_print a : ok a = true -> forallb clean (print a) = true.
Proof.
  assert (Hmul : forall o, forallb clean (mul_name o) = true) by (by intros []).
  assert (Hcmp : forall c, forallb clean (cmp_name c) = true) by (by intros []).
  assert (Hbool : forall o, forallb clean (bool_name o) = true) by (by intros []).
  assert (Hfn : forall f, forallb clean (fn_name f) = true) by (by intros []).
  induction a; cbn [ok print]; intros Ho; repeat (apply andb_true_iff in Ho as [Ho ?]);
    unfold num_text; repeat (rewrite forallb_app || (progress cbn [forallb]));
    repeat match goal with
    | IH : ok ?b = true -> _ |- context [print ?b] => rewrite IH by done
    | Hb : blank ?l = true |- context [forallb clean ?l] => rewrite (clean_blank l Hb)
    | Hd : digits_only ?l = true |- context [forallb clean ?l] => rewrite (clean_digits l Hd)
    end; rewrite ?Hmul, ?Hcmp, ?Hbool, ?Hfn; try done.
  - destruct f as [f|]; cbn [forallb default] in *; [rewrite (clean_digits f) by done|]; by destruct neg.
  - by destruct minus.
Qed.
(** The last character written. *)
Definition closes_text (c : Z) : bool := isdigit c || (c =? 46) || (c =? 93).
Lemma digits_last p ds : digits_only ds = true -> ds <> [] -> exists q c, p ++ ds = q ++ [c] /\ closes_text c = true.
Proof.
  intros Hd Hn. destruct (exists_last Hn) as (q & c & ->). exists (p ++ q), c. rewrite app_assoc. split; [done|].
  unfold digits_only in Hd. rewrite forallb_app in Hd. cbn [forallb] in Hd. apply andb_true_iff in Hd as [_ Hc].
  rewrite andb_true_r in Hc. unfold closes_text. by rewrite Hc.
Qed.
Lemma print_last a : ok a = true -> exists q c, print a = q ++ [c] /\ closes_text c = true.
Proof.
  assert (Hbr : forall p r, exists q c, p ++ r ++ [93] = q ++ [c] /\ closes_text c = true) by (intros p r; exists (p ++ r), 93; by rewrite app_assoc).
  assert (Hsub : forall p b, (exists q c, print b = q ++ [c] /\ closes_text c = true) -> exists q c, p ++ print b = q ++ [c] /\ closes_text c = true).
  { intros p b (q & c & -> & Hc). exists (p ++ q), c. by rewrite app_assoc. }
  induction a; cbn [ok print]; intros Ho; repeat (apply andb_true_iff in Ho as [Ho ?]).
  - unfold num_text. destruct f as [[|d f]|]; cbn [default] in *.
    + exists ((if neg then [45] else []) ++ i), 46. by rewrite app_assoc.
    + rewrite app_assoc. change (46 :: d :: f) with ([46] ++ d :: f). rewrite app_assoc. by apply digits_last.
    + rewrite app_nil_r in *. apply digits_last; [done|]. intros ->. by rewrite bool_decide_true in H.
  - change (35 :: ds) with ([35] ++ ds). apply digits_last; [done|]. intros ->. by rewrite bool_decide_true in H.
  - change (91 :: ?x) with ([91] ++ x). rewrite app_assoc. apply Hbr.
  - rewrite app_comm_cons, app_assoc. apply Hbr.
  - change (94 :: ?x) with ([94] ++ x). rewrite !app_assoc. eauto.
  - rewrite !app_assoc. eauto.
  - change ((if minus then 45 else 43) :: ?x) with ([if minus then 45 else 43] ++ x). rewrite !app_assoc. eauto.
  - rewrite !app_assoc. eauto.
  - rewrite !app_assoc. eauto.
Qed.

Lemma short_proper l : l <> [] -> List.last l 0 = 10 -> short l = true -> OCode.proper l.
Proof.
  intros Hn Hlast [Hc Hl]%andb_true_iff. exists (removelast l). rewrite (app_removelast_last 0 Hn) at 1. rewrite Hlast. split; [done|].
  apply Nat.leb_le in Hl. pose proof (f_equal length (app_removelast_last 0 Hn)) as E. rewrite length_app in E. cbn [length] in E. split; [|lia].
  rewrite forallb_forall in Hc. apply List.Forall_forall. intros c Hin. specialize (Hc c Hin). lia.
Qed.
Lemma proper_no_nul l : OCode.proper l -> c_string l = l.
Proof. apply OCode.c_string_proper. Qed.
Lemma strip_line_end_clean p c : closes_text c = true -> OCode.strip_line_end (p ++ [c] ++ [10]) = p ++ [c].
Proof.
  intros Hc. assert (Hn : (c =? 10) || (c =? 13) = false) by (unfold closes_text, isdigit in Hc; lia).
  induction p as [|x p IH]; cbn in *; [by rewrite Hn|]. rewrite IH. by destruct p.
Qed.
Lemma keyword_lower kw s : forallb islower kw = true -> OCode.keyword_of (kw ++ 32 :: s) = (kw, 32 :: s) /\ OCode.keyword_of (kw ++ [10]) = (kw, [10]) /\ lc kw = kw.
Proof.
  induction kw as [|c kw IH]; [done|]. cbn [forallb]. intros [Hc Hk]%andb_true_iff. destruct (IH Hk) as (H1 & H2 & H3).
  assert (E : isspace c || (c =? 91) = false) by (unfold islower, isspace in *; lia). cbn [app OCode.keyword_of]. rewrite E, H1, H2.
  split; [done|]. split; [done|]. cbn. fold (lc kw). rewrite H3. unfold tolower, islower in *. by replace ((65 <=? c) && (c <=? 90)) with false by lia.
Qed.
Lemma ltrim_lower kw s : forallb islower kw = true -> kw <> [] -> ltrim_cstr (kw ++ s) = kw ++ s.
Proof. intros Hk Hn. destruct kw as [|c kw]; [done|]. cbn in *. by replace (isspace c) with false by (unfold islower, isspace in *; lia). Qed.
(** The parts of an O-code line: label, keyword, and what follows the keyword. *)
Lemma parse_parts n kw t rest : good_label n = true -> forallb islower kw = true -> kw <> [] ->
  OCode.keyword_of (kw ++ t) = (kw, t) -> OCode.strip_line_end (ltrim_cstr t) = rest -> c_string (79 :: n ++ 32 :: kw ++ t) = 79 :: n ++ 32 :: kw ++ t ->
  OCode.parse_ocode (79 :: n ++ 32 :: kw ++ t) = Some (label n, kw, rest).
Proof.
  intros [[[Hd Hn]%andb_true_iff Hl]%andb_true_iff _]%andb_true_iff Hk Hne Ek Er Ec. unfold OCode.parse_ocode. rewrite Ec. cbn [ltrim_cstr].
  change (isspace 79) with false. cbv iota. cbn [Z.eqb Pos.eqb].
  rewrite strtol_digits; [|done|by intros ->; rewrite bool_decide_true in Hn|done].
  replace (Z.min (2 ^ 31 - 1) (fst (digits 0 n))) with (label n) by (unfold label in *; lia). cbn [mbind option_bind].
  cbn [ltrim_cstr]. change (isspace 32) with true. cbv iota. rewrite ltrim_lower by done. destruct kw as [|c kw]; [done|].
  cbn [app] in *. rewrite Ek, Er. pose proof (keyword_lower (c :: kw) [] Hk) as (_ & _ & ->). done.
Qed.
Lemma last_line_end p : List.last (p ++ [10]) 0 = 10.
Proof. apply last_last. Qed.
(** A line of a label and a keyword is short. *)
Lemma short_label n kw : good_label n = true -> (length (chars kw) <= 9)%nat -> forallb islower (chars kw) = true -> short (o_line n kw) = true.
Proof.
  intros [[[Hd _]%andb_true_iff _]%andb_true_iff Hn%Nat.leb_le]%andb_true_iff Hl Hk. unfold short, o_line.
  change (79 :: n ++ 32 :: chars kw ++ [10]) with ((79 :: n) ++ (32 :: chars kw) ++ [10]). rewrite app_assoc, removelast_last. apply andb_true_iff. split.
  - rewrite forallb_app. cbn [forallb]. change (negb (79 =? 10) && negb (79 =? 0)) with true. change (negb (32 =? 10) && negb (32 =? 0)) with true. cbn [andb].
    apply andb_true_iff. split; [revert Hd|revert Hk]; apply forallb_weaken; intros c; unfold isdigit, islower; lia.
  - apply Nat.leb_le. rewrite !length_app. cbn [length]. lia.
Qed.
Lemma o_line_reads n kw : good_label n = true -> forallb islower (chars kw) = true -> chars kw <> [] -> (length (chars kw) <= 9)%nat ->
  OCode.reads (o_line n kw) (label n) kw [].
Proof.
  intros Hn Hk Hne Hl. pose proof (short_label n kw Hn Hl Hk) as Hs. assert (Hp : OCode.proper (o_line n kw)).
  { apply short_proper; [done| |done]. unfold o_line. change (79 :: n ++ 32 :: chars kw ++ [10]) with ((79 :: n) ++ (32 :: chars kw) ++ [10]).
    by rewrite app_assoc, last_last. }
  split; [done|]. apply parse_parts; try done; [by apply (keyword_lower (chars kw) [])|by apply proper_no_nul].
Qed.
Lemma o_line_with_reads n kw a : good_head n kw a = true -> forallb islower (chars kw) = true -> chars kw <> [] ->
  OCode.reads (o_line_with n kw a) (label n) kw (print a).
Proof.
  intros [[Hn Ho]%andb_true_iff Hs]%andb_true_iff Hk Hne. assert (Hp : OCode.proper (o_line_with n kw a)).
  { apply short_proper; [done| |done]. unfold o_line_with.
    change (79 :: n ++ 32 :: chars kw ++ 32 :: print a ++ [10]) with ((79 :: n) ++ (32 :: chars kw) ++ (32 :: print a) ++ [10]).
    by rewrite !app_assoc, last_last. }
  split; [done|]. unfold o_line_with. apply (parse_parts n (chars kw) (32 :: print a ++ [10])); try done.
  - by apply keyword_lower.
  - cbn [ltrim_cstr]. change (isspace 32) with true. cbv iota. rewrite ltrim_print by done.
    destruct (print_last a Ho) as (q & c & -> & Hc). rewrite <- app_assoc. by apply strip_line_end_clean.
  - by apply proper_no_nul.
Qed.

(** A job that fits is a structured program. *)
Lemma set_text_proper ds l r a : short (set_text ds l r a) = true -> OCode.proper (set_text ds l r a).
Proof.
  apply short_proper; [done|]. unfold set_text.
  change (35 :: ds ++ l ++ 61 :: r ++ print a ++ [10]) with ((35 :: ds) ++ l ++ (61 :: r) ++ print a ++ [10]). by rewrite !app_assoc, last_last.
Qed.
Lemma no_o_code c l : isspace c = false -> c <> 79 -> c <> 0 -> OCode.parse_ocode (c :: l) = None.
Proof.
  intros Hs Ho Hz. unfold OCode.parse_ocode. cbn [c_string]. rewrite (proj2 (Z.eqb_neq _ _) Hz). cbn [ltrim_cstr]. rewrite Hs. by rewrite (proj2 (Z.eqb_neq _ _) Ho).
Qed.
Lemma first_of_line l set : elem set (hd 0 l) = true -> elem set 0 = false -> exists c l', l = c :: l' /\ elem set c = true.
Proof. intros He H0. destruct l as [|c l]; [cbn [hd] in He; congruence|]. by exists c, l. Qed.
Lemma command_letter c : elem (chars "GMTS;(") c = true -> c = 71 \/ c = 77 \/ c = 84 \/ c = 83 \/ c = 59 \/ c = 40.
Proof.
  change (elem (chars "GMTS;(") c) with ((c =? 71) || ((c =? 77) || ((c =? 84) || ((c =? 83) || ((c =? 59) || ((c =? 40) || false)))))). lia.
Qed.
Lemma fits_well_formed j d dos : fits d dos j = true -> OCode.well_formed d dos (prog_of j).
Proof.
  assert (Hd : forall d, (d <? OCode.OCODE_MAX_STACK_DEPTH)%nat = true -> (d < OCode.OCODE_MAX_STACK_DEPTH)%nat) by (intros; by apply Nat.ltb_lt).
  assert (Hlab : forall n kw a, good_head n kw a = true -> good_label n = true) by (intros n kw a Hh; unfold good_head in Hh; destruct (good_label n); done).
  revert d dos. induction j; intros d dos; cbn [fits prog_of OCode.well_formed OCode.well_formed_clauses]; intros Hf; [done|..];
    repeat match type of Hf with _ && _ = true => apply andb_true_iff in Hf as [Hf ?] end.
  - destruct (first_of_line l (chars "GMTS;(")) as (c & l' & -> & Hc); [done|done|].
    split; [apply short_proper; [done|apply last_last|done]|]. split; [|auto].
    apply command_letter in Hc. apply no_o_code; [destruct Hc as [->|[->|[->|[->|[->| ->]]]]]; done|lia|lia].
  - split; [by apply set_text_proper|]. split; [by apply no_o_code|auto].
  - split; [by apply o_line_with_reads|]. split; [auto|]. split; [auto|]. split; [|auto]. pose proof (Hlab _ _ _ Hf).
    split; [exists []; apply o_line_reads; (done || (cbn; lia))|]. split; [auto|]. exists []. apply o_line_reads; (done || (cbn; lia)).
  - pose proof (Hlab _ _ _ Hf). split; [by apply o_line_with_reads|]. split.
    { intros Hin. by rewrite bool_decide_true in *. }
    split; [auto|]. split; [auto|]. split; [|auto]. exists []. apply o_line_reads; (done || (cbn; lia)).
  - pose proof (Hlab _ _ _ Hf). split; [exists []; apply o_line_reads; (done || (cbn; lia))|]. split; [auto|]. split; [auto|]. split; [by apply o_line_with_reads|auto].
  - pose proof (Hlab _ _ _ Hf). split; [by apply o_line_with_reads|]. split; [auto|]. split; [auto|]. split; [|auto]. exists []. apply o_line_reads; (done || (cbn; lia)).
Qed.

(** ** What a job means *)
Section Meaning.
Context `{CLib}.
Context (receive : Gcode.Gcode -> Outside -> Gcode.Gcode * Outside) (line_ : Z).
(** The commands of a line, as the G-codes they are read as; a comment has none. *)
Definition obeys (l : list Z) (cs : list Gcode.Gcode) : Prop :=
  if elem (chars ";(") (hd 0 l) then cs = [] else Forall2 (plain line_) (line_commands (prepared (l ++ [10]))) cs.
(** An assignment, which the modules are handed as well: neither a [G] nor an [M]. *)
Definition assignment (text : list Z) : Gcode.Gcode := mk_gcode text false false 0 0 0 false false false line_ [].
Definition assigned (n v : Z) (o : Outside) : Outside := o <| vars := stored n v (vars o) |>.
(** From one state of the machine to another, with the G-codes the modules are
    handed; every expression evaluated has a value, and every G-code handed over
    is taken, in the state it finds the machine in, without a halt or an error. *)
Inductive run : job -> Outside -> list Gcode.Gcode -> Outside -> Prop :=
| r_end o : run j_end o [] o
| r_line l p o cs es o' : obeys l cs -> take_all receive cs o -> run p (received receive cs o) es o' -> run (j_line l p) o (cs ++ es) o'
| r_set ds l r a p o v es o' : value (vars o) a = Some v -> is_nan v = false ->
    let c := assignment (set_text ds l r a) in takes receive c (assigned (label ds) v o) ->
    run p (received receive [c] (assigned (label ds) v o)) es o' -> run (j_set ds l r a p) o (c :: es) o'
| r_if_true n a b e p o v es1 o1 es2 o2 : value (vars o) a = Some v -> OCode.is_true v = true ->
    run b o es1 o1 -> run p o1 es2 o2 -> run (j_if n a b e p) o (es1 ++ es2) o2
| r_if_false n a b e p o v es1 o1 es2 o2 : value (vars o) a = Some v -> OCode.is_true v = false ->
    run e o es1 o1 -> run p o1 es2 o2 -> run (j_if n a b e p) o (es1 ++ es2) o2
| r_while_again n a b p o v es1 o1 es2 o2 : value (vars o) a = Some v -> OCode.is_true v = true ->
    run b o es1 o1 -> run (j_while n a b p) o1 es2 o2 -> run (j_while n a b p) o (es1 ++ es2) o2
| r_while_done n a b p o v es o' : value (vars o) a = Some v -> OCode.is_true v = false ->
    run p o es o' -> run (j_while n a b p) o es o'
| r_do n b a p o es1 o1 es2 o2 : run_do b a o es1 o1 -> run p o1 es2 o2 -> run (j_do n b a p) o (es1 ++ es2) o2
| r_repeat n a b p o v es1 o1 es2 o2 : value (vars o) a = Some v ->
    run_times (Z.to_nat (OCode.float_to_int v)) b o es1 o1 -> run p o1 es2 o2 -> run (j_repeat n a b p) o (es1 ++ es2) o2
with run_do : job -> Ast -> Outside -> list Gcode.Gcode -> Outside -> Prop :=
| r_do_again b a o es1 o1 v es2 o2 : run b o es1 o1 -> value (vars o1) a = Some v -> OCode.is_true v = true ->
    run_do b a o1 es2 o2 -> run_do b a o (es1 ++ es2) o2
| r_do_done b a o es o' v : run b o es o' -> value (vars o') a = Some v -> OCode.is_true v = false -> run_do b a o es o'
with run_times : nat -> job -> Outside -> list Gcode.Gcode -> Outside -> Prop :=
| r_times_0 b o : run_times 0 b o [] o
| r_times_S m b o es1 o1 es2 o2 : run b o es1 o1 -> run_times m b o1 es2 o2 -> run_times (S m) b o (es1 ++ es2) o2.
Scheme run_mut := Minimality for run Sort Prop with run_do_mut := Minimality for run_do Sort Prop
  with run_times_mut := Minimality for run_times Sort Prop.
Combined Scheme run_all_ind from run_mut, run_do_mut, run_times_mut.
End Meaning.

(** ** The job is run as it is meant *)
Section Running.
Context `{CLib}.
Context (no_sd_card : bool) (receive : Gcode.Gcode -> Outside -> Gcode.Gcode * Outside) (can_open : list Z -> bool)
  (can_write : list Z -> list Z -> bool) (override_present : bool) (in_shell : list Z -> list Z -> bool) (about : list Arg) (stream line_ : Z) (echo : bool).
Abbreviation dispatch_ := (dispatch no_sd_card receive can_open can_write override_present in_shell about stream line_ echo).
#[local] Existing Instance kernel_of_player.

(** The player's machine at [o], neither halted nor uploading. *)
Record at_ (o : Outside) (s : State) : Prop := mk_at { at_out : out s = o; at_halted : halted o = false; at_uploading : uploading (disp s) = false }.
Definition hands (s : State) (cs : list Gcode.Gcode) (s' : State) : Prop :=
  handed (log s') = handed (log s) ++ map (fun c => (c, line_stream)) cs.
Lemma hands_trans s1 cs1 s2 cs2 s3 : hands s1 cs1 s2 -> hands s2 cs2 s3 -> hands s1 (cs1 ++ cs2) s3.
Proof. unfold hands. intros E1 E2. by rewrite E2, E1, map_app, app_assoc. Qed.
Lemma hands_refl s : hands s [] s.
Proof. unfold hands. by rewrite app_nil_r. Qed.
(** What is dispatched, past the echo. *)
Lemma dispatch_echo l s o : at_ o s -> exists s1, at_ o s1 /\ hands s [] s1 /\
  dispatch_ s l = match on_console_line_received no_sd_card receive can_open can_write override_present in_shell about stream line_ l s1 with
                  | returned _ s' => s' | _ => s end.
Proof.
  intros [Ho Hh Hu]. unfold dispatch. destruct echo.
  - exists (mk_state (disp s) (out s) (log s ++ [reply "%s" [a_text l]])). split; [done|]. unfold hands. cbn. rewrite handed_app. cbn. by rewrite !app_nil_r.
  - exists s. split; [done|]. by split; [apply hands_refl|].
Qed.
Lemma ltrim_first c l : isspace c = false -> ltrim (c :: l) = c :: l.
Proof.
  intros Hc. unfold ltrim, find_first_not_of. cbn [find_from].
  assert (E : negb (elem [32; 9; 10; 13; 12; 11] c) = true).
  { change (elem [32; 9; 10; 13; 12; 11] c) with ((c =? 32) || ((c =? 9) || ((c =? 10) || ((c =? 13) || ((c =? 12) || ((c =? 11) || false)))))). unfold isspace in Hc. lia. }
  by rewrite E.
Qed.
(** The dispatcher tries a line that begins with a command's letter once. *)
Lemma received_line c l s : elem (chars "GMTS#") c = true ->
  on_console_line_received no_sd_card receive can_open can_write override_present in_shell about stream line_ (c :: l) s =
  commands_loop no_sd_card receive can_open can_write override_present in_shell about stream line_ (length (prepared (c :: l))) None (prepared (c :: l)) false s.
Proof.
  intros Hc. change (elem (chars "GMTS#") c) with ((c =? 71) || ((c =? 77) || ((c =? 84) || ((c =? 83) || ((c =? 35) || false))))) in Hc.
  unfold on_console_line_received. rewrite ltrim_first by (unfold isspace; lia). cbn [try_again hd].
  replace ((c =? 36) || islower c) with false by (unfold islower; lia).
  replace (elem (chars "GMTSN#") c) with true; [done|]. symmetry.
  change (elem (chars "GMTSN#") c) with ((c =? 71) || ((c =? 77) || ((c =? 84) || ((c =? 83) || ((c =? 78) || ((c =? 35) || false)))))). lia.
Qed.
Lemma received_comment c l s : elem (chars ";(") c = true ->
  on_console_line_received no_sd_card receive can_open can_write override_present in_shell about stream line_ (c :: l) s = act (reply "ok" []) s.
Proof.
  intros Hc. change (elem (chars ";(") c) with ((c =? 59) || ((c =? 40) || false)) in Hc.
  assert (E : c = 59 \/ c = 40) by lia. by destruct E as [-> | ->].
Qed.
Lemma dispatch_commands l cs o s : elem (chars "GMTS;(") (hd 0 l) = true -> obeys line_ l cs -> take_all receive cs o -> at_ o s ->
  at_ (received receive cs o) (dispatch_ s (l ++ [10])) /\ hands s cs (dispatch_ s (l ++ [10])).
Proof.
  intros Hl Hc Ht Hs. destruct (dispatch_echo (l ++ [10]) s o Hs) as (s1 & [Ho Hh Hu] & H1 & ->).
  destruct (first_of_line l (chars "GMTS;(")) as (c & l' & -> & Hcl); [done|done|]. unfold obeys in Hc. cbn [hd] in Hc. cbn [app].
  destruct (elem (chars ";(") c) eqn:Ecl.
  - subst cs. rewrite received_comment by done. cbn. split; [by split|]. unfold hands in *. cbn. rewrite handed_app. cbn. rewrite app_nil_r. exact H1.
  - rewrite received_line.
    2:{ apply command_letter in Hcl as [->|[->|[->|[->|[->| ->]]]]]; done. }
    destruct (plain_commands no_sd_card receive can_open can_write override_present in_shell about stream line_
      (length (prepared (c :: l' ++ [10]))) None (prepared (c :: l' ++ [10])) cs false s1)
      as (d' & E & Hl' & Hd' & Hh' & Ho'); [done|by left|by rewrite Ho|done|exact Hc|by rewrite Ho|].
    rewrite E. split.
    + split; [by rewrite Ho', Ho|by rewrite <- Ho, <- Ho'|by rewrite Hd'; destruct (disp s1)].
    + eapply (hands_trans _ [] _ cs); [exact H1|exact Hl'].
Qed.
Lemma command_letter_comment c : elem (chars ";(") c = true -> c = 59 \/ c = 40.
Proof. change (elem (chars ";(") c) with ((c =? 59) || ((c =? 40) || false)). lia. Qed.
Lemma clean_none set l : (forall c, elem set c = true -> c = 10 \/ clean c = false) -> elem set 10 = false -> forallb clean l = true ->
  find_from (elem set) (l ++ [10]) = None.
Proof.
  intros Hs Hn. induction l as [|c l IH]; cbn [app find_from forallb]; [by rewrite Hn|]. intros [Hc Hl]%andb_true_iff.
  destruct (elem set c) eqn:E; [|by rewrite IH]. destruct (Hs c E) as [-> |]; congruence.
Qed.
Lemma clean_set_text ds l r a : digits_only ds = true -> blank l = true -> blank r = true -> ok a = true ->
  exists t, set_text ds l r a = t ++ [10] /\ forallb clean t = true /\ hd 0 t = 35.
Proof.
  intros Hd Hl Hr Ho. exists (35 :: ds ++ l ++ 61 :: r ++ print a). unfold set_text.
  split; [by rewrite ?app_comm_cons, <- !app_assoc, ?app_comm_cons, <- ?app_assoc|]. split; [|done].
  cbn [forallb]. rewrite !forallb_app. cbn [forallb]. rewrite forallb_app, clean_digits, !clean_blank, clean_print by done. done.
Qed.
Lemma clean_letter l t : forallb clean t = true -> 65 <= l <= 90 -> has_letter l (t ++ [10]) = false.
Proof.
  intros Ht Hl. apply has_letter_false. intros [Hin|Hin]%elem_of_app; [|by apply list_elem_of_singleton in Hin; lia].
  rewrite forallb_forall in Ht. apply list_elem_of_In, Ht in Hin. unfold clean in Hin. lia.
Qed.
(** An assignment, read as a G-code. *)
Lemma assignment_read t w : forallb clean t = true -> new_gcode (t ++ [10]) false line_ w = Some (assignment line_ (t ++ [10]), w).
Proof.
  intros Ht. assert (Hz : c_string (t ++ [10]) = t ++ [10]).
  { apply c_string_id. intros [Hin|Hin]%elem_of_app; [|by apply list_elem_of_singleton in Hin].
    rewrite forallb_forall in Ht. by apply list_elem_of_In, Ht in Hin. }
  pose proof (clean_letter 71 t Ht ltac:(lia)) as HG. pose proof (clean_letter 77 t Ht ltac:(lia)) as HM.
  unfold new_gcode, prepare_cached_values. rewrite Hz. clear Hz. set (text := t ++ [10]) in *. clearbody text. set (c0 := mk_gcode text _ _ _ _ _ _ _ _ _ _).
  unfold mbind, M_bind, mret, M_ret. change (command c0) with text. rewrite HG. change (command (c0 <| has_g := false |>)) with text. by rewrite HM.
Qed.
Lemma dispatch_set ds l r a v o s : digits_only ds = true -> ds <> [] -> settable (label ds) = true -> blank l = true -> blank r = true -> ok a = true ->
  value (vars o) a = Some v -> is_nan v = false -> takes receive (assignment line_ (set_text ds l r a)) (assigned (label ds) v o) -> at_ o s ->
  let text := set_text ds l r a in let c := assignment line_ text in
  at_ (received receive [c] (assigned (label ds) v o)) (dispatch_ s text) /\ hands s [c] (dispatch_ s text).
Proof.
  intros Hd Hne Hn Hl Hr Ho Hv Hnan Htk Hs. cbv zeta. destruct (dispatch_echo (set_text ds l r a) s o Hs) as (s1 & [Hout Hh Hu] & H1 & ->).
  destruct (clean_set_text ds l r a Hd Hl Hr Ho) as (t & Et & Ht & Hhd).
  destruct (set_variable_runs ds l r a [10] v (mk_world (vars (out s1)) []) Hd Hne Hn Hl Hr Ho eq_refl eq_refl) as (w' & Ew & Ek & Hev);
    [by rewrite <- Hout in Hv|done|]. change (35 :: ds ++ l ++ 61 :: r ++ print a ++ [10]) with (set_text ds l r a) in Ew. cbn [events kernel length] in *. rewrite drop_0 in Hev.
  assert (Hp : prepared (set_text ds l r a) = set_text ds l r a).
  { unfold prepared. change (hd 0 (set_text ds l r a)) with 35. cbn [Z.eqb Pos.eqb]. unfold strip_comment, find_first_of. rewrite drop_0, Et.
    rewrite clean_none; [done|by intros c Hc; right; apply command_letter_comment in Hc as [-> | ->]|done|done]. }
  assert (Hcons : exists x, set_text ds l r a = 35 :: x) by (by eexists). destruct Hcons as [x Ex].
  rewrite Ex in Hp |- *. rewrite received_line by done. rewrite Hp, <- Ex.
  assert (Hnew : lift (new_gcode (set_text ds l r a) false line_) s1 = returned (assignment line_ (set_text ds l r a)) (mk_state (disp s1) (out s1) (log s1))).
  { unfold lift. rewrite Et, assignment_read by done. cbn. rewrite orb_false_r, app_nil_r. by destruct (out s1). }
  set (o2 := assigned (label ds) v o). set (s2 := mk_state (disp s1) o2 (log s1 ++ map said (events w'))).
  assert (Hset : lift (set_variable_value (set_text ds l r a)) (mk_state (disp s1) (out s1) (log s1)) = returned v s2).
  { unfold lift. cbn [out]. rewrite Ew, Ek. cbn [out log disp]. unfold s2, o2, assigned. rewrite <- Hout.
    replace (existsb is_halt (events w')) with false; [by rewrite orb_false_r; destruct (out s1)|]. symmetry. apply not_true_iff_false. intros (e & Hin & He)%existsb_exists.
    apply Hev. apply list_elem_of_In. destruct e as [| | [] |]; try done. }
  assert (Hh2 : halted (out s2) = false) by (by destruct o).
  destruct (plain_hand_out receive (assignment line_ (set_text ds l r a)) [] false s2 Htk) as (s3 & E3 & Hh3 & Hl3 & Hd3 & Ho3).
  assert (Hturn : turn no_sd_card receive can_open can_write override_present in_shell about stream line_ None (set_text ds l r a) false s1 = returned (next [] false) s3).
  { unfold turn. cbn [cut]. erewrite run_then by done. rewrite Hu. cbn [andb]. unfold run_command. rewrite (run_then _ _ _ _ _ Hnew).
    change (hd 0 (set_text ds l r a) =? 35) with true. cbv iota. erewrite (run_then _ _ _ tt s2) by (erewrite run_then by exact Hset; done).
    erewrite (run_then _ _ s2 false s2) by (unfold when_halted; erewrite run_then by done; by rewrite Hh2).
    unfold handle_g. cbn [has_g assignment]. erewrite run_then by done. unfold handle_m. cbn [has_m assignment negb]. erewrite run_then by done.
    cbv iota. by rewrite (run_then _ _ _ _ _ E3). }
  assert (Hlen : exists n, length (set_text ds l r a) = S n) by (rewrite Ex; by eexists). destruct Hlen as [n ->].
  rewrite (loop_turn _ _ _ _ _ _ _ _ _ n None (set_text ds l r a) false s1 [] false s3); [|by rewrite Ex|].
  2:{ rewrite Ex. change (next_pos None (35 :: x)) with (@None nat). by rewrite <- Ex. }
  replace (commands_loop no_sd_card receive can_open can_write override_present in_shell about stream line_ n (next_pos None (set_text ds l r a)) [] false s3)
    with (returned tt s3) by (by destruct n).
  split.
  - split; [exact Ho3|by rewrite Ho3 in Hh3|by rewrite Hd3].
  - eapply (hands_trans _ [] _ [_]); [exact H1|]. unfold hands. rewrite Hl3. unfold s2. cbn [log]. by rewrite handed_app, handed_said, app_nil_r.
Qed.
(** *** The simulation *)
Definition same (o : Outside) (cs : list Gcode.Gcode) (o' : Outside) (go : State -> list (list Z) -> State -> Prop) : Prop :=
  forall s, at_ o s -> exists ls s', go s ls s' /\ at_ o' s' /\ hands s cs s'.
Lemma same_then o1 cs1 o2 cs2 o3 (go1 go2 go : State -> list (list Z) -> State -> Prop) :
  same o1 cs1 o2 go1 -> same o2 cs2 o3 go2 ->
  (forall s1 l1 s2 l2 s3, at_ o1 s1 -> at_ o2 s2 -> go1 s1 l1 s2 -> go2 s2 l2 s3 -> go s1 (l1 ++ l2) s3) -> same o1 (cs1 ++ cs2) o3 go.
Proof.
  intros H1 H2 Hgo s Hs. destruct (H1 s Hs) as (l1 & s1 & E1 & Hs1 & Hh1). destruct (H2 s1 Hs1) as (l2 & s2 & E2 & Hs2 & Hh2).
  exists (l1 ++ l2), s2. split; [by eapply Hgo|]. split; [done|by eapply hands_trans].
Qed.
Lemma same_weaken o cs o' (go1 go : State -> list (list Z) -> State -> Prop) :
  same o cs o' go1 -> (forall s l s', at_ o s -> at_ o' s' -> go1 s l s' -> go s l s') -> same o cs o' go.
Proof. intros H1 Hgo s Hs. destruct (H1 s Hs) as (l & s' & E & Hs' & Hh). exists l, s'. split; [by apply Hgo|done]. Qed.
Lemma value_at a v o s : ok a = true -> value (vars o) a = Some v -> at_ o s -> OCode.value s (print a) = (s, v).
Proof. intros Ho Hv [Hs _ _]. apply evaluate_value; [done|by rewrite Hs]. Qed.
Definition exec_ := OCode.exec dispatch_.
Definition exec_do_ := OCode.exec_do dispatch_.
Definition exec_times_ := OCode.exec_times dispatch_.
Lemma jobs_simulated :
  (forall j o cs o', run receive line_ j o cs o' -> forall d dos, fits d dos j = true -> same o cs o' (exec_ (prog_of j))) /\
  (forall b a o cs o', run_do receive line_ b a o cs o' -> forall d dos, fits d dos b = true -> ok a = true -> same o cs o' (exec_do_ (prog_of b) (print a))) /\
  (forall m b o cs o', run_times receive line_ m b o cs o' -> forall d dos, fits d dos b = true -> same o cs o' (exec_times_ m (prog_of b))).
Proof.
  assert (Hok : forall n kw a, good_head n kw a = true -> ok a = true) by (intros n kw a; unfold good_head; by intros [[_ ?]%andb_true_iff _]%andb_true_iff).
  apply run_all_ind; cbn [fits prog_of]; intros;
    repeat match goal with H : _ && _ = true |- _ => apply andb_true_iff in H as [H ?] end.
  - intros s Hs. exists [], s. split; [apply OCode.x_end|]. split; [done|apply hands_refl].
  - intros s Hs. destruct (dispatch_commands l cs o s) as [Hs1 Hh1]; [done|done|done|done|].
    destruct (H3 d dos ltac:(done) _ Hs1) as (ls & s' & Hx & Hs' & Hh'). exists ((l ++ [10]) :: ls), s'. split; [|split; [done|by eapply hands_trans]].
    apply OCode.x_line; [|exact Hx]. destruct l; [done|]. rewrite length_app. cbn. lia.
  - intros s Hs. destruct (dispatch_set ds l r a v o s) as [Hs1 Hh1]; try done; [by intros ->; rewrite bool_decide_true in *|].
    destruct (H4 d dos ltac:(done) _ Hs1) as (ls & s' & Hx & Hs' & Hh'). exists (set_text ds l r a :: ls), s'. split; [|split; [done|by eapply (hands_trans _ [_])]].
    apply OCode.x_line; [|exact Hx]. unfold set_text. cbn [length]. rewrite !length_app. cbn [length]. lia.
  - eapply same_then; [by eapply H3|by eapply H5|]. intros s1 l1 s2 l2 s3 Hs1 _ Hb Hp. eapply OCode.x_if_true; [by eapply value_at; eauto|done|exact Hb|exact Hp].
  - eapply same_then; [by eapply H3|by eapply H5|]. intros s1 l1 s2 l2 s3 Hs1 _ Hb Hp.
    eapply OCode.x_if_false; [by eapply value_at; eauto|done|apply OCode.x_else; exact Hb|exact Hp].
  - eapply same_then; [by eapply H3|apply (H5 d dos); by rewrite H6, H10, H9, H8, H7|].
    intros s1 l1 s2 l2 s3 Hs1 _ Hb Hp. eapply OCode.x_while_again; [by eapply value_at; eauto|done|exact Hb|exact Hp].
  - eapply same_weaken; [by eapply H3|]. intros s l s' Hs _ Hp. eapply OCode.x_while_done; [by eapply value_at; eauto|done|exact Hp].
  - eapply same_then; [eapply H1; eauto|by eapply H3|]. intros s1 l1 s2 l2 s3 _ _ Hb Hp. by eapply OCode.x_do.
  - eapply same_then; [by eapply H2|by eapply H4|]. intros s1 l1 s2 l2 s3 Hs1 _ Hb Hp. eapply OCode.x_repeat; [by eapply value_at; eauto|exact Hb|exact Hp].
  - eapply same_then; [by eapply H1|by eapply H5; eauto|]. intros s1 l1 s2 l2 s3 _ Hs2 Hb Hp. eapply OCode.x_do_again; [exact Hb|by eapply value_at|done|exact Hp].
  - eapply same_weaken; [by eapply H1|]. intros s l s' _ Hs' Hb. eapply OCode.x_do_done; [exact Hb|by eapply value_at|done].
  - intros s Hs. exists [], s. split; [apply OCode.x_times_0|]. split; [done|apply hands_refl].
  - eapply same_then; [by eapply H1|by eapply H3|]. intros s1 l1 s2 l2 s3 _ _ Hb Hp. by eapply OCode.x_times_S.
Qed.
(** C13: A job is run as it is written. Take any tree of lines of commands,
    assignments of expressions to variables, conditionals with two branches, while,
    do-while and repeat loops, with expressions of the language as conditions,
    whose lines fit and whose blocks are at most ten deep. If by its meaning it
    hands the modules certain G-codes, each of which they take, in the state it
    finds the machine in, without a halt or an error, and leaves the machine, its variables
    included, in a certain state, then the player, given its text, does: line by
    line through the file, the O-code handler, the evaluator and the dispatcher,
    the modules are handed those G-codes, in that order and no others, and the
    machine is left in that state, with no block open, no error of the O-code handler's told
    and the file read to its end. *)
Theorem job_runs_as_meant halts j o cs o' d lg :
  fits 0 [] j = true -> run receive line_ j o cs o' -> halted o = false -> uploading d = false ->
  exists lines w, OCode.runs dispatch_ halts (OCode.mk_world OCode.new_ocode (mk_file (job_text j) 0 false) 0 (mk_state d o lg) []) lines w /\
    out (OCode.kernel w) = o' /\ handed (log (OCode.kernel w)) = handed lg ++ map (fun c => (c, line_stream)) cs /\ halted o' = false /\
    OCode.stack w = [] /\ OCode.notes w = [] /\ exists w', OCode.line_iteration dispatch_ halts w false = Some (w', false, OCode.source_ended).
Proof.
  intros Hf Hr Hh Hu. destruct (proj1 jobs_simulated j o cs o' Hr 0%nat [] Hf (mk_state d o lg)) as (ls & s' & Hx & [Ho Hh' _] & Hs); [by split|].
  destruct (OCode.structured_runs dispatch_ halts (prog_of j) _ _ _ (fits_well_formed j 0 [] Hf) Hx) as (w & Hw & Hk & Hst & Hn & _ & Hend).
  exists ls, w. split; [exact Hw|]. rewrite Hk. split; [exact Ho|]. split; [exact Hs|]. split; [done|]. split; [done|]. by split.
Qed.
End Running.

(** ** Examples *)
#[local] Existing Instance Gcode.demo_lib.
Definition var (s : string) : Ast := Var (chars s).
(** [#101=0], then twice [G1X#101] and [#101=#101+1], then [M5] unless [#101] is
    not 2. *)
Definition demo_job : job :=
  j_set (chars "101") [] [] (Gcode.num 0)
    (j_while (chars "1") (Bracket (Compare cmp_lt (var "101") [32] [32] (Gcode.num 2)) [])
       (j_line (chars "G1X#101") (j_set (chars "101") [] [] (Add false (var "101") [] [] (Gcode.num 1)) j_end))
       (j_if (chars "2") (Bracket (Compare cmp_eq (var "101") [32] [32] (Gcode.num 2)) []) (j_line (chars "M5") j_end) (j_line (chars "M3") j_end) j_end)).
(** Modules that refuse an arc, as an error, and take all else. *)
Definition arc_refusing (c : Gcode.Gcode) (o : Outside) : Gcode.Gcode * Outside :=
  (c <| is_error := has_g c && ((g c =? 2) || (g c =? 3)) |>, o).
Example arc_refused : ~ takes arc_refusing (read_gcode "G2X1") (demo_outside false).
Proof. by intros [_ [=]]. Qed.
Definition demo_dispatch : State -> list Z -> State :=
  dispatch false arc_refusing (fun _ => true) (fun _ _ => true) false (fun _ _ => true) [] 1 0 true.
Definition demo_start : OCode.World := OCode.mk_world OCode.new_ocode (mk_file (job_text demo_job) 0 false) 0 (demo_state false) [].
Definition g1x101 : Gcode.Gcode := read_gcode ("G1X#101" ++ String "010" "").
Lemma demo_text : job_text demo_job = concat (map (fun l => chars l ++ [10])
  ["#101=0"; "O1 while [#101 lt 2]"; "G1X#101"; "#101=#101+1"; "O1 endwhile"; "O2 if [#101 eq 2]"; "M5"; "O2 else"; "M3"; "O2 endif"]%string).
Proof. vm_compute. reflexivity. Qed.
Lemma demo_run : exists cs o', run arc_refusing 0 demo_job (demo_outside false) cs o' /\
  filter (fun c => has_g c || has_m c = true) cs = [g1x101; g1x101; read_gcode ("M5" ++ String "010" "")] /\ var_value (vars o') 101 = Some (float_of_int 2).
Proof.
  assert (H1 : forall p o es o', halted o = false -> run arc_refusing 0 p o es o' -> run arc_refusing 0 (j_line (chars "G1X#101") p) o (g1x101 :: es) o').
  { intros p o es o' Ho Hp. apply (r_line _ _ (chars "G1X#101") p o [g1x101] es o'); [|by repeat split|exact Hp]. unfold obeys. change (elem _ _) with false. cbv iota.
    change (line_commands _) with [chars "G1X#101" ++ [10]]. repeat constructor; try done; try (intros w; reflexivity). }
  assert (H2 : forall p o es o', halted o = false -> run arc_refusing 0 p o es o' -> run arc_refusing 0 (j_line (chars "M5") p) o (read_gcode ("M5" ++ String "010" "") :: es) o').
  { intros p o es o' Ho Hp. apply (r_line _ _ (chars "M5") p o [read_gcode ("M5" ++ String "010" "")] es o'); [|by repeat split|exact Hp]. unfold obeys. change (elem _ _) with false. cbv iota.
    change (line_commands _) with [chars "M5" ++ [10]]. repeat constructor; try done; try (intros w; reflexivity). }
  eexists _, _. split; [|split].
  - eapply r_set; [vm_compute; reflexivity|reflexivity|by repeat split|].
    eapply r_while_again; [vm_compute; reflexivity|reflexivity| |].
    { apply H1; [done|]. eapply r_set; [vm_compute; reflexivity|reflexivity|by repeat split|apply r_end]. }
    eapply r_while_again; [vm_compute; reflexivity|reflexivity| |].
    { apply H1; [done|]. eapply r_set; [vm_compute; reflexivity|reflexivity|by repeat split|apply r_end]. }
    eapply r_while_done; [vm_compute; reflexivity|reflexivity|].
    eapply r_if_true; [vm_compute; reflexivity|reflexivity| |apply r_end]. apply H2; [done|apply r_end].
  - vm_compute. reflexivity.
  - vm_compute. reflexivity.
Qed.
Lemma job_runs_as_meant_witness : exists lines w cs, OCode.runs demo_dispatch (fun _ => false) demo_start lines w /\
  handed (log (OCode.kernel w)) = map (fun c => (c, line_stream)) cs /\
  filter (fun c => has_g c || has_m c = true) cs = [g1x101; g1x101; read_gcode ("M5" ++ String "010" "")] /\
  var_value (vars (out (OCode.kernel w))) 101 = Some (float_of_int 2).
Proof.
  destruct demo_run as (cs & o' & Hr & Hcs & Hv).
  destruct (job_runs_as_meant false arc_refusing (fun _ => true) (fun _ _ => true) false (fun _ _ => true) [] 1 0 true
    (fun _ => false) demo_job (demo_outside false) cs o' new_dispatcher []) as (lines & w & Hw & Ho & Hl & _); [vm_compute; reflexivity|exact Hr|done|done|].
  exists lines, w, cs. split; [exact Hw|]. split; [exact Hl|]. split; [exact Hcs|]. rewrite Ho. exact Hv.
Defined.

(** *** What the code does that it may not mean to do *)

(** A call's arguments are stored one by one as they are evaluated: [O1 call
    [#2][#1]] does not exchange the parameters, both become the second. *)
Lemma swapped_arguments :
  let s := set_parameters (float_of_int 1 :: float_of_int 2 :: repeat 0 28) (demo_state false) in
  take 2 (local_params (vars (out (OCode.pass_arguments (H := kernel_of_player) 30 0 s (chars "[#2][#1]"))))) = [float_of_int 2; float_of_int 2].
Proof. vm_compute. reflexivity. Qed.
